(* ===== verification/_CoqProject ===== *)
-Q . S2P
Prelude.v
GoStd.v
Uuid.v
Platform.v
JsonString.v
Domain.v
Plan.v
Schedule.v
DomainLogs.v
AgentStore.v
AgentLogs.v
AgentConfig.v
AgentScheduler.v
AgentDispatch.v
AgentTrace.v
GatewaySession.v
GatewayAuth.v
AuditChain.v
PendingRecord.v
PendingQueue.v
PendingTrace.v
PendingRecovery.v
PendingExamples.v
RcloneConfig.v
RcloneProps.v
RcloneTarget.v
RcloneExamples.v
CentralTx.v
CentralStore.v
StorageSecret.v
CentralTrace.v
CentralGrowth.v
CentralRefine.v
CentralFrame.v
CentralPlane.v
StorageVault.v
CentralHistory.v
CentralSafety.v
CentralReplies.v
CentralProtocol.v
CentralExamples.v
VaultOrder.v
VaultRefine.v
VaultHistory.v
CentralJobs.v
JobSpec.v
JobRefine.v
JobTrace.v
JobHistory.v
JobFrame.v
JobWorker.v
WorkerHistory.v
JobSafety.v
JobExamples.v
VaultSafety.v
WorkerSafety.v
VaultExamples.v
RepositoryView.v
SnapshotService.v
SnapshotSafety.v
ServiceExamples.v
BackupStore.v
BackupSpec.v
BackupRefine.v
BackupPlane.v
BackupStream.v
BackupHistory.v
BackupSafety.v
BackupExamples.v
