(* ===== verification/Prelude.v ===== *)
(** * RestFleet: a verification development

    RestFleet backs up a fleet of hosts with restic.  A control plane (Server)
    keeps the fleet's desired state and operations in PostgreSQL; an Agent on
    every host schedules and runs backups on its own, from a desired state it
    stores locally; a Gateway stands between the Agents and the storage
    backend, lets through only what a backup session may do, and reports to
    the Server through a durable queue.  The three parts fail and restart
    independently.  This library models the state each part keeps and the
    operations on it, as Gallina functions that follow the Go sources under
    src/internal, and proves what the parts promise each other.

    ** Conventions

    A Go function is a Gallina function of the same name; a method takes its
    receiver as an argument; a method [Validate] carries its type in its name
    ([ValidatePlan]).  Machine integers are [Z], with wrap-around written out
    where the code can overflow ([wrap64]).  Strings are byte strings.  An
    instant is a number of nanoseconds.  Errors are values: [result], [option],
    or a boolean where callers see only nil or not.  The Agent's database is a
    state-and-error monad [M] whose transactions commit or not according to a
    list of faults.  A clock reading, a random value, the outcome of a system
    call or the answer of a peer is an argument of the operation that uses it,
    or an element of a list it consumes, and the theorems quantify over it.
    Code that is not in the repository is a class with named laws, which every
    theorem takes as hypotheses where it uses them: [UuidPkg] (google/uuid),
    [Platform] (time zones, SHA-256, the JSON encoder of a desired state),
    [Ed25519], and the JSON encoders and boxes of the single components,
    [LogCodec], [ConfigCodec], [StatementCodec], [AuditCodec], [PendingCodec],
    [QueueCodec], [TokenCodec], [NetPkg] (net/url, net/netip), [AEAD] (AES-GCM),
    [Collation] (PostgreSQL's lower), [ListCodec] (the payload of a listing),
    [ReportCodec] (the JSON of reports).  Each has an executable instance that satisfies the laws;
    the concrete examples, named [*_witness], run on it.

    ** Files

    - Prelude: the [result] type, notations, the tactics [bool_prop], [ok_inv],
      [str_cases] and [deex], sorting as [sort.Slice] does it ([sort_Slice]).
    - GoStd: strings, strconv, path/filepath, time, encoding/hex.
    - Uuid, Platform: the interfaces of the code outside the repository.
    - JsonString: how encoding/json writes a string, and what the text written
      says about it; bytes that are not UTF-8 are replaced.
    - Domain: operation.go, repository_initialization.go (Module Operation) and
      backup_execution.go (Module Execution) of internal/domain.
    - Plan: template.go and agentstate.go of internal/domain: Module Paths (backup
      paths), Cron (validation of cron expressions and time zones), Template,
      Desired (plans, the desired state, its canonical document and hash).
    - Schedule: internal/agent/schedule, from the cron parser to run times.
    - DomainLogs: backup_log.go and backup_summary.go of internal/domain.
    - AgentStore: operations.go and state.go of internal/agent.  The record [db]
      has one map per bucket; [State] adds the in-memory maps under [runMu].
    - AgentLogs: logs.go; AgentConfig: config.go and the hook allow list;
      AgentScheduler: scheduler.go; AgentDispatch: the handlers of
      client_stream.go and report.go.
    - AgentTrace: the Agent as a whole.  Events are scheduler ticks (split at
      every plan), dispatches, cancellations, configuration snapshots, log
      traffic, the steps of worker goroutines, restarts; each runs with its own
      storage faults.  [effect] is the abstract specification of what an event
      may do to operations, [event_refines] the refinement.
    - GatewaySession: session_linux.go and retry_linux.go of internal/gateway.
    - GatewayAuth: gateway_statement.go of internal/security and
      authorization.go of internal/gateway.
    - AuditChain: audit.go, gateway_audit.go, gateway_global_audit.go of
      internal/domain and [appendAudit] of the PostgreSQL store.  The canonical
      form that is hashed is written out; [AuditCodec] stands for the rewriting
      of the JSON of an event's changes by encoding/json and by a [jsonb] column,
      and its law says no more than that one JSON text ends where it ends.
    - PendingRecord: gateway_pending.go of internal/security; PendingQueue:
      queue_linux.go of internal/gatewaypending; PendingTrace and
      PendingRecovery: its histories; PendingExamples: concrete ones.
    - CentralTx: the database tables of internal/persistence/postgres that carry
      admissions, decisions, pending records and audit events, with the
      constraints of db/migrations, and transactions on them: the environment
      decides which statements fail, what the clock reads and whether a COMMIT
      succeeds, fails or is lost.  CentralStore: the transactions of
      backup_admissions.go, gateway_decisions.go, gateway_pending.go,
      gateway_recovery.go, backup_material.go, gateway_material.go and
      gateway_global_audit.go.
    - RcloneConfig: rclone/config.go and rclone/backends.go, the restricted reader,
      the validation of backends, the canonical form and the comparisons;
      RcloneProps: the reader on the canonical form; RcloneTarget: what an
      accepted configuration and a comparison guarantee; RcloneExamples.
    - StorageSecret: security/envelope.go and the sealing and opening of
      server/storage.go; StorageVault: server/storage.go, the lending of
      server/backup_material.go, and persistence/postgres/storage.go.
    - CentralTrace: weakest preconditions of transactions, the specification
      [step] of a single change to the Gateway's tables and its invariants;
      CentralGrowth: what later databases keep; CentralRefine: every transaction
      implements the specification.
    - CentralFrame: transactions that stay within a relation on databases.
    - CentralPlane: gateway_decisions.go, gateway_pending.go and
      gateway_global_audit.go of internal/server, on those transactions.
    - CentralHistory: histories of calls; CentralSafety, CentralReplies and
      CentralProtocol: their properties; CentralExamples: a concrete history.
    - VaultOrder: how the credential tables may change; VaultRefine: the
      transactions of StorageVault change them so; VaultHistory: the calls of the
      control plane; VaultSafety: their interleavings as one state machine;
      VaultExamples: a race of two administrators, beside a worker.
    - CentralJobs: credential_jobs.go, repository_jobs.go, gateway_reads.go,
      snapshot_list.go and snapshot_index.go of internal/persistence/postgres.
      JobSpec: the specification [job_step] of a single change to the tables of
      operations, events and jobs, and its invariant [jobs_ok]; JobRefine and
      JobTrace: every transaction implements it; JobHistory: histories of job
      transactions and Gateway calls; JobSafety: their properties; JobExamples:
      a credential test and an index of snapshots.
    - JobFrame: what the job transactions leave alone of the credential tables.
      JobWorker: the worker of server/credential_jobs.go and gateway_read.go as a
      machine, [Work] being what a worker holds and [phase] where it stands, with
      the codes it reports and [resolveSnapshotPlan]; WorkerHistory: what a claimed
      job keeps while others work; WorkerSafety: the properties of workers.  The
      histories of VaultSafety contain job transactions and workers as well.
    - RepositoryView: the status a repository is shown with, from
      postgres/repository.go, postgres/repository_gateway.go, server/repository.go
      and domain/repository.go.
    - SnapshotService: queueing credential tests and initializations, listing a
      snapshot and the pass of the indexer (server/credential_jobs.go,
      repository_jobs.go, snapshot_list.go, snapshot_index.go); SnapshotSafety:
      their properties; ServiceExamples: concrete runs of both files.
    - BackupStore: operations.go, backup_requests.go, operation_logs.go and
      [ReconcilePlanHealth] of internal/persistence/postgres.  BackupSpec: the
      specification [backup_step] of a single change to their tables, and its
      invariant [backup_ok]; BackupRefine: every transaction implements it.
      BackupPlane: server/operations.go; BackupStream: the messages of
      server/agentgrpc/connect.go about backup operations, and what is sent after
      a heartbeat.  BackupHistory: histories of both; BackupSafety: their
      properties; BackupExamples: the backups of a plan.

    ** What the theorems show

    - The Agent (AgentTrace): no operation is executed twice; results never
      change; capacity and the FORBID policy hold across all paths that start
      an operation; retries are bounded.  AgentStore, AgentConfig, AgentLogs and
      AgentDispatch add the exact behaviour of recovery, reporting, activation,
      log delivery and duplicate or early messages.
    - The schedule: both cron parsers agree, the masks denote what the fields
      say, the search finds the earliest slot, jitter is bounded.  The exception,
      a step close to 2^63, is stated as a theorem as well.
    - The Gateway: a session's traffic is append-only, unauthenticated requests
      are not forwarded, readers do not write, a retry hint is safe; authority
      only moves forward, expires on both clocks and ends with a revocation;
      every event of a session is auditable, and two chains that verify with one
      final hash say the same, unless two of their own events collide.
    - The pending queue: through failing calls and crashes no accepted record is
      lost, the directory stays within its limits, recovery succeeds and adopts
      only authentic records, replay makes progress.
    - The control plane (CentralSafety, CentralReplies, CentralProtocol): in every
      history of calls, failing statements and lost commits, a storage credential
      is held by one admission, decisions and records are gapless histories that
      are only extended, released admissions are final and released only when
      nothing is outstanding; an acknowledgement is backed by a committed record
      and can be repeated; a signed decision is the recorded one, is accepted by
      the Gateway, and no grant follows a revocation.
    - rclone configurations (RcloneTarget): what is accepted is a crypt remote over
      one known backend, the canonical form reads back as exactly what was
      accepted, and a refresh can change nothing but an OAuth token.
    - Storage credentials (VaultSafety): whatever calls of administrators, Gateways,
      holders of lent configurations and storage workers interleave, the target a
      credential stores never moves, and without a saved replacement only its
      token changes.
    - Jobs (JobSafety): one unfinished operation per storage credential, and none
      beside an admission it does not borrow; the events of an operation are its
      gapless history and its one job follows it; a worker without the lease
      changes nothing; a repeated request is carried out once.  The exception,
      reads of a repository that cannot end under the grants of the server's
      role, is stated as a theorem as well.
    - Workers and services (WorkerSafety, SnapshotSafety, RepositoryView): a worker
      reports what happened, with a code the database accepts; a snapshot belongs
      to the one plan its tags name; a repository is shown READY only on recent
      proof under a current decision; the indexer's pass ends and misses nothing;
      a listing is answered by a fresh page or an operation that fetches one.
    - Backup operations (BackupSafety): an acknowledged result or log is recorded
      for good, operations only move forward, a run whose cancellation was
      answered is never sent afterwards, retries form chains to their root, counters and plans follow
      the newest report, a repeated request is carried out once, and the
      reconciler leaves nothing overdue.  The exceptions, reports of retries that
      are refused for ever and skipped runs that can be neither canceled nor
      retried, are stated as theorems as well.

    ** Bounds and fuel

    The cron mask loop runs with [mask_fuel] = 200 iterations, and
    [mask_loop_terminates] shows that this is enough for every step a parser
    lets through, overflowing ones included.  The slot search runs the source's
    own bound of 366 days of minutes.  All other recursion is structural.

    ** Granularity

    Transactions of PostgreSQL are serialized: those of the Gateway tables lock
    the row of their admission, or of its storage credential, first.  The other
    transactions of the Server appear between them as arbitrary changes of the
    fleet and storage tables with appended audit events ([Elsewhere]).  The
    histories of jobs and of storage credentials restrict those changes to what
    the other transactions may do to the tables in question ([job_allowed],
    [gateway_event]): they leave operations, events and jobs alone, or a
    credential's secret.  The histories of backup operations do so as well
    ([beside]): other transactions leave their tables and the last results of
    plans alone.

    A database transaction, a section under one mutex, and a single HTTP
    request of a session are atomic; everything else interleaves.  Requests of
    a session change its state under a mutex and are therefore sequences, with
    the number of requests in flight as an environment step.  Directory updates
    of the queue reach the disk in order, a crash leaves any version since the
    last fsync, and the temporary file may be cut short.

    ** Not modelled

    Sockets, TLS, child processes (restic, rclone), HTTP and gRPC plumbing,
    generated code, X.509, password hashing, the timers that start a worker or a
    pass of the indexer, and the parts of the Server listed as such in the
    manifest.  Concurrency inside one mutex section is not
    observable and is not modelled. *)

From stdpp Require Export sorting.
From stdpp Require Export prelude gmap strings.


#[export] Set Default Proof Using "Type".

Open Scope Z_scope.

(** ** Scope and notations of the development *)

Declare Scope go_scope.
Delimit Scope go_scope with go.

(** Go's [==] and [!=] on comparable values, as booleans. *)
Notation "a == b" := (bool_decide (a = b)) (at level 70, no associativity) : go_scope.
Notation "a != b" := (negb (bool_decide (a = b))) (at level 70, no associativity) : go_scope.

Open Scope go_scope.

(** ** Results: a value or an error value *)

Inductive result (E A : Type) : Type :=
| Ok (a : A)
| Err (e : E).
Arguments Ok {E A} a.
Arguments Err {E A} e.

Definition rbind {E A B} (r : result E A) (k : A → result E B) : result E B :=
  match r with Ok a => k a | Err e => Err e end.

Notation "'let!' x := r 'in' k" := (rbind r (λ x, k))
  (at level 10, x pattern, r at level 100, k at level 200) : go_scope.

(** [guard b e k]: the early return [if b { return e }] followed by [k]. *)
Definition reject_if {E A} (b : bool) (e : E) (k : result E A) : result E A :=
  if b then Err e else k.

Notation "'reject' b 'as' e ';;' k" := (reject_if b e k)
  (at level 10, b at level 99, e at level 99, k at level 200) : go_scope.

Definition is_ok {E A} (r : result E A) : bool :=
  match r with Ok _ => true | Err _ => false end.

(** ** Tactics *)

(** Splits every boolean conjunction, negation and decided equality of the
    hypotheses into propositions [lia] and [simplify_eq] understand. *)
Ltac bool_prop :=
  repeat match goal with
  | H : (_ && _)%bool = true |- _ => apply andb_true_iff in H; destruct H
  | H : (_ || _)%bool = false |- _ => apply orb_false_iff in H; destruct H
  | H : negb _ = true |- _ => apply negb_true_iff in H
  | H : negb _ = false |- _ => apply negb_false_iff in H
  | H : bool_decide _ = true |- _ => apply bool_decide_eq_true in H
  | H : bool_decide _ = false |- _ => apply bool_decide_eq_false in H
  | H : Is_true _ |- _ => apply Is_true_true in H
  | H : (_ <? _) = true |- _ => apply Z.ltb_lt in H
  | H : (_ <? _) = false |- _ => apply Z.ltb_ge in H
  | H : (_ <=? _) = true |- _ => apply Z.leb_le in H
  | H : (_ <=? _) = false |- _ => apply Z.leb_gt in H
  | H : (_ =? _) = true |- _ => apply Z.eqb_eq in H
  | H : (_ =? _) = false |- _ => apply Z.eqb_neq in H
  end.

(** Walks down a chain of early returns whose result is known to be [Ok]. *)
Ltac ok_inv H :=
  repeat match type of H with
  | reject_if ?b _ _ = Ok _ =>
      let E := fresh "Hg" in
      unfold reject_if at 1 in H; destruct b eqn:E; [discriminate H|]
  | rbind ?r _ = Ok _ =>
      let E := fresh "Hr" in
      unfold rbind at 1 in H; destruct r eqn:E; [|discriminate H]
  end.

(** Case analysis on a chain of string comparisons known to be [true]: one goal
    per way the chain can hold, with the compared strings substituted. *)
Ltac str_cases H :=
  repeat match type of H with
  | (if bool_decide (?a = ?b) then _ else _) = true =>
      let E := fresh "E" in
      destruct (bool_decide_reflect (a = b)) as [E|E]; [rewrite E in *; clear E|]
  | (_ || _)%bool = true => apply orb_true_iff in H as [H|H]
  | (_ && _)%bool = true => apply andb_true_iff in H as [? H]
  | bool_decide (?a = ?b) = true => apply bool_decide_eq_true in H; rewrite H in *; clear H
  | false = true => discriminate H
  end.

Ltac deex :=
  repeat match goal with
  | H : ∃ x, _ |- _ => let x' := fresh x in destruct H as [x' H]
  | H : _ ∧ _ |- _ => destruct H
  end.

(** ** Lists and options *)

Lemma forallb_Forall {A} (f : A → bool) (l : list A) :
  forallb f l = true ↔ Forall (λ x, f x = true) l.
Proof.
  induction l as [|x l IH]; simpl; [split; auto|].
  by rewrite andb_true_iff, IH, Forall_cons.
Qed.

Lemma existsb_Exists {A} (f : A → bool) (l : list A) :
  existsb f l = true ↔ Exists (λ x, f x = true) l.
Proof.
  induction l as [|x l IH]; simpl.
  - split; [done|]. by intros ?%Exists_nil.
  - by rewrite orb_true_iff, IH, Exists_cons.
Qed.

Lemma existsb_false {A} (f : A → bool) (l : list A) :
  existsb f l = false ↔ Forall (λ x, f x = false) l.
Proof.
  induction l as [|x l IH]; simpl; [split; auto|].
  rewrite orb_false_iff, IH, Forall_cons. done.
Qed.

Lemma NoDup_fmap_filter {A B} (f : A → B) (P : A → Prop) `{!∀ x, Decision (P x)} (l : list A) :
  NoDup (f <$> l) → NoDup (f <$> filter P l).
Proof.
  induction l as [|x l IH]; [done|]. rewrite fmap_cons, NoDup_cons, filter_cons. intros [Hx Hl].
  case_decide; [|auto]. rewrite fmap_cons, NoDup_cons. split; [|auto].
  contradict Hx. apply list_elem_of_fmap in Hx as (y & -> & Hy). apply list_elem_of_filter in Hy as [_ Hy].
  apply list_elem_of_fmap. eauto.
Qed.

Lemma filter_same {A} (Q R : A → Prop) `{!∀ x, Decision (Q x), !∀ x, Decision (R x)} (l : list A) :
  (∀ x, x ∈ l → Q x ↔ R x) → filter Q l = filter R l.
Proof.
  intros HQR. induction l as [|x l IH]; [done|]. rewrite !filter_cons, IH by (intros y Hy; apply HQR; by right).
  specialize (HQR x ltac:(left)). destruct (decide (Q x)), (decide (R x)); tauto.
Qed.

Lemma filter_snoc {A} (Q : A → Prop) `{!∀ x, Decision (Q x)} l x :
  filter Q (l ++ [x]) = filter Q l ++ (if decide (Q x) then [x] else []).
Proof. by rewrite filter_app. Qed.

Lemma NoDup_snoc_fmap {A} `{EqDecision B} (f : A → B) l x :
  NoDup (f <$> l) → (∀ y, y ∈ l → f y ≠ f x) → NoDup (f <$> l ++ [x]).
Proof.
  intros Hl Hx. rewrite fmap_app. apply NoDup_app. split; [done|]. split; [|apply NoDup_singleton].
  intros y [z [-> Hz]]%list_elem_of_fmap Hy%list_elem_of_singleton. by apply (Hx z).
Qed.

(** A key that occurs once identifies the element that carries it. *)
Lemma NoDup_fmap_key {A B} (f : A → B) (l : list A) x y :
  NoDup (f <$> l) → x ∈ l → y ∈ l → f x = f y → x = y.
Proof.
  intros Hnd Hx Hy Hf. apply list_elem_of_lookup in Hx as [i Hi], Hy as [j Hj].
  assert (i = j) as ->; [|congruence].
  apply (NoDup_lookup _ _ _ (f x) Hnd); rewrite list_lookup_fmap; [by rewrite Hi|].
  rewrite Hj. cbn. congruence.
Qed.

Create HintDb restfleet.
#[export] Hint Resolve Z.le_refl Z.lt_le_incl : restfleet.

(** ** [sort.Slice]

    The result of [sort.Slice(l, less)]: an ordered permutation of [l].  Where
    [less] separates the elements of the list the result is unique
    ([sort_Slice_unique]), so nothing depends on the algorithm. *)

Section SortSlice.
Context {A : Type} (less : A → A → bool).

Definition slice_le (a b : A) : Prop := less b a = false.
#[export] Instance slice_le_dec : RelDecision slice_le.
Proof. intros a b. unfold slice_le. apply _. Defined.

Definition sort_Slice (l : list A) : list A := merge_sort slice_le l.

(** [less] is a strict weak order. *)
Class SliceOrder : Prop := {
  less_total : ∀ a b, less a b = false ∨ less b a = false;
  less_false_trans : ∀ a b c, less b a = false → less c b = false → less c a = false }.

Context `{HO : !SliceOrder}.

#[export] Instance slice_le_trans : Transitive slice_le.
Proof using HO. intros a b c. unfold slice_le. apply less_false_trans. Qed.
#[export] Instance slice_le_total : Total slice_le.
Proof using HO. intros a b. unfold slice_le. destruct (less_total a b); auto. Qed.

Lemma sort_Slice_Permutation l : sort_Slice l ≡ₚ l.
Proof. apply merge_sort_Permutation. Qed.

Lemma sort_Slice_sorted l : StronglySorted slice_le (sort_Slice l).
Proof using HO. apply StronglySorted_merge_sort; apply _. Qed.

(** Only equal elements of [l] compare as equal. *)
Definition separates (l : list A) : Prop :=
  ∀ x y, x ∈ l → y ∈ l → less x y = false → less y x = false → x = y.

Lemma sorted_unique l1 l2 :
  separates l1 → StronglySorted slice_le l1 → StronglySorted slice_le l2 → l1 ≡ₚ l2 → l1 = l2.
Proof.
  intros Hs H1 H2 Hp. apply (StronglySorted_unique_strong slice_le); [|done..].
  intros x y Hx Hy. unfold slice_le. intros. apply Hs; [done| |done..]. by rewrite Hp.
Qed.

Lemma separates_perm l1 l2 : l1 ≡ₚ l2 → separates l1 → separates l2.
Proof. intros Hp Hs x y. rewrite <- Hp. apply Hs. Qed.

Lemma sort_Slice_unique l1 l2 : separates l1 → l1 ≡ₚ l2 → sort_Slice l1 = sort_Slice l2.
Proof using HO.
  intros Hs Hp. apply sorted_unique; [|apply sort_Slice_sorted..|].
  - eapply separates_perm; [|done]. by rewrite sort_Slice_Permutation.
  - by rewrite !sort_Slice_Permutation.
Qed.

(** *** Keeping the [k] first of a stream: sort and truncate after each item *)

Lemma sorted_take_drop (k : nat) (l : list A) x y :
  StronglySorted slice_le l → x ∈ take k l → y ∈ drop k l → slice_le x y.
Proof.
  intros Hs Hx Hy. rewrite <- (take_drop k l) in Hs.
  eapply StronglySorted_app_1_elem_of; done.
Qed.

(** Of a full batch [h] and its rivals [m], whoever is among the [k] first
    precedes everything that [h] already preceded. *)
Lemma batch_precedes `{!EqDecision A} (k : nat) (h m d : list A) y w :
  NoDup (h ++ m) → length h = k → (∀ u v, u ∈ h → v ∈ d → slice_le u v) →
  y ∈ take k (sort_Slice (h ++ m)) → w ∈ d → slice_le y w.
Proof using HO.
  intros Hnd Hk Hhd Hy Hw. set (r := sort_Slice (h ++ m)) in *.
  assert (Hr : r ≡ₚ h ++ m) by apply sort_Slice_Permutation.
  destruct (decide (y ∈ h)) as [|Hyh]; [by apply Hhd|].
  assert (∃ u, u ∈ h ∧ u ∉ take k r) as (u & Hu & Hur).
  { destruct (decide (Forall (λ u, u ∈ take k r) h)) as [Hall|Hall].
    - exfalso. apply Hyh. rewrite Forall_forall in Hall.
      assert (h ≡ₚ take k r) as ->; [|done].
      apply submseteq_length_Permutation.
      + apply NoDup_submseteq; [by apply NoDup_app in Hnd as [? _]|exact Hall].
      + rewrite length_take. lia.
    - apply not_Forall_Exists in Hall; [|apply _]. apply Exists_exists in Hall. naive_solver. }
  assert (u ∈ drop k r).
  { assert (u ∈ r) as Hin by (rewrite Hr; set_solver).
    rewrite <- (take_drop k r) in Hin. set_solver. }
  trans u; [|by apply Hhd].
  eapply sorted_take_drop; [apply sort_Slice_sorted|done..].
Qed.

(** Truncating a batch before merging more items does not change the
    truncation of the merge. *)
Lemma take_sort_app `{!EqDecision A} (k : nat) (l m : list A) :
  NoDup (l ++ m) → separates (l ++ m) →
  take k (sort_Slice (take k (sort_Slice l) ++ m)) = take k (sort_Slice (l ++ m)).
Proof using HO.
  intros Hnd Hsep.
  set (h := take k (sort_Slice l)). set (d := drop k (sort_Slice l)).
  assert (Hl : l ≡ₚ h ++ d).
  { unfold h, d. rewrite take_drop. symmetry. apply sort_Slice_Permutation. }
  assert (Hlm : l ++ m ≡ₚ (h ++ m) ++ d) by (rewrite Hl; solve_Permutation).
  assert (Hnd' : NoDup ((h ++ m) ++ d)) by (by rewrite <- Hlm).
  assert (Hsep' : separates ((h ++ m) ++ d)) by (by eapply separates_perm).
  destruct (decide (length (sort_Slice l) ≤ k)%nat) as [Hlen|Hlen].
  { f_equal. symmetry. apply sort_Slice_unique; [done|].
    rewrite Hlm. unfold d. by rewrite drop_ge, app_nil_r by done. }
  assert (Hk : length h = k) by (unfold h; rewrite length_take; lia).
  set (r := sort_Slice (h ++ m)).
  assert (Hr : r ≡ₚ h ++ m) by apply sort_Slice_Permutation.
  assert (Hlr : length (take k r) = k).
  { rewrite length_take, Hr, length_app. lia. }
  assert (Heq : sort_Slice (l ++ m) = take k r ++ sort_Slice (drop k r ++ d)).
  { symmetry. apply sorted_unique.
    - eapply separates_perm; [|exact Hsep'].
      rewrite sort_Slice_Permutation, (assoc (++)), take_drop. by rewrite Hr.
    - apply StronglySorted_app_2.
      + intros y w Hy. rewrite sort_Slice_Permutation, elem_of_app. intros [Hw|Hw].
        * eapply sorted_take_drop; [apply sort_Slice_sorted|done..].
        * eapply (batch_precedes k h m d); [|done| |done|done].
          -- by apply NoDup_app in Hnd' as [? _].
          -- intros u v. apply sorted_take_drop, sort_Slice_sorted.
      + pose proof (sort_Slice_sorted (h ++ m)) as Hss. fold r in Hss.
        rewrite <- (take_drop k r) in Hss. by eapply StronglySorted_app_1_l.
      + apply sort_Slice_sorted.
    - apply sort_Slice_sorted.
    - rewrite sort_Slice_Permutation, (assoc (++)), take_drop, Hr, <- Hlm.
      symmetry. apply sort_Slice_Permutation. }
  rewrite Heq. rewrite <- Hlr at 2. by rewrite take_app_length.
Qed.
End SortSlice.
