(* ===== verification/GoStd.v ===== *)
(** * GoStd: what the sources use of Go's language and standard library

    Strings are Go strings: byte sequences ([String.string], one [ascii] per
    byte).  Integers are [Z] with the wrap-around of the machine width written
    out.  An instant is the number of nanoseconds since Go's zero time
    (1 January of year 1, UTC), so [time.Time{}] is 0 and [Truncate] rounds
    down from the same origin as Go's. *)

From Stdlib Require Export Ascii.
From stdpp Require Export pretty.
From S2P Require Import Prelude.

(** ** Machine integers *)

Definition max_int64 : Z := 2 ^ 63 - 1.
Definition min_int64 : Z := - 2 ^ 63.

(** Two's complement wrap-around of a 64-bit signed addition. *)
Definition wrap64 (z : Z) : Z := (z + 2 ^ 63) mod 2 ^ 64 - 2 ^ 63.
Definition add64 (a b : Z) : Z := wrap64 (a + b).
(** Conversion of an [int] to [uint]. *)
Definition to_uint64 (z : Z) : Z := z mod 2 ^ 64.
(** [1 << n] on a [uint64]: zero once the shift count reaches the width. *)
Definition shl1_u64 (n : Z) : Z := if n <? 64 then Z.shiftl 1 n else 0.

Definition in_int64 (z : Z) : Prop := min_int64 ≤ z ≤ max_int64.

Lemma wrap64_id z : in_int64 z → wrap64 z = z.
Proof.
  unfold in_int64, wrap64, min_int64, max_int64. intros ?.
  rewrite Z.mod_small; lia.
Qed.

Lemma wrap64_over z : 2 ^ 63 ≤ z < 2 ^ 64 → wrap64 z = z - 2 ^ 64.
Proof.
  unfold wrap64. intros ?.
  replace (z + 2 ^ 63) with ((z + 2 ^ 63 - 2 ^ 64) + 1 * 2 ^ 64) by lia.
  rewrite Z_mod_plus_full, Z.mod_small; lia.
Qed.

(** ** Strings *)

Definition byte_of (c : ascii) : N := N_of_ascii c.

(** [strings.Split(s, sep)] for a one-byte separator. *)
Fixpoint Split (sep : ascii) (s : string) : list string :=
  match s with
  | EmptyString => [EmptyString]
  | String c s' =>
      if c == sep then EmptyString :: Split sep s'
      else match Split sep s' with
           | [] => [String c EmptyString]
           | w :: ws => String c w :: ws
           end
  end.

(** [strings.Cut(s, sep)] for a one-byte separator. *)
Fixpoint Cut (sep : ascii) (s : string) : option (string * string) :=
  match s with
  | EmptyString => None
  | String c s' =>
      if c == sep then Some (EmptyString, s')
      else match Cut sep s' with
           | Some (a, b) => Some (String c a, b)
           | None => None
           end
  end.

(** [strings.Contains(s, c)] for a one-byte [c]. *)
Definition Contains (c : ascii) (s : string) : bool :=
  match Cut c s with Some _ => true | None => false end.

Fixpoint HasPrefix (s pre : string) : bool :=
  match pre, s with
  | EmptyString, _ => true
  | String a p, String b t => (a == b) && HasPrefix t p
  | String _ _, EmptyString => false
  end.

Lemma HasPrefix_app pre t : HasPrefix (pre +:+ t) pre = true.
Proof.
  induction pre as [|c pre IH]; [by destruct t|].
  change ((c == c) && HasPrefix (pre +:+ t) pre = true). by rewrite bool_decide_eq_true_2, IH.
Qed.

Fixpoint drop_bytes (n : nat) (s : string) : string :=
  match n, s with
  | O, _ => s
  | S k, String _ t => drop_bytes k t
  | S _, EmptyString => EmptyString
  end.

Definition TrimPrefix (s pre : string) : string :=
  if HasPrefix s pre then drop_bytes (String.length pre) s else s.

Definition HasSuffix (s suf : string) : bool :=
  (String.length suf <=? String.length s)%nat &&
  (drop_bytes (String.length s - String.length suf) s == suf).

Definition slen (s : string) : Z := Z.of_nat (String.length s).

Lemma string_app_assoc (a b c : string) : (a +:+ b) +:+ c = a +:+ b +:+ c.
Proof. induction a as [|x a IH]; [done|]. change (String x ((a +:+ b) +:+ c) = String x (a +:+ b +:+ c)). by f_equal. Qed.

Lemma string_app_nil_r (a : string) : a +:+ "" = a.
Proof. induction a as [|x a IH]; [done|]. change (String x (a +:+ "") = String x a). by f_equal. Qed.

Lemma slen_app a b : slen (a +:+ b) = slen a + slen b.
Proof.
  unfold slen. rewrite <- Nat2Z.inj_add. f_equal. induction a as [|x a IH]; [done|].
  change (S (String.length (a +:+ b)) = S (String.length a + String.length b)). by f_equal.
Qed.

Lemma slen_nonneg s : 0 ≤ slen s.
Proof. unfold slen. lia. Qed.

Lemma drop_bytes_length n s : String.length (drop_bytes n s) = (String.length s - n)%nat.
Proof. revert s; induction n as [|n IH]; intros s; [cbn; lia|]. destruct s as [|c s]; cbn [drop_bytes String.length]; [done|]. by rewrite IH. Qed.

Lemma drop_bytes_app n p q : (n ≤ String.length p)%nat → drop_bytes n (p +:+ q) = drop_bytes n p +:+ q.
Proof.
  revert p; induction n as [|n IH]; intros p Hn; [done|]. destruct p as [|c p]; [cbn in Hn; lia|].
  change (String c p +:+ q) with (String c (p +:+ q)). cbn [drop_bytes]. apply IH. cbn in Hn. lia.
Qed.

Lemma drop_bytes_prefix p q : drop_bytes (String.length p) (p +:+ q) = q.
Proof. rewrite drop_bytes_app by done. assert (H : drop_bytes (String.length p) p = "") by (by induction p). by rewrite H. Qed.

Lemma length_string_app p q : String.length (p +:+ q) = (String.length p + String.length q)%nat.
Proof. pose proof (slen_app p q) as H. unfold slen in H. lia. Qed.

Lemma HasSuffix_app p suf : HasSuffix (p +:+ suf) suf = true.
Proof.
  unfold HasSuffix. rewrite length_string_app. replace (_ + _ - _)%nat with (String.length p) by lia.
  rewrite drop_bytes_prefix, bool_decide_eq_true_2 by done. by rewrite (proj2 (Nat.leb_le _ _)) by lia.
Qed.

Lemma HasPrefix_more s t pre : HasPrefix s pre = true → HasPrefix (s +:+ t) pre = true.
Proof.
  revert s. induction pre as [|c pre IH]; intros s; [by destruct (s +:+ t)|]. destruct s as [|d s]; [done|]. change (String d s +:+ t) with (String d (s +:+ t)). cbn [HasPrefix].
  intros [-> H]%andb_true_iff. by rewrite IH.
Qed.

(** [strings.Join]. *)
Definition Join (l : list string) (sep : string) : string := String.concat sep l.

Lemma Join_snoc l sep v :
  Join (l ++ [v]) sep = match l with [] => v | _ => Join l sep +:+ sep +:+ v end.
Proof.
  induction l as [|x l IH]; [done|]. cbn [app]. destruct l as [|y l]; [done|].
  change (Join (x :: (y :: l) ++ [v]) sep) with (x +:+ sep +:+ Join ((y :: l) ++ [v]) sep). rewrite IH.
  change (Join (x :: y :: l) sep) with (x +:+ sep +:+ Join (y :: l) sep). by rewrite !string_app_assoc.
Qed.

(** Width in bytes of the Unicode white space ([unicode.IsSpace]) at the head
    of a UTF-8 string, 0 when there is none.  The lead bytes [C2], [E1], [E2]
    and [E3] are never continuation bytes, so looking for the encoded form at
    every byte position finds exactly the runes Go decodes. *)
Definition space_width (s : string) : nat :=
  match s with
  | EmptyString => 0
  | String c0 r =>
    let b0 := byte_of c0 in
    if ((9 <=? b0) && (b0 <=? 13) || (b0 =? 32))%N then 1 else
    match r with
    | EmptyString => 0
    | String c1 r1 =>
      let b1 := byte_of c1 in
      if ((b0 =? 194) && ((b1 =? 133) || (b1 =? 160)))%N then 2 else
      match r1 with
      | EmptyString => 0
      | String c2 _ =>
        let b2 := byte_of c2 in
        if ((b0 =? 225) && (b1 =? 154) && (b2 =? 128)
            || (b0 =? 226) && (b1 =? 128) &&
               ((128 <=? b2) && (b2 <=? 138) || (b2 =? 168) || (b2 =? 169) || (b2 =? 175))
            || (b0 =? 226) && (b1 =? 129) && (b2 =? 159)
            || (b0 =? 227) && (b1 =? 128) && (b2 =? 128))%N
        then 3 else 0
      end
    end
  end%nat.

Definition flush_word (w : string) : list string :=
  match w with EmptyString => [] | _ => [w] end.

Fixpoint fields_from (skip : nat) (word s : string) : list string :=
  match s with
  | EmptyString => flush_word word
  | String c s' =>
      match skip with
      | S k => fields_from k word s'
      | O =>
          match space_width s with
          | O => fields_from 0 (word +:+ String c EmptyString) s'
          | S k => flush_word word ++ fields_from k EmptyString s'
          end
      end
  end.

(** [strings.Fields(s)]. *)
Definition Fields (s : string) : list string := fields_from 0 EmptyString s.

(** [strings.TrimSpace(s) == ""]: the string is white space only. *)
Fixpoint blank_from (skip : nat) (s : string) : bool :=
  match s with
  | EmptyString => true
  | String _ s' =>
      match skip with
      | S k => blank_from k s'
      | O => match space_width s with O => false | S k => blank_from k s' end
      end
  end.
Definition blank (s : string) : bool := blank_from 0 s.

(** [strings.IndexFunc(s, unicode.IsControl) >= 0].  Control characters are
    U+0000..U+001F, U+007F and U+0080..U+009F; the last are encoded [C2 80]
    to [C2 9F], and [C2] is never a continuation byte. *)
Fixpoint has_control (s : string) : bool :=
  match s with
  | EmptyString => false
  | String c s' =>
      let b := byte_of c in
      ((b <? 32) || (b =? 127))%N ||
      match s' with
      | EmptyString => false
      | String c1 _ => ((b =? 194) && (128 <=? byte_of c1) && (byte_of c1 <=? 159))%N
      end || has_control s'
  end.

Definition upper_byte (c : ascii) : ascii :=
  let b := byte_of c in
  if ((97 <=? b) && (b <=? 122))%N then ascii_of_N (b - 32) else c.
Fixpoint ToUpper (s : string) : string :=
  match s with
  | EmptyString => EmptyString
  | String c s' => String (upper_byte c) (ToUpper s')
  end.
(** [strings.EqualFold] against a string without [k] and [s], for which
    Unicode simple folding is ASCII folding. *)
Definition EqualFold (a b : string) : bool := ToUpper a == ToUpper b.

(** [strconv.Atoi]: an optional sign, then decimal digits, in 64-bit range. *)
Definition digit (c : ascii) : option Z :=
  let b := Z.of_N (byte_of c) in
  if (48 <=? b) && (b <=? 57) then Some (b - 48) else None.

Fixpoint digits_from (acc : Z) (s : string) : option Z :=
  match s with
  | EmptyString => Some acc
  | String c s' =>
      match digit c with
      | Some d => digits_from (acc * 10 + d) s'
      | None => None
      end
  end.

Definition Atoi (s : string) : option Z :=
  let '(neg, body) :=
    match s with
    | String "-" t => (true, t)
    | String "+" t => (false, t)
    | _ => (false, s)
    end in
  match body with
  | EmptyString => None
  | _ =>
    match digits_from 0 body with
    | None => None
    | Some n =>
        let v := if neg : bool then - n else n in
        if (min_int64 <=? v) && (v <=? max_int64) then Some v else None
    end
  end.

Definition Itoa (z : Z) : string := pretty z.

(** Lexicographic byte order, Go's [<] on strings. *)
Definition string_less (a b : string) : bool := String.ltb a b.

Lemma string_less_leb a b : string_less a b = negb (String.leb b a).
Proof.
  unfold string_less, String.ltb, String.leb. rewrite String.compare_antisym.
  by destruct (String.compare b a).
Qed.

Lemma string_less_false a b : string_less a b = false ↔ String.le b a.
Proof.
  rewrite string_less_leb, negb_false_iff. unfold String.le. by rewrite Is_true_true.
Qed.

Lemma string_less_total a b : string_less a b = false ∨ string_less b a = false.
Proof. rewrite !string_less_false. destruct (total String.le a b); auto. Qed.

Lemma string_less_false_trans a b c :
  string_less b a = false → string_less c b = false → string_less c a = false.
Proof. rewrite !string_less_false. apply transitivity. Qed.

Lemma string_less_antisym a b : string_less a b = false → string_less b a = false → a = b.
Proof. rewrite !string_less_false. intros. by apply (anti_symm String.le). Qed.

(** ** Paths (package filepath, on Unix) *)

Definition IsAbs (p : string) : bool := HasPrefix p "/".

Definition clean_push (rooted : bool) (out : list string) (c : string) : list string :=
  if (c == "") || (c == ".") then out
  else if c == ".." then
    match out with
    | [] => if rooted then [] else [".."]
    | top :: rest => if top == ".." then ".." :: out else rest
    end
  else c :: out.

(** [filepath.Clean]: drop empty and [.] components, resolve [..]. *)
Definition Clean (path : string) : string :=
  if path == "" then "."
  else
    let rooted := IsAbs path in
    let out := foldl (clean_push rooted) [] (Split "/" path) in
    let body := String.concat "/" (reverse out) in
    if rooted then "/" +:+ body else if body == "" then "." else body.

(** ** Hexadecimal (package encoding/hex) *)

Definition hex_digit (c : ascii) : option N :=
  let b := byte_of c in
  if ((48 <=? b) && (b <=? 57))%N then Some (b - 48)%N
  else if ((97 <=? b) && (b <=? 102))%N then Some (b - 87)%N
  else if ((65 <=? b) && (b <=? 70))%N then Some (b - 55)%N
  else None.

Fixpoint hex_decode (s : string) : option string :=
  match s with
  | EmptyString => Some EmptyString
  | String a (String b t) =>
      match hex_digit a, hex_digit b, hex_decode t with
      | Some x, Some y, Some r => Some (String (ascii_of_N (x * 16 + y)) r)
      | _, _, _ => None
      end
  | String _ EmptyString => None
  end.

Definition hex_char (n : N) : ascii :=
  if (n <? 10)%N then ascii_of_N (48 + n) else ascii_of_N (87 + n).

Fixpoint hex_encode (s : string) : string :=
  match s with
  | EmptyString => EmptyString
  | String c t =>
      String (hex_char (byte_of c / 16)) (String (hex_char (byte_of c mod 16)) (hex_encode t))
  end.

Fixpoint string_forallb (f : ascii → bool) (s : string) : bool :=
  match s with EmptyString => true | String c t => f c && string_forallb f t end.

Definition lower_hex (c : ascii) : bool :=
  let b := byte_of c in ((48 <=? b) && (b <=? 57) || (97 <=? b) && (b <=? 102))%N.

(** The test [hash, err := hex.DecodeString(h); err != nil || len(hash) != 32
    || hex.EncodeToString(hash) != h], negated. *)
Definition canonical_sha256_hex (h : string) : bool :=
  match hex_decode h with
  | Some raw => (String.length raw =? 32)%nat && (hex_encode raw == h)
  | None => false
  end.

(** ** Time *)

Definition nanosecond : Z := 1.
Definition second : Z := 1000000000.
Definition minute : Z := 60 * second.
Definition hour : Z := 60 * minute.

(** Instants and durations, both in nanoseconds. *)
Abbreviation time := Z (only parsing).
Abbreviation duration := Z (only parsing).

Definition zero_time : time := 0.
Definition IsZero (t : time) : bool := t =? 0.
Definition Before (a b : time) : bool := a <? b.
Definition After (a b : time) : bool := b <? a.
(** [Time.Sub] saturates at the ends of the duration type. *)
Definition Sub (a b : time) : duration := Z.max min_int64 (Z.min max_int64 (a - b)).
Definition Add (a : time) (d : duration) : time := a + d.
Definition Truncate (t : time) (d : duration) : time := t - t mod d.
(** Seconds between the zero time and the Unix epoch. *)
Definition unix_epoch : Z := 62135596800.
Definition Unix (t : time) : Z := t / second - unix_epoch.
Definition time_of_unix (s : Z) : time := (s + unix_epoch) * second.

(** Broken-down UTC or local time of a number of seconds since the zero time,
    in the proleptic Gregorian calendar. *)
Record civil := Civil {
  c_year : Z; c_month : Z; c_day : Z; c_hour : Z; c_minute : Z; c_second : Z; c_weekday : Z }.

Definition civil_of_seconds (secs : Z) : civil :=
  let days := secs / 86400 in
  let sod := secs mod 86400 in
  let z := days + 306 in
  let era := z / 146097 in
  let doe := z mod 146097 in
  let yoe := (doe - doe / 1460 + doe / 36524 - doe / 146096) / 365 in
  let doy := doe - (365 * yoe + yoe / 4 - yoe / 100) in
  let mp := (5 * doy + 2) / 153 in
  let d := doy - (153 * mp + 2) / 5 + 1 in
  let m := if mp <? 10 then mp + 3 else mp - 9 in
  let y := yoe + era * 400 + (if m <=? 2 then 1 else 0) in
  Civil y m d (sod / 3600) (sod mod 3600 / 60) (sod mod 60) ((days + 1) mod 7).

(** A time zone maps an instant, in seconds since the zero time, to its offset
    from UTC in seconds. *)
Definition location : Type := Z → Z.
Definition UTC : location := λ _, 0.
(** The fields of [t.In(loc)]. *)
Definition In_loc (loc : location) (t : time) : civil :=
  let s := t / second in civil_of_seconds (s + loc s).

Fixpoint zeros (n : nat) : string :=
  match n with O => EmptyString | S k => String "0" (zeros k) end.
Definition pad (n : nat) (z : Z) : string :=
  let s := Itoa z in zeros (n - String.length s) +:+ s.
(** [t.UTC().Format(time.RFC3339)]. *)
Definition FormatRFC3339 (t : time) : string :=
  let c := In_loc UTC t in
  pad 4 (c_year c) +:+ "-" +:+ pad 2 (c_month c) +:+ "-" +:+ pad 2 (c_day c) +:+ "T" +:+
  pad 2 (c_hour c) +:+ ":" +:+ pad 2 (c_minute c) +:+ ":" +:+ pad 2 (c_second c) +:+ "Z".

Example format_epoch : FormatRFC3339 (time_of_unix 1709210096) = "2024-02-29T12:34:56Z".
Proof. vm_compute. reflexivity. Qed.

(** [binary.BigEndian.Uint64] of the first eight bytes. *)
Fixpoint be_from (n : nat) (acc : Z) (s : string) : Z :=
  match n, s with
  | S k, String c t => be_from k (acc * 256 + Z.of_N (byte_of c)) t
  | _, _ => acc
  end.
Definition BigEndian_Uint64 (s : string) : Z := be_from 8 0 s.
