(* ===== verification/Uuid.v ===== *)
(** * Uuid: the interface of package github.com/google/uuid

    A UUID is a 16-byte array, here the natural number those bytes spell in
    big-endian order; it is compared, used as a map key and sliced as a bucket
    key by the sources.  The functions of the package are not part of the
    repository: they are the fields of the class [UuidPkg], and what the code
    relies on is stated in [UuidLaws].  [rfc4122] is an executable instance
    used by the concrete examples. *)

From S2P Require Import Prelude GoStd.
Open Scope Z_scope.
Open Scope go_scope.

Abbreviation uuid := N.

(** [uuid.Nil]. *)
Definition uuid_Nil : uuid := 0%N.

Inductive variant := Invalid | RFC4122 | Reserved | Microsoft | Future.

#[export] Instance variant_eq_dec : EqDecision variant.
Proof. solve_decision. Defined.

Class UuidPkg := {
  Version : uuid → Z;
  Variant : uuid → variant;
  UString : uuid → string;
  Parse : string → option uuid;
  (** [uuid.NewSHA1(uuid.NameSpaceOID, data)]. *)
  NewSHA1_OID : string → uuid
}.

(** Documented behaviour: the nil UUID has version 0, distinct UUIDs have
    distinct string forms, [Parse] reads a string form back, and [NewSHA1]
    makes version 5 UUIDs. *)
Class UuidLaws `{U : UuidPkg} : Prop := {
  Version_Nil : Version uuid_Nil = 0;
  UString_inj : ∀ a b, UString a = UString b → a = b;
  Parse_UString : ∀ a, (a < 2 ^ 128)%N → Parse (UString a) = Some a;
  NewSHA1_version : ∀ s, Version (NewSHA1_OID s) = 5
}.

Section Checks.
Context `{U : UuidPkg}.

(** [id.Version() != 7 || id.Variant() != uuid.RFC4122], negated: the check
    the sources repeat on every identity they accept. *)
Definition valid_v7 (id : uuid) : bool := (Version id == 7) && (Variant id == RFC4122).

Lemma valid_v7_not_nil `{!UuidLaws} id : valid_v7 id = true → id ≠ uuid_Nil.
Proof.
  unfold valid_v7. intros Hv ->. bool_prop. rewrite Version_Nil in *. done.
Qed.
End Checks.

(** ** An executable instance: the RFC 4122 layout *)

Section Rfc.
Definition rfc_version (id : uuid) : Z := Z.of_N (N.land (N.shiftr id 76) 15).
Definition rfc_variant (id : uuid) : variant :=
  let b := N.land (N.shiftr id 56) 255 in
  if (2 ^ 128 <=? id)%N then Invalid
  else if (N.land b 192 =? 128)%N then RFC4122
  else if (N.land b 224 =? 192)%N then Microsoft
  else if (N.land b 224 =? 224)%N then Future
  else Reserved.

(** The [n] low hexadecimal digits of [x]. *)
Fixpoint nibbles (n : nat) (x : N) : string :=
  match n with
  | O => EmptyString
  | S k => String (hex_char ((x / 16 ^ N.of_nat k) mod 16)) (nibbles k x)
  end.

(** Canonical form; numbers that are not 16 bytes get a form of their own. *)
Definition rfc_string (id : uuid) : string :=
  if (id <? 2 ^ 128)%N then
    nibbles 8 (id / 2 ^ 96) +:+ String "-" (nibbles 4 (id / 2 ^ 80) +:+ String "-"
      (nibbles 4 (id / 2 ^ 64) +:+ String "-" (nibbles 4 (id / 2 ^ 48) +:+ String "-" (nibbles 12 id))))
  else String "!" (pretty id).

Fixpoint unhex (acc : N) (s : string) : option N :=
  match s with
  | EmptyString => Some acc
  | String c t =>
      if c == "-"%char then unhex acc t
      else match hex_digit c with Some d => unhex (acc * 16 + d)%N t | None => None end
  end.

Definition rfc_parse (s : string) : option uuid :=
  match unhex 0 s with
  | Some id => if rfc_string id == s then Some id else None
  | None => None
  end.

(** A 122-bit mix of the bytes, stamped with version 5 and the variant. *)
Fixpoint mix (acc : N) (s : string) : N :=
  match s with
  | EmptyString => acc
  | String c t => mix (N.land (acc * 16777619 + byte_of c) (2 ^ 122 - 1))%N t
  end.
Definition stamp (version : N) (x : N) : uuid :=
  let hi := N.land (N.shiftr x 74) (2 ^ 48 - 1)%N in
  let mid := N.land (N.shiftr x 62) 4095 in
  let lo := N.land x (2 ^ 62 - 1)%N in
  (hi * 2 ^ 80 + version * 2 ^ 76 + mid * 2 ^ 64 + 2 * 2 ^ 62 + lo)%N.
End Rfc.

#[export] Instance rfc4122 : UuidPkg := {|
  Version := rfc_version;
  Variant := rfc_variant;
  UString := rfc_string;
  Parse := rfc_parse;
  NewSHA1_OID s := stamp 5 (mix 2166136261 s)
|}.

Lemma hex_digit_char d : (d < 16)%N → hex_digit (hex_char d) = Some d ∧ hex_char d ≠ "-"%char.
Proof.
  intros Hd. assert (Hin : d ∈ (N.of_nat <$> seq 0 16)).
  { apply list_elem_of_fmap. exists (N.to_nat d). rewrite N2Nat.id. split; [done|]. apply elem_of_seq. lia. }
  assert (Hall : forallb (λ d, (hex_digit (hex_char d) == Some d) && (hex_char d != "-"%char))
    (N.of_nat <$> seq 0 16) = true) by (vm_compute; reflexivity).
  apply forallb_Forall in Hall. rewrite Forall_forall in Hall. specialize (Hall _ Hin). by bool_prop.
Qed.

Lemma unhex_nibbles n x acc s :
  unhex acc (nibbles n x +:+ s) = unhex (acc * 16 ^ N.of_nat n + x mod 16 ^ N.of_nat n)%N s.
Proof.
  revert acc; induction n as [|n IH]; intros acc.
  { cbn [nibbles]. change (16 ^ N.of_nat 0)%N with 1%N. rewrite N.mod_1_r.
    change (EmptyString +:+ s) with s. f_equal. lia. }
  cbn [nibbles].
  match goal with |- unhex _ (String ?c ?t +:+ s) = _ => change (String c t +:+ s) with (String c (t +:+ s)) end.
  cbn [unhex]. destruct (hex_digit_char ((x / 16 ^ N.of_nat n) mod 16)%N) as [Hd Hne].
  { apply N.mod_lt. lia. }
  rewrite bool_decide_eq_false_2 by done. rewrite Hd, IH. f_equal.
  rewrite Nat2N.inj_succ, N.pow_succ_r'. rewrite (N.mul_comm 16 (16 ^ _)).
  rewrite (N.Div0.mod_mul_r x). nia.
Qed.

Lemma unhex_dash acc s : unhex acc (String "-" s) = unhex acc s.
Proof. cbn [unhex]. by rewrite bool_decide_eq_true_2 by done. Qed.

Lemma unhex_rfc_string id : (id < 2 ^ 128)%N → unhex 0 (rfc_string id) = Some id.
Proof.
  intros Hid. unfold rfc_string. rewrite (proj2 (N.ltb_lt _ _)) by done.
  repeat rewrite unhex_nibbles, unhex_dash.
  replace (nibbles 12 id) with (nibbles 12 id +:+ EmptyString).
  2:{ induction (nibbles 12 id) as [|c t IH]; [done|]. change (String c (t +:+ EmptyString) = String c t). by f_equal. }
  rewrite unhex_nibbles. cbn [unhex]. f_equal.
  change (16 ^ N.of_nat 8)%N with (2 ^ 32)%N. change (16 ^ N.of_nat 4)%N with (2 ^ 16)%N.
  change (16 ^ N.of_nat 12)%N with (2 ^ 48)%N.
  assert (Hstep : ∀ a b, (b ≠ 0 → (id / (a * b)) * b + (id / a) mod b = id / a)%N).
  { intros a b Hb. rewrite <- N.Div0.div_div. rewrite (N.mul_comm _ b). symmetry. by apply N.div_mod. }
  rewrite N.mul_0_l, N.add_0_l.
  rewrite (N.mod_small (id / 2 ^ 96)) by (apply N.Div0.div_lt_upper_bound; done).
  change (id / 2 ^ 96)%N with (id / (2 ^ 80 * 2 ^ 16))%N. rewrite (Hstep (2 ^ 80) (2 ^ 16))%N by done.
  change (id / 2 ^ 80)%N with (id / (2 ^ 64 * 2 ^ 16))%N. rewrite (Hstep (2 ^ 64) (2 ^ 16))%N by done.
  change (id / 2 ^ 64)%N with (id / (2 ^ 48 * 2 ^ 16))%N. rewrite (Hstep (2 ^ 48) (2 ^ 16))%N by done.
  symmetry. rewrite (N.mul_comm _ (2 ^ 48)). by apply N.div_mod.
Qed.

Lemma rfc_string_no_bang id t : (id < 2 ^ 128)%N → rfc_string id ≠ String "!" t.
Proof. intros Hid Heq. pose proof (unhex_rfc_string id Hid) as Hu. by rewrite Heq in Hu. Qed.

Lemma stamp_version v x : (v < 16)%N → rfc_version (stamp v x) = Z.of_N v.
Proof.
  intros Hv. unfold rfc_version, stamp. f_equal.
  change 15%N with (N.ones 4). rewrite N.land_ones, N.shiftr_div_pow2.
  change (2 ^ 48 - 1)%N with (N.ones 48). change 4095%N with (N.ones 12). change (2 ^ 62 - 1)%N with (N.ones 62).
  rewrite !N.land_ones, !N.shiftr_div_pow2.
  set (hi := ((x / 2 ^ 74) mod 2 ^ 48)%N). set (mid := ((x / 2 ^ 62) mod 2 ^ 12)%N). set (lo := (x mod 2 ^ 62)%N).
  assert (mid < 2 ^ 12)%N by (apply N.mod_lt; done).
  assert (lo < 2 ^ 62)%N by (apply N.mod_lt; done).
  replace (hi * 2 ^ 80 + v * 2 ^ 76 + mid * 2 ^ 64 + 2 * 2 ^ 62 + lo)%N
    with ((mid * 2 ^ 64 + 2 * 2 ^ 62 + lo) + (hi * 16 + v) * 2 ^ 76)%N by lia.
  rewrite N.div_add, N.div_small by (done || lia). rewrite N.add_0_l.
  change (2 ^ 4)%N with 16%N. rewrite N.add_comm, N.Div0.mod_add. by apply N.mod_small.
Qed.

#[export] Instance rfc4122_laws : UuidLaws.
Proof.
  split.
  - done.
  - cbn. intros a b Heq.
    destruct (N.lt_ge_cases a (2 ^ 128)) as [Ha|Ha], (N.lt_ge_cases b (2 ^ 128)) as [Hb|Hb].
    + apply unhex_rfc_string in Ha, Hb. congruence.
    + exfalso. eapply (rfc_string_no_bang a); [done|]. rewrite Heq. unfold rfc_string.
      by rewrite (proj2 (N.ltb_ge _ _)).
    + exfalso. eapply (rfc_string_no_bang b); [done|]. rewrite <- Heq. unfold rfc_string.
      by rewrite (proj2 (N.ltb_ge _ _)).
    + unfold rfc_string in Heq. rewrite !(proj2 (N.ltb_ge _ _)) in Heq by done. by simplify_eq.
  - cbn. intros a Ha. unfold rfc_parse. rewrite unhex_rfc_string by done. by rewrite bool_decide_eq_true_2.
  - cbn. intros t. by apply (stamp_version 5).
Qed.

Lemma valid_v7_range (id : uuid) : valid_v7 id = true → (id < 2 ^ 128)%N.
Proof.
  unfold valid_v7. cbn [Variant rfc4122]. unfold rfc_variant. intros [_ Hv]%andb_true_iff.
  destruct (N.leb_spec (2 ^ 128) id); [discriminate Hv|done].
Qed.

(** The [n]-th version 7 UUID of the concrete examples. *)
Definition v7 (n : N) : uuid := stamp 7 n.

Example v7_valid : valid_v7 (v7 42) = true ∧ rfc_parse (rfc_string (v7 42)) = Some (v7 42).
Proof. vm_compute. done. Qed.
