(* ===== verification/Platform.v ===== *)
(** * Platform: data and primitives the program takes from its environment

    The IANA time zone database, the SHA-256 digest and the JSON encoder are
    used by the sources only through the functions below.  They are class
    fields, so every theorem holds for all of them; what the code relies on is
    a named law.  [toy_platform] instantiates them for the concrete examples. *)

From S2P Require Import Prelude GoStd.
Open Scope Z_scope.
Open Scope go_scope.

Class Platform := {
  (** [time.LoadLocation] on a name, [None] for an error. *)
  LoadLocation : string → option location;
  (** [sha256.Sum256], digest as a 32-byte string. *)
  Sum256 : string → string
}.

Class PlatformLaws `{P : Platform} : Prop := {
  Sum256_length : ∀ s, String.length (Sum256 s) = 32%nat
}.

(** A 32-byte digest for the examples: a polynomial sum, written out in bytes. *)
Fixpoint toy_sum (acc : N) (s : string) : N :=
  match s with
  | EmptyString => acc
  | String c t => toy_sum (N.land (acc * 33 + byte_of c + 7) 4294967295) t
  end.
Fixpoint bytes_acc (n : nat) (x : N) (rest : string) : string :=
  match n with
  | O => rest
  | S k => bytes_acc k (N.shiftr x 8) (String (ascii_of_N (N.land x 255)) rest)
  end.
Definition bytes_be (n : nat) (x : N) : string := bytes_acc n x EmptyString.

#[export] Instance toy_platform : Platform := {|
  LoadLocation name :=
    if name == "UTC" then Some UTC
    else if name == "Asia/Shanghai" then Some (λ _, 8 * 3600)
    else None;
  Sum256 s := bytes_be 32 (toy_sum 1469598103934665603 s)
|}.

Lemma bytes_acc_length n x rest : String.length (bytes_acc n x rest) = (n + String.length rest)%nat.
Proof. revert x rest; induction n as [|n IH]; intros x rest; cbn [bytes_acc]; [done|]. rewrite IH. cbn. lia. Qed.

Lemma bytes_be_length n x : String.length (bytes_be n x) = n.
Proof. unfold bytes_be. rewrite bytes_acc_length. cbn. lia. Qed.

#[export] Instance toy_platform_laws : PlatformLaws.
Proof. split. intros s. apply bytes_be_length. Qed.

(** ** Signatures (package crypto/ed25519)

    A private key is 64 bytes, the seed followed by the public key. *)

Definition SignatureSize : Z := 64.
Definition PublicKeySize : Z := 32.
Definition PrivateKeySize : Z := 64.

Class Ed25519 := {
  Public : string → string;
  NewKeyFromSeed : string → string;
  Sign : string → string → string;
  Verify : string → string → string → bool }.

Class Ed25519Laws `{E : Ed25519} : Prop := {
  Verify_Sign : ∀ key m, Verify (Public key) m (Sign key m) = true;
  Sign_size : ∀ key m, slen (Sign key m) = SignatureSize;
  Public_size : ∀ key, slen key = PrivateKeySize → slen (Public key) = PublicKeySize }.

(** [s\[:n\]] and [s\[n:\]] on bytes. *)
Definition take_bytes (n : Z) (s : string) : string := String.substring 0 (Z.to_nat n) s.
Definition skip_bytes (n : Z) (s : string) : string := drop_bytes (Z.to_nat n) s.

Lemma take_bytes_app p q : take_bytes (slen p) (p +:+ q) = p.
Proof.
  unfold take_bytes, slen. rewrite Nat2Z.id. induction p as [|c p IH]; [by destruct q|].
  change (String c (String.substring 0 (String.length p) (p +:+ q)) = String c p). by f_equal.
Qed.

Lemma skip_bytes_app p q : skip_bytes (slen p) (p +:+ q) = q.
Proof.
  unfold skip_bytes, slen. rewrite Nat2Z.id. induction p as [|c p IH]; [done|].
  by change (drop_bytes (String.length p) (p +:+ q) = q).
Qed.

Lemma take_skip_bytes n s : 0 ≤ n ≤ slen s → take_bytes n s +:+ skip_bytes (slen (take_bytes n s)) s = s.
Proof.
  unfold take_bytes, skip_bytes, slen. intros [H0 Hn]. rewrite Nat2Z.id. apply Z2Nat.inj_le in Hn; [|lia..].
  rewrite Nat2Z.id in Hn. revert Hn. generalize (Z.to_nat n) as k. induction s as [|c s IH]; intros [|k] Hk; cbn in Hk; try done; try lia.
  change (String c (String.substring 0 k s +:+ drop_bytes (String.length (String.substring 0 k s)) s) = String c s).
  f_equal. apply IH. lia.
Qed.

(** *** A keyed sum for the examples, neither hiding nor unforgeable *)

Definition toy_signature (key m : string) : string := bytes_be 64 (toy_sum (toy_sum 7 key) m).

#[export] Instance toy_ed25519 : Ed25519 := {|
  Public key := String.substring 0 32 key;
  NewKeyFromSeed seed := seed +:+ seed;
  Sign key m := toy_signature (String.substring 0 32 key) m;
  Verify key m sig := toy_signature key m == sig |}.

#[export] Instance toy_ed25519_laws : Ed25519Laws.
Proof.
  split.
  - intros key m. cbn. by rewrite bool_decide_eq_true_2.
  - intros key m. unfold slen. cbn [Sign toy_ed25519]. unfold toy_signature. by rewrite bytes_be_length.
  - intros key Hk. cbn. unfold slen, PublicKeySize, PrivateKeySize in *. assert (Hl : (String.length key = 64)%nat) by lia.
    clear Hk. do 33 (destruct key as [|? key]; [discriminate Hl|]). done.
Qed.
