(* ===== verification/JsonString.v ===== *)
(** * JsonString: how encoding/json writes a string

    The strings of [json.Marshal]: runes are decoded as [utf8.DecodeRuneInString]
    does, a byte that is not part of a rune is replaced by U+FFFD, and control
    characters, quotes and the characters HTML minds are escaped.  What is written
    determines the string, up to the bytes that were replaced. *)

From S2P Require Import Prelude GoStd Platform.
Open Scope Z_scope.
Open Scope go_scope.

(** ** Runes *)

Definition byte_in (lo hi : N) (s : string) : bool :=
  match s with String c _ => ((lo <=? byte_of c) && (byte_of c <=? hi))%N | EmptyString => false end.

(** The continuation bytes a first byte announces, and the bounds of the first of
    them; none for a byte that starts no rune of several bytes. *)
Definition announced (b : N) : nat * N * N :=
  (if (194 <=? b) && (b <=? 223) then (1%nat, 128, 191)
   else if b =? 224 then (2%nat, 160, 191)
   else if b =? 237 then (2%nat, 128, 159)
   else if (225 <=? b) && (b <=? 239) then (2%nat, 128, 191)
   else if b =? 240 then (3%nat, 144, 191)
   else if (241 <=? b) && (b <=? 243) then (3%nat, 128, 191)
   else if b =? 244 then (3%nat, 128, 143)
   else (0%nat, 0, 0))%N.

Fixpoint continued (n : nat) (s : string) : bool :=
  match n, s with
  | O, _ => true
  | S k, String _ t => byte_in 128 191 s && continued k t
  | S _, EmptyString => false
  end.

(** The continuation bytes of the rune at the start of a string; none for ASCII
    and for a byte that is not part of a rune. *)
Definition rune_tail (s : string) : nat :=
  match s with
  | EmptyString => 0
  | String c t =>
      let '(n, lo, hi) := announced (byte_of c) in
      match n with
      | O => 0
      | S k => if byte_in lo hi t && match t with String _ u => continued k u | EmptyString => false end then n else 0
      end
  end.

(** A string as the runes and the stray bytes it is made of. *)
Fixpoint runes_from (skip : nat) (s : string) : list string :=
  match s with
  | EmptyString => []
  | String _ t =>
      match skip with
      | S k => runes_from k t
      | O => String.substring 0 (S (rune_tail s)) s :: runes_from (rune_tail s) t
      end
  end.
Definition text_runes (s : string) : list string := runes_from 0 s.

Definition replacement : string := String "239" (String "191" (String "189" "")).
Definition ascii_byte (c : ascii) : bool := (byte_of c <? 128)%N.
Definition stray (r : string) : bool := match r with String c EmptyString => negb (ascii_byte c) | _ => false end.
Definition concat_all (l : list string) : string := foldr String.append "" l.

(** [utf8.ValidString], and [strings.ToValidUTF8] byte by byte. *)
Definition valid_text (s : string) : bool := forallb (λ r, negb (stray r)) (text_runes s).
Definition replace_stray (r : string) : string := if stray r then replacement else r.
Definition coerced (s : string) : string := concat_all (replace_stray <$> text_runes s).

(** ** Writing *)

Definition quote : string := String "034" "".
Definition backslash : string := String "092" "".

(** [htmlSafeSet] *)
Definition html_safe (c : ascii) : bool :=
  let b := byte_of c in ((32 <=? b) && (b <? 128) && negb (existsb (N.eqb b) [34; 38; 60; 62; 92]))%N.
Definition escape_ascii (c : ascii) : string :=
  let b := byte_of c in
  if html_safe c then String c ""
  else if (b =? 34)%N || (b =? 92)%N then backslash +:+ String c ""
  else if (b =? 8)%N then backslash +:+ "b"
  else if (b =? 12)%N then backslash +:+ "f"
  else if (b =? 10)%N then backslash +:+ "n"
  else if (b =? 13)%N then backslash +:+ "r"
  else if (b =? 9)%N then backslash +:+ "t"
  else backslash +:+ "u00" +:+ String (hex_char (b / 16)) (String (hex_char (b mod 16)) "").

Definition write_rune (r : string) : string :=
  match r with
  | String c EmptyString => if ascii_byte c then escape_ascii c else backslash +:+ "ufffd"
  | _ =>
      if r == String "226" (String "128" (String "168" "")) then backslash +:+ "u2028"
      else if r == String "226" (String "128" (String "169" "")) then backslash +:+ "u2029"
      else r
  end.
Definition Quote (s : string) : string := quote +:+ concat_all (write_rune <$> text_runes s) +:+ quote.

(** ** What is written determines the text *)

Lemma string_app_cancel (a b x y : string) : a +:+ x = b +:+ y → slen x = slen y → a = b ∧ x = y.
Proof.
  intros Heq Hl. assert (Hab : slen a = slen b) by (apply (f_equal slen) in Heq; rewrite !slen_app in Heq; lia).
  pose proof (take_bytes_app a x) as Ht. pose proof (skip_bytes_app a x) as Hs.
  rewrite Heq, Hab, take_bytes_app in Ht. rewrite Heq, Hab, skip_bytes_app in Hs. by subst.
Qed.

(** One ASCII character or stray byte, or a rune of the announced length. *)
Definition rune_shape (r : string) : Prop :=
  match r with
  | String _ EmptyString => True
  | String c t => (194 <=? byte_of c)%N = true ∧ String.length t = (announced (byte_of c)).1.1
  | EmptyString => False
  end.

Lemma announced_lead b : (announced b).1.1 ≠ 0%nat → (194 <=? b)%N = true.
Proof. unfold announced. repeat case_match; cbn; intros; try done; rewrite ?andb_true_iff, ?N.leb_le, ?N.eqb_eq in *; lia. Qed.

Lemma continued_length n s : continued n s = true → (n ≤ String.length s)%nat.
Proof. revert s. induction n as [|n IH]; intros s; [cbn; lia|]. destruct s as [|c s]; [done|]. cbn. intros [_ H%IH]%andb_true_iff. lia. Qed.

Lemma substring_length n s : (n ≤ String.length s)%nat → String.length (String.substring 0 n s) = n.
Proof. revert s. induction n as [|n IH]; intros [|c s] H; cbn in *; [done|done|lia|]. rewrite IH; lia. Qed.

Lemma rune_tail_shape c t : rune_shape (String.substring 0 (S (rune_tail (String c t))) (String c t)).
Proof.
  cbn [String.substring]. unfold rune_tail. destruct (announced (byte_of c)) as [[n lo] hi] eqn:Ha. destruct n as [|n]; [by destruct t|].
  destruct (_ && _) eqn:Hb; [|by destruct t]. apply andb_true_iff in Hb as [_ Hc]. destruct t as [|d u]; [done|].
  apply continued_length in Hc. cbn [String.substring]. unfold rune_shape. rewrite Ha. cbn [fst String.length]. rewrite substring_length by done.
  split; [|done]. apply announced_lead. by rewrite Ha.
Qed.

Lemma runes_shape k s : Forall rune_shape (runes_from k s).
Proof. revert k. induction s as [|c s IH]; intros [|k]; cbn [runes_from]; [by constructor..| |apply IH]. constructor; [apply rune_tail_shape|apply IH]. Qed.

(** How long the escape, character or rune is that a written text starts with. *)
Definition code_size (s : string) : nat :=
  match s with
  | String c t =>
      if c == "092"%char then match t with String "u" _ => 6 | _ => 2 end
      else S (announced (byte_of c)).1.1
  | EmptyString => 0
  end.

Definition all_bytes : list ascii := ascii_of_nat <$> seq 0 256.
Lemma all_bytes_elem c : c ∈ all_bytes.
Proof. apply list_elem_of_fmap. exists (nat_of_ascii c). split; [by rewrite ascii_nat_embedding|]. apply elem_of_seq. pose proof (nat_ascii_bounded c). lia. Qed.
Lemma for_bytes (p : ascii → bool) : forallb p all_bytes = true → ∀ c, p c = true.
Proof. intros H c. rewrite forallb_forall in H. apply H, list_elem_of_In, all_bytes_elem. Qed.

Lemma single_code_size c x : code_size (write_rune (String c "") +:+ x) = String.length (write_rune (String c "")).
Proof. destruct c as [[] [] [] [] [] [] [] []]; reflexivity. Qed.

Definition heads_ascii (s : string) : bool := match s with String h _ => ascii_byte h && negb (h == "034"%char) | EmptyString => false end.
Lemma single_head c : heads_ascii (write_rune (String c "")) = true.
Proof. revert c. apply for_bytes. vm_compute. reflexivity. Qed.

Lemma single_inj c d :
  write_rune (String c "") = write_rune (String d "") → replace_stray (String c "") = replace_stray (String d "").
Proof.
  assert (H : ∀ c d : ascii, implb (String.eqb (write_rune (String c "")) (write_rune (String d "")))
    (String.eqb (replace_stray (String c "")) (replace_stray (String d ""))) = true).
  { intros c0. apply for_bytes. revert c0. apply for_bytes. vm_compute. reflexivity. }
  intros Heq. specialize (H c d). rewrite Heq, String.eqb_refl in H. by apply String.eqb_eq.
Qed.

Definition separator (r : string) (code : string) : Prop :=
  r = String "226" (String "128" (String "168" "")) ∧ code = backslash +:+ "u2028" ∨
  r = String "226" (String "128" (String "169" "")) ∧ code = backslash +:+ "u2029".
Lemma single_not_separator c r code : separator r code → write_rune (String c "") ≠ code.
Proof.
  intros Hs Heq. assert (H : ∀ c : ascii, negb (String.eqb (write_rune (String c "")) (backslash +:+ "u2028")) && negb (String.eqb (write_rune (String c "")) (backslash +:+ "u2029")) = true).
  { apply for_bytes. vm_compute. reflexivity. }
  specialize (H c). rewrite Heq in H. by destruct Hs as [[_ ->]|[_ ->]].
Qed.

(** A rune of several bytes is written as it is, but for two separators. *)
Lemma write_long (c d : ascii) (u : string) : let r := String c (String d u) in write_rune r = r ∨ separator r (write_rune r).
Proof.
  cbv zeta. unfold write_rune, separator. repeat case_bool_decide; [right; left; by rewrite H|right; right; by rewrite H0|by left].
Qed.

Lemma long_head (c : ascii) : (194 <=? byte_of c)%N = true → ascii_byte c = false ∧ c ≠ "034"%char ∧ c ≠ "092"%char.
Proof. intros Hc. apply N.leb_le in Hc. unfold ascii_byte. split; [apply N.ltb_ge; lia|]. by split; intros ->. Qed.

Lemma code_size_write r x : rune_shape r → code_size (write_rune r +:+ x) = String.length (write_rune r).
Proof.
  destruct r as [|c [|d u]]; [done|intros _; apply single_code_size|]. intros [Hc Hl].
  destruct (write_long c d u) as [->|[[_ ->]|[_ ->]]]; [|done..]. destruct (long_head c Hc) as (_ & _ & Hn).
  change (String c (String d u) +:+ x) with (String c (String d (u +:+ x))). unfold code_size. rewrite bool_decide_eq_false_2 by done.
  cbn [String.length] in *. by rewrite Hl.
Qed.

Lemma write_head r x y : rune_shape r → write_rune r +:+ x ≠ quote +:+ y.
Proof.
  destruct r as [|c [|d u]]; [done| |].
  - intros _. pose proof (single_head c) as H. destruct (write_rune _) as [|h t]; [done|]. cbn. intros [= -> _]. done.
  - intros [Hc _]. destruct (long_head c Hc) as (_ & Hq & _). destruct (write_long c d u) as [->|[[_ ->]|[_ ->]]]; by intros [=].
Qed.

Lemma write_rune_inj r r' : rune_shape r → rune_shape r' → write_rune r = write_rune r' → replace_stray r = replace_stray r'.
Proof.
  assert (Hmix : ∀ (c c' d : ascii) u, rune_shape (String c' (String d u)) → write_rune (String c "") ≠ write_rune (String c' (String d u))).
  { intros c c' d u [Hc _] Heq. destruct (write_long c' d u) as [Hw|Hs]; [|by apply (single_not_separator c _ _ Hs)]. rewrite Hw in Heq.
    pose proof (single_head c) as H. rewrite Heq in H. cbn in H. by rewrite (proj1 (long_head c' Hc)) in H. }
  destruct r as [|c [|d u]]; [done| |]; destruct r' as [|c' [|d' u']]; try done; intros H H' Heq.
  - by apply single_inj.
  - by destruct (Hmix c c' d' u' H').
  - by destruct (Hmix c' c d u H).
  - change (replace_stray (String c (String d u))) with (String c (String d u)).
    change (replace_stray (String c' (String d' u'))) with (String c' (String d' u')). destruct H as [Hc _], H' as [Hc' _].
    destruct (write_long c d u) as [E|S1], (write_long c' d' u') as [E'|S2]; [congruence| | |].
    + rewrite E in Heq. exfalso. destruct S2 as [[_ S2]|[_ S2]]; rewrite S2 in Heq; injection Heq as -> _; done.
    + rewrite E' in Heq. exfalso. destruct S1 as [[_ S1]|[_ S1]]; rewrite S1 in Heq; injection Heq as <- _; done.
    + destruct S1 as [[[= -> -> ->] S1]|[[= -> -> ->] S1]], S2 as [[[= -> -> ->] S2]|[[= -> -> ->] S2]]; done.
Qed.

Lemma written_inj l l' x y :
  Forall rune_shape l → Forall rune_shape l' →
  concat_all (write_rune <$> l) +:+ quote +:+ x = concat_all (write_rune <$> l') +:+ quote +:+ y →
  replace_stray <$> l = replace_stray <$> l' ∧ x = y.
Proof.
  intros Hl. revert l'. induction Hl as [|r l Hr _ IH]; intros l' Hl'.
  - destruct Hl' as [|r' l' Hr' _]; [intros Heq; split; [done|]; exact (f_equal (drop_bytes 1) Heq)|]. intros Heq. symmetry in Heq. cbn in Heq. rewrite string_app_assoc in Heq.
    by apply (write_head r' _ x Hr') in Heq.
  - destruct Hl' as [|r' l' Hr' Hl']; intros Heq; cbn [fmap list_fmap concat_all foldr] in *; rewrite ?string_app_assoc in Heq.
    + by apply (write_head r _ y Hr) in Heq.
    + fold (concat_all (write_rune <$> l)) in Heq. fold (concat_all (write_rune <$> l')) in Heq.
      assert (Hs := f_equal code_size Heq). rewrite !code_size_write in Hs by done.
      destruct (string_app_cancel _ _ _ _ Heq) as [Hw Hrest].
      { apply (f_equal slen) in Heq. rewrite (slen_app (write_rune r)), (slen_app (write_rune r')) in Heq. unfold slen in *. lia. }
      destruct (IH l' Hl' Hrest) as [Ht ->]. split; [|done]. f_equal; [by apply write_rune_inj|done].
Qed.

Definition same_text (s s' : string) : Prop := coerced s = coerced s'.
#[export] Instance same_text_equivalence : Equivalence same_text.
Proof. unfold same_text. split; [by intros s|by intros s s'|]. intros x y z. congruence. Qed.

(** A written string ends where its closing quote is, and what is before it is its
    text. *)
Theorem Quote_inj s s' x y : Quote s +:+ x = Quote s' +:+ y → same_text s s' ∧ x = y.
Proof.
  unfold Quote, same_text, coerced. rewrite !string_app_assoc. intros [= H]. apply written_inj in H as [-> ->]; [done|apply runes_shape..].
Qed.

(** Valid text is not changed. *)
Lemma substring_rest n s : (n ≤ String.length s)%nat → String.substring 0 n s +:+ drop_bytes n s = s.
Proof.
  revert s. induction n as [|n IH]; intros [|c s] H; cbn in H; [done|done|lia|].
  change (String c (String.substring 0 n s +:+ drop_bytes n s) = String c s). rewrite IH; [done|lia].
Qed.

Lemma runes_concat k s : (k ≤ String.length s)%nat → concat_all (runes_from k s) = drop_bytes k s.
Proof.
  revert k. induction s as [|c s IH]; intros k Hk; [by destruct k|]. destruct k as [|k]; cbn [runes_from]; [|by apply IH; cbn in Hk; lia].
  assert (Ht : (rune_tail (String c s) ≤ String.length s)%nat).
  { unfold rune_tail. destruct (announced _) as [[n lo] hi]. destruct n as [|n]; [lia|]. destruct (_ && _) eqn:Hb; [|lia].
    apply andb_true_iff in Hb as [_ Hc]. destruct s as [|d u]; [done|]. apply continued_length in Hc. cbn. lia. }
  cbn [concat_all foldr]. fold (concat_all (runes_from (rune_tail (String c s)) s)). rewrite IH by done. cbn [String.substring drop_bytes].
  change (String c (String.substring 0 (rune_tail (String c s)) s +:+ drop_bytes (rune_tail (String c s)) s) = String c s).
  by rewrite substring_rest.
Qed.

Lemma coerced_valid s : valid_text s = true → coerced s = s.
Proof.
  intros Hv. unfold coerced. transitivity (concat_all (text_runes s)); [|exact (runes_concat 0 s ltac:(lia))]. f_equal.
  unfold valid_text in Hv. induction (text_runes s) as [|r l IH]; [done|]. cbn in *. apply andb_true_iff in Hv as [Hr Hl]. rewrite IH by done.
  unfold replace_stray. by destruct (stray r).
Qed.

Lemma same_text_valid s s' : valid_text s = true → valid_text s' = true → same_text s s' → s = s'.
Proof. unfold same_text. intros Hs Hs'. by rewrite !coerced_valid. Qed.

(** A stray byte is written as U+FFFD is escaped, U+FFFD itself as it is. *)
Example written_strays :
  Quote (String "255" "<a>") = quote +:+ "\ufffd\u003ca\u003e" +:+ quote ∧ Quote replacement = quote +:+ replacement +:+ quote ∧
  coerced (String "255" "<a>") = replacement +:+ "<a>".
Proof. split_and!; vm_compute; reflexivity. Qed.
