(* ===== verification/Domain.v ===== *)
(** * Domain: internal/domain, the values shared by Server, Agent and Gateway

    The status machine of operations, the result codes of repository jobs, and
    the retry policy and limits of a backup. *)

From Stdlib Require Import SpecFloat.
From S2P Require Import Prelude GoStd Uuid Platform.
Open Scope Z_scope.
Open Scope go_scope.

(** ** Operations (operation.go) *)

Module Operation.

Definition OperationTerminal (status : string) : bool :=
  (status == "SUCCEEDED") || (status == "SUCCEEDED_WITH_WARNINGS") || (status == "FAILED") ||
  (status == "CANCELED") || (status == "TIMED_OUT") || (status == "LOST") || (status == "REJECTED").

Definition ValidOperationID `{U : UuidPkg} (id : uuid) : bool :=
  ((Version id == 7) || (Version id == 5)) && (Variant id == RFC4122).

(** [true] when [ValidateOperationTransition(from, to)] returns nil. *)
Definition ValidateOperationTransition (from to : string) : bool :=
  if from == "QUEUED" then (to == "DISPATCHED") || (to == "REJECTED") || (to == "CANCELED")
  else if from == "DISPATCHED" then (to == "ACKNOWLEDGED") || (to == "LOST") || (to == "FAILED")
  else if from == "ACKNOWLEDGED" then to == "RUNNING"
  else if from == "RUNNING" then
    (to == "SUCCEEDED") || (to == "SUCCEEDED_WITH_WARNINGS") || (to == "FAILED") ||
    (to == "CANCEL_REQUESTED") || (to == "TIMED_OUT") || (to == "LOST")
  else if from == "CANCEL_REQUESTED" then (to == "CANCELED") || (to == "LOST")
  else false.

(** Position of a status in the life cycle; terminal statuses come last. *)
Definition rank (status : string) : nat :=
  if status == "QUEUED" then 0
  else if status == "DISPATCHED" then 1
  else if status == "ACKNOWLEDGED" then 2
  else if status == "RUNNING" then 3
  else if status == "CANCEL_REQUESTED" then 4
  else 5.

(** A history: consecutive statuses joined by accepted transitions. *)
Inductive history : list string → Prop :=
| history_one s : history [s]
| history_step s t l :
    ValidateOperationTransition s t = true → history (t :: l) → history (s :: t :: l).

Lemma transition_rank s t :
  ValidateOperationTransition s t = true → (rank s < rank t)%nat ∧ OperationTerminal s = false.
Proof.
  unfold ValidateOperationTransition. intros Hs.
  str_cases Hs; vm_compute; split; (lia || done).
Qed.

Lemma rank_le s : (rank s ≤ 5)%nat.
Proof. unfold rank. repeat case_bool_decide; lia. Qed.

Lemma history_rank s l : history (s :: l) → (length l + rank s ≤ 5)%nat.
Proof.
  revert s; induction l as [|t l IH]; intros s Hh; simpl.
  - pose proof (rank_le s). lia.
  - inversion Hh; subst. apply transition_rank in H1 as [??]. apply IH in H3. lia.
Qed.

Lemma history_terminal s l : OperationTerminal s = true → history (s :: l) → l = [].
Proof.
  intros Ht Hh. inversion Hh; subst; [done|].
  match goal with H : ValidateOperationTransition _ _ = true |- _ =>
    apply transition_rank in H as [_ ?] end. congruence.
Qed.

Lemma history_above s l : history (s :: l) → Forall (λ t, (rank s < rank t)%nat) l.
Proof.
  revert s; induction l as [|t l IH]; intros s Hh; [constructor|]. inversion Hh; subst.
  apply transition_rank in H1 as [Hr _]. apply IH in H3. constructor; [done|].
  eapply Forall_impl; [exact H3|]. cbn. lia.
Qed.

Lemma history_NoDup l : history l → NoDup l.
Proof.
  induction l as [|s l IH]; [by inversion 1|]. intros Hh. apply NoDup_cons. split.
  - intros Hin. apply history_above in Hh. rewrite Forall_forall in Hh. specialize (Hh _ Hin). lia.
  - destruct l; [constructor|]. inversion Hh; subst. by apply IH.
Qed.

(** Every operation comes to an end. Along any sequence of accepted
    transitions no status occurs twice, at most five transitions are taken, and
    nothing follows a terminal status. *)
Theorem operation_lifecycle (s : string) (l : list string) :
  history (s :: l) → NoDup (s :: l) ∧ (length l ≤ 5)%nat ∧ (OperationTerminal s = true → l = []).
Proof.
  intros Hh. split; [by apply history_NoDup|]. split; [apply history_rank in Hh; lia|].
  intros Ht. by apply (history_terminal s).
Qed.

Lemma operation_lifecycle_witness :
  NoDup ["QUEUED"; "DISPATCHED"; "ACKNOWLEDGED"; "RUNNING"; "CANCEL_REQUESTED"; "CANCELED"].
Proof.
  refine (proj1 (operation_lifecycle "QUEUED" ["DISPATCHED"; "ACKNOWLEDGED"; "RUNNING"; "CANCEL_REQUESTED"; "CANCELED"] _)).
  repeat (apply history_step; [vm_compute; reflexivity|]). apply history_one.
Defined.

(** Status vocabulary of credential test and repository initialisation
    outcomes. *)
Definition ValidCredentialTestCode (code : string) : bool :=
  bool_decide (code ∈ [""; "CONNECTION_FAILED"; "TEST_TIMED_OUT"; "CONFIG_UNSAFE";
    "REFRESH_FAILED"; "CREDENTIAL_CHANGED"; "CREDENTIAL_DISABLED"; "SECRET_UNAVAILABLE";
    "WORKER_LOST"]).

Definition ValidInitializeCode (code : string) : bool :=
  bool_decide (code ∈ [""; "INITIALIZE_FAILED"; "INITIALIZE_TIMED_OUT"; "REPOSITORY_LOCKED";
    "REPOSITORY_MISMATCH"; "REPOSITORY_NOT_EMPTY"; "PASSWORD_REJECTED";
    "REPOSITORY_UNAVAILABLE"; "CONFIG_UNSAFE"; "REFRESH_FAILED"; "CREDENTIAL_CHANGED";
    "CREDENTIAL_DISABLED"; "SECRET_UNAVAILABLE"; "WORKER_LOST"]).

(** [^[0-9a-f]{64}$] and format version 2. *)
Definition ValidInitializedRepository (id : string) (version : Z) : bool :=
  (version == 2) && ((String.length id =? 64)%nat && string_forallb lower_hex id).

End Operation.

(** ** Backup execution policy (backup_execution.go) *)

Record TemplateError := mkTemplateError { te_Field : string; te_Code : string }.

Module Execution.

Definition RetryableBackupError (code : string) : bool :=
  (code == "REPOSITORY_LOCKED") || (code == "GATEWAY_BUSY") ||
  (code == "GATEWAY_UNAVAILABLE") || (code == "GATEWAY_RATE_LIMITED").

Record BackupRetryPolicy := mkRetry {
  InitialBackoffSeconds : Z; MaxAttempts : Z; MaxBackoffSeconds : Z }.

Definition Attempts (p : BackupRetryPolicy) : Z :=
  if MaxAttempts p =? 0 then 1 else MaxAttempts p.

(** [for i := 1; i < attempt && initial < maximum; i++ { initial *= 2 }];
    [n] is the number of iterations [i < attempt] allows. *)
Fixpoint backoff_loop (n : nat) (initial maximum : Z) : Z :=
  match n with
  | O => initial
  | S k => if initial <? maximum then backoff_loop k (wrap64 (initial * 2)) maximum else initial
  end.

Definition default_initial (p : BackupRetryPolicy) : Z :=
  if InitialBackoffSeconds p =? 0 then 60 else InitialBackoffSeconds p.
Definition default_maximum (p : BackupRetryPolicy) : Z :=
  if MaxBackoffSeconds p =? 0 then 1800 else MaxBackoffSeconds p.

Definition Backoff (p : BackupRetryPolicy) (attempt : Z) : Z :=
  let maximum := default_maximum p in
  let initial := backoff_loop (Z.to_nat (attempt - 1)) (default_initial p) maximum in
  if maximum <? initial then maximum else initial.

Record BackupResourceLimits := mkLimits {
  LimitDownloadKiB : Z; LimitUploadKiB : Z; MaxDurationSeconds : Z; ReadConcurrency : Z }.

Record BackupExecution := mkExecution {
  RetryPolicy : option BackupRetryPolicy;
  ResourceLimits : option BackupResourceLimits;
  PreHookIDs : list uuid;
  PostHookIDs : list uuid }.

Fixpoint duplicate_from (seen : gset uuid) (values : list uuid) : bool :=
  match values with
  | [] => false
  | v :: vs => if bool_decide (v ∈ seen) then true else duplicate_from ({[v]} ∪ seen) vs
  end.
Definition duplicateUUID (values : list uuid) : bool := duplicate_from ∅ values.

Definition out_of_range (lo hi v : Z) : bool := (v <? lo) || (hi <? v).

Definition validate_retry (p : BackupRetryPolicy) : result TemplateError () :=
  reject out_of_range 0 10 (MaxAttempts p) ||
         out_of_range 0 86400 (InitialBackoffSeconds p) ||
         out_of_range 0 86400 (MaxBackoffSeconds p)
    as mkTemplateError "retry_policy" "OUT_OF_RANGE" ;;
  reject default_maximum p <? default_initial p
    as mkTemplateError "retry_policy" "INVALID_BACKOFF" ;;
  Ok ().

Definition validate_limits (p : BackupResourceLimits) : result TemplateError () :=
  reject out_of_range 0 (2 ^ 30) (LimitDownloadKiB p) ||
         out_of_range 0 (2 ^ 30) (LimitUploadKiB p) ||
         out_of_range 0 64 (ReadConcurrency p) ||
         out_of_range 0 86400 (MaxDurationSeconds p)
    as mkTemplateError "resource_limits" "OUT_OF_RANGE" ;;
  Ok ().

Definition validate_hooks `{U : UuidPkg} (ids : list uuid) : result TemplateError () :=
  reject (16 <? length ids)%nat || duplicateUUID ids as mkTemplateError "hook_ids" "INVALID" ;;
  reject existsb (λ id, negb (valid_v7 id)) ids as mkTemplateError "hook_ids" "INVALID" ;;
  Ok ().

(** [( *BackupExecution).Validate]; the receiver may be nil. *)
Definition ValidateExecution `{U : UuidPkg} (c : option BackupExecution) : result TemplateError () :=
  match c with
  | None => Ok ()
  | Some c =>
      let! _ := match RetryPolicy c with Some p => validate_retry p | None => Ok () end in
      let! _ := match ResourceLimits c with Some p => validate_limits p | None => Ok () end in
      let! _ := validate_hooks (PreHookIDs c) in
      validate_hooks (PostHookIDs c)
  end.

Lemma duplicate_from_false seen values :
  duplicate_from seen values = false ↔ NoDup values ∧ Forall (λ v, v ∉ seen) values.
Proof.
  revert seen; induction values as [|v vs IH]; intros seen; simpl.
  - split; [|done]. intros _. split; constructor.
  - case_bool_decide as Hv.
    + split; [done|]. intros [_ Hf]. by apply Forall_cons in Hf as [??].
    + rewrite IH, NoDup_cons, Forall_cons, !Forall_forall. set_solver.
Qed.

Lemma duplicateUUID_false values : duplicateUUID values = false ↔ NoDup values.
Proof.
  unfold duplicateUUID. rewrite duplicate_from_false. split; [tauto|].
  intros ?. split; [done|]. apply Forall_forall. set_solver.
Qed.

(** What a validated policy guarantees. *)
Lemma validate_retry_bounds p :
  validate_retry p = Ok () →
  0 ≤ MaxAttempts p ≤ 10 ∧ 1 ≤ default_initial p ≤ default_maximum p ∧ default_maximum p ≤ 86400.
Proof.
  unfold validate_retry, out_of_range. intros Hok. ok_inv Hok. bool_prop.
  unfold default_initial, default_maximum in *.
  destruct (Z.eqb_spec (InitialBackoffSeconds p) 0), (Z.eqb_spec (MaxBackoffSeconds p) 0); lia.
Qed.

Lemma backoff_loop_spec n init maximum :
  1 ≤ init ≤ maximum → maximum ≤ 86400 →
  Z.min maximum (backoff_loop n init maximum) = Z.min maximum (init * 2 ^ Z.of_nat n).
Proof.
  revert init; induction n as [|n IH]; intros init Hi Hm; cbn [backoff_loop].
  - f_equal. rewrite Z.pow_0_r. lia.
  - assert (0 < 2 ^ Z.of_nat n) by (apply Z.pow_pos_nonneg; lia).
    rewrite Nat2Z.inj_succ, Z.pow_succ_r by lia.
    destruct (Z.ltb_spec init maximum); [|nia].
    rewrite wrap64_id by (unfold in_int64, min_int64, max_int64; lia).
    destruct (Z.le_gt_cases (init * 2) maximum) as [Hle|Hgt].
    + rewrite IH by lia. f_equal. lia.
    + assert (Hst : backoff_loop n (init * 2) maximum = init * 2).
      { destruct n; cbn [backoff_loop]; [done|]. by rewrite (proj2 (Z.ltb_ge _ _)) by lia. }
      rewrite Hst. nia.
Qed.

Lemma Backoff_spec p attempt :
  validate_retry p = Ok () → 1 ≤ attempt →
  Backoff p attempt = Z.min (default_maximum p) (default_initial p * 2 ^ (attempt - 1)).
Proof.
  intros Hv Ha. apply validate_retry_bounds in Hv as (_ & Hi & Hm).
  unfold Backoff. pose proof (backoff_loop_spec (Z.to_nat (attempt - 1)) _ _ Hi Hm) as Hs.
  rewrite Z2Nat.id in Hs by lia. rewrite <- Hs.
  destruct (Z.ltb_spec (default_maximum p)
    (backoff_loop (Z.to_nat (attempt - 1)) (default_initial p) (default_maximum p))); lia.
Qed.

(** The retry delay is the capped exponential. For a validated policy the
    delay before retrying attempt [n] is [initial * 2^(n-1)] seconds capped at
    the maximum, without overflow for any attempt number, and it never
    decreases from one attempt to the next. *)
Theorem backoff_exact (p : BackupRetryPolicy) (attempt : Z) :
  validate_retry p = Ok () → 1 ≤ attempt →
  Backoff p attempt = Z.min (default_maximum p) (default_initial p * 2 ^ (attempt - 1)) ∧
  1 ≤ Backoff p attempt ≤ Backoff p (attempt + 1).
Proof.
  intros Hv Ha. rewrite !Backoff_spec by (done || lia). split; [done|].
  apply validate_retry_bounds in Hv as (_ & Hi & _).
  assert (0 < 2 ^ (attempt - 1)) by (apply Z.pow_pos_nonneg; lia).
  replace (attempt + 1 - 1) with (Z.succ (attempt - 1)) by lia. rewrite Z.pow_succ_r by lia. nia.
Qed.

Lemma backoff_exact_witness : Backoff (mkRetry 30 5 600) 4 = Z.min 600 (30 * 2 ^ 3).
Proof. refine (proj1 (backoff_exact (mkRetry 30 5 600) 4 _ _)); [reflexivity|lia]. Defined.

End Execution.
