(* ===== verification/Plan.v ===== *)
(** * Plan: template.go, plan.go and agentstate.go of internal/domain

    Validation of backup paths, cron expressions, time zones, templates, the
    Agent-visible plan schedules and the desired state that carries them. *)

From S2P Require Import Prelude GoStd Uuid Platform Domain.
Open Scope Z_scope.
Open Scope go_scope.
Import Execution.

(** ** Backup paths (template.go) *)

Module Paths.

Definition path_rejected (path : string) : bool :=
  blank path || (4096 <? slen path) || negb (IsAbs path) || (Clean path != path) ||
  has_control path.

Definition exclude_rejected (pattern : string) : bool :=
  (4096 <? slen pattern) || has_control pattern.

(** The first rejected element and its index. *)
Fixpoint first_rejected (f : string → bool) (i : nat) (l : list string) : option nat :=
  match l with
  | [] => None
  | x :: xs => if f x then Some i else first_rejected f (S i) xs
  end.

Definition ValidateBackupPaths (paths excludes : list string) : result TemplateError () :=
  match paths with
  | [] => Err (mkTemplateError "paths" "REQUIRED")
  | _ =>
      match first_rejected path_rejected 0 paths with
      | Some i => Err (mkTemplateError ("paths." +:+ pretty i) "INVALID")
      | None =>
          match first_rejected exclude_rejected 0 excludes with
          | Some i => Err (mkTemplateError ("exclude_patterns." +:+ pretty i) "INVALID")
          | None => Ok ()
          end
      end
  end.

Lemma first_rejected_None f i l : first_rejected f i l = None ↔ Forall (λ x, f x = false) l.
Proof.
  revert i; induction l as [|x l IH]; intros i; simpl; [split; auto|].
  rewrite Forall_cons. destruct (f x) eqn:E; [split; [done|by intros [??]]|].
  rewrite IH. tauto.
Qed.

Lemma ValidateBackupPaths_ok paths excludes :
  ValidateBackupPaths paths excludes = Ok () ↔
  paths ≠ [] ∧ Forall (λ p, path_rejected p = false) paths ∧
  Forall (λ p, exclude_rejected p = false) excludes.
Proof.
  unfold ValidateBackupPaths. rewrite <- !(first_rejected_None _ 0).
  destruct paths as [|p ps]; [naive_solver|].
  destruct (first_rejected path_rejected 0 (p :: ps)); [naive_solver|].
  destruct (first_rejected exclude_rejected 0 excludes); naive_solver.
Qed.

(** *** Clean absolute paths have no parent references *)

Definition no_slash (s : string) : Prop := Cut "/" s = None.

Lemma Split_no_slash s : no_slash s → Split "/" s = [s].
Proof.
  unfold no_slash. induction s as [|c s IH]; [done|].
  cbn [Cut Split]. case_bool_decide; [done|].
  destruct (Cut "/" s) as [[??]|]; [done|]. intros _. by rewrite IH.
Qed.

Lemma Split_app_slash a b : no_slash a → Split "/" (a +:+ String "/" b) = a :: Split "/" b.
Proof.
  unfold no_slash. induction a as [|c a IH]; [done|].
  change (String c a +:+ String "/" b) with (String c (a +:+ String "/" b)).
  cbn [Cut Split]. case_bool_decide; [done|].
  destruct (Cut "/" a) as [[??]|]; [done|]. intros _. by rewrite IH.
Qed.

Lemma Split_pieces s : Forall no_slash (Split "/" s).
Proof.
  unfold no_slash. induction s as [|c s IH]; [by constructor|].
  cbn [Split]. case_bool_decide; [by constructor|].
  destruct (Split "/" s) as [|w ws]; [by constructor; [cbn; case_bool_decide|]|].
  apply Forall_cons in IH as [Hw Hws]. constructor; [|done].
  cbn [Cut]. rewrite bool_decide_eq_false_2 by done. by rewrite Hw.
Qed.

Lemma Split_concat l :
  l ≠ [] → Forall no_slash l → Split "/" (String.concat "/" l) = l.
Proof.
  induction l as [|x [|y l] IH]; intros Hne Hf; [done| |].
  - apply Forall_cons in Hf as [Hx _]. by apply Split_no_slash.
  - apply Forall_cons in Hf as [Hx Hf].
    change (String.concat "/" (x :: y :: l)) with (x +:+ "/" +:+ String.concat "/" (y :: l)).
    change ("/" +:+ String.concat "/" (y :: l)) with (String "/" (String.concat "/" (y :: l))).
    rewrite Split_app_slash by done. rewrite IH; done.
Qed.

Definition plain_component (c : string) : Prop := c ≠ "" ∧ c ≠ "." ∧ c ≠ ".." ∧ no_slash c.

Lemma clean_push_plain out l :
  Forall no_slash l → Forall plain_component out →
  Forall plain_component (foldl (clean_push true) out l).
Proof.
  revert out; induction l as [|c l IH]; intros out Hl Hout; [done|].
  apply Forall_cons in Hl as [Hc Hl]. cbn [foldl]. apply IH; [done|].
  unfold clean_push. destruct ((c == "") || (c == ".")) eqn:E1; [done|].
  apply orb_false_iff in E1 as [? ?]. bool_prop.
  case_bool_decide.
  - destruct out as [|t out]; [done|]. apply Forall_cons in Hout as [Ht Hout].
    case_bool_decide; [|done]. by destruct Ht as (_ & _ & [] & _).
  - constructor; [|done]. by repeat split.
Qed.

Lemma Clean_components p :
  IsAbs p = true → Clean p = p →
  p = "/" ∨ ∃ comps, Split "/" p = "" :: comps ∧ Forall plain_component comps.
Proof.
  intros Habs Hc. unfold Clean in Hc. rewrite Habs in Hc.
  case_bool_decide as Hp; [by subst|].
  set (out := foldl (clean_push true) [] (Split "/" p)) in Hc.
  assert (Hout : Forall plain_component (reverse out)).
  { apply Forall_reverse. apply clean_push_plain; [apply Split_pieces|constructor]. }
  destruct (reverse out) as [|x xs] eqn:Er.
  - left. by rewrite <- Hc.
  - right. exists (x :: xs). split; [|done]. rewrite <- Hc.
    change ("/" +:+ String.concat "/" (x :: xs)) with ("" +:+ String "/" (String.concat "/" (x :: xs))).
    rewrite Split_app_slash by done. f_equal. apply Split_concat; [done|].
    eapply Forall_impl; [exact Hout|]. by intros ? (_ & _ & _ & ?).
Qed.

(** Bytes that would break the line-oriented file handed to the engine. *)
Definition line_break (c : ascii) : bool :=
  let b := byte_of c in ((b =? 0) || (b =? 10) || (b =? 13))%N.

Lemma has_control_breaks s :
  has_control s = false → string_forallb (λ c, negb (line_break c)) s = true.
Proof.
  induction s as [|c s IH]; [done|]. cbn [has_control string_forallb].
  intros H%orb_false_iff. destruct H as [H Hs]. apply orb_false_iff in H as [H _].
  apply orb_false_iff in H as [H _]. rewrite IH by done. rewrite andb_true_r.
  unfold line_break. apply N.ltb_ge in H.
  repeat match goal with |- context [N.eqb ?a ?b] => destruct (N.eqb_spec a b) end; try lia; done.
Qed.

(** Accepted backup paths stay where they point. Every path that passes is
    absolute, at most 4096 bytes, has no empty, [.] or [..] component, and
    contains none of the bytes NUL, LF and CR that would end an entry of the
    list file handed to the backup engine. *)
Theorem backup_paths_confined (paths excludes : list string) (p : string) :
  ValidateBackupPaths paths excludes = Ok () → p ∈ paths →
  IsAbs p = true ∧ slen p ≤ 4096 ∧ string_forallb (λ c, negb (line_break c)) p = true ∧
  (p = "/" ∨ ∃ comps, Split "/" p = "" :: comps ∧ Forall plain_component comps).
Proof.
  intros (_ & Hp & _)%ValidateBackupPaths_ok Hin. rewrite Forall_forall in Hp. specialize (Hp p Hin).
  unfold path_rejected in Hp. bool_prop.
  split_and!; [done|lia|by apply has_control_breaks|by apply Clean_components].
Qed.

Lemma backup_paths_confined_witness : IsAbs "/srv/data" = true.
Proof.
  refine (proj1 (backup_paths_confined ["/etc"; "/srv/data"] ["*.tmp"] "/srv/data" _ _)); [vm_compute; reflexivity|].
  right. left.
Defined.

End Paths.

(** ** Cron expressions and time zones (template.go) *)

Module Cron.

(** The five cron fields' bounds. *)
Definition cronFields : list (Z * Z) := [(0, 59); (0, 23); (1, 31); (1, 12); (0, 6)].

(** One comma-separated item of a field. *)
Definition validate_part (part : string) (min max : Z) : result string () :=
  reject part == "" as "empty list item" ;;
  let! (step, part) :=
    match Cut "/" part with
    | Some (base, rawStep) =>
        match Atoi rawStep with
        | Some parsed => if parsed <? 1 then Err "invalid step" else Ok (parsed, base)
        | None => Err "invalid step"
        end
    | None => Ok (1, part)
    end in
  if part == "*" then Ok ()
  else
    match Cut "-" part with
    | Some (low, high) =>
        match Atoi low with
        | None => Err "atoi"
        | Some first =>
            match Atoi high with
            | None => Err "atoi"
            | Some last =>
                reject (first <? min) || (max <? last) || (last <? first) as "range out of bounds" ;;
                reject last - first + 1 <? step as "step exceeds range" ;;
                Ok ()
            end
        end
    | None =>
        match Atoi part with
        | Some value => reject (value <? min) || (max <? value) as "value out of bounds" ;; Ok ()
        | None => Err "value out of bounds"
        end
    end.

Fixpoint validate_parts (parts : list string) (min max : Z) : result string () :=
  match parts with
  | [] => Ok ()
  | p :: ps => let! _ := validate_part p min max in validate_parts ps min max
  end.

Definition validateCronField (field : string) (min max : Z) : result string () :=
  validate_parts (Split "," field) min max.

Fixpoint validate_fields (fields : list string) (bounds : list (Z * Z)) : result string () :=
  match fields, bounds with
  | f :: fs, (min, max) :: bs => let! _ := validateCronField f min max in validate_fields fs bs
  | _, _ => Ok ()
  end.

Definition validateCron (expr : string) : result string () :=
  let fields := Fields expr in
  reject negb (length fields =? length cronFields)%nat as "cron must have five fields" ;;
  validate_fields fields cronFields.

Definition validateTimezone `{P : Platform} (name : string) : result string () :=
  reject (name == "") || (name == "Local") as "timezone is required" ;;
  match LoadLocation name with Some _ => Ok () | None => Err "unknown time zone" end.

End Cron.

(** ** Templates (template.go) *)

Module Template.
Import Paths Cron.

Record TemplateConfig := mkTemplateConfig {
  tc_Paths : list string;
  tc_ExcludePatterns : list string;
  tc_ExcludeCaches : bool;
  tc_OneFileSystem : bool;
  tc_ScheduleCron : string;
  tc_ScheduleTimezone : string;
  tc_JitterSeconds : Z;
  tc_MisfireGraceSeconds : Z;
  tc_RetryPolicy : option BackupRetryPolicy;
  tc_RetentionPolicyID : option uuid;
  tc_PreHookIDs : list uuid;
  tc_PostHookIDs : list uuid;
  tc_ResourceLimits : option BackupResourceLimits;
  tc_EnabledByDefault : bool }.

(** [TemplateConfig.BackupExecution]: nil when nothing is configured. *)
Definition BackupExecution_of (c : TemplateConfig) : option BackupExecution :=
  match tc_RetryPolicy c, tc_ResourceLimits c, tc_PreHookIDs c, tc_PostHookIDs c with
  | None, None, [], [] => None
  | r, l, pre, post => Some (mkExecution r l pre post)
  end.

Section Validate.
Context `{U : UuidPkg} `{P : Platform}.

Definition ValidateTemplate (c : TemplateConfig) : result TemplateError () :=
  let! _ := ValidateBackupPaths (tc_Paths c) (tc_ExcludePatterns c) in
  reject negb (is_ok (validateCron (tc_ScheduleCron c)))
    as mkTemplateError "schedule_cron" "INVALID" ;;
  reject negb (is_ok (validateTimezone (tc_ScheduleTimezone c)))
    as mkTemplateError "schedule_timezone" "INVALID" ;;
  reject out_of_range 0 3600 (tc_JitterSeconds c)
    as mkTemplateError "jitter_seconds" "OUT_OF_RANGE" ;;
  reject out_of_range 0 86400 (tc_MisfireGraceSeconds c)
    as mkTemplateError "misfire_grace_seconds" "OUT_OF_RANGE" ;;
  reject duplicateUUID (tc_PreHookIDs c) || duplicateUUID (tc_PostHookIDs c)
    as mkTemplateError "hook_ids" "DUPLICATE" ;;
  reject match tc_RetentionPolicyID c with Some id => id == uuid_Nil | None => false end
    as mkTemplateError "retention_policy_id" "INVALID" ;;
  ValidateExecution (BackupExecution_of c).
End Validate.

End Template.

(** ** Plan schedules and desired state (agentstate.go) *)

Record DesiredStateError := mkDesiredStateError { de_Code : string; de_FieldPath : string }.

Record RuntimePolicy := mkRuntimePolicy { MaxParallelIOJobs : Z; LogLimitBytes : Z }.

Record PlanSchedule := mkPlanSchedule {
  ps_PlanID : uuid;
  ps_Revision : Z;
  ps_Name : string;
  ps_HostID : uuid;
  ps_RepositoryID : uuid;
  ps_Cron : string;
  ps_Timezone : string;
  ps_JitterSeconds : Z;
  ps_MisfireGraceSeconds : Z;
  ps_ConcurrencyPolicy : string;
  ps_Paths : list string;
  ps_ExcludePatterns : list string;
  ps_ExcludeCaches : bool;
  ps_OneFileSystem : bool;
  ps_ConfigHash : string;
  ps_Execution : option BackupExecution }.

Record DesiredState := mkDesiredState {
  ds_AgentID : uuid;
  ds_Revision : Z;
  ds_GeneratedAt : time;
  ds_ConfigHash : string;
  ds_RuntimePolicy : RuntimePolicy;
  ds_Plans : list PlanSchedule }.

Module Desired.
Import Paths Cron.

Definition DefaultLogLimitBytes : Z := 10 * 2 ^ 20.

Section Desired.
Context `{U : UuidPkg} `{P : Platform}.
(** [json.Marshal] of the canonical document. *)
Context (marshal : list PlanSchedule → RuntimePolicy → string).

Definition plan_less (a b : PlanSchedule) : bool :=
  if ps_PlanID a != ps_PlanID b
  then string_less (UString (ps_PlanID a)) (UString (ps_PlanID b))
  else ps_Revision a <? ps_Revision b.

Definition CanonicalJSON (s : DesiredState) : string :=
  marshal (sort_Slice plan_less (ds_Plans s)) (ds_RuntimePolicy s).

Definition config_hash (s : DesiredState) : string :=
  "sha256:" +:+ hex_encode (Sum256 (CanonicalJSON s)).

Definition NewDefaultDesiredState (agentID : uuid) (revision : Z) (generatedAt : time) : DesiredState :=
  let state := mkDesiredState agentID revision generatedAt "" (mkRuntimePolicy 1 DefaultLogLimitBytes) [] in
  mkDesiredState agentID revision generatedAt (config_hash state) (ds_RuntimePolicy state) [].

(** [PlanSchedule.Validate]. *)
Definition ValidatePlan (p : PlanSchedule) : result DesiredStateError () :=
  reject negb (valid_v7 (ps_PlanID p)) as mkDesiredStateError "PLAN_ID_INVALID" "plans.plan_id" ;;
  reject ps_Revision p <? 1 as mkDesiredStateError "PLAN_REVISION_INVALID" "plans.revision" ;;
  reject (ps_Name p == "") || (128 <? slen (ps_Name p))
    as mkDesiredStateError "PLAN_NAME_INVALID" "plans.name" ;;
  reject negb (valid_v7 (ps_RepositoryID p))
    as mkDesiredStateError "PLAN_REPOSITORY_INVALID" "plans.repository_id" ;;
  reject match ps_Paths p with [] => true | _ => false end
    as mkDesiredStateError "PLAN_PATHS_REQUIRED" "plans.paths" ;;
  reject out_of_range 0 3600 (ps_JitterSeconds p)
    as mkDesiredStateError "PLAN_JITTER_INVALID" "plans.jitter_seconds" ;;
  reject out_of_range 0 86400 (ps_MisfireGraceSeconds p)
    as mkDesiredStateError "PLAN_MISFIRE_INVALID" "plans.misfire_grace_seconds" ;;
  reject (ps_ConcurrencyPolicy p != "") && (ps_ConcurrencyPolicy p != "FORBID") &&
         (ps_ConcurrencyPolicy p != "ALLOW")
    as mkDesiredStateError "PLAN_CONCURRENCY_INVALID" "plans.concurrency_policy" ;;
  reject negb (is_ok (validateCron (ps_Cron p)))
    as mkDesiredStateError "PLAN_CRON_INVALID" "plans.cron" ;;
  reject negb (is_ok (validateTimezone (ps_Timezone p)))
    as mkDesiredStateError "PLAN_TIMEZONE_INVALID" "plans.timezone" ;;
  let! _ := match ValidateBackupPaths (ps_Paths p) (ps_ExcludePatterns p) with
            | Err e => Err (mkDesiredStateError "PLAN_PATHS_INVALID" ("plans." +:+ te_Field e))
            | Ok _ => Ok ()
            end in
  reject negb (is_ok (ValidateExecution (ps_Execution p)))
    as mkDesiredStateError "PLAN_EXECUTION_INVALID" "plans.execution" ;;
  Ok ().

Fixpoint validate_plans (plans : list PlanSchedule) : result DesiredStateError () :=
  match plans with
  | [] => Ok ()
  | p :: ps => let! _ := ValidatePlan p in validate_plans ps
  end.

(** [DesiredState.Validate]. *)
Definition ValidateDesired (s : DesiredState) : result DesiredStateError () :=
  reject ds_AgentID s == uuid_Nil as mkDesiredStateError "AGENT_ID_INVALID" "agent_id" ;;
  reject ds_Revision s <? 1 as mkDesiredStateError "REVISION_INVALID" "revision" ;;
  reject IsZero (ds_GeneratedAt s) as mkDesiredStateError "GENERATED_AT_INVALID" "generated_at" ;;
  reject out_of_range 1 16 (MaxParallelIOJobs (ds_RuntimePolicy s))
    as mkDesiredStateError "MAX_PARALLEL_IO_JOBS_INVALID" "runtime_policy.max_parallel_io_jobs" ;;
  reject out_of_range (64 * 2 ^ 10) DefaultLogLimitBytes (LogLimitBytes (ds_RuntimePolicy s))
    as mkDesiredStateError "LOG_LIMIT_BYTES_INVALID" "runtime_policy.log_limit_bytes" ;;
  let! _ := validate_plans (ds_Plans s) in
  reject ds_ConfigHash s != config_hash s as mkDesiredStateError "CONFIG_HASH_MISMATCH" "config_hash" ;;
  Ok ().

#[export] Instance plan_less_order `{!UuidLaws} : SliceOrder plan_less.
Proof.
  split; unfold plan_less.
  - intros a b. repeat case_bool_decide; simplify_eq/=; try congruence.
    + destruct (Z.ltb_spec (ps_Revision a) (ps_Revision b)),
        (Z.ltb_spec (ps_Revision b) (ps_Revision a)); auto; lia.
    + apply string_less_total.
  - intros a b c. generalize (ps_PlanID a) as ia, (ps_PlanID b) as ib, (ps_PlanID c) as ic.
    intros ia ib ic.
    destruct (decide (ia = ib)) as [->|Hab], (decide (ib = ic)) as [->|Hbc];
      rewrite ?(bool_decide_eq_true_2 (ic = ic)), ?(bool_decide_eq_true_2 (ib = ib)),
        ?(bool_decide_eq_false_2 (ib = ia)), ?(bool_decide_eq_false_2 (ic = ib)),
        ?(bool_decide_eq_false_2 (ic = ia)) by congruence; simpl; rewrite ?Z.ltb_ge; try (done || lia).
    intros Hba Hcb. case_bool_decide as Hca; subst; simpl.
    + destruct Hab. apply UString_inj. by apply string_less_antisym.
    + by eapply string_less_false_trans.
Qed.

Lemma plan_less_separates `{!UuidLaws} l :
  NoDup ((λ p, (ps_PlanID p, ps_Revision p)) <$> l) → separates plan_less l.
Proof.
  intros Hnd x y Hx Hy. unfold plan_less.
  assert (ps_PlanID x = ps_PlanID y → ps_Revision x = ps_Revision y → x = y) as Hinj.
  { intros E1 E2. apply (NoDup_fmap_key _ _ x y Hnd Hx Hy). cbn. congruence. }
  repeat case_bool_decide; simpl; rewrite ?Z.ltb_ge; try congruence.
  - intros. apply Hinj; [done|lia].
  - intros ??. exfalso. match goal with Hn : _ ≠ _ |- _ => apply Hn end.
    apply UString_inj. by apply string_less_antisym.
Qed.

Lemma validate_plans_ok plans : validate_plans plans = Ok () → Forall (λ p, ValidatePlan p = Ok ()) plans.
Proof.
  induction plans as [|p ps IH]; [constructor|]. cbn [validate_plans]. intros Hv. ok_inv Hv.
  match goal with H : ValidatePlan p = Ok ?x |- _ => destruct x end. by constructor; auto.
Qed.

(** The configuration hash does not depend on the order of the plans. Two
    desired states with the same runtime policy and the same plans in whatever
    order have the same canonical document and the same hash. *)
Theorem config_hash_order_free `{!UuidLaws} (s s' : DesiredState) :
  NoDup ((λ p, (ps_PlanID p, ps_Revision p)) <$> ds_Plans s) → ds_Plans s ≡ₚ ds_Plans s' →
  ds_RuntimePolicy s = ds_RuntimePolicy s' →
  CanonicalJSON s = CanonicalJSON s' ∧ config_hash s = config_hash s'.
Proof.
  intros Hnd Hp Hr. assert (Hc : CanonicalJSON s = CanonicalJSON s').
  { unfold CanonicalJSON. rewrite Hr. f_equal. apply (sort_Slice_unique plan_less); [|done]. by apply plan_less_separates. }
  split; [done|]. unfold config_hash. by rewrite Hc.
Qed.
End Desired.
End Desired.

Definition example_schedule (n : N) : PlanSchedule :=
  mkPlanSchedule (v7 n) 1 "nightly" (v7 70) (v7 71) "0 3 * * *" "UTC" 0 3600 "FORBID" ["/srv"] [] false false "" None.
Definition example_desired (plans : list PlanSchedule) : DesiredState :=
  mkDesiredState (v7 60) 1 second "" (mkRuntimePolicy 1 65536) plans.
Definition example_marshal (plans : list PlanSchedule) (r : RuntimePolicy) : string :=
  String.concat "," ((λ p, UString (ps_PlanID p)) <$> plans).

Lemma config_hash_order_free_witness :
  Desired.config_hash example_marshal (example_desired [example_schedule 1; example_schedule 2]) =
  Desired.config_hash example_marshal (example_desired [example_schedule 2; example_schedule 1]).
Proof.
  refine (proj2 (Desired.config_hash_order_free example_marshal (example_desired [example_schedule 1; example_schedule 2])
    (example_desired [example_schedule 2; example_schedule 1]) _ _ _)).
  - apply (bool_decide_unpack _). vm_compute. done.
  - apply perm_swap.
  - reflexivity.
Defined.
