(* ===== verification/Schedule.v ===== *)
(** * Schedule: internal/agent/schedule, deterministic run times of one plan

    Cron masks, the search for the next scheduled minute, stable jitter, the
    misfire decision and the deterministic operation identity. *)

From S2P Require Import Prelude GoStd Uuid Platform Domain Plan.
Open Scope Z_scope.
Open Scope go_scope.

(** ** Parsing cron fields into bit masks *)

(** [for value := low; value <= high; value += step { mask |= 1 << uint(value-min) }]
    on 64-bit [int]s.  [None] when [fuel] iterations are not enough. *)
Fixpoint mask_loop (fuel : nat) (value high step min mask : Z) : option Z :=
  match fuel with
  | O => None
  | S k =>
      if value <=? high
      then mask_loop k (add64 value step) high step min
             (Z.lor mask (shl1_u64 (to_uint64 (wrap64 (value - min)))))
      else Some mask
  end.

(** More iterations than any field can need ([mask_loop_terminates]). *)
Definition mask_fuel : nat := 200.

(** Bounds and step denoted by one list item. *)
Definition parse_item (item : string) (min max : Z) : result string (Z * Z * Z) :=
  reject item == "" as "schedule: empty list item" ;;
  let! (step, item) :=
    match Cut "/" item with
    | Some (base, rawStep) =>
        match Atoi rawStep with
        | Some parsed => if parsed <? 1 then Err "schedule: invalid step" else Ok (parsed, base)
        | None => Err "schedule: invalid step"
        end
    | None => Ok (1, item)
    end in
  if item == "*" then Ok (min, max, step)
  else
    match Cut "-" item with
    | Some (lo, hi) =>
        match Atoi lo with
        | None => Err "schedule: invalid range"
        | Some first =>
            match Atoi hi with
            | None => Err "schedule: range out of bounds"
            | Some last =>
                reject (first <? min) || (max <? last) || (last <? first)
                  as "schedule: range out of bounds" ;;
                Ok (first, last, step)
            end
        end
    | None =>
        match Atoi item with
        | Some value =>
            reject (value <? min) || (max <? value) as "schedule: value out of bounds" ;;
            Ok (value, value, step)
        | None => Err "schedule: value out of bounds"
        end
    end.

Fixpoint parse_items (items : list string) (min max mask : Z) : result string Z :=
  match items with
  | [] => Ok mask
  | item :: rest =>
      let! (low, high, step) := parse_item item min max in
      match mask_loop mask_fuel low high step min mask with
      | Some mask => parse_items rest min max mask
      | None => Err "out of fuel"
      end
  end.

(** The mask and whether the field is the bare wildcard. *)
Definition parseField (part : string) (min max : Z) : result string (Z * bool) :=
  let! mask := parse_items (Split "," part) min max 0 in
  Ok (mask, part == "*").

(** ** The scheduler *)

Record Spec := mkSpec {
  sp_Cron : string;
  sp_Timezone : string;
  sp_JitterSeconds : Z;
  sp_MisfireGraceSeconds : Z;
  sp_ConcurrencyPolicy : string }.

Record Scheduler := mkScheduler {
  sc_planID : uuid;
  sc_spec : Spec;
  sc_loc : location;
  sc_fields : list Z;
  sc_domRestricted : bool;
  sc_dowRestricted : bool }.

Fixpoint parse_fields (parts : list string) (bounds : list (Z * Z)) : result string (list (Z * bool)) :=
  match parts, bounds with
  | p :: ps, (min, max) :: bs =>
      let! f := parseField p min max in
      let! fs := parse_fields ps bs in
      Ok (f :: fs)
  | _, _ => Ok []
  end.

(** [bit(mask, value, offset)]. *)
Definition bit (mask value offset : Z) : bool :=
  if value <? offset then false
  else Z.land mask (shl1_u64 (to_uint64 (value - offset))) != 0.

Definition field (s : Scheduler) (i : nat) : Z := nth i (sc_fields s) 0.

Definition matches (s : Scheduler) (local : civil) : bool :=
  if negb (bit (field s 0) (c_minute local) 0) || negb (bit (field s 1) (c_hour local) 0) ||
     negb (bit (field s 3) (c_month local) 1)
  then false
  else
    let domMatch := bit (field s 2) (c_day local) 1 in
    let dowMatch := bit (field s 4) (c_weekday local) 0 in
    if sc_domRestricted s && sc_dowRestricted s then domMatch || dowMatch
    else domMatch && dowMatch.

Definition maxMinutesAhead : nat := Z.to_nat (366 * 24 * 60).

Fixpoint search (n : nat) (p : time → bool) (candidate : time) : option time :=
  match n with
  | O => None
  | S k => if p candidate then Some candidate else search k p (candidate + minute)
  end.

(** [NextScheduled]: the next matching minute strictly after [t]. *)
Definition NextScheduled (s : Scheduler) (t : time) : option time :=
  let start := Add (Truncate t minute) minute in
  search maxMinutesAhead (λ c, matches s (In_loc (sc_loc s) c)) start.

Inductive MisfireDecision := RunCompensation | ReportMissed.
#[export] Instance MisfireDecision_eq_dec : EqDecision MisfireDecision.
Proof. solve_decision. Defined.

Definition DecideMisfire (now scheduled : time) (graceSeconds : Z) : MisfireDecision :=
  if negb (After now scheduled) then RunCompensation
  else if Sub now scheduled <=? graceSeconds * second then RunCompensation
  else ReportMissed.

Definition ConcurrencySkip (policy : string) (running : bool) : bool :=
  EqualFold policy "FORBID" && running.

Section Scheduler.
Context `{U : UuidPkg} `{P : Platform}.

(** [New]: parse the specification once, reject invalid input. *)
Definition New (planID : uuid) (spec : Spec) : result string Scheduler :=
  match LoadLocation (sp_Timezone spec) with
  | None => Err "schedule: invalid timezone"
  | Some loc =>
      reject (sp_Timezone spec == "") || (sp_Timezone spec == "Local")
        as "schedule: invalid timezone" ;;
      let parts := Fields (sp_Cron spec) in
      reject negb (length parts =? length Cron.cronFields)%nat
        as "schedule: cron must have five fields" ;;
      let! fs := parse_fields parts Cron.cronFields in
      reject Execution.out_of_range 0 3600 (sp_JitterSeconds spec)
        as "schedule: jitter out of range" ;;
      reject Execution.out_of_range 0 86400 (sp_MisfireGraceSeconds spec)
        as "schedule: misfire grace out of range" ;;
      Ok (mkScheduler planID spec loc (fs.*1)
            (negb (nth 2 (fs.*2) false)) (negb (nth 4 (fs.*2) false)))
  end.

(** The name hashed for jitter and operation identity. *)
Definition slot_name (planID : uuid) (scheduled : time) : string :=
  UString planID +:+ "|" +:+ FormatRFC3339 scheduled.

Definition StableJitter (planID : uuid) (scheduled : time) (maxSeconds : Z) : duration :=
  if maxSeconds <=? 0 then 0
  else
    let value := BigEndian_Uint64 (Sum256 (slot_name planID scheduled)) in
    value mod (maxSeconds + 1) * second.

(** [NextRun]: the stable jitter on top of the scheduled minute. *)
Definition NextRun (s : Scheduler) (t : time) : option time :=
  match NextScheduled s t with
  | None => None
  | Some scheduled =>
      Some (Add scheduled (StableJitter (sc_planID s) scheduled (sp_JitterSeconds (sc_spec s))))
  end.

Definition OperationID (planID : uuid) (scheduled : time) : uuid :=
  NewSHA1_OID (slot_name planID scheduled).
End Scheduler.

(** ** Lemmas: the mask loop *)

Lemma shl1_bits n k : 0 ≤ n → 0 ≤ k → Z.testbit (shl1_u64 n) k = (n =? k) && (n <? 64).
Proof.
  intros Hn Hk. unfold shl1_u64. destruct (Z.ltb_spec n 64).
  - rewrite Z.shiftl_1_l, andb_true_r. destruct (Z.eqb_spec n k) as [->|].
    + by apply Z.pow2_bits_true.
    + by apply Z.pow2_bits_false.
  - by rewrite Z.testbit_0_l, andb_false_r.
Qed.

(** [value] is reached from [low] by steps of [step] without passing [high]. *)
Definition on_grid (low high step v : Z) : bool :=
  (low <=? v) && (v <=? high) && ((v - low) mod step =? 0).

Lemma on_grid_step low high step v :
  1 ≤ step → low ≤ high →
  on_grid low high step v = (v =? low) || on_grid (low + step) high step v.
Proof.
  intros Hs Hlh. unfold on_grid. destruct (Z.eqb_spec v low) as [->|Hne].
  - rewrite Z.sub_diag, Z.mod_0_l by lia.
    by rewrite (proj2 (Z.leb_le low low)), (proj2 (Z.leb_le low high)) by lia.
  - cbn [orb]. replace (v - low) with ((v - (low + step)) + 1 * step) by lia.
    rewrite Z_mod_plus_full.
    destruct (Z.leb_spec low v), (Z.leb_spec (low + step) v); cbn [andb]; try done; try lia.
    destruct (v <=? high); cbn [andb]; [|done]. apply Z.eqb_neq.
    replace (v - (low + step)) with ((v - low) + (-1) * step) by lia.
    rewrite Z_mod_plus_full, Z.mod_small; lia.
Qed.

Lemma mask_bit_small value min k :
  0 ≤ min ≤ value → value - min < 64 → 0 ≤ k →
  Z.testbit (shl1_u64 (to_uint64 (wrap64 (value - min)))) k = (k + min =? value).
Proof.
  intros Hv Hw Hk.
  rewrite wrap64_id by (unfold in_int64, min_int64, max_int64; lia).
  unfold to_uint64. rewrite Z.mod_small, shl1_bits by lia.
  destruct (Z.eqb_spec (value - min) k), (Z.eqb_spec (k + min) value), (Z.ltb_spec (value - min) 64);
    done || lia.
Qed.

Lemma mask_loop_spec fuel value high step min mask m :
  1 ≤ step → 0 ≤ min ≤ value → high - min < 64 → 0 ≤ high → high + step ≤ max_int64 →
  mask_loop fuel value high step min mask = Some m →
  ∀ k, 0 ≤ k → Z.testbit m k = Z.testbit mask k || on_grid value high step (k + min).
Proof.
  revert value mask; induction fuel as [|fuel IH]; intros value mask Hs Hmv Hw Hh Hov Hm k Hk;
    cbn [mask_loop] in Hm; [done|].
  destruct (Z.leb_spec value high) as [Hle|Hgt].
  - unfold add64 in Hm.
    rewrite (wrap64_id (value + step)) in Hm
      by (unfold in_int64, min_int64, max_int64 in *; lia).
    apply (IH _ _ Hs) with (k := k) in Hm; [|lia..]. rewrite Hm.
    rewrite Z.lor_spec, mask_bit_small, (on_grid_step value) by lia.
    by rewrite orb_assoc.
  - simplify_eq. unfold on_grid. destruct (Z.leb_spec value (k + min)); cbn [andb]; [|by rewrite orb_false_r].
    rewrite (proj2 (Z.leb_gt _ _)) by lia. by rewrite orb_false_r.
Qed.

Lemma mask_loop_small fuel value high step min mask :
  1 ≤ step → 0 ≤ value → high + step ≤ max_int64 → high - value < Z.of_nat fuel - 1 → (0 < fuel)%nat →
  is_Some (mask_loop fuel value high step min mask).
Proof.
  revert value mask; induction fuel as [|fuel IH]; intros value mask Hs Hv Hov Hf Hpos; [lia|].
  cbn [mask_loop]. destruct (Z.leb_spec value high) as [Hle|Hgt]; [|by eexists].
  unfold add64. rewrite wrap64_id by (unfold in_int64, min_int64, max_int64 in *; lia).
  apply IH; lia.
Qed.

(** A step so large that [value += step] overflows: two steps wrap around and
    lower [value] by [2 * (2^63 - step)], so the loop still ends. *)
Lemma mask_loop_wrap fuel value high step min mask :
  0 ≤ value ≤ high → high ≤ 59 → max_int64 - 59 < step ≤ max_int64 → value + 3 < Z.of_nat fuel →
  is_Some (mask_loop fuel value high step min mask).
Proof.
  revert value mask. induction fuel as [fuel IH] using lt_wf_ind.
  intros value mask Hv Hh Hs Hf. unfold max_int64 in *.
  destruct fuel as [|[|[|fuel]]]; [lia..|].
  set (f := S (S fuel)). cbn [mask_loop]. rewrite (proj2 (Z.leb_le value high)) by lia. subst f.
  unfold add64. set (mask' := Z.lor mask _). clearbody mask'.
  destruct (Z.le_gt_cases (value + step) (2 ^ 63 - 1)) as [Hno|Hover].
  { rewrite wrap64_id by (unfold in_int64, min_int64, max_int64; lia).
    cbn [mask_loop]. rewrite (proj2 (Z.leb_gt _ _)) by lia. by eexists. }
  rewrite wrap64_over by lia. set (f := S fuel). cbn [mask_loop].
  rewrite (proj2 (Z.leb_le _ high)) by lia. subst f.
  set (mask'' := Z.lor mask' _). clearbody mask''. unfold add64.
  rewrite wrap64_id by (unfold in_int64, min_int64, max_int64; lia).
  destruct (Z.le_gt_cases 0 (value + step - 2 ^ 64 + step)) as [Hpos|Hneg].
  { apply IH; lia. }
  destruct fuel as [|fuel]; [lia|]. set (f := S fuel). cbn [mask_loop].
  rewrite (proj2 (Z.leb_le _ high)) by lia. subst f.
  set (mask3 := Z.lor mask'' _). clearbody mask3. unfold add64.
  rewrite wrap64_id by (unfold in_int64, min_int64, max_int64; lia).
  cbn [mask_loop]. rewrite (proj2 (Z.leb_gt _ _)) by lia. by eexists.
Qed.

Lemma mask_loop_terminates low high step min mask :
  0 ≤ low ≤ high → high ≤ 59 → 1 ≤ step ≤ max_int64 →
  is_Some (mask_loop mask_fuel low high step min mask).
Proof.
  intros Hl Hh Hs. destruct (Z.le_gt_cases (high + step) max_int64).
  - apply mask_loop_small; unfold mask_fuel; lia.
  - apply mask_loop_wrap; unfold mask_fuel; lia.
Qed.

(** ** Lemmas: parsing *)

Lemma Atoi_range s v : Atoi s = Some v → in_int64 v.
Proof.
  unfold Atoi. intros Ha.
  repeat match type of Ha with
  | context [match ?x with _ => _ end] => destruct x eqn:?; try discriminate Ha
  end; simplify_eq; bool_prop; split; done.
Qed.

Lemma parse_item_bounds item min max low high step :
  min ≤ max → parse_item item min max = Ok (low, high, step) →
  min ≤ low ∧ low ≤ high ∧ high ≤ max ∧ 1 ≤ step ≤ max_int64.
Proof.
  unfold parse_item. intros Hmm Hp. ok_inv Hp.
  assert (Hstep : ∀ st it, a = (st, it) → 1 ≤ st ≤ max_int64).
  { intros st it ->. destruct (Cut "/" item) as [[base raw]|].
    - destruct (Atoi raw) as [n|] eqn:Ha; [|done].
      apply Atoi_range in Ha as [_ ?]. destruct (Z.ltb_spec n 1); simplify_eq; lia.
    - simplify_eq. unfold max_int64. lia. }
  destruct a as [st it]. specialize (Hstep st it eq_refl).
  case_bool_decide; [simplify_eq; lia|].
  destruct (Cut "-" it) as [[lo hi]|].
  - destruct (Atoi lo); [|done]. destruct (Atoi hi); [|done]. ok_inv Hp. bool_prop. simplify_eq. lia.
  - destruct (Atoi it); [|done]. ok_inv Hp. bool_prop. simplify_eq. lia.
Qed.

(** Whatever the control plane validates, the Agent's parser accepts. *)
Lemma validate_part_parse part min max :
  Cron.validate_part part min max = Ok () → is_ok (parse_item part min max) = true.
Proof.
  unfold Cron.validate_part, parse_item. intros Hv. ok_inv Hv. cbn [reject_if].
  destruct (Cut "/" part) as [[base raw]|].
  1: destruct (Atoi raw) as [n|]; [|done]; destruct (n <? 1); [done|].
  all: simplify_eq; cbn [rbind]; case_bool_decide; [done|].
  all: match goal with |- context [Cut "-" ?b] => destruct (Cut "-" b) as [[lo hi]|] end.
  all: repeat match type of Hv with
    | match ?x with _ => _ end = _ => destruct x; [|done]
    end; ok_inv Hv.
  all: repeat match goal with H : ?b = false |- context [reject_if ?b _ _] => rewrite H end; done.
Qed.

Lemma parse_items_ok items min max mask :
  0 ≤ min ≤ max → max ≤ 59 → Forall (λ i, is_ok (parse_item i min max) = true) items →
  is_ok (parse_items items min max mask) = true.
Proof.
  intros Hm Hx. revert mask; induction items as [|i items IH]; intros mask Hf; [done|].
  apply Forall_cons in Hf as [Hi Hf]. cbn [parse_items].
  destruct (parse_item i min max) as [[[low high] step]|] eqn:E; [|done].
  apply parse_item_bounds in E; [|lia]. cbn [rbind].
  destruct (mask_loop_terminates low high step min mask) as [m ->]; [lia..|]. by apply IH.
Qed.

Lemma validate_parts_Forall parts min max :
  Cron.validate_parts parts min max = Ok () → Forall (λ p, Cron.validate_part p min max = Ok ()) parts.
Proof.
  induction parts as [|p ps IH]; [constructor|]. cbn [Cron.validate_parts]. intros Hv. ok_inv Hv.
  match goal with H : Cron.validate_part p _ _ = Ok ?x |- _ => destruct x end. by constructor; auto.
Qed.

Lemma validateCronField_parseField part min max :
  0 ≤ min ≤ max → max ≤ 59 → Cron.validateCronField part min max = Ok () →
  is_ok (parseField part min max) = true.
Proof.
  intros Hm Hx Hv. apply validate_parts_Forall in Hv. unfold parseField.
  assert (Hp : is_ok (parse_items (Split "," part) min max 0) = true).
  { apply parse_items_ok; [done..|]. eapply Forall_impl; [exact Hv|]. intros ?. apply validate_part_parse. }
  by destruct (parse_items (Split "," part) min max 0).
Qed.

Definition bounds_ok (b : Z * Z) : Prop := 0 ≤ b.1 ≤ b.2 ∧ b.2 ≤ 59.

Lemma validate_fields_parse_fields fields bounds :
  Forall bounds_ok bounds → Cron.validate_fields fields bounds = Ok () →
  is_ok (parse_fields fields bounds) = true.
Proof.
  revert bounds; induction fields as [|f fs IH]; intros [|[mn mx] bs] Hb Hv; try done.
  apply Forall_cons in Hb as [[Hb1 Hb2] Hb]. cbn [Cron.validate_fields parse_fields] in *. ok_inv Hv.
  match goal with H : Cron.validateCronField f _ _ = Ok ?x |- _ => destruct x;
    apply validateCronField_parseField in H; [|done..] end.
  destruct (parseField f mn mx); [|done]. cbn [rbind].
  apply IH in Hv; [|done]. by destruct (parse_fields fs bs).
Qed.

Lemma cronFields_ok : Forall bounds_ok Cron.cronFields.
Proof. repeat constructor; cbn; lia. Qed.

Lemma New_validated `{U : UuidPkg} `{P : Platform} (planID : uuid) (spec : Spec) :
  Cron.validateCron (sp_Cron spec) = Ok () →
  Cron.validateTimezone (sp_Timezone spec) = Ok () →
  0 ≤ sp_JitterSeconds spec ≤ 3600 → 0 ≤ sp_MisfireGraceSeconds spec ≤ 86400 →
  is_ok (New planID spec) = true.
Proof.
  intros Hc Hz Hj Hg. unfold Cron.validateTimezone, New in *. ok_inv Hz.
  destruct (LoadLocation (sp_Timezone spec)) as [loc|]; [|done].
  cbn [reject_if]. unfold Cron.validateCron in Hc. ok_inv Hc. cbn [reject_if].
  apply validate_fields_parse_fields in Hc; [|apply cronFields_ok].
  destruct (parse_fields _ _) as [fs|]; [|done]. cbn [rbind]. unfold Execution.out_of_range.
  rewrite !(proj2 (Z.ltb_ge _ _)) by lia. done.
Qed.

(** C39: every plan whose cron expression, time zone, jitter and misfire grace
    pass the control-plane validation is accepted by the Agent's scheduler: the
    two independently written cron parsers agree on acceptance, and the mask
    loop ends on every input they let through. *)
Theorem validated_plan_schedulable `{U : UuidPkg} `{P : Platform} (planID : uuid) (spec : Spec) :
  Cron.validateCron (sp_Cron spec) = Ok () →
  Cron.validateTimezone (sp_Timezone spec) = Ok () →
  0 ≤ sp_JitterSeconds spec ≤ 3600 → 0 ≤ sp_MisfireGraceSeconds spec ≤ 86400 →
  is_ok (New planID spec) = true.
Proof. apply New_validated. Qed.

Definition example_spec : Spec := mkSpec "*/15 8-18/2 1,15 * 1-5" "Asia/Shanghai" 300 3600 "FORBID".

Lemma validated_plan_schedulable_witness :
  Cron.validateCron (sp_Cron example_spec) = Ok () ∧ is_ok (New (v7 1) example_spec) = true.
Proof.
  split; [vm_compute; reflexivity|].
  apply validated_plan_schedulable; [vm_compute; reflexivity..| |]; cbn; lia.
Defined.

(** *** What a mask denotes *)

(** The minutes (hours, days, ...) one list item selects. *)
Definition item_selects (item : string) (min max v : Z) : Prop :=
  ∃ low high step, parse_item item min max = Ok (low, high, step) ∧
    on_grid low high step v = true.

(** No item has a step so large that [value += step] overflows. *)
Definition no_step_overflow (part : string) (min max : Z) : Prop :=
  Forall (λ item, ∀ low high step, parse_item item min max = Ok (low, high, step) →
    high + step ≤ max_int64) (Split "," part).

Lemma parse_items_bits items min max mask m :
  0 ≤ min ≤ max → max ≤ 59 →
  Forall (λ item, ∀ low high step, parse_item item min max = Ok (low, high, step) →
    high + step ≤ max_int64) items →
  parse_items items min max mask = Ok m →
  ∀ k, 0 ≤ k → Z.testbit m k = true ↔
    Z.testbit mask k = true ∨ Exists (λ item, item_selects item min max (k + min)) items.
Proof.
  intros Hm Hx. revert mask; induction items as [|i items IH]; intros mask Hf Hp k Hk.
  { cbn in Hp. simplify_eq. rewrite Exists_nil. tauto. }
  apply Forall_cons in Hf as [Hi Hf]. cbn [parse_items] in Hp.
  destruct (parse_item i min max) as [[[low high] step]|] eqn:E; [|done]. cbn [rbind] in Hp.
  destruct (mask_loop mask_fuel low high step min mask) as [m'|] eqn:Em; [|done].
  pose proof (parse_item_bounds _ _ _ _ _ _ (proj2 Hm) E) as Hb.
  rewrite (IH _ Hf Hp k Hk), Exists_cons.
  rewrite (mask_loop_spec mask_fuel low high step min mask m') by (eauto || lia).
  rewrite orb_true_iff.
  assert (Hsel : item_selects i min max (k + min) ↔ on_grid low high step (k + min) = true).
  { unfold item_selects. split; [|by eauto]. intros (? & ? & ? & E' & ?). congruence. }
  rewrite Hsel. tauto.
Qed.

Lemma bit_testbit mask v offset :
  0 ≤ offset ≤ v → v - offset < 64 → bit mask v offset = Z.testbit mask (v - offset).
Proof.
  intros Hv Hw. unfold bit, to_uint64, shl1_u64. rewrite (proj2 (Z.ltb_ge _ _)) by lia.
  rewrite Z.mod_small, (proj2 (Z.ltb_lt _ _)) by lia. rewrite Z.shiftl_1_l.
  assert (Hl : Z.land mask (2 ^ (v - offset)) = (if Z.testbit mask (v - offset) then 2 ^ (v - offset) else 0)).
  { apply Z.bits_inj'. intros k Hk. rewrite Z.land_spec.
    destruct (Z.eq_dec k (v - offset)) as [->|].
    - rewrite Z.pow2_bits_true by lia.
      destruct (Z.testbit mask (v - offset)); [by rewrite Z.pow2_bits_true by lia|by rewrite Z.testbit_0_l].
    - rewrite Z.pow2_bits_false by lia. rewrite andb_false_r.
      destruct (Z.testbit mask (v - offset)); [by rewrite Z.pow2_bits_false by lia|by rewrite Z.testbit_0_l]. }
  rewrite Hl. destruct (Z.testbit mask (v - offset)).
  - assert (0 < 2 ^ (v - offset)) by (apply Z.pow_pos_nonneg; lia).
    by rewrite bool_decide_eq_false_2 by lia.
  - done.
Qed.

(** The bit mask the scheduler builds for a cron field selects exactly the
    values some list item of the field denotes, [low-high/step], [*/step] or a
    single value, provided no step is close enough to 2^63 to overflow. *)
Theorem parseField_denotes (part : string) (min max mask v : Z) (wild : bool) :
  0 ≤ min ≤ max → max ≤ 59 → no_step_overflow part min max →
  parseField part min max = Ok (mask, wild) → min ≤ v ≤ max →
  bit mask v min = true ↔ Exists (λ item, item_selects item min max v) (Split "," part).
Proof.
  intros Hm Hx Hno Hp Hv. unfold parseField in Hp. ok_inv Hp. simplify_eq.
  rewrite bit_testbit by lia.
  rewrite (parse_items_bits _ _ _ _ _ Hm Hx Hno Hr (v - min)) by lia.
  rewrite Z.testbit_0_l. replace (v - min + min) with v by lia. naive_solver.
Qed.

Lemma parseField_denotes_witness :
  bit 585 9 0 = true ↔ Exists (λ item, item_selects item 0 59 9) (Split "," "0-9/3").
Proof.
  refine (parseField_denotes "0-9/3" 0 59 585 9 false _ _ _ _ _); [lia|lia| |vm_compute; reflexivity|lia].
  repeat constructor. intros low high step Hi. vm_compute in Hi. simplify_eq. by vm_compute.
Defined.

(** C40: a step near 2^63 overflows [value += step]: the control plane accepts
    the minute field [5/9223372036854775807], which denotes minute 5 only, and
    the Agent's scheduler then also runs at minutes 1 and 3. *)
Theorem huge_step_selects_wrong_minutes :
  Cron.validateCron "5/9223372036854775807 * * * *" = Ok () ∧
  ∃ mask, parseField "5/9223372036854775807" 0 59 = Ok (mask, false) ∧
    (∀ v, 0 ≤ v ≤ 59 → bit mask v 0 = true ↔ v = 1 ∨ v = 3 ∨ v = 5) ∧
    (∀ v, item_selects "5/9223372036854775807" 0 59 v ↔ v = 5).
Proof.
  split; [vm_compute; reflexivity|]. exists 42. split; [vm_compute; reflexivity|]. split.
  - intros v Hv. rewrite bit_testbit by lia. rewrite Z.sub_0_r.
    assert (Hall : forallb (λ n, Bool.eqb (Z.testbit 42 n) ((n =? 1) || (n =? 3) || (n =? 5)))
      (seqZ 0 60) = true) by (vm_compute; reflexivity).
    rewrite forallb_Forall, Forall_forall in Hall.
    rewrite (Bool.eqb_prop _ _ (Hall v ltac:(apply elem_of_seqZ; lia))).
    destruct (Z.eqb_spec v 1), (Z.eqb_spec v 3), (Z.eqb_spec v 5); naive_solver lia.
  - intros v. unfold item_selects. split.
    + intros (low & high & step & Hp & Hg). vm_compute in Hp. simplify_eq.
      unfold on_grid in Hg. bool_prop. lia.
    + intros ->. exists 5, 5, 9223372036854775807. split; vm_compute; reflexivity.
Qed.

(** ** Lemmas: searching the next minute *)

Lemma search_spec n p c :
  match search n p c with
  | Some r => ∃ i, (i < n)%nat ∧ r = c + Z.of_nat i * minute ∧ p r = true ∧
                ∀ j, (j < i)%nat → p (c + Z.of_nat j * minute) = false
  | None => ∀ j, (j < n)%nat → p (c + Z.of_nat j * minute) = false
  end.
Proof.
  revert c; induction n as [|n IH]; intros c; cbn [search]; [lia|].
  destruct (p c) eqn:E.
  { exists 0%nat. replace (c + Z.of_nat 0 * minute) with c by lia. repeat split; [lia|done|lia]. }
  specialize (IH (c + minute)).
  assert (Hshift : ∀ j, c + Z.of_nat (S j) * minute = c + minute + Z.of_nat j * minute) by lia.
  destruct (search n p (c + minute)) as [r|].
  - destruct IH as (i & Hi & Hr & Hp & Hj). exists (S i). rewrite Hshift. repeat split; [lia|done..|].
    intros [|j] Hlt; [by replace (c + Z.of_nat 0 * minute) with c by lia|].
    rewrite Hshift. apply Hj. lia.
  - intros [|j] Hlt; [by replace (c + Z.of_nat 0 * minute) with c by lia|].
    rewrite Hshift. apply IH. lia.
Qed.

Lemma maxMinutesAhead_Z : Z.of_nat maxMinutesAhead = 527040.
Proof. unfold maxMinutesAhead. by rewrite Z2Nat.id by lia. Qed.

(** The minute boundaries after [t] are [start + j minutes]. *)
Lemma aligned_after t c :
  t < c → c mod minute = 0 →
  ∃ j : nat, c = Truncate t minute + minute + Z.of_nat j * minute.
Proof.
  intros Hlt Ha. unfold Truncate.
  assert (Hm : 0 < minute) by (unfold minute, second; lia).
  exists (Z.to_nat ((c / minute) - (t / minute) - 1)).
  pose proof (Z.div_mod c minute ltac:(lia)). pose proof (Z.div_mod t minute ltac:(lia)).
  pose proof (Z.mod_pos_bound t minute Hm).
  assert (t / minute < c / minute) by nia.
  rewrite Z2Nat.id by lia. nia.
Qed.

Lemma aligned_start t (j : nat) :
  t < Truncate t minute + minute + Z.of_nat j * minute ∧
  (Truncate t minute + minute + Z.of_nat j * minute) mod minute = 0.
Proof.
  unfold Truncate. assert (Hm : 0 < minute) by (unfold minute, second; lia).
  pose proof (Z.mod_pos_bound t minute Hm). split; [nia|].
  pose proof (Z.div_mod t minute ltac:(lia)).
  replace (t - t mod minute + minute + Z.of_nat j * minute)
    with ((t / minute + 1 + Z.of_nat j) * minute) by nia.
  apply Z.mod_mul. lia.
Qed.

(** A minute boundary after [t] at which the cron masks match local time. *)
Definition slot (s : Scheduler) (t c : time) : Prop :=
  t < c ∧ c mod minute = 0 ∧ matches s (In_loc (sc_loc s) c) = true.

(** End of the search window: 366 days of minutes from the start of [t]'s. *)
Definition horizon (t : time) : time := Truncate t minute + 527040 * minute.

Lemma NextScheduled_spec (s : Scheduler) (t : time) :
  match NextScheduled s t with
  | Some c => slot s t c ∧ c ≤ horizon t ∧ ∀ c', slot s t c' → c ≤ c'
  | None => ∀ c', slot s t c' → horizon t < c'
  end.
Proof.
  unfold NextScheduled, Add.
  pose proof (search_spec maxMinutesAhead (λ c, matches s (In_loc (sc_loc s) c))
    (Truncate t minute + minute)) as Hs.
  assert (Hm : 0 < minute) by (unfold minute, second; lia).
  pose proof maxMinutesAhead_Z as HM.
  destruct (search _ _ _) as [c|]; cbn beta in Hs.
  - destruct Hs as (i & Hi & -> & Hp & Hj). destruct (aligned_start t i). repeat split; [done..| |].
    + unfold horizon. nia.
    + intros c' (Hlt & Ha & Hmt). destruct (aligned_after t c' Hlt Ha) as [j ->].
      destruct (decide (j < i)%nat) as [Hji|]; [|nia]. by rewrite (Hj j Hji) in Hmt.
  - intros c' (Hlt & Ha & Hmt). destruct (aligned_after t c' Hlt Ha) as [j ->].
    destruct (decide (j < maxMinutesAhead)%nat) as [Hjn|]; [|unfold horizon; nia].
    by rewrite (Hs j Hjn) in Hmt.
Qed.

(** C38: [NextScheduled] returns the earliest minute strictly after [t] whose
    local time matches, and reports none exactly when no minute of the next
    366 days matches. *)
Theorem NextScheduled_earliest (s : Scheduler) (t : time) :
  match NextScheduled s t with
  | Some c => slot s t c ∧ c ≤ horizon t ∧ ∀ c', slot s t c' → c ≤ c'
  | None => ∀ c', slot s t c' → horizon t < c'
  end.
Proof. apply NextScheduled_spec. Qed.

Section RunTimes.
Context `{U : UuidPkg} `{P : Platform}.

Lemma be_from_nonneg n acc s : 0 ≤ acc → 0 ≤ be_from n acc s.
Proof.
  revert acc s; induction n as [|n IH]; intros acc [|c s] Ha; cbn [be_from]; try done. apply IH. lia.
Qed.

Lemma StableJitter_bounds id c m :
  0 ≤ StableJitter id c m ≤ Z.max 0 m * second.
Proof.
  unfold StableJitter. destruct (Z.leb_spec m 0); [unfold second; nia|].
  pose proof (Z.mod_pos_bound (BigEndian_Uint64 (Sum256 (slot_name id c))) (m + 1) ltac:(lia)).
  unfold second. nia.
Qed.

Lemma NextRun_after s t r : NextRun s t = Some r → t < r.
Proof.
  unfold NextRun. pose proof (NextScheduled_spec s t) as Hn.
  destruct (NextScheduled s t) as [c|]; [|done]. intros ?; simplify_eq.
  destruct Hn as ((? & _ & _) & _). unfold Add.
  pose proof (StableJitter_bounds (sc_planID s) c (sp_JitterSeconds (sc_spec s))). lia.
Qed.

Lemma New_fields planID spec s :
  New planID spec = Ok s →
  sc_planID s = planID ∧ sc_spec s = spec ∧ LoadLocation (sp_Timezone spec) = Some (sc_loc s) ∧
  0 ≤ sp_JitterSeconds spec ≤ 3600 ∧ 0 ≤ sp_MisfireGraceSeconds spec ≤ 86400.
Proof.
  unfold New, Execution.out_of_range. destruct (LoadLocation _); [|done].
  intros Hn. ok_inv Hn. bool_prop. simplify_eq. cbn. repeat split; lia || done.
Qed.

(** The run time of a plan is its next slot delayed by a jitter of whole
    seconds that depends only on plan and slot and never exceeds the
    configured bound; a run is never scheduled in the past. *)
Theorem NextRun_jitter_bounded (planID : uuid) (spec : Spec) (s : Scheduler) (t r : time) :
  New planID spec = Ok s → NextRun s t = Some r →
  ∃ c, NextScheduled s t = Some c ∧ r = c + StableJitter planID c (sp_JitterSeconds spec) ∧
    t < c ≤ r ∧ r ≤ c + sp_JitterSeconds spec * second ∧ (r - c) mod second = 0.
Proof.
  intros Hn Hr. destruct (New_fields _ _ _ Hn) as (<- & <- & _ & Hj & _).
  unfold NextRun in Hr. pose proof (NextScheduled_spec s t) as He.
  destruct (NextScheduled s t) as [c|]; [|done]. simplify_eq. exists c.
  destruct He as ((? & _ & _) & _). unfold Add.
  pose proof (StableJitter_bounds (sc_planID s) c (sp_JitterSeconds (sc_spec s))) as Hb.
  rewrite Z.max_r in Hb by lia. repeat split; [lia..|].
  match goal with |- (?a + ?b - ?a) mod _ = _ => replace (a + b - a) with b by lia end.
  unfold StableJitter. destruct (_ <=? 0); [done|]. apply Z.mod_mul. unfold second. lia.
Qed.

(** The misfire decision is the grace window, unaffected by the saturation of
    [Time.Sub]. *)
Lemma DecideMisfire_window now scheduled grace :
  0 ≤ grace ≤ 86400 →
  DecideMisfire now scheduled grace = RunCompensation ↔ now - scheduled ≤ grace * second.
Proof.
  intros Hg. unfold DecideMisfire, After, Sub, min_int64, max_int64, second.
  destruct (Z.ltb_spec scheduled now); cbn [negb]; [|split; [lia|done]].
  destruct (Z.leb_spec (Z.max (-2 ^ 63) (Z.min (2 ^ 63 - 1) (now - scheduled))) (grace * 1000000000));
    split; (done || lia).
Qed.
End RunTimes.

Definition example_scheduler : Scheduler :=
  match New (v7 1) example_spec with
  | Ok s => s
  | Err _ => mkScheduler 0 example_spec UTC [] false false
  end.
(** 2024-02-29T12:34:56Z. *)
Definition example_now : time := time_of_unix 1709210096.
Definition example_run : time :=
  match NextRun example_scheduler example_now with Some r => r | None => 0 end.

Lemma NextRun_jitter_bounded_witness :
  New (v7 1) example_spec = Ok example_scheduler ∧
  ∃ c, NextScheduled example_scheduler example_now = Some c ∧
    example_run = c + StableJitter (v7 1) c 300 ∧
    example_now < c ≤ example_run ∧ example_run ≤ c + 300 * second ∧ (example_run - c) mod second = 0.
Proof.
  split; [vm_compute; reflexivity|].
  apply (NextRun_jitter_bounded (v7 1) example_spec example_scheduler); vm_compute; reflexivity.
Defined.
