(* ===== verification/DomainLogs.v ===== *)
(** * DomainLogs: backup_log.go and backup_summary.go of internal/domain *)

From Stdlib Require Import SpecFloat.
From S2P Require Import Prelude GoStd Uuid.
Open Scope Z_scope.
Open Scope go_scope.

(** ** Log entries (backup_log.go) *)

Definition MaxBackupLogChunkBytes : Z := 32 * 2 ^ 10.

Record BackupLogEntry := mkLogEntry {
  le_Sequence : Z;
  le_ObservedAt : time;
  le_Section : string;
  le_Level : string;
  le_Code : string;
  le_FilesDone : Z;
  le_BytesDone : Z }.

Definition backup_error_codes : list string :=
  [""; "EXECUTOR_UNAVAILABLE"; "IDENTITY_UNAVAILABLE"; "CREDENTIAL_UNAVAILABLE"; "WORKDIR_UNAVAILABLE";
   "CONFIG_INVALID"; "CANCELED"; "GATEWAY_SESSION_FAILED"; "GATEWAY_CLEANUP_UNCONFIRMED"; "GATEWAY_BUSY";
   "INVALID_ENGINE_OUTPUT"; "PARTIAL_READ"; "GATEWAY_UNAVAILABLE"; "GATEWAY_RATE_LIMITED";
   "REPOSITORY_LOCKED"; "WRONG_REPOSITORY_PASSWORD"; "REPOSITORY_MISSING"; "BACKUP_FAILED";
   "UNKNOWN_EXIT_CODE"; "STATE_STORAGE_UNAVAILABLE"; "BACKUP_TIMED_OUT"; "PRE_HOOK_FAILED";
   "POST_HOOK_FAILED"; "CONFIG_SUPERSEDED"; "LOCAL_OPERATION_RECOVERED"; "MISFIRE_GRACE_EXCEEDED";
   "CONCURRENCY_SKIPPED"; "AGENT_REJECTED"].

Definition ValidBackupErrorCode (code : string) : bool := bool_decide (code ∈ backup_error_codes).

Definition log_event_codes : list string :=
  ["BACKUP_STARTED"; "BACKUP_PROGRESS"; "BACKUP_SUMMARY"; "BACKUP_SUCCEEDED";
   "BACKUP_SUCCEEDED_WITH_WARNINGS"; "HOOK_STARTED"; "HOOK_FINISHED"; "ENGINE_READ_ERROR";
   "LOG_TRUNCATED"].

(** [true] when [BackupLogEntry.Validate] returns nil. *)
Definition ValidateLogEntry (e : BackupLogEntry) : bool :=
  negb ((le_Sequence e =? 0) || (2 ^ 62 <? le_Sequence e) || IsZero (le_ObservedAt e) ||
        (le_FilesDone e <? 0) || (le_BytesDone e <? 0)) &&
  bool_decide (le_Section e ∈ ["backup"; "pre_hook"; "post_hook"; "agent"]) &&
  bool_decide (le_Level e ∈ ["INFO"; "WARN"; "ERROR"]) &&
  (bool_decide (le_Code e ∈ log_event_codes) ||
   (le_Code e != "") && ValidBackupErrorCode (le_Code e)).

(** ** Summaries (backup_summary.go) *)

Record BackupSummary := mkSummary {
  bs_FilesNew : Z;
  bs_FilesChanged : Z;
  bs_FilesUnmodified : Z;
  bs_DirsNew : Z;
  bs_DirsChanged : Z;
  bs_DirsUnmodified : Z;
  bs_DataAdded : Z;
  bs_DataAddedPacked : Z;
  bs_TotalFilesProcessed : Z;
  bs_TotalBytesProcessed : Z;
  bs_BackupStart : option time;
  bs_BackupEnd : option time;
  bs_TotalDuration : spec_float;
  bs_WarningCount : Z }.

#[export] Instance spec_float_eq_dec : EqDecision spec_float.
Proof. solve_decision. Defined.
#[export] Instance BackupSummary_eq_dec : EqDecision BackupSummary.
Proof. solve_decision. Defined.

Definition set_WarningCount (n : Z) (s : BackupSummary) : BackupSummary :=
  mkSummary (bs_FilesNew s) (bs_FilesChanged s) (bs_FilesUnmodified s) (bs_DirsNew s) (bs_DirsChanged s)
    (bs_DirsUnmodified s) (bs_DataAdded s) (bs_DataAddedPacked s) (bs_TotalFilesProcessed s)
    (bs_TotalBytesProcessed s) (bs_BackupStart s) (bs_BackupEnd s) (bs_TotalDuration s) n.

Definition is_nan (f : spec_float) : bool := match f with S754_nan => true | _ => false end.
Definition is_inf (f : spec_float) : bool := match f with S754_infinity _ => true | _ => false end.

(** [true] when [BackupSummary.Validate] returns nil. *)
Definition ValidateSummary (s : BackupSummary) : bool :=
  forallb (λ n, negb (n <? 0))
    [bs_FilesNew s; bs_FilesChanged s; bs_FilesUnmodified s; bs_DirsNew s; bs_DirsChanged s;
     bs_DirsUnmodified s; bs_DataAdded s; bs_DataAddedPacked s; bs_TotalFilesProcessed s;
     bs_TotalBytesProcessed s; bs_WarningCount s] &&
  negb (SFltb (bs_TotalDuration s) (S754_zero false) || is_nan (bs_TotalDuration s) ||
        is_inf (bs_TotalDuration s)) &&
  match bs_BackupStart s, bs_BackupEnd s with
  | Some start, Some stop => negb (Before stop start)
  | _, _ => true
  end.
