(* ===== verification/AgentStore.v ===== *)
(** * AgentStore: the Agent's durable state, internal/agent/operations.go and state.go

    bbolt buckets are finite maps; a stored JSON value is a [cell], which may
    fail to decode.  A read-write transaction runs on a copy that is committed
    only if its body succeeds and the storage accepts the commit; the list of
    [faults] says which commits the storage refuses. *)

From S2P Require Import Prelude GoStd Uuid Platform Domain Plan DomainLogs.
Open Scope Z_scope.
Open Scope go_scope.

(** ** Records *)

(** A JSON value in a bucket: it decodes, or it does not. *)
Inductive cell (A : Type) : Type :=
| Json (a : A)
| Corrupt.
Arguments Json {A} a.
Arguments Corrupt {A}.

Definition unmarshal {A} (c : cell A) : result string A :=
  match c with Json a => Ok a | Corrupt => Err "json" end.

(** What an executor reports back for one run (scheduler.go). *)
Record OperationOutcome := mkOutcome {
  oo_Status : string;
  oo_ExitCode : Z;
  oo_ErrorCode : string;
  oo_SnapshotID : string;
  oo_FilesDone : Z;
  oo_TotalFiles : Z;
  oo_BytesDone : Z;
  oo_TotalBytes : Z;
  oo_FilesNew : Z;
  oo_DataAdded : Z;
  oo_Summary : option BackupSummary }.

Record OperationRecord := mkOperationRecord {
  or_ID : uuid;
  or_PlanID : uuid;
  or_PlanRevision : Z;
  or_ConfigHash : string;
  or_ScheduledAt : time;
  or_StartedAt : time;
  or_FinishedAt : time;
  or_Status : string;
  or_ExitCode : Z;
  or_ErrorCode : string;
  or_SnapshotID : string;
  or_FilesDone : Z;
  or_TotalFiles : Z;
  or_BytesDone : Z;
  or_TotalBytes : Z;
  or_FilesNew : Z;
  or_DataAdded : Z;
  or_Uploaded : bool;
  or_LastReportedAt : time;
  or_ParentOperationID : uuid;
  or_RootOperationID : uuid;
  or_Attempt : Z;
  or_RetryAt : time;
  or_Deadline : time;
  or_Summary : option BackupSummary }.

#[export] Instance OperationRecord_eq_dec : EqDecision OperationRecord.
Proof. solve_decision. Defined.

(** The outcome of a run copied into its record. *)
Definition with_outcome (o : OperationOutcome) (finishedAt : time) (r : OperationRecord) : OperationRecord :=
  mkOperationRecord
    (or_ID r) (or_PlanID r) (or_PlanRevision r) (or_ConfigHash r) (or_ScheduledAt r)
    (or_StartedAt r) finishedAt (oo_Status o) (oo_ExitCode o) (oo_ErrorCode o) (oo_SnapshotID o)
    (oo_FilesDone o) (oo_TotalFiles o) (oo_BytesDone o) (oo_TotalBytes o) (oo_FilesNew o)
    (oo_DataAdded o) (or_Uploaded r) (or_LastReportedAt r) (or_ParentOperationID r)
    (or_RootOperationID r) (or_Attempt r) (or_RetryAt r) (or_Deadline r) (oo_Summary o).

(** Status, error code and end of a run. *)
Definition with_status (status code : string) (finishedAt : time) (r : OperationRecord) : OperationRecord :=
  mkOperationRecord
    (or_ID r) (or_PlanID r) (or_PlanRevision r) (or_ConfigHash r) (or_ScheduledAt r)
    (or_StartedAt r) finishedAt status (or_ExitCode r) code (or_SnapshotID r) (or_FilesDone r)
    (or_TotalFiles r) (or_BytesDone r) (or_TotalBytes r) (or_FilesNew r) (or_DataAdded r)
    (or_Uploaded r) (or_LastReportedAt r) (or_ParentOperationID r) (or_RootOperationID r)
    (or_Attempt r) (or_RetryAt r) (or_Deadline r) (or_Summary r).

(** [record.Uploaded = b]. *)
Definition with_uploaded (b : bool) (r : OperationRecord) : OperationRecord :=
  mkOperationRecord
    (or_ID r) (or_PlanID r) (or_PlanRevision r) (or_ConfigHash r) (or_ScheduledAt r)
    (or_StartedAt r) (or_FinishedAt r) (or_Status r) (or_ExitCode r) (or_ErrorCode r)
    (or_SnapshotID r) (or_FilesDone r) (or_TotalFiles r) (or_BytesDone r) (or_TotalBytes r)
    (or_FilesNew r) (or_DataAdded r) b (or_LastReportedAt r) (or_ParentOperationID r)
    (or_RootOperationID r) (or_Attempt r) (or_RetryAt r) (or_Deadline r) (or_Summary r).

(** [record.LastReportedAt = now]. *)
Definition with_reported (now : time) (r : OperationRecord) : OperationRecord :=
  mkOperationRecord
    (or_ID r) (or_PlanID r) (or_PlanRevision r) (or_ConfigHash r) (or_ScheduledAt r)
    (or_StartedAt r) (or_FinishedAt r) (or_Status r) (or_ExitCode r) (or_ErrorCode r)
    (or_SnapshotID r) (or_FilesDone r) (or_TotalFiles r) (or_BytesDone r) (or_TotalBytes r)
    (or_FilesNew r) (or_DataAdded r) (or_Uploaded r) now (or_ParentOperationID r)
    (or_RootOperationID r) (or_Attempt r) (or_RetryAt r) (or_Deadline r) (or_Summary r).

(** Progress counters; the snapshot identity only when known. *)
Definition with_progress (files totalFiles bytes totalBytes filesNew dataAdded : Z) (summary : option BackupSummary)
    (snapshotID : string) (r : OperationRecord) : OperationRecord :=
  mkOperationRecord
    (or_ID r) (or_PlanID r) (or_PlanRevision r) (or_ConfigHash r) (or_ScheduledAt r)
    (or_StartedAt r) (or_FinishedAt r) (or_Status r) (or_ExitCode r) (or_ErrorCode r)
    (if snapshotID != "" then snapshotID else or_SnapshotID r) files totalFiles bytes totalBytes
    filesNew dataAdded (or_Uploaded r) (or_LastReportedAt r) (or_ParentOperationID r)
    (or_RootOperationID r) (or_Attempt r) (or_RetryAt r) (or_Deadline r) summary.

Definition terminal_statuses : list string :=
  ["SUCCEEDED"; "SUCCEEDED_WITH_WARNINGS"; "FAILED"; "CANCELED"; "LOST"; "MISSED";
   "CONCURRENCY_SKIPPED"].

(** [OperationRecord.Terminal]. *)
Definition Terminal (r : OperationRecord) : bool := bool_decide (or_Status r ∈ terminal_statuses).

Definition running_status (r : OperationRecord) : bool := or_Status r == "RUNNING".

Lemma running_not_terminal r : running_status r = true → Terminal r = false.
Proof. unfold running_status, Terminal. intros ?. bool_prop. rewrite H. by vm_compute. Qed.

Record PlanRuntime := mkPlanRuntime {
  pr_PlanID : uuid;
  pr_PlanRevision : Z;
  pr_ConfigHash : string;
  pr_LastScheduledAt : time;
  pr_NextRunAt : time;
  pr_LastOperationID : uuid }.

(** The zero value a missing runtime decodes to. *)
Definition zero_runtime : PlanRuntime := mkPlanRuntime uuid_Nil 0 "" zero_time zero_time uuid_Nil.

Record PendingConfigResult := mkConfigResult {
  cr_Revision : Z;
  cr_ConfigHash : string;
  cr_Accepted : bool;
  cr_ErrorCode : string;
  cr_FieldPath : string }.

(** Per-operation log metadata and entries (logs.go). *)
Record localLogState := mkLogState {
  ll_Next : Z;
  ll_Ack : Z;
  ll_Bytes : Z;
  ll_Limit : Z;
  ll_Truncated : bool;
  ll_Critical : gset string;
  ll_SentThrough : Z;
  ll_LastSentAt : time }.

Record LogBucket := mkLogBucket {
  lb_meta : option (cell localLogState);
  lb_entries : gmap N string }.

(** ** The database and the process state *)

Record db := mkDb {
  db_operations : gmap uuid (cell OperationRecord);
  db_runtimes : gmap uuid (cell PlanRuntime);
  db_active : option (cell DesiredState);
  db_staging : option (cell DesiredState);
  db_outbound : option (cell PendingConfigResult);
  db_logs : gmap uuid LogBucket }.

Definition set_operations (m : gmap uuid (cell OperationRecord)) (d : db) : db :=
  mkDb m (db_runtimes d) (db_active d) (db_staging d) (db_outbound d) (db_logs d).
Definition set_runtimes (m : gmap uuid (cell PlanRuntime)) (d : db) : db :=
  mkDb (db_operations d) m (db_active d) (db_staging d) (db_outbound d) (db_logs d).
Definition set_active (x : option (cell DesiredState)) (d : db) : db :=
  mkDb (db_operations d) (db_runtimes d) x (db_staging d) (db_outbound d) (db_logs d).
Definition set_staging (x : option (cell DesiredState)) (d : db) : db :=
  mkDb (db_operations d) (db_runtimes d) (db_active d) x (db_outbound d) (db_logs d).
Definition set_outbound (x : option (cell PendingConfigResult)) (d : db) : db :=
  mkDb (db_operations d) (db_runtimes d) (db_active d) (db_staging d) x (db_logs d).
Definition set_logs (m : gmap uuid LogBucket) (d : db) : db :=
  mkDb (db_operations d) (db_runtimes d) (db_active d) (db_staging d) (db_outbound d) m.

(** Where a worker goroutine of [executeOperation] stands: before the
    BACKUP_STARTED entry is logged, running the engine, past a failed attempt to
    log it, or waiting for the retry timer of the next attempt. *)
Inductive worker_phase := Starting | Executing | Unlogged | Waiting.
#[export] Instance worker_phase_eq_dec : EqDecision worker_phase.
Proof. solve_decision. Defined.

(** [w_registered]: the run contexts the goroutine ends when it returns. *)
Record Worker := mkWorker {
  w_phase : worker_phase;
  w_plan : PlanSchedule;
  w_record : OperationRecord;
  w_deadline : time;
  w_registered : list uuid }.

(** [State]: the database, the storage's refusals to come, registered run
    contexts ([true] once canceled), early cancel markers, the scheduler's
    clock, the worker goroutines, and the identities ever handed to the
    executor in this process (a history variable). *)
Record State := mkState {
  st_db : db;
  st_faults : list bool;
  st_running : gmap uuid bool;
  st_canceled : gset uuid;
  st_tickAt : time;
  st_interval : duration;
  st_workers : gmap uuid Worker;
  st_started : list uuid }.

Definition set_db (d : db) (s : State) : State :=
  mkState d (st_faults s) (st_running s) (st_canceled s) (st_tickAt s) (st_interval s) (st_workers s) (st_started s).
Definition set_faults (f : list bool) (s : State) : State :=
  mkState (st_db s) f (st_running s) (st_canceled s) (st_tickAt s) (st_interval s) (st_workers s) (st_started s).
Definition set_running (m : gmap uuid bool) (s : State) : State :=
  mkState (st_db s) (st_faults s) m (st_canceled s) (st_tickAt s) (st_interval s) (st_workers s) (st_started s).
Definition set_canceled (c : gset uuid) (s : State) : State :=
  mkState (st_db s) (st_faults s) (st_running s) c (st_tickAt s) (st_interval s) (st_workers s) (st_started s).
Definition set_tickAt (t : time) (s : State) : State :=
  mkState (st_db s) (st_faults s) (st_running s) (st_canceled s) t (st_interval s) (st_workers s) (st_started s).
Definition set_workers (w : gmap uuid Worker) (s : State) : State :=
  mkState (st_db s) (st_faults s) (st_running s) (st_canceled s) (st_tickAt s) (st_interval s) w (st_started s).
Definition set_started (l : list uuid) (s : State) : State :=
  mkState (st_db s) (st_faults s) (st_running s) (st_canceled s) (st_tickAt s) (st_interval s) (st_workers s) l.

(** ** A state and error monad *)

Definition M (A : Type) : Type := State → result string A * State.
Definition ret {A} (a : A) : M A := λ s, (Ok a, s).
Definition fail {A} (e : string) : M A := λ s, (Err e, s).
Definition bind {A B} (m : M A) (k : A → M B) : M B := λ s,
  match m s with
  | (Ok a, s') => k a s'
  | (Err e, s') => (Err e, s')
  end.
(** The outcome of [m] as a value: [if err := m; err != nil { ... }]. *)
Definition attempt {A} (m : M A) : M (result string A) := λ s, let '(r, s') := m s in (Ok r, s').
Definition get : M State := λ s, (Ok s, s).
Definition modify (f : State → State) : M () := λ s, (Ok (), f s).

Declare Scope agent_scope.
Delimit Scope agent_scope with agent.
Notation "'let*' x := m 'in' k" := (bind m (λ x, k))
  (at level 10, x pattern, m at level 100, k at level 200) : agent_scope.
Open Scope agent_scope.

(** [s.db.View]: read-only. *)
Definition View {A} (f : db → result string A) : M A := λ s, (f (st_db s), s).

(** [s.db.Update]: all or nothing. *)
Definition Update {A} (f : db → result string (A * db)) : M A := λ s,
  match f (st_db s) with
  | Err e => (Err e, s)
  | Ok (a, d) =>
      match st_faults s with
      | true :: fs => (Err "storage", set_faults fs s)
      | false :: fs => (Ok a, set_db d (set_faults fs s))
      | [] => (Ok a, set_db d s)
      end
  end.

(** [bucket.ForEach]: the entries in key order. *)
Definition key_less {V} (a b : uuid * V) : bool := (a.1 <? b.1)%N.
Definition ForEach {V} (m : gmap uuid V) : list (uuid * V) := sort_Slice key_less (map_to_list m).

(** Decode every entry in order, stop at the first that does not decode, keep
    those [keep] selects. *)
Fixpoint collect {A} (keep : A → bool) (l : list (uuid * cell A)) : result string (list A) :=
  match l with
  | [] => Ok []
  | (_, c) :: rest =>
      let! a := unmarshal c in
      let! items := collect keep rest in
      Ok (if keep a then a :: items else items)
  end.

(** ** Operations (operations.go) *)

Definition maxReportsPerBatch : nat := 32.
Definition resultRetryInterval : duration := 30 * second.

Definition put_operation (r : OperationRecord) (d : db) : db :=
  set_operations (<[or_ID r := Json r]> (db_operations d)) d.
Definition put_runtime (r : PlanRuntime) (d : db) : db :=
  set_runtimes (<[pr_PlanID r := Json r]> (db_runtimes d)) d.

Definition PutOperation (r : OperationRecord) : M () := Update (λ d, Ok ((), put_operation r d)).

Definition Operation (id : uuid) : M (option OperationRecord) :=
  View (λ d, match db_operations d !! id with
             | None => Ok None
             | Some c => let! r := unmarshal c in Ok (Some r)
             end).

(** [BeginOperation]: register a run context, canceled from the start when its
    parent is or when an early cancel marker waits for it. *)
Definition BeginOperation (parent_canceled : bool) (id : uuid) : M () :=
  modify (λ s, set_running (<[id := parent_canceled || bool_decide (id ∈ st_canceled s)]> (st_running s)) s).

(** The function [BeginOperation] returns, called when the run ends. *)
Definition endRun (id : uuid) : M () :=
  modify (λ s, set_canceled (st_canceled s ∖ {[id]}) (set_running (delete id (st_running s)) s)).

Definition CancelOperation (id : uuid) : M bool :=
  let* record := attempt (Operation id) in
  if match record with Ok (Some r) => Terminal r | _ => false end then ret false
  else
    let* s := get in
    match st_running s !! id with
    | Some _ =>
        let* _ := modify (λ s, set_running (<[id := true]> (st_running s)) s) in ret true
    | None =>
        if (size (st_canceled s) <? 256)%nat
        then let* _ := modify (λ s, set_canceled ({[id]} ∪ st_canceled s) s) in ret false
        else ret false
    end.

Definition ConsumeCancel (id : uuid) : M bool :=
  let* s := get in
  if bool_decide (id ∈ st_canceled s)
  then let* _ := modify (λ s, set_canceled (st_canceled s ∖ {[id]}) s) in ret true
  else ret false.

(** [updateOperation]: change selected fields of one record in a transaction. *)
Definition updateOperation (id : uuid) (update : OperationRecord → OperationRecord) : M () :=
  Update (λ d, match db_operations d !! id with
               | None => Ok ((), d)
               | Some c =>
                   let! r := unmarshal c in
                   Ok ((), set_operations (<[id := Json (update r)]> (db_operations d)) d)
               end).

Definition MarkOperationUploaded (id : uuid) : M () :=
  updateOperation id (λ r, if Terminal r then with_uploaded true r else r).

Definition markOperationReported (id : uuid) (now : time) : M () :=
  updateOperation id (with_reported now).

Definition RunningOperations : M (list OperationRecord) :=
  View (λ d, collect running_status (ForEach (db_operations d))).

Definition PlanRuntime_ (planID : uuid) : M (option PlanRuntime) :=
  View (λ d, match db_runtimes d !! planID with
             | None => Ok None
             | Some c => let! r := unmarshal c in Ok (Some r)
             end).

Definition PutPlanRuntime (r : PlanRuntime) : M () :=
  if pr_PlanID r == uuid_Nil then fail "plan runtime requires a plan id"
  else Update (λ d, Ok ((), put_runtime r d)).

(** The operation and its plan's advanced runtime, in one transaction. *)
Definition PutOperationWithRuntime (r : OperationRecord) (runtime : PlanRuntime) : M () :=
  if (pr_PlanID runtime == uuid_Nil) || (or_PlanID r != pr_PlanID runtime)
  then fail "operation and runtime plan mismatch"
  else Update (λ d, Ok ((), put_runtime runtime (put_operation r d))).

Section Reports.
Context `{U : UuidPkg}.

Definition next_run_less (a b : PlanRuntime) : bool :=
  if pr_NextRunAt a != pr_NextRunAt b then Before (pr_NextRunAt a) (pr_NextRunAt b)
  else string_less (UString (pr_PlanID a)) (UString (pr_PlanID b)).

Definition truncate_list {A} (limit : nat) (l : list A) : list A :=
  if (0 <? limit)%nat && (limit <? length l)%nat then take limit l else l.

Definition NextRuns (limit : nat) : M (list PlanRuntime) :=
  View (λ d,
    let! items := collect (λ r, negb (IsZero (pr_NextRunAt r))) (ForEach (db_runtimes d)) in
    Ok (truncate_list limit (sort_Slice next_run_less items))).

(** Results first, then the least recently reported, then by identity. *)
Definition report_less (a b : OperationRecord) : bool :=
  if Terminal a != Terminal b then Terminal a
  else if or_LastReportedAt a != or_LastReportedAt b then Before (or_LastReportedAt a) (or_LastReportedAt b)
  else string_less (UString (or_ID a)) (UString (or_ID b)).

(** A retry is not reported before its parent's result was confirmed. *)
Definition parent_pending (bucket : gmap uuid (cell OperationRecord)) (r : OperationRecord) : bool :=
  (or_ParentOperationID r != uuid_Nil) &&
  match bucket !! or_ParentOperationID r with
  | Some (Json previous) => negb (or_Uploaded previous)
  | Some Corrupt => true
  | None => false
  end.

Definition report_due (now : time) (progressInterval : duration) (r : OperationRecord) : bool :=
  Terminal r && negb (or_Uploaded r) &&
    ((progressInterval =? 0) || (resultRetryInterval <=? Sub now (or_LastReportedAt r)))
  || running_status r && (progressInterval <=? Sub now (or_LastReportedAt r)).

(** One iteration: append, sort and truncate the batch. *)
Definition report_step (bucket : gmap uuid (cell OperationRecord)) (now : time) (interval : duration)
    (items : list OperationRecord) (r : OperationRecord) : list OperationRecord :=
  if parent_pending bucket r then items
  else take maxReportsPerBatch
         (sort_Slice report_less (items ++ if report_due now interval r then [r] else [])).

Fixpoint report_scan (bucket : gmap uuid (cell OperationRecord)) (now : time) (interval : duration)
    (items : list OperationRecord) (l : list (uuid * cell OperationRecord)) :
    result string (list OperationRecord) :=
  match l with
  | [] => Ok items
  | (_, c) :: rest =>
      let! r := unmarshal c in
      report_scan bucket now interval (report_step bucket now interval items r) rest
  end.

Definition ReportableOperations (now : time) (interval : duration) : M (list OperationRecord) :=
  View (λ d, report_scan (db_operations d) now interval [] (ForEach (db_operations d))).

Definition PendingResultIDs (limit : nat) : M (list string) :=
  View (λ d,
    let! items := collect (λ r, Terminal r && negb (or_Uploaded r)) (ForEach (db_operations d)) in
    Ok (truncate_list limit (sort_Slice string_less ((λ r, UString (or_ID r)) <$> items)))).
End Reports.

(** A record closed by recovery after a restart. *)
Definition recovered (now : time) (r : OperationRecord) : OperationRecord :=
  with_uploaded false (with_status "LOST" "LOCAL_OPERATION_RECOVERED" now r).

(** The keys and closed records of the operations left running. *)
Fixpoint to_recover (now : time) (l : list (uuid * cell OperationRecord)) :
    result string (list (uuid * OperationRecord)) :=
  match l with
  | [] => Ok []
  | (key, c) :: rest =>
      let! r := unmarshal c in
      let! items := to_recover now rest in
      Ok (if running_status r then (key, recovered now r) :: items else items)
  end.

Definition RecoverRunningOperations (now : time) : M nat :=
  Update (λ d,
    let! items := to_recover now (ForEach (db_operations d)) in
    Ok (length items,
        set_operations (foldl (λ m kr, <[kr.1 := Json kr.2]> m) (db_operations d) items) d)).

(** ** Lemmas: buckets *)

#[export] Instance key_less_order {V} : SliceOrder (@key_less V).
Proof.
  split; unfold key_less.
  - intros [a ?] [b ?]; cbn. destruct (N.ltb_spec a b), (N.ltb_spec b a); auto; lia.
  - intros [a ?] [b ?] [c ?]; cbn. rewrite !N.ltb_ge. lia.
Qed.

Lemma ForEach_Permutation {V} (m : gmap uuid V) : ForEach m ≡ₚ map_to_list m.
Proof. apply sort_Slice_Permutation. Qed.

Lemma elem_of_ForEach {V} (m : gmap uuid V) k v : (k, v) ∈ ForEach m ↔ m !! k = Some v.
Proof. rewrite ForEach_Permutation. apply elem_of_map_to_list. Qed.

Lemma NoDup_ForEach {V} (m : gmap uuid V) : NoDup (ForEach m).*1.
Proof. rewrite ForEach_Permutation. apply NoDup_fst_map_to_list. Qed.

(** The decoded values of a bucket, in key order. *)
Definition decode_all {A} (l : list (uuid * cell A)) : list A :=
  omap (λ kc, match kc.2 with Json a => Some a | Corrupt => None end) l.
Definition records (m : gmap uuid (cell OperationRecord)) : list OperationRecord :=
  decode_all (ForEach m).

(** Every stored operation decodes and sits under its own identity. *)
Definition store_ok (m : gmap uuid (cell OperationRecord)) : Prop :=
  ∀ id c, m !! id = Some c → ∃ r, c = Json r ∧ or_ID r = id.

Definition all_json {A} (l : list (uuid * cell A)) : Prop := Forall (λ kc, kc.2 ≠ Corrupt) l.

Lemma store_ok_json m : store_ok m → all_json (ForEach m).
Proof.
  intros Hs. apply Forall_forall. intros [k c] Hin. apply elem_of_ForEach in Hin.
  by destruct (Hs k c Hin) as (r & -> & _).
Qed.

Lemma collect_ok {A} (keep : A → bool) l :
  all_json l → collect keep l = Ok (filter (λ a, keep a = true) (decode_all l)).
Proof.
  induction l as [|[k c] l IH]; intros Hj; [done|]. apply Forall_cons in Hj as [Hc Hj].
  cbn [collect]. destruct c as [a|]; [|done]. cbn [unmarshal rbind]. rewrite IH by done. cbn [rbind].
  change (decode_all ((k, Json a) :: l)) with (a :: decode_all l). rewrite filter_cons.
  destruct (keep a) eqn:Hk; case_decide; done || congruence.
Qed.

(** Where [collect] succeeds everything decoded. *)
Lemma collect_inv {A} (keep : A → bool) l items :
  collect keep l = Ok items → all_json l ∧ items = filter (λ a, keep a = true) (decode_all l).
Proof.
  intros Hc. assert (all_json l) as Hj.
  { revert items Hc. induction l as [|[k [a|]] l IH]; intros items Hc; [constructor| |done].
    cbn [collect unmarshal rbind] in Hc. ok_inv Hc. constructor; [done|]. by eapply IH. }
  split; [done|]. rewrite (collect_ok keep l Hj) in Hc. congruence.
Qed.

Lemma elem_of_records m r : r ∈ records m ↔ ∃ id, m !! id = Some (Json r).
Proof.
  unfold records, decode_all. rewrite list_elem_of_omap. split.
  - intros ([k c] & Hin%elem_of_ForEach & Heq). cbn in Heq. destruct c; simplify_eq. eauto.
  - intros [id Hid]. exists (id, Json r). by rewrite elem_of_ForEach.
Qed.

Lemma records_ids m : store_ok m → NoDup (or_ID <$> records m).
Proof.
  intros Hs. unfold records.
  assert (Hsub : ∀ l, (∀ k c, (k, c) ∈ l → m !! k = Some c) → or_ID <$> decode_all l = l.*1).
  { induction l as [|[k c] l IH]; intros Hl; [done|].
    destruct (Hs k c (Hl k c ltac:(set_solver))) as (r & -> & Hr). unfold decode_all in *. cbn.
    rewrite Hr. f_equal. apply IH. set_solver. }
  rewrite Hsub; [apply NoDup_ForEach|]. intros k c. apply elem_of_ForEach.
Qed.

(** ** Running operations as a set of identities *)

Definition cell_running (c : cell OperationRecord) : bool :=
  match c with Json r => running_status r | Corrupt => false end.

Definition running_ids (m : gmap uuid (cell OperationRecord)) : gset uuid :=
  dom (filter (λ kc, cell_running kc.2 = true) m).

Lemma elem_of_running_ids m id :
  id ∈ running_ids m ↔ ∃ r, m !! id = Some (Json r) ∧ running_status r = true.
Proof.
  unfold running_ids. rewrite elem_of_dom. unfold is_Some. setoid_rewrite map_lookup_filter_Some. cbn.
  split.
  - intros (c & Hl & Hr). destruct c; [eauto|done].
  - intros (r & Hl & Hr). by exists (Json r).
Qed.

Lemma running_ids_insert m id r :
  running_ids (<[id := Json r]> m) =
  (if running_status r then {[id]} ∪ running_ids m else running_ids m ∖ {[id]}).
Proof.
  apply set_eq. intros j. destruct (running_status r) eqn:Hr.
  - rewrite elem_of_union, elem_of_singleton, !elem_of_running_ids.
    destruct (decide (j = id)) as [->|]; [|by rewrite lookup_insert_ne by done; naive_solver].
    rewrite lookup_insert_eq. naive_solver.
  - rewrite elem_of_difference, elem_of_singleton, !elem_of_running_ids.
    destruct (decide (j = id)) as [->|]; [|by rewrite lookup_insert_ne by done; naive_solver].
    rewrite lookup_insert_eq. naive_solver congruence.
Qed.

Lemma RunningOperations_length s rs s' :
  store_ok (db_operations (st_db s)) → RunningOperations s = (Ok rs, s') →
  s' = s ∧ length rs = size (running_ids (db_operations (st_db s))) ∧
  ∀ r, r ∈ rs ↔ db_operations (st_db s) !! or_ID r = Some (Json r) ∧ running_status r = true.
Proof.
  unfold RunningOperations, View. intros Hs Hr.
  rewrite (collect_ok _ _ (store_ok_json _ Hs)) in Hr. simplify_eq. fold (records (db_operations (st_db s'))).
  set (m := db_operations (st_db s')) in *.
  assert (Hin : ∀ r, r ∈ filter (λ a, running_status a = true) (records m) ↔
    m !! or_ID r = Some (Json r) ∧ running_status r = true).
  { intros r. rewrite list_elem_of_filter, elem_of_records. split.
    - intros [Hr [id Hid]]. destruct (Hs _ _ Hid) as (r' & ? & <-). simplify_eq. done.
    - naive_solver. }
  split; [done|]. split; [|done].
  rewrite <- (length_fmap or_ID).
  rewrite <- (size_list_to_set (C := gset uuid) (or_ID <$> _)).
  - f_equal. apply set_eq. intros id. rewrite elem_of_list_to_set, list_elem_of_fmap, elem_of_running_ids.
    setoid_rewrite Hin. split.
    + intros (r & -> & ? & ?). eauto.
    + intros (r & Hid & Hr). destruct (Hs _ _ Hid) as (r' & ? & <-). simplify_eq. eauto.
  - apply NoDup_fmap_filter, records_ids, Hs.
Qed.

(** ** Reports: the streaming batch is the prefix of the sorted whole *)

Section ReportFacts.
Context `{U : UuidPkg} `{HU : !UuidLaws}.

Lemma report_less_false a b :
  report_less a b = false ↔
  Terminal a = false ∧ Terminal b = true ∨
  Terminal a = Terminal b ∧
    (or_LastReportedAt b < or_LastReportedAt a ∨
     or_LastReportedAt a = or_LastReportedAt b ∧
       string_less (UString (or_ID a)) (UString (or_ID b)) = false).
Proof.
  unfold report_less, Before.
  destruct (Terminal a), (Terminal b); simpl; repeat case_bool_decide; simpl; rewrite ?Z.ltb_ge;
    naive_solver lia.
Qed.

#[export] Instance report_less_order : SliceOrder report_less.
Proof.
  split.
  - intros a b. rewrite !report_less_false.
    destruct (string_less_total (UString (or_ID a)) (UString (or_ID b)));
      destruct (Terminal a), (Terminal b), (Z.lt_trichotomy (or_LastReportedAt a) (or_LastReportedAt b))
        as [?|[?|?]]; naive_solver lia.
  - intros a b c. rewrite !report_less_false.
    pose proof (string_less_false_trans (UString (or_ID a)) (UString (or_ID b)) (UString (or_ID c))).
    intros [[??]|[? [?|[??]]]] [[??]|[? [?|[??]]]]; try congruence;
      try (left; split; congruence); right; (split; [congruence|]);
      first [left; lia | right; split; [lia|auto]].
Qed.

Lemma report_less_separates l : NoDup (or_ID <$> l) → separates report_less l.
Proof using HU.
  intros Hnd x y Hx Hy H1%report_less_false H2%report_less_false.
  apply (NoDup_fmap_key _ _ x y Hnd Hx Hy). apply UString_inj.
  destruct H1 as [[??]|[? [?|[??]]]], H2 as [[??]|[? [?|[??]]]]; try congruence; try lia.
  by apply string_less_antisym.
Qed.

(** The reports wanted from a bucket at an instant. *)
Definition report_wanted (bucket : gmap uuid (cell OperationRecord)) (now : time) (interval : duration)
    (r : OperationRecord) : bool :=
  negb (parent_pending bucket r) && report_due now interval r.

Lemma report_scan_spec bucket now interval done_ l :
  all_json l →
  NoDup (or_ID <$> filter (λ r, report_wanted bucket now interval r = true) done_ ++
         filter (λ r, report_wanted bucket now interval r = true) (decode_all l)) →
  report_scan bucket now interval
    (take maxReportsPerBatch
      (sort_Slice report_less (filter (λ r, report_wanted bucket now interval r = true) done_))) l =
  Ok (take maxReportsPerBatch (sort_Slice report_less
       (filter (λ r, report_wanted bucket now interval r = true) (done_ ++ decode_all l)))).
Proof using HU.
  revert done_; induction l as [|[k c] l IH]; intros done_ Hj Hnd.
  { cbn. by rewrite app_nil_r. }
  apply Forall_cons in Hj as [Hc Hj]. destruct c as [r|]; [|done].
  change (decode_all ((k, Json r) :: l)) with (r :: decode_all l) in *.
  rewrite (cons_middle r done_), (assoc (++)). cbn [report_scan unmarshal rbind].
  rewrite <- IH; [|done|].
  2:{ by rewrite filter_app, <- (assoc (++)), <- filter_app. }
  f_equal. rewrite filter_app.
  assert (Hsub : NoDup (or_ID <$> filter (λ r, report_wanted bucket now interval r = true) done_ ++
    filter (λ r, report_wanted bucket now interval r = true) [r])).
  { rewrite filter_cons in Hnd |- *. case_decide; rewrite fmap_app, NoDup_app in Hnd |- *; cbn in *.
    - rewrite NoDup_cons in Hnd. set_solver by (auto using NoDup_nil_2, NoDup_singleton).
    - rewrite NoDup_nil. set_solver. }
  unfold report_step. destruct (parent_pending bucket r) eqn:Hp.
  - rewrite filter_cons_False, filter_nil, app_nil_r; [done|]. unfold report_wanted. by rewrite Hp.
  - replace (if report_due now interval r then [r] else [])
      with (filter (λ r, report_wanted bucket now interval r = true) [r]).
    2:{ rewrite filter_cons, filter_nil. unfold report_wanted. rewrite Hp. simpl.
        destruct (report_due now interval r) eqn:E; case_decide; congruence. }
    apply (take_sort_app report_less); [by eapply NoDup_fmap_1|by apply report_less_separates].
Qed.
End ReportFacts.

(** The Agent builds each report batch by scanning all operations once,
    sorting and cutting to 32 after every record; the result is exactly the
    first 32 of the wanted reports in report order (results first, then least
    recently reported, then by identity), so the cut never drops a report that
    belongs in the batch. *)
Theorem report_batch_is_sorted_prefix `{U : UuidPkg} `{!UuidLaws} (now : time) (interval : duration) (s : State) :
  store_ok (db_operations (st_db s)) →
  ReportableOperations now interval s =
    (Ok (take maxReportsPerBatch (sort_Slice report_less
          (filter (λ r, report_wanted (db_operations (st_db s)) now interval r = true)
            (records (db_operations (st_db s)))))), s).
Proof.
  intros Hs. unfold ReportableOperations, View. f_equal.
  apply (report_scan_spec (db_operations (st_db s)) now interval []).
  - by apply store_ok_json.
  - rewrite filter_nil. by apply NoDup_fmap_filter, records_ids.
Qed.

(** A record of the concrete examples. *)
Definition example_record (n : N) (status : string) (reported : time) : OperationRecord :=
  mkOperationRecord (v7 n) (v7 1) 1 "hash" 0 0 0 status 0 "" "" 0 0 0 0 0 0 false reported 0 0 0 0 0 None.

Definition empty_db : db := mkDb ∅ ∅ None None None ∅.
Definition initial_state (d : db) (interval : duration) : State := mkState d [] ∅ ∅ zero_time interval ∅ [].

Definition example_ops : gmap uuid (cell OperationRecord) :=
  <[v7 11 := Json (example_record 11 "RUNNING" 0)]>
  (<[v7 12 := Json (example_record 12 "FAILED" 5)]> (<[v7 13 := Json (example_record 13 "SUCCEEDED" 3)]> ∅)).
Definition example_state : State := initial_state (set_operations example_ops empty_db) second.

Lemma example_ops_ok : store_ok example_ops.
Proof.
  unfold store_ok, example_ops. intros id c.
  rewrite !lookup_insert. repeat case_decide; intros ?; simplify_eq; eauto.
Qed.

Lemma report_batch_is_sorted_prefix_witness :
  ReportableOperations (100 * second) 0 example_state =
    (Ok (take maxReportsPerBatch (sort_Slice report_less
          (filter (λ r, report_wanted example_ops (100 * second) 0 r = true) (records example_ops)))),
     example_state).
Proof. exact (report_batch_is_sorted_prefix (100 * second) 0 example_state example_ops_ok). Defined.

(** ** Recovery after a restart *)

Definition recover_cell (now : time) (c : cell OperationRecord) : cell OperationRecord :=
  match c with
  | Json r => if running_status r then Json (recovered now r) else Json r
  | Corrupt => Corrupt
  end.

Lemma recovered_not_running now r : running_status (recovered now r) = false.
Proof. by vm_compute. Qed.

Lemma foldl_insert_lookup (items : list (uuid * OperationRecord)) (m : gmap uuid (cell OperationRecord)) id :
  NoDup items.*1 →
  foldl (λ m kr, <[kr.1 := Json kr.2]> m) m items !! id =
  match (list_to_map items : gmap uuid OperationRecord) !! id with
  | Some r => Some (Json r)
  | None => m !! id
  end.
Proof.
  revert m; induction items as [|[k r] items IH]; intros m Hnd; [done|].
  cbn [fmap list_fmap] in Hnd. apply NoDup_cons in Hnd as [Hk Hnd]. cbn [foldl fst snd].
  rewrite IH by done. cbn [list_to_map foldr fst snd uncurry].
  destruct (decide (id = k)) as [->|].
  - rewrite lookup_insert_eq.
    rewrite (not_elem_of_list_to_map_1 items k) by done. by rewrite lookup_insert_eq.
  - by rewrite !lookup_insert_ne by done.
Qed.

Lemma to_recover_spec now l items :
  to_recover now l = Ok items →
  all_json l ∧ ∀ k r, (k, r) ∈ items ↔ ∃ r0, (k, Json r0) ∈ l ∧ running_status r0 = true ∧ r = recovered now r0.
Proof.
  revert items; induction l as [|[k [r0|]] l IH]; intros items Hr; cbn [to_recover unmarshal rbind] in Hr;
    [simplify_eq; split; [constructor|set_solver]| |done].
  ok_inv Hr. destruct (IH _ eq_refl) as [Hj Hin]. split; [by constructor|].
  intros k' r'. destruct (running_status r0) eqn:Hrun; simplify_eq.
  - rewrite elem_of_cons, Hin. setoid_rewrite elem_of_cons. naive_solver.
  - rewrite Hin. setoid_rewrite elem_of_cons. naive_solver congruence.
Qed.

Lemma to_recover_keys now l items :
  to_recover now l = Ok items → NoDup l.*1 → NoDup items.*1.
Proof.
  revert items; induction l as [|[k [r0|]] l IH]; intros items Hr Hnd; cbn [to_recover unmarshal rbind] in Hr;
    [simplify_eq; constructor| |done].
  ok_inv Hr. cbn [fmap list_fmap] in Hnd. apply NoDup_cons in Hnd as [Hk Hnd].
  destruct (running_status r0); simplify_eq; [|auto]. cbn [fmap list_fmap]. apply NoDup_cons.
  split; [|auto]. contradict Hk. apply list_elem_of_fmap in Hk as ([k' r'] & Heq & Hk). cbn in Heq. subst k'.
  destruct (to_recover_spec _ _ _ Hr0) as [_ Hin]. apply Hin in Hk as (r1 & Hk & _).
  apply list_elem_of_fmap. by exists (k, Json r1).
Qed.

(** What the committed bucket holds. *)
Lemma recover_lookup now m items id :
  to_recover now (ForEach m) = Ok items →
  foldl (λ m kr, <[kr.1 := Json kr.2]> m) m items !! id = recover_cell now <$> m !! id.
Proof.
  intros Hr. pose proof (to_recover_keys _ _ _ Hr (NoDup_ForEach m)) as Hnd.
  destruct (to_recover_spec _ _ _ Hr) as [_ Hin].
  rewrite foldl_insert_lookup by done.
  destruct ((list_to_map items : gmap uuid OperationRecord) !! id) as [r|] eqn:Hl.
  - apply elem_of_list_to_map_2 in Hl. apply Hin in Hl as (r0 & Hl & Hrun & ->).
    apply elem_of_ForEach in Hl. rewrite Hl. cbn. by rewrite Hrun.
  - destruct (m !! id) as [[r0|]|] eqn:Hm; cbn; try done.
    destruct (running_status r0) eqn:Hrun; [|done]. exfalso.
    apply not_elem_of_list_to_map_2 in Hl. apply Hl. apply list_elem_of_fmap.
    exists (id, recovered now r0). split; [done|]. apply Hin. exists r0. by rewrite elem_of_ForEach.
Qed.

Lemma recover_running_ids now (m m' : gmap uuid (cell OperationRecord)) :
  (∀ id, m' !! id = recover_cell now <$> m !! id) → running_ids m' = ∅.
Proof.
  intros Hl. apply set_eq. intros id. rewrite elem_of_running_ids, Hl. split; [|set_solver].
  intros (r & Hc & Hr). destruct (m !! id) as [[r0|]|]; cbn in Hc; try done.
  destruct (running_status r0) eqn:E; injection Hc as <-; [|congruence].
  by pose proof (recovered_not_running now r0).
Qed.

Lemma to_recover_length now m items :
  store_ok m → to_recover now (ForEach m) = Ok items → length items = size (running_ids m).
Proof.
  intros Hs Hr. pose proof (to_recover_keys _ _ _ Hr (NoDup_ForEach m)) as Hnd.
  destruct (to_recover_spec _ _ _ Hr) as [_ Hin].
  rewrite <- (length_fmap fst), <- (size_list_to_set (C := gset uuid)) by done. f_equal.
  apply set_eq. intros id. rewrite elem_of_list_to_set, list_elem_of_fmap, elem_of_running_ids. split.
  - intros ([k r] & -> & Hk). apply Hin in Hk as (r0 & Hk & ? & ->). apply elem_of_ForEach in Hk. eauto.
  - intros (r & Hk & ?). exists (id, recovered now r). split; [done|]. apply Hin. exists r.
    by rewrite elem_of_ForEach.
Qed.

Lemma to_recover_total now l : all_json l → is_ok (to_recover now l) = true.
Proof.
  induction l as [|[k [r|]] l IH]; intros Hj; [done| |by apply Forall_cons in Hj as [[] _]].
  apply Forall_cons in Hj as [_ Hj]. cbn [to_recover unmarshal rbind]. specialize (IH Hj).
  by destruct (to_recover now l).
Qed.

(** Restart recovery. On a readable store, when the storage accepts the
    commit, every operation left RUNNING is closed as LOST and marked for
    upload, every other record is untouched, nothing remains RUNNING, and the
    reported count is the number of operations closed.  When the storage
    refuses the commit, or any record does not decode, the stored operations
    are unchanged and an error is returned. *)
Theorem recovery_closes_exactly_running (now : time) (s : State) :
  store_ok (db_operations (st_db s)) →
  let '(r, s') := RecoverRunningOperations now s in
  let m := db_operations (st_db s) in
  let m' := db_operations (st_db s') in
  match r with
  | Ok n =>
      (∀ id, m' !! id = recover_cell now <$> m !! id) ∧ running_ids m' = ∅ ∧ n = size (running_ids m)
  | Err _ => m' = m ∧ ∃ fs, st_faults s = true :: fs
  end.
Proof.
  intros Hs. unfold RecoverRunningOperations, Update.
  pose proof (to_recover_total now _ (store_ok_json _ Hs)) as Ht.
  destruct (to_recover now (ForEach (db_operations (st_db s)))) as [items|] eqn:Hr; [|done]. cbn [rbind].
  pose proof (to_recover_length _ _ _ Hs Hr) as Hlen.
  pose proof (λ id, recover_lookup now (db_operations (st_db s)) items id Hr) as Hl.
  destruct (st_faults s) as [|[] fs] eqn:Hf; cbn; [|by eauto|];
    (split; [exact Hl|split; [by eapply recover_running_ids|exact Hlen]]).
Qed.

Lemma recovery_closes_exactly_running_witness :
  let '(r, s') := RecoverRunningOperations 77 example_state in
  match r with
  | Ok n =>
      (∀ id, db_operations (st_db s') !! id = recover_cell 77 <$> example_ops !! id) ∧
      running_ids (db_operations (st_db s')) = ∅ ∧ n = size (running_ids example_ops)
  | Err _ => db_operations (st_db s') = example_ops ∧ ∃ fs, st_faults example_state = true :: fs
  end.
Proof. exact (recovery_closes_exactly_running 77 example_state example_ops_ok). Defined.
