(* ===== verification/AgentLogs.v ===== *)
(** * AgentLogs: the Agent's durable operation logs, internal/agent/logs.go

    Every operation has a bucket with its entries, keyed by sequence number,
    and a metadata value.  The encoder of an entry and the effect of deleting
    through a bbolt cursor while it advances are parameters ([LogCodec]). *)

From S2P Require Import Prelude GoStd Uuid Platform Domain Plan DomainLogs AgentStore.
Open Scope Z_scope.
Open Scope go_scope.
Open Scope agent_scope.

(** [marshal_entry] is [json.Marshal] of an entry ([None]: it fails).
    [cursor_delete through m] is what the loop of [acknowledgeLogs], which
    deletes at a bbolt cursor and then moves it, leaves in the bucket. *)
Class LogCodec := {
  marshal_entry : BackupLogEntry → option string;
  cursor_delete : Z → gmap N string → gmap N string }.

(** An encoded entry is not empty and takes at most 256 bytes (the field names,
    three integers of at most 19 digits, an RFC 3339 instant and vocabulary of
    at most 30 bytes); the cursor loop deletes no key above [through] and
    changes no value. *)
Class LogCodecLaws `{C : LogCodec} : Prop := {
  marshal_entry_size : ∀ e p, marshal_entry e = Some p → 0 < slen p ≤ 256;
  cursor_delete_subset : ∀ through m, cursor_delete through m ⊆ m;
  cursor_delete_keeps : ∀ through m k,
    through < Z.of_N k → cursor_delete through m !! k = m !! k }.

Section Logs.
Context `{U : UuidPkg} `{C : LogCodec}.

Definition zero_log : localLogState := mkLogState 0 0 0 0 false ∅ 0 zero_time.
Definition set_sequence (n : Z) (e : BackupLogEntry) : BackupLogEntry :=
  mkLogEntry n (le_ObservedAt e) (le_Section e) (le_Level e) (le_Code e) (le_FilesDone e) (le_BytesDone e).
Definition set_code (code level : string) (e : BackupLogEntry) : BackupLogEntry :=
  mkLogEntry (le_Sequence e) (le_ObservedAt e) (le_Section e) level code (le_FilesDone e) (le_BytesDone e).

(** Sequence numbers index the entries through [logKey], eight big-endian
    bytes, so the key order of the bucket is the numeric order. *)
Definition logKey (sequence : Z) : N := Z.to_N sequence.

Definition put_log (id : uuid) (b : LogBucket) (d : db) : db := set_logs (<[id := b]> (db_logs d)) d.

(** The limit fixed by the first entry: the active policy's, if in bounds. *)
Definition initial_limit (d : db) : Z :=
  let limit := match db_active d with
               | Some (Json desired) => LogLimitBytes (ds_RuntimePolicy desired)
               | _ => Desired.DefaultLogLimitBytes
               end in
  if (limit <? 64 * 2 ^ 10) || (Desired.DefaultLogLimitBytes <? limit) then Desired.DefaultLogLimitBytes else limit.

Definition marshal (e : BackupLogEntry) : result string string :=
  match marshal_entry e with Some p => Ok p | None => Err "json" end.

(** The last part of [appendOperationLog]: store the payload and advance. *)
Definition put_entry (id : uuid) (b : LogBucket) (meta : localLogState) (sequence : Z) (payload : string)
    (critical : option string) (truncated : bool) (d : db) : result string (() * db) :=
  reject ll_Limit meta <? to_uint64 (ll_Bytes meta + slen payload) as "local log limit exceeded" ;;
  Ok ((), put_log id
    (mkLogBucket
      (Some (Json (mkLogState sequence (ll_Ack meta) (to_uint64 (ll_Bytes meta + slen payload)) (ll_Limit meta)
        truncated (from_option (λ k, {[k]} ∪ ll_Critical meta) (ll_Critical meta) critical)
        (ll_SentThrough meta) (ll_LastSentAt meta))))
      (<[logKey sequence := payload]> (lb_entries b))) d).

Definition set_limit (limit : Z) (m : localLogState) : localLogState :=
  mkLogState (ll_Next m) (ll_Ack m) (ll_Bytes m) limit (ll_Truncated m) (ll_Critical m) (ll_SentThrough m)
    (ll_LastSentAt m).

(** The transaction body of [appendOperationLog]. *)
Definition append_body (id : uuid) (entry : BackupLogEntry) (d : db) : result string (() * db) :=
  reject bool_decide (db_operations d !! id = None) as "log operation is unavailable" ;;
  let bucket := default (mkLogBucket None ∅) (db_logs d !! id) in
  let! meta := from_option unmarshal (Ok zero_log) (lb_meta bucket) in
  let entry := set_sequence (to_uint64 (ll_Next meta + 1)) entry in
  reject negb (ValidateLogEntry entry) as "invalid local log entry" ;;
  let critical := le_Code entry != "BACKUP_PROGRESS" in
  let key := le_Section entry +:+ ":" +:+ le_Code entry in
  if critical && bool_decide (key ∈ ll_Critical meta) then Ok ((), d)
  else
    let meta := if ll_Limit meta =? 0 then set_limit (initial_limit d) meta else meta in
    let! payload := marshal entry in
    if negb critical &&
       (ll_Truncated meta ||
        (to_uint64 (ll_Limit meta - 16 * 2 ^ 10) <? to_uint64 (ll_Bytes meta + slen payload)))
    then
      if ll_Truncated meta then Ok ((), d)
      else
        let! payload := marshal (set_code "LOG_TRUNCATED" "WARN" entry) in
        put_entry id bucket meta (le_Sequence entry) payload None true d
    else put_entry id bucket meta (le_Sequence entry) payload (if critical then Some key else None)
           (ll_Truncated meta) d.

Definition appendOperationLog (id : uuid) (entry : BackupLogEntry) : M () := Update (append_body id entry).

(** [operationLog] at the instant [now]. *)
Definition operationLog (now : time) (id : uuid) (section level code : string) (files bytes : Z) : M () :=
  appendOperationLog id (mkLogEntry 0 now section level code files bytes).

(** *** Sending *)

Record pendingLogChunk := mkChunk {
  pc_OperationID : uuid;
  pc_First : Z;
  pc_Last : Z;
  pc_JSON : string }.

Definition entry_less (a b : N * string) : bool := (a.1 <? b.1)%N.

(** [cursor.Seek(logKey(from))] and the entries that follow it, in key order. *)
Definition entries_from (from : Z) (entries : gmap N string) : list (N * string) :=
  sort_Slice entry_less (filter (λ kv, logKey from <= kv.1)%N (map_to_list entries)).

Fixpoint chunk_loop (first last : Z) (json : string) (l : list (N * string)) : Z * string :=
  match l with
  | [] => (last, json)
  | (k, v) :: rest =>
      if (MaxBackupLogChunkBytes <? slen json + slen v + 2) || (to_uint64 (first + 199) <=? last)
      then (last, json)
      else chunk_loop first (Z.of_N k) ((if last != 0 then json +:+ "," else json) +:+ v) rest
  end.

(** One iteration of [root.ForEach] in [pendingLogs]. *)
Definition pending_step (d : db) (now : time) (force : bool) (chunks : list pendingLogChunk)
    (id : uuid) (bucket : LogBucket) : result string (list pendingLogChunk) :=
  if (8 <=? length chunks)%nat then Ok chunks
  else
    match db_operations d !! id with
    | Some (Json operation) =>
        if Terminal operation && negb (or_Uploaded operation) then Ok chunks
        else if negb (Terminal operation) && IsZero (or_LastReportedAt operation) then Ok chunks
        else
          let! meta := from_option unmarshal (Err "json") (lb_meta bucket) in
          if (ll_Next meta <=? ll_Ack meta) ||
             negb force && (Sub now (ll_LastSentAt meta) <? resultRetryInterval)
          then Ok chunks
          else
            let first := to_uint64 (ll_Ack meta + 1) in
            let '(last, json) := chunk_loop first 0 "[" (entries_from first (lb_entries bucket)) in
            if last =? 0 then Ok chunks
            else Ok (chunks ++ [mkChunk id first last (json +:+ "]")])
    | _ => Err "log operation missing"
    end.

Fixpoint pending_scan (d : db) (now : time) (force : bool) (chunks : list pendingLogChunk)
    (l : list (uuid * LogBucket)) : result string (list pendingLogChunk) :=
  match l with
  | [] => Ok chunks
  | (id, bucket) :: rest =>
      let! chunks := pending_step d now force chunks id bucket in
      pending_scan d now force chunks rest
  end.

Definition pendingLogs (now : time) (force : bool) : M (list pendingLogChunk) :=
  View (λ d, pending_scan d now force [] (ForEach (db_logs d))).

(** *** Acknowledging *)

Definition updateLogState (id : uuid)
    (update : gmap N string → localLogState → result string (gmap N string * localLogState)) : M () :=
  Update (λ d,
    match db_logs d !! id with
    | None => Err "unknown log operation"
    | Some bucket =>
        let! meta := from_option unmarshal (Err "json") (lb_meta bucket) in
        let! updated := update (lb_entries bucket) meta in
        Ok ((), put_log id (mkLogBucket (Some (Json updated.2)) updated.1) d)
    end).

Definition mark_sent (through : Z) (now : time) (entries : gmap N string) (meta : localLogState) :
    result string (gmap N string * localLogState) :=
  reject ll_Next meta <? through as "invalid log send" ;;
  Ok (entries, mkLogState (ll_Next meta) (ll_Ack meta) (ll_Bytes meta) (ll_Limit meta) (ll_Truncated meta)
                 (ll_Critical meta) through now).

Definition markLogsSent (id : uuid) (through : Z) (now : time) : M () :=
  updateLogState id (mark_sent through now).

Definition acknowledge (through : Z) (entries : gmap N string) (meta : localLogState) :
    result string (gmap N string * localLogState) :=
  reject (ll_SentThrough meta <? through) || (ll_Next meta <? through) as "invalid log acknowledgement" ;;
  if through <=? ll_Ack meta then Ok (entries, meta)
  else Ok (cursor_delete through entries,
           mkLogState (ll_Next meta) through (ll_Bytes meta) (ll_Limit meta) (ll_Truncated meta)
             (ll_Critical meta) (ll_SentThrough meta) zero_time).

Definition acknowledgeLogs (id : uuid) (through : Z) : M () := updateLogState id (acknowledge through).
End Logs.

(** ** Invariant of a log *)

Section Invariant.
Context `{U : UuidPkg} `{C : LogCodec} `{HC : !LogCodecLaws}.

(** The unacknowledged entries are all there, nothing is numbered past
    [Next], the byte count respects the limit fixed by the first entry, and
    progress leaves the reserve to the marker and the critical events. *)
Record meta_ok (entries : gmap N string) (m : localLogState) : Prop := {
  mo_order : 0 ≤ ll_Ack m ≤ ll_Next m ∧ ll_Next m ≤ 2 ^ 62;
  mo_sent : 0 ≤ ll_SentThrough m ≤ ll_Next m;
  mo_limit : 64 * 2 ^ 10 ≤ ll_Limit m ≤ Desired.DefaultLogLimitBytes;
  mo_bytes : 0 ≤ ll_Bytes m ≤ ll_Limit m;
  mo_keys : ∀ k, is_Some (entries !! k) → 1 ≤ Z.of_N k ≤ ll_Next m;
  mo_present : ∀ k, ll_Ack m < Z.of_N k ≤ ll_Next m → is_Some (entries !! k);
  mo_sizes : map_Forall (λ _ v, 0 < slen v ≤ 256) entries;
  mo_reserve : ll_Bytes m ≤ ll_Limit m - 16 * 2 ^ 10 + 256 * Z.of_nat (size (ll_Critical m)) +
                 (if ll_Truncated m then 256 else 0) }.

Definition log_ok (b : LogBucket) : Prop :=
  ∃ m, lb_meta b = Some (Json m) ∧ meta_ok (lb_entries b) m.

Definition logs_ok (m : gmap uuid LogBucket) : Prop := map_Forall (λ _, log_ok) m.

Lemma to_uint64_id z : 0 ≤ z < 2 ^ 64 → to_uint64 z = z.
Proof. apply Z.mod_small. Qed.

Lemma initial_limit_bounds d : 64 * 2 ^ 10 ≤ initial_limit d ≤ Desired.DefaultLogLimitBytes.
Proof.
  unfold initial_limit. set (l := match db_active d with Some (Json _) => _ | _ => _ end).
  unfold Desired.DefaultLogLimitBytes in *.
  destruct (_ || _) eqn:E; [lia|]. bool_prop. lia.
Qed.

Lemma meta_ok_zero d : meta_ok ∅ (set_limit (initial_limit d) zero_log).
Proof.
  pose proof (initial_limit_bounds d). split; cbn; try lia.
  - intros k [x Hx]. by rewrite lookup_empty in Hx.
  - apply map_Forall_empty.
Qed.

Lemma put_entry_ok id b meta payload critical truncated d d' :
  meta_ok (lb_entries b) meta → ll_Next meta < 2 ^ 62 → 0 < slen payload ≤ 256 →
  match critical with
  | Some k => k ∉ ll_Critical meta ∧ truncated = ll_Truncated meta
  | None => truncated = true ∧ ll_Truncated meta = false ∨
            truncated = ll_Truncated meta ∧ ll_Bytes meta + slen payload ≤ ll_Limit meta - 16 * 2 ^ 10
  end →
  put_entry id b meta (ll_Next meta + 1) payload critical truncated d = Ok ((), d') →
  ∃ b', d' = put_log id b' d ∧ log_ok b'.
Proof using HC.
  intros [Hord Hsent Hlim Hbytes Hkeys Hpres Hsz Hres] Hn Hp Hcase Hput.
  unfold put_entry in Hput. ok_inv Hput. injection Hput as <-. eexists; split; [done|].
  eexists; split; [done|].
  unfold Desired.DefaultLogLimitBytes in *. rewrite to_uint64_id in * by lia. bool_prop.
  unfold logKey. split; cbn [ll_Next ll_Ack ll_Bytes ll_Limit ll_Truncated ll_Critical ll_SentThrough lb_entries];
    unfold Desired.DefaultLogLimitBytes; try lia.
  - intros k. destruct (decide (k = Z.to_N (ll_Next meta + 1))) as [->|]; [lia|].
    rewrite lookup_insert_ne by done. intros Hk%Hkeys. lia.
  - intros k Hk. destruct (decide (k = Z.to_N (ll_Next meta + 1))) as [->|].
    + rewrite lookup_insert_eq. eauto.
    + rewrite lookup_insert_ne by done. apply Hpres. lia.
  - by apply map_Forall_insert_2.
  - destruct critical as [k|]; cbn.
    + destruct Hcase as [Hk ->]. rewrite size_union, size_singleton by set_solver. lia.
    + destruct Hcase as [[-> Ht]|[-> ?]]; [rewrite Ht in Hres; lia|]. destruct (ll_Truncated meta); lia.
Qed.

Lemma append_body_ok id e d d' :
  logs_ok (db_logs d) → append_body id e d = Ok ((), d') →
  d' = d ∨ ∃ b, d' = put_log id b d ∧ log_ok b.
Proof using HC.
  intros Hlogs Ha. unfold append_body in Ha. ok_inv Ha. rename a into meta.
  set (bucket := default (mkLogBucket None ∅) (db_logs d !! id)) in *.
  set (meta' := if ll_Limit meta =? 0 then _ else _) in Ha.
  assert (Hm : meta_ok (lb_entries bucket) meta' ∧ ll_Next meta' = ll_Next meta ∧
    ll_Critical meta' = ll_Critical meta).
  { subst bucket meta'. destruct (db_logs d !! id) as [b|] eqn:Hb; cbn in *.
    - destruct (Hlogs _ _ Hb) as (m & Hm & Hok). rewrite Hm in Hr. cbn in Hr. simplify_eq.
      rewrite (proj2 (Z.eqb_neq _ _)); [done|]. destruct Hok. lia.
    - simplify_eq. cbn. pose proof (meta_ok_zero d). done. }
  clearbody meta'. destruct Hm as (Hok & Hnext & Hcrit). rewrite <- Hnext, <- Hcrit in *.
  set (entry := set_sequence _ e) in *. pose proof (mo_order _ _ Hok) as Hord.
  pose proof (mo_limit _ _ Hok) as Hlim. pose proof (mo_bytes _ _ Hok) as Hby.
  unfold Desired.DefaultLogLimitBytes in *.
  destruct (_ && bool_decide _) eqn:Hdup in Ha; [left; congruence|].
  unfold marshal in Ha. ok_inv Ha. destruct (marshal_entry entry) as [p|] eqn:Hp; [|done].
  injection Hr0 as ->. apply marshal_entry_size in Hp.
  assert (Hn : ll_Next meta' < 2 ^ 62).
  { apply negb_false_iff in Hg0. unfold ValidateLogEntry in Hg0. bool_prop. cbn in *.
    rewrite to_uint64_id in * by lia. lia. }
  assert (Hs : le_Sequence entry = ll_Next meta' + 1) by (cbn; rewrite to_uint64_id; lia).
  rewrite Hs in Ha. clear Hs Hg0. rewrite !to_uint64_id in Ha by lia.
  destruct (le_Code entry != "BACKUP_PROGRESS") eqn:Hc; cbn [negb andb] in Ha, Hdup.
  - right. eapply put_entry_ok in Ha; [done..|]. cbn. by bool_prop.
  - destruct (ll_Truncated meta') eqn:Ht; cbn [orb] in Ha; [left; congruence|].
    destruct (_ <? _) eqn:Hfull in Ha; right.
    + ok_inv Ha. destruct (marshal_entry (set_code _ _ _)) eqn:Hp'; [|done].
      injection Hr0 as ->. apply marshal_entry_size in Hp'.
      eapply put_entry_ok in Ha; [done..|]. by left.
    + eapply put_entry_ok in Ha; [done..|]. right. bool_prop. split; [done|lia].
Qed.

Lemma mark_sent_ok through now entries m r :
  0 ≤ through → meta_ok entries m → mark_sent through now entries m = Ok r → meta_ok r.1 r.2.
Proof.
  intros Ht [Hord Hsent Hlim Hbytes Hkeys Hpres Hsz Hres] Hm. unfold mark_sent in Hm. ok_inv Hm.
  injection Hm as <-. bool_prop. split; cbn; (done || lia).
Qed.

Lemma acknowledge_ok through entries m r :
  0 ≤ through → meta_ok entries m → acknowledge through entries m = Ok r → meta_ok r.1 r.2.
Proof using HC.
  intros Ht Hok Hm. unfold acknowledge in Hm. ok_inv Hm. bool_prop.
  destruct (through <=? ll_Ack m) eqn:Ha; injection Hm as <-; [done|]. bool_prop.
  destruct Hok as [Hord Hsent Hlim Hbytes Hkeys Hpres Hsz Hres]. split; cbn; try (done || lia).
  - intros k [v Hv]. apply Hkeys. exists v.
    by eapply lookup_weaken, cursor_delete_subset.
  - intros k Hk. rewrite cursor_delete_keeps by lia. apply Hpres. lia.
  - intros k v Hv. apply (Hsz k v). by eapply lookup_weaken, cursor_delete_subset.
Qed.

(** *** Sequences of log operations *)

(** The operations of this file that change a log, with their arguments;
    sequence numbers on the wire are unsigned. *)
Inductive log_cmd :=
| Append (id : uuid) (e : BackupLogEntry)
| Sent (id : uuid) (through : N) (now : time)
| Acked (id : uuid) (through : N).

Definition log_step (c : log_cmd) : M () :=
  match c with
  | Append id e => appendOperationLog id e
  | Sent id through now => markLogsSent id (Z.of_N through) now
  | Acked id through => acknowledgeLogs id (Z.of_N through)
  end.

Definition run_logs (cs : list log_cmd) (s : State) : State := foldl (λ s c, (log_step c s).2) s cs.

(** A transaction keeps a property of the database its body keeps, whatever
    the storage does with the commit. *)
Lemma Update_inv {A} (I : db → Prop) (f : db → result string (A * db)) s :
  (∀ a d, f (st_db s) = Ok (a, d) → I d) → I (st_db s) → I (st_db (Update f s).2).
Proof.
  intros Hf HI. unfold Update. destruct (f (st_db s)) as [[a d]|e] eqn:Hd; [|done].
  destruct (st_faults s) as [|[] fs]; cbn; eauto.
Qed.

Lemma updateLogState_ok id update s :
  (∀ entries m r, meta_ok entries m → update entries m = Ok r → meta_ok r.1 r.2) →
  logs_ok (db_logs (st_db s)) → logs_ok (db_logs (st_db (updateLogState id update s).2)).
Proof.
  intros Hu Hs. apply (Update_inv (λ d, logs_ok (db_logs d))); [|done]. intros [] d Hd.
  destruct (db_logs (st_db s) !! id) as [b|] eqn:Hb; [|done].
  destruct (Hs _ _ Hb) as (m & Hm & Hok). rewrite Hm in Hd. cbn in Hd. ok_inv Hd. injection Hd as <-.
  apply map_Forall_insert_2; [|done]. eexists; split; [done|]. by eapply Hu.
Qed.

Lemma log_step_ok c s : logs_ok (db_logs (st_db s)) → logs_ok (db_logs (st_db (log_step c s).2)).
Proof using HC.
  intros Hs. destruct c as [id e|id through now|id through]; cbn [log_step].
  - apply (Update_inv (λ d, logs_ok (db_logs d))); [|done]. intros [] d Hd.
    destruct (append_body_ok _ _ _ _ Hs Hd) as [->|(b & -> & Hb)]; [done|]. by apply map_Forall_insert_2.
  - apply updateLogState_ok; [|done]. intros ???. apply mark_sent_ok. lia.
  - apply updateLogState_ok; [|done]. intros ???. apply acknowledge_ok. lia.
Qed.

Lemma run_logs_ok cs s : logs_ok (db_logs (st_db s)) → logs_ok (db_logs (st_db (run_logs cs s))).
Proof using HC. revert s; induction cs as [|c cs IH]; intros s Hs; [done|]. by apply IH, log_step_ok. Qed.
End Invariant.

(** ** Chunks *)

Section Chunks.
Context `{U : UuidPkg} `{C : LogCodec}.

#[local] Instance entry_less_order : SliceOrder entry_less.
Proof.
  split; unfold entry_less.
  - intros [a ?] [b ?]; cbn. destruct (N.ltb_spec a b), (N.ltb_spec b a); auto; lia.
  - intros [a ?] [b ?] [c ?]; cbn. rewrite !N.ltb_ge. lia.
Qed.

(** The [n] entries numbered from [from], in order. *)
Definition entry_range (entries : gmap N string) (from : Z) (n : nat) : list (N * string) :=
  (λ i, (logKey (from + Z.of_nat i), default "" (entries !! logKey (from + Z.of_nat i)))) <$> seq 0 n.

Lemma entry_range_S entries from n :
  entry_range entries from (S n) =
  (logKey from, default "" (entries !! logKey from)) :: entry_range entries (from + 1) n.
Proof.
  unfold entry_range. cbn [seq fmap list_fmap]. rewrite Z.add_0_r. f_equal.
  rewrite <- seq_shift, <- list_fmap_compose. apply list_fmap_ext. intros i x _. cbn.
  by replace (from + Z.of_nat (S x)) with (from + 1 + Z.of_nat x) by lia.
Qed.

Lemma elem_of_entry_range entries from n k v :
  (k, v) ∈ entry_range entries from n ↔
  ∃ i, (i < n)%nat ∧ k = logKey (from + Z.of_nat i) ∧ v = default "" (entries !! k).
Proof.
  unfold entry_range. rewrite list_elem_of_fmap. split.
  - intros (i & ? & Hi%elem_of_seq). simplify_eq. exists i. split; [lia|done].
  - intros (i & Hi & -> & ->). exists i. split; [done|]. apply elem_of_seq. lia.
Qed.

Lemma entry_range_sorted entries from n :
  0 ≤ from → StronglySorted (slice_le entry_less) (entry_range entries from n) ∧
  NoDup (entry_range entries from n).*1.
Proof.
  revert from; induction n as [|n IH]; intros from Hf; [split; constructor|].
  rewrite entry_range_S. destruct (IH (from + 1)) as [Hs Hn]; [lia|].
  split; cbn [fmap list_fmap]; constructor; try done.
  - apply Forall_forall. intros [k v] (i & _ & -> & _)%elem_of_entry_range.
    unfold slice_le, entry_less, logKey. cbn. apply N.ltb_ge. lia.
  - cbn. intros ([k v] & Hk & (i & _ & -> & _)%elem_of_entry_range)%list_elem_of_fmap.
    cbn in Hk. unfold logKey in Hk. lia.
Qed.

(** From the first unacknowledged number on, the cursor meets exactly the
    numbers up to [Next]. *)
Lemma entries_from_range entries m :
  meta_ok entries m →
  entries_from (ll_Ack m + 1) entries =
  entry_range entries (ll_Ack m + 1) (Z.to_nat (ll_Next m - ll_Ack m)).
Proof.
  intros Hok. pose proof (mo_order _ _ Hok) as [Ha Hn].
  destruct (entry_range_sorted entries (ll_Ack m + 1) (Z.to_nat (ll_Next m - ll_Ack m))) as [Hs Hnd]; [lia|].
  symmetry. apply (sorted_unique entry_less); [|done|apply sort_Slice_sorted, _|].
  - intros [k v] [k' v'] Hx Hy. unfold entry_less; cbn. rewrite !N.ltb_ge. intros.
    apply (NoDup_fmap_key _ _ (k, v) (k', v') Hnd Hx Hy). cbn. lia.
  - unfold entries_from. rewrite sort_Slice_Permutation. apply NoDup_Permutation.
    + by eapply NoDup_fmap_1.
    + apply NoDup_filter, NoDup_map_to_list.
    + intros [k v]. rewrite elem_of_entry_range, list_elem_of_filter, elem_of_map_to_list. cbn. split.
      * intros (i & Hi & -> & ->). unfold logKey. split; [lia|].
        destruct (mo_present _ _ Hok (Z.to_N (ll_Ack m + 1 + Z.of_nat i))) as [v ->]; [lia|done].
      * unfold logKey. intros [Hk Hl]. pose proof (mo_keys _ _ Hok k ltac:(eauto)) as Hb.
        exists (Z.to_nat (Z.of_N k - ll_Ack m - 1)). split; [lia|]. split; [lia|]. by rewrite Hl.
Qed.

(** What the loop of [pendingLogs] accumulates: a prefix of the entries, cut
    by the byte and the entry limits only. *)
Lemma chunk_loop_spec entries first taken n last json :
  0 < first < 2 ^ 63 → map_Forall (λ _ v, 0 < slen v ≤ 256) entries →
  (∀ i, (i < taken + n)%nat → is_Some (entries !! logKey (first + Z.of_nat i))) →
  (taken ≤ 200)%nat →
  last = (if taken is O then 0 else first + Z.of_nat taken - 1) →
  json = "[" +:+ Join (entry_range entries first taken).*2 "," →
  (slen json < MaxBackupLogChunkBytes) →
  ∃ k, (taken ≤ k ≤ taken + n)%nat ∧ (k ≤ 200)%nat ∧
    chunk_loop first last json (entry_range entries (first + Z.of_nat taken) n) =
      ((if k is O then 0 else first + Z.of_nat k - 1),
       "[" +:+ Join (entry_range entries first k).*2 ",") ∧
    slen ("[" +:+ Join (entry_range entries first k).*2 ",") < MaxBackupLogChunkBytes ∧
    (taken = O → n ≠ O → k ≠ O).
Proof.
  intros Hf Hsz. revert taken last json; induction n as [|n IH]; intros taken last json Hin Ht Hl Hj Hm.
  { exists taken. cbn. subst. split_and!; (done || lia). }
  rewrite entry_range_S. cbn [chunk_loop].
  set (v := default "" (entries !! logKey (first + Z.of_nat taken))).
  assert (Hv : 0 < slen v ≤ 256).
  { destruct (Hin taken) as [x Hx]; [lia|]. subst v. rewrite Hx. by apply (Hsz _ _ Hx). }
  assert (Hu : to_uint64 (first + 199) = first + 199) by (apply to_uint64_id; lia).
  destruct (_ || _) eqn:Hcut.
  { exists taken. subst. split_and!; try done; try lia. intros -> _. exfalso.
    revert Hcut. rewrite Hu. cbn. unfold MaxBackupLogChunkBytes. change (slen ("[" +:+ "")) with 1.
    rewrite orb_true_iff. intros [?|?]; bool_prop; lia. }
  bool_prop. rewrite Hu in *.
  assert (Hlt : (taken < 200)%nat) by (destruct taken; [lia|lia]).
  replace (first + Z.of_nat taken + 1) with (first + Z.of_nat (S taken)) by lia.
  destruct (IH (S taken) (Z.of_N (logKey (first + Z.of_nat taken)))
    ((if last != 0 then json +:+ "," else json) +:+ v)) as (k & Hk & Hk2 & Heq & Hs & _).
  - intros i Hi. apply Hin. lia.
  - lia.
  - unfold logKey. lia.
  - rewrite Hj. unfold entry_range. rewrite seq_S, fmap_app, fmap_app. cbn [fmap list_fmap].
    rewrite Join_snoc. cbn [snd Nat.add]. fold v.
    rewrite Hl. destruct taken as [|t].
    + cbn [entry_range seq fmap list_fmap]. rewrite bool_decide_eq_true_2 by done. cbn [negb].
      by rewrite string_app_assoc.
    + rewrite bool_decide_eq_false_2 by lia. cbn [negb]. cbn [seq fmap list_fmap].
      by rewrite !string_app_assoc.
  - destruct (last != 0); rewrite ?slen_app; change (slen ",") with 1; lia.
  - exists k. split_and!; try done; lia.
Qed.
End Chunks.

Section Pending.
Context `{U : UuidPkg} `{C : LogCodec}.

(** The logs a send round must serve: the operation is known to the control
    plane (its start was reported, or its result confirmed), some entry is
    unacknowledged, and the last send is old enough or the round is forced. *)
Definition log_due (d : db) (now : time) (force : bool) (ib : uuid * LogBucket) : bool :=
  match db_operations d !! ib.1, lb_meta ib.2 with
  | Some (Json op), Some (Json m) =>
      (if Terminal op then or_Uploaded op else negb (IsZero (or_LastReportedAt op))) &&
      (ll_Ack m <? ll_Next m) && (force || (resultRetryInterval <=? Sub now (ll_LastSentAt m)))
  | _, _ => false
  end.

(** A chunk carries the unacknowledged entries of its log from the first on,
    without gaps, within the byte and entry limits. *)
Definition chunk_ok (logs : gmap uuid LogBucket) (c : pendingLogChunk) : Prop :=
  ∃ b m n, logs !! pc_OperationID c = Some b ∧ lb_meta b = Some (Json m) ∧
    pc_First c = ll_Ack m + 1 ∧ (1 ≤ n ≤ 200)%nat ∧
    pc_Last c = pc_First c + Z.of_nat n - 1 ∧ pc_Last c ≤ ll_Next m ∧
    pc_JSON c = "[" +:+ Join (entry_range (lb_entries b) (pc_First c) n).*2 "," +:+ "]" ∧
    slen (pc_JSON c) ≤ MaxBackupLogChunkBytes.

Lemma pending_step_spec d now force chunks id b op :
  db_logs d !! id = Some b → log_ok b → db_operations d !! id = Some (Json op) →
  ∃ new, pending_step d now force chunks id b = Ok (chunks ++ new) ∧
    pc_OperationID <$> new =
      take (8 - length chunks) (filter (λ ib, log_due d now force ib = true) [(id, b)]).*1 ∧
    Forall (chunk_ok (db_logs d)) new.
Proof.
  intros Hb (m & Hm & Hok) Hop. unfold pending_step. rewrite Hop, Hm. cbn [from_option unmarshal rbind].
  destruct (8 <=? length chunks)%nat eqn:H8.
  { exists []. apply Nat.leb_le in H8. replace (8 - length chunks)%nat with O by lia.
    rewrite app_nil_r. repeat split. constructor. }
  apply Nat.leb_gt in H8. destruct (8 - length chunks)%nat as [|j] eqn:Hj; [lia|].
  rewrite filter_cons, filter_nil.
  assert (Hdue : log_due d now force (id, b) =
    negb (Terminal op && negb (or_Uploaded op)) && negb (negb (Terminal op) && IsZero (or_LastReportedAt op)) &&
    negb ((ll_Next m <=? ll_Ack m) || negb force && (Sub now (ll_LastSentAt m) <? resultRetryInterval))).
  { unfold log_due. cbn [fst snd]. rewrite Hop, Hm.
    rewrite !Z.ltb_antisym.
    destruct (Terminal op), (or_Uploaded op), (IsZero _), force, (_ <=? _), (_ <=? _); done. }
  rewrite Hdue. clear Hdue.
  destruct (Terminal op && _); [exists []; rewrite app_nil_r; by rewrite decide_False by done|].
  destruct (negb (Terminal op) && _); [exists []; rewrite app_nil_r; by rewrite decide_False by done|].
  destruct (_ || _) eqn:Hq; [exists []; rewrite app_nil_r; by rewrite decide_False by done|].
  cbn [negb andb]. rewrite decide_True by done. bool_prop.
  pose proof (mo_order _ _ Hok) as [Ho1 Ho2]. rewrite to_uint64_id by lia.
  rewrite (entries_from_range _ _ Hok).
  destruct (chunk_loop_spec (lb_entries b) (ll_Ack m + 1) 0 (Z.to_nat (ll_Next m - ll_Ack m)) 0 "[")
    as (k & Hk & Hk2 & Heq & Hs & Hne); try done; try lia.
  - apply (mo_sizes _ _ Hok).
  - intros i Hi. apply (mo_present _ _ Hok). unfold logKey. lia.
  - rewrite Z.add_0_r in Heq. rewrite Heq. assert (k ≠ O) as Hk0 by (apply Hne; lia).
    destruct k as [|k]; [done|]. rewrite (proj2 (Z.eqb_neq _ _)) by lia.
    eexists; split; [done|]. split; [cbn; by rewrite take_nil|]. constructor; [|constructor].
    exists b, m, (S k). cbn [pc_OperationID pc_First pc_Last pc_JSON].
    split_and!; try done; try lia.
    rewrite !slen_app in *. change (slen "]") with 1. lia.
Qed.

Lemma pending_scan_spec d now force chunks l :
  (∀ id b, (id, b) ∈ l →
    db_logs d !! id = Some b ∧ log_ok b ∧ ∃ op, db_operations d !! id = Some (Json op)) →
  ∃ new, pending_scan d now force chunks l = Ok (chunks ++ new) ∧
    pc_OperationID <$> new = take (8 - length chunks) (filter (λ ib, log_due d now force ib = true) l).*1 ∧
    Forall (chunk_ok (db_logs d)) new.
Proof.
  revert chunks; induction l as [|[id b] l IH]; intros chunks Hl.
  { exists []. rewrite app_nil_r. cbn. rewrite take_nil. done. }
  destruct (Hl id b) as (Hb & Hok & op & Hop); [set_solver|].
  destruct (pending_step_spec d now force chunks id b op Hb Hok Hop) as (new1 & He1 & Hi1 & Hf1).
  destruct (IH (chunks ++ new1)) as (new2 & He2 & Hi2 & Hf2); [set_solver|].
  exists (new1 ++ new2). cbn [pending_scan]. rewrite He1. cbn [rbind]. rewrite He2.
  split; [by rewrite (assoc (++))|]. split; [|by apply Forall_app].
  rewrite fmap_app, Hi1, Hi2. change ((id, b) :: l) with ([(id, b)] ++ l). rewrite filter_app, fmap_app, take_app.
  f_equal. f_equal. rewrite length_app. apply (f_equal length) in Hi1. rewrite length_fmap, length_take in Hi1.
  lia.
Qed.
End Pending.

(** The log invariant. Starting from any valid store, after any sequence of
    appends, sends and acknowledgements of any operations' logs, whatever
    commits the storage refuses: sequence numbers run without gaps from the
    acknowledged one to [Next], no unacknowledged entry is missing, the byte
    count stays within the limit fixed by the first entry (64 KiB to 10 MiB),
    and no entry is acknowledged or sent past [Next]. *)
Theorem logs_invariant `{C : LogCodec} `{!LogCodecLaws} (cs : list log_cmd) (s : State) :
  logs_ok (db_logs (st_db s)) → logs_ok (db_logs (st_db (run_logs cs s))).
Proof. apply run_logs_ok. Qed.

(** A send round. On a valid store whose logged operations all decode, the
    round never fails; it serves the first eight due logs in key order and no
    other, and each chunk is the JSON array of the unacknowledged entries from
    the first on, without gaps, non-empty, at most 200 entries and 32 KiB. *)
Theorem pendingLogs_complete `{C : LogCodec} (now : time) (force : bool) (s : State) :
  logs_ok (db_logs (st_db s)) →
  (∀ id, is_Some (db_logs (st_db s) !! id) → ∃ op, db_operations (st_db s) !! id = Some (Json op)) →
  ∃ chunks, pendingLogs now force s = (Ok chunks, s) ∧
    pc_OperationID <$> chunks =
      take 8 (filter (λ ib, log_due (st_db s) now force ib = true) (ForEach (db_logs (st_db s)))).*1 ∧
    Forall (chunk_ok (db_logs (st_db s))) chunks.
Proof.
  intros Hok Hops. unfold pendingLogs, View.
  destruct (pending_scan_spec (st_db s) now force [] (ForEach (db_logs (st_db s)))) as (new & He & Hi & Hf).
  { intros id b Hin%elem_of_ForEach. split_and!; [done|by apply (Hok id)|apply Hops; eauto]. }
  exists new. rewrite He. done.
Qed.

(** ** The reserve holds every critical event *)

(** The (section, code) pairs of the calls of [operationLog] in backup.go and
    scheduler.go; a final entry carries any backup error code. *)
Definition agent_events : list (string * string) :=
  [("pre_hook", "HOOK_STARTED"); ("pre_hook", "HOOK_FINISHED"); ("post_hook", "HOOK_STARTED");
   ("post_hook", "HOOK_FINISHED"); ("post_hook", "POST_HOOK_FAILED"); ("backup", "BACKUP_STARTED");
   ("backup", "BACKUP_PROGRESS"); ("backup", "BACKUP_SUMMARY"); ("backup", "ENGINE_READ_ERROR");
   ("backup", "BACKUP_SUCCEEDED"); ("backup", "BACKUP_SUCCEEDED_WITH_WARNINGS")] ++
  (pair "backup" <$> backup_error_codes).

Definition event_key (sc : string * string) : string := sc.1 +:+ ":" +:+ sc.2.
Definition event_keys : gset string := list_to_set (event_key <$> agent_events).

#[export] Typeclasses Opaque event_keys.

Definition agent_event (e : BackupLogEntry) : Prop := (le_Section e, le_Code e) ∈ agent_events.

Section Reserve.
Context `{U : UuidPkg} `{C : LogCodec} `{HC : !LogCodecLaws}.

Lemma event_keys_size : (size event_keys ≤ 39)%nat.
Proof. vm_compute. lia. Qed.

Lemma event_key_in e : agent_event e → le_Section e +:+ ":" +:+ le_Code e ∈ event_keys.
Proof. intros He. apply elem_of_list_to_set, list_elem_of_fmap. by exists (le_Section e, le_Code e). Qed.

Definition critical_of (b : option LogBucket) : gset string :=
  match b with
  | Some (mkLogBucket (Some (Json m)) _) => ll_Critical m
  | _ => ∅
  end.

Definition logs_vocab (m : gmap uuid LogBucket) : Prop := ∀ id, critical_of (m !! id) ⊆ event_keys.

Lemma put_entry_critical id b meta seq payload critical truncated d d' :
  put_entry id b meta seq payload critical truncated d = Ok ((), d') →
  ∃ b', d' = put_log id b' d ∧
    critical_of (Some b') = from_option (λ k, {[k]} ∪ ll_Critical meta) (ll_Critical meta) critical.
Proof. unfold put_entry. intros Hp. ok_inv Hp. injection Hp as <-. eauto. Qed.

Lemma append_body_critical id e d d' :
  append_body id e d = Ok ((), d') →
  d' = d ∨ ∃ b, d' = put_log id b d ∧
    critical_of (Some b) ⊆ {[le_Section e +:+ ":" +:+ le_Code e]} ∪ critical_of (db_logs d !! id).
Proof using HC.
  intros Ha. unfold append_body in Ha. ok_inv Ha. rename a into meta.
  set (meta' := if ll_Limit meta =? 0 then _ else _) in Ha.
  assert (Hc : ll_Critical meta' = critical_of (db_logs d !! id)).
  { assert (ll_Critical meta' = ll_Critical meta) as -> by (subst meta'; by destruct (_ =? _)).
    destruct (db_logs d !! id) as [[[[m|]|] en]|]; cbn in Hr; by simplify_eq. }
  clearbody meta'. destruct (_ && bool_decide _); [left; congruence|]. ok_inv Ha.
  destruct (negb _ && _).
  - destruct (ll_Truncated meta'); [left; congruence|]. ok_inv Ha.
    apply put_entry_critical in Ha as (b & -> & Hb). right. exists b. split; [done|].
    rewrite Hb, Hc. set_solver.
  - apply put_entry_critical in Ha as (b & -> & Hb). right. exists b. split; [done|].
    rewrite Hb. cbn [le_Section le_Code set_sequence]. destruct (le_Code e != _); cbn; set_solver.
Qed.

Lemma updateLogState_critical id update s :
  (∀ entries m r, update entries m = Ok r → ll_Critical r.2 = ll_Critical m) →
  logs_vocab (db_logs (st_db s)) → logs_vocab (db_logs (st_db (updateLogState id update s).2)).
Proof.
  intros Hu Hv. apply (Update_inv (λ d, logs_vocab (db_logs d))); [|done]. intros [] d Hd.
  pose proof (Hv id) as Hid. destruct (db_logs (st_db s) !! id) as [[[[m|]|] en]|] eqn:Hb; try done.
  cbn in Hd. ok_inv Hd. injection Hd as <-. intros j. cbn. destruct (decide (j = id)) as [->|].
  - rewrite lookup_insert_eq. cbn. by rewrite (Hu _ _ _ Hr).
  - rewrite lookup_insert_ne by done. apply Hv.
Qed.

Definition cmd_event (c : log_cmd) : Prop := match c with Append _ e => agent_event e | _ => True end.

Lemma log_step_vocab c s :
  cmd_event c → logs_vocab (db_logs (st_db s)) → logs_vocab (db_logs (st_db (log_step c s).2)).
Proof using HC.
  intros Hc Hv. destruct c as [id e|id through now|id through]; cbn [log_step].
  - apply (Update_inv (λ d, logs_vocab (db_logs d))); [|done]. intros [] d Hd.
    destruct (append_body_critical _ _ _ _ Hd) as [->|(b & -> & Hb)]; [done|].
    intros j. cbn. destruct (decide (j = id)) as [->|]; [|by rewrite lookup_insert_ne by done].
    rewrite lookup_insert_eq. etrans; [done|]. apply union_least; [|apply Hv].
    by apply singleton_subseteq_l, event_key_in.
  - apply updateLogState_critical; [|done]. intros entries m r Hm. unfold mark_sent in Hm. ok_inv Hm.
    by simplify_eq.
  - apply updateLogState_critical; [|done]. intros entries m r Hm. unfold acknowledge in Hm. ok_inv Hm.
    destruct (_ <=? _); by simplify_eq.
Qed.

Lemma run_logs_vocab cs s :
  Forall cmd_event cs → logs_vocab (db_logs (st_db s)) → logs_vocab (db_logs (st_db (run_logs cs s))).
Proof using HC.
  revert s; induction cs as [|c cs IH]; intros s Hc Hv; [done|]. apply Forall_cons in Hc as [Hc Hcs].
  by apply IH, log_step_vocab.
Qed.

(** A payload always fits while the recorded critical events are of the
    vocabulary. *)
Lemma put_entry_fits id b meta seq payload critical truncated d :
  meta_ok (lb_entries b) meta → ll_Critical meta ⊆ event_keys → slen payload ≤ 256 →
  is_ok (put_entry id b meta seq payload critical truncated d) = true.
Proof.
  intros Hok Hsub Hp. unfold put_entry. pose proof (mo_reserve _ _ Hok) as Hres.
  pose proof (mo_limit _ _ Hok) as Hlim. pose proof (mo_bytes _ _ Hok) as Hby. pose proof (slen_nonneg payload).
  unfold Desired.DefaultLogLimitBytes in *.
  pose proof (subseteq_size _ _ Hsub) as Hsize. pose proof event_keys_size.
  rewrite to_uint64_id by lia. rewrite (proj2 (Z.ltb_ge _ _)); [done|].
  destruct (ll_Truncated meta); lia.
Qed.

Lemma append_body_fits id e d err :
  logs_ok (db_logs d) → logs_vocab (db_logs d) → append_body id e d = Err err →
  err ∈ ["log operation is unavailable"; "invalid local log entry"; "json"].
Proof using HC.
  intros Hlogs Hv Ha. specialize (Hv id). unfold append_body in Ha.
  unfold reject_if at 1 in Ha. destruct (bool_decide _); [set_solver|].
  set (bucket := default (mkLogBucket None ∅) (db_logs d !! id)) in *.
  destruct (from_option unmarshal _ _) as [meta|] eqn:Hr; cbn [rbind] in Ha.
  2:{ destruct (db_logs d !! id) as [b|] eqn:Hb; [|done]. destruct (Hlogs _ _ Hb) as (m & Hm & _).
      subst bucket. cbn in Hr. by rewrite Hm in Hr. }
  unfold reject_if at 1 in Ha. destruct (negb _); [set_solver|].
  set (meta' := if ll_Limit meta =? 0 then _ else _) in Ha.
  assert (Hm : meta_ok (lb_entries bucket) meta' ∧ ll_Critical meta' ⊆ event_keys).
  { subst bucket meta'. destruct (db_logs d !! id) as [b|] eqn:Hb; cbn in *.
    - destruct (Hlogs _ _ Hb) as (m & Hm & Hok). rewrite Hm in Hr. cbn in Hr. simplify_eq.
      destruct b as [? en]. cbn in *. subst. rewrite (proj2 (Z.eqb_neq _ _)); [done|]. destruct Hok. lia.
    - simplify_eq. cbn. split; [apply (meta_ok_zero d)|set_solver]. }
  clearbody meta'. destruct Hm as [Hok Hsub].
  destruct (_ && bool_decide _) in Ha; [done|]. unfold marshal in Ha.
  destruct (marshal_entry _) as [p|] eqn:Hp; cbn [rbind] in Ha; [|set_solver].
  apply marshal_entry_size in Hp. destruct (negb _ && _).
  - destruct (ll_Truncated meta'); [done|].
    destruct (marshal_entry (set_code _ _ _)) as [p'|] eqn:Hp'; cbn [rbind] in Ha; [|set_solver].
    apply marshal_entry_size in Hp'.
    pose proof (put_entry_fits id bucket meta' (to_uint64 (ll_Next meta + 1)) p' None true d Hok Hsub ltac:(lia)) as Hf.
    cbn [le_Sequence set_sequence] in Ha. by rewrite Ha in Hf.
  - match type of Ha with put_entry _ _ _ _ _ ?c ?t _ = _ =>
      pose proof (put_entry_fits id bucket meta' (to_uint64 (ll_Next meta + 1)) p c t d Hok Hsub ltac:(lia)) as Hf
    end. cbn [le_Sequence set_sequence] in Ha. by rewrite Ha in Hf.
Qed.
End Reserve.

(** The 16 KiB reserve of a log holds the marker and every critical event:
    from a store without logs, after any sequence of log operations whose
    entries carry the Agent's own vocabulary, an append of such an entry is
    never refused for exceeding the log limit; it fails only when the operation
    is unknown, the entry is malformed or the storage refuses the commit. *)
Theorem critical_events_fit `{C : LogCodec} `{!LogCodecLaws} (cs : list log_cmd) (s : State)
    (id : uuid) (e : BackupLogEntry) (err : string) :
  db_logs (st_db s) = ∅ → Forall cmd_event cs →
  (appendOperationLog id e (run_logs cs s)).1 = Err err →
  err ∈ ["log operation is unavailable"; "invalid local log entry"; "json"; "storage"].
Proof.
  intros Hs Hc. pose proof (run_logs_ok cs s) as Hok. pose proof (run_logs_vocab cs s Hc) as Hv.
  rewrite Hs in Hok, Hv. specialize (Hok (map_Forall_empty _)).
  specialize (Hv ltac:(intros ?; rewrite lookup_empty; set_solver)).
  unfold appendOperationLog, Update. set (s' := run_logs cs s) in *.
  destruct (append_body id e (st_db s')) as [[a d]|err'] eqn:Ha.
  - destruct (st_faults s') as [|[] fs]; cbn; intros; simplify_eq. set_solver.
  - cbn. intros. simplify_eq. pose proof (append_body_fits _ _ _ _ Hok Hv Ha). set_solver.
Qed.

(** ** Concrete instances *)

#[export] Instance toy_codec : LogCodec := {|
  marshal_entry e := Some ("{" +:+ String.substring 0 64 (le_Section e +:+ ":" +:+ le_Code e) +:+ "}");
  cursor_delete through m := filter (λ kv, through < Z.of_N kv.1) m |}.

Lemma substring_slen n s : slen (String.substring 0 n s) ≤ Z.of_nat n.
Proof.
  revert n; induction s as [|c s IH]; intros [|n]; unfold slen in *; cbn [String.substring String.length]; try lia.
  specialize (IH n). lia.
Qed.

#[export] Instance toy_codec_laws : LogCodecLaws.
Proof.
  split.
  - intros e p Hp. cbn [marshal_entry toy_codec] in Hp. injection Hp as <-. rewrite !slen_app.
    pose proof (substring_slen 64 (le_Section e +:+ ":" +:+ le_Code e)). pose proof (slen_nonneg (String.substring 0 64 (le_Section e +:+ ":" +:+ le_Code e))).
    change (slen "{") with 1. change (slen "}") with 1. lia.
  - intros. apply map_filter_subseteq.
  - intros through m k Hk. cbn. apply option_eq. intros v. rewrite map_lookup_filter_Some. naive_solver.
Qed.

Definition example_entry (code : string) : BackupLogEntry := mkLogEntry 0 second "backup" "INFO" code 0 0.
Definition example_cmds : list log_cmd :=
  [Append (v7 13) (example_entry "BACKUP_STARTED"); Append (v7 13) (example_entry "BACKUP_PROGRESS");
   Sent (v7 13) 1 (5 * second); Acked (v7 13) 1; Append (v7 13) (example_entry "BACKUP_SUCCEEDED")].
Definition example_log_start : State :=
  initial_state (set_operations {[v7 13 := Json (with_uploaded true (example_record 13 "SUCCEEDED" 3))]} empty_db) second.
Definition example_logs : State := run_logs example_cmds example_log_start.

Lemma logs_invariant_witness :
  logs_ok (db_logs (st_db example_log_start)) ∧ logs_ok (db_logs (st_db example_logs)).
Proof. split; [apply map_Forall_empty|]. apply (logs_invariant example_cmds example_log_start), map_Forall_empty. Defined.

Lemma example_logs_dom : dom (db_logs (st_db example_logs)) = {[v7 13]}.
Proof. vm_compute. reflexivity. Qed.

Lemma pendingLogs_complete_witness :
  ∃ chunks, pendingLogs (40 * second) false example_logs = (Ok chunks, example_logs) ∧
    pc_OperationID <$> chunks = [v7 13] ∧ Forall (chunk_ok (db_logs (st_db example_logs))) chunks.
Proof.
  destruct (pendingLogs_complete (40 * second) false example_logs) as (chunks & H1 & H2 & H3).
  - apply run_logs_ok, map_Forall_empty.
  - intros id Hid. apply elem_of_dom in Hid. rewrite example_logs_dom in Hid.
    apply elem_of_singleton in Hid as ->. eexists. vm_compute. reflexivity.
  - exists chunks. split; [exact H1|]. split; [|exact H3]. rewrite H2. vm_compute. reflexivity.
Defined.

Lemma critical_events_fit_witness :
  (appendOperationLog (v7 99) (example_entry "CANCELED") example_logs).1 = Err "log operation is unavailable" ∧
  "log operation is unavailable" ∈ ["log operation is unavailable"; "invalid local log entry"; "json"; "storage"].
Proof.
  split; [by vm_compute|].
  apply (critical_events_fit example_cmds example_log_start (v7 99) (example_entry "CANCELED")); [done| |by vm_compute].
  repeat constructor; vm_compute; set_solver.
Defined.
