(* ===== verification/AgentConfig.v ===== *)
(** * AgentConfig: desired-state activation, internal/agent/config.go

    A snapshot from the control plane is decoded, validated, staged and then
    activated together with the runtimes of its plans in one transaction. *)

From S2P Require Import Prelude GoStd Uuid Platform Domain Plan Schedule DomainLogs AgentStore.
Open Scope Z_scope.
Open Scope go_scope.
Open Scope agent_scope.

Import Execution.

(** ** The wire messages, as their generated getters read them *)

Record ProtoPlan := mkProtoPlan {
  pp_PlanId : string;
  pp_Revision : Z;
  pp_Name : string;
  pp_RepositoryId : string;
  pp_HostId : string;
  pp_Cron : string;
  pp_Timezone : string;
  pp_JitterSeconds : Z;
  pp_MisfireGraceSeconds : Z;
  pp_ConcurrencyPolicy : string;
  pp_Paths : list string;
  pp_ExcludePatterns : list string;
  pp_ExcludeCaches : bool;
  pp_OneFileSystem : bool;
  pp_ConfigHash : string;
  pp_ExecutionConfigJson : string }.

(** [sn_GeneratedAt] is [Some t] for a present and valid timestamp. *)
Record Snapshot := mkSnapshot {
  sn_Revision : Z;
  sn_GeneratedAt : option time;
  sn_ConfigHash : string;
  sn_RuntimePolicy : option RuntimePolicy;
  sn_Plans : list ProtoPlan }.

(** [json.Marshal] of the canonical document; the strict JSON decoder of an
    execution configuration ([None]: error; the flag says whether the input
    ended after the first value); and what the loop that deletes at a bbolt
    cursor leaves of the runtime bucket, given the keys to keep. *)
Class ConfigCodec := {
  marshal_plans : list PlanSchedule → RuntimePolicy → string;
  decode_execution : string → option (option BackupExecution * bool);
  cursor_prune : (uuid → bool) → gmap uuid (cell PlanRuntime) → gmap uuid (cell PlanRuntime) }.

Class ConfigCodecLaws `{C : ConfigCodec} : Prop := {
  cursor_prune_keeps : ∀ keep m k, keep k = true → cursor_prune keep m !! k = m !! k;
  cursor_prune_subset : ∀ keep m, cursor_prune keep m ⊆ m }.

Section Config.
Context `{U : UuidPkg} `{P : Platform} `{C : ConfigCodec}.
(** The identities of the local hooks, fixed when the Agent starts. *)
Context (hooks : gset uuid).

Definition ActiveDesiredState : M (option DesiredState) :=
  View (λ d, match db_active d with
             | None => Ok None
             | Some c => let! s := unmarshal c in Ok (Some s)
             end).

Definition AcceptedRevision : M Z :=
  let* state := ActiveDesiredState in ret (from_option ds_Revision 0 state).

(** *** Decoding *)

Definition execution_from_json (raw : string) : result DesiredStateError (option BackupExecution) :=
  if slen raw =? 0 then Ok None
  else
    let invalid := mkDesiredStateError "PLAN_EXECUTION_INVALID" "plans.execution" in
    reject 16 * 2 ^ 10 <? slen raw as invalid ;;
    match decode_execution raw with
    | Some (Some execution, ended) =>
        reject negb (is_ok (Execution.ValidateExecution (Some execution))) as invalid ;;
        reject negb ended as invalid ;;
        Ok (Some execution)
    | _ => Err invalid
    end.

Definition parse_id (raw code path : string) : result DesiredStateError uuid :=
  match Parse raw with Some id => Ok id | None => Err (mkDesiredStateError code path) end.

Definition plan_from_proto (plan : ProtoPlan) : result DesiredStateError PlanSchedule :=
  let! planID := parse_id (pp_PlanId plan) "PLAN_ID_INVALID" "plans.plan_id" in
  let! repositoryID := parse_id (pp_RepositoryId plan) "PLAN_REPOSITORY_INVALID" "plans.repository_id" in
  let! hostID := parse_id (pp_HostId plan) "PLAN_HOST_INVALID" "plans.host_id" in
  let! execution := execution_from_json (pp_ExecutionConfigJson plan) in
  Ok (mkPlanSchedule planID (pp_Revision plan) (pp_Name plan) hostID repositoryID (pp_Cron plan)
        (pp_Timezone plan) (pp_JitterSeconds plan) (pp_MisfireGraceSeconds plan)
        (pp_ConcurrencyPolicy plan) (pp_Paths plan) (pp_ExcludePatterns plan) (pp_ExcludeCaches plan)
        (pp_OneFileSystem plan) (pp_ConfigHash plan) execution).

Fixpoint plans_from_proto (plans : list ProtoPlan) : result DesiredStateError (list PlanSchedule) :=
  match plans with
  | [] => Ok []
  | p :: ps => let! plan := plan_from_proto p in let! rest := plans_from_proto ps in Ok (plan :: rest)
  end.

Definition desiredStateFromProto (agentID : uuid) (snapshot : option Snapshot) :
    result DesiredStateError DesiredState :=
  match snapshot with
  | Some (mkSnapshot revision (Some generatedAt) hash (Some policy) plans) =>
      let! plans := plans_from_proto plans in
      let state := mkDesiredState agentID revision generatedAt hash policy plans in
      let! _ := Desired.ValidateDesired marshal_plans state in
      Ok state
  | _ => Err (mkDesiredStateError "SNAPSHOT_INVALID" "")
  end.

(** *** Results for the control plane *)

Definition acceptedConfigResult (state : DesiredState) : PendingConfigResult :=
  mkConfigResult (ds_Revision state) (ds_ConfigHash state) true "" "".

Definition rejectedConfigResult (snapshot : option Snapshot) (err : DesiredStateError) : PendingConfigResult :=
  mkConfigResult (from_option sn_Revision 0 snapshot) "" false (de_Code err) (de_FieldPath err).

(** [PendingConfigResult.Validate]: [true] for nil. *)
Definition ValidateConfigResult (r : PendingConfigResult) : bool :=
  negb (cr_Revision r <? 1) && negb (cr_Accepted r && (cr_ConfigHash r == "")) &&
  negb (negb (cr_Accepted r) && (cr_ErrorCode r == "")).

Definition storePendingConfigResult (r : PendingConfigResult) : M () :=
  Update (λ d, Ok ((), set_outbound (Some (Json r)) d)).

Definition PendingConfigResult_ : M (option PendingConfigResult) :=
  View (λ d, match db_outbound d with
             | None => Ok None
             | Some c => let! r := unmarshal c in Ok (Some r)
             end).

Definition ClearPendingConfigResult (revision : Z) : M () :=
  Update (λ d, match db_outbound d with
               | None => Ok ((), d)
               | Some c =>
                   let! r := unmarshal c in
                   if cr_Revision r != revision then Ok ((), d) else Ok ((), set_outbound None d)
               end).

(** *** Reconciling the plan runtimes *)

Definition spec_of (plan : PlanSchedule) : Spec :=
  mkSpec (ps_Cron plan) (ps_Timezone plan) (ps_JitterSeconds plan) (ps_MisfireGraceSeconds plan)
    (ps_ConcurrencyPolicy plan).

Definition same_schedule (old plan : PlanSchedule) : bool :=
  (ps_Revision old == ps_Revision plan) && (ps_ConfigHash old == ps_ConfigHash plan) &&
  (ps_Cron old == ps_Cron plan) && (ps_Timezone old == ps_Timezone plan) &&
  (ps_JitterSeconds old == ps_JitterSeconds plan).

Definition plans_by_id (plans : list PlanSchedule) : gmap uuid PlanSchedule :=
  foldl (λ m p, <[ps_PlanID p := p]> m) ∅ plans.

Definition reconcile_plan (oldPlans : gmap uuid PlanSchedule) (now : time)
    (bucket : gmap uuid (cell PlanRuntime)) (plan : PlanSchedule) :
    result string (gmap uuid (cell PlanRuntime)) :=
  let! runtime := from_option unmarshal (Ok zero_runtime) (bucket !! ps_PlanID plan) in
  let! next :=
    if match oldPlans !! ps_PlanID plan with Some old => same_schedule old plan | None => false end
    then Ok (pr_NextRunAt runtime)
    else let! clock := New (ps_PlanID plan) (spec_of plan) in Ok (default zero_time (NextRun clock now)) in
  Ok (<[ps_PlanID plan :=
        Json (mkPlanRuntime (ps_PlanID plan) (ps_Revision plan) (ps_ConfigHash plan)
                (pr_LastScheduledAt runtime) next (pr_LastOperationID runtime))]> bucket).

Fixpoint reconcile_plans (oldPlans : gmap uuid PlanSchedule) (now : time)
    (bucket : gmap uuid (cell PlanRuntime)) (plans : list PlanSchedule) :
    result string (gmap uuid (cell PlanRuntime)) :=
  match plans with
  | [] => Ok bucket
  | p :: ps => let! bucket := reconcile_plan oldPlans now bucket p in reconcile_plans oldPlans now bucket ps
  end.

Definition plan_ids (s : DesiredState) : list uuid := ps_PlanID <$> ds_Plans s.

Definition reconcilePlanRuntimes (previous : option DesiredState) (next : DesiredState) (now : time)
    (bucket : gmap uuid (cell PlanRuntime)) : result string (gmap uuid (cell PlanRuntime)) :=
  let! bucket := reconcile_plans (plans_by_id (from_option ds_Plans [] previous)) now bucket (ds_Plans next) in
  Ok (cursor_prune (λ id, bool_decide (id ∈ plan_ids next)) bucket).

(** *** Activation *)

Definition validateHooks (execution : option BackupExecution) : bool :=
  match execution with
  | None => true
  | Some e => forallb (λ id, bool_decide (id ∈ hooks)) (PreHookIDs e ++ PostHookIDs e)
  end.

Definition checked_state (agentID : uuid) (snapshot : option Snapshot) :
    result DesiredStateError DesiredState :=
  let! state := desiredStateFromProto agentID snapshot in
  reject negb (forallb (λ plan, validateHooks (ps_Execution plan)) (ds_Plans state))
    as mkDesiredStateError "HOOK_UNAVAILABLE" "plans.execution" ;;
  Ok state.

Definition store_result (r : PendingConfigResult) : M PendingConfigResult :=
  let* _ := storePendingConfigResult r in ret r.

Definition activate (now : time) (active : option DesiredState) (state : DesiredState) : M PendingConfigResult :=
  let* _ := Update (λ d, Ok ((), set_staging (Some (Json state)) d)) in
  let result := acceptedConfigResult state in
  let* _ := Update (λ d,
    let! runtimes := reconcilePlanRuntimes active state now (db_runtimes d) in
    Ok ((), set_staging None (set_outbound (Some (Json result))
              (set_active (Some (Json state)) (set_runtimes runtimes d))))) in
  ret result.

Definition ApplyDesiredState (now : time) (agentID : uuid) (snapshot : option Snapshot) :
    M PendingConfigResult :=
  match checked_state agentID snapshot with
  | Err err =>
      let result := rejectedConfigResult snapshot err in
      if cr_Revision result <? 1 then fail (de_Code err) else store_result result
  | Ok state =>
      let* active := ActiveDesiredState in
      match active with
      | Some a =>
          if ds_Revision state <? ds_Revision a
          then store_result (rejectedConfigResult snapshot (mkDesiredStateError "REVISION_ROLLBACK" "revision"))
          else if ds_Revision state =? ds_Revision a then
            if ds_ConfigHash state != ds_ConfigHash a
            then store_result (rejectedConfigResult snapshot (mkDesiredStateError "REVISION_CONFLICT" "config_hash"))
            else store_result (acceptedConfigResult state)
          else activate now active state
      | None => activate now None state
      end
  end.
End Config.

(** ** Lemmas *)

Section ConfigFacts.
Context `{U : UuidPkg} `{P : Platform} `{C : ConfigCodec} `{HC : !ConfigCodecLaws}.
Context (hooks : gset uuid).

(** The runtime activation leaves for a plan, given the bucket before it. *)
Definition runtime_for (oldPlans : gmap uuid PlanSchedule) (now : time) (bucket : gmap uuid (cell PlanRuntime))
    (plan : PlanSchedule) (rt : PlanRuntime) : Prop :=
  ∃ rt0, from_option unmarshal (Ok zero_runtime) (bucket !! ps_PlanID plan) = Ok rt0 ∧
    pr_PlanID rt = ps_PlanID plan ∧ pr_PlanRevision rt = ps_Revision plan ∧
    pr_ConfigHash rt = ps_ConfigHash plan ∧ pr_LastScheduledAt rt = pr_LastScheduledAt rt0 ∧
    pr_LastOperationID rt = pr_LastOperationID rt0 ∧
    if match oldPlans !! ps_PlanID plan with Some old => same_schedule old plan | None => false end
    then pr_NextRunAt rt = pr_NextRunAt rt0
    else ∃ clock, New (ps_PlanID plan) (spec_of plan) = Ok clock ∧
           pr_NextRunAt rt = default zero_time (NextRun clock now).

Lemma reconcile_plan_spec old now b plan b' :
  reconcile_plan old now b plan = Ok b' →
  ∃ rt, runtime_for old now b plan rt ∧ b' = <[ps_PlanID plan := Json rt]> b.
Proof.
  unfold reconcile_plan, runtime_for. intros Hr. ok_inv Hr. injection Hr as <-.
  eexists. split; [|done]. eexists. split; [done|]. cbn. split_and!; try done.
  destruct (match _ !! _ with Some _ => _ | None => _ end); [by simplify_eq|].
  ok_inv Hr1. simplify_eq. eauto.
Qed.

Lemma reconcile_plans_spec old now b plans b' :
  NoDup (ps_PlanID <$> plans) → reconcile_plans old now b plans = Ok b' →
  (∀ plan, plan ∈ plans → ∃ rt, runtime_for old now b plan rt ∧ b' !! ps_PlanID plan = Some (Json rt)) ∧
  (∀ id, id ∉ ps_PlanID <$> plans → b' !! id = b !! id).
Proof using HC.
  revert b; induction plans as [|p plans IH]; intros b Hnd Hr; cbn [reconcile_plans] in Hr.
  { simplify_eq. split; [set_solver|done]. }
  rewrite fmap_cons, NoDup_cons in Hnd. destruct Hnd as [Hp Hnd]. ok_inv Hr.
  apply reconcile_plan_spec in Hr0 as (rt & Hrt & ->).
  destruct (IH _ Hnd Hr) as [Hin Hout]. split.
  - intros plan [->|Hplan]%elem_of_cons.
    + exists rt. split; [done|]. rewrite Hout by done. by rewrite lookup_insert_eq.
    + destruct (Hin plan Hplan) as (rt' & Hrt' & Hl). exists rt'. split; [|done].
      assert (ps_PlanID plan ≠ ps_PlanID p) as Hne.
      { intros Heq. apply Hp. rewrite <- Heq. apply list_elem_of_fmap. eauto. }
      unfold runtime_for in *. by rewrite lookup_insert_ne in Hrt' by done.
  - intros id Hid. rewrite fmap_cons, not_elem_of_cons in Hid. rewrite Hout by tauto.
    by rewrite lookup_insert_ne by naive_solver.
Qed.

Lemma reconcilePlanRuntimes_spec previous next now b b' :
  NoDup (plan_ids next) → reconcilePlanRuntimes previous next now b = Ok b' →
  ∀ plan, plan ∈ ds_Plans next → ∃ rt,
    runtime_for (plans_by_id (from_option ds_Plans [] previous)) now b plan rt ∧
    b' !! ps_PlanID plan = Some (Json rt).
Proof using HC.
  unfold reconcilePlanRuntimes. intros Hnd Hr plan Hplan. ok_inv Hr. injection Hr as <-.
  destruct (reconcile_plans_spec _ _ _ _ _ Hnd Hr0) as [Hin _].
  destruct (Hin plan Hplan) as (rt & Hrt & Hl). exists rt. split; [done|].
  rewrite cursor_prune_keeps; [done|]. apply bool_decide_eq_true, list_elem_of_fmap. eauto.
Qed.

Definition active_revision (d : db) : Z :=
  match db_active d with Some (Json st) => ds_Revision st | _ => 0 end.

Lemma checked_state_ok aid snap state :
  checked_state hooks aid snap = Ok state →
  Desired.ValidateDesired marshal_plans state = Ok () ∧ ds_AgentID state = aid ∧
  1 ≤ ds_Revision state ∧ from_option sn_Revision 0 snap = ds_Revision state.
Proof.
  unfold checked_state. intros Hc. ok_inv Hc. simplify_eq.
  unfold desiredStateFromProto in Hr. destruct snap as [[rev [g|] h [p|] plans]|]; try done.
  ok_inv Hr. simplify_eq. cbn. destruct a0. split; [done|]. split; [done|]. split; [|done].
  unfold Desired.ValidateDesired in Hr1. ok_inv Hr1. bool_prop. cbn in *. lia.
Qed.

(** [r] is a plain write of a pending result, or of the staging area. *)
Definition same_config (d d' : db) : Prop := db_active d' = db_active d ∧ db_runtimes d' = db_runtimes d.

Lemma Update_rel {A} (R : db → db → Prop) (f : db → result string (A * db)) s :
  (∀ d, R d d) → (∀ a d, f (st_db s) = Ok (a, d) → R (st_db s) d) → R (st_db s) (st_db (Update f s).2).
Proof.
  intros Hrefl Hf. unfold Update. destruct (f (st_db s)) as [[a d]|e] eqn:Hd; [|done].
  destruct (st_faults s) as [|[] fs]; cbn; eauto.
Qed.

Lemma store_result_same r s : same_config (st_db s) (st_db (store_result r s).2).
Proof.
  unfold store_result, bind, storePendingConfigResult.
  pose proof (Update_rel same_config (λ d, Ok ((), set_outbound (Some (Json r)) d)) s
    ltac:(done) ltac:(intros [] d Hd; cbn in Hd; by simplify_eq)) as H.
  by destruct (Update _ s) as [[] s'].
Qed.

(** What activation changes: nothing active, or the new state with its
    reconciled runtimes. *)
Definition activated (now : time) (active : option DesiredState) (state : DesiredState) (d d' : db) : Prop :=
  db_active d' = Some (Json state) ∧ reconcilePlanRuntimes active state now (db_runtimes d) = Ok (db_runtimes d').

Lemma activate_cases now active state s :
  same_config (st_db s) (st_db (activate now active state s).2) ∨
  activated now active state (st_db s) (st_db (activate now active state s).2).
Proof.
  unfold activate, bind.
  pose proof (Update_rel same_config (λ d, Ok ((), set_staging (Some (Json state)) d)) s
    ltac:(done) ltac:(intros [] d Hd; cbn in Hd; by simplify_eq)) as [Ha Hrt].
  destruct (Update _ s) as [[[]|e] s1]; cbn [snd] in *; [|by left].
  set (f := λ d, _ : result string (() * db)).
  pose proof (Update_rel (λ d d', same_config d d' ∨ activated now active state d d') f s1) as H.
  specialize (H ltac:(by left)). destruct H as [[H1 H2]|[H1 H2]].
  - intros [] d Hd. right. unfold f in Hd. ok_inv Hd. simplify_eq. done.
  - left. destruct (Update f s1) as [[[]|e] s2]; unfold ret in *; cbn [snd] in *; split; congruence.
  - right. destruct (Update f s1) as [[[]|e] s2]; unfold ret in *; cbn [snd] in *; split; congruence.
Qed.

Lemma ApplyDesiredState_cases now aid snap s :
  let s' := (ApplyDesiredState hooks now aid snap s).2 in
  same_config (st_db s) (st_db s') ∨
  ∃ active state, checked_state hooks aid snap = Ok state ∧ active_revision (st_db s) < ds_Revision state ∧
    active = match db_active (st_db s) with Some (Json st) => Some st | _ => None end ∧
    activated now active state (st_db s) (st_db s').
Proof.
  cbn. unfold ApplyDesiredState, active_revision.
  destruct (checked_state hooks aid snap) as [state|err] eqn:Hc.
  2:{ left. destruct (_ <? _); [done|apply store_result_same]. }
  destruct (checked_state_ok _ _ _ Hc) as (_ & _ & Hrev & _).
  unfold bind, ActiveDesiredState, View.
  destruct (db_active (st_db s)) as [[a|]|] eqn:Ha; cbn [unmarshal rbind]; [|by left|].
  - destruct (ds_Revision state <? ds_Revision a) eqn:H1; [left; apply store_result_same|].
    destruct (ds_Revision state =? ds_Revision a) eqn:H2.
    { left. destruct (ds_ConfigHash state != _); apply store_result_same. }
    bool_prop. destruct (activate_cases now (Some a) state s) as [?|?]; [by left|right].
    exists (Some a), state. split_and!; try done. lia.
  - destruct (activate_cases now None state s) as [?|?]; [by left|right].
    exists None, state. split_and!; try done. lia.
Qed.

(** *** Histories *)

Definition apply_cmd : Type := time * uuid * option Snapshot.

Definition run_apply (cs : list apply_cmd) (s : State) : State :=
  foldl (λ s c, (ApplyDesiredState hooks c.1.1 c.1.2 c.2 s).2) s cs.

(** Every active plan has a runtime of its own revision and content. *)
Definition runtimes_match (d : db) : Prop :=
  ∀ st, db_active d = Some (Json st) → ∀ plan, plan ∈ ds_Plans st →
    ∃ rt, db_runtimes d !! ps_PlanID plan = Some (Json rt) ∧
      pr_PlanRevision rt = ps_Revision plan ∧ pr_ConfigHash rt = ps_ConfigHash plan.

(** The plans of a snapshot have distinct identities. *)
Definition distinct_plans (c : apply_cmd) : Prop :=
  ∀ st, desiredStateFromProto c.1.2 c.2 = Ok st → NoDup (plan_ids st).

Definition config_advances (d d' : db) : Prop :=
  active_revision d ≤ active_revision d' ∧
  (active_revision d = active_revision d' → db_active d' = db_active d).

Lemma apply_step c s :
  distinct_plans c →
  let s' := (ApplyDesiredState hooks c.1.1 c.1.2 c.2 s).2 in
  config_advances (st_db s) (st_db s') ∧ (runtimes_match (st_db s) → runtimes_match (st_db s')).
Proof using HC.
  destruct c as [[now aid] snap]. cbn. intros Hd.
  destruct (ApplyDesiredState_cases now aid snap s) as [[Ha Hr]|(active & state & Hc & Hlt & -> & Ha & Hr)].
  - split; [unfold config_advances, active_revision; by rewrite Ha|]. unfold runtimes_match. by rewrite Ha, Hr.
  - split.
    + unfold config_advances. assert (active_revision (st_db (ApplyDesiredState hooks now aid snap s).2) =
        ds_Revision state) as -> by (by unfold active_revision; rewrite Ha). lia.
    + intros _ st Hst plan Hplan. rewrite Ha in Hst. simplify_eq.
      unfold checked_state in Hc. ok_inv Hc. simplify_eq.
      destruct (reconcilePlanRuntimes_spec _ _ _ _ _ (Hd _ Hr0) Hr plan Hplan) as (rt & Hrt & Hl).
      destruct Hrt as (rt0 & _ & _ & ? & ? & _). eauto.
Qed.

Lemma config_advances_trans d1 d2 d3 :
  config_advances d1 d2 → config_advances d2 d3 → config_advances d1 d3.
Proof.
  intros [H1 E1] [H2 E2]. split; [lia|]. intros H. rewrite E2, E1 by lia. done.
Qed.

Lemma run_apply_step cs s :
  Forall distinct_plans cs →
  config_advances (st_db s) (st_db (run_apply cs s)) ∧
  (runtimes_match (st_db s) → runtimes_match (st_db (run_apply cs s))).
Proof using HC.
  revert s; induction cs as [|c cs IH]; intros s Hd; [by repeat split|].
  apply Forall_cons in Hd as [Hc Hd]. destruct (apply_step c s Hc) as [H1 H2].
  destruct (IH (ApplyDesiredState hooks c.1.1 c.1.2 c.2 s).2 Hd) as [H3 H4].
  split; [by eapply config_advances_trans|auto].
Qed.
End ConfigFacts.

Section Activation.
Context `{U : UuidPkg} `{P : Platform} `{C : ConfigCodec} `{HC : !ConfigCodecLaws}.
Context (hooks : gset uuid).

Lemma is_ok_unit {E} (r : result E ()) : is_ok r = true → r = Ok ().
Proof. by destruct r as [[]|]. Qed.

Lemma ValidatePlan_New p : Desired.ValidatePlan p = Ok () → is_ok (New (ps_PlanID p) (spec_of p)) = true.
Proof.
  unfold Desired.ValidatePlan. intros Hv. ok_inv Hv. bool_prop. unfold Execution.out_of_range in *. bool_prop.
  apply New_validated; cbn; [by apply is_ok_unit..|lia|lia].
Qed.

Lemma reconcile_plans_total old now b plans :
  Forall (λ p, Desired.ValidatePlan p = Ok ()) plans →
  (∀ id, b !! id ≠ Some Corrupt) → is_ok (reconcile_plans old now b plans) = true.
Proof.
  revert b; induction plans as [|p plans IH]; intros b Hv Hb; [done|].
  apply Forall_cons in Hv as [Hp Hv]. cbn [reconcile_plans].
  assert (is_ok (reconcile_plan old now b p) = true) as Hok.
  { unfold reconcile_plan. destruct (b !! ps_PlanID p) as [[rt|]|] eqn:Hl; [|by destruct (Hb (ps_PlanID p))|];
      cbn [from_option unmarshal rbind]; apply ValidatePlan_New in Hp;
      destruct (match old !! _ with Some _ => _ | None => _ end); cbn; try done;
      by destruct (New _ _). }
  destruct (reconcile_plan old now b p) as [b'|] eqn:Hr; [|done]. cbn [rbind].
  apply reconcile_plan_spec in Hr as (rt & _ & ->). apply IH; [done|].
  intros id. rewrite lookup_insert. by case_decide.
Qed.

Lemma Validate_plans st :
  Desired.ValidateDesired marshal_plans st = Ok () → Forall (λ p, Desired.ValidatePlan p = Ok ()) (ds_Plans st).
Proof.
  unfold Desired.ValidateDesired. intros Hv. ok_inv Hv. apply Desired.validate_plans_ok.
  match goal with H : Desired.validate_plans _ = Ok ?x |- _ => by destruct x end.
Qed.

Lemma reconcilePlanRuntimes_total previous next now b :
  Desired.ValidateDesired marshal_plans next = Ok () → (∀ id, b !! id ≠ Some Corrupt) →
  is_ok (reconcilePlanRuntimes previous next now b) = true.
Proof.
  intros Hv Hb. unfold reconcilePlanRuntimes.
  pose proof (reconcile_plans_total (plans_by_id (from_option ds_Plans [] previous)) now b (ds_Plans next)
    (Validate_plans _ Hv) Hb) as Hok.
  by destruct (reconcile_plans _ _ _ _).
Qed.

Lemma activate_ok now active state s :
  st_faults s = [] → Desired.ValidateDesired marshal_plans state = Ok () →
  (∀ id, db_runtimes (st_db s) !! id ≠ Some Corrupt) →
  ∃ rts, reconcilePlanRuntimes active state now (db_runtimes (st_db s)) = Ok rts ∧
    activate now active state s =
      (Ok (acceptedConfigResult state),
       set_db (set_staging None (set_outbound (Some (Json (acceptedConfigResult state)))
                 (set_active (Some (Json state)) (set_runtimes rts (st_db s))))) s).
Proof.
  intros Hf Hv Hb. pose proof (reconcilePlanRuntimes_total active state now _ Hv Hb) as Hok.
  destruct (reconcilePlanRuntimes active state now (db_runtimes (st_db s))) as [rts|] eqn:Hr; [|done].
  exists rts. split; [done|]. unfold activate, bind, Update. rewrite Hf. cbn. rewrite Hf, Hr. cbn. done.
Qed.
End Activation.

(** Configuration history. Over any sequence of snapshots, valid or not,
    from any control plane and with any storage failures in between, the
    active revision never decreases, an active revision is never replaced by
    different content, and every active plan keeps a runtime that carries that
    plan's own revision and content hash. *)
Theorem config_history `{U : UuidPkg} `{P : Platform} `{C : ConfigCodec} `{!ConfigCodecLaws}
    (hooks : gset uuid) (cs : list apply_cmd) (s : State) :
  Forall distinct_plans cs → runtimes_match (st_db s) →
  let s' := run_apply hooks cs s in
  active_revision (st_db s) ≤ active_revision (st_db s') ∧
  (active_revision (st_db s) = active_revision (st_db s') → db_active (st_db s') = db_active (st_db s)) ∧
  runtimes_match (st_db s').
Proof.
  intros Hd Hm. destruct (run_apply_step hooks cs s Hd) as [[H1 H2] H3]. cbn. auto.
Qed.

(** Activation. A snapshot that passes validation and is newer than the
    active state is activated whenever the storage works and the stored
    runtimes decode: it becomes the active state, the result for the control
    plane is the accepted revision and hash, the staging area is empty, and the
    runtime of each plan keeps the previous next run exactly when revision,
    content, cron, time zone and jitter are unchanged, and is otherwise due at
    the next run of the new schedule. *)
Theorem activation_spec `{U : UuidPkg} `{P : Platform} `{C : ConfigCodec} `{!ConfigCodecLaws}
    (hooks : gset uuid) (now : time) (agentID : uuid) (snapshot : option Snapshot) (state : DesiredState) (s : State) :
  checked_state hooks agentID snapshot = Ok state → NoDup (plan_ids state) →
  db_active (st_db s) ≠ Some Corrupt → active_revision (st_db s) < ds_Revision state →
  st_faults s = [] → (∀ id, db_runtimes (st_db s) !! id ≠ Some Corrupt) →
  ∃ s', ApplyDesiredState hooks now agentID snapshot s = (Ok (acceptedConfigResult state), s') ∧
    db_active (st_db s') = Some (Json state) ∧ db_staging (st_db s') = None ∧
    db_outbound (st_db s') = Some (Json (acceptedConfigResult state)) ∧
    db_operations (st_db s') = db_operations (st_db s) ∧
    ∀ plan, plan ∈ ds_Plans state → ∃ rt, db_runtimes (st_db s') !! ps_PlanID plan = Some (Json rt) ∧
      runtime_for
        (plans_by_id (match db_active (st_db s) with Some (Json old) => ds_Plans old | _ => [] end)) now
        (db_runtimes (st_db s)) plan rt.
Proof.
  intros Hc Hnd Ha Hlt Hf Hb. destruct (checked_state_ok _ _ _ _ Hc) as (Hv & _ & Hrev & _).
  unfold ApplyDesiredState. rewrite Hc. unfold bind, ActiveDesiredState, View, active_revision in *.
  destruct (db_active (st_db s)) as [[old|]|] eqn:Hact; [|done|]; cbn [unmarshal rbind].
  - rewrite (proj2 (Z.ltb_ge _ _)), (proj2 (Z.eqb_neq _ _)) by lia.
    destruct (activate_ok now (Some old) state s Hf Hv Hb) as (rts & Hr & ->).
    eexists. split_and!; [done..|]. intros plan Hplan. cbn.
    destruct (reconcilePlanRuntimes_spec _ _ _ _ _ Hnd Hr plan Hplan) as (rt & ? & ?). eauto.
  - destruct (activate_ok now None state s Hf Hv Hb) as (rts & Hr & ->).
    eexists. split_and!; [done..|]. intros plan Hplan. cbn.
    destruct (reconcilePlanRuntimes_spec _ _ _ _ _ Hnd Hr plan Hplan) as (rt & ? & ?). eauto.
Qed.

(** ** Concrete instances *)

#[export] Instance toy_config : ConfigCodec := {|
  marshal_plans plans policy := "plans:" +:+ Itoa (Z.of_nat (length plans));
  decode_execution raw := None;
  cursor_prune keep m := filter (λ kv, keep kv.1 = true) m |}.

#[export] Instance toy_config_laws : ConfigCodecLaws.
Proof.
  split.
  - intros keep m k Hk. cbn. apply option_eq. intros v. rewrite map_lookup_filter_Some. naive_solver.
  - intros. apply map_filter_subseteq.
Qed.

Definition example_plan (n : N) (cron : string) : ProtoPlan :=
  mkProtoPlan (UString (v7 n)) 1 "nightly" (UString (v7 901)) (UString (v7 902)) cron "UTC" 0 3600 "FORBID"
    ["/srv"] [] false false "hash" "".
Definition example_snapshot (revision : Z) (plans : list ProtoPlan) : option Snapshot :=
  Some (mkSnapshot revision (Some second)
    ("sha256:" +:+ hex_encode (Sum256 ("plans:" +:+ Itoa (Z.of_nat (length plans)))))
    (Some (mkRuntimePolicy 2 (2 ^ 20))) plans).

Definition example_cs : list apply_cmd :=
  [(time_of_unix 1000, v7 900, example_snapshot 3 [example_plan 1 "0 3 * * *"]);
   (time_of_unix 2000, v7 900, example_snapshot 2 []);
   (time_of_unix 3000, v7 900, example_snapshot 4 [example_plan 1 "0 3 * * *"; example_plan 2 "*/5 * * * *"])].
Definition example_config : State := run_apply ∅ example_cs (initial_state empty_db second).

Definition desired_of (c : apply_cmd) : option DesiredState :=
  match desiredStateFromProto c.1.2 c.2 with Ok st => Some st | Err _ => None end.

Lemma distinct_plans_computed c :
  match desired_of c with Some st => bool_decide (NoDup (plan_ids st)) | None => true end = true → distinct_plans c.
Proof. unfold desired_of, distinct_plans. intros H st Hst. rewrite Hst in H. by bool_prop. Qed.

Lemma config_history_witness :
  active_revision (st_db example_config) = 4 ∧ 0 ≤ active_revision (st_db example_config) ∧
  runtimes_match (st_db example_config).
Proof.
  split; [vm_compute; reflexivity|].
  destruct (config_history ∅ example_cs (initial_state empty_db second)) as (H1 & _ & H3).
  - repeat constructor; apply distinct_plans_computed; vm_compute; reflexivity.
  - intros st Hst. discriminate Hst.
  - split; [exact H1|exact H3].
Defined.

Lemma activation_spec_witness :
  ∃ state s', ApplyDesiredState ∅ (time_of_unix 1000) (v7 900) (example_snapshot 3 [example_plan 1 "0 3 * * *"])
      (initial_state empty_db second) = (Ok (acceptedConfigResult state), s') ∧
    db_active (st_db s') = Some (Json state).
Proof.
  destruct (checked_state ∅ (v7 900) (example_snapshot 3 [example_plan 1 "0 3 * * *"])) as [state|] eqn:Hc;
    [|vm_compute in Hc; discriminate Hc].
  assert (Hst : NoDup (plan_ids state) ∧ ds_Revision state = 3).
  { revert Hc. vm_compute. intros Hc. injection Hc as <-. split; [|reflexivity].
    apply NoDup_singleton. }
  destruct (activation_spec ∅ (time_of_unix 1000) (v7 900)
    (example_snapshot 3 [example_plan 1 "0 3 * * *"]) state (initial_state empty_db second))
    as (s' & H1 & H2 & _); [exact Hc|apply Hst|done| |done| |].
  - rewrite (proj2 Hst). reflexivity.
  - intros id. cbn. by rewrite lookup_empty.
  - exists state, s'. split; [exact H1|exact H2].
Defined.
