(* ===== verification/AgentScheduler.v ===== *)
(** * AgentScheduler: the local scheduler, internal/agent/scheduler.go

    [tickScheduler] runs under [schedulerMu]; it is modelled as a frame that
    walks the plans one at a time, so that worker goroutines, which do not take
    that lock, can move between two plans. *)

From S2P Require Import Prelude GoStd Uuid Platform Domain Plan Schedule DomainLogs AgentStore AgentLogs AgentConfig.
Import Execution.
Open Scope Z_scope.
Open Scope go_scope.
Open Scope agent_scope.

Definition to_uint32 (z : Z) : Z := z mod 2 ^ 32.

(** A scheduler record before its run: [OperationRecord{ID: ..., ...}]. *)
Definition slot_record (id : uuid) (plan : PlanSchedule) (scheduled started finished : time)
    (status code : string) : OperationRecord :=
  mkOperationRecord id (ps_PlanID plan) (ps_Revision plan) (ps_ConfigHash plan) scheduled started finished
    status 0 code "" 0 0 0 0 0 0 false zero_time uuid_Nil uuid_Nil 0 zero_time zero_time None.

Section Scheduling.
Context `{U : UuidPkg} `{P : Platform} `{L : LogCodec}.

(** [executeOperation] up to the [go] statement; the goroutine is a worker. *)
Definition executeOperation (ctx_canceled : bool) (plan : PlanSchedule) (record : OperationRecord)
    (deadline : time) : M () :=
  let* _ := BeginOperation ctx_canceled (or_ID record) in
  modify (λ s, set_workers
    (<[or_ID record := mkWorker Starting plan record deadline [or_ID record]]> (st_workers s)) s).

Definition with_next (next : time) (rt : PlanRuntime) : PlanRuntime :=
  mkPlanRuntime (pr_PlanID rt) (pr_PlanRevision rt) (pr_ConfigHash rt) (pr_LastScheduledAt rt) next
    (pr_LastOperationID rt).

(** The last part of [advancePlan]: the slot is due and was never recorded. *)
Definition admit_slot (ctx_canceled : bool) (plan : PlanSchedule) (now scheduled : time)
    (runningByPlan : gset uuid) (runtime : PlanRuntime) (operationID : uuid) : M (gset uuid) :=
  let* s := get in
  let normalWakeup := negb (IsZero (st_tickAt s)) && negb (Before scheduled (st_tickAt s)) &&
    (Sub now (st_tickAt s) <=? st_interval s + second) in
  if negb normalWakeup && bool_decide (DecideMisfire now scheduled (ps_MisfireGraceSeconds plan) = ReportMissed)
  then
    let* _ := PutOperationWithRuntime
      (slot_record operationID plan scheduled zero_time now "MISSED" "MISFIRE_GRACE_EXCEEDED") runtime in
    ret runningByPlan
  else
    let deadline := Add scheduled (24 * hour) in
    let deadline := if Before deadline now then Add now (24 * hour) else deadline in
    if ConcurrencySkip (ps_ConcurrencyPolicy plan) (bool_decide (ps_PlanID plan ∈ runningByPlan))
    then
      let* _ := PutOperationWithRuntime
        (slot_record operationID plan scheduled zero_time now "CONCURRENCY_SKIPPED" "CONCURRENCY_SKIPPED")
        runtime in
      ret runningByPlan
    else
      let record := slot_record operationID plan scheduled now zero_time "RUNNING" "" in
      let runtime := mkPlanRuntime (pr_PlanID runtime) (pr_PlanRevision runtime) (pr_ConfigHash runtime)
        (pr_LastScheduledAt runtime) (pr_NextRunAt runtime) operationID in
      let* _ := PutOperationWithRuntime record runtime in
      let* _ := executeOperation ctx_canceled plan record deadline in
      ret ({[ps_PlanID plan]} ∪ runningByPlan).

Definition advancePlan (ctx_canceled : bool) (plan : PlanSchedule) (now : time) (runningByPlan : gset uuid) :
    M (gset uuid) :=
  match New (ps_PlanID plan) (spec_of plan) with
  | Err e => fail e
  | Ok scheduler =>
      let* found := PlanRuntime_ (ps_PlanID plan) in
      let runtime0 := default zero_runtime found in
      let changed := (pr_PlanRevision runtime0 != 0) &&
        ((pr_PlanRevision runtime0 != ps_Revision plan) || (pr_ConfigHash runtime0 != ps_ConfigHash plan)) in
      let runtime := mkPlanRuntime (ps_PlanID plan) (ps_Revision plan) (ps_ConfigHash plan)
        (pr_LastScheduledAt runtime0) (pr_NextRunAt runtime0) (pr_LastOperationID runtime0) in
      if bool_decide (found = None) || IsZero (pr_NextRunAt runtime) || changed
      then
        let* _ := PutPlanRuntime (with_next (default (pr_NextRunAt runtime) (NextRun scheduler now)) runtime) in
        ret runningByPlan
      else if Before now (pr_NextRunAt runtime) then ret runningByPlan
      else
        let scheduled := pr_NextRunAt runtime in
        let runtime := mkPlanRuntime (pr_PlanID runtime) (pr_PlanRevision runtime) (pr_ConfigHash runtime)
          scheduled (default zero_time (NextRun scheduler now)) (pr_LastOperationID runtime) in
        let operationID := OperationID (ps_PlanID plan) scheduled in
        let* existing := Operation operationID in
        match existing with
        | Some _ => let* _ := PutPlanRuntime runtime in ret runningByPlan
        | None => admit_slot ctx_canceled plan now scheduled runningByPlan runtime operationID
        end
  end.

(** *** The tick, plan by plan *)

(** The local variables of a running [tickScheduler]. *)
Record TickFrame := mkFrame {
  tf_now : time;
  tf_desired : DesiredState;
  tf_running : gset uuid;
  tf_todo : list PlanSchedule }.

(** Up to the loop; no frame when it returns early. *)
Definition tick_begin (now : time) : M (option TickFrame) :=
  let* desired := ActiveDesiredState in
  match desired with
  | None => ret None
  | Some desired =>
      let* running := RunningOperations in
      ret (Some (mkFrame now desired (list_to_set (or_PlanID <$> running)) (ds_Plans desired)))
  end.

(** One iteration of the loop. *)
Definition tick_plan (ctx_canceled : bool) (f : TickFrame) (plan : PlanSchedule) : M (gset uuid) :=
  let* current := RunningOperations in
  if (MaxParallelIOJobs (ds_RuntimePolicy (tf_desired f)) <=? to_uint32 (Z.of_nat (length current))) &&
     negb (ConcurrencySkip (ps_ConcurrencyPolicy plan) (bool_decide (ps_PlanID plan ∈ tf_running f)))
  then ret (tf_running f)
  else
    let* advanced := attempt (advancePlan ctx_canceled plan (tf_now f) (tf_running f)) in
    ret (match advanced with Ok running => running | Err _ => tf_running f end).

(** *** Finishing an attempt *)

Definition is_current (plan candidate : PlanSchedule) : bool :=
  (ps_PlanID candidate == ps_PlanID plan) && (ps_Revision candidate == ps_Revision plan) &&
  (ps_ConfigHash candidate == ps_ConfigHash plan).

(** The retry policy that applies to a finished attempt, if any. *)
Definition retry_policy (plan : PlanSchedule) (record : OperationRecord) (allowRetry : bool) :
    option BackupRetryPolicy :=
  if negb allowRetry || (or_Status record != "FAILED") || negb (RetryableBackupError (or_ErrorCode record))
  then None
  else match ps_Execution plan with Some e => RetryPolicy e | None => None end.

Definition retry_deadline (d : db) (plan : PlanSchedule) (deadline : time) : time :=
  match db_runtimes d !! ps_PlanID plan with
  | Some (Json rt) =>
      if negb (IsZero (pr_NextRunAt rt)) && Before (pr_NextRunAt rt) deadline then pr_NextRunAt rt else deadline
  | _ => deadline
  end.

Definition next_attempt (id : uuid) (record : OperationRecord) (attempt : Z) (retryAt started deadline : time) :
    OperationRecord :=
  mkOperationRecord id (or_PlanID record) (or_PlanRevision record) (or_ConfigHash record) retryAt started zero_time
    "RUNNING" 0 "" "" 0 0 0 0 0 0 false zero_time (or_ID record)
    (if or_RootOperationID record == uuid_Nil then or_ID record else or_RootOperationID record)
    (attempt + 1) retryAt deadline None.

(** The transaction of [finishWithRetry]; [now1] and [now2] are its two clock
    readings, [fresh] the outcome of [uuid.NewV7]. *)
Definition finish_body (plan : PlanSchedule) (record : OperationRecord) (deadline : time) (allowRetry : bool)
    (now1 now2 : time) (fresh : option uuid) (d0 : db) : result string (option OperationRecord * db) :=
  let d := put_operation record d0 in
  match retry_policy plan record allowRetry with
  | None => Ok (None, d)
  | Some policy =>
      let attempt := if or_Attempt record =? 0 then 1 else or_Attempt record in
      if Attempts policy <=? attempt then Ok (None, d)
      else
        let retryAt := Add now1 (wrap64 (Backoff policy attempt * second)) in
        match db_active d with
        | Some (Json desired) =>
            if negb (existsb (is_current plan) (ds_Plans desired)) then Ok (None, d)
            else
              let deadline := retry_deadline d plan deadline in
              if negb (Before retryAt deadline) then Ok (None, d)
              else match fresh with
                   | None => Err "uuid"
                   | Some id =>
                       let next := next_attempt id record attempt retryAt now2 deadline in
                       Ok (Some next, put_operation next d)
                   end
        | _ => Ok (None, d)
        end
  end.

Definition finishWithRetry (plan : PlanSchedule) (record : OperationRecord) (deadline : time) (allowRetry : bool)
    (now1 now2 : time) (fresh : option uuid) : M (option OperationRecord) :=
  Update (finish_body plan record deadline allowRetry now1 now2 fresh).

(** *** The worker goroutine *)

Definition put_worker (id : uuid) (w : Worker) : M () :=
  modify (λ s, set_workers (<[id := w]> (st_workers s)) s).

(** The goroutine returns: deferred [endRun]s, newest first, then [Done]. *)
Definition exit_worker (id : uuid) (w : Worker) : M () :=
  modify (λ s,
    let s := foldr (λ i s, set_canceled (st_canceled s ∖ {[i]}) (set_running (delete i (st_running s)) s))
               s (w_registered w) in
    set_workers (delete id (st_workers s)) s).

Definition run_canceled (id : uuid) (s : State) : bool := default false (st_running s !! id).

(** The head of the loop: log the start, then call the executor. *)
Definition worker_start (id : uuid) (w : Worker) (now : time) : M () :=
  let* logged := attempt (operationLog now id "backup" "INFO" "BACKUP_STARTED" 0 0) in
  let phase := if is_ok logged then Executing else Unlogged in
  let* _ := put_worker id (mkWorker phase (w_plan w) (w_record w) (w_deadline w) (w_registered w)) in
  modify (λ s, if is_ok logged then set_started (st_started s ++ [id]) s else s).

Definition failed_outcome (code : string) (o : OperationOutcome) : OperationOutcome :=
  mkOutcome "FAILED" (oo_ExitCode o) code (oo_SnapshotID o) (oo_FilesDone o) (oo_TotalFiles o) (oo_BytesDone o)
    (oo_TotalBytes o) (oo_FilesNew o) (oo_DataAdded o) (oo_Summary o).
Definition unlogged_outcome : OperationOutcome :=
  mkOutcome "FAILED" 0 "STATE_STORAGE_UNAVAILABLE" "" 0 0 0 0 0 0 None.

(** Code and level of the final log entry. *)
Definition final_event (o : OperationOutcome) : string * string :=
  let '(code, level) :=
    if oo_Status o == "SUCCEEDED" then ("BACKUP_SUCCEEDED", "INFO")
    else if oo_Status o == "SUCCEEDED_WITH_WARNINGS" then ("BACKUP_SUCCEEDED_WITH_WARNINGS", "WARN")
    else if oo_Status o == "CANCELED" then ("CANCELED", "ERROR")
    else (oo_ErrorCode o, "ERROR") in
  (if code == "" then "BACKUP_FAILED" else code, level).

(** The clock readings of the part of the loop after the executor returned. *)
Record Instants := mkInstants { in_log : time; in_finished : time; in_retry : time; in_started : time }.

(** From the executor's return to the retry timer or the end. *)
Definition worker_finish (id : uuid) (w : Worker) (outcome : OperationOutcome) (t : Instants)
    (fresh : option uuid) : M () :=
  let outcome := match w_phase w with Unlogged => unlogged_outcome | _ => outcome end in
  let event := final_event outcome in
  let* logged := attempt (operationLog (in_log t) id "backup" event.2 event.1 (oo_FilesDone outcome) (oo_BytesDone outcome)) in
  let outcome := if is_ok logged then outcome else failed_outcome "STATE_STORAGE_UNAVAILABLE" outcome in
  let record := with_outcome outcome (in_finished t) (w_record w) in
  let* s := get in
  let* finished := attempt (finishWithRetry (w_plan w) record (w_deadline w) (negb (run_canceled id s))
                              (in_retry t) (in_started t) fresh) in
  match finished with
  | Ok (Some next) =>
      let* s := get in
      let* _ := BeginOperation (run_canceled id s) (or_ID next) in
      modify (λ s, set_workers
        (<[or_ID next := mkWorker Waiting (w_plan w) next (or_Deadline next) (or_ID next :: w_registered w)]>
           (delete id (st_workers s))) s)
  | _ => exit_worker id w
  end.

(** The pending attempt is closed without running. *)
Definition close_waiting (id : uuid) (w : Worker) (code : string) (now nowLog : time) : M () :=
  let record := with_status "CANCELED" code now (w_record w) in
  let* _ := attempt (operationLog nowLog id "backup" "ERROR" code 0 0) in
  let* _ := attempt (PutOperation record) in
  exit_worker id w.

(** The retry timer fires. *)
Definition worker_timer (id : uuid) (w : Worker) (nowCheck now nowLog : time) : M () :=
  let* active := attempt ActiveDesiredState in
  let current := match active with
                 | Ok (Some desired) => existsb (is_current (w_plan w)) (ds_Plans desired)
                 | _ => false
                 end in
  if negb current || negb (Before nowCheck (w_deadline w))
  then close_waiting id w "CONFIG_SUPERSEDED" now nowLog
  else put_worker id (mkWorker Starting (w_plan w) (w_record w) (w_deadline w) (w_registered w)).

(** [runCtx.Done()] while waiting. *)
Definition worker_canceled (id : uuid) (w : Worker) (now nowLog : time) : M () :=
  close_waiting id w "CANCELED" now nowLog.
End Scheduling.
