(* ===== verification/AgentDispatch.v ===== *)
(** * AgentDispatch: messages from the control plane, internal/agent/client_stream.go

    [handleJobDispatch] shares [schedulerMu] with the scheduler.  A message the
    handler sends is its value; sending itself changes no Agent state but the
    stream's sequence counter. *)

From S2P Require Import Prelude GoStd Uuid Platform Domain Plan Schedule DomainLogs AgentStore AgentLogs AgentConfig.
From S2P Require Import AgentScheduler.
Import Execution.
Open Scope Z_scope.
Open Scope go_scope.
Open Scope agent_scope.

(** [jd_Deadline] and [jd_NotBefore] are [Some t] when present and valid. *)
Record JobDispatch := mkJobDispatch {
  jd_JobId : string;
  jd_OperationId : string;
  jd_PlanId : string;
  jd_ParentOperationId : string;
  jd_RootOperationId : string;
  jd_Type : string;
  jd_PlanRevision : Z;
  jd_ConfigHash : string;
  jd_Deadline : option time;
  jd_NotBefore : option time;
  jd_Attempt : Z }.

Inductive AgentMessage :=
| JobAccepted (jobID operationID : string)
| JobRejected (jobID operationID code : string)
| JobResult (record : OperationRecord).

Section Dispatch.
Context `{U : UuidPkg}.

Definition parse_v7 (raw err : string) : M uuid :=
  match Parse raw with
  | Some id => if valid_v7 id then ret id else fail err
  | None => fail err
  end.
Definition parse_operation (raw err : string) : M uuid :=
  match Parse raw with
  | Some id => if Operation.ValidOperationID id then ret id else fail err
  | None => fail err
  end.

(** Parent and root identities of a server-side retry. *)
Definition parse_lineage (job : JobDispatch) : M (uuid * uuid) :=
  if jd_ParentOperationId job != ""
  then
    let* parentID := parse_operation (jd_ParentOperationId job) "job dispatch has an invalid parent id" in
    let* rootID := parse_operation (jd_RootOperationId job) "job dispatch has an invalid root id" in
    ret (parentID, rootID)
  else ret (uuid_Nil, uuid_Nil).

Definition job_reject (job : JobDispatch) (code : string) : M (option AgentMessage) :=
  ret (Some (JobRejected (jd_JobId job) (jd_OperationId job) code)).
Definition job_accept (job : JobDispatch) : M (option AgentMessage) :=
  ret (Some (JobAccepted (jd_JobId job) (jd_OperationId job))).

(** The record of a dispatched job. *)
Definition job_record (operationID planID : uuid) (revision : Z) (hash : string) (scheduled started finished : time)
    (status code : string) (parentID rootID : uuid) (attempt : Z) : OperationRecord :=
  mkOperationRecord operationID planID revision hash scheduled started finished status 0 code "" 0 0 0 0 0 0
    false zero_time parentID rootID attempt zero_time zero_time None.

(** A duplicate delivery replays what is stored. *)
Definition replay (job : JobDispatch) (planID : uuid) (existing : OperationRecord) : M (option AgentMessage) :=
  if (or_PlanID existing != planID) || (or_PlanRevision existing != jd_PlanRevision job) ||
     (or_ConfigHash existing != jd_ConfigHash job)
  then job_reject job "OPERATION_BINDING_MISMATCH"
  else if Terminal existing then ret (Some (JobResult existing))
  else job_accept job.

(** A cancel that arrived first: a CANCELED result without a run. *)
Definition cancel_before_start (job : JobDispatch) (operationID planID : uuid) (notBefore now : time) :
    M (option AgentMessage) :=
  let scheduled := if IsZero notBefore then now else notBefore in
  let record := job_record operationID planID (jd_PlanRevision job) (jd_ConfigHash job) scheduled now now
    "CANCELED" "CANCELED" uuid_Nil uuid_Nil 0 in
  let* stored := attempt (PutOperation record) in
  if is_ok stored then ret (Some (JobResult record)) else job_reject job "PERSIST_FAILED".

(** Admission under the capacity and concurrency rules, then the start. *)
Definition admit_job (ctx_canceled : bool) (job : JobDispatch) (desired : DesiredState) (plan : PlanSchedule)
    (operationID planID : uuid) (lineage : uuid * uuid) (notBefore deadline now : time) : M (option AgentMessage) :=
  let* running := attempt RunningOperations in
  match running with
  | Err _ => job_reject job "PERSIST_FAILED"
  | Ok running =>
      if MaxParallelIOJobs (ds_RuntimePolicy desired) <=? to_uint32 (Z.of_nat (length running)) then ret None
      else if existsb (λ r, (or_PlanID r == planID) && (ps_ConcurrencyPolicy plan != "ALLOW")) running then ret None
      else
        let record := job_record operationID (ps_PlanID plan) (ps_Revision plan) (ps_ConfigHash plan) notBefore now
          zero_time "RUNNING" "" lineage.1 lineage.2 (jd_Attempt job) in
        let* stored := attempt (PutOperation record) in
        if is_ok stored
        then let* _ := executeOperation ctx_canceled plan record deadline in job_accept job
        else job_reject job "PERSIST_FAILED"
  end.

Definition find_plan (planID : uuid) (plans : list PlanSchedule) : option PlanSchedule :=
  List.find (λ p, ps_PlanID p == planID) plans.

(** [now1], [now2] and [now3] are the handler's clock readings, in order. *)
Definition handleJobDispatch (ctx_canceled : bool) (job : JobDispatch) (now1 now2 now3 : time) :
    M (option AgentMessage) :=
  let* operationID := parse_v7 (jd_OperationId job) "job dispatch has an invalid operation id" in
  let* planID := parse_v7 (jd_PlanId job) "job dispatch has an invalid plan id" in
  let* lineage := parse_lineage job in
  if jd_Type job != "BACKUP" then job_reject job "TYPE_UNSUPPORTED"
  else
    let* existing := attempt (Operation operationID) in
    match existing with
    | Err _ => job_reject job "PERSIST_FAILED"
    | Ok (Some existing) => replay job planID existing
    | Ok None =>
        let* desired := attempt ActiveDesiredState in
        match desired with
        | Err _ | Ok None => job_reject job "PLAN_UNAVAILABLE"
        | Ok (Some desired) =>
            match find_plan planID (ds_Plans desired) with
            | None => job_reject job "PLAN_UNAVAILABLE"
            | Some plan =>
                if (jd_PlanRevision job != ps_Revision plan) || (jd_ConfigHash job != ps_ConfigHash plan)
                then job_reject job "CONFIG_REVISION_MISMATCH"
                else match jd_Deadline job, jd_NotBefore job with
                | Some deadline, Some notBefore =>
                    if negb (After deadline now1) then job_reject job "DEADLINE_EXCEEDED"
                    else if After notBefore now2 then ret None
                    else
                      let* canceled := ConsumeCancel operationID in
                      if canceled then cancel_before_start job operationID planID notBefore now3
                      else admit_job ctx_canceled job desired plan operationID planID lineage notBefore deadline now3
                | _, _ => job_reject job "DEADLINE_INVALID"
                end
            end
        end
    end.

(** *** Stream discipline *)

Record Envelope := mkEnvelope {
  ev_ProtocolVersion : string;
  ev_SentAtValid : bool;
  ev_MessageId : string;
  ev_Sequence : Z }.

Definition validateServerEnvelope (m : Envelope) (protocol : string) : bool :=
  negb ((ev_ProtocolVersion m != protocol) || negb (ev_SentAtValid m)) &&
  match Parse (ev_MessageId m) with Some id => Version id == 7 | None => false end.

Record Welcome := mkWelcome {
  wl_ServerTimeValid : bool;
  wl_HeartbeatIntervalSeconds : Z;
  wl_DesiredConfigRevision : Z;
  wl_SelectedProtocolVersion : string }.

Definition validateWelcome (m : Envelope) (welcome : option Welcome) (acceptedRevision : Z) : bool :=
  match welcome with
  | None => false
  | Some w =>
      negb (negb (wl_ServerTimeValid w) || (wl_HeartbeatIntervalSeconds w <? 5) ||
            (300 <? wl_HeartbeatIntervalSeconds w) || (wl_DesiredConfigRevision w <? acceptedRevision) ||
            ((ev_ProtocolVersion m != "1.0") && (ev_ProtocolVersion m != "0.9")) ||
            (wl_SelectedProtocolVersion w != ev_ProtocolVersion m) || (ev_Sequence m != 1)) &&
      validateServerEnvelope m (wl_SelectedProtocolVersion w)
  end.

(** The receive loop of [connectOnce] on the sequence numbers: deliver the
    next number, ignore an old one, stop at a gap or a bad envelope. *)
Inductive received := Delivered | Ignored | Broken.

Definition receive (protocol : string) (serverSequence : Z) (m : Envelope) : received * Z :=
  if negb (validateServerEnvelope m protocol) then (Broken, serverSequence)
  else if ev_Sequence m <=? serverSequence then (Ignored, serverSequence)
  else if ev_Sequence m != to_uint64 (serverSequence + 1) then (Broken, serverSequence)
  else (Delivered, ev_Sequence m).

(** The messages handled before the stream ends. *)
Fixpoint receive_all (protocol : string) (serverSequence : Z) (ms : list Envelope) : list Z :=
  match ms with
  | [] => []
  | m :: rest =>
      match receive protocol serverSequence m with
      | (Broken, _) => []
      | (Ignored, n) => receive_all protocol n rest
      | (Delivered, n) => n :: receive_all protocol n rest
      end
  end.
End Dispatch.

(** ** Reports (report.go) *)

Section Report.
Context `{U : UuidPkg}.

(** The loop of [reportOperations]; [sends] says which sends fail, [now] reads
    the clock. *)
Fixpoint report_loop (resultAck : bool) (now : time) (sends : list bool) (records : list OperationRecord) : M () :=
  match records with
  | [] => ret ()
  | r :: rest =>
      if default true (head sends)
      then
        let* _ := if Terminal r && negb resultAck then MarkOperationUploaded (or_ID r) else ret () in
        let* _ := markOperationReported (or_ID r) now in
        report_loop resultAck now (tail sends) rest
      else fail "send"
  end.

Definition reportOperations (resultAck : bool) (now : time) (progressInterval : duration) (sends : list bool) : M () :=
  let* records := ReportableOperations now progressInterval in
  report_loop resultAck now sends records.

(** The stored upload flags. *)
Definition uploaded_flags (s : State) : gmap uuid bool :=
  omap (λ c, match c with Json r => Some (or_Uploaded r) | Corrupt => None end) (db_operations (st_db s)).

Lemma updateOperation_flags id f s :
  (∀ r, or_Uploaded (f r) = or_Uploaded r) → uploaded_flags (updateOperation id f s).2 = uploaded_flags s.
Proof.
  intros Hf. unfold updateOperation, Update.
  destruct (db_operations (st_db s) !! id) as [[r|]|] eqn:Hm; cbn; [|done|].
  - assert (Hins : ∀ m : gmap uuid (cell OperationRecord), m !! id = Some (Json r) →
      omap (λ c, match c with Json r => Some (or_Uploaded r) | Corrupt => None end) (<[id := Json (f r)]> m) =
      omap (λ c, match c with Json r => Some (or_Uploaded r) | Corrupt => None end) m :> gmap uuid bool).
    { intros m Hl. apply map_eq. intros j. rewrite !lookup_omap. destruct (decide (j = id)) as [->|].
      - rewrite lookup_insert_eq, Hl. cbn. by rewrite Hf.
      - by rewrite lookup_insert_ne by done. }
    destruct (st_faults s) as [|[] fs]; cbn; [by apply Hins|done|by apply Hins].
  - by destruct (st_faults s) as [|[] fs].
Qed.

Lemma report_loop_flags now sends records s :
  uploaded_flags (report_loop true now sends records s).2 = uploaded_flags s.
Proof.
  revert sends s; induction records as [|r rest IH]; intros sends s; [done|]. cbn [report_loop].
  destruct (default true (head sends)); [|done]. rewrite andb_false_r. unfold bind, ret.
  pose proof (updateOperation_flags (or_ID r) (with_reported now) s ltac:(done)) as Hu.
  unfold markOperationReported. destruct (updateOperation _ _ s) as [[[]|e] s1]; cbn in Hu |- *; [|done].
  by rewrite IH.
Qed.
End Report.

(** ** Properties *)

Section DispatchProperties.
Context `{U : UuidPkg}.

(** With a control plane that acknowledges results, a report round, at
    whatever point a send or the storage fails, marks no result as delivered:
    a result leaves the pending set only through an acknowledgement. *)
Theorem reports_keep_results_pending (now : time) (interval : duration) (sends : list bool) (s : State) :
  uploaded_flags (reportOperations true now interval sends s).2 = uploaded_flags s.
Proof.
  unfold reportOperations, bind, ReportableOperations, View. destruct (report_scan _ _ _ _ _); [|done].
  apply report_loop_flags.
Qed.

(** Duplicate deliveries. A dispatch of an operation the Agent already
    has changes nothing: bound to another plan or content it is rejected, a
    finished operation answers with its stored result, a running one with an
    acceptance. *)
Theorem duplicate_dispatch_replays (cc : bool) (job : JobDispatch) (now1 now2 now3 : time) (s : State)
    (id planID : uuid) (r : OperationRecord) :
  Parse (jd_OperationId job) = Some id → valid_v7 id = true →
  Parse (jd_PlanId job) = Some planID → valid_v7 planID = true →
  jd_ParentOperationId job = "" → jd_Type job = "BACKUP" →
  db_operations (st_db s) !! id = Some (Json r) →
  handleJobDispatch cc job now1 now2 now3 s =
    (Ok (Some
      (if bool_decide (or_PlanID r = planID ∧ or_PlanRevision r = jd_PlanRevision job ∧
                       or_ConfigHash r = jd_ConfigHash job)
       then if Terminal r then JobResult r else JobAccepted (jd_JobId job) (jd_OperationId job)
       else JobRejected (jd_JobId job) (jd_OperationId job) "OPERATION_BINDING_MISMATCH")), s).
Proof.
  intros Hid Hv Hp Hvp Hpar Hty Hr. unfold handleJobDispatch, parse_v7, parse_lineage, bind.
  rewrite Hid, Hv, Hp, Hvp, Hpar, Hty.
  rewrite (bool_decide_eq_true_2 ("" = "")), (bool_decide_eq_true_2 ("BACKUP" = "BACKUP")) by done. cbn [negb].
  unfold ret at 1 2 3, attempt, AgentStore.Operation, View. rewrite Hr. cbn. unfold replay, job_reject, job_accept. repeat case_bool_decide; naive_solver || (destruct (Terminal r); naive_solver).
Qed.

(** Nothing starts between two states. *)
Definition no_start (s s' : State) : Prop :=
  st_workers s' = st_workers s ∧ st_started s' = st_started s ∧
  running_ids (db_operations (st_db s')) ⊆ running_ids (db_operations (st_db s)).

(** A cancel that arrives before its dispatch. While the Agent holds the
    early cancel marker of an operation, a dispatch of it never starts a
    worker: no goroutine is spawned and nothing is stored RUNNING. *)
Theorem early_cancel_never_starts (cc : bool) (job : JobDispatch) (now1 now2 now3 : time) (s : State) (id : uuid) :
  Parse (jd_OperationId job) = Some id → id ∈ st_canceled s →
  no_start s (handleJobDispatch cc job now1 now2 now3 s).2.
Proof.
  intros Hid Hc. unfold handleJobDispatch, parse_v7, bind at 1. rewrite Hid.
  destruct (valid_v7 id); [|done]. cbn [ret]. unfold ret at 1, bind at 1.
  destruct (Parse (jd_PlanId job)) as [planID|]; [|done]. destruct (valid_v7 planID); [|done].
  unfold ret at 1, bind at 1.
  assert (Hl : (parse_lineage job s).2 = s).
  { unfold parse_lineage, parse_operation, bind. destruct (_ != _); [|done].
    destruct (Parse (jd_ParentOperationId job)) as [i|]; [|done]. destruct (Operation.ValidOperationID i); [|done].
    cbn. destruct (Parse (jd_RootOperationId job)) as [j|]; [|done]. by destruct (Operation.ValidOperationID j). }
  destruct (parse_lineage job s) as [[lineage|e] s1]; cbn in Hl; subst s1; [|done].
  destruct (jd_Type job != _); [done|]. unfold bind at 1, attempt at 1.
  destruct (AgentStore.Operation id s) as [ex s1] eqn:Hop.
  assert (s1 = s) as -> by (unfold AgentStore.Operation, View in Hop; congruence).
  destruct ex as [[r|]|e]; [| |done].
  { unfold replay. destruct (_ || _); [done|]. by destruct (Terminal r). }
  unfold bind at 1, attempt at 1, ActiveDesiredState, View.
  destruct (match db_active (st_db s) with Some _ => _ | None => _ end) as [[desired|]|e]; [|done..].
  destruct (find_plan planID (ds_Plans desired)) as [plan|]; [|done].
  destruct (_ || _); [done|]. destruct (jd_Deadline job) as [deadline|]; [|done].
  destruct (jd_NotBefore job) as [notBefore|]; [|done].
  destruct (negb _); [done|]. destruct (After notBefore now2); [done|].
  unfold ConsumeCancel, bind, get, modify. rewrite bool_decide_eq_true_2 by done. cbn [ret].
  unfold cancel_before_start, bind, attempt, PutOperation, Update. cbn.
  unfold no_start. destruct (st_faults s) as [|[] fs]; cbn; split_and!; try done;
    rewrite running_ids_insert; cbn; set_solver.
Qed.

(** Stream discipline. The server messages an Agent handles carry
    consecutive sequence numbers: none is skipped, repeated or reordered,
    whatever arrives. *)
Theorem receive_consecutive (protocol : string) (n : Z) (ms : list Envelope) :
  0 ≤ n → n + Z.of_nat (length ms) < 2 ^ 64 →
  receive_all protocol n ms = (λ i, n + 1 + Z.of_nat i) <$> seq 0 (length (receive_all protocol n ms)).
Proof.
  revert n; induction ms as [|m ms IH]; intros n Hn Hlen; [done|]. cbn [receive_all]. unfold receive.
  cbn [length] in Hlen. destruct (negb _); [done|].
  destruct (ev_Sequence m <=? n) eqn:Hle; [apply IH; lia|].
  unfold to_uint64. rewrite Z.mod_small by lia. case_bool_decide as Hs; [|done]. cbn [negb].
  rewrite Hs. cbn [length seq fmap list_fmap]. f_equal; [lia|].
  rewrite (IH (n + 1)) at 1 by lia. rewrite <- seq_shift, <- list_fmap_compose.
  apply list_fmap_ext. intros i x _. cbn. lia.
Qed.
End DispatchProperties.

(** ** Concrete instances *)

Definition example_job : JobDispatch :=
  mkJobDispatch "job" (UString (v7 13)) (UString (v7 1)) "" "" "BACKUP" 1 "hash" (Some (9 * second)) (Some second) 1.

Lemma duplicate_dispatch_replays_witness :
  handleJobDispatch false example_job 2 2 2 example_state = (Ok (Some (JobResult (example_record 13 "SUCCEEDED" 3))), example_state).
Proof.
  exact (duplicate_dispatch_replays false example_job 2 2 2 example_state (v7 13) (v7 1) (example_record 13 "SUCCEEDED" 3)
    eq_refl eq_refl eq_refl eq_refl eq_refl eq_refl eq_refl).
Defined.

Definition canceled_state : State :=
  set_canceled {[v7 13]} (initial_state (set_active (Some (Json (mkDesiredState (v7 900) 1 second "h" (mkRuntimePolicy 2 (2 ^ 20))
    [mkPlanSchedule (v7 1) 1 "nightly" (v7 902) (v7 901) "0 3 * * *" "UTC" 0 3600 "FORBID" ["/srv"] [] false false "hash" None])))
    empty_db) second).

Lemma early_cancel_never_starts_witness :
  st_workers (handleJobDispatch false example_job (2 * second) (2 * second) (2 * second) canceled_state).2 = ∅ ∧
  (∃ r, db_operations (st_db (handleJobDispatch false example_job (2 * second) (2 * second) (2 * second) canceled_state).2)
     !! v7 13 = Some (Json r) ∧ or_Status r = "CANCELED").
Proof.
  split; [|eexists; split; vm_compute; reflexivity].
  refine (proj1 (early_cancel_never_starts false example_job (2 * second) (2 * second) (2 * second) canceled_state
    (v7 13) _ _)).
  - vm_compute. reflexivity.
  - change (v7 13 ∈ ({[v7 13]} : gset uuid)). by apply elem_of_singleton.
Defined.

Definition example_envelope (n : Z) : Envelope := mkEnvelope "1.0" true (UString (v7 5)) n.

Lemma receive_consecutive_witness :
  receive_all "1.0" 1 [example_envelope 2; example_envelope 2; example_envelope 3; example_envelope 9; example_envelope 4]
    = [2; 3].
Proof.
  rewrite (receive_consecutive "1.0" 1 _); [|done|done].
  vm_compute. reflexivity.
Defined.
