(* ===== verification/AgentTrace.v ===== *)
(** * AgentTrace: the Agent's operations over any interleaving of events

    The scheduler, the dispatch handler, configuration, cancellation, the
    worker goroutines, storage refusals and process restarts are events on one
    state.  Their effect on operations is abstracted to the small transition
    relation [effect] ([event_effect] is the refinement), and the properties
    are invariants of that relation. *)

From S2P Require Import Prelude GoStd Uuid Platform Domain Plan Schedule DomainLogs AgentStore AgentLogs AgentConfig.
From S2P Require Import AgentScheduler AgentDispatch.
Import Execution.
Open Scope Z_scope.
Open Scope go_scope.
Open Scope agent_scope.

(** [ag_tick]: the running [tickScheduler], which holds [schedulerMu]. *)
Record Agent := mkAgent { ag_state : State; ag_tick : option TickFrame }.

Inductive event :=
| TickBegin (now : time)
| TickPlan (ctx_canceled : bool)
| TickEnd
| Dispatch (ctx_canceled : bool) (job : JobDispatch) (now1 now2 now3 : time)
| Apply (now : time) (agentID : uuid) (snapshot : option Snapshot)
| Cancel (id : uuid)
| Uploaded (id : uuid)
| Reported (id : uuid) (now : time)
| Logs (c : log_cmd)
| Progress (id : uuid) (files totalFiles bytes totalBytes filesNew dataAdded : Z)
    (summary : option BackupSummary) (snapshotID : string)
| WorkerStart (id : uuid) (now : time)
| WorkerFinish (id : uuid) (outcome : OperationOutcome) (t : Instants) (fresh : option uuid)
| WorkerTimer (id : uuid) (nowCheck now nowLog : time)
| WorkerCanceled (id : uuid) (now nowLog : time)
| Shutdown
| Restart (now : time) (interval : duration).

Section Events.
Context `{U : UuidPkg} `{P : Platform} `{C : ConfigCodec} `{L : LogCodec}.
Context (hooks : gset uuid).

Definition exec {A} (m : M A) (s : State) : State := (m s).2.

(** Under [schedulerMu]: nothing happens while a tick holds it. *)
Definition locked (m : State → Agent) (x : Agent) : Agent :=
  match ag_tick x with None => m (ag_state x) | Some _ => x end.

Definition on_worker (id : uuid) (phases : list worker_phase) (m : Worker → M ()) (s : State) : State :=
  match st_workers s !! id with
  | Some w => if bool_decide (w_phase w ∈ phases) then exec (m w) s else s
  | None => s
  end.

(** A new process over the same database; [RecoverRunningOperations] runs
    first, then the scheduler starts its clock. *)
Definition restart (now : time) (interval : duration) (s : State) : State :=
  exec (RecoverRunningOperations now)
    (mkState (st_db s) (st_faults s) ∅ ∅ now interval ∅ (st_started s)).

Definition tick_step (ctx_canceled : bool) (x : Agent) : Agent :=
  match ag_tick x with
  | Some (mkFrame now desired running (plan :: todo) as f) =>
      match tick_plan ctx_canceled f plan (ag_state x) with
      | (Ok running, s) => mkAgent s (Some (mkFrame now desired running todo))
      | (Err _, s) => mkAgent (set_tickAt now s) None
      end
  | _ => x
  end.

Definition apply_event (e : event) (x : Agent) : Agent :=
  match e with
  | TickBegin now =>
      locked (λ s, match tick_begin now s with
                   | (Ok f, s) => mkAgent s f
                   | (Err _, s) => mkAgent s None
                   end) x
  | TickPlan ctx_canceled => tick_step ctx_canceled x
  | TickEnd =>
      match ag_tick x with
      | Some (mkFrame now _ _ []) => mkAgent (set_tickAt now (ag_state x)) None
      | _ => x
      end
  | Dispatch cc job now1 now2 now3 =>
      locked (λ s, mkAgent (exec (handleJobDispatch cc job now1 now2 now3) s) None) x
  | Apply now agentID snapshot =>
      locked (λ s, mkAgent (exec (ApplyDesiredState hooks now agentID snapshot) s) None) x
  | Cancel id => mkAgent (exec (CancelOperation id) (ag_state x)) (ag_tick x)
  | Uploaded id => mkAgent (exec (MarkOperationUploaded id) (ag_state x)) (ag_tick x)
  | Reported id now => mkAgent (exec (markOperationReported id now) (ag_state x)) (ag_tick x)
  | Logs c => mkAgent (exec (log_step c) (ag_state x)) (ag_tick x)
  | Progress id f tf b tb fn da summary snap =>
      mkAgent (exec (updateOperation id (with_progress f tf b tb fn da summary snap)) (ag_state x)) (ag_tick x)
  | WorkerStart id now =>
      mkAgent (on_worker id [Starting] (λ w, worker_start id w now) (ag_state x)) (ag_tick x)
  | WorkerFinish id outcome t fresh =>
      mkAgent (on_worker id [Executing; Unlogged] (λ w, worker_finish id w outcome t fresh) (ag_state x)) (ag_tick x)
  | WorkerTimer id nowCheck now nowLog =>
      mkAgent (on_worker id [Waiting] (λ w, worker_timer id w nowCheck now nowLog) (ag_state x)) (ag_tick x)
  | WorkerCanceled id now nowLog =>
      if run_canceled id (ag_state x)
      then mkAgent (on_worker id [Waiting] (λ w, worker_canceled id w now nowLog) (ag_state x)) (ag_tick x)
      else x
  | Shutdown => mkAgent (set_running ((λ _, true) <$> st_running (ag_state x)) (ag_state x)) (ag_tick x)
  | Restart now interval => mkAgent (restart now interval (ag_state x)) None
  end.

(** [uuid.NewV7] returns an identity no stored operation has. *)
Definition event_fresh (e : event) (x : Agent) : Prop :=
  match e with
  | WorkerFinish _ _ _ (Some id) => db_operations (st_db (ag_state x)) !! id = None
  | _ => True
  end.

(** The states of an Agent that starts on an empty database. *)
Inductive reachable : Agent → Prop :=
| reach_init faults now interval :
    reachable (mkAgent (mkState empty_db faults ∅ ∅ now interval ∅ []) None)
| reach_step x e : reachable x → event_fresh e x → reachable (apply_event e x).
End Events.

(** ** The abstract effects *)

(** Operations in the database, worker goroutines, and the identities ever
    handed to the executor. *)
Definition core : Type := gmap uuid (cell OperationRecord) * gmap uuid Worker * list uuid.
Definition core_of (s : State) : core := (db_operations (st_db s), st_workers s, st_started s).
Definition active_of (s : State) : option DesiredState :=
  match db_active (st_db s) with Some (Json d) => Some d | _ => None end.

(** Bookkeeping fields aside, the same operation with the same result. *)
Definition same_result (r r' : OperationRecord) : Prop :=
  or_ID r' = or_ID r ∧ or_PlanID r' = or_PlanID r ∧ or_Status r' = or_Status r ∧
  or_ErrorCode r' = or_ErrorCode r ∧ or_FinishedAt r' = or_FinishedAt r ∧ or_ExitCode r' = or_ExitCode r.

Definition running_of_plan (m : gmap uuid (cell OperationRecord)) (planID : uuid) : Prop :=
  ∃ id r, m !! id = Some (Json r) ∧ running_status r = true ∧ or_PlanID r = planID.

Inductive effect (desired : option DesiredState) : core → core → Prop :=
| eff_none c : effect desired c c
| eff_record m w st r :
    m !! or_ID r = None → running_status r = false →
    effect desired (m, w, st) (<[or_ID r := Json r]> m, w, st)
| eff_start m w st r wk d plan :
    desired = Some d → plan ∈ ds_Plans d → or_PlanID r = ps_PlanID plan →
    m !! or_ID r = None → running_status r = true → w_record wk = r → w_phase wk = Starting →
    Z.of_nat (size (running_ids m)) < MaxParallelIOJobs (ds_RuntimePolicy d) →
    (ps_ConcurrencyPolicy plan = "FORBID" → ¬ running_of_plan m (ps_PlanID plan)) →
    effect desired (m, w, st) (<[or_ID r := Json r]> m, <[or_ID r := wk]> w, st)
| eff_run m w st id wk wk' :
    w !! id = Some wk → w_phase wk = Starting → w_phase wk' = Executing → w_record wk' = w_record wk →
    effect desired (m, w, st) (m, <[id := wk']> w, st ++ [id])
| eff_phase m w st id wk wk' :
    w !! id = Some wk → w_record wk' = w_record wk →
    w_phase wk = Starting ∧ w_phase wk' = Unlogged ∨ w_phase wk = Waiting ∧ w_phase wk' = Starting →
    effect desired (m, w, st) (m, <[id := wk']> w, st)
| eff_finish m w st id wk r :
    w !! id = Some wk → or_ID r = or_ID (w_record wk) → or_PlanID r = or_PlanID (w_record wk) →
    effect desired (m, w, st) (<[or_ID r := Json r]> m, delete id w, st)
| eff_retry m w st id wk r next wk' :
    w !! id = Some wk → or_ID r = or_ID (w_record wk) → or_PlanID r = or_PlanID (w_record wk) →
    running_status r = false → m !! or_ID next = None → running_status next = true →
    or_PlanID next = or_PlanID r → w_record wk' = next → w_phase wk' = Waiting →
    effect desired (m, w, st)
      (<[or_ID next := Json next]> (<[or_ID r := Json r]> m), <[or_ID next := wk']> (delete id w), st)
| eff_abandon m w st id :
    effect desired (m, w, st) (m, delete id w, st)
| eff_update m w st id r r' :
    m !! id = Some (Json r) → same_result r r' →
    effect desired (m, w, st) (<[id := Json r']> m, w, st)
| eff_crash m w st : effect desired (m, w, st) (m, ∅, st)
| eff_recover m w st m' now :
    (∀ id, m' !! id = recover_cell now <$> m !! id) → effect desired (m, w, st) (m', ∅, st).

(** ** Invariants of the effects *)

Record core_ok (c : core) : Prop := {
  ok_store : store_ok c.1.1;
  ok_workers : ∀ id wk, c.1.2 !! id = Some wk → or_ID (w_record wk) = id ∧
    ∃ r, c.1.1 !! id = Some (Json r) ∧ running_status r = true ∧ or_PlanID r = or_PlanID (w_record wk);
  ok_started : ∀ id, id ∈ c.2 → is_Some (c.1.1 !! id);
  ok_pending : ∀ id wk, c.1.2 !! id = Some wk → w_phase wk = Starting ∨ w_phase wk = Waiting → id ∉ c.2;
  ok_once : NoDup c.2 }.

Lemma store_ok_insert m r : store_ok m → store_ok (<[or_ID r := Json r]> m).
Proof. intros Hs id c. rewrite lookup_insert. case_decide; [intros; simplify_eq; eauto|apply Hs]. Qed.

Lemma is_Some_insert {A} (m : gmap uuid A) id j a : is_Some (m !! id) → is_Some (<[j := a]> m !! id).
Proof. intros H. rewrite lookup_insert. case_decide; eauto. Qed.

Lemma running_same_result r r' : same_result r r' → running_status r' = running_status r.
Proof. intros (_ & _ & Hs & _). unfold running_status. by rewrite Hs. Qed.

Lemma same_result_refl r : same_result r r.
Proof. by repeat split. Qed.

Lemma same_result_trans r1 r2 r3 : same_result r1 r2 → same_result r2 r3 → same_result r1 r3.
Proof. unfold same_result. intuition congruence. Qed.

(** Replacing the record of another operation does not affect a worker. *)
Lemma ok_workers_insert (m : gmap uuid (cell OperationRecord)) j c id wk :
  j ≠ id →
  (or_ID (w_record wk) = id ∧
   ∃ r, m !! id = Some (Json r) ∧ running_status r = true ∧ or_PlanID r = or_PlanID (w_record wk)) →
  or_ID (w_record wk) = id ∧
  ∃ r, <[j := c]> m !! id = Some (Json r) ∧ running_status r = true ∧ or_PlanID r = or_PlanID (w_record wk).
Proof. intros Hne. by rewrite lookup_insert_ne. Qed.

Lemma effect_core_ok desired c c' : core_ok c → effect desired c c' → core_ok c'.
Proof.
  intros [Hst Hw Hs Hp Hn] He; destruct He; cbn in *; try done.
  - (* record *) split; cbn; [by apply store_ok_insert| |by auto using is_Some_insert|done|done].
    intros id wk Hid. destruct (Hw _ _ Hid) as (? & r' & Hr' & ?). apply ok_workers_insert; [congruence|eauto].
  - (* start *) split; cbn; [by apply store_ok_insert| |by auto using is_Some_insert| |done].
    + intros id wk'. rewrite lookup_insert. case_decide as Hid; intros Hwk; simplify_eq.
      * split; [done|]. exists (w_record wk'). by rewrite lookup_insert_eq.
      * destruct (Hw _ _ Hwk) as (? & r' & Hr' & ?). apply ok_workers_insert; [congruence|eauto].
    + intros id wk'. rewrite lookup_insert. case_decide as Hid; intros Hwk; simplify_eq; [|by eauto].
      intros _ [c Hc]%Hs. congruence.
  - (* run *) destruct (Hw _ _ H) as (Hid & r & Hr & Hrun & Hpl). split; cbn; [done| | | |].
    + intros i wk1. rewrite lookup_insert. case_decide; intros; simplify_eq; [|by auto].
      rewrite H2. eauto.
    + intros i [Hi|Hi]%elem_of_app; [by auto|]. apply list_elem_of_singleton in Hi as ->. eauto.
    + intros i wk1. rewrite lookup_insert. case_decide as Hi; intros; simplify_eq; [naive_solver congruence|].
      rewrite elem_of_app, list_elem_of_singleton. intros [?|?]; [by eapply Hp|congruence].
    + apply NoDup_app. split; [done|]. split; [|apply NoDup_singleton].
      intros i Hi. rewrite list_elem_of_singleton. intros ->. by apply (Hp id wk H (or_introl H0)).
  - (* phase *) destruct (Hw _ _ H) as (Hid & r & Hr & Hrun & Hpl). split; cbn; try done.
    + intros i wk1. rewrite lookup_insert. case_decide; intros; simplify_eq; [|by auto].
      rewrite H0. eauto.
    + intros i wk1. rewrite lookup_insert. case_decide as Hi; intros Hwk Hph; simplify_eq; [|by eauto].
      apply (Hp _ wk H). naive_solver.
  - (* finish *) destruct (Hw _ _ H) as (Hid & r0 & Hr & Hrun & Hpl).
    split; cbn; [by apply store_ok_insert| |by auto using is_Some_insert| |done].
    + intros i wk1 [Hne Hi]%lookup_delete_Some. apply ok_workers_insert; [congruence|auto].
    + intros i wk1 [Hne Hi]%lookup_delete_Some. eauto.
  - (* retry *) destruct (Hw _ _ H) as (Hid & r0 & Hr & Hrun & Hpl).
    split; cbn; [by repeat apply store_ok_insert| |by auto using is_Some_insert| |done].
    + intros i wk1. rewrite lookup_insert. case_decide as Hi; intros Hwk; simplify_eq.
      * split; [done|]. eexists. by rewrite lookup_insert_eq.
      * apply lookup_delete_Some in Hwk as [Hne Hwk].
        destruct (Hw _ _ Hwk) as (? & r' & Hr' & ?). apply ok_workers_insert; [congruence|].
        apply ok_workers_insert; [congruence|eauto].
    + intros i wk1. rewrite lookup_insert. case_decide as Hi; intros Hwk; simplify_eq.
      * intros _ [c Hc]%Hs. congruence.
      * apply lookup_delete_Some in Hwk as [Hne Hwk]. eauto.
  - (* abandon *) split; cbn; try done; intros i wk1 [Hne Hi]%lookup_delete_Some; eauto.
  - (* update *) destruct H0 as (Hi & Hpl & Hst' & _). destruct (Hst _ _ H) as (r1 & ? & <-). simplify_eq.
    split; cbn; [|intros i wk Hwk|by auto using is_Some_insert|done|done].
    + rewrite <- Hi. by apply store_ok_insert.
    + destruct (Hw _ _ Hwk) as (? & r2 & Hr2 & ? & ?). split; [done|].
      rewrite lookup_insert. case_decide as Hii; [|eauto].
      assert (r2 = r1) as -> by congruence. exists r'. split; [done|].
      unfold running_status in *. by rewrite Hst', Hpl.
  - (* recover *) split; cbn; [|set_solver| |set_solver|done].
    + intros i c Hc. rewrite H in Hc. destruct (m !! i) as [c0|] eqn:Hm; cbn in Hc; [|done].
      destruct (Hst _ _ Hm) as (r0 & -> & <-). simplify_eq. cbn. destruct (running_status r0); eauto.
    + intros i Hi. rewrite H. destruct (Hs i Hi) as [c ->]. cbn. eauto.
Qed.

(** A worker's operation counts as running. *)
Lemma worker_running c id wk : core_ok c → c.1.2 !! id = Some wk → id ∈ running_ids c.1.1.
Proof. intros Hok Hw. destruct (ok_workers _ Hok _ _ Hw) as (_ & r & ? & ? & _). apply elem_of_running_ids. eauto. Qed.

Lemma swap_size (X : gset uuid) old new :
  old ∈ X → new ∉ X → (size ({[new]} ∪ X ∖ {[old]}) ≤ size X)%nat.
Proof.
  intros Ho Hn. rewrite size_union by set_solver. rewrite size_difference by set_solver.
  rewrite !size_singleton. assert (size X ≠ 0)%nat; [|lia]. rewrite size_non_empty_iff. set_solver.
Qed.

(** The running set grows only through a start, which finds room. *)
Lemma effect_capacity desired c c' :
  core_ok c → effect desired c c' →
  (size (running_ids c'.1.1) ≤ size (running_ids c.1.1))%nat ∨
  ∃ d, desired = Some d ∧ Z.of_nat (size (running_ids c'.1.1)) ≤ MaxParallelIOJobs (ds_RuntimePolicy d).
Proof.
  intros Hok He. pose proof (worker_running c) as Hwr. destruct He; cbn in *; try (left; done).
  - left. rewrite running_ids_insert, H0. apply subseteq_size. set_solver.
  - right. exists d. split; [done|]. rewrite running_ids_insert, H3, size_union, size_singleton; [lia|].
    apply disjoint_singleton_l. rewrite elem_of_running_ids. intros (? & Hc & _). congruence.
  - left. specialize (Hwr id wk Hok H). destruct (ok_workers _ Hok _ _ H) as [Hid _]. rewrite Hid in *.
    rewrite running_ids_insert, H0. apply subseteq_size. destruct (running_status r); set_solver.
  - left. specialize (Hwr id wk Hok H). destruct (ok_workers _ Hok _ _ H) as [Hid _]. rewrite Hid in *.
    rewrite running_ids_insert, H4, running_ids_insert, H0, H2. apply swap_size; [done|].
    rewrite elem_of_running_ids. intros (? & Hc & _). congruence.
  - left. rewrite running_ids_insert. rewrite (running_same_result _ _ H0).
    assert (running_status r = true → id ∈ running_ids m) by (intros; apply elem_of_running_ids; eauto).
    apply subseteq_size. destruct (running_status r); set_solver.
  - left. rewrite (recover_running_ids _ _ _ H), size_empty. lia.
Qed.

(** No two running operations of one plan. *)
Definition no_overlap (m : gmap uuid (cell OperationRecord)) : Prop :=
  ∀ id1 id2 r1 r2, m !! id1 = Some (Json r1) → m !! id2 = Some (Json r2) →
    running_status r1 = true → running_status r2 = true → or_PlanID r1 = or_PlanID r2 → id1 = id2.

(** Replacing a running operation's record, same plan, keeps [no_overlap]. *)
Lemma no_overlap_replace m id r r' :
  no_overlap m → m !! id = Some (Json r) → or_PlanID r' = or_PlanID r →
  (running_status r' = true → running_status r = true) → no_overlap (<[id := Json r']> m).
Proof.
  intros Hno Hm Hpl Hrun i1 i2 r1 r2. rewrite !lookup_insert.
  repeat case_decide; intros; simplify_eq; try done;
    (eapply Hno; [eassumption|eassumption|..]; solve [auto | congruence]).
Qed.

Lemma no_overlap_insert m id r :
  no_overlap m → (running_status r = true → ¬ running_of_plan m (or_PlanID r)) → no_overlap (<[id := Json r]> m).
Proof.
  intros Hno Hnew i1 i2 r1 r2. rewrite !lookup_insert.
  repeat case_decide; intros; simplify_eq; try done; [| |by eapply Hno].
  - exfalso. eapply Hnew; [done|]. exists i2, r2. done.
  - exfalso. eapply Hnew; [done|]. exists i1, r1. done.
Qed.

Definition all_forbid (desired : option DesiredState) : Prop :=
  ∀ d, desired = Some d → Forall (λ p, ps_ConcurrencyPolicy p = "FORBID") (ds_Plans d).

Lemma effect_no_overlap desired c c' :
  core_ok c → all_forbid desired → effect desired c c' → no_overlap c.1.1 → no_overlap c'.1.1.
Proof.
  intros Hok Hall He Hno. destruct He; cbn in *; try done.
  - apply no_overlap_insert; [done|congruence].
  - apply no_overlap_insert; [done|]. intros _. rewrite H1. apply H7.
    specialize (Hall d H). rewrite Forall_forall in Hall. by apply Hall.
  - destruct (ok_workers _ Hok _ _ H) as (Hid & r0 & Hr0 & Hrun & Hpl). cbn in *. rewrite H0, Hid.
    eapply no_overlap_replace; [done|done|congruence|done].
  - destruct (ok_workers _ Hok _ _ H) as (Hid & r0 & Hr0 & Hrun & Hpl). cbn in *. rewrite H0, Hid.
    apply no_overlap_insert; [eapply no_overlap_replace; [done|done|congruence|done]|].
    intros _ (i & r1 & Hi & Hr1 & Hp1). rewrite lookup_insert in Hi. case_decide; simplify_eq; [congruence|].
    assert (i = or_ID (w_record wk)); [|done]. eapply Hno; [done|done|done|done|congruence].
  - destruct H0 as (? & ? & Hs & _). eapply no_overlap_replace; [done|done|done|].
    unfold running_status. by rewrite Hs.
  - intros i1 i2 r1 r2. rewrite !H. intros H1 H2 Hr1 Hr2 _.
    assert (Hemp : i1 ∈ running_ids m') by (apply elem_of_running_ids; exists r1; by rewrite H).
    rewrite (recover_running_ids _ _ _ H) in Hemp. set_solver.
Qed.

(** A terminal result stays. *)
Lemma effect_final desired c c' id r :
  core_ok c → effect desired c c' → c.1.1 !! id = Some (Json r) → Terminal r = true →
  ∃ r', c'.1.1 !! id = Some (Json r') ∧ same_result r r'.
Proof.
  intros Hok He Hm Ht. pose proof (same_result_refl r) as Hrefl.
  assert (Hwk : ∀ i wk, c.1.2 !! i = Some wk → i ≠ id).
  { intros i wk Hi ->. destruct (ok_workers _ Hok _ _ Hi) as (_ & r0 & Hr0 & Hrun & _).
    rewrite Hm in Hr0. simplify_eq. apply running_not_terminal in Hrun. congruence. }
  destruct He; cbn in *; eauto.
  - exists r. rewrite lookup_insert_ne; [done|congruence].
  - exists r. rewrite lookup_insert_ne; [done|congruence].
  - exists r. destruct (ok_workers _ Hok _ _ H) as [Hid _]. rewrite lookup_insert_ne; [done|].
    rewrite H0, Hid. by eapply Hwk.
  - exists r. destruct (ok_workers _ Hok _ _ H) as [Hid _]. rewrite !lookup_insert_ne; [done| |congruence].
    rewrite H0, Hid. by eapply Hwk.
  - rewrite lookup_insert. case_decide; simplify_eq; eauto.
  - exists r. rewrite H, Hm. cbn. destruct (running_status r) eqn:Hr; [|done].
    apply running_not_terminal in Hr. congruence.
Qed.

(** ** Refinement: what each event does to the core *)

(** Neither the core nor the active configuration changes. *)
Definition quiet (s s' : State) : Prop :=
  core_of s' = core_of s ∧ db_active (st_db s') = db_active (st_db s).

Lemma quiet_refl s : quiet s s.
Proof. by split. Qed.
Lemma quiet_trans s1 s2 s3 : quiet s1 s2 → quiet s2 s3 → quiet s1 s3.
Proof. unfold quiet. intuition congruence. Qed.
#[export] Hint Resolve quiet_refl : restfleet.

Definition same_process (s s' : State) : Prop :=
  st_workers s' = st_workers s ∧ st_started s' = st_started s ∧ st_running s' = st_running s ∧
  st_canceled s' = st_canceled s ∧ st_tickAt s' = st_tickAt s ∧ st_interval s' = st_interval s.

Lemma Update_cases {A} (f : db → result string (A * db)) s r s' :
  Update f s = (r, s') →
  same_process s s' ∧
  match r with Ok a => f (st_db s) = Ok (a, st_db s') | Err _ => st_db s' = st_db s end.
Proof.
  unfold Update. destruct (f (st_db s)) as [[a d]|e].
  - destruct (st_faults s) as [|[] fs]; intros; simplify_eq; by repeat split.
  - intros; simplify_eq. by repeat split.
Qed.

Lemma Update_quiet {A} (f : db → result string (A * db)) s :
  (∀ a d, f (st_db s) = Ok (a, d) →
     db_operations d = db_operations (st_db s) ∧ db_active d = db_active (st_db s)) →
  quiet s (Update f s).2.
Proof.
  intros Hf. destruct (Update f s) as [r s'] eqn:Hu. apply Update_cases in Hu as [(Hw & Hst & _) Hr].
  unfold quiet, core_of. cbn. rewrite Hw, Hst.
  destruct r as [a|e]; [destruct (Hf _ _ Hr) as [-> ->]|rewrite Hr]; done.
Qed.

(** Programs that only ever take quiet steps. *)
Definition is_quiet {A} (m : M A) : Prop := ∀ s, quiet s (m s).2.

Lemma is_quiet_ret {A} (a : A) : is_quiet (ret a).
Proof. intros s. apply quiet_refl. Qed.
Lemma is_quiet_fail {A} e : is_quiet (fail (A:=A) e).
Proof. intros s. apply quiet_refl. Qed.
Lemma is_quiet_View {A} (f : db → result string A) : is_quiet (View f).
Proof. intros s. apply quiet_refl. Qed.
Lemma is_quiet_get : is_quiet get.
Proof. intros s. apply quiet_refl. Qed.
Lemma is_quiet_attempt {A} (m : M A) : is_quiet m → is_quiet (attempt m).
Proof. intros Hm s. unfold attempt. specialize (Hm s). by destruct (m s). Qed.
Lemma is_quiet_bind {A B} (m : M A) (k : A → M B) : is_quiet m → (∀ a, is_quiet (k a)) → is_quiet (bind m k).
Proof.
  intros Hm Hk s. unfold bind. specialize (Hm s). destruct (m s) as [[a|e] s']; [|done].
  eapply quiet_trans; [exact Hm|apply Hk].
Qed.
#[export] Hint Resolve is_quiet_ret is_quiet_fail is_quiet_View is_quiet_get is_quiet_attempt is_quiet_bind : restfleet.

Section Refine.
Context `{U : UuidPkg} `{P : Platform} `{C : ConfigCodec} `{L : LogCodec}.
Context (hooks : gset uuid).

Lemma append_body_shape id e d d' :
  append_body id e d = Ok ((), d') → d' = d ∨ ∃ b, d' = put_log id b d.
Proof.
  intros Ha. unfold append_body in Ha. ok_inv Ha.
  destruct (_ && bool_decide _) in Ha; [left; congruence|]. ok_inv Ha.
  destruct (negb _ && _).
  - destruct (ll_Truncated _); [left; congruence|]. ok_inv Ha. unfold put_entry in Ha. ok_inv Ha.
    injection Ha as <-. eauto.
  - unfold put_entry in Ha. ok_inv Ha. injection Ha as <-. eauto.
Qed.

Lemma is_quiet_append id e : is_quiet (appendOperationLog id e).
Proof.
  intros s. apply Update_quiet. intros [] d Hd. apply append_body_shape in Hd as [->|[b ->]]; done.
Qed.

Lemma is_quiet_operationLog now id section level code files bytes :
  is_quiet (operationLog now id section level code files bytes).
Proof. apply is_quiet_append. Qed.

Lemma is_quiet_updateLogState id update : is_quiet (updateLogState id update).
Proof.
  intros s. apply Update_quiet. intros [] d Hd. destruct (db_logs _ !! id) as [b|]; [|done].
  ok_inv Hd. by injection Hd as <-.
Qed.

Lemma is_quiet_log_step c : is_quiet (log_step c).
Proof. destruct c; [apply is_quiet_append|apply is_quiet_updateLogState..]. Qed.

Lemma is_quiet_PutPlanRuntime rt : is_quiet (PutPlanRuntime rt).
Proof.
  intros s. unfold PutPlanRuntime. destruct (bool_decide _); [apply quiet_refl|].
  apply Update_quiet. intros [] d Hd. by simplify_eq.
Qed.

Lemma is_quiet_Operation id : is_quiet (AgentStore.Operation id).
Proof. apply is_quiet_View. Qed.

Lemma is_quiet_Cancel id : is_quiet (CancelOperation id).
Proof.
  intros s. unfold CancelOperation, bind, attempt, AgentStore.Operation, View, get.
  destruct (match _ with Ok (Some r) => Terminal r | _ => false end); [apply quiet_refl|].
  destruct (st_running s !! id); [by split|]. destruct (_ <? _)%nat; by split.
Qed.

Lemma Operation_none id s :
  AgentStore.Operation id s = (Ok None, s) ↔ db_operations (st_db s) !! id = None.
Proof.
  unfold AgentStore.Operation, View. destruct (db_operations (st_db s) !! id) as [[r|]|]; cbn; naive_solver.
Qed.

Lemma PutOperation_cases r s res s' :
  PutOperation r s = (res, s') →
  match res with
  | Ok _ => core_of s' = (<[or_ID r := Json r]> (db_operations (st_db s)), st_workers s, st_started s) ∧
            db_active (st_db s') = db_active (st_db s)
  | Err _ => quiet s s'
  end.
Proof.
  unfold PutOperation. intros Hu%Update_cases. destruct Hu as [(Hw & Hst & _) Hr]. unfold quiet, core_of. rewrite Hw, Hst.
  destruct res as [[]|e]; [|by rewrite Hr]. injection Hr as <-. done.
Qed.

Lemma PutOperationWithRuntime_cases r rt s res s' :
  PutOperationWithRuntime r rt s = (res, s') →
  match res with
  | Ok _ => core_of s' = (<[or_ID r := Json r]> (db_operations (st_db s)), st_workers s, st_started s) ∧
            db_active (st_db s') = db_active (st_db s)
  | Err _ => quiet s s'
  end.
Proof.
  unfold PutOperationWithRuntime. destruct (_ || _).
  { intros. unfold fail in *. simplify_eq. apply quiet_refl. }
  intros Hu%Update_cases. destruct Hu as [(Hw & Hst & _) Hr]. unfold quiet, core_of. rewrite Hw, Hst.
  destruct res as [[]|e]; [|by rewrite Hr]. injection Hr as <-. done.
Qed.

(** A record that is stored without running. *)
Lemma put_skipped r rt s (x : gset uuid) res s' :
  db_operations (st_db s) !! or_ID r = None → running_status r = false →
  (let* _ := PutOperationWithRuntime r rt in ret x) s = (res, s') →
  (∀ x', res = Ok x' → x' = x) ∧
  effect None (core_of s) (core_of s') ∧ db_active (st_db s') = db_active (st_db s).
Proof.
  intros Hn Hr. unfold bind. destruct (PutOperationWithRuntime r rt s) as [[[]|e] s1] eqn:Hp;
    apply PutOperationWithRuntime_cases in Hp; unfold ret; intros; simplify_eq.
  - destruct Hp as [-> ->]. split; [naive_solver|]. split; [by apply eff_record|done].
  - destruct Hp as [-> ->]. split; [done|]. split; [apply eff_none|done].
Qed.

Lemma effect_weaken desired c c' : effect None c c' → effect desired c c'.
Proof. intros He. destruct He; try done; by econstructor. Qed.

Lemma executeOperation_cases cc plan r deadline s res s' :
  executeOperation cc plan r deadline s = (res, s') →
  res = Ok () ∧
  db_operations (st_db s') = db_operations (st_db s) ∧
  st_workers s' = <[or_ID r := mkWorker Starting plan r deadline [or_ID r]]> (st_workers s) ∧
  st_started s' = st_started s ∧ db_active (st_db s') = db_active (st_db s).
Proof. unfold executeOperation, bind, BeginOperation, modify. intros. by simplify_eq. Qed.

(** Store a RUNNING record, then spawn its worker. *)
Lemma start_effect d plan r deadline cc s s1 res s' :
  plan ∈ ds_Plans d → or_PlanID r = ps_PlanID plan → db_operations (st_db s) !! or_ID r = None →
  running_status r = true →
  Z.of_nat (size (running_ids (db_operations (st_db s)))) < MaxParallelIOJobs (ds_RuntimePolicy d) →
  (ps_ConcurrencyPolicy plan = "FORBID" → ¬ running_of_plan (db_operations (st_db s)) (ps_PlanID plan)) →
  core_of s1 = (<[or_ID r := Json r]> (db_operations (st_db s)), st_workers s, st_started s) →
  db_active (st_db s1) = db_active (st_db s) →
  executeOperation cc plan r deadline s1 = (res, s') →
  res = Ok () ∧ effect (Some d) (core_of s) (core_of s') ∧ db_active (st_db s') = db_active (st_db s) ∧
  db_operations (st_db s') = <[or_ID r := Json r]> (db_operations (st_db s)).
Proof.
  intros Hpl Hid Hn Hr Hroom Hf Hc Ha He. apply executeOperation_cases in He as (-> & H1 & H2 & H3 & H4).
  unfold core_of in Hc. injection Hc as E1 E2 E3. rewrite E1 in H1. rewrite E2 in H2. rewrite E3 in H3.
  split; [done|]. split; [|split; congruence]. unfold core_of. rewrite H1, H2, H3.
  by apply (eff_start (Some d) _ _ _ r _ d plan).
Qed.

(** *** Plans with a running operation *)

Definition plans_covered (m : gmap uuid (cell OperationRecord)) (plans : gset uuid) : Prop :=
  ∀ p, running_of_plan m p → p ∈ plans.

Lemma effect_covered c c' plans :
  core_ok c → effect None c c' → plans_covered c.1.1 plans → plans_covered c'.1.1 plans.
Proof.
  intros Hok He Hc p (i & r & Hi & Hr & Hp). destruct He; cbn in *; try done; try (apply Hc; by exists i, r).
  - rewrite lookup_insert in Hi. case_decide; simplify_eq; [congruence|]. apply Hc. by exists i, r.
  - destruct (ok_workers _ Hok _ _ H) as (Hid & r1 & Hr1 & ? & Hpl).
    rewrite lookup_insert in Hi. case_decide; simplify_eq; [|apply Hc; by exists i, r].
    apply Hc. exists (or_ID (w_record wk)), r1. split; [done|]. split; [done|congruence].
  - destruct (ok_workers _ Hok _ _ H) as (Hid & r1 & Hr1 & ? & Hpl). cbn in *.
    rewrite !lookup_insert in Hi. repeat case_decide; simplify_eq; [|congruence|apply Hc; by exists i, r].
    apply Hc. exists (or_ID (w_record wk)), r1. split; [done|]. split; [done|congruence].
  - rewrite lookup_insert in Hi. case_decide; simplify_eq; [|apply Hc; by exists i, r].
    apply Hc. exists i, r0. split; [done|]. destruct H0 as (_ & ? & Hs & _). split; [|done].
    unfold running_status in *. by rewrite Hs in Hr.
  - assert (Hemp : i ∈ running_ids m') by (apply elem_of_running_ids; by exists r).
    rewrite (recover_running_ids _ _ _ H) in Hemp. set_solver.
Qed.

Lemma start_covered m r id plans :
  plans_covered m plans → plans_covered (<[id := Json r]> m) ({[or_PlanID r]} ∪ plans).
Proof.
  intros Hc p (i & r1 & Hi & Hr1 & Hp). rewrite lookup_insert in Hi. case_decide; simplify_eq; [set_solver|].
  apply elem_of_union_r, Hc. by exists i, r1.
Qed.

(** The outcome of a step of the tick: an effect under the desired state, the
    same configuration, and a set that still covers the running plans. *)
Definition tick_effect (d : DesiredState) (s : State) (running : gset uuid)
    (res : result string (gset uuid)) (s' : State) : Prop :=
  effect (Some d) (core_of s) (core_of s') ∧ db_active (st_db s') = db_active (st_db s) ∧
  plans_covered (db_operations (st_db s')) (match res with Ok r => r | Err _ => running end).

Lemma tick_effect_none d s running res s' :
  core_ok (core_of s) → plans_covered (db_operations (st_db s)) running →
  (∀ x, res = Ok x → x = running) → effect None (core_of s) (core_of s') →
  db_active (st_db s') = db_active (st_db s) → tick_effect d s running res s'.
Proof.
  intros Hok Hc Hx He Ha. split; [by apply effect_weaken|]. split; [done|].
  pose proof (effect_covered _ _ running Hok He Hc) as Hc'. destruct res as [x|]; [|done].
  by rewrite (Hx x eq_refl).
Qed.

Lemma admit_slot_effect cc plan now scheduled running rt opid s d res s' :
  core_ok (core_of s) → plan ∈ ds_Plans d → db_operations (st_db s) !! opid = None →
  plans_covered (db_operations (st_db s)) running →
  Z.of_nat (size (running_ids (db_operations (st_db s)))) < MaxParallelIOJobs (ds_RuntimePolicy d) ∨
    ConcurrencySkip (ps_ConcurrencyPolicy plan) (bool_decide (ps_PlanID plan ∈ running)) = true →
  admit_slot cc plan now scheduled running rt opid s = (res, s') → tick_effect d s running res s'.
Proof.
  intros Hok Hplan Hnew Hcov Hroom Ha. unfold admit_slot in Ha. unfold bind at 1, get at 1 in Ha. cbn [fst snd] in Ha.
  destruct (negb _ && bool_decide _) in Ha.
  { apply put_skipped in Ha as (Hx & He & Hact); [by apply tick_effect_none|exact Hnew|reflexivity]. }
  destruct (ConcurrencySkip _ _) eqn:Hskip.
  { apply put_skipped in Ha as (Hx & He & Hact); [by apply tick_effect_none|exact Hnew|reflexivity]. }
  destruct Hroom as [Hroom|?]; [|congruence].
  unfold bind at 1 in Ha. destruct (PutOperationWithRuntime _ _ s) as [[[]|e] s1] eqn:Hput;
    apply PutOperationWithRuntime_cases in Hput; cbn beta iota in Hput.
  2:{ injection Ha as <- <-. destruct Hput as [Hq ?].
      apply tick_effect_none; [done..|by rewrite Hq; apply eff_none|done]. }
  unfold bind in Ha. destruct (executeOperation _ _ _ _ s1) as [r2 s2] eqn:He. destruct Hput as [Hq1 Hq2].
  eapply (start_effect d plan) in He as (-> & He & Hact & Hops); [|done..| |done|done].
  - unfold ret in Ha. injection Ha as <- <-. split_and!; [done..|]. rewrite Hops. by apply start_covered.
  - intros Hf Hrun%Hcov. unfold ConcurrencySkip in Hskip. rewrite Hf in Hskip.
    rewrite bool_decide_eq_true_2 in Hskip by done. vm_compute in Hskip. done.
Qed.

Lemma put_runtime_effect d rt s running res s' :
  core_ok (core_of s) → plans_covered (db_operations (st_db s)) running →
  (let* _ := PutPlanRuntime rt in ret running) s = (res, s') → tick_effect d s running res s'.
Proof.
  intros Hok Hc. unfold bind. pose proof (is_quiet_PutPlanRuntime rt s) as [Hq1 Hq2].
  destruct (PutPlanRuntime rt s) as [[[]|e] s1]; unfold ret; cbn [snd] in Hq1, Hq2; intros Heq; injection Heq as <- <-;
    (apply tick_effect_none; [done..| |rewrite Hq1; apply eff_none|done]); naive_solver.
Qed.

Lemma advancePlan_effect cc plan now running s d res s' :
  core_ok (core_of s) → plan ∈ ds_Plans d → plans_covered (db_operations (st_db s)) running →
  Z.of_nat (size (running_ids (db_operations (st_db s)))) < MaxParallelIOJobs (ds_RuntimePolicy d) ∨
    ConcurrencySkip (ps_ConcurrencyPolicy plan) (bool_decide (ps_PlanID plan ∈ running)) = true →
  advancePlan cc plan now running s = (res, s') → tick_effect d s running res s'.
Proof.
  intros Hok Hplan Hcov Hroom Ha. unfold advancePlan in Ha.
  assert (Hsame : ∀ r, (∀ x, r = Ok x → x = running) → tick_effect d s running r s).
  { intros r Hr. apply tick_effect_none; [done..|apply eff_none|done]. }
  destruct (New _ _) as [scheduler|e]; [|injection Ha as <- <-; apply Hsame; naive_solver].
  unfold bind at 1, PlanRuntime_, View in Ha.
  destruct (match db_runtimes (st_db s) !! ps_PlanID plan with Some _ => _ | None => _ end) as [found|e];
    [|injection Ha as <- <-; apply Hsame; naive_solver].
  destruct (_ || _) in Ha; [by eapply put_runtime_effect|].
  destruct (Before now _) in Ha; [injection Ha as <- <-; apply Hsame; naive_solver|].
  unfold bind at 1 in Ha. set (opid := OperationID _ _) in Ha.
  destruct (AgentStore.Operation opid s) as [[existing|e] s1] eqn:Hop;
    (assert (s1 = s) as -> by (unfold AgentStore.Operation, View in Hop; congruence));
    [|injection Ha as <- <-; apply Hsame; naive_solver].
  destruct existing as [r|]; [by eapply put_runtime_effect|].
  apply Operation_none in Hop. by eapply admit_slot_effect.
Qed.

Lemma to_uint32_id z : 0 ≤ z < 2 ^ 32 → to_uint32 z = z.
Proof. apply Z.mod_small. Qed.

Lemma tick_plan_effect cc f plan s res s' :
  core_ok (core_of s) → plan ∈ ds_Plans (tf_desired f) →
  plans_covered (db_operations (st_db s)) (tf_running f) →
  (size (running_ids (db_operations (st_db s))) ≤ 16)%nat →
  tick_plan cc f plan s = (res, s') → tick_effect (tf_desired f) s (tf_running f) res s'.
Proof.
  intros Hok Hplan Hcov Hcap Ht. unfold tick_plan, bind at 1 in Ht.
  assert (Hsame : ∀ r, (∀ x, r = Ok x → x = tf_running f) → tick_effect (tf_desired f) s (tf_running f) r s).
  { intros r Hr. apply tick_effect_none; [done..|apply eff_none|done]. }
  destruct (RunningOperations s) as [[current|e] s1] eqn:Hrun.
  2:{ unfold RunningOperations, View in Hrun. simplify_eq. by apply Hsame. }
  destruct (RunningOperations_length _ _ _ (ok_store _ Hok) Hrun) as (-> & Hlen & _). cbn in Hlen.
  rewrite Hlen, to_uint32_id in Ht by lia.
  destruct (_ && negb _) eqn:Hfull in Ht; [injection Ht as <- <-; apply Hsame; naive_solver|].
  unfold bind, attempt in Ht. destruct (advancePlan cc plan (tf_now f) (tf_running f) s) as [adv s1] eqn:Hadv.
  injection Ht as <- <-. eapply advancePlan_effect in Hadv; [|done..|].
  - destruct adv; done.
  - apply andb_false_iff in Hfull as [Hf|Hf]; bool_prop; [left; lia|by right].
Qed.
End Refine.

Section RefineDispatch.
Context `{U : UuidPkg} `{P : Platform} `{C : ConfigCodec} `{L : LogCodec}.

(** An effect under the active configuration, which does not change. *)
Definition active_effect (s s' : State) : Prop :=
  effect (active_of s) (core_of s) (core_of s') ∧ db_active (st_db s') = db_active (st_db s).

Lemma active_effect_quiet s s' : quiet s s' → active_effect s s'.
Proof. intros [Hc Ha]. split; [rewrite Hc; apply eff_none|done]. Qed.

Lemma active_effect_from s s1 s' : quiet s s1 → active_effect s1 s' → active_effect s s'.
Proof.
  intros [Hc Ha] [He Ha']. unfold active_effect, active_of in *. rewrite <- Hc, <- Ha. done.
Qed.

Lemma is_quiet_ConsumeCancel id : is_quiet (ConsumeCancel id).
Proof. intros s. unfold ConsumeCancel, bind, get. destruct (bool_decide _); by split. Qed.

Lemma is_quiet_job_reject job code : is_quiet (job_reject job code).
Proof. apply is_quiet_ret. Qed.

Lemma cancel_before_start_effect job opid planID notBefore now s :
  db_operations (st_db s) !! opid = None →
  active_effect s (cancel_before_start job opid planID notBefore now s).2.
Proof.
  intros Hn. unfold cancel_before_start, bind, attempt. set (r := job_record _ _ _ _ _ _ _ _ _ _ _ _).
  destruct (PutOperation r s) as [[[]|e] s1] eqn:Hp; apply PutOperation_cases in Hp; cbn.
  - destruct Hp as [Hc Ha]. split; [|done]. rewrite Hc. by apply eff_record.
  - by apply active_effect_quiet.
Qed.

Lemma admit_job_effect cc job desired plan opid planID lineage notBefore deadline now s :
  core_ok (core_of s) → (size (running_ids (db_operations (st_db s))) ≤ 16)%nat →
  active_of s = Some desired → plan ∈ ds_Plans desired → ps_PlanID plan = planID →
  db_operations (st_db s) !! opid = None →
  active_effect s (admit_job cc job desired plan opid planID lineage notBefore deadline now s).2.
Proof.
  intros Hok Hcap Hact Hplan Hpid Hn. unfold admit_job, bind at 1, attempt at 1.
  destruct (RunningOperations s) as [[running|e] s1] eqn:Hrun.
  2:{ unfold RunningOperations, View in Hrun. injection Hrun as _ <-. apply active_effect_quiet, quiet_refl. }
  destruct (RunningOperations_length _ _ _ (ok_store _ Hok) Hrun) as (-> & Hlen & Hin). cbn in Hlen.
  rewrite Hlen, to_uint32_id by lia.
  destruct (_ <=? _) eqn:Hfull; [apply active_effect_quiet, quiet_refl|].
  destruct (existsb _ running) eqn:Hex; [apply active_effect_quiet, quiet_refl|]. bool_prop.
  unfold bind at 1, attempt at 1. set (r := job_record _ _ _ _ _ _ _ _ _ _ _ _).
  destruct (PutOperation r s) as [[[]|e] s1] eqn:Hp; apply PutOperation_cases in Hp; cbn [is_ok];
    [|by apply active_effect_quiet].
  destruct Hp as [Hc Ha]. unfold bind. destruct (executeOperation _ _ _ _ s1) as [r2 s2] eqn:He.
  eapply (start_effect desired plan) in He as (-> & He & Hact' & _); [..|exact Hc|exact Ha]; try done.
  - split; [|done]. by rewrite Hact.
  - intros Hf (i & r1 & Hi & Hr1 & Hp1). apply existsb_false in Hex. rewrite Forall_forall in Hex.
    destruct (ok_store _ Hok _ _ Hi) as (r' & ? & Hid). simplify_eq.
    specialize (Hex r'). rewrite Hf, Hp1 in Hex. rewrite bool_decide_eq_true_2 in Hex by done.
    discriminate Hex. apply Hin. done.
Qed.

Lemma find_plan_spec planID plans plan : find_plan planID plans = Some plan → plan ∈ plans ∧ ps_PlanID plan = planID.
Proof.
  intros Hf. apply List.find_some in Hf as [Hin Hid]. bool_prop. split; [by apply list_elem_of_In|done].
Qed.

(** A stateless prefix of a program. *)
Lemma effect_bind_pure {A B} (m : M A) (k : A → M B) s :
  (m s).2 = s → (∀ a, m s = (Ok a, s) → active_effect s (k a s).2) → active_effect s (bind m k s).2.
Proof.
  intros Hm Hk. unfold bind. destruct (m s) as [[a|e] s1]; cbn in Hm; subst; [by apply Hk|].
  apply active_effect_quiet, quiet_refl.
Qed.

Lemma parse_lineage_pure job s : (parse_lineage job s).2 = s.
Proof.
  unfold parse_lineage, parse_operation, bind. destruct (_ != _); [|done].
  destruct (Parse (jd_ParentOperationId job)) as [i|]; [|done]. destruct (Operation.ValidOperationID i); [|done].
  cbn. destruct (Parse (jd_RootOperationId job)) as [j|]; [|done]. by destruct (Operation.ValidOperationID j).
Qed.

Lemma parse_v7_pure raw err s : (parse_v7 raw err s).2 = s.
Proof. unfold parse_v7. destruct (Parse raw) as [i|]; [|done]. by destruct (valid_v7 i). Qed.

Lemma handleJobDispatch_effect cc job now1 now2 now3 s :
  core_ok (core_of s) → (size (running_ids (db_operations (st_db s))) ≤ 16)%nat →
  active_effect s (handleJobDispatch cc job now1 now2 now3 s).2.
Proof.
  intros Hok Hcap. pose proof (active_effect_quiet s s (quiet_refl s)) as Hsame. unfold handleJobDispatch.
  apply effect_bind_pure; [apply parse_v7_pure|intros opid _].
  apply effect_bind_pure; [apply parse_v7_pure|intros planID _].
  apply effect_bind_pure; [apply parse_lineage_pure|intros lineage _].
  destruct (jd_Type job != _); [done|].
  apply effect_bind_pure; [done|intros existing Hex]. unfold attempt in Hex.
  destruct (AgentStore.Operation opid s) as [ex s1] eqn:Hop. injection Hex as -> ->.
  destruct existing as [[r|]|e]; [| |done].
  { unfold replay. destruct (_ || _); [done|]. by destruct (Terminal r). }
  apply Operation_none in Hop.
  apply effect_bind_pure; [done|intros desired Hd]. unfold attempt, ActiveDesiredState, View in Hd.
  destruct desired as [[desired|]|e]; [|done..].
  destruct (find_plan planID (ds_Plans desired)) as [plan|] eqn:Hfp; [|done].
  apply find_plan_spec in Hfp as [Hplan Hpid].
  assert (Hact : active_of s = Some desired).
  { unfold active_of. destruct (db_active (st_db s)) as [[x|]|]; cbn in Hd; by simplify_eq. }
  destruct (_ || _); [done|]. destruct (jd_Deadline job) as [deadline|]; [|done].
  destruct (jd_NotBefore job) as [notBefore|]; [|done].
  destruct (negb _); [done|]. destruct (After notBefore now2); [done|].
  unfold bind. pose proof (is_quiet_ConsumeCancel opid s) as Hq.
  destruct (ConsumeCancel opid s) as [[canceled|e] s1]; cbn [snd] in Hq; [|by apply active_effect_quiet].
  apply (active_effect_from s s1); [done|].
  assert (Hc1 : core_of s1 = core_of s) by apply Hq.
  assert (Hops : db_operations (st_db s1) = db_operations (st_db s)) by (by apply (f_equal (λ c, c.1.1)) in Hc1).
  destruct canceled; [apply cancel_before_start_effect; by rewrite Hops|].
  apply admit_job_effect; rewrite ?Hc1, ?Hops; try done.
  unfold active_of in *. destruct Hq as [_ ->]. done.
Qed.
End RefineDispatch.

Section RefineWorkers.
Context `{U : UuidPkg} `{P : Platform} `{C : ConfigCodec} `{L : LogCodec}.

(** An effect that starts nothing, under an unchanged configuration. *)
Definition idle_effect (s s' : State) : Prop :=
  effect None (core_of s) (core_of s') ∧ db_active (st_db s') = db_active (st_db s).

Lemma idle_quiet s s' : quiet s s' → idle_effect s s'.
Proof. intros [Hc Ha]. split; [rewrite Hc; apply eff_none|done]. Qed.

Lemma idle_from s s1 s' : quiet s s1 → idle_effect s1 s' → idle_effect s s'.
Proof. intros [Hc Ha] [He Ha']. unfold idle_effect. rewrite <- Hc, <- Ha. done. Qed.

Lemma quiet_worker s s1 id : quiet s s1 → st_workers s1 !! id = st_workers s !! id.
Proof. intros [Hc _]. apply (f_equal (λ c, c.1.2)) in Hc. cbn in Hc. by rewrite Hc. Qed.

Lemma exit_worker_core id w s :
  core_of (exit_worker id w s).2 = (db_operations (st_db s), delete id (st_workers s), st_started s) ∧
  db_active (st_db (exit_worker id w s).2) = db_active (st_db s).
Proof.
  unfold exit_worker, modify. cbn [snd].
  set (f := λ i s, set_canceled (st_canceled s ∖ {[i]}) (set_running (delete i (st_running s)) s)).
  assert (Hf : ∀ l, core_of (foldr f s l) = core_of s ∧ st_db (foldr f s l) = st_db s).
  { induction l as [|i l [IH1 IH2]]; [done|]. cbn. rewrite <- IH1, <- IH2. done. }
  destruct (Hf (w_registered w)) as [H1 H2]. unfold core_of in *. cbn. injection H1 as E1 E2 E3.
  by rewrite E1, E2, E3, H2.
Qed.

Lemma exit_worker_idle id w s : idle_effect s (exit_worker id w s).2.
Proof. destruct (exit_worker_core id w s) as [Hc Ha]. split; [rewrite Hc; apply eff_abandon|done]. Qed.

Lemma worker_start_idle id w now s :
  st_workers s !! id = Some w → w_phase w = Starting → idle_effect s (worker_start id w now s).2.
Proof.
  intros Hw Hph. unfold worker_start, bind at 1, attempt at 1.
  pose proof (is_quiet_operationLog now id "backup" "INFO" "BACKUP_STARTED" 0 0 s) as Hq.
  destruct (operationLog _ _ _ _ _ _ _ s) as [logged s1]. cbn [snd] in Hq.
  apply (idle_from s s1); [done|]. rewrite <- (quiet_worker s s1) in Hw by done.
  destruct logged; split; try done; cbn.
  - eapply eff_run; done.
  - eapply eff_phase; [done|done|by left].
Qed.

Lemma finish_body_cases plan record deadline allowRetry now1 now2 fresh d next d' :
  finish_body plan record deadline allowRetry now1 now2 fresh d = Ok (next, d') →
  db_active d' = db_active d ∧
  match next with
  | None => db_operations d' = <[or_ID record := Json record]> (db_operations d)
  | Some n =>
      ∃ id attempt retryAt deadline',
        fresh = Some id ∧ or_Status record = "FAILED" ∧ n = next_attempt id record attempt retryAt now2 deadline' ∧
        db_operations d' = <[id := Json n]> (<[or_ID record := Json record]> (db_operations d))
  end.
Proof.
  unfold finish_body. destruct (retry_policy plan record allowRetry) as [policy|] eqn:Hpol;
    [|by intros; simplify_eq].
  destruct (_ <=? _); [by intros; simplify_eq|]. cbn [db_active put_operation set_operations].
  destruct (db_active d) as [[desired|]|] eqn:Hact; [|by intros; simplify_eq..].
  destruct (negb (existsb _ _)); [by intros; simplify_eq|].
  destruct (negb (Before _ _)); [by intros; simplify_eq|].
  destruct fresh as [id|]; [|done]. intros Heq. injection Heq as <- <-.
  split; [done|]. unfold retry_policy in Hpol. destruct (_ || _) eqn:Hg in Hpol; [done|]. bool_prop.
  eauto 10.
Qed.

Lemma worker_finish_idle id w outcome t fresh s :
  core_ok (core_of s) → st_workers s !! id = Some w →
  (∀ i, fresh = Some i → db_operations (st_db s) !! i = None) →
  idle_effect s (worker_finish id w outcome t fresh s).2.
Proof.
  intros Hok Hw Hfresh. unfold worker_finish.
  set (o := match w_phase w with Unlogged => _ | _ => _ end).
  unfold bind at 1, attempt at 1.
  pose proof (is_quiet_operationLog (in_log t) id "backup" (final_event o).2 (final_event o).1
    (oo_FilesDone o) (oo_BytesDone o) s) as Hq.
  destruct (operationLog _ _ _ _ _ _ _ s) as [logged s1]. cbn [snd] in Hq.
  apply (idle_from s s1); [done|].
  assert (Hc1 : core_of s1 = core_of s) by apply Hq.
  assert (Hops : db_operations (st_db s1) = db_operations (st_db s)) by (by apply (f_equal (λ c, c.1.1)) in Hc1).
  rewrite <- (quiet_worker s s1) in Hw by done. rewrite <- Hc1 in Hok. rewrite <- Hops in Hfresh.
  destruct (ok_workers _ Hok _ _ Hw) as (Hid & r0 & Hr0 & Hrun & Hpl). cbn in Hr0.
  set (record := with_outcome _ _ _).
  unfold bind at 1, get at 1, bind at 1, attempt at 1.
  destruct (finishWithRetry _ _ _ _ _ _ _ s1) as [fin s2] eqn:Hfin.
  apply Update_cases in Hfin as [(Hw2 & Hst2 & _) Hfin].
  destruct fin as [[n|]|e].
  - apply finish_body_cases in Hfin as (Ha & i & att & ra & dl & -> & Hst & -> & Ho2).
    split; [|by cbn]. unfold bind, get, BeginOperation, modify. cbn. unfold core_of. cbn.
    rewrite Ho2, Hw2, Hst2.
    eapply (eff_retry None _ _ _ id w record (next_attempt i record att ra (in_started t) dl)); try done.
    + unfold running_status. rewrite Hst. done.
    + by apply Hfresh.
  - apply finish_body_cases in Hfin as [Ha Ho2]. destruct (exit_worker_core id w s2) as [Hc Ha2].
    split; [|congruence]. rewrite Hc, Ho2, Hw2, Hst2. by eapply (eff_finish None _ _ _ id w record).
  - destruct (exit_worker_core id w s2) as [Hc Ha2]. split; [|congruence].
    rewrite Hc, Hfin, Hw2, Hst2. apply eff_abandon.
Qed.

Lemma close_waiting_idle id w code now nowLog s :
  core_ok (core_of s) → st_workers s !! id = Some w →
  idle_effect s (close_waiting id w code now nowLog s).2.
Proof.
  intros Hok Hw. unfold close_waiting. unfold bind at 1, attempt at 1.
  pose proof (is_quiet_operationLog nowLog id "backup" "ERROR" code 0 0 s) as Hq.
  destruct (operationLog _ _ _ _ _ _ _ s) as [logged s1]. cbn [snd] in Hq.
  apply (idle_from s s1); [done|]. rewrite <- (quiet_worker s s1) in Hw by done.
  unfold bind, attempt. destruct (PutOperation _ s1) as [[[]|e] s2] eqn:Hp; apply PutOperation_cases in Hp.
  - destruct Hp as [Hc Ha]. destruct (exit_worker_core id w s2) as [Hc2 Ha2]. split; [|congruence].
    rewrite Hc2. unfold core_of in Hc. injection Hc as -> -> ->.
    by eapply (eff_finish None _ _ _ id w (with_status "CANCELED" code now (w_record w))).
  - eapply idle_from; [exact Hp|]. apply exit_worker_idle.
Qed.

Lemma worker_timer_idle id w nowCheck now nowLog s :
  core_ok (core_of s) → st_workers s !! id = Some w → w_phase w = Waiting →
  idle_effect s (worker_timer id w nowCheck now nowLog s).2.
Proof.
  intros Hok Hw Hph. unfold worker_timer, bind, attempt, ActiveDesiredState, View.
  destruct (negb _ || _); [by apply close_waiting_idle|].
  split; [|done]. cbn. eapply eff_phase; [done|done|by right].
Qed.

Lemma updateOperation_idle id f s :
  (∀ r, same_result r (f r)) → idle_effect s (updateOperation id f s).2.
Proof.
  intros Hf. destruct (updateOperation id f s) as [r s'] eqn:Hu.
  unfold updateOperation in Hu. apply Update_cases in Hu as [(Hw & Hst & _) Hr].
  unfold idle_effect, core_of. cbn [snd]. rewrite Hw, Hst.
  destruct r as [[]|e]; [|rewrite Hr; split; [apply eff_none|done]].
  destruct (db_operations (st_db s) !! id) as [[r|]|] eqn:Hm; cbn in Hr; [|done|].
  - injection Hr as <-. split; [|done]. by eapply eff_update.
  - injection Hr as <-. split; [apply eff_none|done].
Qed.

Lemma restart_effect now interval s :
  core_ok (core_of s) → idle_effect s (restart now interval s).
Proof.
  intros Hok. unfold restart, exec. set (s0 := mkState _ _ _ _ _ _ _ _).
  pose proof (ok_store _ Hok : store_ok (db_operations (st_db s0))) as Hst.
  unfold RecoverRunningOperations, Update.
  destruct (to_recover now _) as [items|e] eqn:Hr; [|split; [apply eff_crash|done]].
  pose proof (λ id, recover_lookup now (db_operations (st_db s0)) items id Hr) as Hl. cbn [rbind].
  destruct (st_faults s0) as [|[] fs]; cbn; (split; [|done]).
  - eapply (eff_recover None _ _ _ _ now). exact Hl.
  - apply eff_crash.
  - eapply (eff_recover None _ _ _ _ now). exact Hl.
Qed.
End RefineWorkers.

(** ** Invariant of the Agent *)

Section AgentInvariant.
Context `{U : UuidPkg} `{P : Platform} `{C : ConfigCodec} `{L : LogCodec}.
Context (hooks : gset uuid).

Definition frame_ok (s : State) (tick : option TickFrame) : Prop :=
  match tick with
  | None => True
  | Some f => active_of s = Some (tf_desired f) ∧ (∀ p, p ∈ tf_todo f → p ∈ ds_Plans (tf_desired f)) ∧
              plans_covered (db_operations (st_db s)) (tf_running f)
  end.

Definition policy_ok (s : State) : Prop :=
  ∀ d, active_of s = Some d → 1 ≤ MaxParallelIOJobs (ds_RuntimePolicy d) ≤ 16.

Record agent_ok (x : Agent) : Prop := {
  ao_core : core_ok (core_of (ag_state x));
  ao_policy : policy_ok (ag_state x);
  ao_capacity : (size (running_ids (db_operations (st_db (ag_state x)))) ≤ 16)%nat;
  ao_frame : frame_ok (ag_state x) (ag_tick x) }.

(** What the refinement of one event states. *)
Definition refines (x x' : Agent) : Prop :=
  effect (active_of (ag_state x)) (core_of (ag_state x)) (core_of (ag_state x')) ∧ agent_ok x'.

Lemma active_of_eq s s' : db_active (st_db s') = db_active (st_db s) → active_of s' = active_of s.
Proof. unfold active_of. by intros ->. Qed.

(** From an effect under the active configuration to the invariant. *)
Lemma refines_intro x s' tick :
  agent_ok x → effect (active_of (ag_state x)) (core_of (ag_state x)) (core_of s') →
  policy_ok s' → frame_ok s' tick → refines x (mkAgent s' tick).
Proof.
  intros [Hok Hpol Hcap _] He Hp Hf. split; [done|]. split; try done; cbn.
  - by eapply effect_core_ok.
  - destruct (effect_capacity _ _ _ Hok He) as [Hle|(d & Hd & Hle)]; cbn in Hle; [lia|].
    specialize (Hpol d Hd). lia.
Qed.

Lemma refines_idle x s' : agent_ok x → idle_effect (ag_state x) s' → refines x (mkAgent s' (ag_tick x)).
Proof.
  intros Hx [He Ha]. pose proof Hx as [Hok Hpol Hcap Hf]. apply refines_intro; [done|by apply effect_weaken| |].
  - unfold policy_ok. by rewrite (active_of_eq _ _ Ha).
  - unfold frame_ok in *. destruct (ag_tick x) as [f|]; [|done]. destruct Hf as (H1 & H2 & H3).
    rewrite (active_of_eq _ _ Ha). split_and!; try done. by apply (effect_covered _ _ _ Hok He).
Qed.

Lemma refines_locked x s' : agent_ok x → active_effect (ag_state x) s' → refines x (mkAgent s' None).
Proof.
  intros Hx [He Ha]. apply refines_intro; [done..| |done]. unfold policy_ok.
  rewrite (active_of_eq _ _ Ha). apply (ao_policy _ Hx).
Qed.

Lemma refines_refl x : agent_ok x → refines x x.
Proof. intros Hx. split; [apply eff_none|done]. Qed.

(** *** Configuration *)

Lemma Update_core {A} (f : db → result string (A * db)) s :
  (∀ a d, f (st_db s) = Ok (a, d) → db_operations d = db_operations (st_db s)) →
  core_of (Update f s).2 = core_of s.
Proof.
  intros Hf. destruct (Update f s) as [r s'] eqn:Hu. apply Update_cases in Hu as [(Hw & Hst & _) Hr].
  unfold core_of. cbn. rewrite Hw, Hst. destruct r as [a|e]; [by rewrite (Hf _ _ Hr)|by rewrite Hr].
Qed.

Lemma store_result_core r s : core_of (store_result r s).2 = core_of s.
Proof.
  unfold store_result, bind, storePendingConfigResult.
  pose proof (Update_core (λ d, Ok ((), set_outbound (Some (Json r)) d)) s
    ltac:(intros [] d Hd; cbn in Hd; by simplify_eq)) as H.
  by destruct (Update _ s) as [[] s'].
Qed.

Lemma activate_core now active state s : core_of (activate now active state s).2 = core_of s.
Proof.
  unfold activate, bind.
  pose proof (Update_core (λ d, Ok ((), set_staging (Some (Json state)) d)) s
    ltac:(intros [] d Hd; cbn in Hd; by simplify_eq)) as H.
  destruct (Update _ s) as [[[]|e] s1]; cbn [snd] in *; [|done]. rewrite <- H.
  set (f := λ d, _ : result string (() * db)).
  assert (core_of (Update f s1).2 = core_of s1) as Hc.
  { apply Update_core. intros [] d Hd. unfold f in Hd. ok_inv Hd. by injection Hd as <-. }
  by destruct (Update f s1) as [[[]|e] s2].
Qed.

Lemma ApplyDesiredState_core now aid snap s :
  core_of (ApplyDesiredState hooks now aid snap s).2 = core_of s.
Proof.
  unfold ApplyDesiredState. destruct (checked_state hooks aid snap) as [state|err].
  2:{ destruct (_ <? _); [done|apply store_result_core]. }
  unfold bind, ActiveDesiredState, View.
  destruct (db_active (st_db s)) as [[a|]|]; cbn [unmarshal rbind]; [|done|apply activate_core].
  destruct (_ <? _); [apply store_result_core|]. destruct (_ =? _); [|apply activate_core].
  destruct (ds_ConfigHash state != _); apply store_result_core.
Qed.

Lemma Validate_policy state :
  Desired.ValidateDesired marshal_plans state = Ok () → 1 ≤ MaxParallelIOJobs (ds_RuntimePolicy state) ≤ 16.
Proof.
  unfold Desired.ValidateDesired. intros Hv. ok_inv Hv. unfold out_of_range in *. bool_prop. lia.
Qed.

Lemma ApplyDesiredState_policy now aid snap s :
  policy_ok s → policy_ok (ApplyDesiredState hooks now aid snap s).2.
Proof.
  intros Hp. unfold policy_ok, active_of in *.
  destruct (ApplyDesiredState_cases hooks now aid snap s) as [[Ha _]|(a & st & Hc & _ & _ & Ha & _)];
    rewrite Ha; [done|]. intros d Hd. injection Hd as <-.
  apply checked_state_ok in Hc as [Hv _]. by apply Validate_policy.
Qed.

(** *** Ticks *)

Lemma tick_begin_frame now s f s' :
  core_ok (core_of s) → tick_begin now s = (Ok f, s') → s' = s ∧ frame_ok s f.
Proof.
  intros Hok. unfold tick_begin, bind at 1, ActiveDesiredState, View.
  destruct (db_active (st_db s)) as [[d|]|] eqn:Ha; cbn [unmarshal rbind]; [|done|].
  2:{ intros Heq. by injection Heq as <- <-. }
  unfold bind. destruct (RunningOperations s) as [[rs|e] s1] eqn:Hrun; [|done].
  destruct (RunningOperations_length _ _ _ (ok_store _ Hok) Hrun) as (-> & _ & Hin).
  intros Heq. injection Heq as <- <-. split; [done|]. cbn. split_and!.
  - unfold active_of. by rewrite Ha.
  - done.
  - intros p (i & r & Hi & Hr & <-). apply elem_of_list_to_set, list_elem_of_fmap. exists r. split; [done|].
    apply Hin. destruct (ok_store _ Hok _ _ Hi) as (r' & ? & Hid). simplify_eq. done.
Qed.

Lemma tick_begin_state now s : (tick_begin now s).2 = s.
Proof.
  unfold tick_begin, bind, ActiveDesiredState, RunningOperations, View.
  destruct (db_active (st_db s)) as [[d|]|]; cbn; try done. by destruct (collect _ _).
Qed.

Lemma tick_step_refines cc x : agent_ok x → refines x (tick_step cc x).
Proof.
  intros Hx. unfold tick_step. destruct (ag_tick x) as [[now desired running [|plan todo]]|] eqn:Ht;
    [by apply refines_refl| |by apply refines_refl].
  pose proof (ao_frame _ Hx) as Hf. rewrite Ht in Hf. destruct Hf as (Hact & Htodo & Hcov).
  cbn [tf_desired tf_todo tf_running] in Hact, Htodo, Hcov.
  set (f := mkFrame now desired running (plan :: todo)).
  destruct (tick_plan cc f plan (ag_state x)) as [res s'] eqn:Hp.
  apply tick_plan_effect in Hp as (He & Ha & Hcov'); [|apply (ao_core _ Hx)|apply Htodo; set_solver|done|apply (ao_capacity _ Hx)].
  cbn [tf_desired f] in He. rewrite <- Hact in He.
  assert (Hpol : policy_ok s').
  { unfold policy_ok. rewrite (active_of_eq _ _ Ha). apply (ao_policy _ Hx). }
  destruct res as [r|e]; apply refines_intro; try done.
  cbn. rewrite (active_of_eq _ _ Ha). split_and!; [done| |done]. intros p Hpp. apply Htodo. set_solver.
Qed.

Lemma event_refines e x : agent_ok x → event_fresh e x → refines x (apply_event hooks e x).
Proof.
  intros Hx Hfr. pose proof (ao_core _ Hx) as Hok. pose proof (ao_capacity _ Hx) as Hcap.
  assert (Hidle : ∀ id phases m, (∀ w, st_workers (ag_state x) !! id = Some w → w_phase w ∈ phases →
      idle_effect (ag_state x) (m w (ag_state x)).2) →
    refines x (mkAgent (on_worker id phases m (ag_state x)) (ag_tick x))).
  { intros id phases m Hm. apply refines_idle; [done|]. unfold on_worker.
    destruct (st_workers (ag_state x) !! id) as [w|] eqn:Hw; [|apply idle_quiet, quiet_refl].
    case_bool_decide; [by apply Hm|apply idle_quiet, quiet_refl]. }
  destruct e; cbn [apply_event]; unfold locked.
  - destruct (ag_tick x) eqn:Ht; [by apply refines_refl|].
    pose proof (tick_begin_state now (ag_state x)) as Hs.
    destruct (tick_begin now (ag_state x)) as [[f|e] s'] eqn:Hb; cbn in Hs; subst s'.
    + apply tick_begin_frame in Hb as [_ Hf]; [|done]. apply refines_intro; [done|apply eff_none|apply (ao_policy _ Hx)|done].
    + apply refines_intro; [done|apply eff_none|apply (ao_policy _ Hx)|done].
  - by apply tick_step_refines.
  - destruct (ag_tick x) as [[now d r [|]]|]; try by apply refines_refl.
    apply refines_intro; [done|apply eff_none|apply (ao_policy _ Hx)|done].
  - destruct (ag_tick x); [by apply refines_refl|]. apply refines_locked; [done|].
    by apply handleJobDispatch_effect.
  - destruct (ag_tick x); [by apply refines_refl|]. apply refines_intro; [done| | |done]; unfold exec.
    + rewrite ApplyDesiredState_core. apply eff_none.
    + apply ApplyDesiredState_policy, (ao_policy _ Hx).
  - apply refines_idle; [done|]. apply idle_quiet, is_quiet_Cancel.
  - apply refines_idle; [done|]. apply updateOperation_idle. intros r. destruct (Terminal r); by repeat split.
  - apply refines_idle; [done|]. apply updateOperation_idle. by repeat split.
  - apply refines_idle; [done|]. apply idle_quiet, is_quiet_log_step.
  - apply refines_idle; [done|]. apply updateOperation_idle. by repeat split.
  - apply Hidle. intros w Hw Hph. apply worker_start_idle; [done|set_solver].
  - apply Hidle. intros w Hw Hph. apply worker_finish_idle; [done..|].
    intros i ->. exact Hfr.
  - apply Hidle. intros w Hw Hph. apply worker_timer_idle; [done..|set_solver].
  - destruct (run_canceled _ _); [|by apply refines_refl]. apply Hidle. intros w Hw Hph.
    by apply close_waiting_idle.
  - apply refines_idle; [done|]. by apply idle_quiet.
  - destruct (restart_effect now interval (ag_state x) Hok) as [He Ha].
    apply refines_intro; [done|by apply effect_weaken| |done].
    unfold policy_ok. rewrite (active_of_eq _ _ Ha). apply (ao_policy _ Hx).
Qed.

Lemma reachable_ok x : reachable hooks x → agent_ok x.
Proof.
  induction 1 as [faults now interval|x e _ IH Hf]; [|by apply event_refines].
  split; cbn; [|done| |done].
  - split; cbn; [|set_solver..|constructor]. intros id c. by rewrite lookup_empty.
  - unfold running_ids. rewrite map_filter_empty, dom_empty_L, size_empty. lia.
Qed.
End AgentInvariant.

(** ** Properties *)

Section Properties.
Context `{U : UuidPkg} `{P : Platform} `{C : ConfigCodec} `{L : LogCodec}.
Context (hooks : gset uuid).

(** C1: an operation is executed at most once. Over any interleaving of
    scheduler ticks, dispatches, configuration changes, cancellations, worker
    steps, storage refusals, shutdowns and crashes with recovery, no identity
    is handed to the backup executor twice; every identity ever executed has
    a stored record; and while a worker holds an operation, the database
    shows it RUNNING for the worker's plan. *)
Theorem executed_at_most_once (x : Agent) :
  reachable hooks x →
  NoDup (st_started (ag_state x)) ∧
  (∀ id, id ∈ st_started (ag_state x) → is_Some (db_operations (st_db (ag_state x)) !! id)) ∧
  (∀ id w, st_workers (ag_state x) !! id = Some w →
     ∃ r, db_operations (st_db (ag_state x)) !! id = Some (Json r) ∧ or_Status r = "RUNNING" ∧
       or_PlanID r = or_PlanID (w_record w)).
Proof.
  intros Hr. destruct (ao_core _ (reachable_ok hooks x Hr)) as [_ Hw Hs _ Hn]. split; [done|]. split; [done|].
  intros id w Hid. destruct (Hw id w Hid) as (_ & r & ? & Hrun & ?). exists r. unfold running_status in Hrun.
  by bool_prop.
Qed.

(** C6: capacity. In every reachable state at most 16 operations are RUNNING,
    and an event that increases their number (a scheduled or a dispatched
    start, whichever path admits it) leaves at most the active policy's
    maximum. *)
Theorem capacity_respected (x : Agent) (e : event) :
  reachable hooks x → event_fresh e x →
  let before := size (running_ids (db_operations (st_db (ag_state x)))) in
  let after := size (running_ids (db_operations (st_db (ag_state (apply_event hooks e x))))) in
  (after ≤ 16)%nat ∧
  ((before < after)%nat →
   ∃ d, active_of (ag_state x) = Some d ∧ Z.of_nat after ≤ MaxParallelIOJobs (ds_RuntimePolicy d)).
Proof.
  intros Hr Hf. pose proof (reachable_ok hooks x Hr) as Hok.
  destruct (event_refines hooks e x Hok Hf) as [He Hok']. split; [apply (ao_capacity _ Hok')|].
  destruct (effect_capacity _ _ _ (ao_core _ Hok) He) as [Hle|?]; cbn in *; [lia|done].
Qed.

(** C7: results are final. No event of a reachable Agent (a late outcome, a
    retry, a duplicate dispatch, a crash) changes the status, error code, exit
    code or finishing time of an operation that already has a result. *)
Theorem results_are_final (x : Agent) (e : event) (id : uuid) (r : OperationRecord) :
  reachable hooks x → event_fresh e x →
  db_operations (st_db (ag_state x)) !! id = Some (Json r) → Terminal r = true →
  ∃ r', db_operations (st_db (ag_state (apply_event hooks e x))) !! id = Some (Json r') ∧ same_result r r'.
Proof.
  intros Hr Hf Hid Ht. pose proof (reachable_ok hooks x Hr) as Hok.
  destruct (event_refines hooks e x Hok Hf) as [He _].
  by apply (effect_final _ _ _ id r (ao_core _ Hok) He).
Qed.

(** Histories whose configurations all forbid overlapping runs, as the
    control plane publishes them. *)
Inductive forbid_reachable : Agent → Prop :=
| forbid_init faults now interval :
    forbid_reachable (mkAgent (mkState empty_db faults ∅ ∅ now interval ∅ []) None)
| forbid_step x e :
    forbid_reachable x → event_fresh e x → all_forbid (active_of (ag_state x)) →
    forbid_reachable (apply_event hooks e x).

Lemma forbid_reachable_ok x : forbid_reachable x → agent_ok x ∧ no_overlap (db_operations (st_db (ag_state x))).
Proof.
  induction 1 as [faults now interval|x e _ [IH1 IH2] Hf Hall].
  - split; [apply (reachable_ok hooks), reach_init|]. intros i1 i2 r1 r2 H. cbn in H. by rewrite lookup_empty in H.
  - destruct (event_refines hooks e x IH1 Hf) as [He Hok]. split; [done|].
    by apply (effect_no_overlap _ _ _ (ao_core _ IH1) Hall He).
Qed.

(** C8: FORBID. As long as the activated plans carry the FORBID policy, no
    two operations of one plan are ever RUNNING together, across scheduled
    slots, dispatched jobs and retries. *)
Theorem forbid_no_overlap (x : Agent) (id1 id2 : uuid) (r1 r2 : OperationRecord) :
  forbid_reachable x →
  db_operations (st_db (ag_state x)) !! id1 = Some (Json r1) →
  db_operations (st_db (ag_state x)) !! id2 = Some (Json r2) →
  or_Status r1 = "RUNNING" → or_Status r2 = "RUNNING" → or_PlanID r1 = or_PlanID r2 → id1 = id2.
Proof.
  intros Hr H1 H2 S1 S2 Hp. apply forbid_reachable_ok in Hr as [_ Hno].
  apply (Hno id1 id2 r1 r2); try done; unfold running_status; by rewrite bool_decide_eq_true.
Qed.
End Properties.

(** *** Retries *)

Definition attempt_number (r : OperationRecord) : Z := if or_Attempt r =? 0 then 1 else or_Attempt r.

(** Retries. When an attempt ends with another one scheduled, the first
    failed with a retryable code and was not canceled, the plan is still
    current, the attempt number stays within the plan's policy, the retry is
    due strictly before its deadline, which exceeds neither the original
    deadline nor the plan's next scheduled run, and the failed result and the
    next attempt were committed together. *)
Theorem retry_bounded `{U : UuidPkg} (plan : PlanSchedule) (record next : OperationRecord) (deadline : time)
    (allowRetry : bool) (now1 now2 : time) (fresh : option uuid) (s s' : State) :
  finishWithRetry plan record deadline allowRetry now1 now2 fresh s = (Ok (Some next), s') →
  ∃ e policy, ps_Execution plan = Some e ∧ RetryPolicy e = Some policy ∧
    allowRetry = true ∧ or_Status record = "FAILED" ∧ RetryableBackupError (or_ErrorCode record) = true ∧
    or_Attempt next = attempt_number record + 1 ∧ or_Attempt next ≤ Attempts policy ∧
    or_RetryAt next = now1 + wrap64 (Backoff policy (attempt_number record) * second) ∧
    or_RetryAt next < or_Deadline next ≤ deadline ∧
    (∀ rt, db_runtimes (st_db s) !! ps_PlanID plan = Some (Json rt) → pr_NextRunAt rt ≠ zero_time →
       or_Deadline next ≤ pr_NextRunAt rt) ∧
    or_ParentOperationID next = or_ID record ∧ or_PlanID next = or_PlanID record ∧ Some (or_ID next) = fresh ∧
    db_operations (st_db s') =
      <[or_ID next := Json next]> (<[or_ID record := Json record]> (db_operations (st_db s))).
Proof.
  intros Hf. unfold finishWithRetry in Hf. apply Update_cases in Hf as [_ Hf]. unfold finish_body in Hf.
  destruct (retry_policy plan record allowRetry) as [policy|] eqn:Hpol; [|done].
  unfold retry_policy in Hpol. destruct (_ || _) eqn:Hg in Hpol; [done|]. bool_prop.
  destruct (ps_Execution plan) as [e|]; [|done]. exists e, policy. fold (attempt_number record) in Hf.
  destruct (_ <=? _) eqn:Hatt in Hf; [done|]. bool_prop.
  destruct (db_active _) as [[desired|]|] in Hf; [|done..]. destruct (negb (existsb _ _)) in Hf; [done|].
  set (dl := retry_deadline _ _ _) in Hf. destruct (negb (Before _ _)) eqn:Hb in Hf; [done|].
  destruct fresh as [id|]; [|done]. injection Hf as <- Hd. bool_prop. unfold Before in Hb. bool_prop.
  assert (Hdl : dl ≤ deadline ∧ ∀ rt, db_runtimes (st_db s) !! ps_PlanID plan = Some (Json rt) →
    pr_NextRunAt rt ≠ zero_time → dl ≤ pr_NextRunAt rt).
  { subst dl. unfold retry_deadline. cbn. destruct (db_runtimes (st_db s) !! ps_PlanID plan) as [[rt|]|];
      [|split; [lia|done]..]. unfold IsZero, Before, zero_time.
    destruct (pr_NextRunAt rt =? 0) eqn:E0, (pr_NextRunAt rt <? deadline) eqn:E1; cbn; bool_prop;
      (split; [lia|intros ? [= <-] ?; lia]). }
  destruct Hdl as [Hdl1 Hdl2]. cbn. unfold Add in *. rewrite <- Hd. cbn.
  split_and!; try done; lia.
Qed.

(** ** Concrete instances *)

Definition example_slot : uuid := OperationID (v7 1) (time_of_unix 10800).
Definition example_outcome : OperationOutcome := mkOutcome "SUCCEEDED" 0 "" "snap" 1 1 1 1 1 1 None.
Definition example_instants : Instants :=
  mkInstants (time_of_unix 10900) (time_of_unix 10901) (time_of_unix 10902) (time_of_unix 10903).

Definition example_agent : Agent :=
  mkAgent (mkState empty_db [] ∅ ∅ (time_of_unix 900) (30 * second) ∅ []) None.
Definition run_events (es : list event) (x : Agent) : Agent := foldl (λ x e, apply_event ∅ e x) x es.

(** Activation, a tick after the slot, and a complete run. *)
Definition example_before : list event :=
  [Apply (time_of_unix 1000) (v7 900) (example_snapshot 3 [example_plan 1 "0 3 * * *"]);
   TickBegin (time_of_unix 10810)].
Definition example_events : list event :=
  example_before ++ [TickPlan false; TickEnd; WorkerStart example_slot (time_of_unix 10811);
    WorkerFinish example_slot example_outcome example_instants None].

Lemma run_events_reachable es x :
  Forall (λ e, match e with WorkerFinish _ _ _ (Some _) => False | _ => True end) es →
  reachable ∅ x → reachable ∅ (run_events es x).
Proof.
  revert x; induction es as [|e es IH]; intros x He Hx; [done|]. apply Forall_cons in He as [He Hes].
  apply IH; [done|]. apply reach_step; [done|]. destruct e; try done. by destruct fresh.
Qed.

Lemma example_reachable es :
  Forall (λ e, match e with WorkerFinish _ _ _ (Some _) => False | _ => True end) es →
  reachable ∅ (run_events es example_agent).
Proof. intros He. apply run_events_reachable; [done|]. apply reach_init. Qed.

Lemma executed_at_most_once_witness :
  st_started (ag_state (run_events example_events example_agent)) = [example_slot] ∧
  NoDup (st_started (ag_state (run_events example_events example_agent))).
Proof.
  split; [vm_compute; reflexivity|].
  apply (executed_at_most_once ∅ (run_events example_events example_agent)).
  apply example_reachable. repeat constructor.
Defined.

Lemma capacity_respected_witness :
  size (running_ids (db_operations (st_db (ag_state (run_events example_before example_agent))))) = 0%nat ∧
  size (running_ids (db_operations (st_db (ag_state
    (apply_event ∅ (TickPlan false) (run_events example_before example_agent)))))) = 1%nat ∧
  ∃ d, active_of (ag_state (run_events example_before example_agent)) = Some d ∧
    1 ≤ MaxParallelIOJobs (ds_RuntimePolicy d).
Proof.
  assert (H0 : size (running_ids (db_operations (st_db (ag_state (run_events example_before example_agent))))) = 0%nat)
    by (vm_compute; reflexivity).
  assert (H1 : size (running_ids (db_operations (st_db (ag_state
    (apply_event ∅ (TickPlan false) (run_events example_before example_agent)))))) = 1%nat)
    by (vm_compute; reflexivity).
  split; [exact H0|]. split; [exact H1|].
  destruct (capacity_respected ∅ (run_events example_before example_agent) (TickPlan false)) as [_ Hc].
  - apply example_reachable. repeat constructor.
  - exact I.
  - rewrite H0, H1 in Hc. apply Hc. constructor.
Defined.

Definition example_result : OperationRecord :=
  with_outcome example_outcome (time_of_unix 10901)
    (mkOperationRecord example_slot (v7 1) 1 "hash" (time_of_unix 10800) (time_of_unix 10810) zero_time "RUNNING"
       0 "" "" 0 0 0 0 0 0 false zero_time uuid_Nil uuid_Nil 0 zero_time zero_time None).

Lemma results_are_final_witness :
  ∃ r', db_operations (st_db (ag_state (apply_event ∅ (Restart (time_of_unix 20000) second)
      (run_events example_events example_agent)))) !! example_slot = Some (Json r') ∧ same_result example_result r'.
Proof.
  apply (results_are_final ∅ (run_events example_events example_agent) (Restart (time_of_unix 20000) second)
    example_slot example_result).
  - apply example_reachable. repeat constructor.
  - exact I.
  - vm_compute. reflexivity.
  - vm_compute. reflexivity.
Defined.

Definition example_tick : Agent := run_events (example_before ++ [TickPlan false]) example_agent.

Lemma example_forbid : forbid_reachable ∅ example_tick.
Proof.
  unfold example_tick, example_before. cbn [app run_events foldl].
  apply forbid_step; [apply forbid_step; [apply forbid_step; [apply forbid_init|exact I|]|exact I|]|exact I|].
  - intros d Hd. discriminate Hd.
  - intros d Hd. vm_compute in Hd. injection Hd as <-. repeat constructor.
  - intros d Hd. vm_compute in Hd. injection Hd as <-. repeat constructor.
Qed.

Lemma forbid_no_overlap_witness :
  ∃ r, db_operations (st_db (ag_state example_tick)) !! example_slot = Some (Json r) ∧
    or_Status r = "RUNNING" ∧ example_slot = example_slot.
Proof.
  destruct (db_operations (st_db (ag_state example_tick)) !! example_slot) as [[r|]|] eqn:Hr;
    [|vm_compute in Hr; discriminate Hr..].
  assert (Hs : or_Status r = "RUNNING") by (vm_compute in Hr; injection Hr as <-; reflexivity).
  exists r. split; [reflexivity|]. split; [exact Hs|].
  exact (forbid_no_overlap ∅ example_tick example_slot example_slot r r example_forbid Hr Hr Hs Hs eq_refl).
Defined.

Definition retry_plan : PlanSchedule :=
  mkPlanSchedule (v7 1) 1 "nightly" (v7 902) (v7 901) "0 3 * * *" "UTC" 0 3600 "FORBID" ["/srv"] [] false false "hash"
    (Some (mkExecution (Some (mkRetry 30 3 600)) None [] [])).
Definition retry_state : State :=
  initial_state (set_active (Some (Json (mkDesiredState (v7 900) 3 second "h" (mkRuntimePolicy 2 (2 ^ 20)) [retry_plan])))
    (set_operations {[v7 11 := Json (example_record 11 "RUNNING" 0)]} empty_db)) second.
Definition retry_record : OperationRecord :=
  with_status "FAILED" "GATEWAY_BUSY" (100 * second) (example_record 11 "RUNNING" 0).
Definition retry_next : OperationRecord :=
  next_attempt (v7 12) retry_record 1 (130 * second) (101 * second) (1000 * second).

Lemma retry_bounded_witness :
  or_RetryAt retry_next < or_Deadline retry_next ≤ 1000 * second ∧ or_Attempt retry_next = 2.
Proof.
  destruct (retry_bounded retry_plan retry_record retry_next (1000 * second) true (100 * second) (101 * second)
    (Some (v7 12)) retry_state
    (finishWithRetry retry_plan retry_record (1000 * second) true (100 * second) (101 * second) (Some (v7 12)) retry_state).2)
    as (e & policy & _ & _ & _ & _ & _ & Ha & _ & _ & Hd & _).
  - vm_compute. reflexivity.
  - split; [exact Hd|exact Ha].
Defined.
