(* ===== verification/GatewaySession.v ===== *)
(** * GatewaySession: the data-plane session, internal/gateway/session_linux.go and retry_linux.go

    A session admits the Restic REST requests of one backup and forwards them to
    a private backend.  What the session does not control arrives as streams:
    the answers of the authority guard, of the audit sink and of the backend.
    [ss_sent] is the history of what reached the backend. *)

From S2P Require Import Prelude GoStd Uuid Platform.
Open Scope Z_scope.
Open Scope go_scope.

Definition maxObjectBytes : Z := 32 * 2 ^ 20.
Definition maxLockBytes : Z := 64 * 2 ^ 10.
Definition maxLocks : nat := 1024.

(** ** The retry observation (retry_linux.go) *)

Definition retryUnavailable : Z := 1.
Definition retryRateLimited : Z := 2.
Definition retryUnsafe : Z := 4.

Definition retry_code (flags : Z) : string :=
  if Z.land flags retryUnsafe != 0 then ""
  else if Z.land flags retryRateLimited != 0 then "GATEWAY_RATE_LIMITED"
  else if Z.land flags retryUnavailable != 0 then "GATEWAY_UNAVAILABLE"
  else "".

(** The outcome of a backend round trip: a transport error (a network error or
    end of file, or something else; with the request's context already ended
    or not), or a status whose body is then read completely or not. *)
Inductive Backend :=
| BError (network ctx_ended : bool)
| BStatus (status : Z) (body_ok : bool).

Definition observe (method : string) (b : Backend) : Z :=
  let read := (method == "GET") || (method == "HEAD") in
  match b with
  | BError network ctx_ended => if read && negb ctx_ended && network then retryUnavailable else retryUnsafe
  | BStatus status _ =>
      if (status == 200) || read && ((status == 206) || (status == 404) || (status == 416)) then 0
      else if read then
        if status == 429 then retryRateLimited
        else if (status == 500) || (status == 502) || (status == 503) || (status == 504) then retryUnavailable
        else retryUnsafe
      else retryUnsafe
  end.

(** ** Sessions and requests *)

Record GatewayReader := mkReader {
  gr_RepositoryID : uuid; gr_OperationID : uuid; gr_AdmissionID : uuid; gr_RuntimeID : uuid }.
#[export] Instance GatewayReader_eq_dec : EqDecision GatewayReader.
Proof. solve_decision. Defined.

(** What a session is created with. *)
Record SessionConfig := mkSessionConfig {
  sc_prefix : string;
  sc_gatewayID : string;
  sc_agentID : uuid;
  sc_reader : option GatewayReader;
  sc_verifier : string;
  sc_guarded : bool }.

Record Event := mkEvent { ev_Authenticated : bool; ev_Action : string; ev_Reason : string }.

(** A request that reached the backend, with its outcome. *)
Record Sent := mkSent { se_method : string; se_path : string; se_body : string; se_reply : Backend }.

Record Session := mkSession {
  ss_closed : bool;
  ss_inflight : Z;
  ss_locks : gmap string bool;
  ss_flags : Z;
  ss_sent : list Sent;
  ss_events : list Event;
  ss_guards : list bool;
  ss_audits : list bool;
  ss_backend : list Backend }.

(** The verified TLS connection: the leaf certificate and the head of the first
    verified chain, with what package security reads from the leaf. *)
Record TlsState := mkTls {
  tl_Version : Z;
  tl_leaf : option string;
  tl_chain : option string;
  tl_NotBefore : time;
  tl_NotAfter : time;
  tl_AgentID : option uuid;
  tl_Reader : option GatewayReader }.

(** [rq_body] is what the client sends and [rq_body_ok] whether reading it meets
    no I/O error; the last three say whether the request's context had ended
    while waiting for the write slot, after reading the body and after the
    backend's answer (the session's own end also ends it). *)
Record HttpRequest := mkRequest {
  rq_method : string;
  rq_tls : option TlsState;
  rq_basic : option (string * string);
  rq_authorization_headers : Z;
  rq_plain_url : bool;
  rq_path : string;
  rq_content_length : Z;
  rq_body : string;
  rq_body_ok : bool;
  rq_wait_ended : bool;
  rq_read_ended : bool;
  rq_post_ended : bool }.

Definition VersionTLS12 : Z := 771.

Section Session.
Context `{U : UuidPkg} `{P : Platform}.
Context (conf : SessionConfig).

(** *** Paths *)

Definition objectName (name : string) : bool := (String.length name =? 64)%nat && string_forallb lower_hex name.

Definition kinds : list string := ["data"; "index"; "snapshots"; "keys"; "locks"].

(** [rq_plain_url]: no query, fragment, user, host or escaped path. *)
Definition objectPath (r : HttpRequest) : option string :=
  if negb (rq_plain_url r) || negb (HasPrefix (rq_path r) (sc_prefix conf)) then None
  else
    let path := TrimPrefix (rq_path r) (sc_prefix conf) in
    if path == "config" then Some path
    else match Cut "/" path with
         | None => None
         | Some (kind, name) =>
             if negb (bool_decide (kind ∈ kinds)) then None
             else if (name == "") || objectName name then Some path else None
         end.

(** *** Authentication *)

Definition leaf_verified (t : TlsState) : bool :=
  (VersionTLS12 <=? tl_Version t) &&
  match tl_leaf t, tl_chain t with Some leaf, Some chain => leaf == chain | _, _ => false end.

Definition authenticatedAgent (now : time) (r : HttpRequest) : option uuid :=
  match rq_tls r with
  | Some t =>
      if negb (leaf_verified t) || Before now (tl_NotBefore t) || negb (Before now (tl_NotAfter t)) then None
      else match tl_AgentID t with Some id => if valid_v7 id then Some id else None | None => None end
  | None => None
  end.

Definition authenticatedGatewayReader (r : HttpRequest) : option GatewayReader :=
  match rq_tls r with Some t => if leaf_verified t then tl_Reader t else None | None => None end.

Definition authenticated (now : time) (r : HttpRequest) : bool :=
  match sc_reader conf with
  | Some reader => match authenticatedGatewayReader r with Some x => x == reader | None => false end
  | None =>
      if sc_agentID conf != uuid_Nil
      then match authenticatedAgent now r with Some id => id == sc_agentID conf | None => false end
      else match rq_basic r with
           | Some (username, password) =>
               (rq_authorization_headers r == 1) && (username == sc_gatewayID conf) &&
               (Sum256 password == sc_verifier conf)
           | None => false
           end
  end.

(** *** Effects *)

Definition or_flags (f : Z) (s : Session) : Session :=
  mkSession (ss_closed s) (ss_inflight s) (ss_locks s) (Z.lor (ss_flags s) f) (ss_sent s) (ss_events s)
    (ss_guards s) (ss_audits s) (ss_backend s).
Definition set_lock (path : string) (b : bool) (s : Session) : Session :=
  mkSession (ss_closed s) (ss_inflight s) (<[path := b]> (ss_locks s)) (ss_flags s) (ss_sent s) (ss_events s)
    (ss_guards s) (ss_audits s) (ss_backend s).

Definition guard_ok (s : Session) : bool * Session :=
  if sc_guarded conf
  then (default true (head (ss_guards s)),
        mkSession (ss_closed s) (ss_inflight s) (ss_locks s) (ss_flags s) (ss_sent s) (ss_events s)
          (tail (ss_guards s)) (ss_audits s) (ss_backend s))
  else (true, s).

Definition record (auth : bool) (action reason : string) (s : Session) : bool * Session :=
  (default false (head (ss_audits s)),
   mkSession (ss_closed s) (ss_inflight s) (ss_locks s) (ss_flags s) (ss_sent s)
     (ss_events s ++ [mkEvent auth action reason]) (ss_guards s) (tail (ss_audits s)) (ss_backend s)).

Definition deny (auth : bool) (reason : string) (status : Z) (s : Session) : Z * Session :=
  let s := or_flags (if auth && (reason == "request_limit") then retryRateLimited else retryUnsafe) s in
  let '(ok, s) := record auth "denied" reason s in
  (if ok then status else 503, s).

Definition backendFailure (status : Z) : Z := if (status != 404) && (status != 416) then 502 else status.

(** [None]: the request was not sent, the guard refused. *)
Definition request (method path body : string) (s : Session) : option Backend * Session :=
  let '(ok, s) := guard_ok s in
  if negb ok then (None, or_flags retryUnsafe s)
  else
    let s := if (method == "POST") && HasPrefix path "snapshots/" then or_flags retryUnsafe s else s in
    let b := default (BError false true) (head (ss_backend s)) in
    (Some b,
     mkSession (ss_closed s) (ss_inflight s) (ss_locks s) (Z.lor (ss_flags s) (observe method b))
       (ss_sent s ++ [mkSent method path body b]) (ss_events s) (ss_guards s) (ss_audits s) (tail (ss_backend s))).

(** *** Handlers; the value is the status of the answer, 0 for an aborted one *)

Definition read (r : HttpRequest) (path : string) (s : Session) : Z * Session :=
  match request (rq_method r) path "" s with
  | (None, s) | (Some (BError _ _), s) => (502, s)
  | (Some (BStatus status body_ok), s) =>
      if (status != 200) && (status != 206) then
        if HasSuffix path "/" then
          (backendFailure 502, if (status == 404) || (status == 416) then or_flags retryUnsafe s else s)
        else (backendFailure status, s)
      else if (rq_method r != "HEAD") && negb body_ok then (0, or_flags retryUnsafe s)
      else (status, s)
  end.

Definition create (r : HttpRequest) (path : string) (s : Session) : Z * Session :=
  let lock := HasPrefix path "locks/" in
  let limit := if lock then maxLockBytes else maxObjectBytes in
  if lock && (bool_decide (is_Some (ss_locks s !! path)) || (maxLocks <=? size (ss_locks s))%nat)
  then deny true "lock_not_fresh" 403 s
  else if (rq_content_length r <? 1) || (limit <? rq_content_length r) then deny true "object_size" 413 s
  else if negb (rq_body_ok r) || (slen (rq_body r) <? rq_content_length r) || rq_read_ended r
  then deny true "invalid_body" 400 s
  else
    let body := String.substring 0 (Z.to_nat (rq_content_length r)) (rq_body r) in
    let name := match Cut "/" path with Some (_, name) => name | None => "" end in
    if hex_encode (Sum256 body) != name then deny true "content_hash_mismatch" 400 s
    else
      match request "HEAD" path "" s with
      | (None, s) | (Some (BError _ _), s) => (502, s)
      | (Some (BStatus status _), s) =>
          if status != 404 then
            if status == 200 then deny true "object_exists" 403 s else (502, s)
          else
            let s := if lock then set_lock path false s else s in
            match request "POST" path body s with
            | (None, s) | (Some (BError _ _), s) => (502, s)
            | (Some (BStatus status _), s) =>
                if status != 200 then (backendFailure status, s)
                else (200, if lock && negb (rq_post_ended r) then set_lock path true s else s)
            end
      end.

Definition removeLock (path : string) (s : Session) : Z * Session :=
  if negb (default false (ss_locks s !! path)) then deny true "lock_not_owned" 403 s
  else
    let '(ok, s) := record true "lock_cleanup" "owned_lock" s in
    if negb ok then (503, s)
    else
      let s := set_lock path false s in
      match request "DELETE" path "" s with
      | (None, s) | (Some (BError _ _), s) => (502, s)
      | (Some (BStatus status _), s) => (if status != 200 then backendFailure status else 200, s)
      end.

Definition ServeHTTP (now : time) (r : HttpRequest) (s : Session) : Z * Session :=
  let '(guarded, s') := if ss_closed s then (true, s) else guard_ok s in
  if ss_closed s || negb guarded then deny false "session_inactive" 403 s'
  else
    let s := s' in
    if match rq_tls r with Some t => tl_Version t <? VersionTLS12 | None => true end
    then deny false "tls_required" 403 s
    else if negb (authenticated now r) then deny false "authentication_failed" 401 s
    else match objectPath r with
    | None => deny true "path_rejected" 403 s
    | Some path =>
        if 8 <=? ss_inflight s then deny true "request_limit" 429 s
        else if (rq_method r == "GET") || (rq_method r == "HEAD") && negb (HasSuffix path "/") then read r path s
        else if bool_decide (sc_reader conf ≠ None) then deny true "method_rejected" 403 s
        else if (rq_method r != "POST") && (rq_method r != "DELETE") then deny true "method_rejected" 403 s
        else if (path == "config") || HasPrefix path "keys/" || HasSuffix path "/" ||
                (rq_method r == "DELETE") && negb (HasPrefix path "locks/")
        then deny true "immutable_object" 403 s
        else if rq_wait_ended r then (503, s)
        else if rq_method r == "DELETE" then removeLock path s
        else create r path s
    end.

(** The owner cancels the session, or the number of concurrent requests
    changes, between two requests. *)
Inductive step :=
| Serve (now : time) (r : HttpRequest)
| Inflight (n : Z)
| Close.

Definition do_step (x : step) (s : Session) : Session :=
  match x with
  | Serve now r => (ServeHTTP now r s).2
  | Inflight n =>
      mkSession (ss_closed s) n (ss_locks s) (ss_flags s) (ss_sent s) (ss_events s) (ss_guards s) (ss_audits s)
        (ss_backend s)
  | Close =>
      mkSession true (ss_inflight s) ∅ (ss_flags s) (ss_sent s) (ss_events s) (ss_guards s) (ss_audits s)
        (ss_backend s)
  end.

Definition run (xs : list step) (s : Session) : Session := foldl (λ s x, do_step x s) s xs.

Definition fresh_session (guards audits : list bool) (backend : list Backend) : Session :=
  mkSession false 0 ∅ 0 [] [] guards audits backend.
End Session.

(** ** The protocol a session follows towards the backend *)

Definition is_read (e : Sent) : Prop := se_method e = "GET" ∨ se_method e = "HEAD".

(** Histories of an append-only session: reads at any time; an object is
    created under the digest of its content, outside [config] and [keys], after
    the backend said it does not exist; a lock is created once; and the only
    deletion is of a lock this session created successfully, once. *)
Inductive append_only `{P : Platform} : list Sent → Prop :=
| ao_nil : append_only []
| ao_read l e : append_only l → is_read e → append_only (l ++ [e])
| ao_create l kind body reply :
    append_only l → kind ∈ ["data"; "index"; "snapshots"; "locks"] →
    slen body ≤ maxObjectBytes →
    let path := kind +:+ "/" +:+ hex_encode (Sum256 body) in
    (∃ ok, mkSent "HEAD" path "" (BStatus 404 ok) ∈ l) →
    (kind = "locks" → ∀ e, e ∈ l → se_path e = path → is_read e) →
    append_only (l ++ [mkSent "POST" path body reply])
| ao_unlock l name reply :
    append_only l → let path := "locks/" +:+ name in
    (∃ body ok, mkSent "POST" path body (BStatus 200 ok) ∈ l) →
    (∀ e, e ∈ l → se_path e = path → se_method e ≠ "DELETE") →
    append_only (l ++ [mkSent "DELETE" path "" reply]).

Lemma elem_of_snoc {A} (l : list A) x y : x ∈ l ++ [y] ↔ x ∈ l ∨ x = y.
Proof. by rewrite elem_of_app, list_elem_of_singleton. Qed.

Lemma Cut_spec sep s a b : Cut sep s = Some (a, b) → s = a +:+ String sep b.
Proof.
  revert a b; induction s as [|c s IH]; intros a b Hc; cbn in Hc; [done|].
  case_bool_decide as Hs; [by simplify_eq|]. destruct (Cut sep s) as [[a' b']|]; simplify_eq.
  by rewrite (IH _ _ eq_refl) at 1.
Qed.

Section SessionInvariant.
Context `{U : UuidPkg} `{P : Platform}.
Context (conf : SessionConfig).

(** What the protocol depends on. *)
Definition view (s : Session) : bool * gmap string bool * list Sent := (ss_closed s, ss_locks s, ss_sent s).

Lemma deny_view auth reason status s : view (deny auth reason status s).2 = view s.
Proof. done. Qed.

Lemma guard_view s : view (guard_ok conf s).2 = view s.
Proof. unfold guard_ok. by destruct (sc_guarded conf). Qed.

Lemma or_flags_view f s : view (or_flags f s) = view s.
Proof. done. Qed.

Lemma request_view method path body s b s' :
  request conf method path body s = (b, s') →
  view s' = (ss_closed s, ss_locks s,
             match b with Some b => ss_sent s ++ [mkSent method path body b] | None => ss_sent s end).
Proof.
  unfold request. pose proof (guard_view s) as Hg. destruct (guard_ok conf s) as [ok s1]. cbn [snd] in Hg.
  unfold view in Hg. injection Hg as E1 E2 E3. rewrite <- E1, <- E2, <- E3.
  destruct (negb ok); intros Heq; injection Heq as <- <-; [done|].
  destruct (_ && _); done.
Qed.

Record session_ok (v : bool * gmap string bool * list Sent) : Prop := {
  so_history : append_only v.2;
  so_owned : ∀ p, v.1.2 !! p = Some true →
    (∃ body ok, mkSent "POST" p body (BStatus 200 ok) ∈ v.2) ∧
    ∀ e, e ∈ v.2 → se_path e = p → se_method e ≠ "DELETE";
  so_known : v.1.1 = true ∨
    ∀ e, e ∈ v.2 → HasPrefix (se_path e) "locks/" = true → is_read e ∨ is_Some (v.1.2 !! se_path e) }.

Lemma ok_read c locks l e : session_ok (c, locks, l) → is_read e → session_ok (c, locks, l ++ [e]).
Proof.
  intros [Hh Ho Hk] He. cbn in *. split; cbn.
  - by apply ao_read.
  - intros p Hp. destruct (Ho p Hp) as [(body & ok & Hin) Hd]. split; [exists body, ok; set_solver|].
    intros e' [?| ->]%elem_of_snoc Hpe; [by apply Hd|]. destruct He as [-> | ->]; done.
  - destruct Hk as [?|Hk]; [by left|right]. intros e' [?| ->]%elem_of_snoc Hpe; [by auto|by left].
Qed.

(** Reserving a fresh lock changes no ownership. *)
Lemma ok_reserve c locks l path :
  session_ok (c, locks, l) → session_ok (c, <[path := false]> locks, l).
Proof.
  intros [Hh Ho Hk]. cbn in *. split; cbn; [done| |].
  - intros p. rewrite lookup_insert. case_decide; [done|]. apply Ho.
  - destruct Hk as [?|Hk]; [by left|right]. intros e He Hp. destruct (Hk e He Hp) as [?|?]; [by left|right].
    rewrite lookup_insert. case_decide; eauto.
Qed.

Lemma ok_create c locks l kind body reply :
  session_ok (c, locks, l) → c = false → kind ∈ ["data"; "index"; "snapshots"; "locks"] →
  slen body ≤ maxObjectBytes →
  let path := kind +:+ "/" +:+ hex_encode (Sum256 body) in
  (∃ ok, mkSent "HEAD" path "" (BStatus 404 ok) ∈ l) →
  (kind = "locks" → is_Some (locks !! path) ∧ ∀ e, e ∈ l → se_path e = path → is_read e) →
  session_ok (c, locks, l ++ [mkSent "POST" path body reply]).
Proof.
  intros [Hh Ho Hk] Hc Hkind Hlen path Hprobe Hlock. cbn in *. split; cbn.
  - apply ao_create; try done. intros Hl. by apply Hlock.
  - intros p Hp. destruct (Ho p Hp) as [(b & ok & Hin) Hd]. split; [exists b, ok; set_solver|].
    intros e' [?| ->]%elem_of_snoc Hpe; [by apply Hd|done].
  - destruct Hk as [?|Hk]; [congruence|right].
    intros e' [?| ->]%elem_of_snoc Hpe; [by auto|right]. cbn in *.
    apply Hlock. unfold path in Hpe. clear -Hkind Hpe.
    repeat (apply elem_of_cons in Hkind as [->|Hkind]; [first [reflexivity|vm_compute in Hpe; discriminate Hpe]|]).
    by apply not_elem_of_nil in Hkind.
Qed.

(** The backend accepted the lock: the session owns it. *)
Lemma ok_own c locks l path body ok :
  session_ok (c, locks, l) → mkSent "POST" path body (BStatus 200 ok) ∈ l →
  (∀ e, e ∈ l → se_path e = path → se_method e ≠ "DELETE") →
  session_ok (c, <[path := true]> locks, l).
Proof.
  intros [Hh Ho Hk] Hin Hnd. cbn in *. split; cbn; [done| |].
  - intros p. rewrite lookup_insert. case_decide; [subst; eauto|]. apply Ho.
  - destruct Hk as [?|Hk]; [by left|right]. intros e He Hp. destruct (Hk e He Hp) as [?|?]; [by left|right].
    rewrite lookup_insert. case_decide; eauto.
Qed.

Lemma ok_unlock c locks l name reply :
  session_ok (c, locks, l) → c = false → locks !! ("locks/" +:+ name) = Some true →
  session_ok (c, <["locks/" +:+ name := false]> locks, l ++ [mkSent "DELETE" ("locks/" +:+ name) "" reply]).
Proof.
  intros Hok Hc Hown. pose proof (ok_reserve _ _ _ ("locks/" +:+ name) Hok) as [_ Ho Hk].
  destruct (so_owned _ Hok _ Hown) as [Hpost Hnd]. cbn in *. split; cbn.
  - apply ao_unlock; [apply (so_history _ Hok)|done|done].
  - intros p Hp. destruct (Ho p Hp) as [(b & ok & Hin) Hd]. split; [exists b, ok; set_solver|].
    intros e [?| ->]%elem_of_snoc Hpe; [by apply Hd|]. cbn in Hpe. subst p.
    by rewrite lookup_insert_eq in Hp.
  - destruct Hk as [?|Hk]; [congruence|right].
    intros e [?| ->]%elem_of_snoc Hpe; [by auto|right]. cbn. rewrite lookup_insert_eq. eauto.
Qed.

(** *** The handlers keep the invariant *)

Definition vok (s : Session) : Prop := session_ok (view s).

Lemma vok_view s s' : view s' = view s → vok s → vok s'.
Proof. unfold vok. by intros ->. Qed.

Lemma request_read_ok method path s b s' :
  vok s → method = "GET" ∨ method = "HEAD" → request conf method path "" s = (b, s') → vok s'.
Proof.
  intros Hok Hm Hr%request_view. unfold vok. rewrite Hr. destruct b; [|exact Hok]. by apply ok_read.
Qed.

Lemma read_ok r path s :
  vok s → rq_method r = "GET" ∨ rq_method r = "HEAD" → vok (read conf r path s).2.
Proof.
  intros Hok Hm. unfold read. destruct (request conf (rq_method r) path "" s) as [b s1] eqn:Hr.
  pose proof (request_read_ok _ _ _ _ _ Hok Hm Hr) as H1.
  destruct b as [[|status body_ok]|]; [done| |done].
  destruct (_ && _); [|by destruct (_ && _)]. destruct (HasSuffix path "/"); [|done]. by destruct (_ || _).
Qed.

(** The paths that pass the checks of [ServeHTTP] for a mutation. *)
Lemma mutable_path r path :
  objectPath conf r = Some path → path ≠ "config" → HasPrefix path "keys/" = false →
  ∃ kind name, path = kind +:+ "/" +:+ name ∧ Cut "/" path = Some (kind, name) ∧
    kind ∈ ["data"; "index"; "snapshots"; "locks"] ∧ (HasPrefix path "locks/" = true ↔ kind = "locks").
Proof.
  unfold objectPath. destruct (_ || _); [done|]. set (p := TrimPrefix _ _).
  case_bool_decide as Hc; [by intros; simplify_eq|]. destruct (Cut "/" p) as [[kind name]|] eqn:Hcut; [|done].
  case_bool_decide as Hk; cbn; [|done]. destruct (_ || _); [|done]. intros Hp _ Hkeys. injection Hp as <-.
  exists kind, name. pose proof (Cut_spec _ _ _ _ Hcut) as Heq. split; [exact Heq|]. split; [done|].
  rewrite Heq in Hkeys |- *. clear -Hk Hkeys.
  unfold kinds in Hk. repeat (apply elem_of_cons in Hk as [->|Hk]; [first [
    change ("keys" +:+ String "/" name) with ("keys/" +:+ name) in Hkeys; by rewrite HasPrefix_app in Hkeys|
    split; [set_solver|first [done|split; [done|intros _; apply (HasPrefix_app "locks/")]]]]|]).
  by apply not_elem_of_nil in Hk.
Qed.

Lemma create_ok r path s :
  vok s → ss_closed s = false →
  (∃ kind name, path = kind +:+ "/" +:+ name ∧ Cut "/" path = Some (kind, name) ∧
    kind ∈ ["data"; "index"; "snapshots"; "locks"] ∧ (HasPrefix path "locks/" = true ↔ kind = "locks")) →
  vok (create conf r path s).2.
Proof.
  intros Hok Hcl (kind & name & Hpath & Hcut & Hkind & Hlk). unfold create. rewrite Hcut.
  destruct (HasPrefix path "locks/" && _) eqn:Hfresh; [exact Hok|].
  set (limit := if HasPrefix path "locks/" then _ else _).
  destruct ((rq_content_length r <? 1) || _) eqn:Hsize; [exact Hok|].
  destruct (negb (rq_body_ok r) || _ || _) eqn:Hbody; [exact Hok|].
  set (body := String.substring _ _ _). destruct (bool_decide_reflect (hex_encode (Sum256 body) = name)) as [Hhash|_];
    cbn [negb]; [|exact Hok].
  assert (Hblen : slen body ≤ maxObjectBytes).
  { subst body limit. bool_prop. unfold maxObjectBytes, maxLockBytes in *.
    assert (∀ n t, slen (String.substring 0 n t) ≤ Z.of_nat n) as Hsub.
    { clear. intros n t. revert n; induction t as [|c t IH]; intros [|n]; unfold slen in *; cbn [String.substring String.length]; try lia.
      specialize (IH n). lia. }
    specialize (Hsub (Z.to_nat (rq_content_length r)) (rq_body r)). destruct (HasPrefix path "locks/"); lia. }
  destruct (request conf "HEAD" path "" s) as [b s1] eqn:Hr1.
  pose proof (request_read_ok _ _ _ _ _ Hok (or_intror eq_refl) Hr1) as Hok1. apply request_view in Hr1.
  destruct b as [[|status ok1]|]; [done| |done].
  destruct (bool_decide_reflect (status = 404)) as [H404|_]; cbn [negb]; [|destruct (status == 200); [exact Hok1|done]]. subst status.
  set (s2 := if HasPrefix path "locks/" then set_lock path false s1 else s1).
  assert (Hv2 : view s2 = (false, (if HasPrefix path "locks/" then <[path := false]> (ss_locks s) else ss_locks s),
    ss_sent s ++ [mkSent "HEAD" path "" (BStatus 404 ok1)])).
  { subst s2. unfold view in Hr1 |- *. injection Hr1 as E1 E2 E3.
    destruct (HasPrefix path "locks/"); cbn; by rewrite E1, E2, E3, Hcl. }
  assert (Hok2 : vok s2).
  { subst s2. destruct (HasPrefix path "locks/"); [|done]. by apply ok_reserve. }
  destruct (request conf "POST" path body s2) as [b s3] eqn:Hr3. apply request_view in Hr3.
  unfold vok in Hok2. unfold view in Hv2. injection Hv2 as V1 V2 V3. rewrite V1, V2, V3 in Hr3.
  assert (Hnew : HasPrefix path "locks/" = true → ∀ e, e ∈ ss_sent s → se_path e = path → is_read e).
  { intros Hl e He Hpe. rewrite Hl in Hfresh. cbn in Hfresh. bool_prop. destruct (so_known _ Hok) as [Hc|Hk].
    - unfold view in Hc. cbn in Hc. congruence.
    - destruct (Hk e He) as [?|Hsome]; [by rewrite Hpe|done|]. rewrite Hpe in Hsome. done. }
  assert (Hok3 : vok s3).
  { unfold vok. rewrite Hr3. unfold view in Hok2. rewrite V1, V2, V3 in Hok2. destruct b as [b|]; [|exact Hok2].
    rewrite Hpath, <- Hhash. rewrite Hpath, <- Hhash in Hok2. apply ok_create; try done.
    - exists ok1. rewrite elem_of_snoc. by right.
    - intros Hl. apply Hlk in Hl. rewrite Hpath, <- Hhash in Hl. rewrite Hl. split; [rewrite lookup_insert_eq; eauto|].
      intros e [He| ->]%elem_of_snoc Hpe; [|by right].
      apply Hnew; [by rewrite Hpath, <- Hhash|done|by rewrite Hpath, <- Hhash]. }
  destruct b as [[|status ok3]|]; [done| |done].
  destruct (bool_decide_reflect (status = 200)) as [H200|_]; cbn [negb]; [|done]. subst status.
  destruct (HasPrefix path "locks/" && negb (rq_post_ended r)) eqn:Hlock; [|done]. bool_prop.
  unfold vok in *. unfold view in Hr3 |- *. cbn. injection Hr3 as W1 W2 W3. rewrite W1, W2, W3.
  unfold view in Hok3. rewrite W1, W2, W3 in Hok3. eapply ok_own; [exact Hok3|rewrite elem_of_snoc; by right|].
  intros e [[He| ->]%elem_of_snoc| ->]%elem_of_snoc Hpe; [|done|done].
  destruct (Hnew H e He Hpe) as [-> | ->]; done.
Qed.

Lemma removeLock_ok name s :
  vok s → ss_closed s = false → vok (removeLock conf ("locks/" +:+ name) s).2.
Proof.
  intros Hok Hcl. unfold removeLock. destruct (ss_locks s !! ("locks/" +:+ name)) as [[]|] eqn:Hl;
    cbn [default negb from_option id]; [|exact Hok..].
  destruct (record true "lock_cleanup" "owned_lock" s) as [ok s1] eqn:Hrec.
  assert (Hv : view s1 = view s) by (unfold record in Hrec; by simplify_eq).
  destruct (negb ok); [by eapply vok_view|].
  destruct (request conf "DELETE" _ "" _) as [b s2] eqn:Hr. apply request_view in Hr. cbn in Hr.
  unfold view in Hv. injection Hv as E1 E2 E3. rewrite E1, E2, E3, Hcl in Hr.
  assert (vok s2).
  { unfold vok. rewrite Hr. unfold vok, view in Hok. rewrite Hcl in Hok. destruct b as [b|].
    - by apply ok_unlock.
    - by apply ok_reserve. }
  by destruct b as [[|]|].
Qed.

Lemma ServeHTTP_ok now r s : vok s → vok (ServeHTTP conf now r s).2.
Proof.
  intros Hok. unfold ServeHTTP.
  assert (Hg : ∃ ok s1, (if ss_closed s then (true, s) else guard_ok conf s) = (ok, s1) ∧ view s1 = view s).
  { destruct (ss_closed s); [eauto|]. pose proof (guard_view s). destruct (guard_ok conf s). eauto. }
  destruct Hg as (ok & s1 & -> & Hv). assert (Hok1 : vok s1) by (by eapply vok_view).
  destruct (ss_closed s || negb ok) eqn:Hcl; [exact Hok1|]. bool_prop.
  assert (Hcl1 : ss_closed s1 = false) by (unfold view in Hv; congruence).
  destruct (match rq_tls r with Some _ => _ | None => _ end); [exact Hok1|].
  destruct (negb (authenticated conf now r)); [exact Hok1|].
  destruct (objectPath conf r) as [path|] eqn:Hp; [|exact Hok1].
  destruct (8 <=? _); [exact Hok1|].
  destruct ((rq_method r == "GET") || _) eqn:Hread.
  { apply read_ok; [done|]. apply orb_true_iff in Hread as [?|?]; bool_prop; auto. }
  destruct (bool_decide (sc_reader conf ≠ None)); [exact Hok1|].
  clear Hread. destruct ((rq_method r != "POST") && _); [exact Hok1|].
  destruct ((path == "config") || _ || _ || _) eqn:Him; [exact Hok1|]. bool_prop.
  destruct (rq_wait_ended r); [exact Hok1|].
  pose proof (mutable_path r path Hp ltac:(done) ltac:(done)) as (kind & name & Hpath & Hcut & Hkind & Hlk).
  destruct (bool_decide_reflect (rq_method r = "DELETE")) as [Hdel|_].
  - match goal with H : (_ && negb _)%bool = false |- _ => rewrite andb_false_iff in H; destruct H as [?|Hl] end;
      bool_prop; [done|]. apply Hlk in Hl. subst kind. rewrite Hpath.
    change ("locks" +:+ "/" +:+ name) with ("locks/" +:+ name). by apply removeLock_ok.
  - apply create_ok; [done|done|]. exists kind, name. done.
Qed.

Lemma do_step_ok x s : vok s → vok (do_step conf x s).
Proof.
  intros Hok. destruct x as [now r|n|]; cbn [do_step]; [by apply ServeHTTP_ok|exact Hok|].
  destruct Hok as [Hh Ho Hk]. split; cbn in *; [done|intros p; by rewrite lookup_empty|by left].
Qed.

Lemma fresh_ok guards audits backend : vok (fresh_session guards audits backend).
Proof. split; cbn; [apply ao_nil|intros p; by rewrite lookup_empty|right; intros e He; by apply not_elem_of_nil in He]. Qed.

(** With a read binding every forwarded request is a read. *)
Lemma serve_reads now r s :
  sc_reader conf ≠ None → Forall is_read (ss_sent s) → Forall is_read (ss_sent (ServeHTTP conf now r s).2).
Proof.
  intros Hreader Hs. unfold ServeHTTP.
  assert (Hg : ∃ ok s1, (if ss_closed s then (true, s) else guard_ok conf s) = (ok, s1) ∧ view s1 = view s).
  { destruct (ss_closed s); [eauto|]. pose proof (guard_view s). destruct (guard_ok conf s). eauto. }
  destruct Hg as (ok & s1 & -> & Hv). assert (Hs1 : Forall is_read (ss_sent s1)).
  { unfold view in Hv. injection Hv as _ _ ->. done. }
  destruct (ss_closed s || negb ok); [exact Hs1|].
  destruct (match rq_tls r with Some _ => _ | None => _ end); [exact Hs1|].
  destruct (negb _); [exact Hs1|]. destruct (objectPath conf r) as [path|]; [|exact Hs1].
  destruct (8 <=? _); [exact Hs1|]. rewrite (bool_decide_eq_true_2 (sc_reader conf ≠ None)) by done.
  destruct ((rq_method r == "GET") || _) eqn:Hread; [|exact Hs1].
  assert (Hm : rq_method r = "GET" ∨ rq_method r = "HEAD").
  { apply orb_true_iff in Hread as [?|?]; bool_prop; auto. }
  clear Hread. unfold read. destruct (request conf (rq_method r) path "" s1) as [b s2] eqn:Hr.
  apply request_view in Hr. unfold view in Hr. injection Hr as _ _ E3.
  assert (Forall is_read (ss_sent s2)) as H2.
  { rewrite E3. destruct b; [|done]. apply Forall_app. split; [done|]. by constructor. }
  destruct b as [[|status body_ok]|]; [done| |done]. destruct (_ && _).
  - destruct (HasSuffix path "/"); [|done]. by destruct (_ || _).
  - by destruct (_ && _).
Qed.

Lemma run_reads xs s : sc_reader conf ≠ None → Forall is_read (ss_sent s) → Forall is_read (ss_sent (run conf xs s)).
Proof.
  intros Hr. revert s; induction xs as [|x xs IH]; intros s Hs; [done|]. apply IH. destruct x; [by apply serve_reads|done..].
Qed.

Lemma run_ok xs s : vok s → vok (run conf xs s).
Proof. revert s; induction xs as [|x xs IH]; intros s Hok; [done|]. by apply IH, do_step_ok. Qed.
End SessionInvariant.

(** ** The retry hint *)

Section RetryHint.
Context `{U : UuidPkg} `{P : Platform}.
Context (conf : SessionConfig).

Definition unsafe (flags : Z) : bool := Z.testbit flags 2.
#[local] Arguments unsafe : simpl never.

(** A request that cannot have left an uncertain or repeated mutation. *)
Definition repeatable (e : Sent) : Prop :=
  is_read e ∨ (∃ ok, se_reply e = BStatus 200 ok) ∧ HasPrefix (se_path e) "snapshots/" = false.
Definition transient (e : Event) : Prop := ev_Action e = "denied" → ev_Reason e = "request_limit".

Definition hint_ok (s : Session) : Prop :=
  unsafe (ss_flags s) = true ∨ Forall repeatable (ss_sent s) ∧ Forall transient (ss_events s).

Lemma unsafe_lor f g : unsafe (Z.lor f g) = unsafe f || unsafe g.
Proof. apply Z.lor_spec. Qed.

Lemma hint_or f s : hint_ok s → hint_ok (or_flags f s).
Proof. intros [Hu|H]; [left|right; exact H]. cbn. by rewrite unsafe_lor, Hu. Qed.

Lemma hint_unsafe s : hint_ok (or_flags retryUnsafe s).
Proof. left. cbn. rewrite unsafe_lor. apply orb_true_r. Qed.

Lemma hint_deny auth reason status s : hint_ok s → hint_ok (deny auth reason status s).2.
Proof.
  intros Hs. unfold deny. destruct (auth && _) eqn:Ha; [|left; cbn; rewrite unsafe_lor; apply orb_true_r].
  bool_prop. subst reason. apply (hint_or retryRateLimited) in Hs.
  destruct Hs as [Hu|[H1 H2]]; [by left|right]. split; [exact H1|]. cbn. apply Forall_app. split; [exact H2|].
  by constructor.
Qed.

Lemma hint_record auth reason s : hint_ok s → hint_ok (record auth "lock_cleanup" reason s).2.
Proof.
  intros [Hu|[H1 H2]]; [by left|right]. split; [exact H1|]. cbn. apply Forall_app. split; [exact H2|].
  by constructor.
Qed.

Lemma hint_guard s : hint_ok s → hint_ok (guard_ok conf s).2.
Proof. unfold guard_ok. by destruct (sc_guarded conf). Qed.

Lemma hint_lock path b s : hint_ok s → hint_ok (set_lock path b s).
Proof. done. Qed.

Lemma observe_repeatable method path body b :
  method = "GET" ∨ method = "HEAD" ∨ method = "POST" ∨ method = "DELETE" →
  (method = "POST" → HasPrefix path "snapshots/" = false) → (method = "DELETE" → HasPrefix path "locks/" = true) →
  unsafe (observe method b) = true ∨ repeatable (mkSent method path body b).
Proof.
  intros Hm Hp Hd. destruct Hm as [->|[->|Hm]]; [right; left; by left|right; left; by right|].
  assert (Hpre : HasPrefix path "snapshots/" = false).
  { destruct Hm as [->|Hm]; [by apply Hp|]. specialize (Hd Hm).
    destruct path as [|c path]; [done|]. cbn [HasPrefix] in Hd |- *. bool_prop. subst c. reflexivity. }
  assert (Hr : (method == "GET") || (method == "HEAD") = false) by (destruct Hm as [->| ->]; done).
  unfold observe. rewrite Hr. destruct b as [network ended|status ok]; [by left|].
  destruct (bool_decide_reflect (status = 200)) as [->|Hs]; cbn [orb andb].
  - right. right. eauto.
  - by left.
Qed.

Lemma hint_request method path body s :
  method = "GET" ∨ method = "HEAD" ∨ method = "POST" ∨ method = "DELETE" →
  (method = "DELETE" → HasPrefix path "locks/" = true) →
  hint_ok s → hint_ok (request conf method path body s).2.
Proof.
  intros Hm Hd Hs. unfold request. apply hint_guard in Hs. destruct (guard_ok conf s) as [ok s1]. cbn [snd] in Hs.
  destruct (negb ok); [apply hint_unsafe|]. cbn [snd].
  destruct ((method == "POST") && HasPrefix path "snapshots/") eqn:Hsnap.
  { left. cbn. by rewrite !unsafe_lor, orb_true_r. }
  set (b := default _ _). destruct (observe_repeatable method path body b Hm) as [Hu|Hr]; [|done| |].
  - intros ->. by rewrite bool_decide_eq_true_2 in Hsnap.
  - left. cbn. by rewrite unsafe_lor, Hu, orb_true_r.
  - destruct Hs as [Hu|[H1 H2]]; [left; cbn; by rewrite unsafe_lor, Hu|right]. split; [|exact H2]. cbn.
    apply Forall_app. split; [done|]. by constructor.
Qed.

Lemma hint_read r path s :
  rq_method r = "GET" ∨ rq_method r = "HEAD" → hint_ok s → hint_ok (read conf r path s).2.
Proof.
  intros Hm Hs. unfold read.
  pose proof (hint_request (rq_method r) path "" s ltac:(tauto)) as Hq.
  destruct (request conf (rq_method r) path "" s) as [b s1]. cbn [snd] in Hq.
  assert (hint_ok s1) as H1 by (apply Hq; [destruct Hm as [-> | ->]; done|done]).
  destruct b as [[|status body_ok]|]; [done| |done]. destruct (_ && _).
  - destruct (HasSuffix path "/"); [|done]. destruct (_ || _); [apply hint_unsafe|done].
  - destruct (_ && _); [apply hint_unsafe|done].
Qed.

Lemma hint_create r path s : hint_ok s → hint_ok (create conf r path s).2.
Proof.
  intros Hs. unfold create. destruct (HasPrefix path "locks/" && _); [by apply hint_deny|].
  destruct (_ || _); [by apply hint_deny|]. destruct (_ || _ || _); [by apply hint_deny|].
  destruct (_ != _); [by apply hint_deny|].
  pose proof (hint_request "HEAD" path "" s ltac:(tauto) ltac:(done) Hs) as H1.
  destruct (request conf "HEAD" path "" s) as [b s1]. cbn [snd] in H1.
  destruct b as [[|status ok1]|]; [done| |done].
  destruct (status != 404); [destruct (status == 200); [by apply hint_deny|done]|].
  set (s2 := if HasPrefix path "locks/" then _ else _).
  assert (hint_ok s2) as H2 by (subst s2; by destruct (HasPrefix path "locks/")).
  set (body := String.substring _ _ _).
  pose proof (hint_request "POST" path body s2 ltac:(tauto) ltac:(done) H2) as H3.
  destruct (request conf "POST" path body s2) as [b s3]. cbn [snd] in H3.
  destruct b as [[|status3 ok3]|]; [done| |done]. destruct (status3 != 200); [done|]. by destruct (_ && _).
Qed.

Lemma hint_removeLock path s :
  HasPrefix path "locks/" = true → hint_ok s → hint_ok (removeLock conf path s).2.
Proof.
  intros Hp Hs. unfold removeLock. destruct (negb _); [by apply hint_deny|].
  pose proof (hint_record true "owned_lock" s Hs) as H1. destruct (record _ _ _ s) as [ok s1]. cbn [snd] in H1.
  destruct (negb ok); [done|].
  pose proof (hint_request "DELETE" path "" (set_lock path false s1) ltac:(tauto) ltac:(done) H1) as H2.
  destruct (request conf "DELETE" path "" _) as [b s2]. cbn [snd] in H2. by destruct b as [[|]|].
Qed.

Lemma hint_serve now r s : hint_ok s → hint_ok (ServeHTTP conf now r s).2.
Proof.
  intros Hs. unfold ServeHTTP.
  assert (Hg : ∃ ok s1, (if ss_closed s then (true, s) else guard_ok conf s) = (ok, s1) ∧ hint_ok s1).
  { destruct (ss_closed s); [eauto|]. pose proof (hint_guard s Hs). destruct (guard_ok conf s). eauto. }
  destruct Hg as (ok & s1 & -> & H1). destruct (_ || _); [by apply hint_deny|].
  destruct (match rq_tls r with Some _ => _ | None => _ end); [by apply hint_deny|].
  destruct (negb _); [by apply hint_deny|]. destruct (objectPath conf r) as [path|]; [|by apply hint_deny].
  destruct (8 <=? _); [by apply hint_deny|].
  destruct ((rq_method r == "GET") || _) eqn:Hread.
  { apply hint_read; [|done]. apply orb_true_iff in Hread as [?|?]; bool_prop; auto. }
  clear Hread. destruct (bool_decide (sc_reader conf ≠ None)); [by apply hint_deny|].
  destruct ((rq_method r != "POST") && _); [by apply hint_deny|].
  destruct ((path == "config") || _ || _ || _) eqn:Him; [by apply hint_deny|]. bool_prop.
  destruct (rq_wait_ended r); [done|].
  destruct (bool_decide_reflect (rq_method r = "DELETE")) as [Hdel|_]; [|by apply hint_create].
  apply hint_removeLock; [|done].
  match goal with H : (_ && negb _)%bool = false |- _ => rewrite andb_false_iff in H; destruct H as [Hx|Hx] end;
    [by bool_prop|by apply negb_false_iff in Hx].
Qed.

Lemma hint_run xs s : hint_ok s → hint_ok (run conf xs s).
Proof.
  revert s; induction xs as [|x xs IH]; intros s Hs; [done|]. apply IH. destruct x; [by apply hint_serve|done..].
Qed.

Lemma retry_code_safe flags : retry_code flags ≠ "" → unsafe flags = false.
Proof.
  unfold retry_code, unsafe, retryUnsafe. intros Hc. apply not_true_iff_false. intros Ht. apply Hc.
  rewrite bool_decide_eq_false_2; [done|]. intros Hl.
  apply (f_equal (λ z, Z.testbit z 2)) in Hl. rewrite Z.land_spec, Ht in Hl. done.
Qed.
End RetryHint.

(** ** Properties *)

(** C3: append-only. Whatever requests a client sends, whatever the backend,
    the audit sink and the authority guard answer, and whenever the session is
    closed, what reaches the backend is an append-only history: no object is
    deleted or overwritten except locks the session itself created, each at
    most once; objects are stored under the SHA-256 of their content; [config]
    and [keys] are never written. *)
Theorem session_append_only `{U : UuidPkg} `{P : Platform} (conf : SessionConfig) (xs : list step)
    (guards audits : list bool) (backend : list Backend) :
  append_only (ss_sent (run conf xs (fresh_session guards audits backend))).
Proof. apply (so_history _ (run_ok conf xs _ (fresh_ok guards audits backend))). Qed.

(** Readers. A session opened for a read binding sends the backend nothing
    but GET and HEAD requests, whatever is asked of it. *)
Theorem reader_never_mutates `{U : UuidPkg} `{P : Platform} (conf : SessionConfig) (xs : list step)
    (guards audits : list bool) (backend : list Backend) :
  sc_reader conf ≠ None →
  Forall is_read (ss_sent (run conf xs (fresh_session guards audits backend))).
Proof. intros Hr. apply run_reads; [done|constructor]. Qed.

(** Authentication comes first. A request to a closed session, without TLS
    1.2, or not authenticated as the session's own reader, Agent or token
    holder reaches the backend with nothing and changes no lock; it is answered
    with a refusal, or with 503 when the refusal could not be audited. *)
Theorem unauthenticated_never_forwarded `{U : UuidPkg} `{P : Platform} (conf : SessionConfig) (now : time)
    (r : HttpRequest) (s : Session) :
  ss_closed s = true ∨ rq_tls r = None ∨ authenticated conf now r = false →
  let '(status, s') := ServeHTTP conf now r s in
  ss_sent s' = ss_sent s ∧ ss_locks s' = ss_locks s ∧ (status = 403 ∨ status = 401 ∨ status = 503).
Proof.
  intros Hc. unfold ServeHTTP. pose proof (guard_view conf s) as Hg.
  assert (Hd : ∀ reason status s1, view s1 = view s → status = 403 ∨ status = 401 →
    let '(status, s') := deny false reason status s1 in
    ss_sent s' = ss_sent s ∧ ss_locks s' = ss_locks s ∧ (status = 403 ∨ status = 401 ∨ status = 503)).
  { intros reason status s1 Hv Hs. unfold view in Hv. injection Hv as _ E2 E3. cbn. split; [done|]. split; [done|].
    destruct (default false (head (ss_audits s1))); tauto. }
  destruct (ss_closed s) eqn:Hcl; [apply Hd; auto|]. destruct (guard_ok conf s) as [ok s1]. cbn [snd] in Hg.
  destruct (false || negb ok); [apply Hd; auto|].
  destruct Hc as [?|[Ht|Ha]]; [done| |].
  - rewrite Ht. apply Hd; auto.
  - destruct (match rq_tls r with Some _ => _ | None => _ end); [apply Hd; auto|]. rewrite Ha. apply Hd; auto.
Qed.

(** The retry hint. When a finished session hints that the backup may be
    repeated, every mutation it sent was acknowledged by the backend and none
    was a snapshot, and nothing was denied but for the request limit: repeating
    cannot duplicate a snapshot or hide an uncertain write. *)
Theorem retry_hint_safe `{U : UuidPkg} `{P : Platform} (conf : SessionConfig) (xs : list step)
    (guards audits : list bool) (backend : list Backend) :
  let s := run conf xs (fresh_session guards audits backend) in
  retry_code (ss_flags s) ≠ "" →
  Forall repeatable (ss_sent s) ∧ Forall transient (ss_events s).
Proof.
  cbn. intros Hc%retry_code_safe.
  destruct (hint_run conf xs (fresh_session guards audits backend)) as [Hu|H]; [by right; split; constructor| |done].
  congruence.
Qed.

(** ** Concrete instances *)

Definition example_conf (reader : option GatewayReader) : SessionConfig :=
  mkSessionConfig "/restic/g/r/" "g" (v7 7) reader "" false.
Definition example_tls : TlsState :=
  mkTls 772 (Some "leaf") (Some "leaf") 0 (100 * second) (Some (v7 7)) (Some (mkReader (v7 1) (v7 2) (v7 3) (v7 4))).
Definition example_request (method path body : string) : HttpRequest :=
  mkRequest method (Some example_tls) None 0 true ("/restic/g/r/" +:+ path) (slen body) body true false false false.
Definition example_object (kind body : string) : string := kind +:+ "/" +:+ hex_encode (Sum256 body).

(** A lock is created and removed, a snapshot is stored; a second removal of
    the lock and a deletion of data are refused. *)
Definition example_steps : list step :=
  [Serve second (example_request "POST" (example_object "locks" "l") "l");
   Serve second (example_request "POST" (example_object "snapshots" "s") "s");
   Serve second (example_request "DELETE" (example_object "locks" "l") "");
   Serve second (example_request "DELETE" (example_object "locks" "l") "");
   Serve second (example_request "DELETE" (example_object "data" "d") "")].

Example example_session :
  se_method <$> ss_sent (run (example_conf None) example_steps
    (fresh_session [] [true; true; true] [BStatus 404 true; BStatus 200 true; BStatus 404 true; BStatus 200 true; BStatus 200 true]))
  = ["HEAD"; "POST"; "HEAD"; "POST"; "DELETE"].
Proof. vm_compute. reflexivity. Qed.

Definition example_reads : list step :=
  [Serve second (example_request "GET" "config" ""); Serve second (example_request "POST" (example_object "data" "d") "d")].
Definition example_reader : SessionConfig := example_conf (Some (mkReader (v7 1) (v7 2) (v7 3) (v7 4))).

Lemma reader_never_mutates_witness :
  length (ss_sent (run example_reader example_reads (fresh_session [] [true] [BStatus 200 true]))) = 1%nat ∧
  Forall is_read (ss_sent (run example_reader example_reads (fresh_session [] [true] [BStatus 200 true]))).
Proof.
  split; [vm_compute; reflexivity|].
  apply (reader_never_mutates example_reader example_reads [] [true] [BStatus 200 true]). discriminate.
Defined.

Lemma unauthenticated_never_forwarded_witness :
  let '(status, s') := ServeHTTP (example_conf None) (200 * second) (example_request "GET" "config" "")
    (fresh_session [] [true] []) in
  ss_sent s' = [] ∧ ss_locks s' = ∅ ∧ (status = 403 ∨ status = 401 ∨ status = 503).
Proof.
  apply (unauthenticated_never_forwarded (example_conf None) (200 * second) (example_request "GET" "config" "")
    (fresh_session [] [true] [])).
  right. right. vm_compute. reflexivity.
Defined.

Lemma retry_hint_safe_witness :
  let s := run (example_conf None) [Serve second (example_request "GET" "config" "")] (fresh_session [] [] [BStatus 503 true]) in
  retry_code (ss_flags s) = "GATEWAY_UNAVAILABLE" ∧ Forall repeatable (ss_sent s) ∧ Forall transient (ss_events s).
Proof.
  split; [vm_compute; reflexivity|].
  apply (retry_hint_safe (example_conf None) [Serve second (example_request "GET" "config" "")] [] [] [BStatus 503 true]).
  vm_compute. discriminate.
Defined.
