(* ===== verification/GatewayAuth.v ===== *)
(** * GatewayAuth: signed authority, internal/security/gateway_statement.go and internal/gateway/authorization.go

    The JSON encoding of a statement is the class [StatementCodec]; signatures
    are those of [Ed25519].  An instant has a wall clock and a monotonic reading, as
    [time.Now] returns them: [Before] and [Sub] compare the monotonic readings
    when both sides carry one, and the wall clocks otherwise. *)

From S2P Require Import Prelude GoStd Uuid Platform.
Open Scope Z_scope.
Open Scope go_scope.

(** ** Statements *)

Record GatewayAuthorizationBinding := mkBinding {
  AdmissionID : uuid; Owner : uuid; RuntimeID : uuid; AgentID : uuid; HostID : uuid; RepositoryID : uuid;
  GatewayID : uuid; StorageCredentialID : uuid; DeliveryID : uuid; GatewaySecretRef : uuid; ResticSecretRef : uuid;
  ConfigurationHash : string }.

Record GatewayStatement := mkStatement {
  Binding : GatewayAuthorizationBinding; Revision : Z; IssuedAt : Z; ExpiresAt : Z; Revoked : bool }.

#[export] Instance GatewayAuthorizationBinding_eq_dec : EqDecision GatewayAuthorizationBinding.
Proof. solve_decision. Defined.
#[export] Instance GatewayStatement_eq_dec : EqDecision GatewayStatement.
Proof. solve_decision. Defined.

Definition zero_binding : GatewayAuthorizationBinding := mkBinding 0 0 0 0 0 0 0 0 0 0 0 "".
Definition zero_statement : GatewayStatement := mkStatement zero_binding 0 0 0 false.

Definition gatewayStatementContext : string := "restfleet:gateway-authorization:v1" +:+ String "000" "".
Definition MaxGatewayStatementSize : Z := 2048.
Definition MaxGatewayAuthorizationSeconds : Z := 30 * 24 * 3600.
Definition maxTimestamp : Z := 253402300799.

(** The JSON encoding of a statement; unmarshalling is strict only through the
    re-encoding check of the code. *)
Class StatementCodec := {
  MarshalStatement : GatewayStatement → string;
  UnmarshalStatement : string → option GatewayStatement }.

Section Validation.
Context `{U : UuidPkg}.

Definition ValidateBinding (b : GatewayAuthorizationBinding) : bool :=
  forallb valid_v7 [AdmissionID b; Owner b; RuntimeID b; AgentID b; HostID b; RepositoryID b; GatewayID b;
    StorageCredentialID b; DeliveryID b; GatewaySecretRef b; ResticSecretRef b] &&
  canonical_sha256_hex (ConfigurationHash b).

(** [true] when [GatewayStatement.validate] returns nil. *)
Definition ValidateStatement (s : GatewayStatement) : bool :=
  negb (negb (ValidateBinding (Binding s)) || (Revision s =? 0) || (max_int64 <? Revision s) ||
        (IssuedAt s <=? 0) || (maxTimestamp <? IssuedAt s)) &&
  (if Revoked s then ExpiresAt s =? 0
   else negb ((ExpiresAt s <=? IssuedAt s) || (maxTimestamp <? ExpiresAt s) ||
              (MaxGatewayAuthorizationSeconds <? ExpiresAt s - IssuedAt s))).

End Validation.

(** Documented behaviour of encoding/json on this type: a valid statement, all
    of whose strings are ASCII, is decoded from its own encoding. *)
Class StatementCodecLaws `{U : UuidPkg} `{C : StatementCodec} : Prop := {
  Unmarshal_Marshal : ∀ s, ValidateStatement s = true → UnmarshalStatement (MarshalStatement s) = Some s;
  Marshal_nonempty : ∀ s, 0 < slen (MarshalStatement s) }.

Section Statements.
Context `{U : UuidPkg} `{C : StatementCodec} `{E : Ed25519}.

Definition SignGatewayStatement (s : GatewayStatement) (key : string) : option string :=
  if (slen key != PrivateKeySize) || negb (ValidateStatement s) then None
  else
    let payload := MarshalStatement s in
    if MaxGatewayStatementSize <? slen payload + SignatureSize then None
    else Some (payload +:+ Sign key (gatewayStatementContext +:+ payload)).

Definition VerifyGatewayStatement (wire key : string) : option GatewayStatement :=
  if (slen key != PublicKeySize) || (slen wire <=? SignatureSize) || (MaxGatewayStatementSize <? slen wire) then None
  else
    let payload := take_bytes (slen wire - SignatureSize) wire in
    if negb (Verify key (gatewayStatementContext +:+ payload) (skip_bytes (slen payload) wire)) then None
    else match UnmarshalStatement payload with
         | None => None
         | Some s =>
             if negb (ValidateStatement s) then None
             else if payload != MarshalStatement s then None else Some s
         end.
End Statements.

(** ** Local authority *)

Record Instant := mkInstant { wall : time; mono : Z }.

Inductive AuthorizationStatus :=
| AuthorizationUnknown | AuthorizationValid | AuthorizationExpired | AuthorizationRevoked | AuthorizationClockUnsafe.

Record Authorization := mkAuthorization {
  au_key : string;
  au_binding : GatewayAuthorizationBinding;
  au_current : GatewayStatement;
  au_lastGrant : GatewayStatement;
  au_lastWall : time;
  au_deadline : Instant;
  au_clockUnsafe : bool }.

Section Authority.
Context `{U : UuidPkg} `{C : StatementCodec} `{E : Ed25519}.

Definition NewAuthorization (key : string) (binding : GatewayAuthorizationBinding) : option Authorization :=
  if (slen key != PublicKeySize) || negb (ValidateBinding binding) then None
  else Some (mkAuthorization key binding zero_statement zero_statement zero_time (mkInstant 0 0) false).

Definition observeClock (now : Instant) (a : Authorization) : bool * Authorization :=
  let bad := au_clockUnsafe a || IsZero (wall now) || Before (wall now) (au_lastWall a) in
  (negb bad, mkAuthorization (au_key a) (au_binding a) (au_current a) (au_lastGrant a) (wall now) (au_deadline a) bad).

(** [now.Add(time.Unix(expires, 0).Sub(now))]: the distance is taken on the
    wall clock, both readings move by it. *)
Definition grant_deadline (now : Instant) (expires : Z) : Instant :=
  let d := Sub (time_of_unix expires) (wall now) in mkInstant (wall now + d) (mono now + d).

(** [Accept]; [true] for nil. *)
Definition Accept (now : Instant) (wire : string) (a : Authorization) : bool * Authorization :=
  let '(ok, a) := observeClock now a in
  if negb ok then (false, a)
  else match VerifyGatewayStatement wire (au_key a) with
  | None => (false, a)
  | Some s =>
      if (Binding s != au_binding a) || (Unix (wall now) <? IssuedAt s) then (false, a)
      else if s == au_current a then (true, a)
      else if Revoked (au_current a) || (Revision s <=? Revision (au_current a)) ||
              (IssuedAt s <? IssuedAt (au_current a)) ||
              negb (Revoked s) && (ExpiresAt s <=? Unix (wall now)) then (false, a)
      else if Revoked s
      then (true, mkAuthorization (au_key a) (au_binding a) s (au_lastGrant a) (au_lastWall a) (au_deadline a)
                    (au_clockUnsafe a))
      else (true, mkAuthorization (au_key a) (au_binding a) s s (au_lastWall a) (grant_deadline now (ExpiresAt s))
                    (au_clockUnsafe a))
  end.

Definition Status (now : Instant) (a : Authorization) : AuthorizationStatus * Authorization :=
  let '(clockOK, a) := observeClock now a in
  (if Revoked (au_current a) then AuthorizationRevoked
   else if negb clockOK then AuthorizationClockUnsafe
   else if Revision (au_current a) =? 0 then AuthorizationUnknown
   else if (ExpiresAt (au_current a) <=? Unix (wall now)) || negb (mono now <? mono (au_deadline a))
   then AuthorizationExpired
   else AuthorizationValid, a).

(** A binding's lifetime: received decisions and status checks, in order. *)
Inductive auth_event := Received (now : Instant) (wire : string) | Checked (now : Instant).

Definition event_instant (e : auth_event) : Instant :=
  match e with Received now _ => now | Checked now => now end.

Definition auth_step (e : auth_event) (a : Authorization) : Authorization :=
  match e with Received now wire => (Accept now wire a).2 | Checked now => (Status now a).2 end.

Definition auth_run (es : list auth_event) (a : Authorization) : Authorization := foldl (λ a e, auth_step e a) a es.
End Authority.

(** ** Lemmas *)

Section StatementFacts.
Context `{U : UuidPkg} `{C : StatementCodec} `{E : Ed25519} `{HC : !StatementCodecLaws} `{HE : !Ed25519Laws}.

Lemma Verify_valid wire key s : VerifyGatewayStatement wire key = Some s → ValidateStatement s = true.
Proof.
  unfold VerifyGatewayStatement. destruct (_ || _ || _); [done|]. destruct (negb _); [done|].
  destruct (UnmarshalStatement _) as [s'|]; [|done]. destruct (ValidateStatement s') eqn:Hv; cbn; [|done].
  destruct (_ != _); [done|]. by intros [= <-].
Qed.

(** What the control plane signs, a Gateway holding the matching public
    key reads back unchanged. *)
Theorem sign_verify (s : GatewayStatement) (key wire : string) :
  SignGatewayStatement s key = Some wire → VerifyGatewayStatement wire (Public key) = Some s.
Proof using HC HE.
  unfold SignGatewayStatement. destruct (_ || _) eqn:Hg; [done|]. bool_prop.
  destruct (_ <? _) eqn:Hs; [done|]. intros [= <-]. bool_prop.
  set (payload := MarshalStatement s) in *. set (sig := Sign key _).
  assert (Hsig : slen sig = SignatureSize) by apply Sign_size.
  pose proof (Marshal_nonempty s) as Hne. fold payload in Hne.
  unfold VerifyGatewayStatement. rewrite slen_app, Hsig.
  replace (slen payload + SignatureSize - SignatureSize) with (slen payload) by lia. rewrite take_bytes_app, skip_bytes_app.
  rewrite (bool_decide_eq_true_2 (slen (Public key) = _)) by (by apply Public_size).
  rewrite (proj2 (Z.leb_gt _ _)), (proj2 (Z.ltb_ge _ _)) by lia. cbn [negb orb].
  subst sig. rewrite Verify_Sign. cbn [negb]. subst payload. rewrite Unmarshal_Marshal, H0 by done. cbn [negb].
  by rewrite bool_decide_eq_true_2.
Qed.

(** One encoding per decision. An accepted wire message is exactly the
    canonical encoding of its statement followed by a signature over the
    domain-separated encoding, and the statement is within the bounds: a grant
    lasts at most 30 days, a revocation has no expiry. *)
Theorem verify_canonical (wire key : string) (s : GatewayStatement) :
  VerifyGatewayStatement wire key = Some s →
  ∃ sig, wire = MarshalStatement s +:+ sig ∧
    Verify key (gatewayStatementContext +:+ MarshalStatement s) sig = true ∧
    1 ≤ IssuedAt s ∧ (Revoked s = true → ExpiresAt s = 0) ∧
    (Revoked s = false → 0 < ExpiresAt s - IssuedAt s ≤ 30 * 24 * 3600).
Proof.
  intros Hv. pose proof (Verify_valid _ _ _ Hv) as Hval. unfold VerifyGatewayStatement in Hv.
  destruct (_ || _ || _) eqn:Hg in Hv; [done|]. bool_prop.
  set (payload := take_bytes _ wire) in *. destruct (negb (Verify _ _ _)) eqn:Hsig in Hv; [done|].
  destruct (UnmarshalStatement payload) as [s'|]; [|done]. destruct (negb (ValidateStatement s')); [done|].
  destruct (bool_decide_reflect (payload = MarshalStatement s')) as [Hp|]; [|done]. injection Hv as ->.
  exists (skip_bytes (slen payload) wire). rewrite <- Hp. split.
  - subst payload. symmetry. apply take_skip_bytes. unfold SignatureSize in *. lia.
  - split; [by apply negb_false_iff in Hsig|]. unfold ValidateStatement in Hval. bool_prop.
    split; [lia|]. unfold MaxGatewayAuthorizationSeconds in *. destruct (Revoked s); bool_prop; split; intros; try done; lia.
Qed.
End StatementFacts.

(** ** The authority only moves forward *)

Section AuthorityFacts.
Context `{U : UuidPkg} `{C : StatementCodec} `{E : Ed25519}.

(** The decision in force stays, with its deadline, or a later one replaces
    it; a revocation is never replaced; an unsafe clock stays unsafe. *)
Definition ratchet (a a' : Authorization) : Prop :=
  (au_current a' = au_current a ∧ au_deadline a' = au_deadline a ∨
   Revoked (au_current a) = false ∧ Revision (au_current a) < Revision (au_current a')) ∧
  (au_clockUnsafe a = true → au_clockUnsafe a' = true).

Lemma ratchet_refl a : ratchet a a.
Proof. split; [by left|done]. Qed.

Lemma ratchet_trans a1 a2 a3 : ratchet a1 a2 → ratchet a2 a3 → ratchet a1 a3.
Proof.
  intros [[[E1 D1]|[R1 L1]] U1] [[[E2 D2]|[R2 L2]] U2]; (split; [|auto]).
  - left. split; congruence.
  - right. rewrite E1 in R2, L2. auto.
  - right. rewrite E2. auto.
  - right. split; [done|lia].
Qed.

Lemma observeClock_ratchet now a : ratchet a (observeClock now a).2.
Proof. split; [by left|]. cbn. intros ->. done. Qed.

Lemma Accept_ratchet now wire a : ratchet a (Accept now wire a).2.
Proof.
  unfold Accept. pose proof (observeClock_ratchet now a) as Hr.
  destruct (observeClock now a) as [ok a1] eqn:Ho. cbn [snd] in Hr.
  destruct (negb ok); [done|]. destruct (VerifyGatewayStatement wire (au_key a1)) as [s|]; [|done].
  destruct (_ || _); [done|]. destruct (s == _); [done|]. destruct (_ || _ || _ || _) eqn:Hg; [done|]. bool_prop.
  apply (ratchet_trans _ a1); [done|]. destruct (Revoked s); (split; [right; split; [done|cbn; lia]|done]).
Qed.

Lemma auth_step_ratchet e a : ratchet a (auth_step e a).
Proof. destruct e as [now wire|now]; [apply Accept_ratchet|apply observeClock_ratchet]. Qed.

Lemma auth_run_ratchet es a : ratchet a (auth_run es a).
Proof.
  revert a; induction es as [|e es IH]; intros a; [apply ratchet_refl|].
  eapply ratchet_trans; [apply auth_step_ratchet|apply IH].
Qed.

(** *** What a decision in force rests on *)

Definition grounded (key : string) (binding : GatewayAuthorizationBinding) (ts : list Instant) (a : Authorization) : Prop :=
  au_key a = key ∧ au_binding a = binding ∧
  (au_current a = zero_statement ∨
   ValidateStatement (au_current a) = true ∧ Binding (au_current a) = binding ∧
   (Revoked (au_current a) = false →
      ∃ t, t ∈ ts ∧ IssuedAt (au_current a) ≤ Unix (wall t) < ExpiresAt (au_current a) ∧
           au_deadline a = grant_deadline t (ExpiresAt (au_current a)))) ∧
  (au_clockUnsafe a = false → Forall (λ t, wall t ≤ au_lastWall a) ts).

Lemma observe_grounded key binding ts now a :
  grounded key binding ts a → grounded key binding (ts ++ [now]) (observeClock now a).2.
Proof.
  intros (Hk & Hb & Hc & Hw). split; [done|]. split; [done|]. split.
  - destruct Hc as [?|(Hv & Hbi & Hg)]; [by left|right]. split; [done|]. split; [done|]. intros Hr.
    destruct (Hg Hr) as (t & Ht & ?). exists t. split; [set_solver|done].
  - cbn. unfold Before. intros Hu. bool_prop. specialize (Hw ltac:(done)). apply Forall_app. split; [|by repeat constructor].
    eapply Forall_impl; [exact Hw|]. cbn. intros. lia.
Qed.

Lemma auth_step_grounded key binding ts e a :
  grounded key binding ts a → grounded key binding (ts ++ [event_instant e]) (auth_step e a).
Proof.
  intros Hg. destruct e as [now wire|now]; [|by apply observe_grounded]. cbn [auth_step event_instant]. unfold Accept.
  apply (observe_grounded _ _ _ now) in Hg. destruct (observeClock now a) as [ok a1]. cbn [snd] in Hg.
  destruct (negb ok); [done|]. destruct (VerifyGatewayStatement wire (au_key a1)) as [s|] eqn:Hv; [|done].
  apply Verify_valid in Hv. destruct (_ || _) eqn:H1; [done|]. bool_prop. destruct (s == _); [done|].
  destruct (_ || _ || _ || _) eqn:H2; [done|]. bool_prop. destruct Hg as (Hk & Hb & Hc & Hw).
  destruct (Revoked s) eqn:Hrev; unfold grounded;
    cbn [snd au_key au_binding au_current au_lastGrant au_clockUnsafe au_lastWall au_deadline];
    (split; [done|]; split; [done|]; split; [right; split; [done|]; split; [congruence|]|done]).
  - congruence.
  - intros _. exists now. split; [set_solver|]. split; [|done]. match goal with H : (_ && _)%bool = false |- _ => cbn in H; bool_prop end. lia.
Qed.

Lemma auth_run_grounded key binding ts es a :
  grounded key binding ts a → grounded key binding (ts ++ (event_instant <$> es)) (auth_run es a).
Proof.
  revert ts a; induction es as [|e es IH]; intros ts a Hg; [by rewrite app_nil_r|].
  cbn [auth_run foldl fmap list_fmap]. rewrite (cons_middle (event_instant e)), (assoc (++)).
  by apply IH, auth_step_grounded.
Qed.
End AuthorityFacts.

Lemma grant_deadline_bound t issued expires :
  issued ≤ Unix (wall t) → expires - issued ≤ 30 * 24 * 3600 →
  mono (grant_deadline t expires) ≤ mono t + 30 * 24 * 3600 * second.
Proof.
  intros Hi He. unfold grant_deadline, Unix, Sub, time_of_unix, max_int64, min_int64 in *. cbn.
  pose proof (Z.mul_div_le (wall t) second ltac:(done)). unfold second in *. lia.
Qed.

(** ** Properties *)

(** Decisions only move forward. Over any sequence of received messages
    (replayed, forged, reordered, expired) and status checks, whatever the
    clock does: the revision never decreases; while it stays the same, neither
    the decision nor its deadline changes, so that a replay never extends
    authority; and a clock once seen to fail stays failed. *)
Theorem authority_forward_only `{U : UuidPkg} `{C : StatementCodec} `{S : Ed25519} (es : list auth_event) (a : Authorization) :
  Revision (au_current a) ≤ Revision (au_current (auth_run es a)) ∧
  (Revision (au_current (auth_run es a)) = Revision (au_current a) →
     au_current (auth_run es a) = au_current a ∧ au_deadline (auth_run es a) = au_deadline a) ∧
  (au_clockUnsafe a = true → au_clockUnsafe (auth_run es a) = true).
Proof.
  destruct (auth_run_ratchet es a) as [[[E D]|[R L]] Hu]; [rewrite E|]; split_and!; try done; try lia.
Qed.

(** Revocation is terminal. Once a revocation is the decision in force, it
    stays so, and every later status check answers REVOKED. *)
Theorem revocation_is_terminal `{U : UuidPkg} `{C : StatementCodec} `{S : Ed25519} (es : list auth_event) (a : Authorization) (now : Instant) :
  Revoked (au_current a) = true → (Status now (auth_run es a)).1 = AuthorizationRevoked.
Proof.
  intros Hr. destruct (auth_run_ratchet es a) as [[[E _]|[R _]] _]; [|congruence]. unfold Status. cbn. by rewrite E, Hr.
Qed.

(** C32: validity is bounded. When an authority answers VALID, it holds a grant
    for its own binding that was received unexpired, is not expired on the wall
    clock, and was received less than 30 days ago on the monotonic clock; and
    no earlier sample of the wall clock is ahead of the present one. *)
Theorem valid_is_bounded `{U : UuidPkg} `{C : StatementCodec} `{S : Ed25519} (key : string) (binding : GatewayAuthorizationBinding)
    (a : Authorization) (es : list auth_event) (now : Instant) :
  NewAuthorization key binding = Some a → (Status now (auth_run es a)).1 = AuthorizationValid →
  let s := au_current (auth_run es a) in
  Binding s = binding ∧ Revoked s = false ∧ Unix (wall now) < ExpiresAt s ∧
  Forall (λ t, wall t ≤ wall now) (event_instant <$> es) ∧
  ∃ t, t ∈ event_instant <$> es ∧ IssuedAt s ≤ Unix (wall t) < ExpiresAt s ∧
    mono now < mono t + 30 * 24 * 3600 * second.
Proof.
  intros Hn Hs. unfold NewAuthorization in Hn. destruct (_ || _); [done|]. injection Hn as <-.
  set (a := mkAuthorization key binding _ _ _ _ _) in *.
  assert (Hg : grounded key binding [] a) by (split_and!; try done; by left).
  apply (auth_run_grounded _ _ _ es) in Hg. cbn [app] in Hg.
  pose proof (observe_grounded _ _ _ now _ Hg) as (_ & _ & _ & Hw). unfold Status in Hs.
  destruct (observeClock now (auth_run es a)) as [ok a1] eqn:Ho. cbn [fst snd] in *.
  assert (Hcur : au_current a1 = au_current (auth_run es a) ∧ au_deadline a1 = au_deadline (auth_run es a) ∧
    au_lastWall a1 = wall now ∧ ok = negb (au_clockUnsafe a1)) by (unfold observeClock in Ho; by simplify_eq).
  destruct Hcur as (Hcur & Hdl & Hlast & Hok). rewrite Hcur, Hdl in Hs. clear Hcur Hdl Ho.
  destruct (Revoked (au_current _)) eqn:Hrev; [done|]. destruct ok; cbn [negb] in Hs; [|done].
  destruct (Revision _ =? 0) eqn:H0; [done|]. destruct (_ || _) eqn:Hexp; [done|]. bool_prop.
  destruct Hg as (_ & _ & Hc & _).
  destruct Hc as [Hz|(Hv & Hb & Hgr)]; [by rewrite Hz in H0|].
  destruct (Hgr Hrev) as (t & Ht & [Hi He] & Hd). split_and!; try done; try lia.
  - symmetry in Hok. apply negb_true_iff in Hok. specialize (Hw Hok). rewrite Hlast in Hw.
    by apply Forall_app in Hw as [Hw _].
  - exists t. split; [done|]. split; [done|]. eapply Z.lt_le_trans; [exact H1|]. rewrite Hd.
    unfold ValidateStatement in Hv. rewrite Hrev in Hv. bool_prop.
    apply (grant_deadline_bound _ (IssuedAt (au_current (auth_run es a)))); [done|].
    unfold MaxGatewayAuthorizationSeconds in *. lia.
Qed.

(** ** A concrete codec *)

Fixpoint pos_text (p : positive) : string :=
  match p with xH => "h" | xO q => String "o" (pos_text q) | xI q => String "i" (pos_text q) end.
Fixpoint text_pos (s : string) : option positive :=
  match s with
  | String c t =>
      if (c == "h"%char) && (t == "") then Some xH
      else if c == "o"%char then xO <$> text_pos t
      else if c == "i"%char then xI <$> text_pos t
      else None
  | EmptyString => None
  end.
Definition n_text (n : N) : string := match n with N0 => "z" | Npos p => pos_text p end.
Definition text_n (s : string) : option N := if s == "z" then Some 0%N else Npos <$> text_pos s.

Lemma text_pos_text p : text_pos (pos_text p) = Some p.
Proof. induction p as [p IH|p IH|]; cbn [pos_text text_pos]; [..|done]; rewrite ?IH; done. Qed.

Lemma text_n_text n : text_n (n_text n) = Some n.
Proof.
  destruct n as [|p]; [done|]. unfold text_n. rewrite bool_decide_eq_false_2.
  - cbn [n_text]. by rewrite text_pos_text.
  - by destruct p.
Qed.

Lemma n_text_cut n t : Cut "," (n_text n +:+ String "," t) = Some (n_text n, t).
Proof.
  assert (Hp : ∀ p, Cut "," (pos_text p +:+ String "," t) = Some (pos_text p, t)).
  { induction p as [p IH|p IH|]; [..|done];
      [change (Cut "," (String "i" (pos_text p +:+ String "," t)) = Some (String "i" (pos_text p), t))
      |change (Cut "," (String "o" (pos_text p +:+ String "," t)) = Some (String "o" (pos_text p), t))];
      cbn [Cut]; rewrite IH; done. }
  destruct n; [done|apply Hp].
Qed.

Fixpoint put_fields (l : list N) (rest : string) : string :=
  match l with [] => rest | n :: l => n_text n +:+ String "," (put_fields l rest) end.
Fixpoint get_fields (k : nat) (s : string) : option (list N * string) :=
  match k with
  | O => Some ([], s)
  | S k =>
      '(a, t) ← Cut "," s; n ← text_n a; '(l, rest) ← get_fields k t; Some (n :: l, rest)
  end.

Lemma get_put_fields l rest : get_fields (length l) (put_fields l rest) = Some (l, rest).
Proof.
  induction l as [|n l IH]; [done|]. cbn [length get_fields put_fields]. rewrite n_text_cut. cbn.
  by rewrite text_n_text; cbn; rewrite IH.
Qed.

Definition z_code (z : Z) : N := if z <? 0 then (Z.to_N (- z) * 2 + 1)%N else (Z.to_N z * 2)%N.
Definition code_z (n : N) : Z := if N.odd n then - Z.of_N (n / 2) else Z.of_N (n / 2).

Lemma code_z_code z : code_z (z_code z) = z.
Proof.
  unfold code_z, z_code. destruct (Z.ltb_spec z 0).
  - set (x := Z.to_N (- z)). replace (x * 2 + 1)%N with (1 + 2 * x)%N by lia. rewrite N.odd_add_mul_2. change (N.odd 1) with true. cbn iota.
    replace ((1 + 2 * x) / 2)%N with x; [lia|]. rewrite (N.mul_comm 2 x), N.div_add by done. reflexivity.
  - set (x := Z.to_N z). replace (x * 2)%N with (0 + 2 * x)%N by lia. rewrite N.odd_add_mul_2. change (N.odd 0) with false. cbn iota.
    replace ((0 + 2 * x) / 2)%N with x; [lia|]. rewrite (N.mul_comm 2 x), N.div_add by done. reflexivity.
Qed.

Definition statement_fields (s : GatewayStatement) : list N :=
  let b := Binding s in
  [AdmissionID b; Owner b; RuntimeID b; AgentID b; HostID b; RepositoryID b; GatewayID b; StorageCredentialID b;
   DeliveryID b; GatewaySecretRef b; ResticSecretRef b; z_code (Revision s); z_code (IssuedAt s); z_code (ExpiresAt s);
   if Revoked s then 1 else 0]%N.

#[export] Instance toy_statements : StatementCodec := {|
  MarshalStatement s := put_fields (statement_fields s) (ConfigurationHash (Binding s));
  UnmarshalStatement raw :=
    match get_fields 15 raw with
    | Some ([a; o; r; ag; h; rp; g; sc; d; gs; rs; rev; iss; exp; rk], hash) =>
        Some (mkStatement (mkBinding a o r ag h rp g sc d gs rs hash) (code_z rev) (code_z iss) (code_z exp) (rk =? 1)%N)
    | _ => None
    end |}.

#[export] Instance toy_statements_laws : StatementCodecLaws.
Proof.
  split.
  - intros [[] rev iss exp rk] _. cbn [UnmarshalStatement MarshalStatement toy_statements].
    change 15%nat with (length (statement_fields (mkStatement (mkBinding AdmissionID0 Owner0 RuntimeID0 AgentID0 HostID0 RepositoryID0 GatewayID0
      StorageCredentialID0 DeliveryID0 GatewaySecretRef0 ResticSecretRef0 ConfigurationHash0) rev iss exp rk))).
    rewrite get_put_fields. cbn. rewrite !code_z_code. by destruct rk.
  - intros s. cbn [MarshalStatement toy_statements statement_fields put_fields]. rewrite slen_app.
    pose proof (slen_nonneg (n_text (AdmissionID (Binding s)))). unfold slen at 2. cbn. lia.
Qed.

(** ** Concrete instances *)

Definition example_key : string := bytes_be 64 12345678901234567890.
Definition example_binding : GatewayAuthorizationBinding :=
  mkBinding (v7 1) (v7 2) (v7 3) (v7 4) (v7 5) (v7 6) (v7 7) (v7 8) (v7 9) (v7 10) (v7 11)
    (hex_encode (bytes_be 32 99)).
Definition example_grant : GatewayStatement := mkStatement example_binding 1 1000 4600 false.
Definition example_revocation : GatewayStatement := mkStatement example_binding 2 1100 0 true.
Definition example_wire (s : GatewayStatement) : string := default "" (SignGatewayStatement s example_key).
Definition example_instant (seconds : Z) : Instant := mkInstant (time_of_unix seconds) (seconds * second).
Definition example_auth : Authorization :=
  mkAuthorization (Public example_key) example_binding zero_statement zero_statement zero_time (mkInstant 0 0) false.

Lemma sign_verify_witness :
  VerifyGatewayStatement (example_wire example_grant) (Public example_key) = Some example_grant.
Proof. apply (sign_verify example_grant example_key). vm_compute. reflexivity. Defined.

Lemma verify_canonical_witness :
  ∃ sig, example_wire example_grant = MarshalStatement example_grant +:+ sig.
Proof.
  destruct (verify_canonical (example_wire example_grant) (Public example_key) example_grant) as (sig & H & _).
  - vm_compute. reflexivity.
  - exists sig. exact H.
Defined.

(** Grant, replay of the grant, then a revocation. *)
Definition example_auth_events : list auth_event :=
  [Received (example_instant 1000) (example_wire example_grant); Checked (example_instant 1500);
   Received (example_instant 2000) (example_wire example_grant)].

Lemma valid_is_bounded_witness :
  (Status (example_instant 3000) (auth_run example_auth_events example_auth)).1 = AuthorizationValid ∧
  Revoked (au_current (auth_run example_auth_events example_auth)) = false.
Proof.
  assert (Hs : (Status (example_instant 3000) (auth_run example_auth_events example_auth)).1 = AuthorizationValid)
    by (vm_compute; reflexivity).
  split; [exact Hs|].
  apply (valid_is_bounded (Public example_key) example_binding example_auth example_auth_events (example_instant 3000));
    [vm_compute; reflexivity|exact Hs].
Defined.

Lemma revocation_is_terminal_witness :
  (Status (example_instant 1200) (auth_run [Received (example_instant 1150) (example_wire example_grant)]
    (Accept (example_instant 1100) (example_wire example_revocation) example_auth).2)).1 = AuthorizationRevoked.
Proof.
  apply (revocation_is_terminal [Received (example_instant 1150) (example_wire example_grant)]
    (Accept (example_instant 1100) (example_wire example_revocation) example_auth).2 (example_instant 1200)).
  vm_compute. reflexivity.
Defined.
