(* ===== verification/AuditChain.v ===== *)
(** * AuditChain: the audit chain and the events of a Gateway

    internal/domain/audit.go, gateway_audit.go and gateway_global_audit.go, and
    [appendAudit] of internal/persistence/postgres/store.go.  The canonical form
    of an event is written with the strings of JsonString; what the decoder makes
    of the changes, and the [jsonb] column of the table, are the fields of
    [AuditCodec]. *)

From S2P Require Import Prelude GoStd Uuid Platform JsonString GatewaySession.
Open Scope Z_scope.
Open Scope go_scope.

Definition ActorUser : string := "USER".
Definition ActorAgent : string := "AGENT".
Definition ActorSystem : string := "SYSTEM".
Definition AuditSuccess : string := "SUCCESS".
Definition AuditDenied : string := "DENIED".
Definition AuditFailure : string := "FAILURE".

(** A missing hash, id or list of changes is the empty string, as a nil slice
    is to [len] and [bytes.Equal]. *)
Record AuditEvent := mkAudit {
  ae_ID : uuid;
  ae_OccurredAt : time;
  ae_ActorType : string;
  ae_ActorID : uuid;
  ae_Action : string;
  ae_ResourceType : string;
  ae_ResourceID : uuid;
  ae_RequestID : uuid;
  ae_SourceIPHash : string;
  ae_Result : string;
  ae_ReasonCode : string;
  ae_Changes : string;
  ae_PreviousHash : string;
  ae_EventHash : string }.

Record canonicalAuditEvent := mkCanonical {
  ca_ID : string;
  ca_OccurredAt : string;
  ca_ActorType : string;
  ca_ActorID : string;
  ca_Action : string;
  ca_ResourceType : string;
  ca_ResourceID : string;
  ca_RequestID : string;
  ca_SourceIPHash : string;
  ca_Result : string;
  ca_ReasonCode : string;
  ca_Changes : string }.

Class AuditCodec := {
  (** [json.Unmarshal] into an [any], then [json.Marshal]. *)
  Normalize : string → option string;
  (** What a [jsonb] column returns for the text stored in it; [None] when the
      database refuses the text. *)
  Jsonb : string → option string }.

(** What [json.Marshal] gives is one JSON text: it goes on with no brace that
    closes nothing. *)
Class AuditCodecLaws `{C : AuditCodec} : Prop := {
  Normalize_closed : ∀ u v a b x, Normalize u = Some a → Normalize v = Some b → a +:+ "}" = b +:+ "}" +:+ x → x = "" }.

(** ** The canonical form

    [json.Marshal] of a [canonicalAuditEvent]: its members in the order of the
    fields, without those tagged [omitempty] that are empty.  The changes are the
    output of [json.Marshal], which compaction leaves as it is. *)

Definition json_member (key value : string) : string := quote +:+ key +:+ quote +:+ ":" +:+ value.
Definition json_text (key value : string) : string := json_member key (Quote value).
Definition omit_text (key value : string) : string := if value == "" then "" else "," +:+ json_text key value.

Definition MarshalCanonical (c : canonicalAuditEvent) : string :=
  "{" +:+ json_text "id" (ca_ID c) +:+ "," +:+ json_text "occurred_at" (ca_OccurredAt c) +:+ "," +:+
  json_text "actor_type" (ca_ActorType c) +:+ omit_text "actor_id" (ca_ActorID c) +:+ "," +:+ json_text "action" (ca_Action c) +:+ "," +:+
  json_text "resource_type" (ca_ResourceType c) +:+ omit_text "resource_id" (ca_ResourceID c) +:+ "," +:+
  json_text "request_id" (ca_RequestID c) +:+ omit_text "source_ip_hash" (ca_SourceIPHash c) +:+ "," +:+
  json_text "result" (ca_Result c) +:+ "," +:+ json_text "reason_code" (ca_ReasonCode c) +:+ "," +:+
  json_member "changes" (ca_Changes c) +:+ "}".

(** The texts of an event beside its changes. *)
Definition canonical_texts (c : canonicalAuditEvent) : list string :=
  [ca_ID c; ca_OccurredAt c; ca_ActorType c; ca_ActorID c; ca_Action c; ca_ResourceType c; ca_ResourceID c;
   ca_RequestID c; ca_SourceIPHash c; ca_Result c; ca_ReasonCode c].

(** [Format(time.RFC3339Nano)] in UTC: the fraction without its trailing zeros. *)
Fixpoint trim_zeros (s : string) : string :=
  match s with
  | EmptyString => EmptyString
  | String c t =>
      let t' := trim_zeros t in
      if (t' == "") && (c == "0"%char) then EmptyString else String c t'
  end.
Definition FormatRFC3339Nano (t : time) : string :=
  let base := String.substring 0 (String.length (FormatRFC3339 t) - 1) (FormatRFC3339 t) in
  let frac := trim_zeros (pad 9 (t mod second)) in
  base +:+ (if frac == "" then "" else "." +:+ frac) +:+ "Z".

Section Chain.
Context `{U : UuidPkg} `{P : Platform} `{C : AuditCodec}.

Definition optional_id (id : uuid) : string := if id != uuid_Nil then UString id else "".

Definition canonical_event (e : AuditEvent) : option canonicalAuditEvent :=
  let changes := if ae_Changes e == "" then "{}" else ae_Changes e in
  match Normalize changes with
  | None => None
  | Some changes =>
      Some (mkCanonical (UString (ae_ID e)) (FormatRFC3339Nano (ae_OccurredAt e)) (ae_ActorType e)
        (optional_id (ae_ActorID e)) (ae_Action e) (ae_ResourceType e) (optional_id (ae_ResourceID e))
        (UString (ae_RequestID e)) (hex_encode (ae_SourceIPHash e)) (ae_Result e) (ae_ReasonCode e) changes)
  end.

Definition canonicalAudit (e : AuditEvent) : option string := MarshalCanonical <$> canonical_event e.

Definition ComputeAuditHash (e : AuditEvent) (previous : string) : option string :=
  match canonicalAudit e with
  | None => None
  | Some canonical => Some (Sum256 (canonical +:+ previous))
  end.

Fixpoint verify_from (previous : string) (events : list AuditEvent) : bool :=
  match events with
  | [] => true
  | event :: rest =>
      if ae_PreviousHash event != previous then false
      else match ComputeAuditHash event previous with
           | None => false
           | Some expected =>
               if ae_EventHash event != expected then false else verify_from (ae_EventHash event) rest
           end
  end.

(** [true] when [VerifyAuditChain] returns nil. *)
Definition VerifyAuditChain (events : list AuditEvent) : bool := verify_from "" events.

(** The event hash of the row with the highest sequence, empty without rows. *)
Definition last_hash (events : list AuditEvent) : string :=
  match last events with Some e => ae_EventHash e | None => "" end.

(** [appendAudit] in a transaction that holds the advisory lock until it
    commits; the table is the list of its rows in the order of [sequence].
    [fresh] is the result of [uuid.NewV7], [fault] an error of the database. *)
Definition appendAudit (fresh : option uuid) (fault : bool) (e : AuditEvent) (table : list AuditEvent) :
    bool * list AuditEvent :=
  let occurred := Truncate (ae_OccurredAt e) 1000 in
  match (if ae_ID e == uuid_Nil then fresh else Some (ae_ID e)) with
  | None => (false, table)
  | Some id =>
      let changes := if ae_Changes e == "" then "{}" else ae_Changes e in
      let previous := last_hash table in
      let e := mkAudit id occurred (ae_ActorType e) (ae_ActorID e) (ae_Action e) (ae_ResourceType e)
        (ae_ResourceID e) (ae_RequestID e) (ae_SourceIPHash e) (ae_Result e) (ae_ReasonCode e) changes
        (ae_PreviousHash e) (ae_EventHash e) in
      match ComputeAuditHash e previous with
      | None => (false, table)
      | Some hash =>
          match Jsonb changes with
          | Some stored =>
              if fault then (false, table)
              else (true, table ++ [mkAudit id occurred (ae_ActorType e) (ae_ActorID e) (ae_Action e)
                (ae_ResourceType e) (ae_ResourceID e) (ae_RequestID e) (ae_SourceIPHash e) (ae_Result e)
                (ae_ReasonCode e) stored previous hash])
          | None => (false, table)
          end
      end
  end.

Definition append_all (l : list (option uuid * bool * AuditEvent)) (table : list AuditEvent) : list AuditEvent :=
  foldl (λ t x, (appendAudit x.1.1 x.1.2 x.2 t).2) table l.
End Chain.

(** ** Events of a Gateway *)

Record GatewayBinding := mkGatewayBinding {
  gb_HostID : uuid; gb_RepositoryID : uuid; gb_GatewayID : uuid; gb_OperationID : uuid }.
Record GatewayEvent := mkGatewayEvent {
  ge_Binding : GatewayBinding; ge_Authenticated : bool; ge_Action : string; ge_Reason : string }.
Record GatewayAuditBinding := mkAuditBinding { OriginID : uuid; AuditRuntimeID : uuid }.

#[export] Instance GatewayBinding_eq_dec : EqDecision GatewayBinding.
Proof. solve_decision. Defined.
#[export] Instance GatewayEvent_eq_dec : EqDecision GatewayEvent.
Proof. solve_decision. Defined.
#[export] Instance GatewayAuditBinding_eq_dec : EqDecision GatewayAuditBinding.
Proof. solve_decision. Defined.

Definition no_binding : GatewayBinding := mkGatewayBinding 0 0 0 0.
Definition no_origin : GatewayAuditBinding := mkAuditBinding 0 0.

Section Events.
Context `{U : UuidPkg}.

(** [true] when [GatewayAuditBinding.Validate] returns nil. *)
Definition ValidateAuditBinding (b : GatewayAuditBinding) : bool :=
  forallb valid_v7 [OriginID b; AuditRuntimeID b].

Definition scoped_ids (b : GatewayBinding) : list uuid :=
  [gb_HostID b; gb_RepositoryID b; gb_GatewayID b; gb_OperationID b].

Definition unscoped_denials : list string := ["route_unavailable"; "rate_limited"].
Definition unauthenticated_denials : list string := ["session_inactive"; "tls_required"; "authentication_failed"].
Definition authenticated_denials : list string :=
  ["path_rejected"; "request_limit"; "method_rejected"; "immutable_object"; "lock_not_fresh";
   "object_size"; "invalid_body"; "content_hash_mismatch"; "object_exists"; "lock_not_owned"].

Definition invalid_event : AuditEvent :=
  mkAudit 0 zero_time ActorSystem 0 "GATEWAY_EVENT_REJECTED" "GATEWAY" 0 0 "" AuditDenied "INVALID_EVENT" "" "" "".

(** The two switches of [GatewayAudit]: the audited action and its result;
    [None] is a rejection.  [event_rejected] is answered by the caller. *)
Definition classify (e : GatewayEvent) : option (string * string) :=
  let scoped := ge_Binding e != no_binding in
  let auth := ge_Authenticated e in
  let reason := ge_Reason e in
  if ge_Action e == "backend_ready" then
    if negb scoped || auth || (reason != "verified") then None else Some ("GATEWAY_BACKEND_READY", AuditSuccess)
  else if ge_Action e == "runtime_cleanup" then
    if scoped || auth || (reason != "joined") then None
    else Some ("GATEWAY_RUNTIME_CLEANUP_COMPLETE", AuditSuccess)
  else if ge_Action e == "channel_denied" then
    if scoped || auth then None
    else if reason == "material_rejected" then Some ("GATEWAY_MATERIAL_DELIVERY_DENIED", AuditDenied)
    else if reason == "authority_rejected" then Some ("GATEWAY_AUTHORIZATION_DELIVERY_DENIED", AuditDenied)
    else if reason == "session_rejected" then Some ("GATEWAY_SESSION_DELIVERY_DENIED", AuditDenied)
    else None
  else if ge_Action e == "central_read_start" then
    if negb scoped || auth || (reason != "requested") then None
    else Some ("GATEWAY_CENTRAL_READ_START", AuditSuccess)
  else if ge_Action e == "central_read_end" then
    if negb scoped || auth || (reason != "finished") then None
    else Some ("GATEWAY_CENTRAL_READ_END", AuditSuccess)
  else if ge_Action e == "session_start" then
    if negb scoped || auth || (reason != "requested") then None else Some ("GATEWAY_SESSION_START", AuditSuccess)
  else if ge_Action e == "session_end" then
    if negb scoped || auth || (reason != "finished") then None else Some ("GATEWAY_SESSION_END", AuditSuccess)
  else if ge_Action e == "lock_cleanup" then
    if negb scoped || negb auth || (reason != "owned_lock") then None
    else Some ("GATEWAY_LOCK_CLEANUP_INTENT", AuditSuccess)
  else if ge_Action e == "denied" then
    let denied := Some ("GATEWAY_REQUEST_DENIED", AuditDenied) in
    if bool_decide (reason ∈ unscoped_denials) then if scoped || auth then None else denied
    else if bool_decide (reason ∈ unauthenticated_denials) then if negb scoped || auth then None else denied
    else if bool_decide (reason ∈ authenticated_denials) then if negb scoped || negb auth then None else denied
    else None
  else None.

Definition scoped_changes (e : GatewayEvent) : string :=
  let b := ge_Binding e in
  "{" +:+ json_member "route_host_id" (quote +:+ UString (gb_HostID b) +:+ quote) +:+ "," +:+
  json_member "gateway_id" (quote +:+ UString (gb_GatewayID b) +:+ quote) +:+ "," +:+
  json_member "session_id" (quote +:+ UString (gb_OperationID b) +:+ quote) +:+ "," +:+
  json_member "authenticated" (if ge_Authenticated e then "true" else "false") +:+ "}".

Definition GatewayAudit (e : GatewayEvent) : AuditEvent * bool :=
  let scoped := ge_Binding e != no_binding in
  if scoped && negb (forallb valid_v7 (scoped_ids (ge_Binding e))) then (invalid_event, false)
  else if ge_Action e == "event_rejected" then
    (invalid_event, negb (scoped || ge_Authenticated e || (ge_Reason e != "invalid_event")))
  else match classify e with
  | None => (invalid_event, false)
  | Some (action, result) =>
      let reason := if ge_Action e == "channel_denied" then "REJECTED" else ToUpper (ge_Reason e) in
      (if scoped
       then mkAudit 0 zero_time ActorSystem 0 action "REPOSITORY" (gb_RepositoryID (ge_Binding e)) 0 "" result
              reason (scoped_changes e) "" ""
       else mkAudit 0 zero_time ActorSystem 0 action "GATEWAY" 0 0 "" result reason "" "" "", true)
  end.

Definition GatewayGlobalAudit (e : GatewayEvent) : AuditEvent * bool :=
  let '(audit, valid) := GatewayAudit e in
  (audit, valid && (ge_Binding e == no_binding) && negb (ge_Authenticated e) &&
    ((ge_Action e == "denied") || (ge_Action e == "event_rejected") || (ge_Action e == "channel_denied") ||
     (ge_Action e == "runtime_cleanup"))).
End Events.

(** ** The chain *)

Lemma app_strip (a b c : string) : a +:+ b = a +:+ c → b = c.
Proof. induction a as [|h a IH]; [done|]. intros H. injection H as H. by apply IH. Qed.

Lemma text_inj key s s' x y : json_text key s +:+ x = json_text key s' +:+ y → same_text s s' ∧ x = y.
Proof. unfold json_text, json_member. rewrite !string_app_assoc. intros H. do 4 apply app_strip in H. by apply Quote_inj. Qed.

(** An omitted member is told from the next one by its name. *)
Lemma omit_inj key next s s' t t' x y :
  (∀ u v, key +:+ quote +:+ u ≠ next +:+ quote +:+ v) →
  omit_text key s +:+ "," +:+ json_text next t +:+ x = omit_text key s' +:+ "," +:+ json_text next t' +:+ y →
  same_text s s' ∧ json_text next t +:+ x = json_text next t' +:+ y.
Proof.
  intros Hne. unfold omit_text. destruct (s == "") eqn:Hs, (s' == "") eqn:Hs'; bool_prop; subst; intros H.
  - do 2 apply app_strip in H. done.
  - exfalso. rewrite string_app_assoc in H. do 2 apply (f_equal (drop_bytes 1)) in H. unfold json_text, json_member in H.
    rewrite !string_app_assoc in H. exact (Hne _ _ (eq_sym H)).
  - exfalso. rewrite string_app_assoc in H. do 2 apply (f_equal (drop_bytes 1)) in H. unfold json_text, json_member in H.
    rewrite !string_app_assoc in H. exact (Hne _ _ H).
  - rewrite !string_app_assoc in H. apply app_strip, text_inj in H as [H1 H2]. split; [done|]. by apply app_strip in H2.
Qed.

(** The canonical form determines the event. *)
Lemma canonical_inj c c' x y :
  MarshalCanonical c +:+ x = MarshalCanonical c' +:+ y →
  Forall2 same_text (canonical_texts c) (canonical_texts c') ∧ ca_Changes c +:+ "}" +:+ x = ca_Changes c' +:+ "}" +:+ y.
Proof.
  unfold MarshalCanonical. rewrite !string_app_assoc. intros H. apply app_strip, text_inj in H as [H1 H].
  apply app_strip, text_inj in H as [H2 H]. apply app_strip, text_inj in H as [H3 H]. apply omit_inj in H as [H4 H]; [|done].
  apply text_inj in H as [H5 H]. apply app_strip, text_inj in H as [H6 H]. apply omit_inj in H as [H7 H]; [|done].
  apply text_inj in H as [H8 H]. apply omit_inj in H as [H9 H]; [|done]. apply text_inj in H as [H10 H].
  apply app_strip, text_inj in H as [H11 H]. unfold json_member in H. rewrite !string_app_assoc in H. do 5 apply app_strip in H.
  split; [by repeat constructor|done].
Qed.

Section ChainFacts.
Context `{U : UuidPkg} `{P : Platform} `{C : AuditCodec}.

Lemma last_hash_snoc l e : last_hash (l ++ [e]) = ae_EventHash e.
Proof. unfold last_hash. by rewrite last_snoc. Qed.

Lemma verify_from_snoc p l e :
  verify_from p (l ++ [e]) = true ↔
  verify_from p l = true ∧ ae_PreviousHash e = (match last l with Some x => ae_EventHash x | None => p end) ∧
  ComputeAuditHash e (ae_PreviousHash e) = Some (ae_EventHash e).
Proof.
  revert p. induction l as [|x l IH]; intros p; cbn [verify_from app].
  - case_bool_decide as Hp; cbn [negb]; [rewrite Hp; cbn [last]|naive_solver].
    destruct (ComputeAuditHash e p) as [h|]; [|naive_solver]. case_bool_decide as Hh; cbn [negb]; naive_solver.
  - case_bool_decide; cbn [negb]; [|naive_solver]. destruct (ComputeAuditHash x p) as [h|]; [|naive_solver].
    case_bool_decide; cbn [negb]; [|naive_solver]. rewrite IH. rewrite last_cons. destruct (last l); naive_solver.
Qed.

Lemma verify_snoc l e :
  VerifyAuditChain (l ++ [e]) = true ↔
  VerifyAuditChain l = true ∧ ae_PreviousHash e = last_hash l ∧
  ComputeAuditHash e (last_hash l) = Some (ae_EventHash e).
Proof.
  unfold VerifyAuditChain, last_hash. rewrite verify_from_snoc.
  destruct (last l); split; intros (H1 & H2 & H3); rewrite H2 in *; auto.
Qed.

Lemma ComputeAuditHash_cong e e' p : canonical_event e = canonical_event e' → ComputeAuditHash e p = ComputeAuditHash e' p.
Proof. unfold ComputeAuditHash, canonicalAudit. by intros ->. Qed.

(** An event as it was hashed, before its changes went through the column. *)
Definition as_given (changes : string) (e : AuditEvent) : AuditEvent :=
  mkAudit (ae_ID e) (ae_OccurredAt e) (ae_ActorType e) (ae_ActorID e) (ae_Action e) (ae_ResourceType e) (ae_ResourceID e) (ae_RequestID e)
    (ae_SourceIPHash e) (ae_Result e) (ae_ReasonCode e) changes (ae_PreviousHash e) (ae_EventHash e).

(** A table whose rows were appended one after another, each with the hash of its
    event and of the row before. *)
Inductive linked : list AuditEvent → Prop :=
| linked_nil : linked []
| linked_snoc l e changes :
    linked l → changes ≠ "" → Jsonb changes = Some (ae_Changes e) → ae_PreviousHash e = last_hash l →
    ComputeAuditHash (as_given changes e) (last_hash l) = Some (ae_EventHash e) → linked (l ++ [e]).

Lemma append_linked fresh fault e table : linked table → linked (appendAudit fresh fault e table).2.
Proof.
  intros Hl. unfold appendAudit. destruct (if _ == uuid_Nil then _ else _) as [id|]; [|done].
  set (changes := if ae_Changes e == "" then "{}" else ae_Changes e).
  assert (Hne : changes ≠ "") by (unfold changes; case_bool_decide; done).
  destruct (ComputeAuditHash _ _) as [hash|] eqn:Hh; [|done].
  destruct (Jsonb changes) as [stored|] eqn:Hj; [|done]. destruct fault; [done|].
  apply (linked_snoc _ _ changes); [done|done|done|done|]. cbn. rewrite <- Hh. apply ComputeAuditHash_cong. done.
Qed.

(** The column kept the value of these changes: all but a negative zero, which
    PostgreSQL does not have. *)
Definition kept_changes (e : AuditEvent) : Prop :=
  ae_Changes e ≠ "" ∧ ∀ x, Jsonb x = Some (ae_Changes e) → Normalize (ae_Changes e) = Normalize x.

Lemma linked_verifies l : linked l → Forall kept_changes l → VerifyAuditChain l = true.
Proof.
  intros Hl. induction Hl as [|l e changes _ IH Hne Hj Hp Hh]; [done|]. intros [Hl [He _]%Forall_cons]%Forall_app.
  apply verify_snoc. split; [by apply IH|]. split; [done|]. rewrite <- Hh. apply ComputeAuditHash_cong. destruct He as [Hn He].
  unfold canonical_event. cbn. by rewrite !bool_decide_eq_false_2, (He changes).
Qed.

Lemma append_prefix fresh fault e table : table `prefix_of` (appendAudit fresh fault e table).2.
Proof.
  unfold appendAudit. destruct (if _ == uuid_Nil then _ else _); [|done]. destruct (ComputeAuditHash _ _); [|done].
  destruct (Jsonb _); [|done]. destruct fault; [done|]. by eexists.
Qed.

Lemma append_all_linked l table : linked table → linked (append_all l table).
Proof. revert table. induction l as [|x l IH]; intros t Hl; [done|]. cbn. apply IH. by apply append_linked. Qed.

Lemma append_all_prefix l table : table `prefix_of` append_all l table.
Proof.
  revert table. induction l as [|x l IH]; intros t; [done|]. etrans; [apply append_prefix|]. apply IH.
Qed.

(** The audit chain verifies.  Whatever events are appended, in whatever order and
    with whatever failures of the database, [VerifyAuditChain] accepts the rows of
    the table, although the column writes the changes in its own way, if it kept
    their values. *)
Theorem audit_chain_verifies (l : list (option uuid * bool * AuditEvent)) :
  Forall kept_changes (append_all l []) → VerifyAuditChain (append_all l []) = true.
Proof. apply linked_verifies, append_all_linked, linked_nil. Qed.

(** ** Tampering *)

(** Two events that say the same: each text is the same, up to bytes that are not
    UTF-8, the changes have the same value, and the hashes are the same. *)
Record same_event (e e' : AuditEvent) : Prop := {
  se_canonical : ∃ c c', canonical_event e = Some c ∧ canonical_event e' = Some c' ∧
    Forall2 same_text (canonical_texts c) (canonical_texts c') ∧ ca_Changes c = ca_Changes c';
  se_previous : ae_PreviousHash e = ae_PreviousHash e';
  se_hash : ae_EventHash e = ae_EventHash e' }.

(** A text column holds valid UTF-8 only. *)
Definition valid_row (e : AuditEvent) : Prop := ∀ c, canonical_event e = Some c → Forall (λ s, valid_text s = true) (canonical_texts c).

Lemma same_row e e' : same_event e e' → valid_row e → valid_row e' → canonical_event e = canonical_event e'.
Proof.
  intros [(c & c' & Hc & Hc' & Ht & Hch) _ _] Hv Hv'. specialize (Hv _ Hc). specialize (Hv' _ Hc'). rewrite Hc, Hc'. f_equal.
  assert (Heq : canonical_texts c = canonical_texts c').
  { clear Hc Hc' Hch. induction Ht as [|s s' l l' Hs _ IH]; [done|]. apply Forall_cons in Hv as [? ?], Hv' as [? ?].
    f_equal; [by apply same_text_valid|by apply IH]. }
  destruct c, c'. cbn in *. by injection Heq as -> -> -> -> -> -> -> -> -> -> ->; subst.
Qed.

(** What is hashed of an event. *)
Definition hashed_text (e : AuditEvent) : option string := (λ c, c +:+ ae_PreviousHash e) <$> canonicalAudit e.

(** Two different texts, one of an event of each list, with one hash. *)
Definition collision (events events' : list AuditEvent) : Prop :=
  ∃ e e' a b, e ∈ events ∧ e' ∈ events' ∧ hashed_text e = Some a ∧ hashed_text e' = Some b ∧ a ≠ b ∧ Sum256 a = Sum256 b.

Lemma collision_mono l l' k k' : l ⊆ k → l' ⊆ k' → collision l l' → collision k k'.
Proof. intros Hk Hk' (e & e' & a & b & H1 & H2 & H). exists e, e', a, b. split; [by apply Hk|]. split; [by apply Hk'|done]. Qed.

Lemma last_hash_size `{!PlatformLaws} l :
  VerifyAuditChain l = true → (l = [] ∧ last_hash l = "") ∨ (l ≠ [] ∧ slen (last_hash l) = 32).
Proof.
  destruct l as [|e l _] using rev_ind; [by left|]. rewrite verify_snoc, last_hash_snoc. intros (_ & _ & Hh).
  right. split; [by destruct l|]. unfold ComputeAuditHash in Hh. destruct (canonicalAudit e); [|done].
  injection Hh as <-. unfold slen. by rewrite Sum256_length.
Qed.

Lemma changes_normal e c : canonical_event e = Some c → ∃ u, Normalize u = Some (ca_Changes c).
Proof. unfold canonical_event. destruct (Normalize _) as [x|] eqn:Hx; [|done]. intros [= <-]. by eexists. Qed.

(** One step back along two chains that end in the same hash. *)
Lemma chain_step `{!PlatformLaws, !AuditCodecLaws} e e' l l' :
  VerifyAuditChain (l ++ [e]) = true → VerifyAuditChain (l' ++ [e']) = true → ae_EventHash e = ae_EventHash e' →
  (last_hash l = last_hash l' ∧ same_event e e') ∨ collision [e] [e'].
Proof.
  rewrite !verify_snoc. intros (Hl & Hp & Hh) (Hl' & Hp' & Hh') Heq. unfold ComputeAuditHash in *.
  destruct (canonicalAudit e) as [t|] eqn:Ht; [|done]. destruct (canonicalAudit e') as [t'|] eqn:Ht'; [|done].
  injection Hh as Hh. injection Hh' as Hh'. destruct (decide (t +:+ last_hash l = t' +:+ last_hash l')) as [Hs|Hs].
  2: { right. exists e, e', (t +:+ last_hash l), (t' +:+ last_hash l'). unfold hashed_text. rewrite Ht, Ht'. cbn. rewrite Hp, Hp'.
       split_and!; [by left|by left|done|done|done|congruence]. }
  left. unfold canonicalAudit in Ht, Ht'. apply fmap_Some in Ht as (c & Hc & ->), Ht' as (c' & Hc' & ->).
  assert (Hn := changes_normal _ _ Hc). assert (Hn' := changes_normal _ _ Hc'). destruct Hn as [u Hu], Hn' as [u' Hu'].
  destruct (canonical_inj _ _ _ _ Hs) as [Htexts Hrest].
  assert (Hlen : slen (last_hash l) = slen (last_hash l')).
  { destruct (last_hash_size l Hl) as [[_ E1]|[_ E1]], (last_hash_size l' Hl') as [[_ E2]|[_ E2]]; try congruence; exfalso.
    - rewrite E1, string_app_nil_r in Hrest. apply (Normalize_closed u u') in Hrest; [by rewrite Hrest in E2|done..].
    - rewrite E2, string_app_nil_r in Hrest. symmetry in Hrest. apply (Normalize_closed u' u) in Hrest; [by rewrite Hrest in E1|done..]. }
  rewrite <- !string_app_assoc in Hrest. destruct (string_app_cancel _ _ _ _ Hrest Hlen) as [Hch Hlast].
  apply string_app_cancel in Hch as [Hch _]; [|done]. split; [done|]. split; [by exists c, c'|congruence|done].
Qed.

(** C37: tampering is detected.  Two lists of events that both verify and end in
    the same hash say the same, event by event and in the same order: none was
    modified, removed, inserted or moved, unless an event of the one list and an
    event of the other are two different texts with the same SHA-256.  What is the
    same are all texts, up to bytes that are not UTF-8 (a text column holds none, so
    of rows of the table the texts are equal), the value of the changes, and the
    hashes. *)
Theorem audit_tampering_detected `{!PlatformLaws, !AuditCodecLaws} (events events' : list AuditEvent) :
  VerifyAuditChain events = true → VerifyAuditChain events' = true → last_hash events = last_hash events' →
  Forall2 (λ e e', same_event e e' ∧ (valid_row e → valid_row e' → canonical_event e = canonical_event e')) events events' ∨
  collision events events'.
Proof.
  revert events'. induction events as [|e l IH] using rev_ind; intros events' Hv Hv' Heq.
  - destruct (last_hash_size _ Hv') as [[-> _]|[_ Hs]]; [left; constructor|]. by rewrite <- Heq in Hs.
  - destruct events' as [|e' l' _] using rev_ind.
    + destruct (last_hash_size _ Hv) as [[? _]|[_ Hs]]; [by destruct l|]. by rewrite Heq in Hs.
    + rewrite !last_hash_snoc in Heq. destruct (chain_step e e' l l' Hv Hv' Heq) as [[Hlast Hsame]|Hc].
      2: { right. eapply collision_mono; [..|exact Hc]; set_solver. }
      apply verify_snoc in Hv as [Hv _], Hv' as [Hv' _]. destruct (IH l' Hv Hv' Hlast) as [Hf|Hc].
      2: { right. eapply collision_mono; [..|exact Hc]; set_solver. }
      left. apply Forall2_app; [done|]. constructor; [|done]. split; [done|by apply same_row].
Qed.

(** What the canonical form fixes of the stored columns. *)
Lemma canonical_fields_kept `{!UuidLaws} e e' :
  canonical_event e = canonical_event e' → is_Some (canonical_event e) →
  ae_ID e = ae_ID e' ∧ ae_ActorType e = ae_ActorType e' ∧ ae_Action e = ae_Action e' ∧
  ae_ResourceType e = ae_ResourceType e' ∧ ae_RequestID e = ae_RequestID e' ∧ ae_Result e = ae_Result e' ∧
  ae_ReasonCode e = ae_ReasonCode e'.
Proof.
  intros Heq [c Hc]. rewrite Hc in Heq. symmetry in Heq. unfold canonical_event in Hc, Heq.
  destruct (Normalize _); [|done]. destruct (Normalize _); [|done]. rewrite <- Hc in Heq. injection Heq. intros.
  split_and!; try done; by apply UString_inj.
Qed.
End ChainFacts.

(** ** What a session records, the audit accepts *)

Section SessionEvents.
Context `{U : UuidPkg} `{P : Platform}.
Context (conf : SessionConfig).

(** The event vocabulary of [BackupSession]. *)
Definition session_event (e : Event) : Prop :=
  (ev_Action e = "denied" ∧ ev_Authenticated e = false ∧ ev_Reason e ∈ unauthenticated_denials) ∨
  (ev_Action e = "denied" ∧ ev_Authenticated e = true ∧ ev_Reason e ∈ authenticated_denials) ∨
  e = mkEvent true "lock_cleanup" "owned_lock".

Definition events_ok (s : Session) : Prop := Forall session_event (ss_events s).

Lemma record_events auth action reason s :
  events_ok s → session_event (mkEvent auth action reason) → events_ok (record auth action reason s).2.
Proof. intros Hs He. unfold events_ok, record. cbn. apply Forall_app. split; [done|]. by constructor. Qed.

Lemma deny_events_in reason status s :
  reason ∈ authenticated_denials → events_ok s → events_ok (deny true reason status s).2.
Proof. intros Hr Hs. apply (record_events true "denied" reason); [done|]. right. left. done. Qed.

Lemma deny_events_out reason status s :
  reason ∈ unauthenticated_denials → events_ok s → events_ok (deny false reason status s).2.
Proof. intros Hr Hs. apply (record_events false "denied" reason); [done|]. by left. Qed.

Lemma guard_events s : ss_events (guard_ok conf s).2 = ss_events s.
Proof. unfold guard_ok. by destruct (sc_guarded conf). Qed.

Lemma request_events method path body s : ss_events (request conf method path body s).2 = ss_events s.
Proof.
  unfold request. pose proof (guard_events s) as Hg. destruct (guard_ok conf s) as [ok s1]. cbn [snd] in Hg.
  destruct (negb ok); [done|]. by destruct (_ && _).
Qed.

Lemma read_events r path s : ss_events (read conf r path s).2 = ss_events s.
Proof.
  unfold read. pose proof (request_events (rq_method r) path "" s) as Hr.
  destruct (request conf _ path "" s) as [[[|status body_ok]|] s1]; [done| |done]. cbn [snd] in Hr.
  destruct (_ && _); [|by destruct (_ && _)]. destruct (HasSuffix path "/"); [|done]. by destruct (_ || _).
Qed.

Lemma create_events r path s : events_ok s → events_ok (create conf r path s).2.
Proof.
  intros Hs. unfold create. set (lock := HasPrefix path "locks/").
  do 4 (match goal with |- context [if ?b then deny _ _ _ _ else _] => destruct b end;
    [by apply deny_events_in; [vm_compute; set_solver|]|]).
  pose proof (request_events "HEAD" path "" s) as Hr. destruct (request conf "HEAD" path "" s) as [b s1].
  cbn [snd] in Hr. assert (Hs1 : events_ok s1) by (unfold events_ok; by rewrite Hr).
  destruct b as [[|status ok]|]; [done| |done]. destruct (status != 404).
  { destruct (status == 200); [|done]. by apply deny_events_in; [vm_compute; set_solver|]. }
  set (s2 := if lock then _ else s1). assert (Hs2 : events_ok s2) by (subst s2; by destruct lock).
  set (body := String.substring _ _ _). pose proof (request_events "POST" path body s2) as Hp.
  destruct (request conf "POST" path body s2) as [b s3]. cbn [snd] in Hp.
  assert (Hs3 : events_ok s3) by (unfold events_ok; by rewrite Hp).
  destruct b as [[|status' ok']|]; [done| |done]. destruct (status' != 200); [done|]. cbn [snd].
  by destruct (lock && _).
Qed.

Lemma removeLock_events path s : events_ok s → events_ok (removeLock conf path s).2.
Proof.
  intros Hs. unfold removeLock. destruct (negb _); [by apply deny_events_in; [vm_compute; set_solver|]|].
  pose proof (record_events true "lock_cleanup" "owned_lock" s Hs ltac:(by right; right)) as H1.
  destruct (record true "lock_cleanup" "owned_lock" s) as [ok s1]. cbn [snd] in H1. destruct (negb ok); [done|].
  pose proof (request_events "DELETE" path "" (set_lock path false s1)) as Hr.
  destruct (request conf "DELETE" path "" _) as [b s2]. cbn [snd] in Hr.
  assert (events_ok s2) by (unfold events_ok; by rewrite Hr). by destruct b as [[|]|].
Qed.

Lemma ServeHTTP_events now r s : events_ok s → events_ok (ServeHTTP conf now r s).2.
Proof.
  intros Hs. unfold ServeHTTP.
  assert (Hg : events_ok (if ss_closed s then (true, s) else guard_ok conf s).2).
  { destruct (ss_closed s); [done|]. unfold events_ok. by rewrite guard_events. }
  destruct (if ss_closed s then _ else _) as [guarded s1]. cbn [snd] in Hg.
  do 3 (match goal with |- context [if ?b then deny false _ _ _ else _] => destruct b end;
    [by apply deny_events_out; [vm_compute; set_solver|]|]).
  destruct (objectPath conf r) as [path|]; [|by apply deny_events_in; [vm_compute; set_solver|]].
  destruct (8 <=? _); [by apply deny_events_in; [vm_compute; set_solver|]|].
  destruct (_ || _ && _); [unfold events_ok; by rewrite read_events|].
  do 3 (match goal with |- context [if ?b then deny true _ _ _ else _] => destruct b end;
    [by apply deny_events_in; [vm_compute; set_solver|]|]).
  destruct (rq_wait_ended r); [done|]. destruct (_ == "DELETE"); [by apply removeLock_events|by apply create_events].
Qed.

Lemma run_events_ok xs s : events_ok s → events_ok (run conf xs s).
Proof.
  revert s. induction xs as [|x xs IH]; intros s Hs; [done|]. cbn. apply IH.
  destruct x; [by apply ServeHTTP_events|done|done].
Qed.

Context `{HU : !UuidLaws}.

Lemma scoped_not_empty b : forallb valid_v7 (scoped_ids b) = true → (b != no_binding) = true.
Proof using HU.
  intros Hv. destruct (bool_decide_reflect (b = no_binding)) as [->|]; [|done]. cbn in Hv. bool_prop.
  by apply valid_v7_not_nil in H.
Qed.

Lemma session_event_audited (b : GatewayBinding) (e : Event) :
  forallb valid_v7 (scoped_ids b) = true → session_event e →
  let '(audit, ok) := GatewayAudit (mkGatewayEvent b (ev_Authenticated e) (ev_Action e) (ev_Reason e)) in
  ok = true ∧ ae_ResourceID audit = gb_RepositoryID b ∧
  ae_Result audit = (if ev_Action e == "denied" then AuditDenied else AuditSuccess).
Proof using HU.
  intros Hb He. unfold GatewayAudit. cbn [ge_Binding ge_Action ge_Reason ge_Authenticated].
  rewrite (scoped_not_empty b Hb), Hb. cbn [negb andb].
  assert (Hc : ∃ action, ev_Action e ≠ "event_rejected" ∧
    classify (mkGatewayEvent b (ev_Authenticated e) (ev_Action e) (ev_Reason e)) =
    Some (action, if ev_Action e == "denied" then AuditDenied else AuditSuccess)).
  { unfold classify. cbn [ge_Binding ge_Action ge_Reason ge_Authenticated]. rewrite (scoped_not_empty b Hb).
    destruct e as [auth action reason]. destruct He as [(Ea & Eb & Hr)|[(Ea & Eb & Hr)|He]].
    - cbn in Ea, Eb, Hr. subst. repeat (apply elem_of_cons in Hr as [Hr|Hr]; [subst; cbn; eauto|]). by apply elem_of_nil in Hr.
    - cbn in Ea, Eb, Hr. subst. repeat (apply elem_of_cons in Hr as [Hr|Hr]; [subst; cbn; eauto|]). by apply elem_of_nil in Hr.
    - injection He as -> -> ->. cbn. eauto. }
  destruct Hc as (action & Hn & Hc). rewrite (bool_decide_eq_false_2 _ Hn), Hc. done.
Qed.

(** No observation of a session is lost to classification. Whatever a
    session serves, every event it records for its binding is accepted by
    [GatewayAudit] as an event about the session's repository, a refusal as
    DENIED and an intent to clean a lock as SUCCESS. *)
Theorem session_events_auditable (b : GatewayBinding) (xs : list step) (guards audits : list bool)
    (backend : list Backend) (e : Event) :
  forallb valid_v7 (scoped_ids b) = true → e ∈ ss_events (run conf xs (fresh_session guards audits backend)) →
  let '(audit, ok) := GatewayAudit (mkGatewayEvent b (ev_Authenticated e) (ev_Action e) (ev_Reason e)) in
  ok = true ∧ ae_ResourceID audit = gb_RepositoryID b ∧
  ae_Result audit = (if ev_Action e == "denied" then AuditDenied else AuditSuccess).
Proof using HU.
  intros Hb He. apply session_event_audited; [done|].
  pose proof (run_events_ok xs (fresh_session guards audits backend)) as Hok.
  unfold events_ok in Hok at 2. rewrite Forall_forall in Hok. apply Hok; [|done]. constructor.
Qed.
End SessionEvents.

(** ** Concrete instances *)

(** A self-delimiting encoding of strings, for the examples. *)
Fixpoint escape (s : string) (rest : string) : string :=
  match s with EmptyString => String "0" rest | String c t => String "1" (String c (escape t rest)) end.

Lemma escape_inj s s' r r' : escape s r = escape s' r' → s = s' ∧ r = r'.
Proof.
  revert s'. induction s as [|c s IH]; intros [|c' s'] H; cbn in H; injection H; try done.
  intros [-> ->]%IH ->. done.
Qed.

Lemma escape_app s r x : escape s r +:+ x = escape s (r +:+ x).
Proof. induction s as [|c s IH]; [done|]. change (String "1" (String c (escape s r +:+ x)) = String "1" (String c (escape s (r +:+ x)))). by rewrite IH. Qed.

Lemma fold_escape_inj l l' x x' :
  length l = length l' → foldr escape x l = foldr escape x' l' → l = l' ∧ x = x'.
Proof.
  revert l'. induction l as [|s l IH]; intros [|s' l'] Hl; try done. cbn. intros [-> H]%escape_inj.
  cbn in Hl. destruct (IH l' ltac:(lia) H) as [-> ->]. done.
Qed.

Lemma fold_escape_app l r x : foldr escape r l +:+ x = foldr escape (r +:+ x) l.
Proof. induction l as [|s l IH]; [done|]. cbn [foldr]. by rewrite escape_app, IH. Qed.

(** Objects are decoded by their braces, and their blanks dropped. *)
Fixpoint without_blanks (s : string) : string :=
  match s with
  | EmptyString => EmptyString
  | String c t => if c == " "%char then without_blanks t else String c (without_blanks t)
  end.
Fixpoint closes (depth : nat) (s : string) : bool :=
  match s with
  | EmptyString => false
  | String c t =>
      let depth := if c == "{"%char then S depth else if c == "}"%char then Nat.pred depth else depth in
      if Nat.eqb depth 0 then t == "" else closes depth t
  end.

#[export] Instance toy_audit : AuditCodec := {|
  Normalize x := let y := without_blanks x in if closes 0 y then Some y else None;
  Jsonb x := if x == "" then None else Some x |}.

Lemma closes_prefix d a b x y : closes d a = true → closes d b = true → a +:+ x = b +:+ y → x = y.
Proof.
  revert d b. induction a as [|c a IH]; intros d [|c' b] Ha Hb H; cbn [closes] in Ha, Hb; [done..|]. injection H as <- H.
  destruct (Nat.eqb _ 0); [by bool_prop; subst|]. by apply (IH _ _ Ha Hb).
Qed.

#[export] Instance toy_audit_laws : AuditCodecLaws.
Proof.
  split. intros u v a b x Hu Hv. cbn in Hu, Hv. destruct (closes 0 (without_blanks u)) eqn:Ha; [|done].
  destruct (closes 0 (without_blanks v)) eqn:Hb; [|done]. injection Hu as <-. injection Hv as <-. intros H.
  apply (closes_prefix _ _ _ _ _ Ha Hb) in H. by apply (f_equal (drop_bytes 1)) in H.
Qed.

Definition example_event (n : N) : AuditEvent :=
  mkAudit (v7 n) (time_of_unix 1709210096 + 1500) ActorSystem 0 "AUTH_LOGIN" "SESSION" 0 (v7 90) "" AuditDenied
    "INVALID_CREDENTIALS" "" "" "".
Definition example_audit_inputs : list (option uuid * bool * AuditEvent) :=
  [(None, false, example_event 1); (None, true, example_event 2); (Some (v7 7), false, example_event 0)].
Definition example_table : list AuditEvent := append_all example_audit_inputs [].

Lemma audit_chain_verifies_witness :
  length example_table = 2%nat ∧ VerifyAuditChain example_table = true.
Proof.
  split; [vm_compute; reflexivity|]. apply (audit_chain_verifies example_audit_inputs).
  assert (Hc : ae_Changes <$> append_all example_audit_inputs [] = ["{}"; "{}"]) by (vm_compute; reflexivity).
  apply Forall_forall. intros e He. assert (Hec : ae_Changes e = "{}").
  { apply (list_elem_of_fmap_2 ae_Changes) in He. rewrite Hc in He. by apply list_elem_of_In in He as [|[|[]]]. }
  unfold kept_changes. rewrite Hec. split; [done|]. intros x. cbn. destruct (x == ""); [done|]. by intros [= ->].
Defined.

(** The rows as another writer of the same values might have stored them. *)
Definition example_respaced : list AuditEvent := as_given "{ }" <$> example_table.

Lemma audit_tampering_detected_witness :
  example_table ≠ example_respaced ∧
  (Forall2 (λ e e', same_event e e' ∧ (valid_row e → valid_row e' → canonical_event e = canonical_event e')) example_table example_respaced ∨
   collision example_table example_respaced).
Proof.
  split; [by intros [=]|].
  apply (audit_tampering_detected example_table example_respaced); [vm_compute; reflexivity..|reflexivity].
Defined.

(** A row that was modified no longer verifies. *)
Example modified_row_is_detected :
  VerifyAuditChain (match example_table with e :: l => as_given "{a}" e :: l | [] => [] end) = false.
Proof. vm_compute. reflexivity. Qed.

Definition example_gateway_binding : GatewayBinding := mkGatewayBinding (v7 1) (v7 2) (v7 3) (v7 4).

Lemma session_events_auditable_witness :
  (GatewayAudit (mkGatewayEvent example_gateway_binding false "denied" "session_inactive")).2 = true.
Proof.
  pose proof (session_events_auditable (example_conf None) example_gateway_binding
    [Close; Serve zero_time (example_request "GET" "config" "")] [] [true] []
    (mkEvent false "denied" "session_inactive") eq_refl) as H.
  cbn [ev_Authenticated ev_Action ev_Reason] in H.
  destruct (GatewayAudit _) as [audit ok]. apply H. vm_compute. left.
Defined.
