(* ===== verification/PendingRecord.v ===== *)
(** * PendingRecord: sealed records and signed receipts, internal/security/gateway_pending.go

    JSON, the anonymous NaCl box and Curve25519 are the fields of
    [PendingCodec]; the random bytes of a seal are an argument. *)

From S2P Require Import Prelude GoStd Uuid Platform GatewayAuth GatewaySession AuditChain.
Open Scope Z_scope.
Open Scope go_scope.

Definition MaxGatewayPendingSize : Z := 512 * 2 ^ 10.
Definition nul : string := String "000" "".
Definition pendingContext : string := "restfleet:gateway-pending:v1" +:+ nul.
Definition receiptContext : string := "restfleet:gateway-pending-receipt:v1" +:+ nul.
Definition globalPendingContext : string := "restfleet:gateway-global-audit:v1" +:+ nul.
Definition globalReceiptContext : string := "restfleet:gateway-global-audit-receipt:v1" +:+ nul.

Record GatewayPendingHeader := mkHeader {
  ph_Binding : GatewayAuthorizationBinding;
  ph_RecordID : uuid;
  ph_Sequence : Z;
  ph_PreviousHash : string;
  ph_AuthorizationRevision : Z;
  ph_CreatedAt : Z;
  ph_AuditOrigin : GatewayAuditBinding }.

(** [Event] is a pointer; [Config] is a slice, [None] when it is nil. *)
Record GatewayPendingRecord := mkPending {
  pr_Header : GatewayPendingHeader;
  pr_Kind : string;
  pr_Event : option GatewayEvent;
  pr_ExpectedSecretRevision : Z;
  pr_Config : option string }.

Record gatewayPendingWire := mkWire { pw_Header : GatewayPendingHeader; pw_Ciphertext : string }.

Record GatewayPendingReceipt := mkReceipt {
  rc_AdmissionID : uuid;
  rc_RuntimeID : uuid;
  rc_Sequence : Z;
  rc_RecordID : uuid;
  rc_WireHash : string;
  rc_AuditOriginID : uuid }.

#[export] Instance GatewayPendingHeader_eq_dec : EqDecision GatewayPendingHeader.
Proof. solve_decision. Defined.
#[export] Instance GatewayPendingRecord_eq_dec : EqDecision GatewayPendingRecord.
Proof. solve_decision. Defined.
#[export] Instance GatewayPendingReceipt_eq_dec : EqDecision GatewayPendingReceipt.
Proof. solve_decision. Defined.

Definition zero_receipt : GatewayPendingReceipt := mkReceipt 0 0 0 0 "" 0.
(** [strings.Repeat("0", 64)], also [hex.EncodeToString(make(\[\]byte, 32))]. *)
Definition zero_hash : string := zeros 64.

Definition AnonymousOverhead : Z := 48.

Class PendingCodec := {
  MarshalPending : GatewayPendingRecord → string;
  UnmarshalPending : string → option GatewayPendingRecord;
  MarshalWire : gatewayPendingWire → string;
  UnmarshalWire : string → option gatewayPendingWire;
  (** Decoding into a struct that only has the field [Header]. *)
  UnmarshalSelector : string → option GatewayPendingHeader;
  MarshalReceipt : GatewayPendingReceipt → string;
  UnmarshalReceipt : string → option GatewayPendingReceipt;
  (** [curve25519.X25519(private, curve25519.Basepoint)]. *)
  X25519 : string → option string;
  (** [SealAnonymous rand plain recipient] and [OpenAnonymous ciphertext public private]. *)
  SealAnonymous : string → string → string → option string;
  OpenAnonymous : string → string → string → option string }.

Section Validation.
Context `{U : UuidPkg}.

Definition validPendingHash (value : string) : bool :=
  match hex_decode value with
  | Some b => (slen b == 32) && (hex_encode b == value)
  | None => false
  end.

(** [true] when [GatewayPendingHeader.Validate] returns nil. *)
Definition ValidateHeader (h : GatewayPendingHeader) : bool :=
  let global := ph_AuditOrigin h != no_origin in
  negb (negb global && (negb (ValidateBinding (ph_Binding h)) || (ph_AuthorizationRevision h <? 1)) ||
        global && (negb (ValidateAuditBinding (ph_AuditOrigin h)) || (ph_Binding h != zero_binding) ||
                   (ph_AuthorizationRevision h != 0)) ||
        negb (valid_v7 (ph_RecordID h)) ||
        (ph_Sequence h <? 1) || (ph_Sequence h == max_int64) || (ph_CreatedAt h <=? 0) ||
        (maxTimestamp <? ph_CreatedAt h) || negb (validPendingHash (ph_PreviousHash h))) &&
  negb ((ph_Sequence h == 1) && (ph_PreviousHash h != zero_hash)).

Definition event_route_ok (h : GatewayPendingHeader) (e : GatewayEvent) : bool :=
  let b := ge_Binding e in
  negb ((b != no_binding) &&
    ((gb_HostID b != HostID (ph_Binding h)) || (gb_RepositoryID b != RepositoryID (ph_Binding h)) ||
     (gb_GatewayID b != GatewayID (ph_Binding h)))).

(** [true] when [GatewayPendingRecord.Validate] returns nil. *)
Definition ValidateRecord (r : GatewayPendingRecord) : bool :=
  let h := pr_Header r in
  ValidateHeader h &&
  if pr_Kind r == "global_audit" then
    ValidateAuditBinding (ph_AuditOrigin h) && (pr_ExpectedSecretRevision r == 0) && (pr_Config r == None) &&
    match pr_Event r with Some e => (GatewayGlobalAudit e).2 | None => false end
  else if pr_Kind r == "audit" then
    (ph_AuditOrigin h == no_origin) && (pr_ExpectedSecretRevision r == 0) && (pr_Config r == None) &&
    match pr_Event r with Some e => (GatewayAudit e).2 && event_route_ok h e | None => false end
  else if pr_Kind r == "refresh" then
    (ph_AuditOrigin h == no_origin) && (pr_Event r == None) &&
    negb ((pr_ExpectedSecretRevision r <? 1) || (pr_ExpectedSecretRevision r == max_int64)) &&
    let config := default "" (pr_Config r) in negb ((slen config == 0) || (256 * 2 ^ 10 <? slen config))
  else false.

Definition valid_receipt (r : GatewayPendingReceipt) : bool :=
  let global := rc_AuditOriginID r != uuid_Nil in
  if global && (rc_AdmissionID r != uuid_Nil) then false
  else
    let id := if global then rc_AuditOriginID r else rc_AdmissionID r in
    forallb valid_v7 [id; rc_RuntimeID r; rc_RecordID r] &&
    (0 <? rc_Sequence r) && (rc_Sequence r <? max_int64) && validPendingHash (rc_WireHash r).
End Validation.

(** Documented behaviour of encoding/json on valid values, whose strings are
    all ASCII, and of nacl/box. *)
Class PendingCodecLaws `{U : UuidPkg} `{C : PendingCodec} : Prop := {
  Unmarshal_Pending : ∀ r, ValidateRecord r = true → UnmarshalPending (MarshalPending r) = Some r;
  Unmarshal_Wire : ∀ w, ValidateHeader (pw_Header w) = true → UnmarshalWire (MarshalWire w) = Some w;
  Selector_Wire : ∀ payload w, UnmarshalWire payload = Some w → UnmarshalSelector payload = Some (pw_Header w);
  Unmarshal_Receipt : ∀ r, valid_receipt r = true → UnmarshalReceipt (MarshalReceipt r) = Some r;
  MarshalPending_nonempty : ∀ r, 0 < slen (MarshalPending r);
  MarshalWire_nonempty : ∀ w, 0 < slen (MarshalWire w);
  MarshalReceipt_size : ∀ r, valid_receipt r = true → 0 < slen (MarshalReceipt r) ≤ 1024 - SignatureSize;
  Seal_size : ∀ rand plain recipient sealed,
    SealAnonymous rand plain recipient = Some sealed → slen sealed = slen plain + AnonymousOverhead;
  Open_Seal : ∀ private rand plain recipient sealed,
    X25519 private = Some recipient → SealAnonymous rand plain recipient = Some sealed →
    OpenAnonymous sealed recipient private = Some plain;
  X25519_size : ∀ private public, X25519 private = Some public → slen public = 32 }.

Section Wire.
Context `{U : UuidPkg} `{P : Platform} `{E : Ed25519} `{C : PendingCodec}.

Definition GatewayPendingPublicKey (private : string) : option string :=
  if slen private != 32 then None else X25519 private.

Definition pendingSignatureContext (h : GatewayPendingHeader) : string :=
  if ph_AuditOrigin h != no_origin then globalPendingContext else pendingContext.

Definition SealGatewayPending (rand : string) (r : GatewayPendingRecord) (recipient source : string) : option string :=
  if negb (ValidateRecord r) || (slen source != PrivateKeySize) then None
  else if NewKeyFromSeed (take_bytes 32 source) != source then None
  else match SealAnonymous rand (MarshalPending r) recipient with
  | None => None
  | Some sealed =>
      let payload := MarshalWire (mkWire (pr_Header r) sealed) in
      if MaxGatewayPendingSize <? slen payload + 64 then None
      else Some (payload +:+ Sign source (pendingSignatureContext (pr_Header r) +:+ payload))
  end.

Definition verifyPendingWire (wire source : string) : option gatewayPendingWire :=
  if (slen source != 32) || (slen wire <=? 64) || (MaxGatewayPendingSize <? slen wire) then None
  else
    let payload := take_bytes (slen wire - 64) wire in
    match UnmarshalSelector payload with
    | None => None
    | Some selector =>
        if negb (ValidateHeader selector) ||
           negb (Verify source (pendingSignatureContext selector +:+ payload) (skip_bytes (slen payload) wire))
        then None
        else match UnmarshalWire payload with
             | None => None
             | Some w =>
                 if slen (pw_Ciphertext w) <=? AnonymousOverhead then None
                 else if MarshalWire w != payload then None else Some w
             end
    end.

Definition InspectGatewayPending (wire source : string) : option GatewayPendingHeader :=
  pw_Header <$> verifyPendingWire wire source.

(** The untrusted registry selectors. *)
Definition select_header (wire : string) : option GatewayPendingHeader :=
  if (slen wire <=? 64) || (MaxGatewayPendingSize <? slen wire) then None
  else match UnmarshalSelector (take_bytes (slen wire - 64) wire) with
       | Some h => if ValidateHeader h then Some h else None
       | None => None
       end.

Definition GatewayPendingIdentity (wire : string) : option (uuid * uuid) :=
  match select_header wire with
  | Some h => if ph_AuditOrigin h != no_origin then None
              else Some (AdmissionID (ph_Binding h), RuntimeID (ph_Binding h))
  | None => None
  end.

Definition GatewayPendingAuditIdentity (wire : string) : option GatewayAuditBinding :=
  match select_header wire with
  | Some h => if negb (ValidateAuditBinding (ph_AuditOrigin h)) then None else Some (ph_AuditOrigin h)
  | None => None
  end.

Definition OpenGatewayPending (wire source private : string) : option GatewayPendingRecord :=
  match verifyPendingWire wire source, GatewayPendingPublicKey private with
  | Some w, Some public =>
      match OpenAnonymous (pw_Ciphertext w) public private with
      | None => None
      | Some plain =>
          match UnmarshalPending plain with
          | None => None
          | Some r =>
              if (pr_Header r != pw_Header w) || negb (ValidateRecord r) then None
              else if MarshalPending r != plain then None else Some r
          end
      end
  | _, _ => None
  end.

Definition GatewayPendingHash (wire : string) : string := hex_encode (Sum256 wire).

Definition receiptSignatureContext (r : GatewayPendingReceipt) : string :=
  if rc_AuditOriginID r != uuid_Nil then globalReceiptContext else receiptContext.

Definition SignGatewayPendingReceipt (r : GatewayPendingReceipt) (key : string) : option string :=
  if negb (valid_receipt r) || (slen key != 64) then None
  else let payload := MarshalReceipt r in Some (payload +:+ Sign key (receiptSignatureContext r +:+ payload)).

Definition VerifyGatewayPendingReceipt (wire key : string) : option GatewayPendingReceipt :=
  if (slen key != 32) || (slen wire <=? 64) || (1024 <? slen wire) then None
  else
    let payload := take_bytes (slen wire - 64) wire in
    match UnmarshalReceipt payload with
    | None => None
    | Some r =>
        if negb (valid_receipt r) ||
           negb (Verify key (receiptSignatureContext r +:+ payload) (skip_bytes (slen payload) wire))
        then None
        else if payload != MarshalReceipt r then None else Some r
    end.
End Wire.

(** ** Lemmas *)

Lemma hex_char_digit n : (n < 16)%N → hex_digit (hex_char n) = Some n.
Proof.
  intros Hn. assert (Hall : Forall (λ n, hex_digit (hex_char n) = Some n) (N.of_nat <$> seq 0 16)).
  { vm_compute. repeat constructor. }
  rewrite Forall_forall in Hall. apply Hall. apply list_elem_of_fmap. exists (N.to_nat n).
  split; [lia|]. apply elem_of_seq. lia.
Qed.

Lemma hex_decode_encode s : hex_decode (hex_encode s) = Some s.
Proof.
  induction s as [|c s IH]; [done|]. cbn [hex_encode hex_decode].
  assert (Hb : (byte_of c < 256)%N) by apply N_ascii_bounded.
  rewrite !hex_char_digit, IH; [|by apply N.mod_lt|by apply N.Div0.div_lt_upper_bound].
  do 2 f_equal. rewrite (N.mul_comm _ 16), <- N.div_mod by done. apply ascii_N_embedding.
Qed.

Section WireFacts.
Context `{U : UuidPkg} `{P : Platform} `{E : Ed25519} `{C : PendingCodec}.
Context `{HC : !PendingCodecLaws} `{HE : !Ed25519Laws}.

Lemma pending_hash_valid `{HP : !PlatformLaws} wire : validPendingHash (GatewayPendingHash wire) = true.
Proof.
  unfold validPendingHash, GatewayPendingHash. rewrite hex_decode_encode. unfold slen. rewrite Sum256_length.
  by rewrite !bool_decide_eq_true_2.
Qed.

Lemma Seal_inv rand r recipient source wire :
  SealGatewayPending rand r recipient source = Some wire →
  ∃ sealed, ValidateRecord r = true ∧ slen source = PrivateKeySize ∧
    SealAnonymous rand (MarshalPending r) recipient = Some sealed ∧
    let payload := MarshalWire (mkWire (pr_Header r) sealed) in
    slen payload + 64 ≤ MaxGatewayPendingSize ∧
    wire = payload +:+ Sign source (pendingSignatureContext (pr_Header r) +:+ payload).
Proof.
  unfold SealGatewayPending. destruct (negb (ValidateRecord r) || _) eqn:Hg; [done|]. bool_prop.
  destruct (_ != source); [done|]. destruct (SealAnonymous _ _ _) as [sealed|] eqn:Hs; [|done].
  destruct (_ <? _) eqn:Hl; [done|]. intros [= <-]. bool_prop. exists sealed. done.
Qed.

Lemma Seal_verified rand r recipient source wire :
  SealGatewayPending rand r recipient source = Some wire →
  ∃ sealed, SealAnonymous rand (MarshalPending r) recipient = Some sealed ∧
    verifyPendingWire wire (Public source) = Some (mkWire (pr_Header r) sealed) ∧
    64 < slen wire ≤ MaxGatewayPendingSize ∧ ValidateRecord r = true.
Proof using HC HE.
  intros (sealed & Hv & Hk & Hs & Hl & ->)%Seal_inv. cbv zeta in Hl. exists sealed. split; [done|].
  set (w := mkWire (pr_Header r) sealed) in *. set (payload := MarshalWire w) in *.
  set (sig := Sign source _). assert (Hsig : slen sig = SignatureSize) by apply Sign_size.
  pose proof (MarshalWire_nonempty w) as Hne. fold payload in Hne. unfold SignatureSize in Hsig.
  assert (Hh : ValidateHeader (pr_Header r) = true) by (unfold ValidateRecord in Hv; by apply andb_true_iff in Hv as [? _]).
  assert (Hu : UnmarshalWire payload = Some w) by (by apply Unmarshal_Wire).
  rewrite slen_app, Hsig. split; [|split; [lia|done]]. unfold verifyPendingWire. rewrite slen_app, Hsig.
  rewrite (bool_decide_eq_true_2 (slen (Public source) = 32)) by (by apply Public_size).
  rewrite (proj2 (Z.leb_gt _ _)), (proj2 (Z.ltb_ge _ _)) by lia. cbn [negb orb].
  replace (slen payload + 64 - 64) with (slen payload) by lia. rewrite take_bytes_app, skip_bytes_app.
  rewrite (Selector_Wire payload w Hu). cbn [pw_Header w]. rewrite Hh. subst sig. rewrite Verify_Sign. cbn [negb orb].
  rewrite Hu. cbn [pw_Ciphertext w]. rewrite (Seal_size _ _ _ _ Hs).
  pose proof (MarshalPending_nonempty r). rewrite (proj2 (Z.leb_gt _ _)) by lia.
  by rewrite bool_decide_eq_true_2.
Qed.

(** Sealed records come back. What a Gateway seals for the control plane,
    the holder of the recipient's private key opens unchanged with the
    registered source key, and no sealed record exceeds the size bound. *)
Theorem pending_round_trip (rand : string) (r : GatewayPendingRecord) (private recipient source wire : string) :
  GatewayPendingPublicKey private = Some recipient → SealGatewayPending rand r recipient source = Some wire →
  OpenGatewayPending wire (Public source) private = Some r ∧
  InspectGatewayPending wire (Public source) = Some (pr_Header r) ∧ slen wire ≤ MaxGatewayPendingSize.
Proof using HC HE.
  intros Hp Hs. destruct (Seal_verified _ _ _ _ _ Hs) as (sealed & Hbox & Hw & [_ Hl] & Hv).
  unfold InspectGatewayPending, OpenGatewayPending. rewrite Hw, Hp. split; [|done]. cbn [pw_Ciphertext pw_Header].
  assert (Hx : X25519 private = Some recipient).
  { unfold GatewayPendingPublicKey in Hp. by destruct (slen private != 32). }
  rewrite (Open_Seal _ _ _ _ _ Hx Hbox), Unmarshal_Pending, Hv by done. by rewrite !bool_decide_eq_true_2.
Qed.

(** A record is authenticated before anything of it is used. The header
    [InspectGatewayPending] returns is valid, and the bytes are exactly the
    canonical encoding of that header and a ciphertext, followed by a signature
    of the registered source over it in the domain of its kind of record. *)
Theorem pending_authentic (wire source : string) (h : GatewayPendingHeader) :
  InspectGatewayPending wire source = Some h →
  ∃ ciphertext sig, wire = MarshalWire (mkWire h ciphertext) +:+ sig ∧ ValidateHeader h = true ∧
    Verify source (pendingSignatureContext h +:+ MarshalWire (mkWire h ciphertext)) sig = true ∧
    slen wire ≤ MaxGatewayPendingSize.
Proof using HC.
  unfold InspectGatewayPending, verifyPendingWire. destruct (_ || _ || _) eqn:Hg; [done|]. bool_prop.
  set (payload := take_bytes _ wire). destruct (UnmarshalSelector payload) as [selector|] eqn:Hsel; [|done].
  destruct (negb (ValidateHeader selector) || _) eqn:Hv; [done|]. bool_prop.
  destruct (UnmarshalWire payload) as [[h' c]|] eqn:Hw; [|done]. destruct (_ <=? AnonymousOverhead); [done|].
  destruct (bool_decide_reflect (MarshalWire (mkWire h' c) = payload)) as [Hm|]; [|done]. cbn. intros [= <-].
  rewrite (Selector_Wire _ _ Hw) in Hsel. injection Hsel as <-. exists c, (skip_bytes (slen payload) wire).
  rewrite Hm. split; [|done]. symmetry. apply take_skip_bytes. lia.
Qed.

Lemma Sign_receipt_verified r key wire :
  SignGatewayPendingReceipt r key = Some wire → VerifyGatewayPendingReceipt wire (Public key) = Some r.
Proof using HC HE.
  unfold SignGatewayPendingReceipt. destruct (_ || _) eqn:Hg; [done|]. bool_prop. intros [= <-].
  pose proof (MarshalReceipt_size r H) as Hl. set (payload := MarshalReceipt r) in *.
  set (sig := Sign key _). assert (Hsig : slen sig = SignatureSize) by apply Sign_size.
  unfold SignatureSize in *. unfold VerifyGatewayPendingReceipt. rewrite slen_app, Hsig.
  rewrite (bool_decide_eq_true_2 (slen (Public key) = 32)) by (by apply Public_size).
  rewrite (proj2 (Z.leb_gt _ _)), (proj2 (Z.ltb_ge _ _)) by lia. cbn [negb orb].
  replace (slen payload + 64 - 64) with (slen payload) by lia. rewrite take_bytes_app, skip_bytes_app.
  subst payload. rewrite Unmarshal_Receipt, H by done. subst sig. rewrite Verify_Sign. cbn [negb orb].
  by rewrite bool_decide_eq_true_2.
Qed.

Lemma Verify_receipt_valid wire key r :
  VerifyGatewayPendingReceipt wire key = Some r → valid_receipt r = true ∧ slen wire ≤ 1024.
Proof.
  unfold VerifyGatewayPendingReceipt. destruct (_ || _ || _) eqn:Hg; [done|]. bool_prop.
  destruct (UnmarshalReceipt _) as [r'|]; [|done]. destruct (negb (valid_receipt r') || _) eqn:Hv; [done|].
  destruct (_ != _); [done|]. intros [= <-]. bool_prop. done.
Qed.

Lemma Inspect_valid wire source h :
  InspectGatewayPending wire source = Some h → ValidateHeader h = true ∧ slen wire ≤ MaxGatewayPendingSize.
Proof using HC.
  intros Hi. unfold InspectGatewayPending, verifyPendingWire in Hi. destruct (_ || _ || _) eqn:Hg; [done|]. bool_prop.
  destruct (UnmarshalSelector _) as [selector|] eqn:Hsel; [|done].
  destruct (negb (ValidateHeader selector) || _) eqn:Hv; [done|]. bool_prop.
  destruct (UnmarshalWire _) as [w|] eqn:Hw; [|done]. rewrite (Selector_Wire _ _ Hw) in Hsel. injection Hsel as <-.
  destruct (_ <=? AnonymousOverhead); [done|]. destruct (_ != _); [done|]. cbn in Hi. by injection Hi as <-.
Qed.
End WireFacts.

(** ** Signature domains *)

Definition contexts : list string :=
  [gatewayStatementContext; pendingContext; receiptContext; globalPendingContext; globalReceiptContext].

(** Signature domains are separate. No byte string signed in one domain
    (grants, records, receipts, and their process-wide counterparts) is also a
    byte string signed in another, whatever the payloads. *)
Theorem contexts_separated (c c' payload payload' : string) :
  c ∈ contexts → c' ∈ contexts → c +:+ payload = c' +:+ payload' → c = c' ∧ payload = payload'.
Proof.
  intros Hc Hc' Heq. unfold contexts in *.
  repeat (apply elem_of_cons in Hc as [->|Hc]); [..|by apply elem_of_nil in Hc];
  repeat (apply elem_of_cons in Hc' as [->|Hc']); try (by apply elem_of_nil in Hc');
  first [by apply (inj (String.append _)) in Heq | discriminate Heq].
Qed.
