(* ===== verification/PendingQueue.v ===== *)
(** * PendingQueue: the durable queue of a Gateway, internal/gatewaypending/queue_linux.go

    A queue owns a private directory.  The directory is a map from names to
    files; an update of it (creation, rename, removal) is visible at once and
    durable after the next successful fsync of the directory.  [fs_old] holds
    the versions of the directory since that fsync, oldest first: a crash
    leaves one of them (updates reach the disk in order).  A renamed file was
    synced before, so only the temporary file can have other contents after a
    crash.  Every system call can fail: [fs_faults] says which ones do, and a
    crash in the middle of an operation is a failing call followed by a crash. *)

From S2P Require Import Prelude GoStd Uuid Platform GatewayAuth GatewaySession AuditChain PendingRecord.
Open Scope Z_scope.
Open Scope go_scope.

(** ** The directory *)

(** [fi_private]: owned by the process, mode 0600, one link, no special bits. *)
Record File := mkFile { fi_data : string; fi_regular : bool; fi_private : bool }.
Abbreviation Dir := (gmap string File).
Record Fs := mkFs { fs_old : list Dir; fs_seen : Dir; fs_faults : list bool }.

Definition own_file (data : string) : File := mkFile data true true.

(** Does the next system call fail? *)
Definition call (fs : Fs) : bool * Fs :=
  match fs_faults fs with
  | [] => (false, fs)
  | b :: l => (b, mkFs (fs_old fs) (fs_seen fs) l)
  end.
Definition update_dir (f : Dir → Dir) (fs : Fs) : Fs :=
  mkFs (fs_old fs ++ [fs_seen fs]) (f (fs_seen fs)) (fs_faults fs).
Definition sync_dir (fs : Fs) : bool * Fs :=
  let '(bad, fs) := call fs in
  if bad then (false, fs) else (true, mkFs [] (fs_seen fs) (fs_faults fs)).

Definition private (f : File) : bool := fi_regular f && fi_private f.

Definition tmp_name : string := "pending.tmp".

(** [Queue.atomic]; [true] for a nil error. *)
Definition atomic (name raw : string) (fs : Fs) : bool * Fs :=
  let '(bad, fs) := call fs in
  if bad || bool_decide (is_Some (fs_seen fs !! tmp_name)) then (false, fs)
  else
    let fs := update_dir <[tmp_name := own_file ""]> fs in
    let '(bad, fs) := call fs in
    if bad then (false, fs)
    else
      let fs := update_dir <[tmp_name := own_file raw]> fs in
      let '(bad_sync, fs) := call fs in
      let '(bad_close, fs) := call fs in
      if bad_sync || bad_close then (false, fs)
      else
        let '(bad, fs) := call fs in
        if bad then (false, fs)
        else sync_dir (update_dir (λ d, <[name := own_file raw]> (delete tmp_name d)) fs).

(** [Queue.read]. *)
Definition read (name : string) (max : Z) (fs : Fs) : option string * Fs :=
  let '(bad, fs) := call fs in
  if bad then (None, fs)
  else match fs_seen fs !! name with
       | Some f => (if negb (private f) || (max <? slen (fi_data f)) then None else Some (fi_data f), fs)
       | None => (None, fs)
       end.

Inductive lstat_result := NotExist | Exists (f : File) | LstatError.
Definition Lstat (name : string) (fs : Fs) : lstat_result * Fs :=
  let '(bad, fs) := call fs in
  if bad then (LstatError, fs)
  else (match fs_seen fs !! name with Some f => Exists f | None => NotExist end, fs).

Definition Remove (name : string) (fs : Fs) : bool * Fs :=
  let '(bad, fs) := call fs in
  if bad || bool_decide (fs_seen fs !! name = None) then (false, fs) else (true, update_dir (delete name) fs).

(** ** The queue *)

Definition reservedBytes : Z := 16 * 2 ^ 10.

Record identity := mkIdentity {
  id_Binding : GatewayAuthorizationBinding;
  id_Source : string;
  id_Recipient : string;
  id_Confirmation : string;
  id_MaxBytes : Z;
  id_MaxRecords : Z;
  id_AuditOrigin : GatewayAuditBinding }.

Record Queue := mkQueue {
  q_identity : identity;
  q_key : string;
  q_files : list string;
  q_bytes : Z;
  q_sequence : Z;
  q_hash : string;
  q_receipt : GatewayPendingReceipt;
  q_failed : bool;
  q_frozen : bool;
  q_closed : bool;
  q_producerClaimed : bool;
  q_finished : bool }.

#[export] Instance identity_eq_dec : EqDecision identity.
Proof. solve_decision. Defined.

Definition set_failed (q : Queue) : Queue :=
  mkQueue (q_identity q) (q_key q) (q_files q) (q_bytes q) (q_sequence q) (q_hash q) (q_receipt q) true (q_frozen q)
    (q_closed q) (q_producerClaimed q) (q_finished q).
Definition set_position (files : list string) (bytes sequence : Z) (hash : string) (q : Queue) : Queue :=
  mkQueue (q_identity q) (q_key q) files bytes sequence hash (q_receipt q) (q_failed q) (q_frozen q)
    (q_closed q) (q_producerClaimed q) (q_finished q).
Definition set_receipt (r : GatewayPendingReceipt) (q : Queue) : Queue :=
  mkQueue (q_identity q) (q_key q) (q_files q) (q_bytes q) (q_sequence q) (q_hash q) r (q_failed q) (q_frozen q)
    (q_closed q) (q_producerClaimed q) (q_finished q).
Definition set_claimed (q : Queue) : Queue :=
  mkQueue (q_identity q) (q_key q) (q_files q) (q_bytes q) (q_sequence q) (q_hash q) (q_receipt q) (q_failed q)
    (q_frozen q) (q_closed q) true (q_finished q).
Definition set_finished (q : Queue) : Queue :=
  mkQueue (q_identity q) (q_key q) (q_files q) (q_bytes q) (q_sequence q) (q_hash q) (q_receipt q) (q_failed q)
    (q_frozen q) (q_closed q) (q_producerClaimed q) true.
Definition Freeze (q : Queue) : Queue :=
  mkQueue (q_identity q) (q_key q) (q_files q) (q_bytes q) (q_sequence q) (q_hash q) (q_receipt q) (q_failed q)
    true (q_closed q) (q_producerClaimed q) (q_finished q).
(** [clear(q.key)] zeroes the bytes of the key and keeps their number; the
    files are closed, which releases the lock. *)
Definition zero_bytes (n : nat) : string := bytes_be n 0.
Definition Close (q : Queue) : Queue :=
  if q_closed q then q
  else mkQueue (q_identity q) (zero_bytes (String.length (q_key q))) (q_files q) (q_bytes q) (q_sequence q) (q_hash q)
    (q_receipt q) (q_failed q) (q_frozen q) true (q_producerClaimed q) (q_finished q).

(** [fmt.Sprintf("%020d.record", sequence)]. *)
Fixpoint decimal (width : nat) (z : Z) : string :=
  match width with
  | O => ""
  | S k => decimal k (z / 10) +:+ String (ascii_of_N (48 + Z.to_N (z mod 10))) ""
  end.
Definition recordName (sequence : Z) : string :=
  (if sequence <? 0 then String "-" (decimal 19 (- sequence)) else decimal 20 sequence) +:+ ".record".
Definition TrimSuffix (s suf : string) : string :=
  if HasSuffix s suf then take_bytes (slen s - slen suf) s else s.

Class QueueCodec := { MarshalIdentity : identity → string }.

(** What the process finds when it opens the directory: [EvalSymlinks], whether
    the directory opens and is private, and whether the lock is free. *)
Record Environment := mkEnv { en_symlinks : string → option string; en_dir : bool; en_flock : bool }.

Section Queue.
Context `{U : UuidPkg} `{P : Platform} `{E : Ed25519} `{C : PendingCodec} `{I : QueueCodec}.

Definition inspect (q : Queue) (wire : string) : option GatewayPendingHeader :=
  match InspectGatewayPending wire (id_Source (q_identity q)) with
  | Some h =>
      if (ph_Binding h != id_Binding (q_identity q)) || (ph_AuditOrigin h != id_AuditOrigin (q_identity q))
      then None else Some h
  | None => None
  end.

Definition matchesReceipt (q : Queue) (r : GatewayPendingReceipt) : bool :=
  let id := q_identity q in
  if id_AuditOrigin id != no_origin
  then (rc_AdmissionID r == uuid_Nil) && (rc_AuditOriginID r == OriginID (id_AuditOrigin id)) &&
       (rc_RuntimeID r == AuditRuntimeID (id_AuditOrigin id))
  else (rc_AuditOriginID r == uuid_Nil) && (rc_AdmissionID r == AdmissionID (id_Binding id)) &&
       (rc_RuntimeID r == RuntimeID (id_Binding id)).

Definition receiptHash (r : GatewayPendingReceipt) : string :=
  if rc_Sequence r == 0 then zero_hash else rc_WireHash r.

(** *** Recovery *)

Definition recover_receipt (q : Queue) (fs : Fs) : option Queue * Fs :=
  let '(raw, fs) := read "receipt" 1024 fs in
  match raw with
  | Some raw =>
      (match VerifyGatewayPendingReceipt raw (id_Confirmation (q_identity q)) with
       | Some r =>
           if negb (matchesReceipt q r) then None
           else Some (set_position (q_files q) (q_bytes q) (rc_Sequence r) (rc_WireHash r) (set_receipt r q))
       | None => None
       end, fs)
  | None =>
      let '(st, fs) := Lstat "receipt" fs in
      (match st with NotExist => Some q | _ => None end, fs)
  end.

(** The first loop of [recover]: [false] when it returns an error. *)
Fixpoint physical (names : list string) (total max : Z) (fs : Fs) : bool * Fs :=
  match names with
  | [] => (true, fs)
  | name :: rest =>
      let '(st, fs) := Lstat name fs in
      match st with
      | Exists f =>
          if negb (fi_regular f) then (false, fs)
          else
            let total := total + slen (fi_data f) in
            if max <? total then (false, fs) else physical rest total max fs
      | _ => (false, fs)
      end
  end.

(** One round of the second loop, for a name that is not skipped: the queue and
    the acknowledged names so far. *)
Definition recover_record (name : string) (q : Queue) (acknowledged : list string) (fs : Fs) :
    option (Queue * list string) * Fs :=
  if negb (HasSuffix name ".record") || (slen name != 27) then (None, fs)
  else match Atoi (TrimSuffix name ".record") with
  | None => (None, fs)
  | Some seq =>
      if name != recordName seq then (None, fs)
      else
        let '(raw, fs) := read name MaxGatewayPendingSize fs in
        (match raw with
         | None => None
         | Some raw =>
             match inspect q raw with
             | None => None
             | Some h =>
                 if ph_Sequence h != seq then None
                 else
                   let hash := GatewayPendingHash raw in
                   let r := q_receipt q in
                   if seq <=? rc_Sequence r then
                     if (seq == rc_Sequence r) && ((ph_RecordID h != rc_RecordID r) || (hash != rc_WireHash r))
                     then None
                     else Some (q, acknowledged ++ [name])
                   else if (seq != q_sequence q + 1) || (ph_PreviousHash h != q_hash q) then None
                   else Some (set_position (q_files q ++ [name]) (q_bytes q + slen raw) seq hash q, acknowledged)
             end
         end, fs)
  end.

Definition own_names : list string := ["identity"; "receipt"; "lock"].

Fixpoint recover_records (names : list string) (q : Queue) (acknowledged : list string) (fs : Fs) :
    option (Queue * list string) * Fs :=
  match names with
  | [] => (Some (q, acknowledged), fs)
  | name :: rest =>
      if bool_decide (name ∈ own_names) then recover_records rest q acknowledged fs
      else match recover_record name q acknowledged fs with
           | (Some (q, acknowledged), fs) => recover_records rest q acknowledged fs
           | (None, fs) => (None, fs)
           end
  end.

Fixpoint remove_all (names : list string) (fs : Fs) : bool * Fs :=
  match names with
  | [] => (true, fs)
  | name :: rest =>
      let '(ok, fs) := Remove name fs in
      if negb ok then (false, fs) else remove_all rest fs
  end.

Definition recover (names : list string) (q : Queue) (fs : Fs) : option Queue * Fs :=
  match recover_receipt q fs with
  | (None, fs) => (None, fs)
  | (Some q, fs) =>
      let names := sort_Slice string_less names in
      let limits := q_identity q in
      let '(ok, fs) := physical names 0 (id_MaxBytes limits) fs in
      if negb ok then (None, fs)
      else match recover_records names q [] fs with
      | (None, fs) => (None, fs)
      | (Some (q, acknowledged), fs) =>
          if (id_MaxRecords limits <? Z.of_nat (length (q_files q))) ||
             (id_MaxBytes limits <? q_bytes q + reservedBytes)
          then (None, fs)
          else
            let '(ok, fs) := remove_all acknowledged fs in
            if negb ok then (None, fs)
            else if (0 <? Z.of_nat (length acknowledged)) then
              let '(ok, fs) := sync_dir fs in (if ok then Some q else None, fs)
            else (Some q, fs)
      end
  end.

(** *** Opening *)

(** The checks of [open] on the identity.  [Recipient] has the type [\[32\]byte]:
    its length is part of the model's check. *)
Definition valid_identity (id : identity) : bool :=
  let global := id_AuditOrigin id != no_origin in
  negb (negb global && negb (ValidateBinding (id_Binding id)) ||
        global && (negb (ValidateAuditBinding (id_AuditOrigin id)) || (id_Binding id != zero_binding)) ||
        (slen (id_Source id) != 32) || (slen (id_Confirmation id) != 32) || (slen (id_Recipient id) != 32) ||
        (id_Recipient id == zero_bytes 32) ||
        (id_MaxRecords id <? 1) || (4096 <? id_MaxRecords id) ||
        (id_MaxBytes id <? MaxGatewayPendingSize + reservedBytes) || (64 * 2 ^ 20 <? id_MaxBytes id)).

Definition new_queue (id : identity) (key : string) (create : bool) : Queue :=
  mkQueue id key [] 0 0 zero_hash zero_receipt false (negb create) false false false.

(** [root.OpenFile("lock", O_CREATE, ...)]. *)
Definition open_lock (fs : Fs) : option File * Fs :=
  let '(bad, fs) := call fs in
  if bad then (None, fs)
  else match fs_seen fs !! "lock" with
       | Some f => (Some f, fs)
       | None => (Some (own_file ""), update_dir <["lock" := own_file ""]> fs)
       end.

(** On an error the files opened so far are closed, which leaves the directory
    as it is. *)
Definition open (env : Environment) (path : string) (id : identity) (key : string) (create : bool) (fs : Fs) :
    option Queue * Fs :=
  if negb (valid_identity id) || negb (IsAbs path) || (Clean path != path) then (None, fs)
  else if (en_symlinks env path != Some path) || negb (en_dir env) then (None, fs)
  else
    let q := new_queue id key create in
    match open_lock fs with
    | (None, fs) => (None, fs)
    | (Some lock, fs) =>
        if negb (private lock) || negb (en_flock env) || (slen (fi_data lock) != 0) then (None, fs)
        else
          let '(bad, fs) := call fs in
          let names := (map_to_list (fs_seen fs)).*1 in
          if bad || (id_MaxRecords id + 3 <? Z.of_nat (length names)) then (None, fs)
          else
            let meta := MarshalIdentity id in
            if create then
              if names != ["lock"] then (None, fs)
              else let '(ok, fs) := atomic "identity" meta fs in (if ok then Some q else None, fs)
            else
              let '(stored, fs) := read "identity" 4096 fs in
              if stored != Some meta then (None, fs) else recover names q fs
    end.

Definition createQueue (env : Environment) (path : string) (id : identity) (source : string) (fs : Fs) :
    option Queue * Fs :=
  if slen source != 64 then (None, fs)
  else if NewKeyFromSeed (take_bytes 32 source) != source then (None, fs)
  else
    let id := mkIdentity (id_Binding id) (Public source) (id_Recipient id) (id_Confirmation id) (id_MaxBytes id)
      (id_MaxRecords id) (id_AuditOrigin id) in
    open env path id source true fs.

Definition Create (env : Environment) (path : string) (binding : GatewayAuthorizationBinding)
    (recipient source confirmation : string) (maxBytes maxRecords : Z) (fs : Fs) : option Queue * Fs :=
  createQueue env path (mkIdentity binding "" recipient confirmation maxBytes maxRecords no_origin) source fs.

Definition CreateGlobalAudit (env : Environment) (path : string) (origin : GatewayAuditBinding)
    (recipient source confirmation : string) (maxBytes maxRecords : Z) (fs : Fs) : option Queue * Fs :=
  createQueue env path (mkIdentity zero_binding "" recipient confirmation maxBytes maxRecords origin) source fs.

Definition Recover (env : Environment) (path : string) (binding : GatewayAuthorizationBinding)
    (recipient source confirmation : string) (maxBytes maxRecords : Z) (fs : Fs) : option Queue * Fs :=
  open env path (mkIdentity binding source recipient confirmation maxBytes maxRecords no_origin) "" false fs.

Definition RecoverGlobalAudit (env : Environment) (path : string) (origin : GatewayAuditBinding)
    (recipient source confirmation : string) (maxBytes maxRecords : Z) (fs : Fs) : option Queue * Fs :=
  open env path (mkIdentity zero_binding source recipient confirmation maxBytes maxRecords origin) "" false fs.

(** *** Producing *)

(** [append]; the value is the record stored, [None] for an error.  [fresh] is
    the result of [uuid.NewV7], [rand] the random bytes of the seal. *)
Definition append (fresh : option uuid) (rand : string) (r : GatewayPendingRecord) (q : Queue) (fs : Fs) :
    option string * Queue * Fs :=
  let id := q_identity q in
  let h := pr_Header r in
  if q_closed q || q_failed q || (id_MaxRecords id <=? Z.of_nat (length (q_files q))) then (None, q, fs)
  else if (ph_Binding h != zero_binding) && (ph_Binding h != id_Binding id) then (None, q, fs)
  else if (ph_AuditOrigin h != no_origin) && (ph_AuditOrigin h != id_AuditOrigin id) then (None, q, fs)
  else match fresh with
  | None => (None, q, fs)
  | Some recordID =>
      let sequence := q_sequence q + 1 in
      let r := mkPending (mkHeader (id_Binding id) recordID sequence (q_hash q) (ph_AuthorizationRevision h)
          (ph_CreatedAt h) (id_AuditOrigin id)) (pr_Kind r) (pr_Event r) (pr_ExpectedSecretRevision r) (pr_Config r) in
      match SealGatewayPending rand r (id_Recipient id) (q_key q) with
      | None => (None, q, fs)
      | Some wire =>
          if id_MaxBytes id <? q_bytes q + slen wire + reservedBytes then (None, q, fs)
          else
            let name := recordName sequence in
            let '(ok, fs) := atomic name wire fs in
            if negb ok then (None, set_failed q, fs)
            else (Some wire,
                  set_position (q_files q ++ [name]) (q_bytes q + slen wire) sequence (GatewayPendingHash wire) q, fs)
      end
  end.

Definition is_cleanup (r : GatewayPendingRecord) : bool :=
  match pr_Event r with Some e => ge_Action e == "runtime_cleanup" | None => false end.

Definition Append (fresh : option uuid) (rand : string) (r : GatewayPendingRecord) (q : Queue) (fs : Fs) :
    option string * Queue * Fs :=
  if q_frozen q || is_cleanup r then (None, q, fs) else append fresh rand r q fs.

(** [now] is [time.Now().UTC().Unix()]. *)
Definition Finish (fresh : option uuid) (rand : string) (now authorizationRevision : Z) (q : Queue) (fs : Fs) :
    option string * Queue * Fs :=
  if negb (q_frozen q) || negb (q_producerClaimed q) || q_finished q || (slen (q_key q) != PrivateKeySize)
  then (None, q, fs)
  else
    let kind := if id_AuditOrigin (q_identity q) != no_origin then "global_audit" else "audit" in
    append fresh rand
      (mkPending (mkHeader zero_binding 0 0 "" authorizationRevision now no_origin) kind
        (Some (mkGatewayEvent no_binding false "runtime_cleanup" "joined")) 0 None) (set_finished q) fs.

Definition checkProducer (binding : GatewayAuthorizationBinding) (source confirmation : string) (q : Queue) : bool :=
  let id := q_identity q in
  negb (q_closed q || q_failed q || q_frozen q || (slen (q_key q) != PrivateKeySize) ||
        (id_Binding id != binding) || (id_Source id != source) || (id_Confirmation id != confirmation) ||
        (id_MaxRecords id <=? Z.of_nat (length (q_files q))) ||
        (id_MaxBytes id <? q_bytes q + reservedBytes + MaxGatewayPendingSize)).

Definition CheckProducer (binding : GatewayAuthorizationBinding) (source confirmation : string) (q : Queue) : bool :=
  if id_AuditOrigin (q_identity q) != no_origin then false else checkProducer binding source confirmation q.

Definition ClaimProducer (binding : GatewayAuthorizationBinding) (source confirmation : string) (q : Queue) :
    bool * Queue :=
  if (id_AuditOrigin (q_identity q) != no_origin) || q_producerClaimed q || (q_sequence q != 0) ||
     negb (checkProducer binding source confirmation q)
  then (false, q) else (true, set_claimed q).

Definition CheckGlobalAuditProducer (origin : GatewayAuditBinding) (source confirmation : string) (q : Queue) : bool :=
  if negb (ValidateAuditBinding origin) || (id_AuditOrigin (q_identity q) != origin) then false
  else checkProducer zero_binding source confirmation q.

Definition ClaimGlobalAuditProducer (origin : GatewayAuditBinding) (source confirmation : string) (q : Queue) :
    bool * Queue :=
  if negb (ValidateAuditBinding origin) || (id_AuditOrigin (q_identity q) != origin) || q_producerClaimed q ||
     (q_sequence q != 0) || negb (checkProducer zero_binding source confirmation q)
  then (false, q) else (true, set_claimed q).

(** *** Replaying *)

(** [Ok None] when nothing is pending. *)
Definition Next (q : Queue) (fs : Fs) : result unit (option string) * Queue * Fs :=
  if q_closed q || q_failed q then (Err (), q, fs)
  else match q_files q with
  | [] => (Ok None, q, fs)
  | name :: _ =>
      let '(wire, fs) := read name MaxGatewayPendingSize fs in
      let good := match wire with
        | Some wire =>
            match inspect q wire with
            | Some h => (ph_Sequence h == rc_Sequence (q_receipt q) + 1) && (ph_PreviousHash h == receiptHash (q_receipt q))
            | None => false
            end
        | None => false
        end in
      if good then (Ok wire, q, fs) else (Err (), set_failed q, fs)
  end.

Definition Acknowledge (wire : string) (q : Queue) (fs : Fs) : bool * Queue * Fs :=
  if q_closed q || q_failed q then (false, q, fs)
  else match VerifyGatewayPendingReceipt wire (id_Confirmation (q_identity q)) with
  | None => (false, q, fs)
  | Some r =>
      if negb (matchesReceipt q r) then (false, q, fs)
      else if r == q_receipt q then (true, q, fs)
      else match q_files q with
      | [] => (false, q, fs)
      | name :: rest =>
          if rc_Sequence r != rc_Sequence (q_receipt q) + 1 then (false, q, fs)
          else
            let '(raw, fs) := read name MaxGatewayPendingSize fs in
            match raw with
            | None => (false, q, fs)
            | Some raw =>
                match inspect q raw with
                | None => (false, q, fs)
                | Some h =>
                    if (ph_RecordID h != rc_RecordID r) || (ph_Sequence h != rc_Sequence r) ||
                       (GatewayPendingHash raw != rc_WireHash r)
                    then (false, q, fs)
                    else
                      let '(ok, fs) := atomic "receipt" wire fs in
                      if negb ok then (false, set_failed q, fs)
                      else
                        let '(ok, fs) := Remove name fs in
                        if negb ok then (false, set_failed q, fs)
                        else
                          let '(ok, fs) := sync_dir fs in
                          if negb ok then (false, set_failed q, fs)
                          else (true, set_position rest (q_bytes q - slen raw) (q_sequence q) (q_hash q)
                                        (set_receipt r q), fs)
                end
            end
      end
  end.

Definition Tail (q : Queue) : option (Z * string) :=
  if q_closed q || q_failed q || negb (q_frozen q) || negb (bool_decide (q_files q = [])) then None
  else Some (q_sequence q, q_hash q).
End Queue.

(** ** Record names *)

Lemma compare_app a b c d :
  String.length a = String.length b →
  String.compare (a +:+ c) (b +:+ d) = match String.compare a b with Eq => String.compare c d | r => r end.
Proof.
  revert b. induction a as [|x a IH]; intros [|y b] Hl; try done.
  change (match Ascii.compare x y with Eq => String.compare (a +:+ c) (b +:+ d) | r => r end =
    match (match Ascii.compare x y with Eq => String.compare a b | r => r end) with Eq => String.compare c d | r => r end).
  rewrite IH by (cbn in Hl; lia). by destruct (Ascii.compare x y).
Qed.

Lemma decimal_length k z : String.length (decimal k z) = k.
Proof.
  revert z. induction k as [|k IH]; intros z; [done|]. cbn [decimal].
  pose proof (slen_app (decimal k (z / 10)) (String (ascii_of_N (48 + Z.to_N (z mod 10))) "")) as H.
  unfold slen in H. rewrite IH in H. cbn [String.length] in H. lia.
Qed.

Lemma digit_byte x : 0 ≤ x < 10 → N_of_ascii (ascii_of_N (48 + Z.to_N x)) = (48 + Z.to_N x)%N.
Proof. intros. apply N_ascii_embedding. lia. Qed.

Lemma decimal_compare k x y :
  0 ≤ x < 10 ^ Z.of_nat k → 0 ≤ y < 10 ^ Z.of_nat k → String.compare (decimal k x) (decimal k y) = Z.compare x y.
Proof.
  revert x y. induction k as [|k IH]; intros x y Hx Hy.
  - cbn in Hx, Hy. replace x with 0 by lia. by replace y with 0 by lia.
  - replace (Z.of_nat (S k)) with (Z.of_nat k + 1) in Hx, Hy by lia. rewrite Z.pow_add_r in Hx, Hy by lia.
    cbn [decimal]. rewrite compare_app by (by rewrite !decimal_length).
    rewrite IH by (split; [apply Z.div_pos; lia|apply Z.div_lt_upper_bound; lia]).
    pose proof (Z.mod_pos_bound x 10 ltac:(lia)). pose proof (Z.mod_pos_bound y 10 ltac:(lia)).
    pose proof (Z.div_mod x 10 ltac:(lia)). pose proof (Z.div_mod y 10 ltac:(lia)).
    destruct (Z.compare_spec (x / 10) (y / 10)) as [Heq|Hlt|Hgt].
    + cbn [String.compare]. unfold Ascii.compare. rewrite !digit_byte by lia.
      destruct (N.compare_spec (48 + Z.to_N (x mod 10)) (48 + Z.to_N (y mod 10))); symmetry;
        [apply Z.compare_eq_iff|apply Z.compare_lt_iff|apply Z.compare_gt_iff]; lia.
    + symmetry. apply Z.compare_lt_iff. lia.
    + symmetry. apply Z.compare_gt_iff. lia.
Qed.

Lemma digits_from_app a b acc :
  digits_from acc (a +:+ b) = match digits_from acc a with Some v => digits_from v b | None => None end.
Proof.
  revert acc. induction a as [|c a IH]; intros acc; [done|].
  change (match digit c with Some d => digits_from (acc * 10 + d) (a +:+ b) | None => None end =
    match (match digit c with Some d => digits_from (acc * 10 + d) a | None => None end) with
    | Some v => digits_from v b | None => None end).
  destruct (digit c); [apply IH|done].
Qed.

Lemma digits_decimal k z acc :
  0 ≤ z < 10 ^ Z.of_nat k → digits_from acc (decimal k z) = Some (acc * 10 ^ Z.of_nat k + z).
Proof.
  revert z acc. induction k as [|k IH]; intros z acc Hz; [cbn in *; f_equal; lia|].
  replace (Z.of_nat (S k)) with (Z.of_nat k + 1) in * by lia. rewrite Z.pow_add_r in * by lia.
  cbn [decimal]. rewrite digits_from_app, IH by (split; [apply Z.div_pos; lia|apply Z.div_lt_upper_bound; lia]).
  pose proof (Z.mod_pos_bound z 10 ltac:(lia)). pose proof (Z.div_mod z 10 ltac:(lia)).
  cbn [digits_from]. unfold digit, byte_of. rewrite digit_byte by lia.
  rewrite (proj2 (Z.leb_le _ _)), (proj2 (Z.leb_le _ _)) by lia. cbn [andb]. f_equal. lia.
Qed.

Lemma Atoi_digits c t z :
  digits_from 0 (String c t) = Some z → min_int64 ≤ z ≤ max_int64 → Atoi (String c t) = Some z.
Proof.
  intros Hd Hz. assert (Hc : digit c ≠ None) by (intros Hn; cbn in Hd; by rewrite Hn in Hd).
  assert (Heq : Atoi (String c t) =
    match digits_from 0 (String c t) with
    | None => None
    | Some n => if (min_int64 <=? n) && (n <=? max_int64) then Some n else None
    end).
  { unfold Atoi. destruct c as [[] [] [] [] [] [] [] []]; try (by destruct Hc); reflexivity. }
  rewrite Heq, Hd. by rewrite (proj2 (Z.leb_le _ _)), (proj2 (Z.leb_le _ _)) by lia.
Qed.

Lemma recordName_pos i : 0 ≤ i → recordName i = decimal 20 i +:+ ".record".
Proof. intros. unfold recordName. by rewrite (proj2 (Z.ltb_ge _ _)). Qed.

Lemma slen_recordName i : 0 ≤ i → slen (recordName i) = 27.
Proof. intros. rewrite recordName_pos, slen_app by done. unfold slen. by rewrite decimal_length. Qed.

Lemma parse_recordName i :
  0 ≤ i ≤ max_int64 →
  HasSuffix (recordName i) ".record" = true ∧ Atoi (TrimSuffix (recordName i) ".record") = Some i.
Proof.
  intros Hi. rewrite recordName_pos by lia. split; [apply HasSuffix_app|]. unfold TrimSuffix.
  rewrite HasSuffix_app, slen_app. replace (slen (decimal 20 i) + slen ".record" - slen ".record") with (slen (decimal 20 i)) by lia.
  rewrite take_bytes_app. pose proof (decimal_length 20 i) as Hl. pose proof (digits_decimal 20 i 0) as Hd.
  destruct (decimal 20 i) as [|c t]; [done|]. apply Atoi_digits.
  - rewrite Hd; [f_equal; lia|]. unfold max_int64 in Hi. split; [lia|]. apply Z.le_lt_trans with (2 ^ 63 - 1); [lia|]. reflexivity.
  - unfold min_int64, max_int64 in *. lia.
Qed.

Lemma recordName_inj i j : 0 ≤ i ≤ max_int64 → 0 ≤ j ≤ max_int64 → recordName i = recordName j → i = j.
Proof.
  intros Hi Hj Heq. destruct (parse_recordName i Hi) as [_ H1], (parse_recordName j Hj) as [_ H2]. congruence.
Qed.

Lemma recordName_less i j : 0 ≤ i → i < j ≤ max_int64 → string_less (recordName i) (recordName j) = true.
Proof.
  intros Hi Hj. rewrite !recordName_pos by lia. unfold string_less, String.ltb. rewrite compare_app by (by rewrite !decimal_length).
  assert (max_int64 < 10 ^ Z.of_nat 20) by reflexivity.
  rewrite decimal_compare by lia. by rewrite (proj2 (Z.compare_lt_iff _ _)) by lia.
Qed.
