(* ===== verification/PendingTrace.v ===== *)
(** * PendingTrace: histories of a pending queue

    Every interleaving of the operations of the queue with failing system
    calls, process exits, crashes and recoveries.  [sy_accepted] lists the
    records whose append returned nil, in order. *)

From S2P Require Import Prelude GoStd Uuid Platform GatewayAuth GatewaySession AuditChain PendingRecord PendingQueue.
Open Scope Z_scope.
Open Scope go_scope.

Record Sys := mkSys { sy_fs : Fs; sy_queue : option Queue; sy_accepted : list string }.

Definition versions (fs : Fs) : list Dir := fs_old fs ++ [fs_seen fs].
Definition with_faults (faults : list bool) (fs : Fs) : Fs := mkFs (fs_old fs) (fs_seen fs) faults.

(** A crash keeps one version of the directory; of the contents of the
    temporary file, a prefix. *)
Definition shorten (n : Z) (f : File) : File := mkFile (take_bytes n (fi_data f)) (fi_regular f) (fi_private f).
Definition crash (version : nat) (n : Z) (fs : Fs) : Fs :=
  mkFs [] (alter (shorten n) tmp_name (default (fs_seen fs) (versions fs !! version))) [].

Inductive qevent :=
| QAppend (fresh : option uuid) (rand : string) (r : GatewayPendingRecord)
| QFinish (fresh : option uuid) (rand : string) (now revision : Z)
| QClaim (binding : GatewayAuthorizationBinding) (source confirmation : string)
| QClaimGlobal (origin : GatewayAuditBinding) (source confirmation : string)
| QFreeze
| QNext
| QAcknowledge (wire : string)
| QClose
| QExit
| QCrash (version : nat) (n : Z)
| QCreate (env : Environment) (path : string) (id : identity) (source : string)
| QRecover (env : Environment) (path : string) (id : identity).

Section Steps.
Context `{U : UuidPkg} `{P : Platform} `{E : Ed25519} `{C : PendingCodec} `{I : QueueCodec}.

Definition on_queue (f : Queue → Fs → option string * Queue * Fs) (s : Sys) : Sys :=
  match sy_queue s with
  | None => s
  | Some q =>
      let '(out, q, fs) := f q (sy_fs s) in
      mkSys fs (Some q) (sy_accepted s ++ match out with Some wire => [wire] | None => [] end)
  end.

(** The lock is free when no queue is open. *)
Definition lock_free (s : Sys) : bool := match sy_queue s with Some q => q_closed q | None => true end.

Definition opened (x : option Queue * Fs) (s : Sys) : Sys :=
  mkSys x.2 (match x.1 with Some q => Some q | None => sy_queue s end) (sy_accepted s).

Definition owner_env (env : Environment) (s : Sys) : Environment :=
  mkEnv (en_symlinks env) (en_dir env) (en_flock env && lock_free s).

Definition qstep (faults : list bool) (e : qevent) (s : Sys) : Sys :=
  let fs := with_faults faults (sy_fs s) in
  let s := mkSys fs (sy_queue s) (sy_accepted s) in
  match e with
  | QAppend fresh rand r => on_queue (Append fresh rand r) s
  | QFinish fresh rand now revision => on_queue (Finish fresh rand now revision) s
  | QClaim b src conf => on_queue (λ q fs, (None, (ClaimProducer b src conf q).2, fs)) s
  | QClaimGlobal o src conf => on_queue (λ q fs, (None, (ClaimGlobalAuditProducer o src conf q).2, fs)) s
  | QFreeze => on_queue (λ q fs, (None, Freeze q, fs)) s
  | QNext => on_queue (λ q fs, let '(_, q, fs) := Next q fs in (None, q, fs)) s
  | QAcknowledge wire => on_queue (λ q fs, let '(_, q, fs) := Acknowledge wire q fs in (None, q, fs)) s
  | QClose => on_queue (λ q fs, (None, Close q, fs)) s
  | QExit => mkSys fs None (sy_accepted s)
  | QCrash version n => mkSys (crash version n fs) None (sy_accepted s)
  | QCreate env path id source => opened (createQueue (owner_env env s) path id source fs) s
  | QRecover env path id => opened (open (owner_env env s) path id "" false fs) s
  end.

Definition run_queue (es : list (list bool * qevent)) (s : Sys) : Sys := foldl (λ s x, qstep x.1 x.2 s) s es.
End Steps.

Class QueueCodecLaws `{U : UuidPkg} `{I : QueueCodec} : Prop := {
  MarshalIdentity_inj : ∀ a b, valid_identity a = true → valid_identity b = true →
    MarshalIdentity a = MarshalIdentity b → a = b;
  MarshalIdentity_size : ∀ a, valid_identity a = true → slen (MarshalIdentity a) ≤ 4096 }.

(** ** Sums and filters *)

Definition zsum (l : list Z) : Z := foldr Z.add 0 l.

Lemma zsum_cons x l : zsum (x :: l) = x + zsum l.
Proof. done. Qed.

Lemma zsum_app l k : zsum (l ++ k) = zsum l + zsum k.
Proof. unfold zsum. induction l as [|x l IH]; [done|]. cbn [app foldr]. rewrite IH. lia. Qed.

Lemma zsum_perm l k : l ≡ₚ k → zsum l = zsum k.
Proof. unfold zsum. induction 1; cbn [foldr]; lia. Qed.

Lemma filter_mono {A} (f : A → Z) (Q R : A → Prop) `{!∀ x, Decision (Q x), !∀ x, Decision (R x)} l :
  (∀ x, x ∈ l → Q x → R x) → (∀ x, 0 ≤ f x) →
  (length (filter Q l) ≤ length (filter R l))%nat ∧ zsum (f <$> filter Q l) ≤ zsum (f <$> filter R l).
Proof.
  intros HQR Hf. induction l as [|x l IH]; [done|]. rewrite !filter_cons.
  destruct IH as [H1 H2]; [intros y Hy; apply HQR; by right|]. pose proof (Hf x).
  destruct (decide (Q x)) as [HQ|HQ].
  - rewrite decide_True by (apply HQR; [left|done]). cbn. unfold zsum in *. cbn. lia.
  - case_decide; cbn; unfold zsum in *; cbn; lia.
Qed.

Lemma filter_none {A} (Q : A → Prop) `{!∀ x, Decision (Q x)} (l : list A) : (∀ x, x ∈ l → ¬ Q x) → filter Q l = [].
Proof.
  intros HQ. induction l as [|x l IH]; [done|]. rewrite filter_cons_False by (apply HQ; left).
  apply IH. intros y Hy. apply HQ. by right.
Qed.

Lemma filter_all {A} (Q : A → Prop) `{!∀ x, Decision (Q x)} (l : list A) : (∀ x, x ∈ l → Q x) → filter Q l = l.
Proof.
  intros HQ. induction l as [|x l IH]; [done|]. rewrite filter_cons_True by (apply HQ; left). f_equal.
  apply IH. intros y Hy. apply HQ. by right.
Qed.

(** ** What a directory holds *)

Definition name_of (i : nat) : string := recordName (Z.of_nat i + 1).

Lemma name_of_special i : name_of i ∉ ["identity"; "lock"; tmp_name; "receipt"].
Proof.
  intros Hin. assert (Hl : slen (name_of i) = 27) by (apply slen_recordName; lia).
  repeat (apply elem_of_cons in Hin as [Hin|Hin]; [by rewrite Hin in Hl|]). by apply elem_of_nil in Hin.
Qed.

Lemma name_of_ne i x : x ∈ ["identity"; "lock"; tmp_name; "receipt"] → name_of i ≠ x.
Proof. intros Hx <-. by apply (name_of_special i). Qed.

Lemma name_of_inj i j : Z.of_nat i < max_int64 → Z.of_nat j < max_int64 → name_of i = name_of j → i = j.
Proof. intros Hi Hj Heq%recordName_inj; lia. Qed.

(** ** System calls *)

(** Calls that only look. *)
Definition same_dirs (fs fs' : Fs) : Prop :=
  fs_old fs' = fs_old fs ∧ fs_seen fs' = fs_seen fs ∧ (fs_faults fs = [] → fs_faults fs' = []).

Lemma same_versions fs fs' : same_dirs fs fs' → versions fs' = versions fs.
Proof. unfold versions. by intros (-> & -> & _). Qed.

Lemma same_trans fs fs' fs'' : same_dirs fs fs' → same_dirs fs' fs'' → same_dirs fs fs''.
Proof. unfold same_dirs. intros (-> & -> & ?) (-> & -> & ?). auto. Qed.

Lemma call_same fs b fs' : call fs = (b, fs') → same_dirs fs fs' ∧ (fs_faults fs = [] → b = false).
Proof. unfold call, same_dirs. destruct (fs_faults fs) as [|x l] eqn:Hf; intros [= <- <-]; cbn; rewrite ?Hf; split_and!; done. Qed.

Lemma read_same name max fs x fs' : read name max fs = (x, fs') → same_dirs fs fs'.
Proof.
  unfold read. destruct (call fs) as [bad fs1] eqn:Hc. apply call_same in Hc as [Hs _].
  destruct bad; [by intros [= _ <-]|]. destruct (_ !! name); by intros [= _ <-].
Qed.

Lemma read_file name max fs data fs' :
  read name max fs = (Some data, fs') → ∃ f, fs_seen fs !! name = Some f ∧ fi_data f = data ∧ private f = true ∧ slen data ≤ max.
Proof.
  unfold read. destruct (call fs) as [bad fs1] eqn:Hc. apply call_same in Hc as [(_ & Hs & _) _].
  destruct bad; [done|]. rewrite Hs. destruct (fs_seen fs !! name) as [f|]; [|done].
  destruct (negb (private f) || _) eqn:Hg; intros [= <- _]. bool_prop. eauto.
Qed.

Lemma read_own name max fs data :
  fs_faults fs = [] → fs_seen fs !! name = Some (own_file data) → slen data ≤ max → read name max fs = (Some data, fs).
Proof.
  intros Hf Hd Hm. unfold read, call. rewrite Hf, Hd. cbn. by rewrite (proj2 (Z.ltb_ge _ _)).
Qed.

Lemma Lstat_same name fs x fs' :
  Lstat name fs = (x, fs') → same_dirs fs fs' ∧
  (x = LstatError ∨ x = match fs_seen fs !! name with Some f => Exists f | None => NotExist end) ∧
  (fs_faults fs = [] → x ≠ LstatError).
Proof.
  unfold Lstat. destruct (call fs) as [bad fs1] eqn:Hc. apply call_same in Hc as [Hs Hn]. pose proof Hs as (_ & E & _).
  destruct bad; intros [= <- <-]; (split; [done|]).
  - split; [by left|]. intros Hf. by apply Hn in Hf.
  - rewrite E. split; [by right|]. by destruct (_ !! name).
Qed.

Lemma update_versions f fs : versions (update_dir f fs) = versions fs ++ [f (fs_seen fs)].
Proof. unfold versions, update_dir. cbn. done. Qed.

Lemma sync_spec (Q : Dir → Prop) fs ok fs' :
  sync_dir fs = (ok, fs') → Forall Q (versions fs) →
  Forall Q (versions fs') ∧ fs_seen fs' = fs_seen fs ∧ (ok = true → fs_old fs' = []) ∧
  (fs_faults fs = [] → ok = true ∧ fs_faults fs' = []).
Proof.
  unfold sync_dir. destruct (call fs) as [bad fs1] eqn:Hc. apply call_same in Hc as [Hs Hn].
  pose proof Hs as (E1 & E2 & E3). intros Heq HQ. rewrite <- (same_versions _ _ Hs) in HQ. destruct bad; injection Heq as <- <-.
  - split_and!; [done..|]. intros Hf. by apply Hn in Hf.
  - unfold versions in *. cbn. apply Forall_app in HQ as [_ HQ]. split_and!; auto.
Qed.

(** The directories a write goes through, whether it succeeds or not. *)
Lemma atomic_spec (Q : Dir → Prop) name raw fs ok fs' :
  atomic name raw fs = (ok, fs') → Forall Q (versions fs) →
  (fs_seen fs !! tmp_name = None →
    Q (<[tmp_name := own_file ""]> (fs_seen fs)) ∧ Q (<[tmp_name := own_file raw]> (fs_seen fs)) ∧
    Q (<[name := own_file raw]> (delete tmp_name (fs_seen fs)))) →
  Forall Q (versions fs') ∧
  (ok = true → fs_seen fs !! tmp_name = None ∧ fs_old fs' = [] ∧
    fs_seen fs' = <[name := own_file raw]> (delete tmp_name (fs_seen fs))) ∧
  (fs_faults fs = [] → fs_seen fs !! tmp_name = None → ok = true ∧ fs_faults fs' = []).
Proof.
  intros Ha HQ Hnew. unfold atomic in Ha. destruct (call fs) as [b1 fs1] eqn:H1.
  apply call_same in H1 as [S1 N1]. pose proof S1 as (O1 & E1 & F1). rewrite <- (same_versions _ _ S1) in HQ.
  destruct (b1 || _) eqn:Hb1.
  { injection Ha as <- <-. split_and!; [done..|]. intros Hf Ht. rewrite N1, E1, Ht in Hb1 by done. done. }
  bool_prop. rewrite E1 in H0. rewrite <- eq_None_not_Some in H0. destruct (Hnew H0) as (Q1 & Q2 & Q3).
  clear Hnew. set (fs2 := update_dir _ fs1) in Ha.
  assert (V2 : Forall Q (versions fs2)) by (unfold fs2; rewrite update_versions, E1; apply Forall_app; auto).
  destruct (call fs2) as [b2 fs3] eqn:H2. apply call_same in H2 as [S3 N3]. pose proof S3 as (O3 & E3 & F3).
  rewrite <- (same_versions _ _ S3) in V2. destruct b2.
  { injection Ha as <- <-. split_and!; [done..|]. intros Hf _. discriminate (N3 (F1 Hf)). }
  set (fs4 := update_dir _ fs3) in Ha.
  assert (E4 : fs_seen fs4 = <[tmp_name := own_file raw]> (fs_seen fs)).
  { unfold fs4. cbn. rewrite E3. unfold fs2. cbn. rewrite E1. apply insert_insert_eq. }
  assert (V4 : Forall Q (versions fs4)).
  { unfold fs4 in *. rewrite update_versions. cbn in E4. rewrite E4. apply Forall_app; auto. }
  destruct (call fs4) as [b5 fs5] eqn:H5. apply call_same in H5 as [S5 N5].
  destruct (call fs5) as [b6 fs6] eqn:H6. apply call_same in H6 as [S6 N6].
  destruct (call fs6) as [b7 fs7] eqn:H7. apply call_same in H7 as [S7 N7].
  pose proof S5 as (O5 & E5 & F5). pose proof S6 as (O6 & E6 & F6). pose proof S7 as (O7 & E7 & F7).
  assert (Hff : fs_faults fs = [] → fs_faults fs4 = []) by (intros Hf; cbn; auto).
  destruct (b5 || b6) eqn:Hb.
  { injection Ha as <- <-. rewrite (same_versions _ _ S6), (same_versions _ _ S5). split_and!; [done..|].
    intros Hf _. rewrite N5, N6 in Hb by auto. done. }
  destruct b7.
  { injection Ha as <- <-. rewrite (same_versions _ _ S7), (same_versions _ _ S6), (same_versions _ _ S5).
    split_and!; [done..|]. intros Hf _. discriminate (N7 (F6 (F5 (Hff Hf)))). }
  assert (E7' : delete tmp_name (fs_seen fs7) = delete tmp_name (fs_seen fs)).
  { rewrite E7, E6, E5, E4. apply delete_insert_eq. }
  eapply (sync_spec Q) in Ha as (V8 & E8 & O8 & F8).
  - cbn in E8, F8. rewrite E7' in E8. split; [done|]. split; [auto|]. intros Hf _. exact (F8 (F7 (F6 (F5 (Hff Hf))))).
  - rewrite update_versions, (same_versions _ _ S7), (same_versions _ _ S6), (same_versions _ _ S5), E7'.
    apply Forall_app; auto.
Qed.

Lemma Remove_spec (Q : Dir → Prop) name fs ok fs' :
  Remove name fs = (ok, fs') → Forall Q (versions fs) → Q (delete name (fs_seen fs)) →
  Forall Q (versions fs') ∧ (ok = true → fs_seen fs' = delete name (fs_seen fs)) ∧
  (fs_faults fs = [] → is_Some (fs_seen fs !! name) → ok = true ∧ fs_faults fs' = []).
Proof.
  unfold Remove. destruct (call fs) as [bad fs1] eqn:Hc. apply call_same in Hc as [Hs Hn]. intros Heq HQ Hd.
  rewrite <- (same_versions _ _ Hs) in HQ. pose proof Hs as (E1 & E2 & E3).
  destruct (bad || _) eqn:Hb; injection Heq as <- <-.
  - split_and!; [done..|]. intros Hf [f Hsome]. rewrite Hn, E2, Hsome in Hb by done. done.
  - rewrite update_versions, E2. split_and!; [apply Forall_app; auto|cbn; by rewrite E2|]. intros Hf _. cbn. auto.
Qed.

Section Invariant.
Context `{U : UuidPkg} `{P : Platform} `{E : Ed25519} `{C : PendingCodec} `{I : QueueCodec}.
Context (id : identity).

Definition inspects (wire : string) : option GatewayPendingHeader := inspect (new_queue id "" false) wire.

Lemma inspect_id q wire : q_identity q = id → inspect q wire = inspects wire.
Proof. unfold inspects, inspect. by intros ->. Qed.

(** The hash the record at position [i] links to. *)
Definition link (chain : list string) (i : nat) : string :=
  match i with O => zero_hash | S j => GatewayPendingHash (default "" (chain !! j)) end.

(** All the records ever stored: record [i] carries sequence [i + 1]. *)
Definition chain_ok (chain : list string) : Prop :=
  ∀ i wire, chain !! i = Some wire →
    ∃ h, inspects wire = Some h ∧ ph_Sequence h = Z.of_nat i + 1 ∧ ph_PreviousHash h = link chain i.

Definition receipt_for (chain : list string) (acked : nat) (r : GatewayPendingReceipt) : Prop :=
  match acked with
  | O => r = zero_receipt
  | S j => matchesReceipt (new_queue id "" false) r = true ∧ rc_Sequence r = Z.of_nat acked ∧
      ∃ wire h, chain !! j = Some wire ∧ inspects wire = Some h ∧ rc_RecordID r = ph_RecordID h ∧
        rc_WireHash r = GatewayPendingHash wire
  end.

Definition receipt_file (acked : nat) (r : GatewayPendingReceipt) (d : Dir) : Prop :=
  match acked with
  | O => d !! "receipt" = None
  | S _ => ∃ raw, d !! "receipt" = Some (own_file raw) ∧
      VerifyGatewayPendingReceipt raw (id_Confirmation id) = Some r
  end.

Definition stored (chain : list string) (d : Dir) : list nat :=
  filter (λ i, is_Some (d !! name_of i)) (seq 0 (length chain)).
Definition size_at (chain : list string) (i : nat) : Z := slen (default "" (chain !! i)).
Definition stored_bytes (chain : list string) (d : Dir) : Z := zsum (size_at chain <$> stored chain d).

(** The directory holds the records after the receipt, perhaps some of those
    before it, and the receipt of record [acked]. *)
Record dir_ok (chain : list string) (acked : nat) (r : GatewayPendingReceipt) (d : Dir) : Prop := {
  do_chain : chain_ok chain;
  do_acked : (acked ≤ length chain)%nat;
  do_receipt : receipt_for chain acked r;
  do_identity : d !! "identity" = Some (own_file (MarshalIdentity id));
  do_lock : d !! "lock" = None ∨ d !! "lock" = Some (own_file "");
  do_file : receipt_file acked r d;
  do_live : ∀ i wire, (acked ≤ i)%nat → chain !! i = Some wire → d !! name_of i = Some (own_file wire);
  do_gone : ∀ i wire, (i < acked)%nat → chain !! i = Some wire →
    d !! name_of i = None ∨ d !! name_of i = Some (own_file wire);
  do_other : ∀ name f, d !! name = Some f →
    name ∈ ["identity"; "lock"; tmp_name; "receipt"] ∨ ∃ i, (i < length chain)%nat ∧ name = name_of i;
  do_records : Z.of_nat (length (stored chain d)) ≤ id_MaxRecords id;
  do_bytes : stored_bytes chain d + reservedBytes ≤ id_MaxBytes id;
  do_tmp : ∀ f, d !! tmp_name = Some f → stored_bytes chain d + slen (fi_data f) + 15 * 1024 ≤ id_MaxBytes id }.

(** *** The chain *)

Section ChainFacts.
Context `{HC : !PendingCodecLaws}.

Lemma inspects_valid wire h : inspects wire = Some h → ValidateHeader h = true ∧ slen wire ≤ MaxGatewayPendingSize.
Proof using HC.
  unfold inspects, inspect. destruct (InspectGatewayPending _ _) as [h'|] eqn:Hi; [|done].
  destruct (_ || _); [done|]. intros [= <-]. by eapply Inspect_valid.
Qed.

Lemma chain_length chain : chain_ok chain → Z.of_nat (length chain) < max_int64.
Proof using HC.
  intros Hc. destruct (Z.lt_ge_cases (Z.of_nat (length chain)) max_int64) as [|Hge]; [done|exfalso].
  assert (0 < max_int64) by reflexivity. set (i := Z.to_nat (max_int64 - 1)).
  destruct (lookup_lt_is_Some_2 chain i) as [wire Hw]; [unfold i; lia|].
  destruct (Hc i wire Hw) as (h & Hh & Hs & _). apply inspects_valid in Hh as [Hv _].
  unfold ValidateHeader in Hv. bool_prop. assert (ph_Sequence h ≠ max_int64) as Hne by done.
  apply Hne. rewrite Hs. unfold i. lia.
Qed.

Lemma link_app chain wire i : (i ≤ length chain)%nat → link (chain ++ [wire]) i = link chain i.
Proof. intros Hi. destruct i as [|j]; [done|]. cbn. by rewrite lookup_app_l by lia. Qed.

Lemma chain_snoc chain wire h :
  chain_ok chain → inspects wire = Some h → ph_Sequence h = Z.of_nat (length chain) + 1 →
  ph_PreviousHash h = link chain (length chain) → chain_ok (chain ++ [wire]).
Proof.
  intros Hc Hi Hs Hp i w Hw. apply lookup_snoc_Some in Hw as [[Hl Hw]|[-> ->]].
  - destruct (Hc i w Hw) as (h' & ? & ? & ?). exists h'. rewrite link_app by lia. done.
  - exists h. by rewrite link_app by lia.
Qed.
End ChainFacts.

Context `{HC : !PendingCodecLaws}.

Lemma name_of_chain chain i j :
  chain_ok chain → (i ≤ length chain)%nat → (j ≤ length chain)%nat → name_of i = name_of j → i = j.
Proof using HC. intros Hc%chain_length Hi Hj. apply name_of_inj; lia. Qed.

(** *** Updates of the directory *)

Lemma stored_same chain d d' :
  (∀ i, (i < length chain)%nat → d' !! name_of i = d !! name_of i) → stored chain d' = stored chain d.
Proof. intros H. apply filter_same. intros i [_ Hi]%elem_of_seq. by rewrite H by lia. Qed.

Ltac listed := clear; set_solver.
Ltac special := apply name_of_ne; listed.

(** Only the temporary file differs. *)
Lemma dir_ok_agree chain acked r d d' :
  dir_ok chain acked r d → (∀ name, name ≠ tmp_name → d' !! name = d !! name) →
  (∀ f, d' !! tmp_name = Some f → stored_bytes chain d + slen (fi_data f) + 15 * 1024 ≤ id_MaxBytes id) →
  dir_ok chain acked r d'.
Proof.
  intros Hd Ha Ht. assert (Hn : ∀ i, d' !! name_of i = d !! name_of i) by (intros i; apply Ha; special).
  assert (Hs : stored chain d' = stored chain d) by (apply stored_same; auto). destruct Hd. split; try done.
  - by rewrite Ha.
  - by rewrite Ha.
  - unfold receipt_file in *. destruct acked; by rewrite Ha.
  - intros. rewrite Hn. eauto.
  - intros. rewrite Hn. eauto.
  - intros name f Hf. destruct (decide (name = tmp_name)) as [->|]; [left; listed|].
    rewrite Ha in Hf by done. eauto.
  - by rewrite Hs.
  - unfold stored_bytes. by rewrite Hs.
  - intros f Hf. unfold stored_bytes. rewrite Hs. by apply Ht.
Qed.

Lemma lookup_replace d name f x :
  x ≠ tmp_name → (<[name := f]> (delete tmp_name d : Dir)) !! x = if decide (name = x) then Some f else d !! x.
Proof.
  intros Hx. case_decide; [subst; by rewrite lookup_insert_eq|].
  by rewrite lookup_insert_ne, lookup_delete_ne by done.
Qed.

Lemma stored_bytes_nonneg chain d : 0 ≤ stored_bytes chain d.
Proof.
  unfold stored_bytes, zsum. induction (stored chain d) as [|i l IH]; [done|]. cbn.
  pose proof (slen_nonneg (default "" (chain !! i))). unfold size_at at 1. lia.
Qed.

(** A new record is renamed into place. *)
Lemma dir_ok_append chain acked r d wire h :
  dir_ok chain acked r d → inspects wire = Some h → ph_Sequence h = Z.of_nat (length chain) + 1 →
  ph_PreviousHash h = link chain (length chain) →
  Z.of_nat (length (stored chain d)) + 1 ≤ id_MaxRecords id →
  stored_bytes chain d + slen wire + reservedBytes ≤ id_MaxBytes id →
  dir_ok (chain ++ [wire]) acked r (<[name_of (length chain) := own_file wire]> (delete tmp_name d)).
Proof using HC.
  intros Hd Hi Hs Hp Hrec Hbytes. set (n := length chain). set (d' := <[_ := _]> _).
  pose proof (do_chain _ _ _ _ Hd) as Hc. assert (Hc' : chain_ok (chain ++ [wire])) by (by eapply chain_snoc).
  assert (Hin : ∀ i, (i ≤ n)%nat → d' !! name_of i = if decide (i = n) then Some (own_file wire) else d !! name_of i).
  { intros i Hle. unfold d'. rewrite lookup_replace by special.
    destruct (decide (i = n)) as [->|Hne]; [by rewrite decide_True|]. rewrite decide_False; [done|].
    intros Heq. apply Hne. symmetry. by apply (name_of_chain chain). }
  assert (Hsp : ∀ x, x ∈ ["identity"; "lock"; tmp_name; "receipt"] → x ≠ tmp_name → d' !! x = d !! x).
  { intros x Hx Hne. unfold d'. rewrite lookup_replace by done. by rewrite decide_False by (by apply name_of_ne). }
  assert (Hst : stored (chain ++ [wire]) d' = stored chain d ++ [n]).
  { unfold stored. rewrite length_app, seq_app, filter_app. cbn [length]. fold n. f_equal.
    - apply filter_same. intros i [_ Hl]%elem_of_seq. rewrite Hin, decide_False by lia. done.
    - cbn [seq]. rewrite filter_cons_True; [done|]. rewrite Hin, decide_True by lia. eauto. }
  assert (Hsb : stored_bytes (chain ++ [wire]) d' = stored_bytes chain d + slen wire).
  { unfold stored_bytes. rewrite Hst, fmap_app, zsum_app. f_equal.
    - f_equal. apply list_fmap_ext. intros _ i Hl%list_elem_of_lookup_2. unfold stored in Hl.
      apply list_elem_of_filter in Hl as [_ [_ Hl]%elem_of_seq]. unfold size_at. by rewrite lookup_app_l by lia.
    - cbn. unfold size_at. rewrite list_lookup_middle by done. cbn. lia. }
  destruct Hd. split; try done.
  - rewrite length_app. lia.
  - unfold receipt_for in *. destruct acked as [|j]; [done|]. destruct do_receipt0 as (? & ? & w & h' & Hw & ?).
    split_and!; [done..|]. exists w, h'. split; [|done]. by apply lookup_app_l_Some.
  - by rewrite Hsp by listed.
  - by rewrite Hsp by listed.
  - unfold receipt_file in *. destruct acked; by rewrite Hsp by listed.
  - intros i w Hle Hw. apply lookup_snoc_Some in Hw as [[Hl Hw]|[-> ->]].
    + rewrite Hin, decide_False by lia. eauto.
    + by rewrite Hin, decide_True by lia.
  - intros i w Hlt Hw. rewrite Hin, decide_False by lia. rewrite lookup_app_l in Hw by lia. eauto.
  - intros name f Hf. destruct (decide (name = name_of n)) as [->|Hne].
    { right. exists n. rewrite length_app. cbn. split; [unfold n; lia|done]. }
    destruct (decide (name = tmp_name)) as [->|]; [left; listed|].
    unfold d' in Hf. rewrite lookup_replace, decide_False in Hf by done.
    destruct (do_other0 _ _ Hf) as [|(i & Hi' & ->)]; [by left|right]. exists i. rewrite length_app. split; [lia|done].
  - rewrite Hst, length_app. cbn. lia.
  - rewrite Hsb. lia.
  - intros f Hf. unfold d' in Hf. rewrite lookup_insert_ne, lookup_delete_eq in Hf by special. done.
Qed.

(** The receipt of the next record is renamed into place. *)
Lemma dir_ok_receipt chain acked r d raw r' :
  dir_ok chain acked r d → receipt_for chain (S acked) r' →
  VerifyGatewayPendingReceipt raw (id_Confirmation id) = Some r' →
  dir_ok chain (S acked) r' (<["receipt" := own_file raw]> (delete tmp_name d)).
Proof.
  intros Hd Hr Hv. set (d' := <[_ := _]> _).
  assert (Hn : ∀ i, d' !! name_of i = d !! name_of i).
  { intros i. unfold d'. rewrite lookup_replace by special. rewrite decide_False; [done|]. symmetry. special. }
  assert (Hs : stored chain d' = stored chain d) by (apply stored_same; auto).
  assert (Hl : (S acked ≤ length chain)%nat).
  { destruct Hr as (_ & _ & w & h & Hw & _). by apply lookup_lt_Some in Hw. }
  destruct Hd. split; try done.
  - unfold d'. by rewrite lookup_replace, decide_False.
  - unfold d'. by rewrite lookup_replace, decide_False.
  - unfold receipt_file. exists raw. split; [|done]. unfold d'. by rewrite lookup_insert_eq.
  - intros i w Hi Hw. rewrite Hn. apply do_live0; [lia|done].
  - intros i w Hi Hw. rewrite Hn. destruct (decide (i = acked)) as [->|]; [right; by apply do_live0|].
    apply do_gone0; [lia|done].
  - intros name f Hf. destruct (decide (name = tmp_name)) as [->|]; [left; listed|].
    destruct (decide ("receipt" = name)) as [<-|]; [left; listed|].
    unfold d' in Hf. rewrite lookup_replace, decide_False in Hf by done. eauto.
  - by rewrite Hs.
  - unfold stored_bytes. by rewrite Hs.
  - intros f Hf. unfold d' in Hf. by rewrite lookup_insert_ne, lookup_delete_eq in Hf by done.
Qed.

(** An acknowledged record is removed. *)
Lemma dir_ok_remove chain acked r d i :
  dir_ok chain acked r d → (i < acked)%nat → dir_ok chain acked r (delete (name_of i) d).
Proof using HC.
  intros Hd Hi. set (d' := delete _ _). pose proof (do_chain _ _ _ _ Hd) as Hc. pose proof (do_acked _ _ _ _ Hd) as Hle.
  assert (Hsp : ∀ x, x ∈ ["identity"; "lock"; tmp_name; "receipt"] → d' !! x = d !! x).
  { intros x Hx. unfold d'. apply lookup_delete_ne. by apply name_of_ne. }
  assert (Hn : ∀ j, (j < length chain)%nat → i ≠ j → d' !! name_of j = d !! name_of j).
  { intros j Hj Hne. unfold d'. apply lookup_delete_ne. contradict Hne. apply (name_of_chain chain); [done|lia..|done]. }
  assert (Hm : (length (stored chain d') ≤ length (stored chain d))%nat ∧ stored_bytes chain d' ≤ stored_bytes chain d).
  { apply filter_mono; [|intros; apply slen_nonneg]. intros j [_ Hj]%elem_of_seq [f Hf].
    destruct (decide (i = j)) as [->|Hne]; [unfold d' in Hf; by rewrite lookup_delete_eq in Hf|].
    rewrite Hn in Hf by (lia || done). eauto. }
  destruct Hm as [Hm1 Hm2]. destruct Hd. split; try done.
  - by rewrite Hsp by listed.
  - by rewrite Hsp by listed.
  - unfold receipt_file in *. destruct acked; by rewrite Hsp by listed.
  - intros j w Hj Hw. rewrite Hn; [eauto|by apply lookup_lt_Some in Hw|lia].
  - intros j w Hj Hw. destruct (decide (i = j)) as [->|]; [left; apply lookup_delete_eq|].
    rewrite Hn; [eauto|by apply lookup_lt_Some in Hw|done].
  - intros name f Hf. unfold d' in Hf. apply lookup_delete_Some in Hf as [_ Hf]. eauto.
  - lia.
  - lia.
  - intros f Hf. rewrite Hsp in Hf by listed. specialize (do_tmp0 f Hf). lia.
Qed.

Lemma dir_ok_lock chain acked r d : dir_ok chain acked r d → dir_ok chain acked r (<["lock" := own_file ""]> d).
Proof.
  intros Hd. set (d' := <[_ := _]> d).
  assert (Hn : ∀ i, d' !! name_of i = d !! name_of i).
  { intros i. apply lookup_insert_ne. symmetry. special. }
  assert (Hs : stored chain d' = stored chain d) by (apply stored_same; auto).
  assert (Ho : ∀ x, "lock" ≠ x → d' !! x = d !! x) by (intros; by apply lookup_insert_ne).
  destruct Hd. split; try done.
  - by rewrite Ho.
  - right. apply lookup_insert_eq.
  - unfold receipt_file in *. destruct acked; by rewrite Ho.
  - intros. rewrite Hn. eauto.
  - intros. rewrite Hn. eauto.
  - intros name f Hf. destruct (decide ("lock" = name)) as [<-|]; [left; listed|]. rewrite Ho in Hf by done. eauto.
  - by rewrite Hs.
  - unfold stored_bytes. by rewrite Hs.
  - intros f Hf. unfold stored_bytes. rewrite Hs. rewrite Ho in Hf by done. eauto.
Qed.

(** *** The open queue *)

Definition version_ok (accepted : list string) (d : Dir) : Prop :=
  ∃ chain acked r, accepted `prefix_of` chain ∧ dir_ok chain acked r d.

Definition live (chain : list string) (acked : nat) : list nat := seq acked (length chain - acked).

(** The fields of an open queue describe the directory exactly. *)
Record open_ok (accepted : list string) (q : Queue) (d : Dir) (chain : list string) (acked : nat) : Prop := {
  oo_id : q_identity q = id;
  oo_prefix : accepted `prefix_of` chain;
  oo_dir : dir_ok chain acked (q_receipt q) d;
  oo_tmp : d !! tmp_name = None;
  oo_clean : ∀ i, (i < acked)%nat → d !! name_of i = None;
  oo_files : q_files q = name_of <$> live chain acked;
  oo_bytes : q_bytes q = zsum (size_at chain <$> live chain acked);
  oo_sequence : q_sequence q = Z.of_nat (length chain);
  oo_hash : q_hash q = link chain (length chain);
  oo_key : slen (q_key q) = PrivateKeySize → Public (q_key q) = id_Source id ∧ chain = accepted }.

Lemma clean_stored chain acked r d :
  dir_ok chain acked r d → (∀ i, (i < acked)%nat → d !! name_of i = None) → stored chain d = live chain acked.
Proof.
  intros Hd Hc. pose proof (do_acked _ _ _ _ Hd) as Hle. unfold stored, live.
  replace (length chain) with (acked + (length chain - acked))%nat at 1 by lia.
  rewrite seq_app, filter_app. cbn [Nat.add].
  assert (H1 : filter (λ i, is_Some (d !! name_of i)) (seq 0 acked) = []).
  { apply filter_none. intros i Hi. apply elem_of_seq in Hi. rewrite Hc by lia. by intros [? ?]. }
  rewrite H1. cbn. apply filter_all. intros i [Hi1 Hi2]%elem_of_seq.
  destruct (lookup_lt_is_Some_2 chain i ltac:(lia)) as [w Hw]. rewrite (do_live _ _ _ _ Hd i w Hi1 Hw). eauto.
Qed.

Lemma open_version accepted q d chain acked : open_ok accepted q d chain acked → version_ok accepted d.
Proof. intros H. exists chain, acked, (q_receipt q). split; apply H. Qed.

Lemma live_snoc chain wire acked :
  (acked ≤ length chain)%nat → live (chain ++ [wire]) acked = live chain acked ++ [length chain].
Proof.
  intros Hle. unfold live. rewrite length_app. cbn [length].
  replace (length chain + 1 - acked)%nat with (length chain - acked + 1)%nat by lia. rewrite seq_app. cbn.
  by replace (acked + (length chain - acked))%nat with (length chain) by lia.
Qed.

Lemma live_cons chain acked wire :
  chain !! acked = Some wire → live chain acked = acked :: live chain (S acked).
Proof.
  intros Hl%lookup_lt_Some. unfold live. replace (length chain - acked)%nat with (S (length chain - S acked)) by lia.
  done.
Qed.

Lemma live_sizes chain wire acked :
  zsum (size_at (chain ++ [wire]) <$> live chain acked) = zsum (size_at chain <$> live chain acked).
Proof.
  f_equal. apply list_fmap_ext. intros _ i Hi%list_elem_of_lookup_2. apply elem_of_seq in Hi. unfold size_at.
  by rewrite lookup_app_l by lia.
Qed.

(** Temporary files of a write. *)
Lemma version_tmp accepted q d chain acked data :
  open_ok accepted q d chain acked → q_bytes q + slen data + 15 * 1024 ≤ id_MaxBytes id →
  version_ok accepted (<[tmp_name := own_file data]> d).
Proof.
  intros Ho Hb. exists chain, acked, (q_receipt q). split; [apply Ho|].
  apply (dir_ok_agree _ _ _ d); [apply Ho| |].
  - intros name Hne. by apply lookup_insert_ne.
  - intros f. rewrite lookup_insert_eq. intros [= <-]. cbn. unfold stored_bytes.
    rewrite (clean_stored _ _ _ _ (oo_dir _ _ _ _ _ Ho) (oo_clean _ _ _ _ _ Ho)), <- (oo_bytes _ _ _ _ _ Ho). lia.
Qed.

Context `{HE : !Ed25519Laws}.

Lemma sealed_inspects rand r q wire :
  SealGatewayPending rand r (id_Recipient id) (q_key q) = Some wire → Public (q_key q) = id_Source id →
  ph_Binding (pr_Header r) = id_Binding id → ph_AuditOrigin (pr_Header r) = id_AuditOrigin id →
  inspects wire = Some (pr_Header r).
Proof using HC HE.
  intros Hs Hk Hb Ho. destruct (Seal_verified _ _ _ _ _ Hs) as (sealed & _ & Hw & _).
  unfold inspects, inspect, InspectGatewayPending. cbn [q_identity new_queue]. rewrite <- Hk, Hw. cbn.
  by rewrite Hb, Ho, !bool_decide_eq_true_2.
Qed.

Lemma append_ok accepted q fs chain acked fresh rand r out q' fs' :
  open_ok accepted q (fs_seen fs) chain acked → Forall (version_ok accepted) (versions fs) →
  append fresh rand r q fs = (out, q', fs') →
  let accepted' := accepted ++ match out with Some wire => [wire] | None => [] end in
  Forall (version_ok accepted') (versions fs') ∧
  (q_failed q' = false → ∃ chain', open_ok accepted' q' (fs_seen fs') chain' acked).
Proof using HC HE.
  intros Ho Hv Ha. cbv zeta. unfold append in Ha.
  assert (Hsame : Forall (version_ok (accepted ++ [])) (versions fs) ∧
    (q_failed q = false → ∃ chain', open_ok (accepted ++ []) q (fs_seen fs) chain' acked)) by (rewrite app_nil_r; eauto).
  destruct (q_closed q || _ || _) eqn:Hfull; [by injection Ha as <- <- <-|].
  destruct (_ && _); [by injection Ha as <- <- <-|]. destruct (_ && _); [by injection Ha as <- <- <-|].
  destruct fresh as [rid|]; [|by injection Ha as <- <- <-]. rewrite (oo_id _ _ _ _ _ Ho) in *.
  set (h := mkHeader _ _ _ _ _ _ _) in Ha. set (r' := mkPending h _ _ _ _) in Ha.
  destruct (SealGatewayPending rand r' _ _) as [wire|] eqn:Hseal; [|by injection Ha as <- <- <-].
  destruct (_ <? _) eqn:Hb; [by injection Ha as <- <- <-|]. bool_prop. clear Hsame.
  destruct (Seal_inv _ _ _ _ _ Hseal) as (_ & _ & Hkl & _). destruct (oo_key _ _ _ _ _ Ho Hkl) as [Hpub ->].
  pose proof (oo_dir _ _ _ _ _ Ho) as Hd. pose proof (clean_stored _ _ _ _ Hd (oo_clean _ _ _ _ _ Ho)) as Hst.
  pose proof (do_acked _ _ _ _ Hd) as Hle. assert (Hlen : length (q_files q) = length (live accepted acked)) by (by rewrite (oo_files _ _ _ _ _ Ho), length_fmap).
  assert (Hi : inspects wire = Some h) by (by apply (sealed_inspects _ _ _ _ Hseal Hpub)).
  assert (Hname : recordName (q_sequence q + 1) = name_of (length accepted)) by (by rewrite (oo_sequence _ _ _ _ _ Ho)).
  rewrite Hname in Ha.
  assert (Hnew : dir_ok (accepted ++ [wire]) acked (q_receipt q)
      (<[name_of (length accepted) := own_file wire]> (delete tmp_name (fs_seen fs)))).
  { eapply dir_ok_append; [exact Hd|exact Hi|cbn; by rewrite (oo_sequence _ _ _ _ _ Ho)|apply (oo_hash _ _ _ _ _ Ho)| |].
    - rewrite Hst, <- Hlen. lia.
    - unfold stored_bytes. rewrite Hst, <- (oo_bytes _ _ _ _ _ Ho). lia. }
  destruct (atomic _ wire fs) as [ok fs1] eqn:Hat. unfold reservedBytes in *.
  apply (atomic_spec (version_ok accepted)) in Hat as (V1 & O1 & _); [|done|].
  2: { intros _. split_and!.
    - eapply version_tmp; [exact Ho|]. pose proof (slen_nonneg wire). unfold slen at 1. cbn. lia.
    - eapply version_tmp; [exact Ho|]. lia.
    - eexists _, _, _. split; [|exact Hnew]. by apply prefix_app_r. }
  destruct ok; cbn [negb] in Ha; injection Ha as <- <- <-.
  2: { rewrite app_nil_r. split; [done|]. discriminate. }
  destruct (O1 eq_refl) as (_ & Hold & Hseen).
  assert (Hopen : open_ok (accepted ++ [wire])
    (set_position (q_files q ++ [name_of (length accepted)]) (q_bytes q + slen wire) (q_sequence q + 1) (GatewayPendingHash wire) q)
    (fs_seen fs1) (accepted ++ [wire]) acked).
  { rewrite Hseen. pose proof Ho as Hopen. destruct Ho. split; cbn; try done.
    - rewrite lookup_insert_ne, lookup_delete_eq; [done|]. special.
    - intros i Hi'. rewrite lookup_replace by special. rewrite decide_False; [by apply oo_clean0|].
      intros Heq. apply (name_of_chain accepted) in Heq; [lia|apply Hd|lia|lia].
    - by rewrite live_snoc, fmap_app, oo_files0 by done.
    - rewrite live_snoc, fmap_app, zsum_app, live_sizes, oo_bytes0 by done. cbn. unfold size_at.
      rewrite list_lookup_middle by done. cbn. lia.
    - rewrite length_app, oo_sequence0. cbn. lia.
    - rewrite length_app. cbn. rewrite Nat.add_1_r. cbn. by rewrite list_lookup_middle. }
  split; [|eauto]. unfold versions. rewrite Hold. constructor; [|constructor]. by eapply open_version.
Qed.

Lemma Next_ok q fs out q' fs' :
  Next q fs = (out, q', fs') → same_dirs fs fs' ∧ (q' = q ∨ q_failed q' = true).
Proof.
  unfold Next. destruct (_ || _); [by intros [= _ <- <-]; split; [|left]|].
  destruct (q_files q) as [|name rest]; [by intros [= _ <- <-]; split; [|left]|].
  destruct (read _ _ fs) as [w fs1] eqn:Hr. apply read_same in Hr.
  match goal with |- context [if ?b then _ else _] => destruct b end; intros [= _ <- <-]; auto.
Qed.

Lemma receipt_sequence chain acked r : receipt_for chain acked r → rc_Sequence r = Z.of_nat acked.
Proof. destruct acked; [by intros ->|]. by intros (_ & -> & _). Qed.

Lemma live_nil chain acked : live chain acked = [] → (length chain ≤ acked)%nat.
Proof. unfold live. destruct (length chain - acked)%nat eqn:Hn; [lia|]. cbn. discriminate. Qed.

(** The head of the queue is the oldest unacknowledged record. *)
Lemma open_head accepted q d chain acked name rest :
  open_ok accepted q d chain acked → q_files q = name :: rest →
  ∃ wire h, chain !! acked = Some wire ∧ name = name_of acked ∧ rest = name_of <$> live chain (S acked) ∧
    d !! name = Some (own_file wire) ∧ inspects wire = Some h ∧ ph_Sequence h = Z.of_nat acked + 1 ∧
    ph_PreviousHash h = link chain acked.
Proof.
  intros Ho Hf. rewrite (oo_files _ _ _ _ _ Ho) in Hf.
  destruct (lookup_lt_is_Some_2 chain acked) as [wire Hw].
  { destruct (decide (length chain ≤ acked)%nat); [|lia]. unfold live in Hf.
    replace (length chain - acked)%nat with O in Hf by lia. discriminate Hf. }
  rewrite (live_cons _ _ _ Hw) in Hf. injection Hf as <- <-. pose proof (oo_dir _ _ _ _ _ Ho) as Hd.
  destruct (do_chain _ _ _ _ Hd acked wire Hw) as (h & Hh & Hs & Hp). exists wire, h. split_and!; try done.
  by apply (do_live _ _ _ _ Hd acked).
Qed.

(** The directory and the queue after the receipt [r] of the head is stored. *)
Lemma open_acknowledged accepted q d chain acked wire raw r :
  open_ok accepted q d chain acked → chain !! acked = Some wire → receipt_for chain (S acked) r →
  VerifyGatewayPendingReceipt raw (id_Confirmation id) = Some r →
  open_ok accepted
    (set_position (name_of <$> live chain (S acked)) (q_bytes q - slen wire) (q_sequence q) (q_hash q) (set_receipt r q))
    (delete (name_of acked) (<["receipt" := own_file raw]> (delete tmp_name d))) chain (S acked).
Proof using HC.
  intros Ho Hw Hr Hv. pose proof (dir_ok_receipt _ _ _ _ _ _ (oo_dir _ _ _ _ _ Ho) Hr Hv) as Hd1.
  pose proof (dir_ok_remove _ _ _ _ acked Hd1 ltac:(lia)) as Hd2. pose proof Ho as Hopen. destruct Ho. split; cbn; try done.
  - rewrite lookup_delete_ne by special. rewrite lookup_insert_ne, lookup_delete_eq by done. done.
  - intros i Hi. destruct (decide (i = acked)) as [->|Hne]; [apply lookup_delete_eq|].
    apply lookup_delete_None. right. rewrite lookup_replace by special.
    rewrite decide_False by (symmetry; special). apply oo_clean0. lia.
  - rewrite oo_bytes0, (live_cons _ _ _ Hw), fmap_cons, zsum_cons. unfold size_at at 1. rewrite Hw. cbn. lia.
Qed.

Lemma Acknowledge_ok accepted q fs chain acked raw ok q' fs' :
  open_ok accepted q (fs_seen fs) chain acked → Forall (version_ok accepted) (versions fs) →
  Acknowledge raw q fs = (ok, q', fs') →
  Forall (version_ok accepted) (versions fs') ∧
  (q_failed q' = false → ∃ acked', open_ok accepted q' (fs_seen fs') chain acked').
Proof using HC.
  intros Ho Hv Ha. unfold Acknowledge in Ha.
  assert (Hsame : Forall (version_ok accepted) (versions fs) ∧
    (q_failed q = false → ∃ acked', open_ok accepted q (fs_seen fs) chain acked')) by eauto.
  destruct (_ || _); [by injection Ha as <- <- <-|]. rewrite (oo_id _ _ _ _ _ Ho) in Ha.
  destruct (VerifyGatewayPendingReceipt raw _) as [r|] eqn:Hr; [|by injection Ha as <- <- <-].
  destruct (matchesReceipt q r) eqn:Hm; cbn [negb] in Ha; [|by injection Ha as <- <- <-].
  destruct (r == q_receipt q); [by injection Ha as <- <- <-|].
  destruct (q_files q) as [|name rest] eqn:Hf; [by injection Ha as <- <- <-|].
  destruct (open_head _ _ _ _ _ _ _ Ho Hf) as (wire & h & Hw & -> & -> & Hfile & Hh & Hs & _).
  destruct (bool_decide_reflect (rc_Sequence r = rc_Sequence (q_receipt q) + 1)) as [Hseq|]; cbn [negb] in Ha; [|by injection Ha as <- <- <-].
  destruct (read _ _ fs) as [x fs1] eqn:Hrd. pose proof (read_same _ _ _ _ _ Hrd) as S1.
  pose proof S1 as (_ & E1 & _). rewrite <- E1, <- (same_versions _ _ S1) in Hsame.
  destruct x as [data|]; [|by injection Ha as <- <- <-].
  apply read_file in Hrd as (f & Hf' & Hdata & _). rewrite Hfile in Hf'. injection Hf' as <-. cbn in Hdata. subst data.
  rewrite (inspect_id q wire (oo_id _ _ _ _ _ Ho)), Hh in Ha.
  destruct (_ || _ || _) eqn:Hg; [by injection Ha as <- <- <-|]. bool_prop. clear Hsame.
  pose proof (oo_dir _ _ _ _ _ Ho) as Hd. pose proof (receipt_sequence _ _ _ (do_receipt _ _ _ _ Hd)) as Hacked.
  assert (Hrf : receipt_for chain (S acked) r).
  { cbn. split; [|split; [lia|]].
    - unfold matchesReceipt in *. rewrite (oo_id _ _ _ _ _ Ho) in Hm. done.
    - exists wire, h. done. }
  apply Verify_receipt_valid in Hr as Hrv. destruct Hrv as [_ Hsize].
  pose proof (do_bytes _ _ _ _ Hd) as Hb. unfold stored_bytes in Hb.
  rewrite (clean_stored _ _ _ _ Hd (oo_clean _ _ _ _ _ Ho)), <- (oo_bytes _ _ _ _ _ Ho) in Hb. unfold reservedBytes in Hb.
  destruct (atomic "receipt" raw fs1) as [ok1 fs2] eqn:Hat.
  apply (atomic_spec (version_ok accepted)) in Hat as (V2 & O2 & _); [|by rewrite (same_versions _ _ S1)|].
  2: { intros _. rewrite E1. split_and!.
    - eapply version_tmp; [exact Ho|]. unfold slen. cbn. lia.
    - eapply version_tmp; [exact Ho|]. lia.
    - eexists _, _, _. split; [apply Ho|]. by apply dir_ok_receipt with (r := q_receipt q). }
  destruct ok1; cbn [negb] in Ha; [|injection Ha as <- <- <-; split; [done|discriminate]].
  destruct (O2 eq_refl) as (_ & _ & E2). rewrite E1 in E2.
  pose proof (open_acknowledged _ _ _ _ _ _ _ _ Ho Hw Hrf Hr) as Hfinal.
  destruct (Remove _ fs2) as [ok2 fs3] eqn:Hrm.
  apply (Remove_spec (version_ok accepted)) in Hrm as (V3 & O3 & _); [|done|rewrite E2; by eapply open_version].
  destruct ok2; cbn [negb] in Ha; [|injection Ha as <- <- <-; split; [done|discriminate]]. rewrite E2 in O3.
  destruct (sync_dir fs3) as [ok3 fs4] eqn:Hsy. apply (sync_spec (version_ok accepted)) in Hsy as (V4 & E4 & _); [|done].
  destruct ok3; cbn [negb] in Ha; injection Ha as <- <- <-; (split; [done|]); [|discriminate].
  intros _. exists (S acked). rewrite E4, (O3 eq_refl). exact Hfinal.
Qed.
End Invariant.
