(* ===== verification/PendingRecovery.v ===== *)
(** * PendingRecovery: recovery of a pending queue, and its histories

    What [Recover] finds in a directory the queue left behind, at whatever
    point it stopped, and the theorems about all histories. *)

From S2P Require Import Prelude GoStd Uuid Platform GatewayAuth GatewaySession AuditChain PendingRecord PendingQueue PendingTrace.
Open Scope Z_scope.
Open Scope go_scope.

(** ** The names of a directory, sorted *)

#[export] Instance string_less_order : SliceOrder string_less.
Proof. split; [apply string_less_total|apply string_less_false_trans]. Qed.

Lemma string_separates l : separates string_less l.
Proof. intros x y _ _. apply string_less_antisym. Qed.

Lemma string_less_asym a b : string_less a b = true → string_less b a = false.
Proof. intros H. destruct (string_less_total a b) as [Hf|]; [by rewrite H in Hf|done]. Qed.

Lemma name_of_less i j :
  (i < j)%nat → Z.of_nat j < max_int64 → slice_le string_less (name_of i) (name_of j).
Proof. intros Hi Hj. apply string_less_asym, recordName_less; lia. Qed.

Lemma name_of_before i x :
  Z.of_nat i < max_int64 → x ∈ ["identity"; "lock"; tmp_name; "receipt"] → slice_le string_less (name_of i) x.
Proof.
  intros Hi Hx. apply string_less_asym. unfold name_of. rewrite recordName_pos by lia.
  assert (Hc : ∃ c t, decimal 20 (Z.of_nat i + 1) = String c t ∧ (N_of_ascii c < 58)%N).
  { pose proof (decimal_length 20 (Z.of_nat i + 1)) as Hl.
    assert (Hd : digits_from 0 (decimal 20 (Z.of_nat i + 1)) ≠ None).
    { assert (max_int64 < 10 ^ Z.of_nat 20) by reflexivity. rewrite digits_decimal by lia. discriminate. }
    destruct (decimal 20 (Z.of_nat i + 1)) as [|c t]; [discriminate Hl|]. exists c, t. split; [done|]. clear Hl.
    cbn [digits_from] in Hd. destruct (digit c) eqn:Hdig; [|by destruct Hd]. clear Hd. unfold digit, byte_of in Hdig.
    destruct ((48 <=? _) && _) eqn:Hb in Hdig; [|discriminate]. bool_prop. lia. }
  destruct Hc as (c & t & -> & Hc). unfold string_less, String.ltb.
  assert (Hx' : ∃ c' t', x = String c' t' ∧ (100 < N_of_ascii c')%N).
  { repeat (apply elem_of_cons in Hx as [->|Hx]; [eexists _, _; split; [reflexivity|vm_compute; reflexivity]|]).
    by apply elem_of_nil in Hx. }
  destruct Hx' as (c' & t' & -> & Hc').
  change ((match (match Ascii.compare c c' with Eq => String.compare (t +:+ ".record") t' | r => r end) with Lt => true | _ => false end) = true).
  unfold Ascii.compare. by rewrite (proj2 (N.compare_lt_iff _ _)) by lia.
Qed.

Section Names.
Context (d : Dir) (n : nat).

Definition specials : list string := ["identity"; "lock"; tmp_name; "receipt"].
Definition present (x : string) : Prop := is_Some (d !! x).
Definition records_present : list nat := filter (λ i, is_Some (d !! name_of i)) (seq 0 n).
Definition dir_names : list string := (name_of <$> records_present) ++ filter present specials.

Lemma sorted_records k m (Q : nat → Prop) `{!∀ i, Decision (Q i)} :
  Z.of_nat (k + m) < max_int64 → StronglySorted (slice_le string_less) (name_of <$> filter Q (seq k m)).
Proof.
  revert k. induction m as [|m IH]; intros k Hk; [constructor|]. cbn [seq]. rewrite filter_cons.
  destruct (decide (Q k)); [|apply IH; lia]. rewrite fmap_cons. constructor; [apply IH; lia|].
  apply Forall_fmap, Forall_forall. intros j Hj. apply list_elem_of_filter in Hj as [_ [? ?]%elem_of_seq].
  apply name_of_less; lia.
Qed.

Lemma sorted_filter (Q : string → Prop) `{!∀ x, Decision (Q x)} l :
  StronglySorted (slice_le string_less) l → StronglySorted (slice_le string_less) (filter Q l).
Proof.
  induction 1 as [|x l Hs IH Hx]; [constructor|]. rewrite filter_cons. case_decide; [|done].
  constructor; [done|]. rewrite Forall_forall in Hx |- *. intros y [_ Hy]%list_elem_of_filter. auto.
Qed.

Lemma sorted_names : Z.of_nat n < max_int64 → StronglySorted (slice_le string_less) dir_names.
Proof.
  intros Hn. apply StronglySorted_app_2.
  - intros x y Hx Hy. apply list_elem_of_fmap in Hx as (i & -> & Hi). apply list_elem_of_filter in Hi as [_ [_ Hi]%elem_of_seq].
    apply list_elem_of_filter in Hy as [_ Hy]. apply name_of_before; [lia|done].
  - apply sorted_records. lia.
  - apply sorted_filter. repeat (constructor; [|repeat (constructor; [reflexivity|]); constructor]). constructor.
Qed.

Lemma names_NoDup : Z.of_nat n < max_int64 → NoDup dir_names.
Proof.
  intros Hn. apply NoDup_app. split_and!.
  - apply NoDup_fmap_2_strong.
    + intros i j Hi Hj. apply list_elem_of_filter in Hi as [_ [_ Hi]%elem_of_seq].
      apply list_elem_of_filter in Hj as [_ [_ Hj]%elem_of_seq]. apply name_of_inj; lia.
    + apply NoDup_filter, NoDup_seq.
  - intros x Hx Hy. apply list_elem_of_fmap in Hx as (i & -> & _). apply list_elem_of_filter in Hy as [_ Hy].
    by apply (name_of_special i).
  - apply NoDup_filter. unfold specials, tmp_name. repeat (constructor; [set_solver|]). constructor.
Qed.

Lemma names_perm :
  Z.of_nat n < max_int64 →
  (∀ name f, d !! name = Some f → name ∈ specials ∨ ∃ i, (i < n)%nat ∧ name = name_of i) →
  (map_to_list d).*1 ≡ₚ dir_names.
Proof.
  intros Hn Ho. apply NoDup_Permutation; [apply NoDup_fst_map_to_list|by apply names_NoDup|].
  intros x. unfold dir_names. rewrite elem_of_app, (list_elem_of_fmap name_of). split.
  - intros Hx. apply list_elem_of_fmap in Hx as ([x' f] & -> & Hf). apply elem_of_map_to_list in Hf. cbn [fst].
    destruct (Ho _ _ Hf) as [Hs|(i & Hi & ->)].
    + right. apply list_elem_of_filter. split; [by exists f|done].
    + left. exists i. split; [done|]. apply list_elem_of_filter. split; [by exists f|]. apply elem_of_seq. lia.
  - intros [(i & -> & Hi)|Hx].
    + apply list_elem_of_filter in Hi as [[f Hf] _]. apply list_elem_of_fmap. exists (name_of i, f).
      split; [done|]. by apply elem_of_map_to_list.
    + apply list_elem_of_filter in Hx as [[f Hf] _]. apply list_elem_of_fmap. exists (x, f).
      split; [done|]. by apply elem_of_map_to_list.
Qed.

Lemma names_sorted :
  Z.of_nat n < max_int64 →
  (∀ name f, d !! name = Some f → name ∈ specials ∨ ∃ i, (i < n)%nat ∧ name = name_of i) →
  sort_Slice string_less (map_to_list d).*1 = dir_names.
Proof.
  intros Hn Ho. apply (sorted_unique string_less).
  - apply string_separates.
  - apply sort_Slice_sorted. apply _.
  - by apply sorted_names.
  - rewrite sort_Slice_Permutation. by apply names_perm.
Qed.
End Names.

Section Recovery.
Context `{U : UuidPkg} `{P : Platform} `{E : Ed25519} `{C : PendingCodec} `{I : QueueCodec}.
Context `{HC : !PendingCodecLaws}.
Context (id : identity).

(** The queue after the first [k] records, [acked] of them acknowledged. *)
Definition at_position (chain : list string) (acked k : nat) (r : GatewayPendingReceipt) : Queue :=
  set_position (name_of <$> seq acked (k - acked)) (zsum (size_at chain <$> seq acked (k - acked))) (Z.of_nat k)
    (link chain k) (set_receipt r (new_queue id "" false)).

Lemma receipt_link chain acked r : receipt_for id chain acked r → acked ≠ O → rc_WireHash r = link chain acked.
Proof. destruct acked as [|j]; [done|]. intros (_ & _ & w & h & Hw & _ & _ & ->) _. cbn. by rewrite Hw. Qed.

Lemma recover_receipt_ok chain acked r fs x fs' :
  dir_ok id chain acked r (fs_seen fs) → recover_receipt (new_queue id "" false) fs = (x, fs') →
  same_dirs fs fs' ∧ (x = None ∨ x = Some (at_position chain acked acked r)) ∧ (fs_faults fs = [] → x ≠ None).
Proof.
  intros Hd Hr. unfold recover_receipt in Hr. destruct (read "receipt" 1024 fs) as [raw fs1] eqn:Hrd.
  pose proof (read_same _ _ _ _ _ Hrd) as S1. pose proof (do_file _ _ _ _ _ Hd) as Hfile. unfold receipt_file in Hfile.
  assert (Hpos : at_position chain acked acked r =
    set_position [] 0 (Z.of_nat acked) (link chain acked) (set_receipt r (new_queue id "" false))).
  { unfold at_position. by rewrite Nat.sub_diag. }
  destruct raw as [raw|].
  - apply read_file in Hrd as (f & Hf & Hdata & _ & _). destruct acked as [|j]; [by rewrite Hf in Hfile|].
    destruct Hfile as (raw' & Hraw & Hv). rewrite Hraw in Hf. injection Hf as <-. cbn in Hdata. subst raw'.
    cbn [q_identity new_queue] in Hr. rewrite Hv in Hr. pose proof (do_receipt _ _ _ _ _ Hd) as Hrf.
    pose proof (receipt_link _ _ _ Hrf ltac:(done)) as Hl. pose proof (receipt_sequence _ _ _ _ Hrf) as Hs.
    destruct Hrf as (Hm & _ & _). rewrite Hm in Hr. cbn [negb] in Hr. injection Hr as <- <-.
    split_and!; [done| |done]. right. by rewrite Hpos, <- Hl, <- Hs.
  - destruct (Lstat "receipt" fs1) as [st fs2] eqn:Hls. apply Lstat_same in Hls as (S2 & Hst & Hne).
    injection Hr as <- <-. pose proof S1 as (_ & E1 & F1). split; [by eapply same_trans|].
    destruct acked as [|j].
    + rewrite E1, Hfile in Hst. pose proof (do_receipt _ _ _ _ _ Hd) as ->.
      rewrite Hpos. destruct Hst as [-> | ->]; [split; [by left|]|split; [by right|done]].
      intros Hf. by destruct (Hne (F1 Hf)).
    + destruct Hfile as (raw & Hraw & Hv). rewrite E1, Hraw in Hst. split; [left; by destruct Hst as [-> | ->]|].
      intros Hf. exfalso. apply Verify_receipt_valid in Hv as [_ Hsize].
      rewrite (read_own _ _ _ _ Hf Hraw Hsize) in Hrd. discriminate Hrd.
Qed.

Lemma seq_snoc_from (a k : nat) : (a ≤ k)%nat → seq a (S k - a) = seq a (k - a) ++ [k].
Proof.
  intros. replace (S k - a)%nat with (k - a + 1)%nat by lia. rewrite seq_app. cbn. by replace (a + (k - a))%nat with k by lia.
Qed.

Lemma at_position_snoc chain acked k r wire :
  (acked ≤ k)%nat → chain !! k = Some wire →
  set_position (q_files (at_position chain acked k r) ++ [name_of k]) (q_bytes (at_position chain acked k r) + slen wire)
    (Z.of_nat k + 1) (GatewayPendingHash wire) (at_position chain acked k r) = at_position chain acked (S k) r.
Proof.
  intros Hk Hw. unfold at_position, set_position, set_receipt. cbn [q_files q_bytes q_identity q_key q_receipt q_failed
    q_frozen q_closed q_producerClaimed q_finished new_queue]. rewrite seq_snoc_from, !fmap_app, zsum_app by done.
  cbn [link]. rewrite Hw. replace (Z.of_nat (S k)) with (Z.of_nat k + 1) by lia. f_equal. cbn. unfold size_at at 3.
  rewrite Hw. cbn. lia.
Qed.

Lemma recover_record_ok chain acked r fs i acks x fs' :
  dir_ok id chain acked r (fs_seen fs) → (i < length chain)%nat → is_Some (fs_seen fs !! name_of i) →
  let q := at_position chain acked (i `max` acked) r in
  recover_record (name_of i) q acks fs = (x, fs') →
  same_dirs fs fs' ∧
  (x = None ∨ x = Some (at_position chain acked (S i `max` acked) r, if (i <? acked)%nat then acks ++ [name_of i] else acks)) ∧
  (fs_faults fs = [] → x ≠ None).
Proof using HC.
  intros Hd Hi [f Hf] q Hr. pose proof (do_chain _ _ _ _ _ Hd) as Hc. pose proof (chain_length _ _ Hc) as Hl.
  destruct (lookup_lt_is_Some_2 chain i Hi) as [wire Hw]. destruct (Hc i wire Hw) as (h & Hh & Hs & Hp).
  assert (Hfile : fs_seen fs !! name_of i = Some (own_file wire)).
  { destruct (decide (acked ≤ i)%nat) as [Hle|Hgt]; [by apply (do_live _ _ _ _ _ Hd)|].
    destruct (do_gone _ _ _ _ _ Hd i wire ltac:(lia) Hw) as [Hn|]; [|done]. by rewrite Hn in Hf. }
  unfold recover_record in Hr. unfold name_of in Hr at 1 2 3 4.
  destruct (parse_recordName (Z.of_nat i + 1)) as [Hsuf Hnum]; [lia|].
  rewrite Hsuf, slen_recordName, (bool_decide_eq_true_2 (27 = 27)), Hnum in Hr by lia. cbn [negb orb] in Hr.
  rewrite (bool_decide_eq_true_2 (name_of i = _)) in Hr by done. cbn [negb] in Hr.
  destruct (read _ _ fs) as [raw fs1] eqn:Hrd. pose proof (read_same _ _ _ _ _ Hrd) as S1.
  assert (Hraw : raw = None ∨ raw = Some wire).
  { destruct raw as [raw|]; [right|by left]. apply read_file in Hrd as (f' & Hf' & <- & _).
    rewrite Hfile in Hf'. by injection Hf' as <-. }
  assert (Hok : fs_faults fs = [] → raw ≠ None).
  { intros Hff. destruct (inspects_valid _ _ _ Hh) as [_ Hsz]. rewrite (read_own _ _ _ _ Hff Hfile Hsz) in Hrd.
    by injection Hrd as <- _. }
  apply pair_equal_spec in Hr as [<- <-]. split; [done|]. destruct Hraw as [-> | ->]; [split; [by left|intros Hff; by destruct (Hok Hff)]|]. clear Hok.
  assert (Hq : q_identity q = id) by done. rewrite (inspect_id id q wire Hq), Hh, Hs, bool_decide_eq_true_2 by done. cbn [negb].
  assert (Hqr : q_receipt q = r) by done. rewrite Hqr. pose proof (do_receipt _ _ _ _ _ Hd) as Hrf.
  rewrite (receipt_sequence _ _ _ _ Hrf). destruct (decide (i < acked)%nat) as [Hlt|Hge].
  - rewrite (proj2 (Z.leb_le _ _)), (proj2 (Nat.ltb_lt _ _)) by lia.
    replace (S i `max` acked)%nat with acked by lia. assert (Hqe : q = at_position chain acked acked r) by (unfold q; by replace (i `max` acked)%nat with acked by lia).
    assert (Hno : (Z.of_nat i + 1 == Z.of_nat acked) && ((ph_RecordID h != rc_RecordID r) || (GatewayPendingHash wire != rc_WireHash r)) = false).
    { destruct (bool_decide_reflect (Z.of_nat i + 1 = Z.of_nat acked)) as [Heq|]; [|done].
      destruct acked as [|j]; [lia|]. assert (j = i) as -> by lia. destruct Hrf as (_ & _ & w' & h' & Hw' & Hh' & Hid & Hhash).
      rewrite Hw in Hw'. injection Hw' as <-. rewrite Hh in Hh'. injection Hh' as <-.
      by rewrite Hid, Hhash, !bool_decide_eq_true_2. }
    rewrite Hno, Hqe. split; [by right|done].
  - rewrite (proj2 (Z.leb_gt _ _)), (proj2 (Nat.ltb_ge _ _)) by lia.
    assert (Hm : (i `max` acked)%nat = i) by lia. unfold q. rewrite Hm. replace (S i `max` acked)%nat with (S i) by lia.
    cbn [q_sequence q_hash at_position set_position set_receipt]. rewrite Hp, !bool_decide_eq_true_2 by done. cbn [negb orb].
    split; [right|done]. do 2 f_equal. apply at_position_snoc; [lia|done].
Qed.

(** The round over the record names. *)
Lemma recover_loop_ok chain acked r tail m :
  ∀ k fs acks, dir_ok id chain acked r (fs_seen fs) → (k + m = length chain)%nat →
  ∃ fs1, same_dirs fs fs1 ∧
    let out := recover_records ((name_of <$> filter (λ i, is_Some (fs_seen fs !! name_of i)) (seq k m)) ++ tail)
      (at_position chain acked (k `max` acked) r) acks fs in
    let rest := recover_records tail (at_position chain acked (length chain) r)
      (acks ++ (name_of <$> filter (λ i, is_Some (fs_seen fs !! name_of i) ∧ (i < acked)%nat) (seq k m))) fs1 in
    (out = (None, fs1) ∨ out = rest) ∧ (fs_faults fs = [] → out = rest).
Proof using HC.
  induction m as [|m IH]; intros k fs acks Hd Hk.
  - exists fs. split; [done|]. cbn. rewrite app_nil_r. pose proof (do_acked _ _ _ _ _ Hd).
    replace (k `max` acked)%nat with (length chain) by lia. auto.
  - cbn [seq]. rewrite !filter_cons. destruct (decide (is_Some (fs_seen fs !! name_of k))) as [Hpr|Hab].
    + rewrite fmap_cons. cbn [app recover_records].
      rewrite bool_decide_eq_false_2 by (intros Hin; apply (name_of_special k); clear -Hin; set_solver).
      destruct (recover_record _ _ acks fs) as [x fs1] eqn:Hrec.
      apply recover_record_ok in Hrec as (S1 & Hx & Hn); [|done|lia|done].
      pose proof S1 as (_ & E1 & F1).
      destruct (IH (S k) fs1 (if (k <? acked)%nat then acks ++ [name_of k] else acks)) as (fs2 & S2 & Ho & Hff); [by rewrite E1|lia|].
      rewrite E1 in Ho, Hff.
      assert (Hdone : (if (k <? acked)%nat then acks ++ [name_of k] else acks) ++
          (name_of <$> filter (λ i, is_Some (fs_seen fs !! name_of i) ∧ (i < acked)%nat) (seq (S k) m)) =
        acks ++ (name_of <$> (if decide (is_Some (fs_seen fs !! name_of k) ∧ (k < acked)%nat)
          then k :: filter (λ i, is_Some (fs_seen fs !! name_of i) ∧ (i < acked)%nat) (seq (S k) m)
          else filter (λ i, is_Some (fs_seen fs !! name_of i) ∧ (i < acked)%nat) (seq (S k) m)))).
      { destruct (Nat.ltb_spec k acked); [rewrite decide_True by done|rewrite decide_False by (intros [_ ?]; lia)]; [|done].
        by rewrite fmap_cons, <- (assoc_L (++)). }
      rewrite Hdone in Ho, Hff. destruct Hx as [-> | ->].
      * exists fs1. split; [done|]. split; [by left|]. intros Hf. by destruct (Hn Hf).
      * exists fs2. split; [by eapply same_trans|]. split; [done|]. intros Hf. apply Hff. auto.
    + destruct (IH (S k) fs acks) as (fs2 & S2 & Ho & Hff); [done|lia|]. exists fs2. split; [done|].
      rewrite decide_False by (by intros [? _]).
      assert (Hm : (S k `max` acked = k `max` acked)%nat).
      { destruct (decide (acked ≤ k)%nat) as [Hle|]; [|lia]. exfalso. apply Hab.
        destruct (lookup_lt_is_Some_2 chain k ltac:(lia)) as [w Hw]. rewrite (do_live _ _ _ _ _ Hd k w Hle Hw). eauto. }
      rewrite Hm in Ho, Hff. done.
Qed.

(** The other names: the files of the queue are skipped, a temporary file is
    refused. *)
Lemma recover_specials d q acks fs :
  recover_records (filter (present d) specials) q acks fs =
  (if decide (is_Some (d !! tmp_name)) then None else Some (q, acks), fs).
Proof.
  unfold specials. rewrite !filter_cons, filter_nil. unfold present.
  destruct (decide (is_Some (d !! "identity"))), (decide (is_Some (d !! "lock"))), (decide (is_Some (d !! tmp_name))),
    (decide (is_Some (d !! "receipt"))); reflexivity.
Qed.

Lemma remove_all_ok (Q : Dir → Prop) chain acked r l :
  ∀ fs ok fs', dir_ok id chain acked r (fs_seen fs) → NoDup l → (∀ i, i ∈ l → (i < acked)%nat) →
  (∀ d, dir_ok id chain acked r d → Q d) → Forall Q (versions fs) →
  remove_all (name_of <$> l) fs = (ok, fs') →
  Forall Q (versions fs') ∧
  (ok = true → dir_ok id chain acked r (fs_seen fs') ∧ (∀ i, i ∈ l → fs_seen fs' !! name_of i = None) ∧
    (∀ x, x ∉ (name_of <$> l) → fs_seen fs' !! x = fs_seen fs !! x)) ∧
  (fs_faults fs = [] → (∀ i, i ∈ l → is_Some (fs_seen fs !! name_of i)) → ok = true ∧ fs_faults fs' = []).
Proof using HC.
  induction l as [|i l IH]; intros fs ok fs' Hd Hnd Hl HQ HV Hr.
  - injection Hr as <- <-. split_and!; [done| |done]. intros _. split_and!; [done| |done]. intros i Hi. by apply elem_of_nil in Hi.
  - apply NoDup_cons in Hnd as [Hni Hnd]. rewrite fmap_cons in Hr. cbn [remove_all] in Hr.
    destruct (Remove (name_of i) fs) as [ok1 fs1] eqn:Hrm.
    assert (Hi : (i < acked)%nat) by (apply Hl; left). pose proof (dir_ok_remove _ _ _ _ _ i Hd Hi) as Hd1.
    apply (Remove_spec Q) in Hrm as (V1 & E1 & F1); [|done|by apply HQ].
    destruct ok1; cbn [negb] in Hr.
    2: { injection Hr as <- <-. split_and!; [done..|]. intros Hf Hp. destruct (F1 Hf) as [? _]; [apply Hp; left|done]. }
    specialize (E1 eq_refl). rewrite <- E1 in Hd1.
    assert (Hother : ∀ j, j ∈ l → fs_seen fs1 !! name_of j = fs_seen fs !! name_of j).
    { intros j Hj. rewrite E1. apply lookup_delete_ne. intros Heq. pose proof (do_acked _ _ _ _ _ Hd).
      assert (j < acked)%nat by (apply Hl; by right). apply (name_of_chain id chain) in Heq; [congruence|apply Hd|lia|lia]. }
    destruct (IH fs1 ok fs') as (V2 & R2 & F2); [done|done|intros; apply Hl; by right|done..|].
    split; [done|]. split.
    + intros ->. destruct (R2 eq_refl) as (Hd2 & Hn2 & Hs2). split; [done|].
      assert (Hkeep : ∀ x, x ∉ name_of <$> l → fs_seen fs' !! x = delete (name_of i) (fs_seen fs) !! x) by (intros x Hx; by rewrite Hs2, E1).
      split.
      * intros j [->|Hj]%elem_of_cons; [|auto]. rewrite Hkeep; [apply lookup_delete_eq|].
        intros Hin. apply list_elem_of_fmap in Hin as (j & Heq & Hj). pose proof (do_acked _ _ _ _ _ Hd).
        assert (j < acked)%nat by (apply Hl; by right). apply (name_of_chain id chain) in Heq; [congruence|apply Hd|lia|lia].
      * intros x Hx. rewrite fmap_cons in Hx. apply not_elem_of_cons in Hx as [Hx1 Hx2].
        rewrite Hkeep by done. by apply lookup_delete_ne.
    + intros Hf Hp. destruct (F1 Hf) as [_ Hf1]; [apply Hp; left|]. apply F2; [done|].
      intros j Hj. rewrite Hother by done. apply Hp. by right.
Qed.

Lemma physical_same names : ∀ total max fs ok fs', physical names total max fs = (ok, fs') → same_dirs fs fs'.
Proof.
  induction names as [|x names IH]; intros total max fs ok fs' Hp; [by injection Hp as _ <-|]. cbn [physical] in Hp.
  destruct (Lstat x fs) as [st fs1] eqn:Hl. apply Lstat_same in Hl as (S1 & _).
  destruct st as [|f|]; [by injection Hp as _ <-| |by injection Hp as _ <-].
  destruct (negb _); [by injection Hp as _ <-|]. destruct (_ <? _); [by injection Hp as _ <-|].
  eapply same_trans; [exact S1|by eapply IH].
Qed.

Definition file_size (d : Dir) (x : string) : Z := match d !! x with Some f => slen (fi_data f) | None => 0 end.

Lemma file_size_nonneg d x : 0 ≤ file_size d x.
Proof. unfold file_size. destruct (d !! x); [apply slen_nonneg|done]. Qed.

Lemma zsum_nonneg {A} (f : A → Z) l : (∀ x, 0 ≤ f x) → 0 ≤ zsum (f <$> l).
Proof. intros Hf. induction l as [|x l IH]; [done|]. rewrite fmap_cons, zsum_cons. specialize (Hf x). lia. Qed.

Lemma physical_fits names : ∀ total max fs,
  fs_faults fs = [] → (∀ x, x ∈ names → ∃ f, fs_seen fs !! x = Some f ∧ fi_regular f = true) →
  total + zsum (file_size (fs_seen fs) <$> names) ≤ max → physical names total max fs = (true, fs).
Proof.
  induction names as [|x names IH]; intros total max fs Hf Hp Hm; [done|]. cbn [physical].
  destruct (Hp x ltac:(left)) as (f & Hx & Hreg). rewrite fmap_cons, zsum_cons in Hm.
  unfold Lstat, call. rewrite Hf, Hx, Hreg. cbn [negb]. unfold file_size in Hm at 1. rewrite Hx in Hm.
  pose proof (zsum_nonneg (file_size (fs_seen fs)) names (file_size_nonneg _)).
  rewrite (proj2 (Z.ltb_ge _ _)) by lia. apply IH; [done| |lia]. intros y Hy. apply Hp. by right.
Qed.

(** All the records in the directory: those acknowledged, then the live ones. *)
Lemma stored_split chain acked r d :
  dir_ok id chain acked r d →
  stored chain d = filter (λ i, is_Some (d !! name_of i) ∧ (i < acked)%nat) (seq 0 (length chain)) ++ live chain acked.
Proof.
  intros Hd. pose proof (do_acked _ _ _ _ _ Hd) as Hle. unfold stored, live.
  replace (length chain) with (acked + (length chain - acked))%nat at 1 2 by lia. rewrite seq_app, !filter_app. cbn [Nat.add].
  rewrite (filter_none (λ i, is_Some (d !! name_of i) ∧ (i < acked)%nat) (seq acked _)), app_nil_r
    by (intros i [? ?]%elem_of_seq [_ ?]; lia). f_equal.
  - apply filter_same. intros i [_ Hi]%elem_of_seq. split; [|by intros [? _]]. intros. split; [done|lia].
  - apply filter_all. intros i [Hi1 Hi2]%elem_of_seq. destruct (lookup_lt_is_Some_2 chain i ltac:(lia)) as [w Hw].
    rewrite (do_live _ _ _ _ _ Hd i w Hi1 Hw). eauto.
Qed.

Lemma live_bounds chain acked r d :
  dir_ok id chain acked r d →
  Z.of_nat (length (live chain acked)) ≤ id_MaxRecords id ∧
  zsum (size_at chain <$> live chain acked) + reservedBytes ≤ id_MaxBytes id.
Proof.
  intros Hd. pose proof (do_records _ _ _ _ _ Hd) as Hr. pose proof (do_bytes _ _ _ _ _ Hd) as Hb. unfold stored_bytes in Hb.
  rewrite (stored_split _ _ _ _ Hd) in Hr, Hb. rewrite length_app in Hr. rewrite fmap_app, zsum_app in Hb.
  pose proof (zsum_nonneg (size_at chain) (filter (λ i, is_Some (d !! name_of i) ∧ (i < acked)%nat) (seq 0 (length chain)))
    (λ i, slen_nonneg _)). lia.
Qed.

Context `{HI : !QueueCodecLaws} (Hvalid : valid_identity id = true).

Lemma record_file chain acked r d i :
  dir_ok id chain acked r d → (i < length chain)%nat → is_Some (d !! name_of i) →
  ∃ wire, chain !! i = Some wire ∧ d !! name_of i = Some (own_file wire).
Proof.
  intros Hd Hi [f Hf]. destruct (lookup_lt_is_Some_2 chain i Hi) as [wire Hw]. exists wire. split; [done|].
  destruct (decide (acked ≤ i)%nat) as [Hle|Hgt]; [by apply (do_live _ _ _ _ _ Hd)|].
  destruct (do_gone _ _ _ _ _ Hd i wire ltac:(lia) Hw) as [Hn|]; [by rewrite Hn in Hf|done].
Qed.

Lemma record_sizes chain acked r d :
  dir_ok id chain acked r d → zsum (file_size d <$> (name_of <$> stored chain d)) = stored_bytes chain d.
Proof.
  intros Hd. unfold stored_bytes. rewrite <- list_fmap_compose. f_equal. apply list_fmap_ext. intros _ i Hi%list_elem_of_lookup_2.
  apply list_elem_of_filter in Hi as [Hp [_ Hi]%elem_of_seq]. destruct (record_file _ _ _ _ _ Hd Hi Hp) as (w & Hw & Hf).
  cbn. unfold file_size, size_at. by rewrite Hf, Hw.
Qed.

Lemma receipt_size chain acked r d : dir_ok id chain acked r d → file_size d "receipt" ≤ 1024.
Proof.
  intros Hd. pose proof (do_file _ _ _ _ _ Hd) as Hf. unfold file_size, receipt_file in *. destruct acked; [by rewrite Hf|].
  destruct Hf as (raw & -> & Hv). by apply Verify_receipt_valid in Hv as [_ ?].
Qed.

(** No directory the queue leaves behind exceeds the byte limit. *)
Lemma total_bytes chain acked r d :
  dir_ok id chain acked r d → zsum (file_size d <$> dir_names d (length chain)) ≤ id_MaxBytes id.
Proof using HI Hvalid.
  intros Hd. unfold dir_names. rewrite fmap_app, zsum_app. fold (stored chain d).
  change (records_present d (length chain)) with (stored chain d). rewrite (record_sizes _ _ _ _ Hd).
  assert (Hsp : zsum (file_size d <$> filter (present d) specials) ≤
    file_size d "identity" + file_size d "lock" + file_size d tmp_name + file_size d "receipt").
  { pose proof (file_size_nonneg d "identity"). pose proof (file_size_nonneg d "lock").
    pose proof (file_size_nonneg d tmp_name). pose proof (file_size_nonneg d "receipt").
    unfold specials. rewrite !filter_cons, filter_nil. repeat case_decide; rewrite ?fmap_cons, ?zsum_cons; cbn [zsum fmap list_fmap foldr]; lia. }
  pose proof (receipt_size _ _ _ _ Hd). pose proof (MarshalIdentity_size id Hvalid).
  assert (file_size d "identity" ≤ 4096) by (unfold file_size; by rewrite (do_identity _ _ _ _ _ Hd)).
  assert (file_size d "lock" = 0) by (unfold file_size; by destruct (do_lock _ _ _ _ _ Hd) as [-> | ->]).
  pose proof (do_bytes _ _ _ _ _ Hd). unfold reservedBytes in *.
  destruct (d !! tmp_name) as [f|] eqn:Ht; unfold file_size in Hsp at 4; rewrite Ht in Hsp; [|lia].
  pose proof (do_tmp _ _ _ _ _ Hd f Ht). lia.
Qed.

Lemma names_regular chain acked r d x :
  dir_ok id chain acked r d → d !! tmp_name = None → x ∈ dir_names d (length chain) →
  ∃ f, d !! x = Some f ∧ fi_regular f = true.
Proof.
  intros Hd Ht [Hx|Hx]%elem_of_app.
  - apply list_elem_of_fmap in Hx as (i & -> & Hi). apply list_elem_of_filter in Hi as [Hp [_ Hi]%elem_of_seq].
    destruct (record_file _ _ _ _ _ Hd Hi Hp) as (w & _ & ->). eexists. split; done.
  - apply list_elem_of_filter in Hx as [[f Hf] Hx]. exists f. split; [done|].
    pose proof (do_file _ _ _ _ _ Hd) as Hr. unfold receipt_file in Hr.
    repeat (apply elem_of_cons in Hx as [->|Hx]); [..|by apply elem_of_nil in Hx].
    + rewrite (do_identity _ _ _ _ _ Hd) in Hf. by injection Hf as <-.
    + destruct (do_lock _ _ _ _ _ Hd) as [Hn|Hn]; rewrite Hn in Hf; [done|by injection Hf as <-].
    + by rewrite Ht in Hf.
    + destruct acked; [by rewrite Hr in Hf|]. destruct Hr as (raw & Hn & _). rewrite Hn in Hf. by injection Hf as <-.
Qed.

(** The queue once the acknowledged records are gone. *)
Lemma removed_open accepted chain acked r d d' :
  let gone := filter (λ i, is_Some (d !! name_of i) ∧ (i < acked)%nat) (seq 0 (length chain)) in
  dir_ok id chain acked r d → dir_ok id chain acked r d' → accepted `prefix_of` chain → d !! tmp_name = None →
  (∀ i, i ∈ gone → d' !! name_of i = None) → (∀ x, x ∉ (name_of <$> gone) → d' !! x = d !! x) →
  open_ok id accepted (at_position chain acked (length chain) r) d' chain acked.
Proof using HC.
  intros gone Hd Hd' Hpre Ht Hg Hk. split; try done.
  - rewrite Hk; [done|]. intros Hin. apply list_elem_of_fmap in Hin as (i & Heq & _).
    symmetry in Heq. revert Heq. apply name_of_ne. clear. set_solver.
  - intros i Hi. destruct (decide (i ∈ gone)) as [|Hni]; [by apply Hg|]. pose proof (do_acked _ _ _ _ _ Hd). rewrite Hk.
    + apply eq_None_not_Some. intros Hs. apply Hni. apply list_elem_of_filter. split; [done|]. apply elem_of_seq. lia.
    + intros Hin. apply list_elem_of_fmap in Hin as (j & Heq & Hj). apply list_elem_of_filter in Hj as Hj'.
      apply (name_of_chain id chain) in Heq; [congruence|apply Hd|lia|]. destruct Hj' as [[_ ?] _]. lia.
Qed.

Lemma recover_ok accepted chain acked r fs x fs' :
  dir_ok id chain acked r (fs_seen fs) → accepted `prefix_of` chain → Forall (version_ok id accepted) (versions fs) →
  recover (map_to_list (fs_seen fs)).*1 (new_queue id "" false) fs = (x, fs') →
  Forall (version_ok id accepted) (versions fs') ∧
  (∀ q, x = Some q → open_ok id accepted q (fs_seen fs') chain acked ∧ q = at_position chain acked (length chain) r) ∧
  (fs_faults fs = [] → fs_seen fs !! tmp_name = None → x ≠ None).
Proof using HC HI Hvalid.
  intros Hd Hpre HV Hr. unfold recover in Hr. pose proof (do_chain _ _ _ _ _ Hd) as Hc. pose proof (chain_length _ _ Hc) as Hl.
  destruct (recover_receipt _ fs) as [x1 fs1] eqn:H1. apply (recover_receipt_ok chain acked r) in H1 as (S1 & Hx1 & N1); [|done].
  rewrite <- (same_versions _ _ S1) in HV. pose proof S1 as (_ & E1 & F1).
  destruct x1 as [q|]; [|injection Hr as <- <-; split_and!; [done..|intros Hf; by destruct (N1 Hf)]].
  destruct Hx1 as [|Hq]; [done|]. injection Hq as ->. clear N1.
  rewrite names_sorted with (n := length chain) in Hr; [|done|apply Hd].
  change (q_identity (at_position chain acked acked r)) with id in Hr.
  destruct (physical _ 0 _ fs1) as [okp fs2] eqn:H2. pose proof (physical_same _ _ _ _ _ _ H2) as S2.
  pose proof S2 as (_ & E2 & F2). rewrite <- (same_versions _ _ S2) in HV. rewrite E1 in E2.
  assert (Hphys : fs_faults fs = [] → fs_seen fs !! tmp_name = None → okp = true).
  { intros Hf Ht. rewrite physical_fits in H2; [by injection H2 as <- _|auto| |].
    - intros y Hy. rewrite E1. by eapply names_regular.
    - rewrite E1. pose proof (total_bytes _ _ _ _ Hd). lia. }
  destruct okp; cbn [negb] in Hr.
  2: { injection Hr as <- <-. split_and!; [done..|]. intros Hf Ht. discriminate (Hphys Hf Ht). }
  clear Hphys H2. unfold dir_names, records_present in Hr.
  destruct (recover_loop_ok chain acked r (filter (present (fs_seen fs)) specials) (length chain) 0 fs2 []) as (fs3 & S3 & Hloop & Hff);
    [by rewrite E2|lia|]. cbn [Nat.max] in Hloop, Hff. rewrite E2 in Hloop, Hff. pose proof S3 as (_ & E3 & F3).
  rewrite recover_specials in Hloop, Hff. cbn [app] in Hloop, Hff.
  set (gone := filter (λ i, is_Some (fs_seen fs !! name_of i) ∧ (i < acked)%nat) (seq 0 (length chain))) in Hloop, Hff.
  destruct (recover_records _ _ [] fs2) as [out fs3'] eqn:H3. clear H3.
  assert (fs3' = fs3) as -> by (destruct Hloop as [Hp|Hp]; by injection Hp).
  rewrite <- (same_versions _ _ S3) in HV. rewrite E2 in E3.
  destruct (decide (is_Some (fs_seen fs !! tmp_name))) as [[f Htmp]|Htmp].
  { assert (out = None) as -> by (destruct Hloop as [Hp|Hp]; by injection Hp). injection Hr as <- <-.
    split_and!; [done..|]. intros _ Hn. by rewrite Hn in Htmp. }
  destruct out as [[q acks]|]; [|injection Hr as <- <-; split_and!; [done..|intros Hf _; discriminate (Hff (F2 (F1 Hf)))]].
  destruct Hloop as [|Hp]; [done|]. injection Hp as -> ->. clear Hff.
  assert (Hgone : ∀ i, i ∈ gone → is_Some (fs_seen fs !! name_of i) ∧ (i < acked)%nat).
  { intros i Hi. by apply list_elem_of_filter in Hi as [Hi _]. }
  destruct (live_bounds _ _ _ _ Hd) as [Hb1 Hb2].
  cbn [q_files q_bytes at_position set_position] in Hr. change (seq acked (length chain - acked)) with (live chain acked) in Hr.
  rewrite length_fmap, (proj2 (Z.ltb_ge _ _)), (proj2 (Z.ltb_ge _ _)) in Hr by lia. cbn [orb] in Hr.
  destruct (remove_all _ fs3) as [okr fs4] eqn:H4.
  apply (remove_all_ok (version_ok id accepted) chain acked r) in H4 as (V4 & R4 & N4);
    [|by rewrite E3|apply NoDup_filter, NoDup_seq|by intros i [_ ?]%Hgone|intros; by eexists _, _, _|done].
  destruct okr; cbn [negb] in Hr.
  2: { injection Hr as <- <-. split_and!; [done..|]. intros Hf _. destruct N4 as [? _]; [auto| |done].
    intros i Hi. rewrite E3. by apply Hgone. }
  destruct (R4 eq_refl) as (Hd4 & Hg4 & Hk4).
  assert (Hopen : open_ok id accepted (at_position chain acked (length chain) r) (fs_seen fs4) chain acked).
  { apply (removed_open accepted chain acked r (fs_seen fs)); [done..|by apply eq_None_not_Some|done|by rewrite E3 in Hk4]. }
  assert (Hfail : fs_faults fs = [] → fs_faults fs4 = []).
  { intros Hf. apply N4; [auto|]. intros i Hi. rewrite E3. by apply Hgone. }
  destruct (0 <? _).
  - destruct (sync_dir fs4) as [oks fs5] eqn:H5. apply (sync_spec (version_ok id accepted)) in H5 as (V5 & E5 & _ & F5); [|done].
    destruct oks; injection Hr as <- <-; (split; [done|]).
    + split; [|done]. intros q [= <-]. by rewrite E5.
    + split; [done|]. intros Hf _. destruct (F5 (Hfail Hf)). done.
  - injection Hr as <- <-. split; [done|]. split; [|done]. intros q [= <-]. done.
Qed.

(** *** Opening the directory again *)

Lemma open_lock_ok accepted chain acked r fs x fs' :
  dir_ok id chain acked r (fs_seen fs) → accepted `prefix_of` chain → Forall (version_ok id accepted) (versions fs) →
  open_lock fs = (x, fs') →
  Forall (version_ok id accepted) (versions fs') ∧ dir_ok id chain acked r (fs_seen fs') ∧
  fs_seen fs' !! tmp_name = fs_seen fs !! tmp_name ∧ (x = None ∨ x = Some (own_file "")) ∧
  (fs_faults fs = [] → x ≠ None ∧ fs_faults fs' = []).
Proof.
  intros Hd Hpre HV Ho. unfold open_lock in Ho. destruct (call fs) as [bad fs1] eqn:Hc. apply call_same in Hc as [S1 N1].
  pose proof S1 as (_ & E1 & F1). rewrite <- (same_versions _ _ S1) in HV.
  destruct bad; [injection Ho as <- <-; rewrite E1; split_and!; try done; [by left|intros Hf; by discriminate (N1 Hf)]|].
  destruct (fs_seen fs1 !! "lock") as [f|] eqn:Hl; injection Ho as <- <-.
  - rewrite E1 in *. destruct (do_lock _ _ _ _ _ Hd) as [Hn|Hn]; rewrite Hn in Hl; [done|]. injection Hl as <-.
    split_and!; auto.
  - rewrite update_versions, E1. pose proof (dir_ok_lock _ _ _ _ _ Hd) as Hd'.
    split_and!; [apply Forall_app; split; [done|]; constructor; [by eexists _, _, _|constructor]|cbn; by rewrite E1|
      cbn; by rewrite E1, lookup_insert_ne|by right|]. auto.
Qed.

Lemma open_recover_ok accepted chain acked r env path id' fs x fs' :
  dir_ok id chain acked r (fs_seen fs) → accepted `prefix_of` chain → Forall (version_ok id accepted) (versions fs) →
  open env path id' "" false fs = (x, fs') →
  Forall (version_ok id accepted) (versions fs') ∧
  ∀ q, x = Some q → open_ok id accepted q (fs_seen fs') chain acked ∧ q = at_position chain acked (length chain) r ∧
    id' = id ∧ en_flock env = true.
Proof using HC HI Hvalid.
  intros Hd Hpre HV Ho. unfold open in Ho. destruct (valid_identity id') eqn:Hv'; cbn [negb orb] in Ho; [|by injection Ho as <- <-].
  destruct (negb (IsAbs path) || _); [by injection Ho as <- <-|].
  destruct (_ || _); [by injection Ho as <- <-|]. destruct (open_lock fs) as [lock fs1] eqn:Hlk.
  apply (open_lock_ok accepted chain acked r) in Hlk as (V1 & D1 & _ & Hlock & _); [|done..].
  destruct lock as [lock|]; [|by injection Ho as <- <-]. destruct Hlock as [|Hlock]; [done|]. injection Hlock as ->.
  cbn [private own_file fi_regular fi_private andb negb orb fi_data] in Ho.
  destruct (en_flock env) eqn:Hfl; cbn [negb orb] in Ho; [|by injection Ho as <- <-].
  rewrite (bool_decide_eq_true_2 (slen "" = 0)) in Ho by done. cbn [negb] in Ho.
  destruct (call fs1) as [bad fs2] eqn:Hc. apply call_same in Hc as [S2 _]. pose proof S2 as (_ & E2 & _).
  rewrite <- (same_versions _ _ S2) in V1. rewrite <- E2 in D1.
  destruct (bad || _); [by injection Ho as <- <-|].
  destruct (read "identity" 4096 fs2) as [raw fs3] eqn:Hrd. pose proof (read_same _ _ _ _ _ Hrd) as S3.
  pose proof S3 as (_ & E3 & _). rewrite <- (same_versions _ _ S3) in V1.
  destruct (bool_decide_reflect (raw = Some (MarshalIdentity id'))) as [->|]; cbn [negb] in Ho; [|by injection Ho as <- <-].
  apply read_file in Hrd as (f & Hf & Hdata & _). rewrite (do_identity _ _ _ _ _ D1) in Hf. injection Hf as <-. cbn in Hdata.
  apply MarshalIdentity_inj in Hdata as <-; [|done..]. rewrite <- E3 in D1, Ho.
  apply (recover_ok accepted chain acked r) in Ho as (V4 & R4 & _); [|done..]. split; [done|].
  intros q Hq. destruct (R4 q Hq). done.
Qed.

Lemma version_names accepted d x :
  version_ok id accepted d → x = "identity" → x ∈ (map_to_list d).*1.
Proof.
  intros (chain & acked & r & _ & Hd) ->. apply list_elem_of_fmap. exists ("identity", own_file (MarshalIdentity id)).
  split; [done|]. apply elem_of_map_to_list. apply Hd.
Qed.

(** A directory in use is never taken over by a new queue. *)
Lemma create_refused accepted env path id' source fs x fs' :
  version_ok id accepted (fs_seen fs) → Forall (version_ok id accepted) (versions fs) →
  createQueue env path id' source fs = (x, fs') → x = None ∧ Forall (version_ok id accepted) (versions fs').
Proof.
  intros (chain & acked & r & Hpre & Hd) HV Ho. unfold createQueue, open in Ho.
  destruct (_ != 64); [by injection Ho as <- <-|]. destruct (_ != source); [by injection Ho as <- <-|].
  destruct (_ || _); [by injection Ho as <- <-|]. destruct (_ || _); [by injection Ho as <- <-|].
  destruct (open_lock fs) as [lock fs1] eqn:Hlk.
  apply (open_lock_ok accepted chain acked r) in Hlk as (V1 & D1 & _ & _ & _); [|done..].
  destruct lock as [lock|]; [|by injection Ho as <- <-]. destruct (_ || _); [by injection Ho as <- <-|].
  destruct (call fs1) as [bad fs2] eqn:Hc. apply call_same in Hc as [S2 _]. pose proof S2 as (_ & E2 & _).
  rewrite <- (same_versions _ _ S2) in V1. destruct (bad || _); [by injection Ho as <- <-|].
  destruct (bool_decide_reflect ((map_to_list (fs_seen fs2)).*1 = ["lock"])) as [Hn|]; cbn [negb] in Ho; [|by injection Ho as <- <-].
  exfalso. assert (Hin : "identity" ∈ (map_to_list (fs_seen fs2)).*1).
  { rewrite E2. apply (version_names accepted); [by eexists _, _, _|done]. }
  rewrite Hn in Hin. apply list_elem_of_singleton in Hin. done.
Qed.
End Recovery.

(** ** All histories *)

Lemma take_bytes_size n s : slen (take_bytes n s) ≤ slen s.
Proof.
  unfold take_bytes, slen. generalize (Z.to_nat n) as k. induction s as [|c s IH]; intros [|k]; cbn; try lia.
  specialize (IH k). lia.
Qed.

Section Histories.
Context `{U : UuidPkg} `{P : Platform} `{E : Ed25519} `{C : PendingCodec} `{I : QueueCodec}.
Context `{HC : !PendingCodecLaws} `{HE : !Ed25519Laws} `{HI : !QueueCodecLaws}.

Section System.
Context (id : identity) (Hvalid : valid_identity id = true).

Record sys_ok (s : Sys) : Prop := {
  sk_versions : Forall (version_ok id (sy_accepted s)) (versions (sy_fs s));
  sk_queue : ∀ q, sy_queue s = Some q → q_closed q = false → q_failed q = false →
    ∃ chain acked, open_ok id (sy_accepted s) q (fs_seen (sy_fs s)) chain acked }.

Lemma sk_seen s : sys_ok s → version_ok id (sy_accepted s) (fs_seen (sy_fs s)).
Proof. intros [HV _]. unfold versions in HV. apply Forall_app in HV as [_ HV]. by apply Forall_inv in HV. Qed.

(** Operations that keep the directory and what [open_ok] depends on. *)
Lemma open_same accepted q q' d chain acked :
  q_identity q' = q_identity q → q_files q' = q_files q → q_bytes q' = q_bytes q → q_sequence q' = q_sequence q →
  q_hash q' = q_hash q → q_receipt q' = q_receipt q → q_key q' = q_key q →
  open_ok id accepted q d chain acked → open_ok id accepted q' d chain acked.
Proof. intros E1 E2 E3 E4 E5 E6 E7 []. split; rewrite ?E1, ?E2, ?E3, ?E4, ?E5, ?E6, ?E7; done. Qed.

Lemma on_queue_ok f s :
  sys_ok s →
  (∀ q out q' fs', sy_queue s = Some q → f q (sy_fs s) = (out, q', fs') →
    let accepted' := sy_accepted s ++ match out with Some wire => [wire] | None => [] end in
    Forall (version_ok id accepted') (versions fs') ∧
    (q_closed q' = false → q_failed q' = false →
      ∃ chain acked, open_ok id accepted' q' (fs_seen fs') chain acked)) →
  sys_ok (on_queue f s).
Proof.
  intros Hs Hf. unfold on_queue. destruct (sy_queue s) as [q|] eqn:Hq; [|done].
  destruct (f q (sy_fs s)) as [[out q'] fs'] eqn:Hfq. destruct (Hf q out q' fs' eq_refl Hfq) as [H1 H2].
  split; cbn; [done|]. intros q0 [= <-]. done.
Qed.

(** A field update that leaves the directory alone. *)
Lemma pure_ok (g : Queue → Queue) s :
  sys_ok s →
  (∀ q, q_closed (g q) = false → q_failed (g q) = false → q_closed q = false ∧ q_failed q = false ∧
    q_identity (g q) = q_identity q ∧ q_files (g q) = q_files q ∧ q_bytes (g q) = q_bytes q ∧
    q_sequence (g q) = q_sequence q ∧ q_hash (g q) = q_hash q ∧ q_receipt (g q) = q_receipt q ∧ q_key (g q) = q_key q) →
  sys_ok (on_queue (λ q fs, (None, g q, fs)) s).
Proof.
  intros Hs Hg. apply on_queue_ok; [done|]. intros q out q' fs' Hq [= <- <- <-]. rewrite app_nil_r.
  split; [apply Hs|]. intros Hc Hf. destruct (Hg q Hc Hf) as (Hc' & Hf' & ? & ? & ? & ? & ? & ? & ?).
  destruct (sk_queue s Hs q Hq Hc' Hf') as (chain & acked & Ho). exists chain, acked. by apply (open_same _ q).
Qed.

(** An [append] that refuses a closed or failed queue changes nothing. *)
Lemma append_refused fresh rand r q fs : q_closed q || q_failed q = true → append fresh rand r q fs = (None, q, fs).
Proof. unfold append. by intros ->. Qed.

Lemma append_closed fresh rand r q fs out q' fs' :
  append fresh rand r q fs = (out, q', fs') → q_closed q' = q_closed q.
Proof.
  unfold append. destruct (_ || _ || _); [by intros [= <- <- <-]|]. destruct (_ && _); [by intros [= <- <- <-]|].
  destruct (_ && _); [by intros [= <- <- <-]|]. destruct fresh; [|by intros [= <- <- <-]].
  destruct (SealGatewayPending _ _ _ _); [|by intros [= <- <- <-]]. destruct (_ <? _); [by intros [= <- <- <-]|].
  destruct (atomic _ _ fs) as [[] ?]; by intros [= <- <- <-].
Qed.

Lemma append_sys fresh rand r q fs out q' fs' s :
  sys_ok s → sy_fs s = fs → (q_closed q = false → q_failed q = false → ∃ chain acked, open_ok id (sy_accepted s) q (fs_seen fs) chain acked) →
  append fresh rand r q fs = (out, q', fs') →
  let accepted' := sy_accepted s ++ match out with Some wire => [wire] | None => [] end in
  Forall (version_ok id accepted') (versions fs') ∧
  (q_closed q' = false → q_failed q' = false → ∃ chain acked, open_ok id accepted' q' (fs_seen fs') chain acked).
Proof using HC HE.
  intros Hs <- Hq Ha. destruct (q_closed q || q_failed q) eqn:Hcf.
  - rewrite append_refused in Ha by done. injection Ha as <- <- <-. cbv zeta. rewrite app_nil_r. split; [apply Hs|].
    intros H1 H2. by rewrite H1, H2 in Hcf.
  - apply orb_false_iff in Hcf as [Hc Hf]. destruct (Hq Hc Hf) as (chain & acked & Ho).
    destruct (append_ok id _ _ _ _ _ _ _ _ _ _ _ Ho (sk_versions s Hs) Ha) as [H1 H2]. split; [done|].
    intros _ Hf'. destruct (H2 Hf') as [chain' H3]. eauto.
Qed.

Lemma open_ok_lock accepted q d chain acked :
  open_ok id accepted q d chain acked → open_ok id accepted q (<["lock" := own_file ""]> d) chain acked.
Proof.
  intros Ho. split; try apply Ho.
  - apply dir_ok_lock, Ho.
  - rewrite lookup_insert_ne by done. apply Ho.
  - intros i Hi. rewrite lookup_insert_ne; [by apply (oo_clean _ _ _ _ _ _ Ho)|]. symmetry. apply name_of_ne. clear. set_solver.
Qed.

(** While the lock is held elsewhere, opening only makes sure it exists. *)
Lemma open_locked env path id' key create fs x fs' :
  en_flock env = false → open env path id' key create fs = (x, fs') →
  x = None ∧ (fs_seen fs' = fs_seen fs ∨ fs_seen fs' = <["lock" := own_file ""]> (fs_seen fs)).
Proof.
  intros Hfl Ho. unfold open in Ho. destruct (negb _ || _ || _); [injection Ho as <- <-; auto|].
  destruct (_ || _); [injection Ho as <- <-; auto|]. destruct (open_lock fs) as [lock fs1] eqn:Hlk.
  assert (Hs : fs_seen fs1 = fs_seen fs ∨ fs_seen fs1 = <["lock" := own_file ""]> (fs_seen fs)).
  { unfold open_lock in Hlk. destruct (call fs) as [bad fs0] eqn:Hc. apply call_same in Hc as [(_ & E0 & _) _].
    destruct bad; [injection Hlk as <- <-; auto|]. destruct (_ !! "lock"); injection Hlk as <- <-; [auto|].
    right. cbn. by rewrite E0. }
  destruct lock as [lock|]; [|injection Ho as <- <-; auto]. rewrite Hfl in Ho. cbn [negb] in Ho.
  rewrite orb_true_r in Ho. injection Ho as <- <-. auto.
Qed.

Lemma opened_ok x fs' s :
  sys_ok s → Forall (version_ok id (sy_accepted s)) (versions fs') →
  (∀ q, x = Some q → ∃ chain acked, open_ok id (sy_accepted s) q (fs_seen fs') chain acked) →
  (lock_free s = false → fs_seen fs' = fs_seen (sy_fs s) ∨ fs_seen fs' = <["lock" := own_file ""]> (fs_seen (sy_fs s))) →
  sys_ok (opened (x, fs') s).
Proof.
  intros Hs HV Ho Hn. unfold opened. split; cbn; [done|]. destruct x as [q|]; [intros q' [= <-] _ _; by apply Ho|].
  intros q Hq Hc Hf. destruct (sk_queue s Hs q Hq Hc Hf) as (chain & acked & Hok). exists chain, acked.
  destruct Hn as [-> | ->]; [unfold lock_free; by rewrite Hq|done|]. by apply open_ok_lock.
Qed.

Lemma crash_ok accepted v n fs :
  Forall (version_ok id accepted) (versions fs) → Forall (version_ok id accepted) (versions (crash v n fs)).
Proof.
  intros HV. unfold crash, versions at 1. cbn. constructor; [|constructor].
  set (d := default (fs_seen fs) (versions fs !! v)). assert (Hd : version_ok id accepted d).
  { rewrite Forall_forall in HV. apply HV. unfold d. destruct (versions fs !! v) as [d'|] eqn:Hv; cbn; [by eapply list_elem_of_lookup_2|].
    unfold versions. apply elem_of_app. right. left. }
  destruct Hd as (chain & acked & r & Hpre & Hd). exists chain, acked, r. split; [done|].
  apply (dir_ok_agree _ _ _ _ d); [done| |].
  - intros name Hne. by apply lookup_alter_ne.
  - intros f. rewrite lookup_alter_eq. destruct (d !! tmp_name) as [f'|] eqn:Hf; [|done]. intros [= <-]. cbn.
    pose proof (do_tmp _ _ _ _ _ Hd f' Hf). pose proof (take_bytes_size n (fi_data f')). lia.
Qed.

Lemma qstep_ok faults e s : sys_ok s → sys_ok (qstep faults e s).
Proof using HC HE HI Hvalid.
  intros Hs0. unfold qstep. set (fs := with_faults faults (sy_fs s)).
  assert (Hs : sys_ok (mkSys fs (sy_queue s) (sy_accepted s))) by (split; apply Hs0). clearbody fs.
  set (s1 := mkSys fs _ _) in *. destruct e.
  - apply on_queue_ok; [done|]. intros q out q' fs' Hq Ha. unfold Append in Ha.
    destruct (q_frozen q || _).
    + injection Ha as <- <- <-. rewrite app_nil_r. split; [apply Hs|]. by apply (sk_queue s1 Hs).
    + eapply (append_sys _ _ _ q _ _ _ _ s1); [done|reflexivity| |done]. by apply (sk_queue s1 Hs).
  - apply on_queue_ok; [done|]. intros q out q' fs' Hq Ha. unfold Finish in Ha.
    destruct (_ || _ || _ || _).
    + injection Ha as <- <- <-. rewrite app_nil_r. split; [apply Hs|]. by apply (sk_queue s1 Hs).
    + eapply (append_sys _ _ _ (set_finished q) _ _ _ _ s1); [done|reflexivity| |done]. intros Hc Hf.
      destruct (sk_queue s1 Hs q Hq Hc Hf) as (chain & acked & Ho). exists chain, acked. by apply (open_same _ q).
  - apply (pure_ok (λ q, (ClaimProducer binding source confirmation q).2)); [done|]. intros q. unfold ClaimProducer.
    destruct (_ || _ || _ || _); done.
  - apply (pure_ok (λ q, (ClaimGlobalAuditProducer origin source confirmation q).2)); [done|]. intros q.
    unfold ClaimGlobalAuditProducer. destruct (_ || _ || _ || _ || _); done.
  - by apply (pure_ok Freeze).
  - apply on_queue_ok; [done|]. intros q out q' fs' Hq Ha. destruct (Next q _) as [[o q1] fs1] eqn:Hn.
    injection Ha as <- <- <-. apply Next_ok in Hn as [S1 Hq1]. rewrite app_nil_r, (same_versions _ _ S1).
    split; [apply Hs|]. intros Hc Hf. destruct Hq1 as [->|Hq1]; [|congruence]. pose proof S1 as (_ & -> & _).
    by apply (sk_queue s1 Hs).
  - apply on_queue_ok; [done|]. intros q out q' fs' Hq Ha. destruct (Acknowledge wire q _) as [[o q1] fs1] eqn:Hn.
    injection Ha as <- <- <-. rewrite app_nil_r. destruct (q_closed q || q_failed q) eqn:Hcf.
    + unfold Acknowledge in Hn. rewrite Hcf in Hn. injection Hn as <- <- <-. split; [apply Hs|]. by apply (sk_queue s1 Hs).
    + apply orb_false_iff in Hcf as [Hc Hf]. destruct (sk_queue s1 Hs q Hq Hc Hf) as (chain & acked & Ho).
      destruct (Acknowledge_ok id _ _ _ _ _ _ _ _ _ Ho (sk_versions s1 Hs) Hn) as [H1 H2]. split; [done|].
      intros _ Hf'. destruct (H2 Hf') as [acked' H3]. eauto.
  - apply (pure_ok Close); [done|]. intros q. unfold Close. destruct (q_closed q) eqn:Hc; [by rewrite Hc|done].
  - split; cbn; [apply Hs|done].
  - split; cbn; [apply crash_ok, Hs|done].
  - destruct (createQueue _ _ _ _ _) as [x fs'] eqn:Ho. pose proof Ho as Ho'.
    apply (create_refused id (sy_accepted s1)) in Ho as [-> HV]; [|apply (sk_seen s1 Hs)|apply Hs].
    apply (opened_ok _ _ s1); [done|done|done|]. intros Hl. unfold createQueue in Ho'.
    destruct (_ != 64); [injection Ho' as <-; auto|]. destruct (_ != source); [injection Ho' as <-; auto|].
    eapply open_locked in Ho' as [_ ?]; [done|]. cbn. by rewrite Hl, andb_false_r.
  - destruct (open _ _ _ _ _ _) as [x fs'] eqn:Ho. destruct (sk_seen s1 Hs) as (chain & acked & r & Hpre & Hd).
    pose proof (open_recover_ok id Hvalid _ chain acked r _ _ _ _ _ _ Hd Hpre (sk_versions s1 Hs) Ho) as [HV Hq].
    apply (opened_ok _ _ s1); [done|done| |].
    + intros q Hx. destruct (Hq q Hx) as (Hok & _). eauto.
    + intros Hl. eapply open_locked in Ho as [_ ?]; [done|]. cbn. by rewrite Hl, andb_false_r.
Qed.

Lemma run_queue_ok es s : sys_ok s → sys_ok (run_queue es s).
Proof using HC HE HI Hvalid.
  revert s. induction es as [|[faults e] es IH]; intros s Hs; [done|]. cbn. by apply IH, qstep_ok.
Qed.
End System.

(** *** A new queue *)

Lemma valid_limits id :
  valid_identity id = true → 1 ≤ id_MaxRecords id ∧ MaxGatewayPendingSize + reservedBytes ≤ id_MaxBytes id.
Proof. unfold valid_identity. intros Hv. bool_prop. done. Qed.

Lemma fresh_dir_ok id :
  valid_identity id = true →
  dir_ok id [] 0 zero_receipt (<["identity" := own_file (MarshalIdentity id)]> {["lock" := own_file ""]}).
Proof.
  intros Hv. destruct (valid_limits id Hv) as [H1 H2]. split; try done; cbn; try lia.
  - by right.
  - intros name f Hf. apply lookup_insert_Some in Hf as [[<- _]|[_ Hf]]; [left; clear; set_solver|].
    apply lookup_singleton_Some in Hf as [<- _]. left. clear. set_solver.
  - unfold stored_bytes, MaxGatewayPendingSize, reservedBytes in *. cbn in *. lia.
Qed.

Lemma create_start env path id0 source faults q fs :
  createQueue env path id0 source (mkFs [] ∅ faults) = (Some q, fs) →
  valid_identity (q_identity q) = true ∧ sys_ok (q_identity q) (mkSys fs (Some q) []).
Proof.
  intros Hc. unfold createQueue in Hc. destruct (slen source != 64); [done|]. destruct (_ != source); [done|].
  set (id := mkIdentity _ _ _ _ _ _ _) in Hc. unfold open in Hc.
  destruct (valid_identity id) eqn:Hv; cbn [negb orb] in Hc; [|done]. destruct (_ || _); [done|]. destruct (_ || _); [done|].
  destruct (open_lock _) as [lock fs1] eqn:Hl. destruct lock as [lock|]; [|done].
  assert (Hs1 : fs_seen fs1 = {["lock" := own_file ""]}).
  { unfold open_lock in Hl. destruct (call _) as [bad fs0] eqn:Hcl. apply call_same in Hcl as [(_ & E0 & _) _].
    destruct bad; [done|]. change (fs_seen (mkFs _ ∅ _)) with (∅ : Dir) in E0. rewrite E0, lookup_empty in Hl.
    injection Hl as _ <-. cbn. by rewrite E0. }
  destruct (_ || _ || _); [done|]. destruct (call fs1) as [bad fs2] eqn:Hcl. apply call_same in Hcl as [(_ & E2 & _) _].
  destruct (bad || _); [done|]. destruct (_ != ["lock"]); [done|].
  destruct (atomic _ _ fs2) as [ok fs3] eqn:Ha. destruct ok; [|done]. injection Hc as <- <-.
  apply (atomic_spec (λ _, True)) in Ha as (_ & O3 & _); [|by apply Forall_true|done].
  destruct (O3 eq_refl) as (_ & Hold & Hseen). rewrite E2, Hs1 in Hseen.
  assert (Hd : fs_seen fs3 = <["identity" := own_file (MarshalIdentity id)]> {["lock" := own_file ""]}) by done.
  change (q_identity (new_queue id source true)) with id. split; [done|]. pose proof (fresh_dir_ok id Hv) as Hok.
  split; cbn.
  - unfold versions. rewrite Hold, Hd. constructor; [|constructor]. by exists [], 0%nat, zero_receipt.
  - intros q [= <-] _ _. exists [], 0%nat. rewrite Hd. split; try done. intros i ?; lia.
Qed.

(** *** Properties of every history *)

Section Claims.
Context (env : Environment) (path : string) (id0 : identity) (source : string) (faults0 : list bool) (q0 : Queue) (fs0 : Fs).
Hypothesis Hcreate : createQueue env path id0 source (mkFs [] ∅ faults0) = (Some q0, fs0).

Definition after (es : list (list bool * qevent)) : Sys := run_queue es (mkSys fs0 (Some q0) []).

Lemma after_ok es : sys_ok (q_identity q0) (after es).
Proof using HC HE HI Hcreate. destruct (create_start _ _ _ _ _ _ _ Hcreate). by apply run_queue_ok. Qed.

(** C2: no accepted record is lost. After any sequence of operations, failing
    system calls, exits, crashes and recoveries, every record whose append
    returned nil is, in every directory a crash could leave, either still
    there byte for byte, or covered by a stored receipt that verifies under the
    confirmation key of the control plane. *)
Theorem queue_never_loses (es : list (list bool * qevent)) (d : Dir) (i : nat) (wire : string) :
  d ∈ versions (sy_fs (after es)) → sy_accepted (after es) !! i = Some wire →
  d !! recordName (Z.of_nat i + 1) = Some (own_file wire) ∨
  ∃ raw r, d !! "receipt" = Some (own_file raw) ∧
    VerifyGatewayPendingReceipt raw (id_Confirmation (q_identity q0)) = Some r ∧ Z.of_nat i + 1 ≤ rc_Sequence r.
Proof using HC HE HI Hcreate.
  intros Hin Hw. pose proof (sk_versions _ _ (after_ok es)) as HV. rewrite Forall_forall in HV.
  destruct (HV d Hin) as (chain & acked & r & Hpre & Hd).
  assert (Hc : chain !! i = Some wire) by (by eapply prefix_lookup_Some).
  destruct (decide (acked ≤ i)%nat) as [Hle|Hgt]; [left; by apply (do_live _ _ _ _ _ Hd)|right].
  pose proof (do_file _ _ _ _ _ Hd) as Hf. pose proof (receipt_sequence _ _ _ _ (do_receipt _ _ _ _ _ Hd)) as Hs.
  unfold receipt_file in Hf. destruct acked as [|j]; [lia|]. destruct Hf as (raw & Hraw & Hver).
  exists raw, r. split_and!; [done..|lia].
Qed.

Definition total_size (d : Dir) : Z := zsum ((λ kf, slen (fi_data kf.2)) <$> map_to_list d).

Lemma total_size_names d : total_size d = zsum (file_size d <$> (map_to_list d).*1).
Proof.
  unfold total_size. rewrite <- list_fmap_compose. f_equal. apply list_fmap_ext. intros _ [x f] Hx%list_elem_of_lookup_2.
  apply elem_of_map_to_list in Hx. cbn. unfold file_size. by rewrite Hx.
Qed.

(** The queue stays within its limits. At every moment, crashes included,
    all the files of the directory together hold at most [MaxBytes] bytes, the
    temporary file of a write included, and there are at most [MaxRecords]
    records. *)
Theorem queue_bounded (es : list (list bool * qevent)) (d : Dir) :
  d ∈ versions (sy_fs (after es)) →
  total_size d ≤ id_MaxBytes (q_identity q0) ∧
  Z.of_nat (length (filter (λ x, HasSuffix x ".record" = true) (map_to_list d).*1)) ≤ id_MaxRecords (q_identity q0).
Proof using HC HE HI Hcreate.
  intros Hin. destruct (create_start _ _ _ _ _ _ _ Hcreate) as [Hv _].
  pose proof (sk_versions _ _ (after_ok es)) as HV. rewrite Forall_forall in HV.
  destruct (HV d Hin) as (chain & acked & r & Hpre & Hd). pose proof (chain_length _ _ (do_chain _ _ _ _ _ Hd)) as Hl.
  pose proof (names_perm d (length chain) Hl (do_other _ _ _ _ _ Hd)) as Hp. split.
  - rewrite total_size_names, (zsum_perm _ (file_size d <$> dir_names d (length chain))) by (by rewrite Hp).
    by eapply total_bytes.
  - rewrite Hp. unfold dir_names. rewrite filter_app, length_app, (filter_none _ (filter _ _)).
    + rewrite filter_all; [rewrite length_fmap; cbn [length]; rewrite Nat.add_0_r; apply (do_records _ _ _ _ _ Hd)|].
      intros x Hx. apply list_elem_of_fmap in Hx as (i & -> & Hi). apply list_elem_of_filter in Hi as [_ [_ Hi]%elem_of_seq].
      apply parse_recordName. lia.
    + intros x Hx. apply list_elem_of_filter in Hx as [_ Hx]. unfold specials in Hx.
      repeat (apply elem_of_cons in Hx as [->|Hx]; [discriminate|]). by apply elem_of_nil in Hx.
Qed.
Lemma names_count id chain acked r d :
  dir_ok id chain acked r d → d !! tmp_name = None →
  Z.of_nat (length (map_to_list d).*1) ≤ id_MaxRecords id + 3.
Proof using HC.
  intros Hd Ht. pose proof (chain_length _ _ (do_chain _ _ _ _ _ Hd)) as Hl.
  rewrite (names_perm d (length chain) Hl (do_other _ _ _ _ _ Hd)). unfold dir_names.
  rewrite length_app, length_fmap. change (records_present d (length chain)) with (stored chain d).
  pose proof (do_records _ _ _ _ _ Hd). assert (length (filter (present d) specials) ≤ 3)%nat; [|lia].
  unfold specials. rewrite !filter_cons, filter_nil. rewrite (decide_False (P := present d tmp_name)).
  - repeat case_decide; cbn; lia.
  - unfold present. rewrite Ht. by intros [? ?].
Qed.

(** Opening the directory of an interrupted queue, when nothing fails. *)
Lemma open_succeeds id accepted chain acked r d env' path' :
  valid_identity id = true → dir_ok id chain acked r d → accepted `prefix_of` chain → d !! tmp_name = None →
  en_symlinks env' path' = Some path' → en_dir env' = true → en_flock env' = true → IsAbs path' = true →
  Clean path' = path' →
  ∃ q fs, open env' path' id "" false (mkFs [] d []) = (Some q, fs).
Proof using HC HI.
  intros Hv Hd Hpre Ht Hsym Hdir Hfl Habs Hclean. unfold open. rewrite Hv, Habs, Hsym, Hdir, Hfl.
  rewrite !bool_decide_eq_true_2 by done. cbn [negb orb].
  assert (HV : Forall (version_ok id accepted) (versions (mkFs [] d []))).
  { constructor; [|constructor]. by eexists _, _, _. }
  destruct (open_lock _) as [lock fs1] eqn:Hl.
  apply (open_lock_ok id accepted chain acked r) in Hl as (V1 & D1 & T1 & Hlock & F1); [|done..].
  destruct (F1 eq_refl) as [Hne Hf1]. destruct Hlock as [->| ->]; [done|].
  cbn [private own_file fi_regular fi_private andb negb orb fi_data].
  unfold call. rewrite Hf1. cbn in T1. rewrite Ht in T1. pose proof (names_count _ _ _ _ _ D1 T1) as Hn.
  rewrite (bool_decide_eq_true_2 (slen "" = 0)) by done. rewrite (proj2 (Z.ltb_ge _ _)) by lia. cbn [negb orb].
  rewrite (read_own "identity" 4096 fs1 (MarshalIdentity id) Hf1 (do_identity _ _ _ _ _ D1) (MarshalIdentity_size id Hv)).
  rewrite bool_decide_eq_true_2 by done. cbn [negb].
  destruct (recover _ _ fs1) as [x fs'] eqn:Hr. eapply recover_ok in Hr as (_ & _ & Hsome); [|done..].
  destruct x as [q|]; [eauto|]. by destruct (Hsome Hf1 T1).
Qed.

(** C9: recovery succeeds and resumes exactly where the queue stopped. From any
    directory a crash can leave without a half-written temporary file,
    [Recover] returns a queue whose files are the records after the stored
    receipt, in order and byte for byte, with every accepted record among the
    acknowledged and the pending ones; the queue holds no key and is frozen, so
    it can only be drained. *)
Theorem queue_recovers (es : list (list bool * qevent)) (d : Dir) (env' : Environment) (path' : string) :
  d ∈ versions (sy_fs (after es)) → d !! tmp_name = None →
  en_symlinks env' path' = Some path' → en_dir env' = true → en_flock env' = true → IsAbs path' = true →
  Clean path' = path' →
  ∃ q fs chain acked,
    open env' path' (q_identity q0) "" false (mkFs [] d []) = (Some q, fs) ∧
    sy_accepted (after es) `prefix_of` chain ∧ rc_Sequence (q_receipt q) = Z.of_nat acked ∧
    q_files q = (λ i, recordName (Z.of_nat i + 1)) <$> seq acked (length chain - acked) ∧
    (∀ i wire, (acked ≤ i)%nat → chain !! i = Some wire →
      fs_seen fs !! recordName (Z.of_nat i + 1) = Some (own_file wire)) ∧
    q_frozen q = true ∧ q_key q = "".
Proof using HC HE HI Hcreate.
  intros Hin Ht Hsym Hdir Hfl Habs Hclean. destruct (create_start _ _ _ _ _ _ _ Hcreate) as [Hv _].
  pose proof (sk_versions _ _ (after_ok es)) as HV. rewrite Forall_forall in HV.
  destruct (HV d Hin) as (chain & acked & r & Hpre & Hd).
  destruct (open_succeeds _ _ _ _ _ _ env' path' Hv Hd Hpre Ht Hsym Hdir Hfl Habs Hclean) as (q & fs & Ho).
  pose proof Ho as Ho'. assert (HV' : Forall (version_ok (q_identity q0) (sy_accepted (after es))) (versions (mkFs [] d []))).
  { constructor; [|constructor]. by eexists _, _, _. }
  destruct (open_recover_ok _ Hv _ chain acked r _ _ _ (mkFs [] d []) _ _ Hd Hpre HV' Ho') as [_ Hq].
  destruct (Hq q eq_refl) as (Hok & Heq & _). exists q, fs, chain, acked. split_and!; try done.
  - apply (receipt_sequence _ _ _ _ (do_receipt _ _ _ _ _ (oo_dir _ _ _ _ _ _ Hok))).
  - apply (oo_files _ _ _ _ _ _ Hok).
  - intros i wire. apply (do_live _ _ _ _ _ (oo_dir _ _ _ _ _ _ Hok)).
  - by rewrite Heq.
  - by rewrite Heq.
Qed.
(** The acknowledgement the control plane signs for a committed record:
    [ReplayGatewayPending] and [ReplayGatewayGlobalAudit], with the runtime of
    the record's own binding. *)
Definition commit_receipt (wire : string) (h : GatewayPendingHeader) : GatewayPendingReceipt :=
  if ph_AuditOrigin h != no_origin
  then mkReceipt uuid_Nil (AuditRuntimeID (ph_AuditOrigin h)) (ph_Sequence h) (ph_RecordID h) (GatewayPendingHash wire)
         (OriginID (ph_AuditOrigin h))
  else mkReceipt (AdmissionID (ph_Binding h)) (RuntimeID (ph_Binding h)) (ph_Sequence h) (ph_RecordID h)
         (GatewayPendingHash wire) uuid_Nil.

Lemma commit_receipt_valid `{!PlatformLaws, !UuidLaws} wire h :
  ValidateHeader h = true → ph_Sequence h < max_int64 → valid_receipt (commit_receipt wire h) = true.
Proof.
  intros Hv Hs. unfold ValidateHeader in Hv. bool_prop. unfold commit_receipt, valid_receipt.
  assert (Hrec : valid_v7 (ph_RecordID h) = true) by done. assert (1 ≤ ph_Sequence h) by done.
  pose proof (pending_hash_valid wire) as Hh.
  destruct (ph_AuditOrigin h != no_origin); cbn [negb andb orb] in *;
    cbn [rc_AuditOriginID rc_AdmissionID rc_RuntimeID rc_RecordID rc_Sequence rc_WireHash] in *; bool_prop.
  - assert (Ho : ValidateAuditBinding (ph_AuditOrigin h) = true) by done. unfold ValidateAuditBinding in Ho. cbn in Ho. bool_prop.
    assert (Hne : OriginID (ph_AuditOrigin h) ≠ uuid_Nil) by (by apply valid_v7_not_nil).
    rewrite (bool_decide_eq_false_2 _ Hne), bool_decide_eq_true_2 by done. cbn [negb andb forallb].
    rewrite (proj2 (Z.ltb_lt 0 _)), (proj2 (Z.ltb_lt _ max_int64)), Hrec, Hh by lia.
    repeat match goal with Hid : valid_v7 _ = true |- _ => rewrite Hid; clear Hid end. done.
  - assert (Hb : ValidateBinding (ph_Binding h) = true) by done. unfold ValidateBinding in Hb. cbn in Hb. bool_prop.
    rewrite bool_decide_eq_true_2 by done. cbn [negb andb forallb].
    rewrite (proj2 (Z.ltb_lt 0 _)), (proj2 (Z.ltb_lt _ max_int64)), Hrec, Hh by lia.
    repeat match goal with Hid : valid_v7 _ = true |- _ => rewrite Hid; clear Hid end. done.
Qed.

Lemma commit_receipt_matches q wire h : inspect q wire = Some h → matchesReceipt q (commit_receipt wire h) = true.
Proof.
  unfold inspect. destruct (InspectGatewayPending _ _) as [h'|]; [|done]. destruct (_ || _) eqn:Hg; [done|].
  intros [= ->]. bool_prop. unfold matchesReceipt, commit_receipt. rewrite <- H, <- H0.
  destruct (ph_AuditOrigin h != no_origin); cbn; by rewrite !bool_decide_eq_true_2.
Qed.

(** The queue after the control plane acknowledges the head of [q]. *)
Lemma acknowledge_head accepted q fs chain acked wire h ack r rest :
  let id := q_identity q0 in
  open_ok id accepted q (fs_seen fs) chain acked → q_closed q = false → q_failed q = false →
  q_files q = name_of acked :: rest → chain !! acked = Some wire → inspects id wire = Some h →
  r = commit_receipt wire h → VerifyGatewayPendingReceipt ack (id_Confirmation id) = Some r →
  fs_faults fs = [] →
  ∃ q' fs', Acknowledge ack q fs = (true, q', fs') ∧ q_files q' = rest ∧ q_receipt q' = r ∧
    fs_seen fs' !! name_of acked = None.
Proof using HC.
  intros id Ho Hc Hf Hfiles Hw Hh Hr Hv Hff. pose proof (oo_dir _ _ _ _ _ _ Ho) as Hd.
  destruct (do_chain _ _ _ _ _ Hd acked wire Hw) as (h' & Hh' & Hs & _). rewrite Hh in Hh'. injection Hh' as <-.
  pose proof (receipt_sequence _ _ _ _ (do_receipt _ _ _ _ _ Hd)) as Hacked.
  assert (Hi : inspect q wire = Some h) by (by rewrite (inspect_id id _ _ (oo_id _ _ _ _ _ _ Ho))).
  assert (Hrs : rc_Sequence r = ph_Sequence h ∧ rc_RecordID r = ph_RecordID h ∧ rc_WireHash r = GatewayPendingHash wire).
  { rewrite Hr. unfold commit_receipt. by destruct (_ != _). } destruct Hrs as (Hr1 & Hr2 & Hr3).
  pose proof (inspects_valid _ _ _ Hh) as [_ Hsz]. pose proof (do_live _ _ _ _ _ Hd acked wire ltac:(lia) Hw) as Hfile.
  assert (Hm : matchesReceipt q r = true) by (rewrite Hr; by apply commit_receipt_matches).
  unfold Acknowledge. rewrite Hc, Hf, (oo_id _ _ _ _ _ _ Ho). fold id. rewrite Hv. cbn [orb].
  rewrite Hm. cbn [negb].
  rewrite (bool_decide_eq_false_2 (r = q_receipt q)) by (intros Heq; rewrite Heq in Hr1; lia). rewrite Hfiles.
  rewrite (bool_decide_eq_true_2 (rc_Sequence r = _)) by lia. cbn [negb].
  rewrite (read_own _ _ _ _ Hff Hfile Hsz), Hi, Hr1, Hr2, Hr3, !bool_decide_eq_true_2 by done. cbn [negb orb].
  destruct (atomic "receipt" ack fs) as [ok1 fs1] eqn:Ha.
  apply (atomic_spec (λ _, True)) in Ha as (_ & O1 & F1); [|by apply Forall_true|done].
  destruct (F1 Hff (oo_tmp _ _ _ _ _ _ Ho)) as [-> Hf1]. destruct (O1 eq_refl) as (_ & _ & E1). cbn [negb].
  assert (Hstill : fs_seen fs1 !! name_of acked = Some (own_file wire)).
  { rewrite E1, lookup_replace by (apply name_of_ne; clear; set_solver).
    rewrite decide_False by (symmetry; apply name_of_ne; clear; set_solver). done. }
  destruct (Remove _ fs1) as [ok2 fs2] eqn:Hrm.
  apply (Remove_spec (λ _, True)) in Hrm as (_ & O2 & F2); [|by apply Forall_true|done].
  destruct (F2 Hf1 ltac:(by eexists)) as [-> Hf2]. specialize (O2 eq_refl). cbn [negb].
  destruct (sync_dir fs2) as [ok3 fs3] eqn:Hsy.
  apply (sync_spec (λ _, True)) in Hsy as (_ & E3 & _ & F3); [|by apply Forall_true].
  destruct (F3 Hf2) as [-> _]. cbn [negb]. eexists _, _. split; [reflexivity|]. split_and!; [done..|].
  rewrite E3, O2. apply lookup_delete_eq.
Qed.

(** Draining makes progress. When nothing fails, an open queue with pending
    records hands out the oldest one, the control plane can sign a receipt for
    it, and [Acknowledge] of that receipt removes exactly this record and
    advances to the next. *)
Theorem replay_progress `{!PlatformLaws, !UuidLaws} (es : list (list bool * qevent)) (q : Queue) (name : string)
    (rest : list string) (key : string) :
  sy_queue (after es) = Some q → q_closed q = false → q_failed q = false → q_files q = name :: rest →
  slen key = 64 → Public key = id_Confirmation (q_identity q0) →
  let fs := with_faults [] (sy_fs (after es)) in
  ∃ wire h ack q' fs',
    Next q fs = (Ok (Some wire), q, fs) ∧ inspect q wire = Some h ∧
    SignGatewayPendingReceipt (commit_receipt wire h) key = Some ack ∧
    Acknowledge ack q fs = (true, q', fs') ∧ q_files q' = rest ∧ fs_seen fs' !! name = None ∧
    rc_Sequence (q_receipt q') = rc_Sequence (q_receipt q) + 1.
Proof using HC HE HI Hcreate.
  intros Hq Hc Hf Hfiles Hk Hpub fs. destruct (sk_queue _ _ (after_ok es) q Hq Hc Hf) as (chain & acked & Ho).
  destruct (open_head _ _ _ _ _ _ _ _ Ho Hfiles) as (wire & h & Hw & -> & _ & Hfile & Hh & Hs & Hp).
  pose proof (oo_dir _ _ _ _ _ _ Ho) as Hd. pose proof (receipt_sequence _ _ _ _ (do_receipt _ _ _ _ _ Hd)) as Hacked.
  pose proof (inspects_valid _ _ _ Hh) as [Hval Hsz].
  assert (Hi : inspect q wire = Some h) by (by rewrite (inspect_id _ _ _ (oo_id _ _ _ _ _ _ Ho))).
  assert (Hmax : ph_Sequence h < max_int64).
  { pose proof (chain_length _ _ (do_chain _ _ _ _ _ Hd)). apply lookup_lt_Some in Hw. lia. }
  pose proof (commit_receipt_valid wire h Hval Hmax) as Hrv.
  destruct (SignGatewayPendingReceipt (commit_receipt wire h) key) as [ack|] eqn:Hsig.
  2: { unfold SignGatewayPendingReceipt in Hsig. by rewrite Hrv, bool_decide_eq_true_2 in Hsig. }
  pose proof (Sign_receipt_verified _ _ _ Hsig) as Hver. rewrite Hpub in Hver.
  destruct (acknowledge_head _ q fs chain acked wire h ack _ rest Ho Hc Hf Hfiles Hw Hh eq_refl Hver) as (q' & fs' & Hack & Hrest & Hrc & Hgone);
    [done|].
  exists wire, h, ack, q', fs'. split_and!; try done.
  - unfold Next. rewrite Hc, Hf, Hfiles. cbn [orb].
    rewrite (read_own _ _ fs _ eq_refl Hfile Hsz), Hi, Hs, Hacked, Hp.
    rewrite (bool_decide_eq_true_2 (Z.of_nat acked + 1 = _)) by done. rewrite bool_decide_eq_true_2; [done|].
    unfold receiptHash. rewrite Hacked. pose proof (do_receipt _ _ _ _ _ Hd) as Hrf. destruct acked as [|j]; [done|].
    rewrite bool_decide_eq_false_2 by lia. symmetry. by apply (receipt_link (q_identity q0)).
  - rewrite Hrc, Hacked. unfold commit_receipt. destruct (_ != _); cbn; lia.
Qed.
End Claims.

(** *** Recovery of an arbitrary directory *)

Definition hash_before (r : GatewayPendingReceipt) (wires : list string) (i : nat) : string :=
  match i with O => receiptHash r | S j => GatewayPendingHash (default "" (wires !! j)) end.

(** The files of [q] in [d]: a chain of authenticated records that starts after
    the receipt. *)
Record linked (q : Queue) (d : Dir) (wires : list string) : Prop := {
  lk_files : q_files q = (λ i, recordName (rc_Sequence (q_receipt q) + Z.of_nat i + 1)) <$> seq 0 (length wires);
  lk_sequence : q_sequence q = rc_Sequence (q_receipt q) + Z.of_nat (length wires);
  lk_hash : q_hash q = hash_before (q_receipt q) wires (length wires);
  lk_records : ∀ i wire, wires !! i = Some wire → ∃ f h,
    d !! recordName (rc_Sequence (q_receipt q) + Z.of_nat i + 1) = Some f ∧ fi_data f = wire ∧ private f = true ∧
    InspectGatewayPending wire (id_Source (q_identity q)) = Some h ∧
    ph_Binding h = id_Binding (q_identity q) ∧ ph_AuditOrigin h = id_AuditOrigin (q_identity q) ∧
    ph_Sequence h = rc_Sequence (q_receipt q) + Z.of_nat i + 1 ∧ ph_PreviousHash h = hash_before (q_receipt q) wires i }.

Definition same_owner (q q' : Queue) : Prop :=
  q_identity q' = q_identity q ∧ q_receipt q' = q_receipt q ∧ q_key q' = q_key q ∧ q_frozen q' = q_frozen q.

Lemma linked_snoc q d wires name f h :
  linked q d wires → d !! name = Some f → private f = true → inspect q (fi_data f) = Some h →
  name = recordName (q_sequence q + 1) → ph_Sequence h = q_sequence q + 1 → ph_PreviousHash h = q_hash q →
  linked (set_position (q_files q ++ [name]) (q_bytes q + slen (fi_data f)) (q_sequence q + 1)
    (GatewayPendingHash (fi_data f)) q) d (wires ++ [fi_data f]).
Proof.
  intros Hl Hf Hp Hi Hn Hs Hh. pose proof (lk_sequence _ _ _ Hl) as Hq. split; cbn [q_files q_sequence q_hash q_receipt q_identity set_position].
  - rewrite length_app, seq_app, fmap_app, (lk_files _ _ _ Hl). cbn. rewrite Hn, Hq. done.
  - rewrite length_app. cbn. lia.
  - rewrite length_app, Nat.add_1_r. cbn. by rewrite list_lookup_middle.
  - intros i wire Hw. assert (Hb : (i ≤ length wires)%nat → hash_before (q_receipt q) (wires ++ [fi_data f]) i = hash_before (q_receipt q) wires i).
    { destruct i as [|j]; [done|]. intros Hle. cbn. by rewrite lookup_app_l by lia. }
    apply lookup_snoc_Some in Hw as [[Hlt Hw]|[-> <-]].
    + rewrite Hb by lia. by apply (lk_records _ _ _ Hl).
    + rewrite Hb by lia. rewrite <- Hq. exists f, h. rewrite <- Hn, <- (lk_hash _ _ _ Hl). unfold inspect in Hi.
      destruct (InspectGatewayPending _ _) as [h'|]; [|done]. destruct (_ || _) eqn:Hg; [done|]. injection Hi as ->. bool_prop. done.
Qed.

Lemma recover_record_sound name q acks fs q' acks' fs' wires :
  linked q (fs_seen fs) wires → recover_record name q acks fs = (Some (q', acks'), fs') →
  same_dirs fs fs' ∧ same_owner q q' ∧ ∃ wires', linked q' (fs_seen fs) wires'.
Proof.
  intros Hl Hr. unfold recover_record in Hr. destruct (_ || _); [done|]. destruct (Atoi _) as [seq|]; [|done].
  destruct (bool_decide_reflect (name = recordName seq)) as [Hn|]; cbn [negb] in Hr; [|done].
  destruct (read _ _ fs) as [raw fs1] eqn:Hrd. apply read_same in Hrd as HS. apply pair_equal_spec in Hr as [Hr <-].
  split; [done|]. destruct raw as [raw|]; [|done]. apply read_file in Hrd as (f & Hf & <- & Hp & _).
  destruct (inspect q (fi_data f)) as [h|] eqn:Hi; [|done].
  destruct (bool_decide_reflect (ph_Sequence h = seq)) as [Hs|]; cbn [negb] in Hr; [|done].
  destruct (_ <=? _).
  - destruct (_ && _); [done|]. injection Hr as <- <-. split; [done|]. eauto.
  - destruct (bool_decide_reflect (seq = q_sequence q + 1)) as [Hq|]; cbn [negb orb] in Hr; [|done].
    destruct (bool_decide_reflect (ph_PreviousHash h = q_hash q)) as [Hh|]; cbn [negb] in Hr; [|done].
    injection Hr as <- <-. split; [done|]. subst seq. rewrite Hq. eexists. eapply linked_snoc; try done; congruence.
Qed.

Lemma recover_records_sound names : ∀ q acks fs q' acks' fs' wires,
  linked q (fs_seen fs) wires → recover_records names q acks fs = (Some (q', acks'), fs') →
  same_dirs fs fs' ∧ same_owner q q' ∧ ∃ wires', linked q' (fs_seen fs) wires'.
Proof.
  induction names as [|name names IH]; intros q acks fs q' acks' fs' wires Hl Hr; cbn [recover_records] in Hr.
  - injection Hr as <- <- <-. split; [by split_and!|]. split; [by split_and!|eauto].
  - destruct (bool_decide _); [by eapply IH|]. destruct (recover_record name q acks fs) as [[[q1 acks1]|] fs1] eqn:H1; [|done].
    destruct (recover_record_sound _ _ _ _ _ _ _ _ Hl H1) as (S1 & (? & ? & ? & ?) & wires1 & L1). pose proof S1 as (_ & E1 & _).
    rewrite <- E1 in L1. destruct (IH _ _ _ _ _ _ _ L1 Hr) as (S2 & (? & ? & ? & ?) & wires2 & L2). rewrite E1 in L2.
    split; [by eapply same_trans|]. split; [|eauto]. unfold same_owner. split_and!; congruence.
Qed.

Lemma recover_receipt_sound id fs q fs' :
  recover_receipt (new_queue id "" false) fs = (Some q, fs') →
  same_dirs fs fs' ∧ linked q (fs_seen fs) [] ∧ q_identity q = id ∧ q_key q = "" ∧ q_frozen q = true ∧
  (q_receipt q = zero_receipt ∨ valid_receipt (q_receipt q) = true ∧ matchesReceipt q (q_receipt q) = true).
Proof.
  unfold recover_receipt. destruct (read _ _ fs) as [raw fs1] eqn:Hrd. pose proof (read_same _ _ _ _ _ Hrd) as S1.
  destruct raw as [raw|].
  - cbn [q_identity new_queue]. destruct (VerifyGatewayPendingReceipt raw _) as [r|] eqn:Hv; [|done].
    destruct (matchesReceipt _ r) eqn:Hm; cbn [negb]; [|done]. intros [= <- <-]. apply Verify_receipt_valid in Hv as [Hv _].
    split; [done|]. split; [|by split_and!; try done; right]. split; cbn; try done; [lia|].
    unfold receiptHash. rewrite bool_decide_eq_false_2; [done|]. unfold valid_receipt in Hv. destruct (_ && _); [done|]. bool_prop. lia.
  - destruct (Lstat _ fs1) as [st fs2] eqn:Hl. apply Lstat_same in Hl as (S2 & _). destruct st; [|done..]. intros [= <- <-].
    split; [by eapply same_trans|]. split; [|by split_and!; try done; left]. by split.
Qed.

(** Recovery authenticates what it adopts. Whatever a directory holds,
    however it came to be there, if [Recover] returns a queue then its pending
    files are private regular files, consecutive from the stored receipt, each
    signed by the registered source for exactly this binding, and linked by
    hash to the one before and the first to the receipt; and the receipt is
    absent or one for this binding. *)
Theorem recover_sound (env : Environment) (path : string) (id : identity) (fs fs' : Fs) (q : Queue) :
  open env path id "" false fs = (Some q, fs') →
  q_identity q = id ∧ q_key q = "" ∧ q_frozen q = true ∧
  (q_receipt q = zero_receipt ∨ valid_receipt (q_receipt q) = true ∧ matchesReceipt q (q_receipt q) = true) ∧
  ∃ wires, linked q (fs_seen fs) wires.
Proof.
  unfold open. destruct (_ || _ || _); [done|]. destruct (_ || _); [done|]. destruct (open_lock fs) as [lock fs1] eqn:Hl.
  assert (Hs1 : ∀ i, 0 ≤ i → fs_seen fs1 !! recordName i = fs_seen fs !! recordName i).
  { intros i Hi. unfold open_lock in Hl. destruct (call fs) as [bad fs0] eqn:Hc. apply call_same in Hc as [(_ & E0 & _) _].
    destruct bad; [injection Hl as _ <-; by rewrite E0|]. destruct (_ !! "lock"); injection Hl as _ <-; cbn; rewrite E0; [done|].
    apply lookup_insert_ne. intros Heq. pose proof (slen_recordName i Hi) as Hlen. by rewrite <- Heq in Hlen. }
  destruct lock as [lock|]; [|done]. destruct (_ || _ || _); [done|].
  destruct (call fs1) as [bad fs2] eqn:Hc. apply call_same in Hc as [(_ & E2 & _) _]. destruct (bad || _); [done|].
  destruct (read "identity" _ fs2) as [stored fs3] eqn:Hrd. apply read_same in Hrd as (_ & E3 & _).
  destruct (_ != _); [done|]. unfold recover. destruct (recover_receipt _ fs3) as [[q1|] fs4] eqn:Hrc; [|done].
  destruct (recover_receipt_sound _ _ _ _ Hrc) as ((_ & E4 & _) & L4 & I4 & K4 & F4 & R4).
  destruct (physical _ _ _ fs4) as [okp fs5] eqn:Hp. apply physical_same in Hp as (_ & E5 & _). destruct okp; cbn [negb]; [|done].
  destruct (recover_records _ _ _ fs5) as [[[q2 acks]|] fs6] eqn:Hrr; [|done].
  rewrite <- E4, <- E5 in L4. destruct (recover_records_sound _ _ _ _ _ _ _ _ L4 Hrr) as (_ & (I5 & R5 & K5 & F5) & wires & L5).
  rewrite E5, E4, E3, E2 in L5.
  assert (Hres : q_identity q2 = id ∧ q_key q2 = "" ∧ q_frozen q2 = true ∧
    (q_receipt q2 = zero_receipt ∨ valid_receipt (q_receipt q2) = true ∧ matchesReceipt q2 (q_receipt q2) = true) ∧
    ∃ wires, linked q2 (fs_seen fs) wires).
  { split_and!; try congruence.
    - rewrite R5. destruct R4 as [|[Hv Hm]]; [by left|right]. split; [done|]. unfold matchesReceipt in *. by rewrite I5.
    - exists wires. destruct L5. split; try done. intros i wire Hw. rewrite <- Hs1; [eauto|].
      assert (0 ≤ rc_Sequence (q_receipt q2)); [|lia]. rewrite R5. destruct R4 as [-> |[Hv _]]; [done|].
      unfold valid_receipt in Hv. destruct (_ && _); [done|]. bool_prop. lia. }
  destruct (_ || _); [done|]. destruct (remove_all _ fs6) as [okr fs7]. destruct okr; cbn [negb]; [|done].
  destruct (_ <? _); [|by intros [= <- _]]. destruct (sync_dir fs7) as [[] fs8]; by intros [= <- _].
Qed.
End Histories.
