(* ===== verification/PendingExamples.v ===== *)
(** * PendingExamples: concrete histories of a pending queue

    An executable instance of the encodings and of the box, which satisfies
    their laws (it hides nothing), and one history of a queue: appends, a
    failed fsync, a crash, recovery and replay. *)

From S2P Require Import Prelude GoStd Uuid Platform GatewayAuth GatewaySession AuditChain PendingRecord PendingQueue PendingTrace PendingRecovery.
Open Scope Z_scope.
Open Scope go_scope.

(** ** Lists of strings *)

Fixpoint unescape (s : string) : option (string * string) :=
  match s with
  | String b (String c t as rest) =>
      if b == "0"%char then Some ("", rest)
      else match unescape t with Some (a, r) => Some (String c a, r) | None => None end
  | String b EmptyString => if b == "0"%char then Some ("", "") else None
  | EmptyString => None
  end.

Lemma unescape_escape s rest : unescape (escape s rest) = Some (s, rest).
Proof.
  induction s as [|c s IH]; [by destruct rest|]. cbn [escape unescape].
  rewrite bool_decide_eq_false_2 by done. by rewrite IH.
Qed.

Definition put_strings (l : list string) : string := foldr escape "" l.
Fixpoint get_strings (k : nat) (s : string) : option (list string) :=
  match k with
  | O => if s == "" then Some [] else None
  | S k => match unescape s with
           | Some (a, t) => match get_strings k t with Some l => Some (a :: l) | None => None end
           | None => None
           end
  end.

Lemma get_put_strings l : get_strings (length l) (put_strings l) = Some l.
Proof.
  induction l as [|a l IH]; [done|]. cbn [length get_strings]. unfold put_strings. cbn [foldr].
  rewrite unescape_escape. fold (put_strings l). by rewrite IH.
Qed.

Lemma put_strings_nonempty a l : 0 < slen (put_strings (a :: l)).
Proof. unfold put_strings, slen. cbn. destruct a; cbn; lia. Qed.

(** ** Fixed-width numbers *)

Fixpoint be_N (acc : N) (s : string) : N :=
  match s with EmptyString => acc | String c t => be_N (acc * 256 + byte_of c) t end.

Lemma be_bytes_acc n x rest acc :
  be_N acc (bytes_acc n x rest) = be_N (acc * 256 ^ N.of_nat n + x mod 256 ^ N.of_nat n) rest.
Proof.
  revert x rest. induction n as [|n IH]; intros x rest.
  { cbn [bytes_acc]. change (256 ^ N.of_nat 0)%N with 1%N. rewrite N.mod_1_r. f_equal. lia. }
  cbn [bytes_acc]. rewrite IH. cbn [be_N]. f_equal. unfold byte_of.
  change 255%N with (N.ones 8). rewrite N.land_ones, N.shiftr_div_pow2. change (2 ^ 8)%N with 256%N.
  rewrite N_ascii_embedding by (apply N.mod_lt; done).
  rewrite Nat2N.inj_succ, N.pow_succ_r', (N.Div0.mod_mul_r x). nia.
Qed.

Lemma be_bytes n x : (x < 256 ^ N.of_nat n)%N → be_N 0 (bytes_be n x) = x.
Proof. intros Hx. unfold bytes_be. rewrite be_bytes_acc, N.mod_small by done. cbn [be_N]. lia. Qed.

Lemma escape_size s rest : slen (escape s rest) = 2 * slen s + 1 + slen rest.
Proof. unfold slen. induction s as [|c s IH]; cbn [escape String.length]; lia. Qed.

Lemma slen_bytes_be n x : slen (bytes_be n x) = Z.of_nat n.
Proof. unfold slen. by rewrite bytes_be_length. Qed.

(** ** The encodings *)

Definition z_text (z : Z) : string := n_text (z_code z).
Definition text_z (s : string) : option Z := code_z <$> text_n s.
Lemma text_z_text z : text_z (z_text z) = Some z.
Proof. unfold text_z, z_text. rewrite text_n_text. cbn. by rewrite code_z_code. Qed.

Definition header_strings (h : GatewayPendingHeader) : list string :=
  let b := ph_Binding h in
  (n_text <$> [AdmissionID b; Owner b; RuntimeID b; AgentID b; HostID b; RepositoryID b; GatewayID b;
    StorageCredentialID b; DeliveryID b; GatewaySecretRef b; ResticSecretRef b; ph_RecordID h;
    OriginID (ph_AuditOrigin h); AuditRuntimeID (ph_AuditOrigin h)]) ++
  (z_text <$> [ph_Sequence h; ph_AuthorizationRevision h; ph_CreatedAt h]) ++ [ConfigurationHash b; ph_PreviousHash h].

Definition header_of (l : list string) : option GatewayPendingHeader :=
  match l with
  | [a; o; r; ag; h; rp; g; sc; d; gs; rs; rid; oid; ort; sq; rev; cr; ch; prev] =>
      match mapM text_n [a; o; r; ag; h; rp; g; sc; d; gs; rs; rid; oid; ort], mapM text_z [sq; rev; cr] with
      | Some [a; o; r; ag; h; rp; g; sc; d; gs; rs; rid; oid; ort], Some [sq; rev; cr] =>
          Some (mkHeader (mkBinding a o r ag h rp g sc d gs rs ch) rid sq prev rev cr (mkAuditBinding oid ort))
      | _, _ => None
      end
  | _ => None
  end.

Lemma header_of_strings h : header_of (header_strings h) = Some h.
Proof.
  destruct h as [[b1 b2 b3 b4 b5 b6 b7 b8 b9 b10 b11 ch] rid sq prev rev cr [oid ort]]. unfold header_of, header_strings. cbn [fmap list_fmap app ph_Binding AdmissionID Owner
    RuntimeID AgentID HostID RepositoryID GatewayID StorageCredentialID DeliveryID GatewaySecretRef ResticSecretRef
    ConfigurationHash ph_RecordID ph_Sequence ph_PreviousHash ph_AuthorizationRevision ph_CreatedAt ph_AuditOrigin OriginID AuditRuntimeID].
  cbn [mapM]. rewrite !text_n_text, !text_z_text. reflexivity.
Qed.

Definition bool_text (b : bool) : string := if b then "t" else "f".
Definition event_strings (e : option GatewayEvent) : list string :=
  match e with
  | None => ["n"; ""; ""; ""; ""; ""; ""; ""]
  | Some (mkGatewayEvent (mkGatewayBinding h r g o) auth action reason) =>
      ["e"; n_text h; n_text r; n_text g; n_text o; bool_text auth; action; reason]
  end.
Definition event_of (l : list string) : option (option GatewayEvent) :=
  match l with
  | [flag; h; r; g; o; auth; action; reason] =>
      if flag == "n" then Some None
      else match mapM text_n [h; r; g; o] with
           | Some [h; r; g; o] => Some (Some (mkGatewayEvent (mkGatewayBinding h r g o) (auth == "t") action reason))
           | _ => None
           end
  | _ => None
  end.

Lemma event_of_strings e : event_of (event_strings e) = Some e.
Proof.
  destruct e as [[[h r g o] auth action reason]|]; [|done]. unfold event_of, event_strings. cbn [mapM].
  rewrite !text_n_text. by destruct auth.
Qed.

Definition record_strings (r : GatewayPendingRecord) : list string :=
  header_strings (pr_Header r) ++ event_strings (pr_Event r) ++
  [pr_Kind r; z_text (pr_ExpectedSecretRevision r); bool_text (bool_decide (is_Some (pr_Config r))); default "" (pr_Config r)].
Definition record_of (l : list string) : option GatewayPendingRecord :=
  match header_of (take 19 l), event_of (take 8 (drop 19 l)), drop 27 l with
  | Some h, Some e, [kind; rev; flag; config] =>
      match text_z rev with
      | Some rev => Some (mkPending h kind e rev (if flag == "t" then Some config else None))
      | None => None
      end
  | _, _, _ => None
  end.

Lemma record_of_strings r : record_of (record_strings r) = Some r.
Proof.
  destruct r as [h kind e rev config]. unfold record_of, record_strings. cbn [pr_Header pr_Kind pr_Event pr_ExpectedSecretRevision pr_Config].
  assert (Hh : length (header_strings h) = 19%nat) by done. assert (He : length (event_strings e) = 8%nat) by (by destruct e as [[[]]|]).
  rewrite take_app_le, take_ge, header_of_strings by lia. rewrite drop_app_ge, Hh, Nat.sub_diag, drop_0 by lia.
  rewrite take_app_le, take_ge, event_of_strings by lia.
  rewrite drop_app_ge, Hh by lia. change (27 - 19)%nat with 8%nat. rewrite drop_app_ge, He, Nat.sub_diag, drop_0 by lia.
  rewrite text_z_text. by destruct config.
Qed.

Lemma length_record_strings r : length (record_strings r) = 31%nat.
Proof. destruct r as [h kind [[[]]|] rev config]; done. Qed.

Definition receipt_strings (r : GatewayPendingReceipt) : list string :=
  [bytes_be 16 (rc_AdmissionID r); bytes_be 16 (rc_RuntimeID r); bytes_be 16 (rc_RecordID r); bytes_be 16 (rc_AuditOriginID r);
   bytes_be 8 (Z.to_N (rc_Sequence r)); rc_WireHash r].
Definition receipt_of (l : list string) : option GatewayPendingReceipt :=
  match l with
  | [a; r; rid; o; sq; hash] =>
      Some (mkReceipt (be_N 0 a) (be_N 0 r) (Z.of_N (be_N 0 sq)) (be_N 0 rid) hash (be_N 0 o))
  | _ => None
  end.

Definition toy_overhead (recipient : string) : string := bytes_be 48 (toy_sum 3 recipient).

#[export] Instance toy_pending : PendingCodec := {|
  MarshalPending r := put_strings (record_strings r);
  UnmarshalPending s := match get_strings 31 s with Some l => record_of l | None => None end;
  MarshalWire w := put_strings (header_strings (pw_Header w) ++ [pw_Ciphertext w]);
  UnmarshalWire s :=
    match get_strings 20 s with
    | Some l => match header_of (take 19 l), drop 19 l with Some h, [c] => Some (mkWire h c) | _, _ => None end
    | None => None
    end;
  UnmarshalSelector s := match get_strings 20 s with Some l => header_of (take 19 l) | None => None end;
  MarshalReceipt r := put_strings (receipt_strings r);
  UnmarshalReceipt s := match get_strings 6 s with Some l => receipt_of l | None => None end;
  X25519 private := if slen private == 32 then Some private else None;
  SealAnonymous _ plain recipient := Some (toy_overhead recipient +:+ plain);
  OpenAnonymous sealed public private :=
    if (public == private) && HasPrefix sealed (toy_overhead public) then Some (skip_bytes 48 sealed) else None |}.

Lemma valid_receipt_range r :
  valid_receipt r = true →
  (rc_AdmissionID r < 2 ^ 128 ∧ rc_RuntimeID r < 2 ^ 128 ∧ rc_RecordID r < 2 ^ 128 ∧ rc_AuditOriginID r < 2 ^ 128)%N ∧
  0 < rc_Sequence r < 2 ^ 63 ∧ slen (rc_WireHash r) = 64.
Proof.
  unfold valid_receipt. intros Hv. destruct (_ && _) eqn:Hg in Hv; [done|]. cbn [forallb] in Hv. bool_prop.
  repeat match goal with Hid : valid_v7 _ = true |- _ => apply valid_v7_range in Hid end.
  assert (Hids : (rc_AdmissionID r < 2 ^ 128 ∧ rc_AuditOriginID r < 2 ^ 128)%N).
  { destruct (bool_decide_reflect (rc_AuditOriginID r = uuid_Nil)) as [Ho|Ho]; cbn [negb andb] in *; bool_prop.
    - rewrite Ho. split; [done|reflexivity].
    - rewrite Hg. split; [reflexivity|done]. }
  unfold max_int64 in *. split; [tauto|]. split; [lia|]. unfold validPendingHash in *.
  destruct (hex_decode (rc_WireHash r)) as [b|] eqn:Hd; [|done]. bool_prop.
  match goal with Hh : hex_encode b = _ |- _ => rewrite <- Hh; clear Hh end.
  assert (Hlen : ∀ s, slen (hex_encode s) = 2 * slen s) by (unfold slen; induction s as [|c s IH]; cbn [hex_encode String.length]; lia).
  rewrite Hlen. lia.
Qed.

Lemma receipt_of_strings r : valid_receipt r = true → receipt_of (receipt_strings r) = Some r.
Proof.
  intros Hv. destruct (valid_receipt_range r Hv) as ((H1 & H2 & H3 & H4) & H5 & _). destruct r as [a rt sq rid hash o].
  unfold receipt_of, receipt_strings.
  cbn [rc_AdmissionID rc_RuntimeID rc_Sequence rc_RecordID rc_WireHash rc_AuditOriginID] in *.
  rewrite !be_bytes; try done; [|change (256 ^ N.of_nat 8)%N with (2 ^ 64)%N; lia].
  do 2 f_equal. lia.
Qed.

#[export] Instance toy_pending_laws : PendingCodecLaws.
Proof.
  split.
  - intros r _. cbn [UnmarshalPending MarshalPending toy_pending]. rewrite <- (length_record_strings r), get_put_strings.
    apply record_of_strings.
  - intros [h c] _. cbn [UnmarshalWire MarshalWire toy_pending pw_Header pw_Ciphertext].
    change 20%nat with (length (header_strings h ++ [c])). rewrite get_put_strings.
    rewrite take_app_le, take_ge, header_of_strings by (cbn; lia). done.
  - intros payload [h c]. cbn [UnmarshalWire UnmarshalSelector toy_pending]. destruct (get_strings 20 payload) as [l|]; [|done].
    destruct (header_of (take 19 l)); [|done]. destruct (drop 19 l) as [|? [|]]; try done. by intros [= -> _].
  - intros r Hv. cbn [UnmarshalReceipt MarshalReceipt toy_pending]. change 6%nat with (length (receipt_strings r)).
    rewrite get_put_strings. by apply receipt_of_strings.
  - intros r. cbn [MarshalPending toy_pending]. pose proof (length_record_strings r) as Hl.
    destruct (record_strings r); [done|]. apply put_strings_nonempty.
  - intros w. cbn [MarshalWire toy_pending header_strings fmap list_fmap app]. apply put_strings_nonempty.
  - intros r Hv. destruct (valid_receipt_range r Hv) as (_ & _ & Hs). cbn [MarshalReceipt toy_pending receipt_strings].
    split; [apply put_strings_nonempty|]. unfold put_strings, receipt_strings. cbn [foldr].
    rewrite !escape_size, !slen_bytes_be, Hs. unfold SignatureSize, slen. cbn. lia.
  - intros rand plain recipient sealed [= <-]. rewrite slen_app. unfold toy_overhead, AnonymousOverhead. rewrite slen_bytes_be. lia.
  - intros private rand plain recipient sealed Hx [= <-]. cbn [X25519 toy_pending] in Hx. destruct (_ == 32); [|done].
    injection Hx as <-. cbn [OpenAnonymous toy_pending]. rewrite bool_decide_eq_true_2, HasPrefix_app by done. done.
  - intros private public. cbn. case_bool_decide; [|done]. by intros [= <-].
Qed.

Definition identity_strings (id : identity) : list string :=
  let b := id_Binding id in
  (bytes_be 16 <$> [AdmissionID b; Owner b; RuntimeID b; AgentID b; HostID b; RepositoryID b; GatewayID b;
    StorageCredentialID b; DeliveryID b; GatewaySecretRef b; ResticSecretRef b; OriginID (id_AuditOrigin id);
    AuditRuntimeID (id_AuditOrigin id)]) ++
  (bytes_be 8 <$> [Z.to_N (id_MaxBytes id); Z.to_N (id_MaxRecords id)]) ++
  [ConfigurationHash b; id_Source id; id_Recipient id; id_Confirmation id].

#[export] Instance toy_queue : QueueCodec := {| MarshalIdentity id := put_strings (identity_strings id) |}.

Definition binding_small (b : GatewayAuthorizationBinding) : Prop :=
  Forall (λ x, x < 2 ^ 128)%N [AdmissionID b; Owner b; RuntimeID b; AgentID b; HostID b; RepositoryID b; GatewayID b;
    StorageCredentialID b; DeliveryID b; GatewaySecretRef b; ResticSecretRef b] ∧ slen (ConfigurationHash b) ≤ 64.

Lemma canonical_hash_size h : canonical_sha256_hex h = true → slen h = 64.
Proof.
  unfold canonical_sha256_hex. destruct (hex_decode h) as [raw|]; [|done]. intros [Hl He]%andb_true_iff.
  apply Nat.eqb_eq in Hl. apply bool_decide_eq_true in He. rewrite <- He.
  assert (Hlen : ∀ s, slen (hex_encode s) = 2 * slen s) by (unfold slen; induction s as [|c s IH]; cbn [hex_encode String.length]; lia).
  rewrite Hlen. unfold slen. lia.
Qed.

Lemma small_ids l : forallb valid_v7 l = true → Forall (λ x, x < 2 ^ 128)%N l.
Proof.
  intros Hids. apply forallb_Forall in Hids. rewrite Forall_forall in Hids. apply Forall_forall.
  intros x Hx. exact (valid_v7_range x (Hids x Hx)).
Qed.

Lemma valid_binding_small b : ValidateBinding b = true → binding_small b.
Proof.
  unfold ValidateBinding. intros [Hids Hh]%andb_true_iff. split; [|by rewrite (canonical_hash_size _ Hh)].
  apply small_ids. exact Hids.
Qed.

Ltac zero_ids := repeat (apply Forall_cons; split; [reflexivity|]); apply Forall_nil_2.

Lemma valid_identity_small id :
  valid_identity id = true →
  binding_small (id_Binding id) ∧ Forall (λ x, x < 2 ^ 128)%N [OriginID (id_AuditOrigin id); AuditRuntimeID (id_AuditOrigin id)] ∧
  0 ≤ id_MaxBytes id < 2 ^ 63 ∧ 0 ≤ id_MaxRecords id < 2 ^ 63 ∧
  slen (id_Source id) = 32 ∧ slen (id_Recipient id) = 32 ∧ slen (id_Confirmation id) = 32.
Proof.
  unfold valid_identity. intros Hv. bool_prop. unfold MaxGatewayPendingSize, reservedBytes in *.
  split_and!; try done; try lia.
  - destruct (bool_decide_reflect (id_AuditOrigin id = no_origin)) as [Ho|Ho]; cbn [negb andb] in *; bool_prop.
    + by apply valid_binding_small.
    + match goal with Hb : id_Binding id = zero_binding |- _ => rewrite Hb end. split; [|done]. zero_ids.
  - destruct (bool_decide_reflect (id_AuditOrigin id = no_origin)) as [Ho|Ho]; cbn [negb andb] in *; bool_prop.
    + rewrite Ho. zero_ids.
    + match goal with Hb : ValidateAuditBinding _ = true |- _ => apply small_ids; exact Hb end.
Qed.

Lemma bytes_be_inj n x y : (x < 256 ^ N.of_nat n)%N → (y < 256 ^ N.of_nat n)%N → bytes_be n x = bytes_be n y → x = y.
Proof. intros Hx Hy Heq. rewrite <- (be_bytes n x Hx), Heq. by apply be_bytes. Qed.

Lemma put_strings_inj l l' : length l = length l' → put_strings l = put_strings l' → l = l'.
Proof. intros Hl Heq. by apply fold_escape_inj in Heq as [? _]. Qed.

Lemma bytes_be_map_inj n l : ∀ l',
  Forall (λ x, x < 256 ^ N.of_nat n)%N l → Forall (λ x, x < 256 ^ N.of_nat n)%N l' →
  bytes_be n <$> l = bytes_be n <$> l' → l = l'.
Proof.
  induction l as [|x l IH]; intros [|y l'] H1 H2 Heq; try done. rewrite !fmap_cons in Heq.
  apply Forall_cons in H1 as [? ?], H2 as [? ?]. injection Heq as Hxy Hl. f_equal; [by apply (bytes_be_inj n)|by apply IH].
Qed.

#[export] Instance toy_queue_laws : QueueCodecLaws.
Proof.
  split.
  - intros a b Ha Hb Heq. apply put_strings_inj in Heq; [|done].
    destruct (valid_identity_small a Ha) as ((A1 & _) & A2 & A3 & A4 & _), (valid_identity_small b Hb) as ((B1 & _) & B2 & B3 & B4 & _).
    unfold identity_strings in Heq. apply app_inj_1 in Heq as [H1 Heq]; [|done]. apply app_inj_1 in Heq as [H2 H3]; [|done].
    apply bytes_be_map_inj in H1.
    + apply bytes_be_map_inj in H2.
      * destruct a as [[] ? ? ? ? ? []], b as [[] ? ? ? ? ? []]. cbn in *. injection H1; injection H2; injection H3; intros. subst.
        f_equal; lia.
      * change (256 ^ N.of_nat 8)%N with (2 ^ 64)%N. repeat constructor; lia.
      * change (256 ^ N.of_nat 8)%N with (2 ^ 64)%N. repeat constructor; lia.
    + change (256 ^ N.of_nat 16)%N with (2 ^ 128)%N. by apply (Forall_app_2 _ [_;_;_;_;_;_;_;_;_;_;_] [_;_]).
    + change (256 ^ N.of_nat 16)%N with (2 ^ 128)%N. by apply (Forall_app_2 _ [_;_;_;_;_;_;_;_;_;_;_] [_;_]).
  - intros a Ha. destruct (valid_identity_small a Ha) as ((_ & Hh) & _ & _ & _ & Hs & Hr & Hc).
    cbn [MarshalIdentity toy_queue]. unfold put_strings, identity_strings. cbn [fmap list_fmap app foldr].
    rewrite !escape_size, !slen_bytes_be, Hs, Hr, Hc. change (slen "") with 0. lia.
Qed.

(** ** A history *)

Definition example_seed : string := bytes_be 32 987654321987654321.
Definition example_source : string := example_seed +:+ example_seed.
Definition example_central : string := bytes_be 32 5555 +:+ bytes_be 32 5555.
Definition example_private : string := bytes_be 32 7777.

Definition example_env : Environment := mkEnv Some true true.
Definition example_path : string := "/var/lib/restfleet/pending".
Definition example_identity : identity :=
  mkIdentity example_binding "" example_private (Public example_central) (2 * 2 ^ 20) 4 no_origin.

Definition created : option Queue * Fs :=
  createQueue example_env example_path example_identity example_source (mkFs [] ∅ []).
Definition example_queue : Queue := default (new_queue example_identity "" true) created.1.

Definition example_denial (reason : string) : GatewayPendingRecord :=
  mkPending (mkHeader zero_binding 0 0 "" 1 1709210096 no_origin) "audit"
    (Some (mkGatewayEvent no_binding false "denied" reason)) 0 None.

(** Two records; the third loses its directory fsync. *)
Definition example_history : list (list bool * qevent) :=
  [([], QAppend (Some (v7 21)) "" (example_denial "rate_limited"));
   ([], QAppend (Some (v7 22)) "" (example_denial "route_unavailable"));
   ([false; false; false; false; false; true], QAppend (Some (v7 23)) "" (example_denial "rate_limited"))].

Lemma example_created :
  createQueue example_env example_path example_identity example_source (mkFs [] ∅ []) = (Some example_queue, created.2).
Proof. vm_compute. reflexivity. Qed.

Definition example_sys : Sys := run_queue example_history (mkSys created.2 (Some example_queue) []).

Example two_accepted : length (sy_accepted example_sys) = 2%nat ∧ length (versions (sy_fs example_sys)) = 4%nat ∧
  q_failed <$> sy_queue example_sys = Some true.
Proof. vm_compute. done. Qed.

(** ** Concrete instances of the theorems *)

Definition example_record_in : GatewayPendingRecord :=
  mkPending (mkHeader example_binding (v7 21) 1 zero_hash 1 1709210096 no_origin) "audit"
    (Some (mkGatewayEvent no_binding false "denied" "rate_limited")) 0 None.
Definition example_sealed : string := default "" (SealGatewayPending "" example_record_in example_private example_source).

Lemma pending_round_trip_witness :
  OpenGatewayPending example_sealed (Public example_source) example_private = Some example_record_in.
Proof.
  apply (pending_round_trip "" example_record_in example_private example_private example_source example_sealed);
    vm_compute; reflexivity.
Defined.

Lemma pending_authentic_witness :
  ∃ ciphertext sig, example_sealed = MarshalWire (mkWire (pr_Header example_record_in) ciphertext) +:+ sig.
Proof.
  destruct (pending_authentic example_sealed (Public example_source) (pr_Header example_record_in)) as (c & sig & H & _).
  - vm_compute. reflexivity.
  - exists c, sig. exact H.
Defined.

Lemma contexts_separated_witness : pendingContext +:+ "x" = pendingContext +:+ "x" → "x" = "x".
Proof.
  intros H. apply (contexts_separated pendingContext pendingContext "x" "x"); [unfold contexts; set_solver..|exact H].
Defined.

(** The crash that keeps what was last visible: the third record survives. *)
Definition example_dir : Dir := fs_seen (sy_fs example_sys).
Definition first_wire : string := default "" (sy_accepted example_sys !! O).

Lemma seen_version (fs : Fs) : fs_seen fs ∈ versions fs.
Proof. unfold versions. apply elem_of_app. right. left. Qed.

Lemma queue_never_loses_witness :
  example_dir !! recordName (Z.of_nat 0 + 1) = Some (own_file first_wire) ∨
  ∃ raw r, example_dir !! "receipt" = Some (own_file raw) ∧
    VerifyGatewayPendingReceipt raw (id_Confirmation (q_identity example_queue)) = Some r ∧ Z.of_nat 0 + 1 ≤ rc_Sequence r.
Proof.
  apply (queue_never_loses example_env example_path example_identity example_source [] example_queue created.2 example_created
    example_history example_dir 0 first_wire).
  - apply seen_version.
  - vm_compute. reflexivity.
Defined.

Lemma queue_bounded_witness : total_size example_dir ≤ id_MaxBytes (q_identity example_queue).
Proof.
  refine (proj1 (queue_bounded example_env example_path example_identity example_source [] example_queue created.2 example_created
    example_history example_dir _)). apply seen_version.
Defined.

Lemma queue_recovers_witness :
  ∃ q fs chain acked,
    open example_env example_path (q_identity example_queue) "" false (mkFs [] example_dir []) = (Some q, fs) ∧
    sy_accepted example_sys `prefix_of` chain ∧ rc_Sequence (q_receipt q) = Z.of_nat acked ∧
    q_files q = (λ i, recordName (Z.of_nat i + 1)) <$> seq acked (length chain - acked) ∧
    (∀ i wire, (acked ≤ i)%nat → chain !! i = Some wire →
      fs_seen fs !! recordName (Z.of_nat i + 1) = Some (own_file wire)) ∧
    q_frozen q = true ∧ q_key q = "".
Proof.
  apply (queue_recovers example_env example_path example_identity example_source [] example_queue created.2 example_created
    example_history example_dir example_env example_path); [apply seen_version|vm_compute; reflexivity..].
Defined.

Definition short_history : list (list bool * qevent) := take 2 example_history.
Definition short_sys : Sys := run_queue short_history (mkSys created.2 (Some example_queue) []).
Definition short_queue : Queue := default example_queue (sy_queue short_sys).

Lemma replay_progress_witness :
  ∃ wire h ack q' fs',
    Next short_queue (with_faults [] (sy_fs short_sys)) = (Ok (Some wire), short_queue, with_faults [] (sy_fs short_sys)) ∧
    inspect short_queue wire = Some h ∧
    SignGatewayPendingReceipt (commit_receipt wire h) example_central = Some ack ∧
    Acknowledge ack short_queue (with_faults [] (sy_fs short_sys)) = (true, q', fs') ∧ q_files q' = [recordName 2] ∧
    fs_seen fs' !! recordName 1 = None ∧ rc_Sequence (q_receipt q') = rc_Sequence (q_receipt short_queue) + 1.
Proof.
  apply (replay_progress example_env example_path example_identity example_source [] example_queue created.2 example_created
    short_history short_queue (recordName 1) [recordName 2] example_central); vm_compute; reflexivity.
Defined.

Definition recovered : option Queue * Fs :=
  open example_env example_path (q_identity example_queue) "" false (mkFs [] example_dir []).
Definition recovered_queue : Queue := default example_queue recovered.1.

Lemma recover_sound_witness :
  q_frozen recovered_queue = true ∧ ∃ wires, linked recovered_queue (fs_seen (mkFs [] example_dir [])) wires.
Proof.
  destruct (recover_sound example_env example_path (q_identity example_queue) (mkFs [] example_dir []) recovered.2 recovered_queue)
    as (_ & _ & H1 & _ & H2); [vm_compute; reflexivity|].
  split; [exact H1|exact H2].
Defined.

Example recovered_three : length (q_files recovered_queue) = 3%nat.
Proof. vm_compute. reflexivity. Qed.
