(* ===== verification/RcloneConfig.v ===== *)
(** * RcloneConfig: rclone configurations (internal/rclone, config.go and backends.go)

    The restricted INI reader, the validation of the storage backends, the
    canonical form that is stored and handed to rclone, and the comparison that
    lets a refresh change nothing but an OAuth token.  JSON tokens, URLs, IP
    addresses and Unicode lower case are the standard library's, taken as
    functions of the classes [TokenCodec] and [NetPkg]. *)

From S2P Require Import Prelude GoStd.
Open Scope Z_scope.
Open Scope go_scope.

(** ** Text *)

(** [strings.TrimSpace] on valid UTF-8. *)
Fixpoint trim_left (skip : nat) (s : string) : string :=
  match s with
  | EmptyString => EmptyString
  | String _ t =>
      match skip with
      | S k => trim_left k t
      | O => match space_width s with O => s | S k => trim_left k t end
      end
  end.
Fixpoint trim_right (s : string) : string :=
  if blank s then EmptyString
  else match s with EmptyString => EmptyString | String c t => String c (trim_right t) end.
Definition TrimSpace (s : string) : string := trim_right (trim_left 0 s).

(** [utf8.ValidString]: [need] continuation bytes are missing, the next one
    within [lo] and [hi]. *)
Fixpoint utf8_from (need : nat) (lo hi : N) (s : string) : bool :=
  match s with
  | EmptyString => Nat.eqb need 0
  | String c t =>
      let b := byte_of c in
      match need with
      | S k => (lo <=? b)%N && (b <=? hi)%N && utf8_from k 128 191 t
      | O =>
          if (b <? 128)%N then utf8_from 0 0 0 t
          else if ((194 <=? b) && (b <=? 223))%N then utf8_from 1 128 191 t
          else if (b =? 224)%N then utf8_from 2 160 191 t
          else if (b =? 237)%N then utf8_from 2 128 159 t
          else if ((225 <=? b) && (b <=? 239))%N then utf8_from 2 128 191 t
          else if (b =? 240)%N then utf8_from 3 144 191 t
          else if ((241 <=? b) && (b <=? 243))%N then utf8_from 3 128 191 t
          else if (b =? 244)%N then utf8_from 3 128 143 t
          else false
      end
  end.
Definition ValidString (s : string) : bool := utf8_from 0 0 0 s.

(** The lines a [bufio.Scanner] delivers; its buffer holds any line of an
    accepted length. *)
Definition drop_cr (line : string) : string :=
  if HasSuffix line (String "013" "") then String.substring 0 (String.length line - 1) line else line.
Definition ScanLines (raw : string) : list string :=
  let l := Split "010" raw in
  drop_cr <$> match last l with Some EmptyString => take (length l - 1) l | _ => l end.

Definition letter (c : ascii) : bool :=
  let b := byte_of c in (((65 <=? b) && (b <=? 90)) || ((97 <=? b) && (b <=? 122)))%N.
Definition digit_char (c : ascii) : bool := let b := byte_of c in ((48 <=? b) && (b <=? 57))%N.
Definition word_char (c : ascii) : bool := letter c || digit_char c || (c == "_"%char) || (c == "-"%char).

(** [remotePattern], [drivePattern], [googleIDPattern], [googleClientPattern],
    [dnsLabelPattern]. *)
Definition remotePattern (s : string) : bool :=
  match s with
  | EmptyString => false
  | String c t => letter c && string_forallb word_char t && (1 <=? slen t) && (slen t <=? 63)
  end.
Definition drivePattern (s : string) : bool :=
  string_forallb (λ c, word_char c || (c == "!"%char)) s && (1 <=? slen s) && (slen s <=? 256).
Definition googleIDPattern (s : string) : bool := string_forallb word_char s && (1 <=? slen s) && (slen s <=? 256).
Definition googleClientPattern (s : string) : bool :=
  let suffix := ".apps.googleusercontent.com" in
  HasSuffix s suffix &&
  (let id := String.substring 0 (String.length s - String.length suffix) s in string_forallb word_char id && (1 <=? slen id)).
Definition dnsLabelPattern (s : string) : bool :=
  let alnum c := letter c || digit_char c in
  string_forallb (λ c, alnum c || (c == "-"%char)) s && (1 <=? slen s) && (slen s <=? 63) &&
  match String.get 0 s, String.get (String.length s - 1) s with
  | Some a, Some b => alnum a && alnum b
  | _, _ => false
  end.

(** ** Standard-library interfaces *)

Record Token := mkToken { AccessToken : string; TokenType : string; RefreshToken : string; Expiry : time }.

(** encoding/json on the token: decoding checks [json.Valid] and rejects unknown
    fields. *)
Class TokenCodec := {
  DecodeToken : string → option Token;
  MarshalToken : Token → option string }.

Record URL := mkURL {
  u_Scheme : string; u_Opaque : string; u_User : bool; u_Host : string; u_Path : string; u_RawPath : string;
  u_ForceQuery : bool; u_RawQuery : string; u_Fragment : string }.

(** An address: whether it is IPv6, its 32 or 128 bits, its zone. *)
Record Addr := mkAddr { ip_Is6 : bool; ip_bits : N; ip_Zone : string }.

(** net/url, net/netip and [strings.ToLower]. *)
Class NetPkg := {
  url_Parse : string → option URL;
  url_String : URL → string;
  ParseAddr : string → option Addr;
  ToLower : string → string }.

(** ** Configurations *)

Notation fields := (gmap string string).

(** [m\[key\]] of a Go map. *)
Definition get (m : fields) (key : string) : string := default "" (m !! key).

Record Config := mkConfig { cf_sections : gmap string fields; cf_remote : string }.

Definition MaxConfigBytes : Z := 256 * 2 ^ 10.

Definition allowedKeys (values : fields) (allowed : list string) : bool :=
  bool_decide (map_Forall (λ key _, key ∈ allowed) values).

(** A non-strict unpadded URL-safe base64 value of 17 to 4096 bytes; line breaks
    are skipped. *)
Definition base64_char (c : ascii) : bool := word_char c.
Fixpoint without_breaks (s : string) : string :=
  match s with
  | EmptyString => EmptyString
  | String c t => if (c == "010"%char) || (c == "013"%char) then without_breaks t else String c (without_breaks t)
  end.
Definition obscured (value : string) : bool :=
  let s := without_breaks value in
  let n := slen s in
  string_forallb base64_char s && (n mod 4 != 1) && (16 <? n * 6 / 8) && (n * 6 / 8 <=? 4096).

Definition ContainsAny (chars s : string) : bool := negb (string_forallb (λ c, negb (Contains c chars)) s).

Definition safeRoot (root : string) : bool :=
  if root == "" then true
  else (slen root <=? 512) && negb (HasPrefix root "/") && (root != ".") && (root != "..") &&
       negb (HasPrefix root "../") && (Clean root == root) &&
       negb (ContainsAny ("\" +:+ ":%" +:+ String "000" "") root) && negb (has_control root).

(** *** Reading *)

Notation scanned := (gmap string fields * option string)%type.

Definition scan_line (st : scanned) (text : string) : option scanned :=
  let '(sections, current) := st in
  let line := TrimSpace text in
  if (line == "") || HasPrefix line "#" || HasPrefix line ";" then Some st
  else if has_control line then None
  else if HasPrefix line "[" && HasSuffix line "]" then
    let name := String.substring 1 (String.length line - 2) line in
    if negb (remotePattern name) || bool_decide (is_Some (sections !! name)) || Nat.eqb (size sections) 2 then None
    else Some (<[name := ∅]> sections, Some name)
  else match Cut "=" line, current with
  | Some (key, value), Some name =>
      let key := TrimSpace key in
      let section := default ∅ (sections !! name) in
      if bool_decide (is_Some (section !! key)) then None
      else Some (<[name := <[key := TrimSpace value]> section]> sections, current)
  | _, _ => None
  end.

Definition scan_lines (lines : list string) (st : scanned) : option scanned :=
  foldl (λ st line, st ← st; scan_line st line) (Some st) lines.

(** The loop of [parseConfig]. *)
Definition scan_sections (raw : string) : option (gmap string fields) :=
  fst <$> scan_lines (ScanLines raw) (∅, None).

(** *** Backends (backends.go) *)

Section Backends.
Context `{T : TokenCodec} `{W : NetPkg}.

Definition valid_token (t : Token) : bool :=
  negb ((AccessToken t == "") || (RefreshToken t == "") || (TokenType t != "Bearer") || IsZero (Expiry t) ||
        has_control (AccessToken t +:+ RefreshToken t)).

(** The section with its token re-encoded, [None] when it is not valid. *)
Definition normalizeToken (cloud : fields) : option fields :=
  match DecodeToken (get cloud "token") with
  | Some token =>
      if negb (valid_token token) then None
      else (λ encoded, <["token" := encoded]> cloud) <$> MarshalToken token
  | None => None
  end.

(** [u.Hostname()] and [u.Port()]. *)
Definition last_colon (s : string) : option nat :=
  foldl (λ acc i, if bool_decide (String.get i s = Some ":"%char) then Some i else acc) None (seq 0 (String.length s)).
Definition all_digits (s : string) : bool := string_forallb digit_char s.
Definition splitHostPort (hostport : string) : string * string :=
  let '(host, port) :=
    match last_colon hostport with
    | Some i =>
        let rest := drop_bytes (i + 1) hostport in
        if all_digits rest then (String.substring 0 i hostport, rest) else (hostport, "")
    | None => (hostport, "")
    end in
  (if HasPrefix host "[" && HasSuffix host "]" then String.substring 1 (String.length host - 2) host else host, port).

(** Prefixes of IP addresses: whether IPv6, the address, the length. *)
Record Prefix := mkPrefix { pf_Is6 : bool; pf_bits : N; pf_length : N }.
Definition width (is6 : bool) : N := if is6 then 128 else 32.
Definition prefix_Contains (p : Prefix) (ip : Addr) : bool :=
  Bool.eqb (pf_Is6 p) (ip_Is6 ip) &&
  (N.shiftr (pf_bits p) (width (pf_Is6 p) - pf_length p) =? N.shiftr (ip_bits ip) (width (pf_Is6 p) - pf_length p))%N.

Definition v4 (a b c d n : N) : Prefix := mkPrefix false (((a * 256 + b) * 256 + c) * 256 + d) n.
Definition v6 (high : N) (n : N) : Prefix := mkPrefix true (N.shiftl high 96) n.

Definition nonPublicPrefixes : list Prefix :=
  [v4 0 0 0 0 8; v4 10 0 0 0 8; v4 100 64 0 0 10; v4 127 0 0 0 8; v4 169 254 0 0 16; v4 172 16 0 0 12; v4 192 0 0 0 24;
   v4 192 0 2 0 24; v4 192 88 99 0 24; v4 192 168 0 0 16; v4 198 18 0 0 15; v4 198 51 100 0 24; v4 203 0 113 0 24;
   v4 224 0 0 0 4; v4 240 0 0 0 4; v4 168 63 129 16 32; v6 0x20010000 23; v6 0x20010db8 32; v6 0x20020000 16; v6 0x3fff0000 20].
Definition ipv6Global : Prefix := v6 0x20000000 3.

(** An IPv4 address mapped into IPv6 becomes IPv4 again. *)
Definition Unmap (ip : Addr) : Addr :=
  if ip_Is6 ip && (N.shiftr (ip_bits ip) 32 =? 0xffff)%N then mkAddr false (N.land (ip_bits ip) 0xffffffff) "" else ip.

Definition IsLoopback (ip : Addr) : bool :=
  if ip_Is6 ip then (ip_bits ip =? 1)%N else prefix_Contains (v4 127 0 0 0 8) ip.
Definition IsMulticast (ip : Addr) : bool :=
  if ip_Is6 ip then prefix_Contains (v6 0xff000000 8) ip else prefix_Contains (v4 224 0 0 0 4) ip.
Definition IsLinkLocalUnicast (ip : Addr) : bool :=
  if ip_Is6 ip then prefix_Contains (v6 0xfe800000 10) ip else prefix_Contains (v4 169 254 0 0 16) ip.
Definition IsGlobalUnicast (ip : Addr) : bool :=
  negb (ip_bits ip =? 0)%N && (ip_Is6 ip || negb (ip_bits ip =? 0xffffffff)%N) &&
  negb (IsLoopback ip) && negb (IsMulticast ip) && negb (IsLinkLocalUnicast ip).
Definition IsPrivate (ip : Addr) : bool :=
  if ip_Is6 ip then prefix_Contains (v6 0xfc000000 7) ip
  else prefix_Contains (v4 10 0 0 0 8) ip || prefix_Contains (v4 172 16 0 0 12) ip || prefix_Contains (v4 192 168 0 0 16) ip.

Definition publicIP (ip : Addr) : bool :=
  if ip_Zone ip != "" then false
  else
    let ip := Unmap ip in
    if negb (IsGlobalUnicast ip) || IsPrivate ip || ip_Is6 ip && negb (prefix_Contains ipv6Global ip) then false
    else forallb (λ p, negb (prefix_Contains p ip)) nonPublicPrefixes.

Definition host_ok (host : string) : bool :=
  match ParseAddr host with
  | Some ip => publicIP ip
  | None =>
      (slen host <=? 253) && Contains "." host && forallb dnsLabelPattern (Split "." host)
  end.

Definition port_ok (port uhost : string) : bool :=
  if port != "" then
    match Atoi port with
    | Some n => (1 <=? n) && (n <=? 65535) && (Itoa n == port)
    | None => false
    end
  else negb (HasSuffix uhost ":").

Definition TrimSuffix (s suf : string) : string :=
  if HasSuffix s suf then String.substring 0 (String.length s - String.length suf) s else s.

Definition JoinHostPort (host port : string) : string :=
  if Contains ":" host then "[" +:+ host +:+ "]:" +:+ port else host +:+ ":" +:+ port.

Definition webDAVURL (raw : string) : option URL :=
  match url_Parse raw with
  | None => None
  | Some u =>
      if (4096 <? slen raw) || (u_Scheme u != "https") || (u_Opaque u != "") || (u_Host u == "") || u_User u ||
         (u_RawQuery u != "") || u_ForceQuery u || (u_Fragment u != "") || Contains "#" raw || HasPrefix (u_Path u) "//" ||
         ContainsAny ("\" +:+ String "000" "") (u_Path u) || has_control (u_Path u)
      then None
      else
        let '(hostname, port) := splitHostPort (u_Host u) in
        let host := ToLower hostname in
        if negb (host_ok host) || negb (port_ok port (u_Host u)) ||
           (u_Path u != "") && (u_Path u != "/") && (Clean (u_Path u) != TrimSuffix (u_Path u) "/")
        then None
        else
          let uhost := if Contains ":" host then "[" +:+ host +:+ "]" else host in
          let uhost := if (port != "") && (port != "443") then JoinHostPort host port else uhost in
          let slash := negb (HasSuffix (u_Path u) "/") in
          Some (mkURL (u_Scheme u) (u_Opaque u) (u_User u) uhost
            (if slash then u_Path u +:+ "/" else u_Path u) (if slash then "" else u_RawPath u)
            (u_ForceQuery u) (u_RawQuery u) (u_Fragment u))
  end.

(** The section with its defaults filled in, [None] when it is rejected. *)
Definition validateBackend (cloud : fields) : option fields :=
  let g := get cloud in
  if g "type" == "onedrive" then
    if negb (allowedKeys cloud ["type"; "token"; "drive_id"; "drive_type"; "client_id"; "client_secret"; "region"]) ||
       negb (drivePattern (g "drive_id")) ||
       (g "drive_type" != "personal") && (g "drive_type" != "business") && (g "drive_type" != "documentLibrary") ||
       (g "region" != "") && (g "region" != "global") ||
       (g "client_id" != "") && negb (drivePattern (g "client_id")) || (4096 <? slen (g "client_secret"))
    then None
    else normalizeToken (<["region" := "global"]> cloud)
  else if g "type" == "drive" then
    if negb (allowedKeys cloud ["type"; "token"; "client_id"; "client_secret"; "scope"; "root_folder_id"; "team_drive"]) ||
       (256 <? slen (g "client_id")) || negb (googleClientPattern (g "client_id")) || (g "client_secret" == "") ||
       (4096 <? slen (g "client_secret")) || (g "root_folder_id" == "") && (g "team_drive" == "") ||
       (g "root_folder_id" == "root") || (g "team_drive" == "root") ||
       (g "root_folder_id" != "") && negb (googleIDPattern (g "root_folder_id")) ||
       (g "team_drive" != "") && negb (googleIDPattern (g "team_drive"))
    then None
    else
      let cloud := if g "scope" == "" then <["scope" := "drive"]> cloud else cloud in
      if (get cloud "scope" == "drive") || (get cloud "scope" == "drive.file") then normalizeToken cloud else None
  else if g "type" == "webdav" then
    if negb (allowedKeys cloud ["type"; "url"; "vendor"; "user"; "pass"; "bearer_token"]) then None
    else
      let vendors := ["other"; "nextcloud"; "owncloud"; "fastmail"; "rclone"] in
      if (g "vendor" != "") && negb (bool_decide (g "vendor" ∈ vendors)) then None
      else
        let cloud := if g "vendor" == "" then <["vendor" := "other"]> cloud else cloud in
        let basic := (g "user" != "") && (slen (g "user") <=? 1024) && negb (Contains ":" (g "user")) &&
                     obscured (g "pass") && (g "bearer_token" == "") in
        let bearer := (g "user" == "") && (g "pass" == "") && (g "bearer_token" != "") && (slen (g "bearer_token") <=? 8192) in
        if negb basic && negb bearer then None
        else (λ u, <["url" := url_String u]> cloud) <$> webDAVURL (g "url")
  else None.

(** *** [parseConfig] *)

Definition crypt_keys : list string :=
  ["type"; "remote"; "password"; "password2"; "filename_encryption"; "directory_name_encryption"].

(** The crypt section with its defaults. *)
Definition validateCrypt (crypt : fields) : option fields :=
  let g := get crypt in
  if (g "type" != "crypt") || negb (allowedKeys crypt crypt_keys) || negb (obscured (g "password")) ||
     (g "password2" != "") && negb (obscured (g "password2")) then None
  else if (g "filename_encryption" != "") && (g "filename_encryption" != "standard") then None
  else if (g "directory_name_encryption" != "") && (g "directory_name_encryption" != "true") then None
  else Some (<["directory_name_encryption" := "true"]> (<["filename_encryption" := "standard"]> crypt)).

Definition parseConfig (raw remote socket : string) : option Config :=
  if (slen raw == 0) || (MaxConfigBytes <? slen raw) || negb (ValidString raw) || negb (remotePattern remote) then None
  else
    sections ← scan_sections raw;
    if negb (Nat.eqb (size sections) 2) then None
    else
      crypt ← sections !! remote;
      crypt ← validateCrypt crypt;
      let sections := <[remote := crypt]> sections in
      '(upstream, root) ← Cut ":" (get crypt "remote");
      if (upstream == remote) || negb (safeRoot root) then None
      else
        cloud ← sections !! upstream;
        if (socket != "") && ((get cloud "type" != "webdav") || (get cloud "unix_socket" != socket)) then None
        else
          let cloud := if socket != "" then delete "unix_socket" cloud else cloud in
          cloud ← validateBackend cloud;
          Some (mkConfig (<[upstream := cloud]> sections) remote).

Definition ParseConfig (raw remote : string) : option Config := parseConfig raw remote "".
End Backends.

Definition cloud (c : Config) : fields :=
  let remote := get (default ∅ (cf_sections c !! cf_remote c)) "remote" in
  let upstream := match Cut ":" remote with Some (u, _) => u | None => remote end in
  default ∅ (cf_sections c !! upstream).
Definition Backend (c : Config) : string := get (cloud c) "type".

(** *** The canonical form *)

Definition newline : string := String "010" "".
Definition sort_Strings (l : list string) : list string := sort_Slice string_less l.

Definition nonempty_keys (m : fields) : list string :=
  sort_Strings ((filter (λ kv, kv.2 ≠ "") (map_to_list m)).*1).
Definition section_lines (name : string) (m : fields) : list string :=
  ("[" +:+ name +:+ "]") :: ((λ key, key +:+ " = " +:+ get m key) <$> nonempty_keys m) ++ [""].
Definition Bytes (c : Config) : string :=
  foldr (λ line rest, line +:+ newline +:+ rest) ""
    (sort_Strings (map_to_list (cf_sections c)).*1 ≫= λ name, section_lines name (default ∅ (cf_sections c !! name))).

(** *** Comparison *)

(** One direction of the loop of [sameConfig], for the type of the old section. *)
Definition same_field (replace : bool) (kind : string) (b : fields) (key value : string) : bool :=
  let oauth := (kind == "onedrive") || (kind == "drive") in
  if oauth && ((key == "token") || replace && ((key == "client_id") || (key == "client_secret"))) then true
  else if replace && (kind == "webdav") && ((key == "pass") || (key == "bearer_token"))
  then Bool.eqb (value == "") (get b key == "")
  else get b key == value.
Definition same_fields (replace : bool) (kind : string) (a b : fields) : bool :=
  bool_decide (map_Forall (λ key value, same_field replace kind b key value = true) a).

Definition same_section (replace : bool) (other : gmap string fields) (name : string) (section : fields) : bool :=
  match other !! name with
  | None => false
  | Some next =>
      let kind := get section "type" in
      same_fields replace kind section next && same_fields replace kind next section
  end.

Definition sameConfig (c other : Config) (replace : bool) : bool :=
  (cf_remote c == cf_remote other) && Nat.eqb (size (cf_sections c)) (size (cf_sections other)) &&
  bool_decide (map_Forall (λ name section, same_section replace (cf_sections other) name section = true) (cf_sections c)).

Definition SameExceptToken (c other : Config) : bool := sameConfig c other false.
Definition SameTarget (c other : Config) : bool := sameConfig c other true.
