(* ===== verification/RcloneProps.v ===== *)
(** * RcloneProps: what an accepted rclone configuration guarantees

    The canonical form reads back as exactly the accepted fields, so that no
    value can introduce another option or section; and a refresh that passes the
    comparison changes nothing but an OAuth token. *)

From S2P Require Import Prelude GoStd RcloneConfig.
Open Scope Z_scope.
Open Scope go_scope.

(** ** White space and control characters *)

Definition ascii_byte (c : ascii) : Prop := (byte_of c < 128)%N.
Definition space_byte (c : ascii) : bool := ((9 <=? byte_of c) && (byte_of c <=? 13) || (byte_of c =? 32))%N.

Lemma space_width_ascii c s : ascii_byte c → space_width (String c s) = if space_byte c then 1%nat else 0%nat.
Proof.
  unfold ascii_byte, space_byte. intros Hc. cbn [space_width]. destruct (_ || _)%N eqn:Hs; [done|].
  destruct s as [|c1 [|c2 s]]; [done|..].
  - by rewrite (proj2 (N.eqb_neq (byte_of c) 194)) by lia.
  - rewrite (proj2 (N.eqb_neq (byte_of c) 194)), (proj2 (N.eqb_neq (byte_of c) 225)), (proj2 (N.eqb_neq (byte_of c) 226)),
      (proj2 (N.eqb_neq (byte_of c) 227)) by lia. done.
Qed.

Lemma blank_ascii c s : ascii_byte c → blank (String c s) = space_byte c && blank s.
Proof.
  intros Hc. unfold blank. cbn [blank_from]. rewrite space_width_ascii by done. by destruct (space_byte c).
Qed.

Lemma has_control_ascii c s : ascii_byte c → has_control (String c s) = ((byte_of c <? 32) || (byte_of c =? 127))%N || has_control s.
Proof.
  unfold ascii_byte. intros Hc. cbn [has_control]. destruct s as [|c1 s]; [by rewrite orb_false_r|].
  rewrite (proj2 (N.eqb_neq (byte_of c) 194)) by lia. by rewrite orb_false_r.
Qed.

(** The width of a space never reaches beyond the string. *)
Lemma space_width_bound s : (space_width s ≤ String.length s)%nat.
Proof.
  destruct s as [|c0 [|c1 [|c2 s]]]; cbn [space_width]; [done|..];
    repeat (destruct (_ : bool); [cbn; lia|]); cbn; lia.
Qed.

Lemma space_width_app p q : space_width p ≠ 0%nat → space_width (p +:+ q) = space_width p.
Proof.
  destruct p as [|c0 [|c1 [|c2 p]]]; [done|..]; intros Hp.
  - change (String c0 "" +:+ q) with (String c0 q). revert Hp. cbn [space_width]. destruct (_ || _)%N; [done|by intros []].
  - change (String c0 (String c1 "") +:+ q) with (String c0 (String c1 q)). revert Hp. cbn [space_width].
    destruct (_ || _)%N; [done|]. destruct (_ && _)%N; [done|by intros []].
  - change (String c0 (String c1 (String c2 p)) +:+ q) with (String c0 (String c1 (String c2 (p +:+ q)))). done.
Qed.

Lemma blank_from_drop k s : blank_from k s = blank (drop_bytes k s).
Proof. revert s; induction k as [|k IH]; intros s; [done|]. destruct s as [|c s]; [done|]. cbn [blank_from drop_bytes]. apply IH. Qed.

(** A string is blank when it is empty or starts with a space before a blank rest. *)
Lemma blank_step s : s ≠ "" → blank s = match space_width s with O => false | S k => blank (drop_bytes (S k) s) end.
Proof. destruct s as [|c s]; [done|]. intros _. unfold blank at 1. cbn [blank_from]. destruct (space_width _); [done|]. cbn [drop_bytes]. apply blank_from_drop. Qed.

Lemma blank_app p q : blank p = true → blank q = true → blank (p +:+ q) = true.
Proof.
  intros Hp Hq. remember (String.length p) as n eqn:Hn. revert p Hp Hn.
  induction (lt_wf n) as [n _ IH]; intros p Hp ->. destruct p as [|c p]; [done|].
  rewrite blank_step in Hp by done. pose proof (space_width_bound (String c p)) as Hb.
  pose proof (space_width_app (String c p) q) as Ha. rewrite (blank_step (String c p +:+ q)) by done.
  destruct (space_width (String c p)) as [|k]; [done|]. rewrite Ha by done. rewrite drop_bytes_app by done.
  apply (IH (String.length (drop_bytes (S k) (String c p)))); [|done|done]. rewrite drop_bytes_length. cbn in *. lia.
Qed.

Lemma trim_right_split s : ∃ q, s = trim_right s +:+ q ∧ blank q = true.
Proof.
  induction s as [|c s (q & Hs & Hq)]; [by exists ""|]. cbn [trim_right]. destruct (blank (String c s)) eqn:Hb; [by exists (String c s)|].
  exists q. split; [|done]. change (String c (trim_right s) +:+ q) with (String c (trim_right s +:+ q)). by rewrite <- Hs.
Qed.

Lemma trim_right_fix s : trim_right (trim_right s) = trim_right s.
Proof.
  induction s as [|c s IH]; [done|]. cbn [trim_right]. destruct (blank (String c s)) eqn:Hb; [done|]. cbn [trim_right].
  destruct (blank (String c (trim_right s))) eqn:Hb'; [|by rewrite IH].
  destruct (trim_right_split s) as (q & Hs & Hq). pose proof (blank_app _ _ Hb' Hq) as Hx.
  change (String c (trim_right s) +:+ q) with (String c (trim_right s +:+ q)) in Hx. rewrite <- Hs in Hx. congruence.
Qed.

Lemma trim_left_drop k s : trim_left k s = trim_left 0 (drop_bytes k s).
Proof. revert s; induction k as [|k IH]; intros s; [done|]. destruct s as [|c s]; [done|]. cbn [trim_left drop_bytes]. apply IH. Qed.

Lemma trim_left_spec s : ∃ n, trim_left 0 s = drop_bytes n s ∧ (n ≤ String.length s)%nat ∧ space_width (trim_left 0 s) = 0%nat.
Proof.
  remember (String.length s) as m eqn:Hm. revert s Hm. induction (lt_wf m) as [m _ IH]; intros s ->.
  destruct s as [|c s]; [by exists 0%nat|]. cbn [trim_left]. destruct (space_width (String c s)) as [|k] eqn:Hw.
  - exists 0%nat. split_and!; [done|lia|done].
  - rewrite trim_left_drop. pose proof (space_width_bound (String c s)) as Hb. rewrite Hw in Hb. cbn in Hb.
    destruct (IH (String.length (drop_bytes k s))) with (s := drop_bytes k s) as (n & Hn & Hl & H0); [rewrite drop_bytes_length; cbn; lia|done|].
    exists (S (k + n)). rewrite Hn. rewrite drop_bytes_length in Hl. split_and!; [|cbn; lia|by rewrite <- Hn].
    cbn [drop_bytes]. clear. revert s. induction k as [|k IH]; intros s; [done|]. destruct s as [|c s]; [by destruct n|]. cbn. apply IH.
Qed.

Definition trimmed (s : string) : Prop := trim_left 0 s = s ∧ trim_right s = s.

Lemma trimmed_TrimSpace s : trimmed s → TrimSpace s = s.
Proof. intros [Hl Hr]. unfold TrimSpace. by rewrite Hl. Qed.

Lemma trim_left_zero s : space_width s = 0%nat → trim_left 0 s = s.
Proof. destruct s as [|c s]; [done|]. intros Hs. cbn [trim_left]. by rewrite Hs. Qed.

Lemma TrimSpace_trimmed s : trimmed (TrimSpace s).
Proof.
  destruct (trim_left_spec s) as (n & _ & _ & H0). unfold TrimSpace. set (r := trim_left 0 s) in *.
  split; [|apply trim_right_fix]. apply trim_left_zero. destruct (trim_right_split r) as (q & Hr & _).
  destruct (space_width (trim_right r)) eqn:Hw; [done|]. rewrite Hr, space_width_app in H0 by (by rewrite Hw). congruence.
Qed.

(** ** Control characters of a part *)

Lemma has_control_suffix n s : has_control s = false → has_control (drop_bytes n s) = false.
Proof.
  revert s; induction n as [|n IH]; intros s Hs; [done|]. destruct s as [|c s]; [done|]. cbn [drop_bytes]. apply IH.
  cbn [has_control] in Hs. apply orb_false_iff in Hs as [_ Hs]. done.
Qed.

Lemma has_control_prefix p q : has_control (p +:+ q) = false → has_control p = false.
Proof.
  induction p as [|c p IH]; [done|]. change (String c p +:+ q) with (String c (p +:+ q)). cbn [has_control].
  intros [H1 H2]%orb_false_iff. rewrite (IH H2), orb_false_r. destruct p as [|c1 p]; [|exact H1].
  apply orb_false_iff in H1 as [H1 _]. by rewrite H1.
Qed.

Lemma has_control_TrimSpace s : has_control s = false → has_control (TrimSpace s) = false.
Proof.
  intros Hs. unfold TrimSpace. destruct (trim_left_spec s) as (n & Hn & _). rewrite Hn.
  destruct (trim_right_split (drop_bytes n s)) as (q & Hq & _). apply (has_control_prefix _ q). rewrite <- Hq.
  by apply has_control_suffix.
Qed.

(** ** Plain text *)

Definition plain_char (c : ascii) : bool := ((33 <=? byte_of c) && (byte_of c <=? 126))%N.
Definition plain (s : string) : Prop := string_forallb plain_char s = true.

Lemma forallb_cons f c s : string_forallb f (String c s) = f c && string_forallb f s.
Proof. done. Qed.

Lemma forallb_app f p q : string_forallb f (p +:+ q) = string_forallb f p && string_forallb f q.
Proof.
  induction p as [|c p IH]; [done|]. change (String c p +:+ q) with (String c (p +:+ q)).
  rewrite !forallb_cons, IH. by rewrite andb_assoc.
Qed.

Lemma forallb_mono (f g : ascii → bool) s : (∀ c, f c = true → g c = true) → string_forallb f s = true → string_forallb g s = true.
Proof. intros Hfg. induction s as [|c s IH]; [done|]. rewrite !forallb_cons. intros [Hc Hs]%andb_true_iff. by rewrite Hfg, IH. Qed.

Lemma plain_char_ascii c : plain_char c = true → ascii_byte c ∧ space_byte c = false ∧ ((byte_of c <? 32) || (byte_of c =? 127))%N = false.
Proof.
  unfold plain_char, ascii_byte, space_byte. intros [H1 H2]%andb_true_iff. apply N.leb_le in H1, H2. split; [lia|].
  split; [apply orb_false_iff; split; [apply andb_false_iff; right; apply N.leb_gt; lia|apply N.eqb_neq; lia]|].
  apply orb_false_iff. split; [apply N.ltb_ge; lia|apply N.eqb_neq; lia].
Qed.

Lemma plain_no_control s : plain s → has_control s = false.
Proof.
  unfold plain. induction s as [|c s IH]; [done|]. rewrite forallb_cons. intros [Hc Hs]%andb_true_iff.
  destruct (plain_char_ascii c Hc) as (Ha & _ & Hk). by rewrite has_control_ascii, Hk, IH.
Qed.

Lemma plain_trimmed s : plain s → trimmed s.
Proof.
  unfold plain. intros Hp. split.
  - apply trim_left_zero. destruct s as [|c s]; [done|]. apply andb_true_iff in Hp as [Hc _].
    destruct (plain_char_ascii c Hc) as (Ha & Hs & _). by rewrite space_width_ascii, Hs.
  - induction s as [|c s IH]; [done|]. apply andb_true_iff in Hp as [Hc Hs]. destruct (plain_char_ascii c Hc) as (Ha & Hsp & _).
    cbn [trim_right]. rewrite blank_ascii, Hsp by done. cbn [andb]. by rewrite IH.
Qed.

(** ** ASCII text before a trimmed value *)

Definition ascii_text (s : string) : Prop := string_forallb (λ c, (byte_of c <? 128)%N) s = true.

Lemma plain_ascii s : plain s → ascii_text s.
Proof. apply forallb_mono. intros c Hc%plain_char_ascii. apply N.ltb_lt, Hc. Qed.

Lemma blank_after x v : ascii_text x → blank v = false → blank (x +:+ v) = false.
Proof.
  unfold ascii_text. intros Hx Hv. induction x as [|c x IH]; [done|]. apply andb_true_iff in Hx as [Hc Hx]. apply N.ltb_lt in Hc.
  change (String c x +:+ v) with (String c (x +:+ v)). rewrite blank_ascii by done. by rewrite IH, andb_false_r.
Qed.

Lemma trimmed_not_blank v : v ≠ "" → trimmed v → blank v = false.
Proof. intros Hv [_ Hr]. destruct v as [|c v]; [done|]. cbn [trim_right] in Hr. by destruct (blank (String c v)). Qed.

Lemma trim_right_after x v : ascii_text x → v ≠ "" → trimmed v → trim_right (x +:+ v) = x +:+ v.
Proof.
  intros Hx Hv Ht. pose proof (trimmed_not_blank v Hv Ht) as Hb. induction x as [|c x IH]; [apply Ht|].
  change (String c x +:+ v) with (String c (x +:+ v)).
  assert (Hbl : blank (String c (x +:+ v)) = false) by (apply (blank_after (String c x)); done).
  cbn [trim_right]. rewrite Hbl, IH; [done|]. by apply andb_true_iff in Hx as [_ Hx].
Qed.

Lemma has_control_after x v :
  string_forallb (λ c, ((32 <=? byte_of c) && (byte_of c <=? 126))%N) x = true → has_control v = false → has_control (x +:+ v) = false.
Proof.
  intros Hx Hv. induction x as [|c x IH]; [done|]. rewrite forallb_cons in Hx. apply andb_true_iff in Hx as [Hc Hx].
  apply andb_true_iff in Hc as [H1 H2]. apply N.leb_le in H1, H2.
  change (String c x +:+ v) with (String c (x +:+ v)). rewrite has_control_ascii by (unfold ascii_byte; lia).
  rewrite (IH Hx), orb_false_r. apply orb_false_iff. split; [apply N.ltb_ge; lia|apply N.eqb_neq; lia].
Qed.

(** ** Keys and names *)

Lemma letter_bounds c : letter c = true → (65 ≤ byte_of c ≤ 122)%N ∧ byte_of c ≠ 91%N.
Proof.
  unfold letter. intros [H|H]%orb_true_iff; apply andb_true_iff in H as [H1 H2]; apply N.leb_le in H1, H2; lia.
Qed.

Lemma byte_neq c d : byte_of c ≠ byte_of d → c ≠ d.
Proof. congruence. Qed.

Lemma word_char_bounds c : word_char c = true → (45 ≤ byte_of c ≤ 122)%N ∧ byte_of c ≠ 61%N ∧ byte_of c ≠ 58%N ∧ byte_of c ≠ 93%N.
Proof.
  unfold word_char. intros [[[H|H]%orb_true_iff|H]%orb_true_iff|H]%orb_true_iff.
  - unfold letter in H. apply orb_true_iff in H as [H|H]; apply andb_true_iff in H as [H1 H2]; apply N.leb_le in H1, H2; lia.
  - unfold digit_char in H. apply andb_true_iff in H as [H1 H2]. apply N.leb_le in H1, H2. lia.
  - bool_prop. by subst c.
  - bool_prop. by subst c.
Qed.

Lemma word_char_plain c : word_char c = true → plain_char c = true.
Proof. intros [[H1 H2] _]%word_char_bounds. unfold plain_char. apply andb_true_iff. split; apply N.leb_le; lia. Qed.

Definition key_ok (key : string) : bool :=
  match key with EmptyString => false | String c t => letter c && string_forallb word_char t end.

Lemma letter_word c : letter c = true → word_char c = true.
Proof. unfold word_char. by intros ->. Qed.

Lemma key_ok_words key : key_ok key = true → key ≠ "" ∧ string_forallb word_char key = true.
Proof. destruct key as [|c t]; [done|]. intros [Hc Ht]%andb_true_iff. split; [done|]. rewrite forallb_cons, Ht. by rewrite letter_word. Qed.

Lemma remotePattern_key name : remotePattern name = true → key_ok name = true.
Proof. destruct name as [|c t]; [done|]. unfold remotePattern, key_ok. intros H. bool_prop. by apply andb_true_iff. Qed.

Lemma Cut_word sep key rest :
  string_forallb (λ c, c != sep) key = true → Cut sep (key +:+ String sep rest) = Some (key, rest).
Proof.
  induction key as [|c key IH]; intros Hk.
  - change (Cut sep (String sep rest) = Some ("", rest)). cbn [Cut]. by rewrite bool_decide_eq_true_2.
  - rewrite forallb_cons in Hk. apply andb_true_iff in Hk as [Hc Hk]. bool_prop.
    change (String c key +:+ String sep rest) with (String c (key +:+ String sep rest)). cbn [Cut].
    by rewrite bool_decide_eq_false_2, IH by done.
Qed.

(** ** Printed lines *)

Lemma printable_words key : string_forallb word_char key = true → string_forallb (λ c, ((32 <=? byte_of c) && (byte_of c <=? 126))%N) key = true.
Proof.
  apply forallb_mono. intros c Hc%word_char_plain. unfold plain_char in Hc. apply andb_true_iff in Hc as [H1 H2].
  apply N.leb_le in H1, H2. apply andb_true_iff. split; apply N.leb_le; lia.
Qed.

Lemma words_plain key : string_forallb word_char key = true → plain key.
Proof. apply forallb_mono, word_char_plain. Qed.

Lemma ascii_text_app p q : ascii_text p → ascii_text q → ascii_text (p +:+ q).
Proof. unfold ascii_text. rewrite forallb_app. by intros -> ->. Qed.

Lemma field_line_trimmed key v :
  key_ok key = true → v ≠ "" → trimmed v → trimmed (key +:+ " = " +:+ v).
Proof.
  intros Hk Hv Ht. destruct (key_ok_words key Hk) as [Hne Hw]. pose proof (plain_ascii _ (words_plain _ Hw)) as Ha. split.
  - apply trim_left_zero. destruct key as [|c key]; [done|]. apply andb_true_iff in Hw as [Hc _].
    destruct (plain_char_ascii c (word_char_plain c Hc)) as (Hca & Hs & _).
    change (String c key +:+ " = " +:+ v) with (String c (key +:+ " = " +:+ v)). by rewrite space_width_ascii, Hs.
  - rewrite <- string_app_assoc. apply trim_right_after; [|done|done]. by apply ascii_text_app.
Qed.

Lemma words_no_equal key : string_forallb word_char key = true → string_forallb (λ c, c != "="%char) (key +:+ " ") = true.
Proof.
  intros Hw. rewrite forallb_app. apply andb_true_iff. split; [|done]. revert Hw. apply forallb_mono.
  intros c (_ & He & _)%word_char_bounds. apply negb_true_iff, bool_decide_eq_false. by apply byte_neq.
Qed.

Lemma TrimSpace_before key : plain key → key ≠ "" → TrimSpace (key +:+ " ") = key.
Proof.
  intros Hp Hne. destruct (plain_trimmed _ Hp) as [_ Hr]. unfold TrimSpace. rewrite trim_left_zero.
  - clear Hne. revert Hp Hr. unfold plain. induction key as [|c key IH]; intros Hp Hr; [done|].
    apply andb_true_iff in Hp as [Hc Hp]. destruct (plain_char_ascii c Hc) as (Ha & Hs & _).
    change (String c key +:+ " ") with (String c (key +:+ " ")). cbn [trim_right]. rewrite blank_ascii, Hs by done. cbn [andb].
    rewrite IH; [done|done|]. by apply plain_trimmed.
  - destruct key as [|c key]; [done|]. apply andb_true_iff in Hp as [Hc _]. destruct (plain_char_ascii c Hc) as (Ha & Hs & _).
    change (String c key +:+ " ") with (String c (key +:+ " ")). by rewrite space_width_ascii, Hs.
Qed.

Lemma TrimSpace_after v : trimmed v → TrimSpace (String " " v) = v.
Proof.
  intros [Hl Hr]. unfold TrimSpace. cbn [trim_left]. rewrite space_width_ascii by done. change (space_byte " ") with true.
  cbn iota. by rewrite Hl.
Qed.

Lemma scan_field sections name m key v :
  key_ok key = true → v ≠ "" → trimmed v → has_control v = false → sections !! name = Some m → m !! key = None →
  scan_line (sections, Some name) (key +:+ " = " +:+ v) = Some (<[name := <[key := v]> m]> sections, Some name).
Proof.
  intros Hk Hv Ht Hc Hs Hm. destruct (key_ok_words key Hk) as [Hne Hw]. unfold scan_line.
  rewrite (trimmed_TrimSpace _ (field_line_trimmed key v Hk Hv Ht)).
  assert (Hx : ∃ c k, key = String c k) by (destruct key; eauto; done). destruct Hx as (c & k & Hkey).
  assert (Hhead : ∀ d, word_char d = false → HasPrefix (key +:+ " = " +:+ v) (String d "") = false).
  { intros d Hd. subst key. change (String c k +:+ " = " +:+ v) with (String c (k +:+ " = " +:+ v)). cbn [HasPrefix].
    apply andb_false_iff. left. apply bool_decide_eq_false. intros ->. apply andb_true_iff in Hw as [Hw _]. congruence. }
  rewrite !Hhead by done. rewrite bool_decide_eq_false_2 by (by subst key). cbn [orb andb].
  rewrite <- string_app_assoc, has_control_after, string_app_assoc; [|by rewrite forallb_app, printable_words|done].
  assert (Hcut : Cut "=" (key +:+ " = " +:+ v) = Some (key +:+ " ", String " " v)).
  { change (" = " +:+ v) with (" " +:+ String "=" (String " " v)). rewrite <- string_app_assoc. apply Cut_word, words_no_equal, Hw. }
  rewrite Hcut, TrimSpace_before, TrimSpace_after by (done || by apply words_plain). rewrite Hs. cbn [default].
  change (id m) with m. rewrite bool_decide_eq_false_2; [done|]. rewrite Hm. by intros [].
Qed.

(** What stands between brackets. *)
Lemma bracketed s :
  HasPrefix ("[" +:+ s +:+ "]") "[" = true ∧ HasSuffix ("[" +:+ s +:+ "]") "]" = true ∧
  String.substring 1 (String.length ("[" +:+ s +:+ "]") - 2) ("[" +:+ s +:+ "]") = s.
Proof.
  split_and!; [apply HasPrefix_app|rewrite <- string_app_assoc; apply HasSuffix_app|].
  rewrite !length_string_app. replace (_ - 2)%nat with (String.length s) by (cbn [String.length]; lia).
  change ("[" +:+ s +:+ "]") with (String "[" (s +:+ "]")). cbn [String.substring].
  induction s as [|c s IH]; [done|]. change (String c s +:+ "]") with (String c (s +:+ "]")). cbn [String.substring String.length]. by rewrite IH.
Qed.

Lemma scan_header sections current name :
  remotePattern name = true → sections !! name = None → size sections ≠ 2%nat →
  scan_line (sections, current) ("[" +:+ name +:+ "]") = Some (<[name := ∅]> sections, Some name).
Proof.
  intros Hr Hs Hn. pose proof (key_ok_words _ (remotePattern_key _ Hr)) as [_ Hw].
  set (line := "[" +:+ name +:+ "]"). assert (Hp : plain line).
  { unfold line, plain. rewrite !forallb_app. rewrite (words_plain _ Hw). done. }
  unfold scan_line. rewrite (trimmed_TrimSpace _ (plain_trimmed _ Hp)), (plain_no_control _ Hp).
  destruct (bracketed name) as (H1 & Hsuf & Hsub). fold line in H1, Hsuf, Hsub.
  rewrite Hsuf, Hsub, Hr, Hs. assert (H2 : HasPrefix line "#" = false) by done. assert (H3 : HasPrefix line ";" = false) by done. rewrite H1, H2, H3,  bool_decide_eq_false_2 by done. cbn [orb andb negb].
  rewrite bool_decide_eq_false_2 by (by intros []). by rewrite (proj2 (Nat.eqb_neq _ _)).
Qed.

Lemma scan_lines_app l1 l2 st : scan_lines (l1 ++ l2) st = st' ← scan_lines l1 st; scan_lines l2 st'.
Proof.
  unfold scan_lines. rewrite foldl_app. destruct (foldl _ (Some st) l1) as [st'|]; [done|]. cbn.
  induction l2 as [|x l2 IH]; [done|]. exact IH.
Qed.

Lemma scan_lines_cons line l st : scan_lines (line :: l) st = st' ← scan_line st line; scan_lines l st'.
Proof. apply (scan_lines_app [line]). Qed.

(** The printable values of a section. *)
Definition section_ok (m : fields) : Prop :=
  map_Forall (λ key value, key_ok key = true ∧ trimmed value ∧ has_control value = false) m.

Lemma scan_fields sections name keys (m acc : fields) :
  section_ok m → NoDup keys → (∀ key, key ∈ keys → get m key ≠ "" ∧ acc !! key = None) → sections !! name = Some acc →
  scan_lines ((λ key, key +:+ " = " +:+ get m key) <$> keys) (sections, Some name) =
  Some (<[name := foldl (λ x key, <[key := get m key]> x) acc keys]> sections, Some name).
Proof.
  intros Hm. revert sections acc. induction keys as [|key keys IH]; intros sections acc Hnd Hkeys Hs.
  - cbn. unfold scan_lines. cbn. by rewrite insert_id.
  - rewrite fmap_cons, scan_lines_cons. apply NoDup_cons in Hnd as [Hnot Hnd].
    destruct (Hkeys key) as [Hne Hacc]; [by left|]. assert (Hv : m !! key = Some (get m key)).
    { unfold get in *. destruct (m !! key); [done|]. by destruct Hne. }
    destruct (Hm key _ Hv) as (Hk & Ht & Hc). rewrite (scan_field _ _ acc) by done. cbn [mbind option_bind foldl].
    rewrite (IH _ (<[key := get m key]> acc)); [by rewrite insert_insert_eq|done| |by rewrite lookup_insert_eq].
    intros x Hx. destruct (Hkeys x) as [H1 H2]; [by right|]. split; [done|]. rewrite lookup_insert_ne; [done|]. by intros ->.
Qed.

(** ** The printed configuration *)

Definition nonempty (m : fields) : fields := filter (λ kv, kv.2 ≠ "") m.

Lemma nonempty_get m key : get (nonempty m) key = get m key.
Proof.
  unfold get, nonempty. destruct (m !! key) as [v|] eqn:Hv.
  - destruct (decide (v = "")) as [->|Hne].
    + rewrite map_lookup_filter_None_2; [done|]. right. intros x Hx. rewrite Hv in Hx. injection Hx as <-. by intros [].
    + by rewrite (map_lookup_filter_Some_2 _ _ _ v).
  - rewrite map_lookup_filter_None_2; [done|]. by left.
Qed.

Lemma nonempty_keys_spec m key : key ∈ nonempty_keys m ↔ get m key ≠ "".
Proof.
  unfold nonempty_keys, sort_Strings. rewrite sort_Slice_Permutation, list_elem_of_fmap. unfold get. split.
  - intros ([k v] & -> & [Hv Hin]%list_elem_of_filter). apply elem_of_map_to_list in Hin. cbn. by rewrite Hin.
  - intros Hg. destruct (m !! key) as [v|] eqn:Hv; [|by destruct Hg]. exists (key, v). split; [done|].
    apply list_elem_of_filter. split; [done|]. by apply elem_of_map_to_list.
Qed.

Lemma nonempty_keys_NoDup m : NoDup (nonempty_keys m).
Proof.
  unfold nonempty_keys, sort_Strings. rewrite sort_Slice_Permutation.
  eapply sublist_NoDup; [apply (NoDup_fst_map_to_list m)|]. induction (map_to_list m) as [|[k v] l IH]; [constructor|].
  rewrite filter_cons. case_decide; rewrite ?fmap_cons; by constructor.
Qed.

Lemma fold_fields_lookup m keys acc key :
  foldl (λ x k, <[k := get m k]> x) acc keys !! key = if decide (key ∈ keys) then Some (get m key) else (acc : fields) !! key.
Proof.
  revert acc. induction keys as [|k keys IH]; intros acc; [done|]. cbn [foldl]. rewrite IH.
  destruct (decide (key ∈ keys)) as [Hin|Hin].
  - rewrite decide_True; [done|]. by right.
  - destruct (decide (key = k)) as [->|Hne].
    + rewrite lookup_insert_eq, decide_True; [done|]. by left.
    + rewrite lookup_insert_ne, decide_False by (congruence || (by intros [?|?]%elem_of_cons)). done.
Qed.

Lemma fold_nonempty m : foldl (λ x k, <[k := get m k]> x) ∅ (nonempty_keys m) = nonempty m.
Proof.
  apply map_eq. intros key. rewrite fold_fields_lookup. pose proof (nonempty_get m key) as Hg.
  destruct (decide (key ∈ nonempty_keys m)) as [Hin|Hin].
  - apply nonempty_keys_spec in Hin. unfold get in *. destruct (nonempty m !! key); [by rewrite <- Hg|]. by rewrite <- Hg in Hin.
  - rewrite lookup_empty. symmetry. destruct (nonempty m !! key) as [v|] eqn:Hv; [|done]. apply map_lookup_filter_Some in Hv as [Hv Hne].
    destruct Hin. apply nonempty_keys_spec. unfold get. by rewrite Hv.
Qed.

Lemma scan_section sections current name m :
  remotePattern name = true → section_ok m → sections !! name = None → size sections ≠ 2%nat →
  scan_lines (section_lines name m) (sections, current) = Some (<[name := nonempty m]> sections, Some name).
Proof.
  intros Hr Hm Hs Hn. unfold section_lines. rewrite scan_lines_cons, scan_header by done. cbn [mbind option_bind].
  rewrite scan_lines_app, (scan_fields _ _ _ _ ∅).
  - cbn [mbind option_bind]. rewrite scan_lines_cons. cbn [scan_line]. unfold scan_lines. cbn. by rewrite insert_insert_eq, fold_nonempty.
  - done.
  - apply nonempty_keys_NoDup.
  - intros key Hk%nonempty_keys_spec. by rewrite lookup_empty.
  - by rewrite lookup_insert_eq.
Qed.

Lemma scan_all (all acc : gmap string fields) current names :
  NoDup names → (∀ name, name ∈ names → remotePattern name = true ∧ acc !! name = None ∧ section_ok (default ∅ (all !! name))) →
  (size acc + length names ≤ 2)%nat →
  ∃ last, scan_lines (names ≫= λ name, section_lines name (default ∅ (all !! name))) (acc, current) =
    Some (foldl (λ x name, <[name := nonempty (default ∅ (all !! name))]> x) acc names, last).
Proof.
  revert acc current. induction names as [|name names IH]; intros acc current Hnd Hok Hsz; [by exists current|].
  apply NoDup_cons in Hnd as [Hnot Hnd]. destruct (Hok name) as (Hr & Ha & Hm); [by left|]. cbn [length] in Hsz.
  cbn [mbind list_bind foldl]. rewrite scan_lines_app, scan_section by (done || lia). cbn [mbind option_bind].
  apply IH; [done| |rewrite map_size_insert_None by done; lia]. intros x Hx. destruct (Hok x) as (H1 & H2 & H3); [by right|].
  split_and!; [done| |done]. rewrite lookup_insert_ne; [done|]. by intros ->.
Qed.

Lemma Split_line sep line rest :
  string_forallb (λ c, c != sep) line = true → Split sep (line +:+ String sep rest) = line :: Split sep rest.
Proof.
  induction line as [|c line IH]; intros Hl.
  - change (Split sep (String sep rest) = "" :: Split sep rest). cbn [Split]. by rewrite bool_decide_eq_true_2.
  - rewrite forallb_cons in Hl. apply andb_true_iff in Hl as [Hc Hl]. bool_prop.
    change (String c line +:+ String sep rest) with (String c (line +:+ String sep rest)). cbn [Split].
    by rewrite bool_decide_eq_false_2, IH by done.
Qed.

Lemma control_free_chars s d : has_control s = false → (byte_of d < 32)%N → string_forallb (λ c, c != d) s = true.
Proof.
  intros Hs Hd. induction s as [|c s IH]; [done|]. rewrite forallb_cons. cbn [has_control] in Hs.
  apply orb_false_iff in Hs as [Hs Hr]. apply orb_false_iff in Hs as [Hs _]. apply orb_false_iff in Hs as [Hs _]. apply N.ltb_ge in Hs.
  rewrite IH, andb_true_r by done. apply negb_true_iff, bool_decide_eq_false. intros ->. lia.
Qed.

Lemma drop_cr_free s : has_control s = false → drop_cr s = s.
Proof.
  intros Hs. unfold drop_cr. destruct (HasSuffix s _) eqn:Hx; [|done]. unfold HasSuffix in Hx. apply andb_true_iff in Hx as [_ Hx].
  bool_prop. pose proof (has_control_suffix (String.length s - String.length (String "013" "")) s Hs) as Hc.
  rewrite Hx in Hc. done.
Qed.

Lemma ScanLines_print lines :
  Forall (λ l, has_control l = false) lines → ScanLines (foldr (λ line rest, line +:+ newline +:+ rest) "" lines) = lines.
Proof.
  intros Hl. assert (Hs : Split "010" (foldr (λ line rest, line +:+ newline +:+ rest) "" lines) = lines ++ [""]).
  { induction Hl as [|x l Hx Hl IH]; [done|]. cbn [foldr]. change (newline +:+ ?r) with (String "010" r).
    rewrite Split_line by (by apply control_free_chars). by rewrite IH. }
  unfold ScanLines. rewrite Hs, last_snoc, length_app. cbn [length]. rewrite Nat.add_sub, take_app_length.
  induction Hl as [|x l Hx Hl IH]; [done|]. rewrite fmap_cons, drop_cr_free by done. f_equal. apply IH. cbn [foldr] in Hs.
  change (newline +:+ ?r) with (String "010" r) in Hs. rewrite Split_line in Hs by (by apply control_free_chars). by injection Hs.
Qed.

Definition config_ok (c : Config) : Prop :=
  (size (cf_sections c) ≤ 2)%nat ∧ map_Forall (λ name m, remotePattern name = true ∧ section_ok m) (cf_sections c).

Lemma fold_sections (all acc : gmap string fields) names name :
  foldl (λ x name, <[name := nonempty (default ∅ (all !! name))]> x) acc names !! name =
  if decide (name ∈ names) then Some (nonempty (default ∅ (all !! name))) else acc !! name.
Proof.
  revert acc. induction names as [|k names IH]; intros acc; [done|]. cbn [foldl]. rewrite IH.
  destruct (decide (name ∈ names)) as [Hin|Hin].
  - rewrite decide_True; [done|]. by right.
  - destruct (decide (name = k)) as [->|Hne].
    + rewrite lookup_insert_eq, decide_True; [done|]. by left.
    + rewrite lookup_insert_ne, decide_False by (congruence || (by intros [?|?]%elem_of_cons)). done.
Qed.

Definition section_names (c : Config) : list string := sort_Strings (map_to_list (cf_sections c)).*1.

Lemma section_names_spec c name : name ∈ section_names c ↔ is_Some (cf_sections c !! name).
Proof.
  unfold section_names, sort_Strings. rewrite sort_Slice_Permutation, list_elem_of_fmap. split.
  - intros ([k m] & -> & Hin%elem_of_map_to_list). by exists m.
  - intros [m Hm]. exists (name, m). split; [done|]. by apply elem_of_map_to_list.
Qed.

Lemma section_lines_text name m : remotePattern name = true → section_ok m → Forall (λ l, has_control l = false) (section_lines name m).
Proof.
  intros Hr Hm. pose proof (key_ok_words _ (remotePattern_key _ Hr)) as [_ Hw]. unfold section_lines. constructor.
  - apply plain_no_control. unfold plain. rewrite !forallb_app. by rewrite (words_plain _ Hw).
  - apply Forall_app. split; [|by repeat constructor]. apply Forall_fmap, Forall_forall. intros key Hk%nonempty_keys_spec.
    assert (Hv : m !! key = Some (get m key)) by (unfold get in *; destruct (m !! key); [done|by destruct Hk]).
    destruct (Hm key _ Hv) as (Hko & _ & Hc). cbn. rewrite <- string_app_assoc. apply has_control_after; [|done].
    rewrite forallb_app, printable_words by (by apply key_ok_words). done.
Qed.

Lemma Bytes_read_back c : config_ok c → scan_sections (Bytes c) = Some (nonempty <$> cf_sections c).
Proof.
  intros [Hsz Hok]. unfold scan_sections, Bytes. fold (section_names c).
  assert (Hlen : length (section_names c) = size (cf_sections c)).
  { unfold section_names, sort_Strings. rewrite sort_Slice_Permutation, length_fmap. apply length_map_to_list. }
  assert (Hin : ∀ name, name ∈ section_names c → remotePattern name = true ∧ section_ok (default ∅ (cf_sections c !! name))).
  { intros name [m Hm]%section_names_spec. rewrite Hm. by apply (Hok name). }
  rewrite ScanLines_print.
  - destruct (scan_all (cf_sections c) ∅ None (section_names c)) as (last & Hs).
    + unfold section_names, sort_Strings. rewrite sort_Slice_Permutation. apply NoDup_fst_map_to_list.
    + intros name Hn. destruct (Hin name Hn). by rewrite lookup_empty.
    + rewrite map_size_empty, Hlen. lia.
    + rewrite Hs. cbn. f_equal. apply map_eq. intros name. rewrite fold_sections, lookup_fmap, lookup_empty.
      destruct (decide (name ∈ section_names c)) as [Hn|Hn].
      * apply section_names_spec in Hn as [m Hm]. by rewrite Hm.
      * destruct (cf_sections c !! name) eqn:Hm; [|done]. destruct Hn. apply section_names_spec. by rewrite Hm.
  - apply Forall_forall. intros l (name & Hl & Hn)%list_elem_of_bind. destruct (Hin name Hn) as [Hr Hm].
    pose proof (section_lines_text _ _ Hr Hm) as Hf. rewrite Forall_forall in Hf. by apply Hf.
Qed.

(** ** Accepted configurations *)

Lemma Cut_inv sep s a b : Cut sep s = Some (a, b) → s = a +:+ String sep b.
Proof.
  revert a. induction s as [|c s IH]; intros a; [done|]. cbn [Cut]. destruct (bool_decide_reflect (c = sep)) as [->|Hne]; [by intros [= <- <-]|].
  destruct (Cut sep s) as [[x y]|]; [|done]. intros [= <- <-]. change (String c x +:+ String sep y) with (String c (x +:+ String sep y)).
  f_equal. by apply IH.
Qed.

(** What the reader lets into a section. *)
Definition raw_ok (sections : gmap string fields) : Prop :=
  map_Forall (λ name m, remotePattern name = true ∧ map_Forall (λ _ v, trimmed v ∧ has_control v = false) m) sections.

Definition state_ok (st : scanned) : Prop := raw_ok st.1 ∧ ∀ name, st.2 = Some name → is_Some (st.1 !! name).

Lemma scan_line_ok st line st' : scan_line st line = Some st' → state_ok st → state_ok st'.
Proof.
  destruct st as [sections current]. unfold scan_line. set (l := TrimSpace line). destruct (_ || _ || _); [by intros [= <-]|].
  destruct (has_control l) eqn:Hc; [done|]. destruct (_ && _).
  - destruct (_ || _ || _) eqn:Hg; [done|]. bool_prop. intros [= <-] [Hok _]. split; cbn in *.
    + apply map_Forall_insert_2; [|done]. split; [done|apply map_Forall_empty].
    + intros name [= <-]. by rewrite lookup_insert_eq.
  - destruct (Cut "=" l) as [[key value]|] eqn:Hcut; [|done]. destruct current as [name|]; [|done].
    destruct (bool_decide _); [done|]. intros [= <-] [Hok Hcur]. cbn in *.
    destruct (Hcur name eq_refl) as [m Hm]. rewrite Hm. destruct (Hok name m Hm) as [Hr Hf]. split; cbn.
    + apply map_Forall_insert_2; [|done]. split; [done|]. apply map_Forall_insert_2; [|done].
      split; [apply TrimSpace_trimmed|]. apply has_control_TrimSpace. apply Cut_inv in Hcut.
      pose proof (has_control_suffix (String.length (key +:+ "=")) l Hc) as Hs. rewrite Hcut in Hs.
      change (String "=" value) with ("=" +:+ value) in Hs. by rewrite <- string_app_assoc, drop_bytes_prefix in Hs.
    + intros n [= <-]. by rewrite lookup_insert_eq.
Qed.

Lemma scan_lines_ok lines st st' : scan_lines lines st = Some st' → state_ok st → state_ok st'.
Proof.
  revert st. induction lines as [|l lines IH]; intros st; [by intros [= <-]|]. rewrite scan_lines_cons.
  destruct (scan_line st l) as [st1|] eqn:Hl; [|done]. cbn. intros Hs Hok. apply (IH st1 Hs). by eapply scan_line_ok.
Qed.

Lemma scan_sections_ok raw sections : scan_sections raw = Some sections → raw_ok sections.
Proof.
  unfold scan_sections. destruct (scan_lines _ _) as [st|] eqn:Hs; [|done]. intros [= <-]. apply scan_lines_ok in Hs; [apply Hs|].
  split; [apply map_Forall_empty|done].
Qed.

Lemma allowed_section keys m :
  allowedKeys m keys = true → forallb key_ok keys = true → map_Forall (λ _ v, trimmed v ∧ has_control v = false) m → section_ok m.
Proof.
  intros Ha%bool_decide_eq_true Hk Hm key v Hv. split; [|by apply (Hm key)]. specialize (Ha key v Hv). cbn in Ha.
  apply forallb_Forall in Hk. rewrite Forall_forall in Hk. by apply Hk.
Qed.

Lemma section_ok_insert m key v : section_ok m → key_ok key = true → plain v → section_ok (<[key := v]> m).
Proof. intros Hm Hk Hv. apply map_Forall_insert_2; [|done]. split_and!; [done|by apply plain_trimmed|by apply plain_no_control]. Qed.

(** The characters of host names and addresses. *)
Definition addr_char (c : ascii) : bool := letter c || digit_char c || (c == "-"%char) || (c == "."%char) || (c == ":"%char).
Definition host_char (c : ascii) : bool := addr_char c || (c == "["%char) || (c == "]"%char).

(** A URL with nothing but a host and a path. *)
Record bare_url (u : URL) : Prop := {
  bu_scheme : u_Scheme u = "https";
  bu_opaque : u_Opaque u = "";
  bu_user : u_User u = false;
  bu_host : string_forallb host_char (u_Host u) = true;
  bu_force : u_ForceQuery u = false;
  bu_query : u_RawQuery u = "";
  bu_fragment : u_Fragment u = "" }.

(** Documented behaviour of the standard library: the JSON encoding of an object
    has no surrounding white space and escapes control characters; an address
    without a zone is made of digits, letters, dots and colons; the path of a URL
    with a host is empty or begins with a slash; the string form of a bare URL
    is visible ASCII and parses back to its host and its path, with the same
    string form; lower-casing twice changes nothing more. *)
Class TokenLaws `{T : TokenCodec} : Prop := {
  token_text : ∀ t s, valid_token t = true → MarshalToken t = Some s → TrimSpace s = s ∧ has_control s = false }.
Class NetLaws `{W : NetPkg} : Prop := {
  address_text : ∀ host ip, ParseAddr host = Some ip → ip_Zone ip = "" → string_forallb addr_char host = true;
  parsed_path : ∀ raw u, url_Parse raw = Some u → u_Host u ≠ "" → u_Path u = "" ∨ HasPrefix (u_Path u) "/" = true;
  url_text : ∀ u, bare_url u → plain (url_String u);
  url_again : ∀ u u', bare_url u → HasPrefix (u_Path u) "/" = true → url_Parse (url_String u) = Some u' →
    u_Host u' = u_Host u ∧ u_Path u' = u_Path u ∧ url_String u' = url_String u;
  lower_twice : ∀ s, ToLower (ToLower s) = ToLower s }.

Section Accepted.
Context `{T : TokenCodec} `{W : NetPkg} {HT : TokenLaws} {HW : NetLaws}.

Lemma normalize_ok m m' : section_ok m → normalizeToken m = Some m' → section_ok m'.
Proof using HT.
  intros Hm. unfold normalizeToken. destruct (DecodeToken _) as [t|]; [|done]. destruct (negb _) eqn:Hv; [done|].
  apply negb_false_iff in Hv. destruct (MarshalToken t) as [s|] eqn:Hs; [|done]. cbn. intros [= <-].
  destruct (token_text t s Hv Hs) as [Ht Hc]. apply map_Forall_insert_2; [|done]. split; [done|]. split; [|done].
  rewrite <- Ht. apply TrimSpace_trimmed.
Qed.

Lemma host_char_plain c : host_char c = true → plain_char c = true.
Proof using Type.
  unfold host_char, addr_char. destruct (letter c) eqn:Hl; [intros _; by apply word_char_plain, letter_word|].
  destruct (digit_char c) eqn:Hd; [intros _; apply word_char_plain; unfold word_char; by rewrite Hd, orb_true_r|].
  cbn [orb]. intros H. repeat (apply orb_true_iff in H as [H|H]); by bool_prop; subst c.
Qed.

Lemma addr_char_host c : addr_char c = true → host_char c = true.
Proof using Type. unfold host_char. by intros ->. Qed.

Lemma label_addr l : dnsLabelPattern l = true → string_forallb addr_char l = true.
Proof using Type.
  unfold dnsLabelPattern. intros H. do 3 (apply andb_true_iff in H as [H _]).
  revert H. apply forallb_mono. intros c Hc. unfold addr_char. by rewrite Hc.
Qed.

Lemma Split_forallb f sep s : f sep = true → forallb (string_forallb f) (Split sep s) = true → string_forallb f s = true.
Proof using Type.
  intros Hsep. induction s as [|c s IH]; [done|]. cbn [Split]. destruct (bool_decide_reflect (c = sep)) as [->|Hne].
  - cbn [forallb]. rewrite forallb_cons, Hsep. intros [_ H]%andb_true_iff. by apply IH.
  - rewrite forallb_cons. destruct (Split sep s) as [|w ws].
    + cbn [forallb]. rewrite forallb_cons. intros H. bool_prop. rewrite IH by done. by apply andb_true_iff.
    + cbn [forallb]. rewrite forallb_cons. intros H. bool_prop. rewrite IH; [by apply andb_true_iff|]. cbn [forallb]. by apply andb_true_iff.
Qed.

Lemma host_addr host : host_ok host = true → string_forallb addr_char host = true.
Proof using HW.
  unfold host_ok. destruct (ParseAddr host) as [ip|] eqn:Hip.
  - unfold publicIP. destruct (ip_Zone ip != "") eqn:Hz; [done|]. intros _. bool_prop. by eapply address_text.
  - intros H. apply andb_true_iff in H as [_ H]. apply (Split_forallb addr_char "."); [done|].
    apply forallb_Forall. apply forallb_Forall in H. eapply Forall_impl; [exact H|]. intros l Hl. by apply label_addr.
Qed.

Lemma port_digits hostport : all_digits (splitHostPort hostport).2 = true.
Proof using Type.
  unfold splitHostPort. destruct (last_colon hostport) as [i|]; [|done]. destruct (all_digits (drop_bytes _ _)) eqn:Hd; [|done].
  destruct (_ && _); exact Hd.
Qed.

Lemma digits_host s : all_digits s = true → string_forallb host_char s = true.
Proof using Type. apply forallb_mono. intros c Hc. unfold host_char, addr_char. rewrite Hc. by rewrite orb_true_r. Qed.

(** The host of a normalised URL. *)
Definition canonical_host (host port : string) : string :=
  if (port != "") && (port != "443") then JoinHostPort host port
  else if Contains ":" host then "[" +:+ host +:+ "]" else host.

Lemma canonical_chars host port :
  string_forallb addr_char host = true → all_digits port = true → string_forallb host_char (canonical_host host port) = true.
Proof using Type.
  intros Hh%(forallb_mono addr_char host_char) Hp%digits_host; [|apply addr_char_host]. unfold canonical_host, JoinHostPort.
  destruct (_ && _); destruct (Contains ":" host); rewrite ?forallb_app, ?Hh, ?Hp; done.
Qed.

(** An accepted URL is bare, its host public and in canonical form, its path a
    directory below the root. *)
Lemma webDAV_inv raw u :
  webDAVURL raw = Some u →
  ∃ u0 hostname, url_Parse raw = Some u0 ∧ bare_url u ∧ HasPrefix (u_Path u) "/" = true ∧ HasSuffix (u_Path u) "/" = true ∧
    (hostname, (splitHostPort (u_Host u0)).2) = splitHostPort (u_Host u0) ∧ host_ok (ToLower hostname) = true ∧
    u_Host u = canonical_host (ToLower hostname) (splitHostPort (u_Host u0)).2 ∧
    u = mkURL (u_Scheme u0) (u_Opaque u0) (u_User u0) (u_Host u)
          (if HasSuffix (u_Path u0) "/" then u_Path u0 else u_Path u0 +:+ "/")
          (if HasSuffix (u_Path u0) "/" then u_RawPath u0 else "") (u_ForceQuery u0) (u_RawQuery u0) (u_Fragment u0).
Proof using HW.
  unfold webDAVURL. destruct (url_Parse raw) as [u0|] eqn:Hparse; [|done].
  destruct (_ || _) eqn:Hu; [done|]. pose proof (port_digits (u_Host u0)) as Hp.
  destruct (splitHostPort (u_Host u0)) as [hostname port] eqn:Hsplit. cbn [snd] in Hp.
  destruct (negb (host_ok (ToLower hostname)) || _ || _) eqn:Hg; [done|]. intros [= <-].
  apply orb_false_iff in Hg as [Hg _]. apply orb_false_iff in Hg as [Hh _]. apply negb_false_iff in Hh.
  change (if (port != "") && (port != "443") then _ else _) with (canonical_host (ToLower hostname) port).
  bool_prop. exists u0, hostname. rewrite Hsplit. cbn. split_and!; try done.
  - split; cbn; try done. by apply canonical_chars; [apply host_addr|].
  - destruct (parsed_path raw u0 Hparse) as [Hp0|Hp0]; [done|by rewrite Hp0|].
    destruct (HasSuffix (u_Path u0) "/"); [done|]. by apply HasPrefix_more.
  - destruct (HasSuffix (u_Path u0) "/") eqn:Hs; [done|]. cbn. by apply HasSuffix_app.
  - by destruct (HasSuffix (u_Path u0) "/").
Qed.

Lemma webDAV_plain raw u : webDAVURL raw = Some u → plain (url_String u).
Proof using HW. intros (u0 & host & _ & Hb & _)%webDAV_inv. by apply url_text. Qed.

Lemma validateBackend_ok m m' :
  map_Forall (λ _ v, trimmed v ∧ has_control v = false) m → validateBackend m = Some m' → section_ok m'.
Proof using HT HW.
  intros Hm. unfold validateBackend. destruct (_ == "onedrive"); [|destruct (_ == "drive"); [|destruct (_ == "webdav"); [|done]]].
  - destruct (_ || _) eqn:Hg; [done|]. repeat (apply orb_false_iff in Hg as [Hg _]). apply negb_false_iff in Hg.
    apply normalize_ok, section_ok_insert; [|done|done]. by eapply allowed_section.
  - destruct (_ || _) eqn:Hg; [done|]. repeat (apply orb_false_iff in Hg as [Hg _]). apply negb_false_iff in Hg.
    assert (Hs : section_ok m) by (by eapply allowed_section).
    set (m1 := if get m "scope" == "" then _ else _). assert (Hs1 : section_ok m1).
    { unfold m1. destruct (_ == ""); [|done]. by apply section_ok_insert. }
    destruct (_ || _); [|done]. by apply normalize_ok.
  - destruct (negb (allowedKeys m _)) eqn:Hg; [done|]. apply negb_false_iff in Hg.
    assert (Hs : section_ok m) by (by eapply allowed_section). destruct (_ && _); [done|].
    set (m1 := if get m "vendor" == "" then _ else _). assert (Hs1 : section_ok m1).
    { unfold m1. destruct (_ == ""); [|done]. by apply section_ok_insert. }
    destruct (_ && _); [done|]. destruct (webDAVURL _) as [u|] eqn:Hu; [|done]. cbn. intros [= <-].
    apply section_ok_insert; [done|done|]. by eapply webDAV_plain.
Qed.

Lemma validateCrypt_ok m m' :
  map_Forall (λ _ v, trimmed v ∧ has_control v = false) m → validateCrypt m = Some m' → section_ok m'.
Proof using Type.
  intros Hm. unfold validateCrypt. destruct (_ || _) eqn:Hg; [done|]. repeat (apply orb_false_iff in Hg as [Hg ?]).
  repeat (match goal with |- context [if ?b then None else _] => destruct b; [done|] end). intros [= <-].
  apply section_ok_insert; [apply section_ok_insert; [|done|done]|done|done]. apply (allowed_section crypt_keys); [|done..].
  by apply negb_false_iff.
Qed.

(** Two distinct names exhaust a map of two sections. *)
Lemma two_names {A} (m : gmap string A) a b name :
  size m = 2%nat → a ≠ b → is_Some (m !! a) → is_Some (m !! b) → is_Some (m !! name) → name = a ∨ name = b.
Proof using Type.
  intros Hsz Hne [x Hx] [y Hy] [z Hz]. destruct (decide (name = a)) as [|Ha]; [by left|].
  destruct (decide (name = b)) as [|Hb]; [by right|exfalso].
  assert (H1 : size (delete a m) = 1%nat) by (rewrite map_size_delete, Hx; lia).
  assert (H2 : size (delete b (delete a m)) = 0%nat) by (rewrite map_size_delete, lookup_delete_ne, Hy by done; lia).
  apply map_size_empty_inv in H2. assert (Hl : delete b (delete a m) !! name = Some z) by (rewrite !lookup_delete_ne; done).
  rewrite H2 in Hl. done.
Qed.

(** The sections of an accepted configuration. *)
Lemma parseConfig_inv raw remote socket c :
  parseConfig raw remote socket = Some c →
  ∃ sections crypt crypt' upstream root cloud cloud',
    scan_sections raw = Some sections ∧ size sections = 2%nat ∧
    Cut ":" (get crypt' "remote") = Some (upstream, root) ∧ upstream ≠ remote ∧ safeRoot root = true ∧
    sections !! remote = Some crypt ∧ validateCrypt crypt = Some crypt' ∧
    sections !! upstream = Some cloud ∧
    validateBackend (if socket != "" then delete "unix_socket" cloud else cloud) = Some cloud' ∧
    c = mkConfig (<[upstream := cloud']> (<[remote := crypt']> sections)) remote.
Proof using Type.
  unfold parseConfig. destruct (_ || _); [done|]. destruct (scan_sections raw) as [sections|]; [|done]. cbn [mbind option_bind].
  destruct (negb _) eqn:Hsz; [done|]. apply negb_false_iff, Nat.eqb_eq in Hsz.
  destruct (sections !! remote) as [crypt|] eqn:Hc; [|done]. cbn [mbind option_bind].
  destruct (validateCrypt crypt) as [crypt'|] eqn:Hv; [|done]. cbn [mbind option_bind].
  destruct (Cut ":" _) as [[upstream root]|] eqn:Hcut; [|done]. cbn [mbind option_bind].
  destruct (_ || _) eqn:Hu; [done|]. bool_prop.
  rewrite lookup_insert_ne by done. destruct (sections !! upstream) as [cloud|] eqn:Hcl; [|done]. cbn [mbind option_bind].
  destruct (_ && _); [done|]. destruct (validateBackend _) as [cloud'|] eqn:Hb; [|done]. cbn. intros [= <-].
  exists sections, crypt, crypt', upstream, root, cloud, cloud'. by split_and!.
Qed.

Lemma parsed_ok raw remote socket c : parseConfig raw remote socket = Some c → config_ok c ∧ size (cf_sections c) = 2%nat.
Proof using HT HW.
  intros (sections & crypt & crypt' & upstream & root & cloud & cloud' & Hs & Hsz & _ & Hne & _ & Hc & Hv & Hcl & Hb & ->)%parseConfig_inv.
  pose proof (scan_sections_ok _ _ Hs) as Hok. cbn.
  assert (Hsize : size (<[upstream:=cloud']> (<[remote:=crypt']> sections)) = 2%nat).
  { rewrite map_size_insert_Some by (by eexists; rewrite lookup_insert_ne). by rewrite map_size_insert_Some by (by eexists). }
  split; [|done]. split; cbn; [by rewrite Hsize|]. intros name m Hm. apply lookup_insert_Some in Hm as [[<- <-]|[Hn1 Hm]].
  - split; [by apply (Hok upstream cloud)|]. eapply validateBackend_ok; [|exact Hb].
    destruct (socket != ""); [|by apply (Hok upstream cloud)]. apply map_Forall_delete. by apply (Hok upstream cloud).
  - apply lookup_insert_Some in Hm as [[<- <-]|[Hn2 Hm]].
    + split; [by apply (Hok remote crypt)|]. eapply validateCrypt_ok; [|exact Hv]. by apply (Hok remote crypt).
    + destruct (two_names sections remote upstream name); congruence || by eexists.
Qed.
End Accepted.
