(* ===== verification/RcloneTarget.v ===== *)
(** * RcloneTarget: what a comparison of rclone configurations preserves

    [SameExceptToken] and [SameTarget] as relations: what each allows to differ,
    that they are equivalences, and that a configuration compares equal to what
    is read back from its canonical form. *)

From S2P Require Import Prelude GoStd RcloneConfig RcloneProps.
Open Scope Z_scope.
Open Scope go_scope.

(** ** What may differ *)

Definition oauth (kind : string) : bool := (kind == "onedrive") || (kind == "drive").

(** The option [key] of a section of type [kind] may be replaced freely, or must
    keep its presence only. *)
Definition replaceable (replace : bool) (kind key : string) : bool :=
  oauth kind && ((key == "token") || replace && ((key == "client_id") || (key == "client_secret"))).
Definition presence_only (replace : bool) (kind key : string) : bool :=
  replace && (kind == "webdav") && ((key == "pass") || (key == "bearer_token")).

Definition agree (replace : bool) (kind key x y : string) : Prop :=
  if replaceable replace kind key then True
  else if presence_only replace kind key then (x = "" ↔ y = "")
  else x = y.

Global Instance agree_equivalence replace kind key : Equivalence (agree replace kind key).
Proof.
  unfold agree. destruct (replaceable _ _ _); [by split|]. destruct (presence_only _ _ _); [|apply _].
  split; repeat intro; naive_solver.
Qed.

Lemma agree_type replace kind x y : agree replace kind "type" x y ↔ x = y.
Proof. unfold agree, replaceable, presence_only. destruct (oauth kind), replace, (kind == "webdav"); done. Qed.

Lemma agree_weaken kind key x y : agree false kind key x y → agree true kind key x y.
Proof.
  unfold agree, replaceable, presence_only. cbn [andb]. rewrite orb_false_r.
  destruct (oauth kind), (bool_decide_reflect (key = "token")); cbn [andb orb]; try done;
    intros ->; repeat (destruct (_ || _)%bool || destruct (_ && _)%bool); done.
Qed.

Lemma agree_refresh kind key x y :
  agree false kind key x y ↔ x = y ∨ key = "token" ∧ (kind = "onedrive" ∨ kind = "drive").
Proof.
  unfold agree, replaceable, presence_only, oauth. cbn [andb]. rewrite orb_false_r.
  destruct (bool_decide_reflect (kind = "onedrive")), (bool_decide_reflect (kind = "drive")),
    (bool_decide_reflect (key = "token")); cbn; naive_solver.
Qed.

Lemma same_field_agree replace kind b key value :
  same_field replace kind b key value = true ↔ agree replace kind key value (get b key).
Proof.
  unfold same_field, agree. fold (oauth kind). fold (replaceable replace kind key). fold (presence_only replace kind key).
  destruct (replaceable _ _ _); [done|]. destruct (presence_only _ _ _).
  - rewrite eqb_true_iff. destruct (bool_decide_reflect (value = "")), (bool_decide_reflect (get b key = "")); naive_solver.
  - rewrite bool_decide_eq_true. naive_solver.
Qed.

Lemma same_fields_agree replace kind a b :
  same_fields replace kind a b && same_fields replace kind b a = true ↔ ∀ key, agree replace kind key (get a key) (get b key).
Proof.
  unfold same_fields. rewrite andb_true_iff, !bool_decide_eq_true. unfold map_Forall. setoid_rewrite same_field_agree.
  split.
  - intros [Hab Hba] key. destruct (a !! key) as [v|] eqn:Ha; [specialize (Hab key v Ha); unfold get at 1; by rewrite Ha|].
    destruct (b !! key) as [v|] eqn:Hb.
    + specialize (Hba key v Hb). symmetry. unfold get at 1. by rewrite Hb.
    + unfold get. by rewrite Ha, Hb.
  - intros H. split; intros key v Hv.
    + specialize (H key). unfold get at 1 in H. by rewrite Hv in H.
    + specialize (H key). symmetry in H. unfold get at 1 in H. by rewrite Hv in H.
Qed.

(** Two maps of one size, the keys of one among those of the other. *)
Lemma same_size_dom {A} (m1 m2 : gmap string A) :
  size m1 = size m2 → (∀ k, is_Some (m1 !! k) → is_Some (m2 !! k)) → dom m1 = dom m2.
Proof.
  intros Hsz Hin. apply leibniz_equiv, set_subseteq_size_equiv; [|by rewrite !size_dom, Hsz].
  intros k. rewrite !elem_of_dom. apply Hin.
Qed.

Lemma sameConfig_agree c other replace :
  sameConfig c other replace = true ↔
  cf_remote c = cf_remote other ∧ dom (cf_sections c) = dom (cf_sections other) ∧
  ∀ name old new, cf_sections c !! name = Some old → cf_sections other !! name = Some new →
    ∀ key, agree replace (get old "type") key (get old key) (get new key).
Proof.
  unfold sameConfig. rewrite !andb_true_iff, !bool_decide_eq_true, Nat.eqb_eq. unfold same_section, map_Forall. split.
  - intros [[Hr Hsz] Hall]. split_and!; [done|apply same_size_dom; [done|]|].
    + intros k [s Hs]. specialize (Hall k s Hs). cbn in Hall. by destruct (cf_sections other !! k).
    + intros name old new Ho Hn. specialize (Hall name old Ho). cbn in Hall. rewrite Hn in Hall. by apply same_fields_agree.
  - intros (Hr & Hd & Hall). split_and!; [done|by rewrite <- !size_dom, Hd|]. intros name old Ho.
    destruct (cf_sections other !! name) as [new|] eqn:Hn.
    + apply same_fields_agree. by eapply Hall.
    + apply not_elem_of_dom in Hn. apply elem_of_dom_2 in Ho. set_solver.
Qed.

(** ** Equivalences *)

Definition same (replace : bool) (c other : Config) : Prop := sameConfig c other replace = true.

Global Instance same_equivalence replace : Equivalence (same replace).
Proof.
  assert (Hlook : ∀ (a b : Config) name s, dom (cf_sections a) = dom (cf_sections b) → cf_sections a !! name = Some s →
    is_Some (cf_sections b !! name)) by (intros a b name s Hd Hs; apply elem_of_dom; rewrite <- Hd; by apply elem_of_dom_2 in Hs).
  split.
  - intros c. apply sameConfig_agree. split_and!; [done..|]. intros name old new Ho Hn key. by simplify_eq.
  - intros a b (Hr & Hd & Hall)%sameConfig_agree. apply sameConfig_agree. split_and!; [done..|]. intros name old new Ho Hn key.
    pose proof (Hall name new old Hn Ho) as H. pose proof (H "type") as Ht. apply agree_type in Ht. rewrite <- Ht. symmetry. apply H.
  - intros a b d (Hr & Hd & Hall)%sameConfig_agree (Hr' & Hd' & Hall')%sameConfig_agree. apply sameConfig_agree.
    split_and!; [congruence..|]. intros name old new Ho Hn key. destruct (Hlook a b name old Hd Ho) as [mid Hm].
    pose proof (Hall name old mid Ho Hm) as H. pose proof (H "type") as Ht. apply agree_type in Ht.
    etrans; [apply H|]. rewrite Ht. by apply (Hall' name).
Qed.

Lemma same_weaken c other : same false c other → same true c other.
Proof.
  intros (Hr & Hd & Hall)%sameConfig_agree. apply sameConfig_agree. split_and!; [done..|]. intros. by apply agree_weaken, Hall with name.
Qed.

(** An option that no comparison lets change. *)
Definition fixed_key (key : string) : Prop := key ∉ ["token"; "client_id"; "client_secret"; "pass"; "bearer_token"].

Lemma agree_fixed replace kind key x y : fixed_key key → agree replace kind key x y → x = y.
Proof.
  unfold fixed_key, agree, replaceable, presence_only. intros Hk. rewrite !not_elem_of_cons in Hk.
  destruct Hk as (H1 & H2 & H3 & H4 & H5 & _). rewrite !(bool_decide_eq_false_2 (key = _)) by done. by rewrite !andb_false_r.
Qed.

Lemma same_get replace c other name key :
  same replace c other → fixed_key key →
  get (default ∅ (cf_sections c !! name)) key = get (default ∅ (cf_sections other !! name)) key.
Proof.
  intros (_ & Hd & Hall)%sameConfig_agree Hk. destruct (cf_sections c !! name) as [old|] eqn:Ho, (cf_sections other !! name) as [new|] eqn:Hn.
  - cbn. by eapply agree_fixed, Hall.
  - apply not_elem_of_dom in Hn. apply elem_of_dom_2 in Ho. set_solver.
  - apply not_elem_of_dom in Ho. apply elem_of_dom_2 in Hn. set_solver.
  - done.
Qed.

Lemma same_Backend replace c other : same replace c other → Backend c = Backend other.
Proof.
  intros Hs. assert (Hr : cf_remote c = cf_remote other) by (by apply sameConfig_agree in Hs as [? _]).
  unfold Backend, cloud. rewrite Hr, (same_get replace c other (cf_remote other) "remote" Hs) by (unfold fixed_key; set_solver).
  apply (same_get replace); [done|]. unfold fixed_key. set_solver.
Qed.

(** C36: a configuration passes the refresh check exactly when it names the same
    remote, has the same sections, and agrees with the old one on every option
    except the [token] of a OneDrive or Google Drive section: a refreshed
    configuration can neither move the repository nor change an identity or an
    encryption key. *)
Theorem refresh_changes_only_the_token c other :
  SameExceptToken c other = true ↔
  cf_remote c = cf_remote other ∧ dom (cf_sections c) = dom (cf_sections other) ∧
  ∀ name old new, cf_sections c !! name = Some old → cf_sections other !! name = Some new →
    ∀ key, get old key = get new key ∨ key = "token" ∧ (get old "type" = "onedrive" ∨ get old "type" = "drive").
Proof.
  unfold SameExceptToken. rewrite sameConfig_agree.
  by setoid_rewrite agree_refresh.
Qed.

(** ** Hosts in canonical form *)

Lemma get_app_length p c q : String.get (String.length p) (p +:+ String c q) = Some c.
Proof. induction p as [|d p IH]; [done|]. exact IH. Qed.

Lemma get_app_before n p q : (n < String.length p)%nat → String.get n (p +:+ q) = String.get n p.
Proof.
  revert n. induction p as [|d p IH]; intros n H; [cbn in H; lia|]. destruct n as [|n]; [done|]. apply IH. cbn in H. lia.
Qed.

Lemma get_app_after n p q : String.get (String.length p + n) (p +:+ q) = String.get n q.
Proof. induction p as [|d p IH]; [done|]. exact IH. Qed.

Lemma get_forallb f s n c : string_forallb f s = true → String.get n s = Some c → f c = true.
Proof.
  revert n. induction s as [|d s IH]; intros n; [by destruct n|]. rewrite forallb_cons. intros [Hd Hs]%andb_true_iff.
  destruct n as [|n]; [by intros [= <-]|]. by apply IH.
Qed.

Definition no_colon (s : string) : Prop := string_forallb (λ c, c != ":"%char) s = true.

Lemma scan_no_colon s acc l :
  (∀ i, i ∈ l → String.get i s ≠ Some ":"%char) →
  foldl (λ acc i, if bool_decide (String.get i s = Some ":"%char) then Some i else acc) acc l = acc.
Proof.
  induction l as [|i l IH]; [done|]. intros H. cbn. rewrite bool_decide_eq_false_2 by (apply H; left).
  apply IH. intros j Hj. apply H. by right.
Qed.

Lemma last_colon_none s : no_colon s → last_colon s = None.
Proof.
  intros Hs. apply scan_no_colon. intros i _ Hi. pose proof (get_forallb _ _ _ _ Hs Hi) as H. done.
Qed.

Lemma last_colon_app p q : no_colon q → last_colon (p +:+ ":" +:+ q) = Some (String.length p).
Proof.
  intros Hq. unfold last_colon. rewrite !length_string_app. change (String.length ":") with 1%nat.
  rewrite seq_app, foldl_app. cbn [seq Nat.add]. cbn [foldl].
  rewrite (bool_decide_eq_true_2 (String.get _ _ = _)) by apply get_app_length. apply scan_no_colon.
  intros i Hi Hg. apply elem_of_seq in Hi. replace i with (String.length p + S (i - S (String.length p)))%nat in Hg by lia.
  rewrite get_app_after in Hg. cbn in Hg. pose proof (get_forallb _ _ _ _ Hq Hg). done.
Qed.

Lemma Contains_false c s : Contains c s = false ↔ string_forallb (λ d, d != c) s = true.
Proof.
  unfold Contains. induction s as [|d s IH]; [done|]. rewrite forallb_cons. cbn [Cut].
  destruct (bool_decide_reflect (d = c)); [done|]. cbn. rewrite <- IH. by destruct (Cut c s) as [[??]|].
Qed.

Lemma Contains_split s : Contains ":" s = true → ∃ p q, s = p +:+ ":" +:+ q ∧ no_colon q.
Proof.
  induction s as [|d s IH]; [done|]. intros H. destruct (Contains ":" s) eqn:Hs.
  - destruct (IH eq_refl) as (p & q & -> & Hq). by exists (String d p), q.
  - unfold Contains in *. cbn [Cut] in H. destruct (bool_decide_reflect (d = ":"%char)) as [->|]; [|by destruct (Cut ":" s) as [[??]|]].
    exists "", s. split; [done|]. apply Contains_false. unfold Contains. by rewrite Hs.
Qed.

Lemma digits_no_colon s : all_digits s = true → no_colon s.
Proof. apply forallb_mono. intros c Hc. apply negb_true_iff, bool_decide_eq_false. by intros ->. Qed.

Lemma substring_prefix p q : String.substring 0 (String.length p) (p +:+ q) = p.
Proof. induction p as [|c p IH]; [by destruct q|]. change (String c p +:+ q) with (String c (p +:+ q)). cbn. by rewrite IH. Qed.

Lemma HasPrefix_head c s f : string_forallb f s = true → f c = false → HasPrefix s (String c "") = false.
Proof.
  destruct s as [|d s]; [done|]. rewrite forallb_cons. intros [Hd _]%andb_true_iff Hc. cbn.
  rewrite bool_decide_eq_false_2; [done|]. intros <-. congruence.
Qed.

Lemma drop_colon p q : drop_bytes (String.length p + 1) (p +:+ ":" +:+ q) = q.
Proof. rewrite <- (drop_bytes_prefix (p +:+ ":") q) at 2. f_equal; [by rewrite length_string_app|by rewrite string_app_assoc]. Qed.

(** A canonical host splits into the host and the port it was made of, the
    default port being left out. *)
Lemma split_canonical host port :
  string_forallb addr_char host = true → all_digits port = true →
  splitHostPort (canonical_host host port) = (host, if (port != "") && (port != "443") then port else "").
Proof.
  intros Hh Hp. pose proof (HasPrefix_head "[" host _ Hh eq_refl) as Hno. unfold canonical_host, JoinHostPort.
  destruct (bracketed host) as (Hb1 & Hb2 & Hb3). destruct ((port != "") && (port != "443")).
  - destruct (Contains ":" host) eqn:Hc.
    + replace ("[" +:+ host +:+ "]:" +:+ port) with (("[" +:+ host +:+ "]") +:+ ":" +:+ port) by (by rewrite !string_app_assoc).
      unfold splitHostPort. rewrite last_colon_app by (by apply digits_no_colon).
      by rewrite drop_colon, Hp, substring_prefix, Hb1, Hb2, Hb3.
    + unfold splitHostPort. rewrite last_colon_app by (by apply digits_no_colon). by rewrite drop_colon, Hp, substring_prefix, Hno.
  - destruct (Contains ":" host) eqn:Hc.
    + destruct (Contains_split host Hc) as (p & q & -> & Hq). unfold splitHostPort.
      assert (Hl : last_colon ("[" +:+ (p +:+ ":" +:+ q) +:+ "]") = Some (String.length ("[" +:+ p))).
      { rewrite <- (last_colon_app ("[" +:+ p) (q +:+ "]")); [by rewrite !string_app_assoc|].
        unfold no_colon. rewrite forallb_app. by rewrite Hq. }
      rewrite Hl.
      assert (Hd : drop_bytes (String.length ("[" +:+ p) + 1) ("[" +:+ (p +:+ ":" +:+ q) +:+ "]") = q +:+ "]").
      { rewrite <- (drop_colon ("[" +:+ p) (q +:+ "]")). f_equal. by rewrite !string_app_assoc. }
      rewrite Hd. assert (Hx : all_digits (q +:+ "]") = false) by (unfold all_digits; rewrite forallb_app; by destruct (string_forallb _ q)).
      by rewrite Hx, Hb1, Hb2, Hb3.
    + apply Contains_false in Hc. unfold splitHostPort. by rewrite last_colon_none, Hno.
Qed.

Lemma canonical_again host port :
  canonical_host host (if (port != "") && (port != "443") then port else "") = canonical_host host port.
Proof. unfold canonical_host. destruct ((port != "") && (port != "443")) eqn:H; by rewrite ?H. Qed.

(** ** Reading a canonical form back *)

Section Again.
Context `{T : TokenCodec} `{W : NetPkg} {HT : TokenLaws} {HW : NetLaws}.

Lemma webDAV_again raw u u' : webDAVURL raw = Some u → webDAVURL (url_String u) = Some u' → url_String u' = url_String u.
Proof using HW.
  intros (u0 & host & _ & Hb & Hpre & Hsuf & Hsp & Hok & Hhost & _)%webDAV_inv.
  intros (v & host' & Hv & _ & _ & _ & Hsp' & _ & Hhost' & Heq)%webDAV_inv.
  destruct (url_again u v Hb Hpre Hv) as (Hvh & Hvp & <-). f_equal. rewrite Hvp, Hsuf in Heq. rewrite Heq.
  assert (Hh : u_Host u' = u_Host v); [|rewrite Hh; by destruct v; cbn in *; subst].
  rewrite Hvh, Hhost in Hsp', Hhost'.
  rewrite split_canonical in Hsp', Hhost' by (by apply host_addr || apply port_digits). cbn [snd] in Hsp', Hhost'.
  injection Hsp' as ->. rewrite Hhost', Hvh, Hhost, lower_twice. apply canonical_again.
Qed.

Lemma get_insert m key v k : get (<[key := v]> m) k = if k == key then v else get m k.
Proof using Type. unfold get. destruct (bool_decide_reflect (k = key)) as [->|]; [by rewrite lookup_insert_eq|by rewrite lookup_insert_ne]. Qed.

Lemma normalize_get m m' : normalizeToken m = Some m' → ∃ v, m' = <["token" := v]> m.
Proof using Type.
  unfold normalizeToken. destruct (DecodeToken _) as [t|]; [|done]. destruct (negb _); [done|]. destruct (MarshalToken t); [|done].
  intros [= <-]. eauto.
Qed.

(** What validation adds to a section. *)
Lemma validateBackend_inv m m' :
  validateBackend m = Some m' →
  (get m "type" = "onedrive" ∧ ∃ v, m' = <["token" := v]> (<["region" := "global"]> m)) ∨
  (get m "type" = "drive" ∧ ∃ v, m' = <["token" := v]> (if get m "scope" == "" then <["scope" := "drive"]> m else m)) ∨
  (get m "type" = "webdav" ∧ ∃ u, webDAVURL (get m "url") = Some u ∧
     m' = <["url" := url_String u]> (if get m "vendor" == "" then <["vendor" := "other"]> m else m)).
Proof using Type.
  unfold validateBackend. destruct (bool_decide_reflect (get m "type" = "onedrive")) as [Ht|_].
  { destruct (_ || _); [done|]. intros [v ->]%normalize_get. left. eauto. }
  destruct (bool_decide_reflect (get m "type" = "drive")) as [Ht|_].
  { destruct (_ || _); [done|]. set (m1 := if get m "scope" == "" then _ else _).
    case (_ || _); [|done]. intros [v ->]%normalize_get. right. left. eauto. }
  destruct (bool_decide_reflect (get m "type" = "webdav")) as [Ht|_]; [|done].
  destruct (negb _); [done|]. destruct (_ && _); [done|]. set (m1 := if get m "vendor" == "" then _ else _).
  case (_ && _); [done|]. destruct (webDAVURL _) as [u|]; [|done]. intros [= <-]. right. right. eauto.
Qed.

(** A section that validation accepted, and that is validated again without its
    empty options, keeps every option but the token. *)
Lemma backend_again m m' q q' :
  validateBackend m = Some m' → (∀ k, get q k = get m' k) → validateBackend q = Some q' →
  ∀ key, agree false (get m' "type") key (get m' key) (get q' key).
Proof using HW.
  intros Hm Hq Hq' key. apply validateBackend_inv in Hm, Hq'. apply agree_refresh.
  destruct Hm as [[Ht [v ->]]|[[Ht [v ->]]|[Ht (u & Hu & ->)]]].
  - rewrite Hq, !get_insert in Hq'. cbn in Hq'. rewrite Ht in Hq'. destruct Hq' as [[_ [w ->]]|[[? _]|[? _]]]; [|done..].
    rewrite !get_insert. cbn. rewrite Hq, !get_insert. destruct (key == "token") eqn:Hk; bool_prop; [by eauto|].
    left. by destruct (key == "region").
  - set (m1 := if get m "scope" == "" then _ else _) in *.
    assert (Ht1 : get m1 "type" = "drive") by (unfold m1; destruct (_ == ""); [by rewrite get_insert|done]).
    assert (Hs1 : get m1 "scope" ≠ "").
    { unfold m1. destruct (bool_decide_reflect (get m "scope" = "")); [by rewrite get_insert|done]. }
    rewrite !Hq, !get_insert in Hq'. cbn in Hq'. rewrite Ht1, (bool_decide_eq_false_2 (get m1 "scope" = "")) in Hq' by done.
    destruct Hq' as [[? _]|[[_ [w ->]]|[? _]]]; [done| |done].
    rewrite !get_insert. cbn. rewrite Hq, !get_insert. destruct (key == "token") eqn:Hk; bool_prop; by eauto.
  - set (m1 := if get m "vendor" == "" then _ else _) in *.
    assert (Ht1 : get m1 "type" = "webdav") by (unfold m1; destruct (_ == ""); [by rewrite get_insert|done]).
    assert (Hs1 : get m1 "vendor" ≠ "").
    { unfold m1. destruct (bool_decide_reflect (get m "vendor" = "")); [by rewrite get_insert|done]. }
    rewrite !Hq, !get_insert in Hq'. cbn in Hq'. rewrite Ht1, (bool_decide_eq_false_2 (get m1 "vendor" = "")) in Hq' by done.
    destruct Hq' as [[? _]|[[? _]|[_ (u' & Hu' & ->)]]]; [done..|].
    rewrite !get_insert. rewrite Hq, !get_insert. left. destruct (key == "url"); [|done]. symmetry. by eapply webDAV_again.
Qed.

Lemma validateCrypt_inv m m' :
  validateCrypt m = Some m' →
  get m "type" = "crypt" ∧ m' = <["directory_name_encryption" := "true"]> (<["filename_encryption" := "standard"]> m).
Proof using Type.
  unfold validateCrypt. destruct (_ || _) eqn:Hg; [done|]. bool_prop.
  repeat (match goal with |- context [if ?b then None else _] => destruct b; [done|] end). by intros [= <-].
Qed.

Lemma crypt_again m m' q q' :
  validateCrypt m = Some m' → (∀ k, get q k = get m' k) → validateCrypt q = Some q' → ∀ key, get m' key = get q' key.
Proof using Type.
  intros [_ ->]%validateCrypt_inv Hq [_ ->]%validateCrypt_inv key. rewrite !get_insert, Hq, !get_insert.
  by destruct (key == "directory_name_encryption"), (key == "filename_encryption").
Qed.

(** What is read back from the canonical form of an accepted configuration, when
    it is accepted again, is the same configuration up to the encoding of a
    token. *)
Lemma Bytes_again raw remote socket c p :
  parseConfig raw remote socket = Some c → ParseConfig (Bytes c) remote = Some p → SameExceptToken c p = true.
Proof using HT HW.
  intros Hparse Hagain. pose proof (parsed_ok _ _ _ _ Hparse) as [Hok _]. apply Bytes_read_back in Hok.
  apply parseConfig_inv in Hparse as (s0 & crypt & crypt' & upstream & root & cloud & cloud' & Hs & Hsz & Hcut & Hne & _ & Hc & Hv & Hcl & Hb & ->).
  apply parseConfig_inv in Hagain as (s1 & crypt1 & crypt1' & upstream1 & root1 & cloud1 & cloud1' & Hs1 & _ & Hcut1 & _ & _ & Hc1 & Hv1 & Hcl1 & Hb1 & ->).
  rewrite Hok in Hs1. injection Hs1 as <-. cbn [cf_sections] in *. rewrite lookup_fmap in Hc1, Hcl1.
  rewrite lookup_insert_ne, lookup_insert_eq in Hc1 by done. injection Hc1 as <-.
  pose proof (crypt_again _ _ _ _ Hv (nonempty_get crypt') Hv1) as Hcrypt.
  assert (upstream1 = upstream) as -> by (rewrite <- Hcrypt in Hcut1; congruence).
  rewrite lookup_insert_eq in Hcl1. injection Hcl1 as <-. cbn in Hb1.
  apply sameConfig_agree. cbn. split_and!; [done| |].
  - rewrite !dom_insert_L, dom_fmap_L, !dom_insert_L. set_solver.
  - intros name old new Ho Hn key. destruct (decide (name = upstream)) as [->|Hup].
    + rewrite lookup_insert_eq in Ho, Hn. simplify_eq. by eapply backend_again; [|apply nonempty_get|].
    + rewrite lookup_insert_ne in Ho, Hn by done. destruct (decide (name = remote)) as [->|Hre].
      * rewrite lookup_insert_eq in Ho, Hn. simplify_eq. apply agree_refresh. left. apply Hcrypt.
      * rewrite lookup_insert_ne in Ho, Hn by done. rewrite lookup_fmap, !lookup_insert_ne, Ho in Hn by done.
        injection Hn as <-. apply agree_refresh. left. symmetry. apply nonempty_get.
Qed.

(** ** What an accepted configuration can contain *)

(** The options of a backend. *)
Definition backend_keys (kind : string) : list string :=
  if kind == "onedrive" then ["type"; "token"; "drive_id"; "drive_type"; "client_id"; "client_secret"; "region"]
  else if kind == "drive" then ["type"; "token"; "client_id"; "client_secret"; "scope"; "root_folder_id"; "team_drive"]
  else if kind == "webdav" then ["type"; "url"; "vendor"; "user"; "pass"; "bearer_token"] else [].

Definition only_keys (keys : list string) (m : fields) : Prop := map_Forall (λ key _, key ∈ keys) m.

Lemma only_keys_insert keys m key v : only_keys keys m → key ∈ keys → only_keys keys (<[key := v]> m).
Proof using Type. intros Hm Hk. by apply map_Forall_insert_2. Qed.

Lemma allowed_only keys m : negb (allowedKeys m keys) = false → only_keys keys m.
Proof using Type. intros H%negb_false_iff. by apply bool_decide_eq_true in H. Qed.

Lemma validateBackend_keys m m' :
  validateBackend m = Some m' → only_keys (backend_keys (get m "type")) m' ∧ get m' "type" = get m "type" ∧
    get m "type" ∈ ["onedrive"; "drive"; "webdav"].
Proof using Type.
  clear HT HW. intros Hv. assert (Hm : only_keys (backend_keys (get m "type")) m).
  { revert Hv. unfold validateBackend, backend_keys.
    destruct (bool_decide_reflect (get m "type" = "onedrive")); [|destruct (bool_decide_reflect (get m "type" = "drive"));
      [|destruct (bool_decide_reflect (get m "type" = "webdav")); [|done]]].
    1,2: destruct (_ || _) eqn:Hg; [done|]; intros _; apply allowed_only; do 20 (try apply orb_false_iff in Hg as [Hg _]); done.
    destruct (negb _) eqn:Hg; [done|]. intros _. by apply allowed_only. }
  apply validateBackend_inv in Hv as [[Ht [v ->]]|[[Ht [v ->]]|[Ht (u & Hu & ->)]]]; rewrite Ht in *;
    repeat (destruct (_ == "")); (split_and!; [repeat (apply only_keys_insert; [|cbn; set_solver]); exact Hm|by rewrite !get_insert|set_solver]).
Qed.

Lemma crypt_keys_only m m' : validateCrypt m = Some m' → only_keys crypt_keys m'.
Proof using Type.
  clear HT HW. intros Hv. pose proof (validateCrypt_inv _ _ Hv) as [_ ->]. revert Hv. unfold validateCrypt.
  destruct (_ || _) eqn:Hg; [done|]. intros _. do 2 (apply only_keys_insert; [|cbn; set_solver]). apply allowed_only.
  do 2 (apply orb_false_iff in Hg as [Hg _]). by apply orb_false_iff in Hg as [_ Hg].
Qed.

(** C35: an accepted configuration is exactly a crypt remote over one known
    backend. It has two sections; the crypt section encrypts file and directory
    names and points below the backend, at a path that stays inside it; the
    backend is OneDrive, Google Drive or WebDAV over https; and neither section
    has any option outside the fixed list of its kind. *)
Theorem accepted_config_is_confined raw remote socket c :
  parseConfig raw remote socket = Some c →
  ∃ upstream root crypt cloud,
    cf_remote c = remote ∧ upstream ≠ remote ∧ cf_sections c = {[remote := crypt; upstream := cloud]} ∧
    get crypt "type" = "crypt" ∧ get crypt "filename_encryption" = "standard" ∧ get crypt "directory_name_encryption" = "true" ∧
    get crypt "remote" = upstream +:+ ":" +:+ root ∧ safeRoot root = true ∧ only_keys crypt_keys crypt ∧
    Backend c = get cloud "type" ∧ Backend c ∈ ["onedrive"; "drive"; "webdav"] ∧ only_keys (backend_keys (Backend c)) cloud ∧
    (Backend c = "webdav" → ∃ u, get cloud "url" = url_String u ∧ bare_url u).
Proof using HW.
  intros (s0 & crypt & crypt' & upstream & root & cloud & cloud' & Hs & Hsz & Hcut & Hne & Hroot & Hc & Hv & Hcl & Hb & ->)%parseConfig_inv.
  assert (Hbackend : Backend (mkConfig (<[upstream:=cloud']> (<[remote:=crypt']> s0)) remote) = get cloud' "type").
  { unfold Backend, RcloneConfig.cloud. cbn [cf_sections cf_remote]. rewrite (lookup_insert_ne _ upstream remote), lookup_insert_eq by done.
    cbn [default from_option id]. by rewrite Hcut, lookup_insert_eq. }
  pose proof (validateBackend_keys _ _ Hb) as (Hk & Ht & Hin). pose proof (crypt_keys_only _ _ Hv) as Hck.
  pose proof (validateCrypt_inv _ _ Hv) as [Htc Hcr]. rewrite <- Ht in Hk, Hin.
  exists upstream, root, crypt', cloud'. rewrite Hbackend. split_and!; try done.
  - cbn. apply map_eq. intros name. destruct (decide (name = upstream)) as [->|Hu].
    { by rewrite lookup_insert_eq, lookup_insert_ne, lookup_singleton_eq by done. }
    rewrite lookup_insert_ne by done. destruct (decide (name = remote)) as [->|Hr]; [by rewrite !lookup_insert_eq|].
    rewrite !lookup_insert_ne, lookup_singleton_ne by done. apply eq_None_not_Some. intros Hx.
    destruct (two_names s0 remote upstream name); congruence || by eexists.
  - by rewrite Hcr, !get_insert.
  - by rewrite Hcr, !get_insert.
  - by rewrite Hcr, !get_insert.
  - by apply Cut_inv in Hcut.
  - intros Hw. apply validateBackend_inv in Hb as [[H _]|[[H _]|[_ (u & Hu & ->)]]]; [congruence..|].
    exists u. split; [by rewrite get_insert|]. by apply webDAV_inv in Hu as (? & ? & _ & ? & _).
Qed.

(** C34: the canonical form says exactly what was accepted. Reading back the bytes
    that are stored and handed to rclone gives the sections of the accepted
    configuration with their non-empty options, whatever text was submitted: no
    value can smuggle in another option, section or comment. *)
Theorem emitted_config_reads_back raw remote socket c :
  parseConfig raw remote socket = Some c → scan_sections (Bytes c) = Some (nonempty <$> cf_sections c).
Proof using HT HW. intros [Hok _]%parsed_ok. by apply Bytes_read_back. Qed.
End Again.
