(* ===== verification/RcloneExamples.v ===== *)
(** * RcloneExamples: concrete rclone configurations

    Small implementations of the standard-library interfaces that satisfy their
    laws, and the theorems on configurations at a OneDrive and a WebDAV example. *)

From S2P Require Import Prelude GoStd RcloneConfig RcloneProps RcloneTarget.
Open Scope Z_scope.
Open Scope go_scope.

(** ** Tokens: the access token between braces *)

Definition small_decode (s : string) : option Token :=
  if HasPrefix s "{" && HasSuffix s "}"
  then Some (mkToken (String.substring 1 (String.length s - 2) s) "Bearer" "refresh" 1) else None.
Definition small_encode (t : Token) : option string :=
  if string_forallb plain_char (AccessToken t) then Some ("{" +:+ AccessToken t +:+ "}") else None.
#[export] Instance small_tokens : TokenCodec := { DecodeToken := small_decode; MarshalToken := small_encode }.

#[export] Instance small_token_laws : TokenLaws.
Proof.
  split. intros t s _. cbn. unfold small_encode. destruct (string_forallb plain_char (AccessToken t)) eqn:Hp; [|done]. intros [= <-].
  assert (H : plain ("{" +:+ AccessToken t +:+ "}")) by (unfold plain; by rewrite !forallb_app, Hp).
  split; [by apply trimmed_TrimSpace, plain_trimmed|by apply plain_no_control].
Qed.

(** ** URLs of a scheme, a host and a path; dotted addresses; ASCII letters *)

Definition https : string := "https://".
Definition small_url (host path : string) : option URL :=
  if string_forallb host_char host then Some (mkURL "https" "" false host path "" false "" "") else None.
Definition small_Parse (raw : string) : option URL :=
  if HasPrefix raw https then
    match Cut "/" (TrimPrefix raw https) with
    | Some (host, path) => small_url host ("/" +:+ path)
    | None => small_url (TrimPrefix raw https) ""
    end
  else None.
Definition small_String (u : URL) : string :=
  if string_forallb plain_char (u_Path u) && HasPrefix (u_Path u) "/" then https +:+ u_Host u +:+ u_Path u else "".

Definition small_addr (host : string) : option Addr :=
  if string_forallb addr_char host then
    match Atoi <$> Split "." host with
    | [Some a; Some b; Some c; Some d] =>
        if forallb (λ x, (0 <=? x) && (x <=? 255)) [a; b; c; d]
        then Some (mkAddr false (Z.to_N (((a * 256 + b) * 256 + c) * 256 + d)) "") else None
    | _ => None
    end
  else None.

Definition lower_char (c : ascii) : ascii :=
  if ((65 <=? byte_of c) && (byte_of c <=? 90))%N then ascii_of_N (byte_of c + 32) else c.
Fixpoint small_lower (s : string) : string :=
  match s with EmptyString => EmptyString | String c s => String (lower_char c) (small_lower s) end.

#[export] Instance small_net : NetPkg :=
  { url_Parse := small_Parse; url_String := small_String; ParseAddr := small_addr; ToLower := small_lower }.

Lemma host_no_slash host rest : string_forallb host_char host = true → Cut "/" (host +:+ String "/" rest) = Some (host, rest).
Proof.
  induction host as [|c host IH]; [done|]. rewrite forallb_cons. intros [Hc Hh]%andb_true_iff.
  change (String c host +:+ String "/" rest) with (String c (host +:+ String "/" rest)). cbn [Cut].
  rewrite bool_decide_eq_false_2 by (by intros ->). by rewrite IH.
Qed.

#[export] Instance small_net_laws : NetLaws.
Proof.
  split; cbn.
  - intros host ip. unfold small_addr. by destruct (string_forallb addr_char host).
  - intros raw u. unfold small_Parse, small_url. destruct (HasPrefix raw https); [|done].
    destruct (Cut "/" _) as [[host path]|]; (destruct (string_forallb host_char _); [|done]); intros [= <-] _; [right; apply (HasPrefix_app "/")|by left].
  - intros u Hu. unfold small_String, plain. destruct (string_forallb plain_char (u_Path u)) eqn:Hp; [|done].
    destruct (HasPrefix _ _); [|done]. cbn [andb]. rewrite !forallb_app, Hp, andb_true_r. cbn.
    eapply forallb_mono; [|apply bu_host, Hu]. apply host_char_plain.
  - intros u u' Hu Hpre. unfold small_String. rewrite Hpre, andb_true_r. destruct (string_forallb plain_char (u_Path u)) eqn:Hp; [|done].
    unfold small_Parse, TrimPrefix. rewrite HasPrefix_app, drop_bytes_prefix. destruct (u_Path u) as [|c path] eqn:Hu0; [done|].
    cbn [HasPrefix] in Hpre. apply andb_true_iff in Hpre as [<-%bool_decide_eq_true _].
    rewrite host_no_slash by apply Hu. unfold small_url. rewrite (bu_host u Hu). intros [= <-]. cbn. split_and!; try done.
    change (string_forallb plain_char ("/" +:+ path) = true) in Hp. by rewrite Hp, HasPrefix_app.
  - intros s. induction s as [|c s IH]; [done|]. cbn. rewrite IH. f_equal. by destruct c as [[] [] [] [] [] [] [] []].
Qed.

(** ** Examples *)

Definition lines (l : list string) : string := foldr (λ line rest, line +:+ newline +:+ rest) "" l.
Definition example_password : string := "AAAAAAAAAAAAAAAAAAAAAAAAAAAA".

Definition onedrive_text (token : string) : string :=
  lines ["# storage"; "[cloud]"; "type = onedrive"; "token=" +:+ token; "drive_id = b!1"; "drive_type = business"; "";
         "[vault]"; "type = crypt"; "remote = cloud:backups/a"; "password = " +:+ example_password].
Definition webdav_text : string :=
  lines ["[vault]"; "type = crypt"; "remote = dav:"; "password = " +:+ example_password;
         "[dav]"; "type = webdav"; "url = https://Files.Example.org:443/dav"; "bearer_token = abc"].

Definition onedrive (token : string) : Config :=
  default (mkConfig ∅ "") (ParseConfig (onedrive_text token) "vault").
Definition webdav : Config := default (mkConfig ∅ "") (ParseConfig webdav_text "vault").

Lemma onedrive_accepted : ParseConfig (onedrive_text "{one}") "vault" = Some (onedrive "{one}").
Proof. vm_compute. reflexivity. Qed.
Lemma webdav_accepted : parseConfig webdav_text "vault" "" = Some webdav.
Proof. vm_compute. reflexivity. Qed.

(** The accepted URL is normalised. *)
Example webdav_url : get (cloud webdav) "url" = "https://files.example.org/dav/".
Proof. vm_compute. reflexivity. Qed.

Example private_hosts_rejected :
  host_ok "10.1.2.3" = false ∧ host_ok "169.254.169.254" = false ∧ host_ok "localhost" = false ∧ host_ok "1.1.1.1" = true.
Proof. vm_compute. done. Qed.

Lemma emitted_config_reads_back_witness : scan_sections (Bytes webdav) = Some (nonempty <$> cf_sections webdav).
Proof. apply (emitted_config_reads_back webdav_text "vault" "" webdav). exact webdav_accepted. Defined.

Lemma accepted_config_is_confined_witness : Backend webdav ∈ ["onedrive"; "drive"; "webdav"].
Proof.
  destruct (accepted_config_is_confined webdav_text "vault" "" webdav webdav_accepted) as
    (u & r & c & d & _ & _ & _ & _ & _ & _ & _ & _ & _ & _ & H & _).
  exact H.
Defined.

Example token_refreshed : SameExceptToken (onedrive "{one}") (onedrive "{two}") = true ∧ Bytes (onedrive "{one}") ≠ Bytes (onedrive "{two}").
Proof. vm_compute. split; [reflexivity|discriminate]. Qed.
