(* ===== verification/CentralTx.v ===== *)
(** * CentralTx: transactions of the control plane's database

    The tables of internal/persistence/postgres that carry the Gateway's
    admissions, decisions, pending records and audit events, with the
    constraints of db/migrations, and the transactions that change them.

    A transaction works on a copy of the database that replaces the committed
    one only at COMMIT.  The environment decides, statement by statement, what
    [clock_timestamp()] and [uuid.NewV7] return and which statements fail; after
    a failed statement every further one fails, as in PostgreSQL.  A COMMIT can
    succeed, fail, or take effect although the caller sees an error.
    Transactions are serialized: those of one admission lock its row, or the
    row of its storage credential, first. *)

From S2P Require Import Prelude GoStd Uuid Platform DomainLogs GatewaySession GatewayAuth AuditChain PendingRecord.
Open Scope Z_scope.
Open Scope go_scope.

(** ** Rows *)

Record AgentRow := mkAgentRow { ar_HostID : uuid; ar_Status : string; ar_BootChangedAt : option time }.
Record HostRow := mkHostRow { hr_Status : string; hr_ArchivedAt : option time }.

(** The columns of a repository that the transactions use. *)
Record Repository := mkRepository {
  rp_ID : uuid;
  rp_HostID : uuid;
  rp_StorageCredentialID : uuid;
  rp_Status : string;
  rp_GatewayID : uuid;
  rp_GatewaySecretRef : uuid;
  rp_ResticSecretRef : uuid;
  rp_InitializedAt : option time;
  rp_ArchivedAt : option time;
  rp_ResticID : string;
  rp_FormatVersion : option Z;
  rp_Revision : Z;
  rp_UpdatedAt : time;
  rp_LastInitializeOperationID : option uuid }.

Record AgentCredentialDelivery := mkDelivery {
  cr_ID : uuid;
  cr_AgentID : uuid;
  cr_Revision : Z;
  cr_ConfigurationHash : string;
  cr_RepositoryID : uuid;
  cr_GatewaySecretRef : uuid;
  cr_ResticSecretRef : uuid;
  cr_CreatedAt : time;
  cr_AcceptedAt : option time }.

Record StorageCredential := mkCredential {
  sc_ID : uuid;
  sc_Name : string;
  sc_Provider : string;
  sc_RemoteName : string;
  sc_Status : string;
  sc_SecretRef : uuid;
  sc_SecretRevision : Z;
  sc_Revision : Z;
  sc_CreatedAt : time;
  sc_UpdatedAt : time;
  sc_LastTestOperationID : option uuid;
  sc_LastTestedAt : option time;
  sc_LastTestResult : string;
  sc_LastRefreshedAt : option time }.

(** An encrypted secret. *)
Record SecretEnvelope := mkSecret {
  se_ID : uuid;
  se_Kind : string;
  se_Algorithm : string;
  se_KeyID : string;
  se_Ciphertext : string;
  se_Nonce : string;
  se_WrappedDataKey : string;
  se_WrapNonce : string;
  se_AAD : string;
  se_CreatedAt : time }.

(** An operation of the control plane on a storage credential. *)
Record Operation := mkOperation {
  op_ID : uuid;
  op_Type : string;
  op_Status : string;
  op_Source : string;
  op_StorageCredentialID : uuid;
  op_RepositoryID : option uuid;
  op_SecretRevision : Z;
  op_RequestedByUserID : option uuid;
  op_Attempt : Z;
  op_CreatedAt : time;
  op_DispatchedAt : option time;
  op_AcknowledgedAt : option time;
  op_StartedAt : option time;
  op_FinishedAt : option time;
  op_ErrorCode : string }.

(** A row of [operation_events]. *)
Record OperationEvent := mkOperationEvent {
  ev_OperationID : uuid;
  ev_Sequence : Z;
  ev_From : string;
  ev_To : string;
  ev_OccurredAt : time }.

(** The admission a read of the repository borrows. *)
Record GatewayReadBinding := mkReadBinding {
  gr_RepositoryID : uuid;
  gr_OperationID : uuid;
  gr_AdmissionID : uuid;
  gr_RuntimeID : uuid;
  gr_ConfigurationHash : string }.
#[export] Instance GatewayReadBinding_eq_dec : EqDecision GatewayReadBinding.
Proof. solve_decision. Defined.

(** A row of [jobs]. *)
Record JobRow := mkJobRow {
  jr_ID : uuid;
  jr_OperationID : uuid;
  jr_Queue : string;
  jr_Payload : string;
  jr_Status : string;
  jr_AvailableAt : time;
  jr_LeaseOwner : option uuid;
  jr_LeaseExpiresAt : option time;
  jr_Attempt : Z;
  jr_MaxAttempts : Z;
  jr_LastErrorCode : string;
  jr_UpdatedAt : time;
  jr_GatewayRead : option GatewayReadBinding }.

(** A row of [repository_leases]; [repository_id] is its key. *)
Record LeaseRow := mkLeaseRow { le_OperationID : uuid; le_Owner : uuid; le_Kind : string; le_ExpiresAt : time }.

(** A row of [idempotency_records]; [scope_hash] and [key_hash] are its key. *)
Record IdempotencyRow := mkIdempotencyRow { ir_RequestHash : string; ir_ResourceID : uuid; ir_ExpiresAt : time }.

(** Columns of [plans]. *)
Record PlanRow := mkPlanRow {
  pn_HostID : uuid;
  pn_AgentID : uuid;
  pn_RepositoryID : uuid;
  pn_ArchivedAt : option time;
  pn_Status : string;
  pn_DesiredRevision : Z;
  pn_ConfigHash : string;
  pn_MisfireGraceSeconds : Z;
  pn_BackupHealth : string;
  pn_NextRunAt : option time;
  pn_LastSuccessAt : option time;
  pn_LastOperationID : option uuid;
  pn_LastResultAt : option time;
  pn_UpdatedAt : time }.

(** A row of [backup_operations]. *)
Record BackupOperation := mkBackup {
  bo_ID : uuid;
  bo_PlanID : uuid;
  bo_AgentID : uuid;
  bo_Type : string;
  bo_Source : string;
  bo_Status : string;
  bo_PlanRevision : Z;
  bo_ConfigHash : string;
  bo_ScheduledAt : option time;
  bo_StartedAt : option time;
  bo_FinishedAt : option time;
  bo_ExitCode : option Z;
  bo_ErrorCode : string;
  bo_SnapshotID : string;
  bo_FilesDone : Z;
  bo_TotalFiles : Z;
  bo_BytesDone : Z;
  bo_TotalBytes : Z;
  bo_CreatedAt : time;
  bo_UpdatedAt : time;
  bo_ParentOperationID : option uuid;
  bo_RootOperationID : option uuid;
  bo_CancelRequestedAt : option time;
  bo_CancelReason : string;
  bo_DispatchedAt : option time;
  bo_Attempt : Z;
  bo_Summary : option BackupSummary }.

(** A row of [backup_operation_events]; [operation_id] and [sequence] are its key. *)
Record BackupEventRow := mkBackupEvent {
  be_Stage : string;
  be_FilesDone : Z;
  be_TotalFiles : Z;
  be_BytesDone : Z;
  be_TotalBytes : Z;
  be_ObservedAt : time }.

(** A row of [backup_operation_log_heads]; [operation_id] is its key. *)
Record LogHeadRow := mkLogHead { lh_AckSequence : Z; lh_BytesReceived : Z }.

(** A row of [backup_operation_requests]; [scope_hash] and [key_hash] are its
    key.  The JSON of an answered operation stands for the operation. *)
Record BackupRequestRow := mkBackupRequestRow {
  bq_RequestHash : string; bq_OperationID : uuid; bq_Response : BackupOperation; bq_ExpiresAt : time }.

(** The tables of the Agents' operations. *)
Record Backups := mkBackups {
  bk_operations : gmap uuid BackupOperation;
  bk_events : gmap (uuid * Z) BackupEventRow;
  bk_heads : gmap uuid LogHeadRow;
  bk_logs : gmap (uuid * Z) BackupLogEntry;
  bk_requests : gmap (string * string) BackupRequestRow }.
Definition no_backups : Backups := mkBackups ∅ ∅ ∅ ∅ ∅.

(** A row of [snapshots]; [repository_id] and [snapshot_id] are its key. *)
Record SnapshotRow := mkSnapshotRow {
  sn_PlanID : option uuid;
  sn_AgentID : option uuid;
  sn_HostID : uuid;
  sn_OperationID : uuid;
  sn_CapturedAt : time;
  sn_RecordedAt : time;
  sn_FilesNew : Z;
  sn_BytesAdded : Z;
  sn_Managed : bool;
  sn_TreeID : string;
  sn_Tags : list string;
  sn_Paths : list string;
  sn_ProgramVersion : string;
  sn_MissingAt : option time }.

(** A child of a snapshot's path, and a row of [snapshot_list_results] whose key
    is [operation_id]. *)
Record SnapshotEntry := mkSnapshotEntry {
  ey_Name : string; ey_Path : string; ey_Type : string; ey_Size : Z; ey_Mode : string; ey_UID : Z; ey_GID : Z; ey_ModTime : time }.
Record PageRow := mkPageRow {
  pg_RepositoryID : uuid;
  pg_SnapshotID : string;
  pg_TreeID : string;
  pg_Path : string;
  pg_Cursor : string;
  pg_NextCursor : string;
  pg_Truncated : bool;
  pg_Scanned : Z;
  pg_Entries : list SnapshotEntry;
  pg_CollectedAt : time;
  pg_ExpiresAt : time }.

Record BackupAdmission := mkAdmission {
  ba_ID : uuid;
  ba_Owner : uuid;
  ba_AgentID : uuid;
  ba_HostID : uuid;
  ba_RepositoryID : uuid;
  ba_GatewayID : uuid;
  ba_StorageCredentialID : uuid;
  ba_DeliveryID : uuid;
  ba_GatewaySecretRef : uuid;
  ba_ResticSecretRef : uuid;
  ba_ConfigurationHash : string;
  ba_CreatedAt : time;
  ba_ExpiresAt : time;
  ba_ReleasedAt : option time }.

Definition zero_admission : BackupAdmission := mkAdmission 0 0 0 0 0 0 0 0 0 0 "" zero_time zero_time None.

Definition with_released (t : time) (a : BackupAdmission) : BackupAdmission :=
  mkAdmission (ba_ID a) (ba_Owner a) (ba_AgentID a) (ba_HostID a) (ba_RepositoryID a) (ba_GatewayID a)
    (ba_StorageCredentialID a) (ba_DeliveryID a) (ba_GatewaySecretRef a) (ba_ResticSecretRef a)
    (ba_ConfigurationHash a) (ba_CreatedAt a) (ba_ExpiresAt a) (Some t).

(** A row of [gateway_authorization_decisions]. *)
Record DecisionRow := mkDecisionRow {
  dr_AdmissionID : uuid;
  dr_Revision : Z;
  dr_RequestID : uuid;
  dr_RuntimeID : uuid;
  dr_LifetimeSeconds : Z;
  dr_IssuedAt : time;
  dr_ExpiresAt : option time;
  dr_Revoked : bool }.

(** A row of [gateway_pending_origins]; [admission_id] is the key of its map. *)
Record OriginRow := mkOriginRow {
  or_RuntimeID : uuid;
  or_PublicKey : string;
  or_InitialSecretRevision : Z;
  or_CreatedAt : time;
  or_ClosedAt : option time }.

Definition with_closed (t : time) (o : OriginRow) : OriginRow :=
  mkOriginRow (or_RuntimeID o) (or_PublicKey o) (or_InitialSecretRevision o) (or_CreatedAt o) (Some t).

(** A row of [gateway_pending_records]. *)
Record RecordRow := mkRecordRow {
  rr_AdmissionID : uuid;
  rr_RuntimeID : uuid;
  rr_Sequence : Z;
  rr_RecordID : uuid;
  rr_WireHash : string;
  rr_AuthorizationRevision : Z;
  rr_Kind : string;
  rr_OccurredAt : time }.

(** A row of [gateway_material_deliveries]; [admission_id] is its key. *)
Record MaterialRow := mkMaterialRow {
  mr_RuntimeID : uuid;
  mr_ChallengeHash : string;
  mr_AuthorizationRevision : Z;
  mr_SecretRevision : Z }.

(** Process-wide audit: [gateway_audit_origins] by [id], [gateway_audit_records]. *)
Record AuditOriginRow := mkAuditOriginRow {
  ao_RuntimeID : uuid; ao_PublicKey : string; ao_CreatedAt : time; ao_ClosedAt : option time }.
Record AuditRecordRow := mkAuditRecordRow {
  ad_OriginID : uuid; ad_RuntimeID : uuid; ad_Sequence : Z; ad_RecordID : uuid; ad_WireHash : string;
  ad_OccurredAt : time }.

(** ** The database *)

(** Hosts, Agents and repositories, and the operations on their storage. *)
Record Fleet := mkFleet {
  fl_agents : gmap uuid AgentRow;
  fl_hosts : gmap uuid HostRow;
  fl_repositories : gmap uuid Repository;
  fl_deliveries : gmap uuid AgentCredentialDelivery;
  fl_operations : gmap uuid Operation;
  fl_events : list OperationEvent;
  fl_jobs : gmap uuid JobRow;
  fl_leases : gmap uuid LeaseRow;
  fl_idempotency : gmap (string * string) IdempotencyRow;
  fl_plans : gmap uuid PlanRow;
  fl_snapshots : gmap (uuid * string) SnapshotRow;
  fl_pages : gmap uuid PageRow;
  fl_backups : Backups }.

Record Storage := mkStorage {
  sg_credentials : gmap uuid StorageCredential;
  sg_secrets : gmap uuid SecretEnvelope;
  sg_revisions : gmap (uuid * Z) uuid }.

Record CentralDb := mkCentral {
  cd_fleet : Fleet;
  cd_storage : Storage;
  cd_admissions : gmap uuid BackupAdmission;
  cd_decisions : list DecisionRow;
  cd_origins : gmap uuid OriginRow;
  cd_records : list RecordRow;
  cd_material : gmap uuid MaterialRow;
  cd_audit_origins : gmap uuid AuditOriginRow;
  cd_audit_records : list AuditRecordRow;
  cd_audit : list AuditEvent;
  cd_outbox : list (string * uuid) }.

Definition set_fleet (x : Fleet) (d : CentralDb) : CentralDb :=
  mkCentral x (cd_storage d) (cd_admissions d) (cd_decisions d) (cd_origins d) (cd_records d) (cd_material d)
    (cd_audit_origins d) (cd_audit_records d) (cd_audit d) (cd_outbox d).
Definition set_storage (x : Storage) (d : CentralDb) : CentralDb :=
  mkCentral (cd_fleet d) x (cd_admissions d) (cd_decisions d) (cd_origins d) (cd_records d) (cd_material d)
    (cd_audit_origins d) (cd_audit_records d) (cd_audit d) (cd_outbox d).
Definition set_admissions (x : gmap uuid BackupAdmission) (d : CentralDb) : CentralDb :=
  mkCentral (cd_fleet d) (cd_storage d) x (cd_decisions d) (cd_origins d) (cd_records d) (cd_material d)
    (cd_audit_origins d) (cd_audit_records d) (cd_audit d) (cd_outbox d).
Definition set_decisions (x : list DecisionRow) (d : CentralDb) : CentralDb :=
  mkCentral (cd_fleet d) (cd_storage d) (cd_admissions d) x (cd_origins d) (cd_records d) (cd_material d)
    (cd_audit_origins d) (cd_audit_records d) (cd_audit d) (cd_outbox d).
Definition set_origins (x : gmap uuid OriginRow) (d : CentralDb) : CentralDb :=
  mkCentral (cd_fleet d) (cd_storage d) (cd_admissions d) (cd_decisions d) x (cd_records d) (cd_material d)
    (cd_audit_origins d) (cd_audit_records d) (cd_audit d) (cd_outbox d).
Definition set_records (x : list RecordRow) (d : CentralDb) : CentralDb :=
  mkCentral (cd_fleet d) (cd_storage d) (cd_admissions d) (cd_decisions d) (cd_origins d) x (cd_material d)
    (cd_audit_origins d) (cd_audit_records d) (cd_audit d) (cd_outbox d).
Definition set_material (x : gmap uuid MaterialRow) (d : CentralDb) : CentralDb :=
  mkCentral (cd_fleet d) (cd_storage d) (cd_admissions d) (cd_decisions d) (cd_origins d) (cd_records d) x
    (cd_audit_origins d) (cd_audit_records d) (cd_audit d) (cd_outbox d).
Definition set_audit_origins (x : gmap uuid AuditOriginRow) (d : CentralDb) : CentralDb :=
  mkCentral (cd_fleet d) (cd_storage d) (cd_admissions d) (cd_decisions d) (cd_origins d) (cd_records d)
    (cd_material d) x (cd_audit_records d) (cd_audit d) (cd_outbox d).
Definition set_audit_records (x : list AuditRecordRow) (d : CentralDb) : CentralDb :=
  mkCentral (cd_fleet d) (cd_storage d) (cd_admissions d) (cd_decisions d) (cd_origins d) (cd_records d)
    (cd_material d) (cd_audit_origins d) x (cd_audit d) (cd_outbox d).
Definition set_audit (x : list AuditEvent) (d : CentralDb) : CentralDb :=
  mkCentral (cd_fleet d) (cd_storage d) (cd_admissions d) (cd_decisions d) (cd_origins d) (cd_records d)
    (cd_material d) (cd_audit_origins d) (cd_audit_records d) x (cd_outbox d).
Definition set_outbox (x : list (string * uuid)) (d : CentralDb) : CentralDb :=
  mkCentral (cd_fleet d) (cd_storage d) (cd_admissions d) (cd_decisions d) (cd_origins d) (cd_records d)
    (cd_material d) (cd_audit_origins d) (cd_audit_records d) (cd_audit d) x.

(** The tables of operations within the fleet. *)
Definition set_repositories (x : gmap uuid Repository) (d : CentralDb) : CentralDb :=
  let f := cd_fleet d in
  set_fleet (mkFleet (fl_agents f) (fl_hosts f) x (fl_deliveries f) (fl_operations f) (fl_events f) (fl_jobs f) (fl_leases f)
    (fl_idempotency f) (fl_plans f) (fl_snapshots f) (fl_pages f) (fl_backups f)) d.
Definition set_operations (x : gmap uuid Operation) (d : CentralDb) : CentralDb :=
  let f := cd_fleet d in
  set_fleet (mkFleet (fl_agents f) (fl_hosts f) (fl_repositories f) (fl_deliveries f) x (fl_events f) (fl_jobs f) (fl_leases f)
    (fl_idempotency f) (fl_plans f) (fl_snapshots f) (fl_pages f) (fl_backups f)) d.
Definition set_events (x : list OperationEvent) (d : CentralDb) : CentralDb :=
  let f := cd_fleet d in
  set_fleet (mkFleet (fl_agents f) (fl_hosts f) (fl_repositories f) (fl_deliveries f) (fl_operations f) x (fl_jobs f) (fl_leases f)
    (fl_idempotency f) (fl_plans f) (fl_snapshots f) (fl_pages f) (fl_backups f)) d.
Definition set_jobs (x : gmap uuid JobRow) (d : CentralDb) : CentralDb :=
  let f := cd_fleet d in
  set_fleet (mkFleet (fl_agents f) (fl_hosts f) (fl_repositories f) (fl_deliveries f) (fl_operations f) (fl_events f) x (fl_leases f)
    (fl_idempotency f) (fl_plans f) (fl_snapshots f) (fl_pages f) (fl_backups f)) d.
Definition set_leases (x : gmap uuid LeaseRow) (d : CentralDb) : CentralDb :=
  let f := cd_fleet d in
  set_fleet (mkFleet (fl_agents f) (fl_hosts f) (fl_repositories f) (fl_deliveries f) (fl_operations f) (fl_events f) (fl_jobs f) x
    (fl_idempotency f) (fl_plans f) (fl_snapshots f) (fl_pages f) (fl_backups f)) d.
Definition set_idempotency (x : gmap (string * string) IdempotencyRow) (d : CentralDb) : CentralDb :=
  let f := cd_fleet d in
  set_fleet (mkFleet (fl_agents f) (fl_hosts f) (fl_repositories f) (fl_deliveries f) (fl_operations f) (fl_events f) (fl_jobs f)
    (fl_leases f) x (fl_plans f) (fl_snapshots f) (fl_pages f) (fl_backups f)) d.
Definition set_snapshots (x : gmap (uuid * string) SnapshotRow) (d : CentralDb) : CentralDb :=
  let f := cd_fleet d in
  set_fleet (mkFleet (fl_agents f) (fl_hosts f) (fl_repositories f) (fl_deliveries f) (fl_operations f) (fl_events f) (fl_jobs f)
    (fl_leases f) (fl_idempotency f) (fl_plans f) x (fl_pages f) (fl_backups f)) d.
Definition set_pages (x : gmap uuid PageRow) (d : CentralDb) : CentralDb :=
  let f := cd_fleet d in
  set_fleet (mkFleet (fl_agents f) (fl_hosts f) (fl_repositories f) (fl_deliveries f) (fl_operations f) (fl_events f) (fl_jobs f)
    (fl_leases f) (fl_idempotency f) (fl_plans f) (fl_snapshots f) x (fl_backups f)) d.
Definition set_plans (x : gmap uuid PlanRow) (d : CentralDb) : CentralDb :=
  let f := cd_fleet d in
  set_fleet (mkFleet (fl_agents f) (fl_hosts f) (fl_repositories f) (fl_deliveries f) (fl_operations f) (fl_events f) (fl_jobs f)
    (fl_leases f) (fl_idempotency f) x (fl_snapshots f) (fl_pages f) (fl_backups f)) d.
Definition set_backups (x : Backups) (d : CentralDb) : CentralDb :=
  let f := cd_fleet d in
  set_fleet (mkFleet (fl_agents f) (fl_hosts f) (fl_repositories f) (fl_deliveries f) (fl_operations f) (fl_events f) (fl_jobs f)
    (fl_leases f) (fl_idempotency f) (fl_plans f) (fl_snapshots f) (fl_pages f) x) d.

(** ** Transactions *)

Inductive dberr :=
| ErrDB | ErrNoRows | ErrNotFound | ErrBackupAdmission | ErrRepositoryBusy | ErrGatewayDecision
| ErrGatewayPending | ErrRevisionConflict | ErrStorageUnavailable | ErrGatewayGlobalAudit | ErrAlreadyExists
| ErrOperationTransition | ErrCredentialTestBusy | ErrJobLeaseLost | ErrIdempotencyReused | ErrHostUnavailable
| ErrRepositoryUnavailable | ErrCredentialDisabled | ErrPlanBindingInvalid | ErrPlanStateInvalid
| ErrOperationTerminal | ErrOperationNotTerminal.
#[export] Instance dberr_eq_dec : EqDecision dberr.
Proof. solve_decision. Defined.

Inductive commit_outcome := Committed | Refused | Unknown.

(** What the environment does at the n-th statement of a transaction. *)
Record TxEnv := mkTxEnv {
  tx_clock : nat → time;
  tx_fresh : nat → option uuid;
  tx_fault : nat → bool;
  tx_commit : nat → commit_outcome }.

Record TxState := mkTx {
  tx_work : CentralDb;
  tx_committed : CentralDb;
  tx_aborted : bool;
  tx_count : nat }.

Definition Tx (A : Type) : Type := TxEnv → TxState → result dberr A * TxState.

Definition tret {A} (a : A) : Tx A := λ _ s, (Ok a, s).
Definition tfail {A} (e : dberr) : Tx A := λ _ s, (Err e, s).
Definition tbind {A B} (m : Tx A) (k : A → Tx B) : Tx B :=
  λ e s, match m e s with
         | (Ok a, s) => k a e s
         | (Err x, s) => (Err x, s)
         end.

Declare Scope central_scope.
Delimit Scope central_scope with central.
Notation "'let*' x := m 'in' k" := (tbind m (λ x, k))
  (at level 10, x pattern, m at level 100, k at level 200) : central_scope.
Open Scope central_scope.

(** [err] is inspected instead of returned. *)
Definition tattempt {A} (m : Tx A) : Tx (result dberr A) :=
  λ e s, let '(r, s) := m e s in (Ok r, s).

(** A statement; [None] is a violated constraint.  [f] is given the value of
    [clock_timestamp()]. *)
Definition stmt {A} (f : time → CentralDb → option (A * CentralDb)) : Tx A :=
  λ e s,
    let n := tx_count s in
    if tx_aborted s || tx_fault e n then (Err ErrDB, mkTx (tx_work s) (tx_committed s) true (S n))
    else match f (tx_clock e n) (tx_work s) with
         | None => (Err ErrDB, mkTx (tx_work s) (tx_committed s) true (S n))
         | Some (a, d) => (Ok a, mkTx d (tx_committed s) false (S n))
         end.

Definition select {A} (f : time → CentralDb → A) : Tx A := stmt (λ t d, Some (f t d, d)).
Definition exec (f : time → CentralDb → option CentralDb) : Tx () := stmt (λ t d, pair () <$> f t d).

(** A statement whose unique violation is reported as an error of its own. *)
Definition exec_unique (cause : dberr) (clash : CentralDb → bool) (f : time → CentralDb → option CentralDb) : Tx () :=
  λ e s,
    if negb (tx_aborted s || tx_fault e (tx_count s)) && clash (tx_work s)
    then (Err cause, mkTx (tx_work s) (tx_committed s) true (S (tx_count s)))
    else exec f e s.

(** [QueryRow ... Scan] of a query with at most one row. *)
Definition select_row {A} (f : time → CentralDb → option A) : Tx A :=
  let* row := select f in
  match row with Some a => tret a | None => tfail ErrNoRows end.

(** [select clock_timestamp()] *)
Definition clock_timestamp : Tx time := select (λ t _, t).

Definition newV7 : Tx uuid :=
  λ e s, match tx_fresh e (tx_count s) with
         | Some id => (Ok id, mkTx (tx_work s) (tx_committed s) (tx_aborted s) (S (tx_count s)))
         | None => (Err ErrDB, mkTx (tx_work s) (tx_committed s) (tx_aborted s) (S (tx_count s)))
         end.

Definition commit : Tx () :=
  λ e s,
    let n := tx_count s in
    match (if tx_aborted s then Refused else tx_commit e n) with
    | Committed => (Ok (), mkTx (tx_work s) (tx_work s) false (S n))
    | Refused => (Err ErrDB, mkTx (tx_work s) (tx_committed s) true (S n))
    | Unknown => (Err ErrDB, mkTx (tx_work s) (tx_work s) true (S n))
    end.

(** [Begin], the body, and the deferred [Rollback]. *)
Definition run_tx {A} (m : Tx A) (e : TxEnv) (d : CentralDb) : result dberr A * CentralDb :=
  let '(r, s) := m e (mkTx d d false 0) in (r, tx_committed s).

(** ** What every transaction uses *)

Section Audit.
Context `{U : UuidPkg} `{P : Platform} `{C : AuditCodec}.

(** [appendAudit] in this transaction. *)
Definition append_audit (event : AuditEvent) : Tx () :=
  λ e s,
    let n := tx_count s in
    let '(ok, table) := appendAudit (tx_fresh e n) (tx_aborted s || tx_fault e n) event (cd_audit (tx_work s)) in
    if ok then (Ok (), mkTx (set_audit table (tx_work s)) (tx_committed s) (tx_aborted s) (S n))
    else (Err ErrDB, mkTx (tx_work s) (tx_committed s) true (S n)).

Definition system_event (id : uuid) (now : time) (action resourceType : string) (resource request : uuid)
    (result reason : string) : AuditEvent :=
  mkAudit id now ActorSystem uuid_Nil action resourceType resource request "" result reason "" "" "".

Definition backupAdmissionAudit (id repositoryID : uuid) (action reason result : string) : Tx () :=
  let* auditID := newV7 in
  let* now := clock_timestamp in
  append_audit (system_event auditID now action "REPOSITORY" repositoryID id result reason).

Definition rejectBackupAdmission {A} (id repositoryID : uuid) (cause : dberr) : Tx A :=
  let* _ := backupAdmissionAudit id repositoryID "GATEWAY_BACKUP_ADMISSION_DENIED" "REJECTED" AuditDenied in
  let* _ := commit in
  tfail cause.

Definition admissionOutbox (a : BackupAdmission) (event : string) : Tx () :=
  let* _ := newV7 in
  exec (λ _ d, Some (set_outbox (cd_outbox d ++ [(event, ba_ID a)]) d)).
End Audit.

(** [select exists(select 1 from gateway_authorization_decisions where admission_id=$1 and revoked)] *)
Definition revoked_for (id : uuid) (d : CentralDb) : bool :=
  existsb (λ r, (dr_AdmissionID r == id) && dr_Revoked r) (cd_decisions d).

(** [... where admission_id=$1 and not revoked and expires_at>clock_timestamp()] *)
Definition live_grant (id : uuid) (t : time) (d : CentralDb) : bool :=
  existsb (λ r, (dr_AdmissionID r == id) && negb (dr_Revoked r) &&
                match dr_ExpiresAt r with Some x => t <? x | None => false end) (cd_decisions d).

(** [select ... where p order by key desc limit 1]. *)
Definition order_desc {A} (key : A → Z) (p : A → bool) (rows : list A) : option A :=
  foldl (λ best r, if p r then
                     match best with
                     | Some b => if key b <? key r then Some r else best
                     | None => Some r
                     end
                   else best) None rows.

Definition latest_decision (p : DecisionRow → bool) (rows : list DecisionRow) : option DecisionRow :=
  order_desc dr_Revision p rows.

Section Constraints.
Context `{U : UuidPkg}.

(** The CHECK constraints of [gateway_authorization_decisions]. *)
Definition decision_check (r : DecisionRow) : bool :=
  (0 <? dr_Revision r) && (0 <=? dr_LifetimeSeconds r) && (dr_LifetimeSeconds r <=? 2592000) &&
  valid_v7 (dr_RequestID r) && valid_v7 (dr_RuntimeID r) &&
  (time_of_unix 0 <? dr_IssuedAt r) && (Truncate (dr_IssuedAt r) second =? dr_IssuedAt r) &&
  match dr_ExpiresAt r with
  | None => dr_Revoked r && (dr_LifetimeSeconds r =? 0)
  | Some x =>
      negb (dr_Revoked r) && (0 <? dr_LifetimeSeconds r) && (Truncate x second =? x) &&
      (dr_IssuedAt r <? x) && (x <=? dr_IssuedAt r + dr_LifetimeSeconds r * second)
  end.

Definition insert_decision (r : DecisionRow) (d : CentralDb) : option CentralDb :=
  if existsb (λ x, (dr_AdmissionID x == dr_AdmissionID r) && (dr_Revision x == dr_Revision r) ||
                   (dr_RequestID x == dr_RequestID r)) (cd_decisions d) || negb (decision_check r)
  then None
  else Some (set_decisions (cd_decisions d ++ [r]) d).
End Constraints.
