(* ===== verification/CentralStore.v ===== *)
(** * CentralStore: admissions, decisions and pending records

    The transactions of internal/persistence/postgres: backup_admissions.go,
    gateway_decisions.go, gateway_pending.go, gateway_recovery.go,
    backup_material.go, gateway_material.go, gateway_global_audit.go, and
    [lockAgentRepository] of agent_credentials.go. *)

From S2P Require Import Prelude GoStd Uuid Platform GatewaySession GatewayAuth AuditChain PendingRecord CentralTx.
Open Scope Z_scope.
Open Scope go_scope.
Open Scope central_scope.

Definition is_none {A} (x : option A) : bool := match x with None => true | Some _ => false end.
Definition is_some {A} (x : option A) : bool := negb (is_none x).

Lemma elem_of_filter_list {A} (f : A → bool) (l : list A) x : x ∈ List.filter f l ↔ x ∈ l ∧ f x = true.
Proof. rewrite !list_elem_of_In. apply filter_In. Qed.

(** ** Locks of the fleet (agent_credentials.go) *)

(** [select ... from repositories where host_id=$1 and archived_at is null]; the
    table allows one such row for a host. *)
Definition host_repository (host : uuid) (d : CentralDb) : option Repository :=
  List.find (λ r, (rp_HostID r == host) && is_none (rp_ArchivedAt r)) (map_to_list (fl_repositories (cd_fleet d))).*2.

Definition lockAgentRepository (agentID : uuid) : Tx Repository :=
  let* agent := tattempt (select_row (λ _ d,
    match fl_agents (cd_fleet d) !! agentID with
    | Some a => if ar_Status a == "ACTIVE" then Some (ar_HostID a) else None
    | None => None
    end)) in
  match agent with
  | Err ErrNoRows => tfail ErrNotFound
  | Err e => tfail e
  | Ok hostID =>
      let* active := select_row (λ _ d,
        (λ h, (hr_Status h == "ACTIVE") && is_none (hr_ArchivedAt h)) <$> fl_hosts (cd_fleet d) !! hostID) in
      if negb active then tfail ErrNotFound
      else
        let* row := tattempt (select_row (λ _ d, host_repository hostID d)) in
        match row with
        | Err ErrNoRows => tfail ErrNotFound
        | Err e => tfail e
        | Ok r =>
            if is_none (rp_InitializedAt r) ||
               (rp_Status r != "PROVISIONING") && (rp_Status r != "READY") && (rp_Status r != "DEGRADED") &&
               (rp_Status r != "LOCKED")
            then tfail ErrNotFound
            else
              let* active := select_row (λ _ d,
                (λ c, sc_Status c != "DISABLED") <$> sg_credentials (cd_storage d) !! rp_StorageCredentialID r) in
              if negb active then tfail ErrNotFound else tret r
        end
  end.

Definition scanAgentDelivery (agentID : uuid) : Tx AgentCredentialDelivery :=
  select_row (λ _ d, fl_deliveries (cd_fleet d) !! agentID).

Definition scanCredential (id : uuid) : Tx StorageCredential :=
  let* row := select (λ _ d, sg_credentials (cd_storage d) !! id) in
  match row with Some c => tret c | None => tfail ErrNotFound end.

(** ** Admissions (backup_admissions.go) *)

Record BackupAdmissionRequest := mkAdmissionRequest {
  br_ID : uuid; br_Owner : uuid; br_AgentID : uuid; br_DeliveryID : uuid; br_ConfigurationHash : string;
  br_Lifetime : duration }.

Definition MaxGatewayOfflineWindow : duration := 30 * 24 * hour.

(** [select ... from gateway_backup_admissions where id=$1 and owner=$2] *)
Definition admission_of (id owner : uuid) (d : CentralDb) : option BackupAdmission :=
  match cd_admissions d !! id with
  | Some a => if ba_Owner a == owner then Some a else None
  | None => None
  end.

Definition live_admission (id owner : uuid) (t : time) (d : CentralDb) : option BackupAdmission :=
  match admission_of id owner d with
  | Some a => if is_none (ba_ReleasedAt a) && (t <? ba_ExpiresAt a) then Some a else None
  | None => None
  end.

(** [exists(select 1 from gateway_backup_admissions where storage_credential_id=$1 and released_at is null)] *)
Definition fenced (credentialID : uuid) (d : CentralDb) : bool :=
  existsb (λ a, (ba_StorageCredentialID a == credentialID) && is_none (ba_ReleasedAt a))
    (map_to_list (cd_admissions d)).*2.

Definition ensureNoBackupAdmission (credentialID : uuid) : Tx () :=
  let* busy := select (λ _ d, fenced credentialID d) in
  if (busy : bool) then tfail ErrRepositoryBusy else tret ().

Definition admissionMatches (a : BackupAdmission) (r : Repository) (d : AgentCredentialDelivery) (hash : string) : bool :=
  (ba_HostID a == rp_HostID r) && (ba_RepositoryID a == rp_ID r) && (ba_GatewayID a == rp_GatewayID r) &&
  (ba_StorageCredentialID a == rp_StorageCredentialID r) && (ba_DeliveryID a == cr_ID d) &&
  is_some (cr_AcceptedAt d) && (cr_RepositoryID d == rp_ID r) && (cr_ConfigurationHash d == hash) &&
  (ba_ConfigurationHash a == hash) && (ba_GatewaySecretRef a == rp_GatewaySecretRef r) &&
  (ba_ResticSecretRef a == rp_ResticSecretRef r) && (cr_GatewaySecretRef d == rp_GatewaySecretRef r) &&
  (cr_ResticSecretRef d == rp_ResticSecretRef r).

(** The constraints of [gateway_backup_admissions]: the primary key, the five
    unique indexes over unreleased rows, and the CHECKs. *)
Definition insert_admission (a : BackupAdmission) (d : CentralDb) : option CentralDb :=
  if is_some (cd_admissions d !! ba_ID a) ||
     existsb (λ x, is_none (ba_ReleasedAt x) &&
                   ((ba_RepositoryID x == ba_RepositoryID a) || (ba_HostID x == ba_HostID a) ||
                    (ba_AgentID x == ba_AgentID a) || (ba_GatewayID x == ba_GatewayID a) ||
                    (ba_StorageCredentialID x == ba_StorageCredentialID a))) (map_to_list (cd_admissions d)).*2 ||
     (ba_GatewaySecretRef a == ba_ResticSecretRef a) || (ba_ExpiresAt a <? ba_CreatedAt a + minute) ||
     (ba_CreatedAt a + 30 * 24 * hour <? ba_ExpiresAt a)
  then None
  else Some (set_admissions (<[ba_ID a := a]> (cd_admissions d)) d).

(** Jobs that hold the credential: unfinished operations and live leases. *)
Definition credential_busy (credentialID : uuid) (t : time) (d : CentralDb) : bool :=
  existsb (λ o, (op_StorageCredentialID o == credentialID) && is_none (op_FinishedAt o))
    (map_to_list (fl_operations (cd_fleet d))).*2 ||
  existsb (λ p, match fl_repositories (cd_fleet d) !! p.1 with
                | Some r => (rp_StorageCredentialID r == credentialID) && (t <? le_ExpiresAt p.2)
                | None => false
                end) (map_to_list (fl_leases (cd_fleet d))).

Section Store.
Context `{U : UuidPkg} `{P : Platform} `{C : AuditCodec}.

(** [true] when [BackupAdmissionRequest.Validate] returns nil. *)
Definition ValidateAdmissionRequest (r : BackupAdmissionRequest) : bool :=
  forallb valid_v7 [br_ID r; br_Owner r; br_AgentID r; br_DeliveryID r] &&
  validPendingHash (br_ConfigurationHash r) &&
  negb ((br_Lifetime r <? minute) || (MaxGatewayOfflineWindow <? br_Lifetime r) || (br_Lifetime r mod second != 0)).

Definition ReserveBackupAdmission (request : BackupAdmissionRequest) : Tx BackupAdmission :=
  if negb (ValidateAdmissionRequest request) then tfail ErrBackupAdmission
  else
    let deny cause repoID := rejectBackupAdmission (A := BackupAdmission) (br_ID request) repoID cause in
    let* locked := tattempt (lockAgentRepository (br_AgentID request)) in
    match locked with
    | Err ErrNotFound => deny ErrBackupAdmission uuid_Nil
    | Err e => tfail e
    | Ok r =>
        if rp_Status r == "LOCKED" then deny ErrBackupAdmission (rp_ID r)
        else
          let* delivery := tattempt (scanAgentDelivery (br_AgentID request)) in
          match delivery with
          | Err ErrNoRows => deny ErrBackupAdmission (rp_ID r)
          | Err e => tfail e
          | Ok dl =>
              let* _ := select (λ _ _, ()) in
              let* row := select (λ _ d, cd_admissions d !! br_ID request) in
              let a := match row with
                       | Some a => a
                       | None =>
                           mkAdmission (br_ID request) (br_Owner request) (br_AgentID request) (rp_HostID r) (rp_ID r)
                             (rp_GatewayID r) (rp_StorageCredentialID r) (br_DeliveryID request)
                             (rp_GatewaySecretRef r) (rp_ResticSecretRef r) (br_ConfigurationHash request)
                             zero_time zero_time None
                       end in
              if (ba_Owner a != br_Owner request) || (ba_AgentID a != br_AgentID request) ||
                 (ba_DeliveryID a != br_DeliveryID request) ||
                 negb (admissionMatches a r dl (br_ConfigurationHash request)) || is_some (ba_ReleasedAt a) ||
                 is_some row && (Sub (ba_ExpiresAt a) (ba_CreatedAt a) != br_Lifetime request)
              then deny ErrBackupAdmission (rp_ID r)
              else
                let* now := clock_timestamp in
                if is_some row then
                  if negb (Before now (ba_ExpiresAt a)) then deny ErrBackupAdmission (rp_ID r)
                  else let* _ := commit in tret a
                else
                  let* free := tattempt (ensureNoBackupAdmission (rp_StorageCredentialID r)) in
                  match free with
                  | Err ErrRepositoryBusy => deny ErrRepositoryBusy (rp_ID r)
                  | Err e => tfail e
                  | Ok _ =>
                      let* busy := select (credential_busy (rp_StorageCredentialID r)) in
                      if (busy : bool) then deny ErrRepositoryBusy (rp_ID r)
                      else
                        let a := mkAdmission (ba_ID a) (ba_Owner a) (ba_AgentID a) (ba_HostID a) (ba_RepositoryID a)
                          (ba_GatewayID a) (ba_StorageCredentialID a) (ba_DeliveryID a) (ba_GatewaySecretRef a)
                          (ba_ResticSecretRef a) (ba_ConfigurationHash a) now (Add now (br_Lifetime request)) None in
                        let* _ := exec (λ _, insert_admission a) in
                        let* _ := admissionOutbox a "GATEWAY_BACKUP_ADMITTED" in
                        let* _ := backupAdmissionAudit (ba_ID a) (ba_RepositoryID a) "GATEWAY_BACKUP_ADMISSION" "RESERVED"
                          AuditSuccess in
                        let* valid := select (λ t d,
                          match cd_admissions d !! ba_ID a with
                          | Some x => is_none (ba_ReleasedAt x) && (t <? ba_ExpiresAt x)
                          | None => false
                          end) in
                        if negb valid then tfail ErrBackupAdmission
                        else let* _ := commit in tret a
                  end
          end
    end.

Definition ensureGatewayAuthorizationNotRevoked (id : uuid) : Tx () :=
  let* revoked := select (λ _ d, revoked_for id d) in
  if (revoked : bool) then tfail ErrBackupAdmission else tret ().

Definition lockBackupAdmission (id owner : uuid) (configurationHash : string) : Tx BackupAdmission :=
  let* row := select (λ _ d, admission_of id owner d) in
  match row with
  | None => tfail ErrBackupAdmission
  | Some a =>
      let* locked := tattempt (lockAgentRepository (ba_AgentID a)) in
      match locked with
      | Err ErrNotFound => tfail ErrBackupAdmission
      | Err e => tfail e
      | Ok r =>
          let* delivery := tattempt (scanAgentDelivery (ba_AgentID a)) in
          match delivery with
          | Err ErrNoRows => tfail ErrBackupAdmission
          | Err e => tfail e
          | Ok dl =>
              let* row := select (λ t d, live_admission id owner t d) in
              match row with
              | None => tfail ErrBackupAdmission
              | Some a =>
                  if (rp_Status r == "LOCKED") || negb (admissionMatches a r dl configurationHash)
                  then tfail ErrBackupAdmission
                  else let* _ := ensureGatewayAuthorizationNotRevoked (ba_ID a) in tret a
              end
          end
      end
  end.

Definition CheckBackupAdmission (id owner : uuid) (configurationHash : string) : Tx BackupAdmission :=
  let* locked := tattempt (lockBackupAdmission id owner configurationHash) in
  match locked with
  | Err ErrBackupAdmission => rejectBackupAdmission id uuid_Nil ErrBackupAdmission
  | Err e => tfail e
  | Ok a => let* _ := commit in tret a
  end.

(** [ensureLiveBackupAdmission] of backup_material.go. *)
Definition ensureLiveBackupAdmission (id owner : uuid) : Tx () :=
  let* live := select (λ t d, is_some (live_admission id owner t d)) in
  if negb live then tfail ErrBackupAdmission else tret ().

Definition ensureGatewayAuthorizationReleasable (id : uuid) : Tx () :=
  let* blocked := select (λ t d, live_grant id t d && negb (revoked_for id d)) in
  if (blocked : bool) then tfail ErrGatewayDecision else tret ().

Definition ensureGatewayPendingReleasable (id : uuid) : Tx () :=
  let* blocked := select (λ _ d,
    match cd_origins d !! id with Some o => is_none (or_ClosedAt o) | None => false end) in
  if (blocked : bool) then tfail ErrGatewayPending else tret ().

(** [update ... set released_at=clock_timestamp() where id=$1 and owner=$2], with
    [check (released_at is null or released_at >= created_at)]. *)
Definition release_row (id owner : uuid) (t : time) (d : CentralDb) : option CentralDb :=
  match admission_of id owner d with
  | Some a =>
      if t <? ba_CreatedAt a then None
      else Some (set_admissions (<[id := with_released t a]> (cd_admissions d)) d)
  | None => Some d
  end.

Definition releaseBackupAdmission (a : BackupAdmission) (action reason : string) : Tx () :=
  let* _ := exec (release_row (ba_ID a) (ba_Owner a)) in
  let* _ := admissionOutbox a "GATEWAY_BACKUP_RELEASED" in
  backupAdmissionAudit (ba_ID a) (ba_RepositoryID a) action reason AuditSuccess.

Definition ReleaseBackupAdmission (id owner : uuid) : Tx () :=
  let* row := select (λ _ d, admission_of id owner d) in
  match row with
  | None => rejectBackupAdmission id uuid_Nil ErrBackupAdmission
  | Some a =>
      if is_some (ba_ReleasedAt a) then commit
      else
        let* x := tattempt (ensureGatewayAuthorizationReleasable id) in
        match x with
        | Err ErrGatewayDecision => rejectBackupAdmission id (ba_RepositoryID a) ErrGatewayDecision
        | Err e => tfail e
        | Ok _ =>
            let* y := tattempt (ensureGatewayPendingReleasable id) in
            match y with
            | Err e => rejectBackupAdmission id (ba_RepositoryID a) e
            | Ok _ =>
                let* _ := releaseBackupAdmission a "GATEWAY_BACKUP_RELEASE" "CLEANUP_CONFIRMED" in
                commit
            end
        end
  end.

(** ** Decisions (gateway_decisions.go) *)

Record GatewayDecisionRequest := mkDecisionRequest {
  dq_ID : uuid; dq_AdmissionID : uuid; dq_Owner : uuid; dq_RuntimeID : uuid; dq_ExpectedRevision : Z;
  dq_Lifetime : duration; dq_Revoke : bool }.

(** [true] when [GatewayDecisionRequest.Validate] returns nil. *)
Definition ValidateDecisionRequest (r : GatewayDecisionRequest) : bool :=
  forallb valid_v7 [dq_ID r; dq_AdmissionID r; dq_Owner r; dq_RuntimeID r] &&
  negb ((dq_ExpectedRevision r <? 0) || (dq_ExpectedRevision r == max_int64)) &&
  (if dq_Revoke r then dq_Lifetime r == 0
   else negb ((dq_Lifetime r <? second) || (MaxGatewayOfflineWindow <? dq_Lifetime r) ||
              (dq_Lifetime r mod second != 0))).

Record GatewayDecision := mkDecision {
  gd_RequestID : uuid; gd_RuntimeID : uuid; gd_Admission : BackupAdmission; gd_Revision : Z;
  gd_RequestedLifetime : duration; gd_IssuedAt : time; gd_ExpiresAt : time; gd_Revoked : bool }.

(** A scanned row; a missing expiry is the zero time. *)
Definition decision_of (a : BackupAdmission) (r : DecisionRow) : GatewayDecision :=
  mkDecision (dr_RequestID r) (dr_RuntimeID r) a (dr_Revision r) (dr_LifetimeSeconds r * second) (dr_IssuedAt r)
    (default zero_time (dr_ExpiresAt r)) (dr_Revoked r).

Definition latest_of (id : uuid) (d : CentralDb) : option DecisionRow :=
  latest_decision (λ r, dr_AdmissionID r == id) (cd_decisions d).

Definition LatestGatewayAuthorization (id runtime : uuid) : Tx GatewayDecision :=
  let* row := select_row (λ _ d, latest_of id d) in
  if dr_RuntimeID row != runtime then tfail ErrGatewayDecision
  else
    let* a := select_row (λ _ d, cd_admissions d !! id) in
    tret (decision_of a row).

(** The row of a new decision, if it may be issued at [now]. *)
Definition next_decision (r : GatewayDecisionRequest) (a : BackupAdmission) (now : time) : option DecisionRow :=
  if dq_Revoke r then
    Some (mkDecisionRow (ba_ID a) (dq_ExpectedRevision r + 1) (dq_ID r) (dq_RuntimeID r) (dq_Lifetime r / second) now
      None true)
  else
    let expires := Add now (dq_Lifetime r) in
    let limit := Truncate (ba_ExpiresAt a) second in
    let expires := if After expires limit then limit else expires in
    if negb (After expires now) then None
    else Some (mkDecisionRow (ba_ID a) (dq_ExpectedRevision r + 1) (dq_ID r) (dq_RuntimeID r) (dq_Lifetime r / second)
           now (Some expires) false).

(** The end of a decision: a grant must still be live. *)
Definition finish_decision (a : BackupAdmission) (decision : GatewayDecision) : Tx GatewayDecision :=
  if gd_Revoked decision then let* _ := commit in tret decision
  else
    let* _ := ensureLiveBackupAdmission (ba_ID a) (ba_Owner a) in
    let* live := select (λ t _, t <? gd_ExpiresAt decision) in
    if negb live then tfail ErrGatewayDecision
    else let* _ := commit in tret decision.

Definition DecideGatewayAuthorization (r : GatewayDecisionRequest) (hash : string) : Tx GatewayDecision :=
  if negb (ValidateDecisionRequest r) then tfail ErrGatewayDecision
  else
    let deny repositoryID :=
      let* _ := backupAdmissionAudit (dq_ID r) repositoryID "GATEWAY_AUTHORIZATION_DENIED" "REJECTED" AuditDenied in
      let* _ := commit in
      tfail (A := GatewayDecision) ErrGatewayDecision in
    let* locked := tattempt
      (if dq_Revoke r then select_row (λ _ d, admission_of (dq_AdmissionID r) (dq_Owner r) d)
       else lockBackupAdmission (dq_AdmissionID r) (dq_Owner r) hash) in
    match locked with
    | Err ErrBackupAdmission | Err ErrNoRows => deny uuid_Nil
    | Err e => tfail e
    | Ok a =>
        let* row := select (λ _ d, latest_of (ba_ID a) d) in
        let previous := match row with
                        | Some p => decision_of a p
                        | None => mkDecision uuid_Nil uuid_Nil a 0 0 zero_time zero_time false
                        end in
        if (0 <? gd_Revision previous) && (gd_RuntimeID previous != dq_RuntimeID r) then deny (ba_RepositoryID a)
        else if gd_RequestID previous == dq_ID r then
          if (gd_Revision previous != dq_ExpectedRevision r + 1) || negb (Bool.eqb (gd_Revoked previous) (dq_Revoke r)) ||
             (gd_RequestedLifetime previous != dq_Lifetime r)
          then deny (ba_RepositoryID a)
          else finish_decision a previous
        else if (gd_Revision previous != dq_ExpectedRevision r) || gd_Revoked previous || is_some (ba_ReleasedAt a)
        then deny (ba_RepositoryID a)
        else
          let* used := select (λ _ d, existsb (λ x, dr_RequestID x == dq_ID r) (cd_decisions d)) in
          if (used : bool) then deny (ba_RepositoryID a)
          else
            let* now := select (λ t _, Truncate t second) in
            if Before now (gd_IssuedAt previous) then deny (ba_RepositoryID a)
            else match next_decision r a now with
            | None => deny (ba_RepositoryID a)
            | Some row =>
                let* _ := exec (λ _, insert_decision row) in
                let* _ := admissionOutbox a "GATEWAY_AUTHORIZATION_DECIDED" in
                let* _ := backupAdmissionAudit (dq_ID r) (ba_RepositoryID a) "GATEWAY_AUTHORIZATION_DECISION"
                  (if dq_Revoke r then "REVOKED" else "GRANTED") AuditSuccess in
                finish_decision a (mkDecision (dq_ID r) (dq_RuntimeID r) a (dq_ExpectedRevision r + 1) (dq_Lifetime r) now
                  (default zero_time (dr_ExpiresAt row)) (dq_Revoke r))
            end
    end.

(** ** Pending records (gateway_pending.go) *)

Record GatewayPendingOrigin := mkOrigin {
  go_Admission : BackupAdmission; go_RuntimeID : uuid; go_PublicKey : string; go_InitialSecretRevision : Z;
  go_ClosedAt : option time }.

Definition origin_of (a : BackupAdmission) (o : OriginRow) : GatewayPendingOrigin :=
  mkOrigin a (or_RuntimeID o) (or_PublicKey o) (or_InitialSecretRevision o) (or_ClosedAt o).

(** [select ... from gateway_pending_origins where admission_id=$1 and runtime_id=$2] *)
Definition origin_row (id runtime : uuid) (d : CentralDb) : option OriginRow :=
  match cd_origins d !! id with
  | Some o => if or_RuntimeID o == runtime then Some o else None
  | None => None
  end.

Definition insert_origin (id : uuid) (o : OriginRow) (d : CentralDb) : option CentralDb :=
  if is_some (cd_origins d !! id) || (slen (or_PublicKey o) != 32) || (or_InitialSecretRevision o <? 1) ||
     negb (valid_v7 (or_RuntimeID o))
  then None
  else Some (set_origins (<[id := o]> (cd_origins d)) d).

Definition RegisterGatewayPendingOrigin (id owner runtime : uuid) (public hash : string) : Tx GatewayPendingOrigin :=
  if negb (valid_v7 runtime) || (slen public != 32) then tfail ErrGatewayPending
  else
    let* a := lockBackupAdmission id owner hash in
    let* valid := tattempt (select (λ t d,
      existsb (λ r, (dr_AdmissionID r == id) && (dr_RuntimeID r == runtime) && negb (dr_Revoked r) &&
                    match dr_ExpiresAt r with Some x => t <? x | None => false end) (cd_decisions d))) in
    match valid with
    | Err _ | Ok false => tfail ErrGatewayPending
    | Ok true =>
        let* revision := select_row (λ _ d, sc_SecretRevision <$> sg_credentials (cd_storage d) !! ba_StorageCredentialID a) in
        let* existing := select (λ _ d, cd_origins d !! id) in
        match existing with
        | Some o =>
            if (or_RuntimeID o != runtime) || (or_PublicKey o != public) || is_some (or_ClosedAt o)
            then tfail ErrGatewayPending
            else let* _ := commit in tret (origin_of a o)
        | None =>
            let* _ := exec (λ t, insert_origin id (mkOriginRow runtime public revision t None)) in
            let* _ := backupAdmissionAudit runtime (ba_RepositoryID a) "GATEWAY_PENDING_ORIGIN" "REGISTERED" AuditSuccess in
            let* _ := ensureLiveBackupAdmission id owner in
            let* _ := commit in
            tret (mkOrigin a runtime public revision None)
        end
    end.

(** Two reads outside a transaction: nothing they return but the times of
    release and closing ever changes. *)
Definition GatewayPendingOrigin_ (id runtime : uuid) : Tx GatewayPendingOrigin :=
  let* o := select_row (λ _ d, origin_row id runtime d) in
  let* a := select_row (λ _ d, cd_admissions d !! id) in
  tret (origin_of a o).

Definition lockPendingOrigin (id runtime : uuid) : Tx GatewayPendingOrigin :=
  let* _ := select_row (λ _ d, cd_admissions d !! id) in
  let* _ := select (λ _ _, ()) in
  let* a := select_row (λ _ d, cd_admissions d !! id) in
  let* o := select_row (λ _ d, origin_row id runtime d) in
  tret (origin_of a o).

Definition of_origin (id runtime : uuid) (r : RecordRow) : bool :=
  (rr_AdmissionID r == id) && (rr_RuntimeID r == runtime).

Definition tail_of (id runtime : uuid) (d : CentralDb) : Z * string :=
  match order_desc rr_Sequence (of_origin id runtime) (cd_records d) with
  | Some r => (rr_Sequence r, rr_WireHash r)
  | None => (0, zero_hash)
  end.

Definition pendingTail (id runtime : uuid) : Tx (Z * string) := select (λ _ d, tail_of id runtime d).

Record GatewayPendingCommit := mkCommit {
  pc_AdmissionID : uuid; pc_Owner : uuid; pc_RuntimeID : uuid; pc_RecordID : uuid; pc_Sequence : Z;
  pc_AuthorizationRevision : Z; pc_PreviousHash : string; pc_WireHash : string; pc_Kind : string; pc_CreatedAt : time;
  pc_Audit : option AuditEvent; pc_ExpectedSecretRevision : Z }.

Definition gatewayCleanupAudit (a : AuditEvent) : bool :=
  (ae_Action a == "GATEWAY_RUNTIME_CLEANUP_COMPLETE") && (ae_ReasonCode a == "JOINED") && (ae_Result a == AuditSuccess) &&
  (ae_ActorType a == ActorSystem) && (ae_ActorID a == uuid_Nil) && (ae_ResourceType a == "GATEWAY") &&
  (ae_ResourceID a == uuid_Nil) && (ae_Changes a == "").

Definition insert_record (r : RecordRow) (d : CentralDb) : option CentralDb :=
  if existsb (λ x, of_origin (rr_AdmissionID r) (rr_RuntimeID r) x && (rr_Sequence x == rr_Sequence r) ||
                   (rr_RecordID x == rr_RecordID r)) (cd_records d) ||
     is_none (origin_row (rr_AdmissionID r) (rr_RuntimeID r) d) || (rr_Sequence r <? 1) ||
     negb (validPendingHash (rr_WireHash r)) || (rr_AuthorizationRevision r <? 1) ||
     negb ((rr_Kind r == "audit") || (rr_Kind r == "refresh")) || negb (valid_v7 (rr_RecordID r))
  then None
  else Some (set_records (cd_records d ++ [r]) d).

(** [update gateway_pending_origins set closed_at=... where admission_id=$1 and runtime_id=$2] *)
Definition close_row (id runtime : uuid) (t : time) (d : CentralDb) : option CentralDb :=
  match origin_row id runtime d with
  | Some o =>
      if t <? or_CreatedAt o then None
      else Some (set_origins (<[id := with_closed t o]> (cd_origins d)) d)
  | None => Some d
  end.

(** [insertSecret] with the constraints of the table. *)
Definition EnvelopeAlgorithm : string := "AES-256-GCM+AES-256-GCM".
Definition secret_check (e : SecretEnvelope) : bool :=
  (se_Algorithm e == EnvelopeAlgorithm) && (slen (se_Nonce e) =? 12) && (slen (se_WrapNonce e) =? 12).
Definition insertSecret (e : SecretEnvelope) (g : Storage) : option Storage :=
  if is_some (sg_secrets g !! se_ID e) || negb (secret_check e) then None
  else Some (mkStorage (sg_credentials g) (<[se_ID e := e]> (sg_secrets g)) (sg_revisions g)).

(** A row of [storage_credential_revisions], whose secret belongs to one revision. *)
Definition insert_revision (id : uuid) (revision : Z) (secret : uuid) (g : Storage) : option Storage :=
  if is_some (sg_revisions g !! (id, revision)) || bool_decide (map_Exists (λ _ x, x = secret) (sg_revisions g)) ||
     is_none (sg_secrets g !! secret) || is_none (sg_credentials g !! id) || (revision <? 1)
  then None
  else Some (mkStorage (sg_credentials g) (sg_secrets g) (<[(id, revision) := secret]> (sg_revisions g))).

(** The refresh of a credential: a new secret, its revision, and the reference. *)
Definition refreshed (e : SecretEnvelope) (now : time) (c : StorageCredential) : StorageCredential :=
  mkCredential (sc_ID c) (sc_Name c) (sc_Provider c) (sc_RemoteName c) (sc_Status c) (se_ID e) (sc_SecretRevision c + 1)
    (sc_Revision c + 1) (sc_CreatedAt c) now (sc_LastTestOperationID c) (sc_LastTestedAt c) (sc_LastTestResult c) (Some now).

Definition refresh_rows (id : uuid) (e : SecretEnvelope) (now : time) (d : CentralDb) : option CentralDb :=
  let g := cd_storage d in
  match sg_credentials g !! id with
  | None => Some d
  | Some c =>
      g ← insertSecret e g;
      g ← insert_revision id (sc_SecretRevision c + 1) (se_ID e) g;
      Some (set_storage (mkStorage (<[id := refreshed e now c]> (sg_credentials g)) (sg_secrets g) (sg_revisions g)) d)
  end.

(** [finishGatewayAdmission]: revocation, sealing and release in one commit. *)
Definition finishGatewayAdmission (o : GatewayPendingOrigin) (request : uuid) : Tx () :=
  let a := go_Admission o in
  let* last := select_row (λ _ d,
    latest_decision (λ r, (dr_AdmissionID r == ba_ID a) && (dr_RuntimeID r == go_RuntimeID o)) (cd_decisions d)) in
  let* now := tattempt (select (λ t _, Truncate t second)) in
  match now with
  | Err _ => tfail ErrGatewayPending
  | Ok now =>
      if Before now (dr_IssuedAt last) then tfail ErrGatewayPending
      else
        let* _ :=
          if dr_Revoked last then tret ()
          else
            let* _ := exec (λ _, insert_decision
              (mkDecisionRow (ba_ID a) (dr_Revision last + 1) request (go_RuntimeID o) 0 now None true)) in
            let* _ := admissionOutbox a "GATEWAY_AUTHORIZATION_DECIDED" in
            backupAdmissionAudit request (ba_RepositoryID a) "GATEWAY_AUTHORIZATION_DECISION" "REVOKED" AuditSuccess in
        let* _ := exec (close_row (ba_ID a) (go_RuntimeID o)) in
        let* _ := backupAdmissionAudit (go_RuntimeID o) (ba_RepositoryID a) "GATEWAY_PENDING_ORIGIN" "SEALED" AuditSuccess in
        let* _ := ensureGatewayAuthorizationReleasable (ba_ID a) in
        let* _ := ensureGatewayPendingReleasable (ba_ID a) in
        releaseBackupAdmission a "GATEWAY_BACKUP_RELEASE" "CLEANUP_CONFIRMED"
  end.

Definition is_cleanup_action (audit : option AuditEvent) : bool :=
  match audit with Some x => ae_Action x == "GATEWAY_RUNTIME_CLEANUP_COMPLETE" | None => false end.

(** The effect of a record, by its kind; [expires] is the end of the grant it
    was made under. *)
Definition pending_effect (r : GatewayPendingCommit) (o : GatewayPendingOrigin) (expires : option time) (now : time)
    (validate : option (StorageCredential → SecretEnvelope → option SecretEnvelope)) : Tx () :=
  let a := go_Admission o in
  if pc_Kind r == "audit" then
    match pc_Audit r, validate with
    | Some audit, None =>
        if pc_ExpectedSecretRevision r != 0 then tfail ErrGatewayPending
        else if is_cleanup_action (Some audit) &&
          (negb (gatewayCleanupAudit audit) || (ae_ID audit != pc_RecordID r) || (ae_RequestID audit != pc_RecordID r) ||
           (ae_OccurredAt audit != pc_CreatedAt r))
        then tfail ErrGatewayPending
        else append_audit audit
    | _, _ => tfail ErrGatewayPending
    end
  else if pc_Kind r == "refresh" then
    match pc_Audit r, validate with
    | None, Some validate =>
        if negb (match expires with Some x => Before (pc_CreatedAt r) x | None => false end) then tfail ErrGatewayPending
        else
          let* c := scanCredential (ba_StorageCredentialID a) in
          if (sc_SecretRevision c != pc_ExpectedSecretRevision r) || (sc_SecretRevision c <? go_InitialSecretRevision o)
          then tfail ErrRevisionConflict
          else
            let* envelope := select_row (λ _ d, sg_secrets (cd_storage d) !! sc_SecretRef c) in
            match validate c envelope with
            | None => tfail ErrGatewayPending
            | Some next =>
                if (se_Kind next != "RCLONE_CONFIG") || negb (valid_v7 (se_ID next)) then tfail ErrGatewayPending
                else
                  let* _ := exec (λ _, refresh_rows (ba_StorageCredentialID a) next now) in
                  backupAdmissionAudit (pc_RecordID r) (ba_RepositoryID a) "GATEWAY_PENDING_REFRESH" "SECRET_CHANGED" AuditSuccess
            end
    | _, _ => tfail ErrGatewayPending
    end
  else tfail ErrGatewayPending.

Definition record_row (r : GatewayPendingCommit) : RecordRow :=
  mkRecordRow (pc_AdmissionID r) (pc_RuntimeID r) (pc_Sequence r) (pc_RecordID r) (pc_WireHash r)
    (pc_AuthorizationRevision r) (pc_Kind r) (pc_CreatedAt r).

Definition CommitGatewayPending (r : GatewayPendingCommit)
    (validate : option (StorageCredential → SecretEnvelope → option SecretEnvelope)) : Tx () :=
  let* o := lockPendingOrigin (pc_AdmissionID r) (pc_RuntimeID r) in
  let a := go_Admission o in
  if (ba_ID a != pc_AdmissionID r) || (ba_Owner a != pc_Owner r) then tfail ErrGatewayPending
  else
    let* old := select (λ _ d,
      List.find (λ x, of_origin (pc_AdmissionID r) (pc_RuntimeID r) x && (rr_Sequence x == pc_Sequence r)) (cd_records d)) in
    match old with
    | Some x =>
        if (rr_RecordID x != pc_RecordID r) || (rr_WireHash x != pc_WireHash r) then tfail ErrGatewayPending else commit
    | None =>
        if is_some (ba_ReleasedAt a) || is_some (go_ClosedAt o) then tfail ErrGatewayPending
        else
          let* tail := pendingTail (pc_AdmissionID r) (pc_RuntimeID r) in
          if (pc_Sequence r != tail.1 + 1) || (pc_PreviousHash r != tail.2) ||
             Before (pc_CreatedAt r) (Truncate (ba_CreatedAt a) second)
          then tfail ErrGatewayPending
          else
            let* grant := tattempt (select_row (λ _ d,
              List.find (λ x, (dr_AdmissionID x == ba_ID a) && (dr_RuntimeID x == pc_RuntimeID r) &&
                              (dr_Revision x == pc_AuthorizationRevision r) && negb (dr_Revoked x)) (cd_decisions d))) in
            match grant with
            | Err _ => tfail ErrGatewayPending
            | Ok grant =>
                if is_none (dr_ExpiresAt grant) || Before (pc_CreatedAt r) (dr_IssuedAt grant) then tfail ErrGatewayPending
                else
                  let* now := clock_timestamp in
                  if After (pc_CreatedAt r) now then tfail ErrGatewayPending
                  else
                    let* _ := pending_effect r o (dr_ExpiresAt grant) now validate in
                    let* _ := exec (λ _, insert_record (record_row r)) in
                    let* _ :=
                      if (pc_Kind r == "audit") && is_cleanup_action (pc_Audit r)
                      then finishGatewayAdmission o (pc_RecordID r) else tret () in
                    commit
            end
    end.

Definition CloseGatewayPendingOrigin (id owner runtime : uuid) (sequence : Z) (hash : string) : Tx () :=
  if (sequence <? 0) || negb (validPendingHash hash) then tfail ErrGatewayPending
  else
    let* o := lockPendingOrigin id runtime in
    let* tail := pendingTail id runtime in
    if (ba_ID (go_Admission o) != id) || (ba_Owner (go_Admission o) != owner) || (tail.1 != sequence) || (tail.2 != hash)
    then tfail ErrGatewayPending
    else if is_some (go_ClosedAt o) then commit
    else if is_some (ba_ReleasedAt (go_Admission o)) then tfail ErrGatewayPending
    else
      let* _ := exec (close_row id runtime) in
      let* _ := backupAdmissionAudit runtime (ba_RepositoryID (go_Admission o)) "GATEWAY_PENDING_ORIGIN" "SEALED" AuditSuccess in
      commit.

(** ** Controlled recovery (gateway_recovery.go) *)

(** A committed record whose audit event is the terminal one. *)
Definition cleanup_complete (id runtime : uuid) (d : CentralDb) : bool :=
  existsb (λ r, of_origin id runtime r && (rr_Kind r == "audit") &&
                existsb (λ e, (ae_ID e == rr_RecordID r) && (ae_Action e == "GATEWAY_RUNTIME_CLEANUP_COMPLETE")) (cd_audit d))
    (cd_records d).

Definition GatewayRuntimeCleanupComplete (id runtime : uuid) : Tx bool :=
  if negb (valid_v7 id) || negb (valid_v7 runtime) then tfail ErrGatewayPending
  else select (λ _ d, cleanup_complete id runtime d).

Definition revokeGatewayRuntime (a : BackupAdmission) (runtime requestID : uuid) (now : time) : Tx () :=
  let* last := select (λ _ d,
    latest_decision (λ r, (dr_AdmissionID r == ba_ID a) && (dr_RuntimeID r == runtime)) (cd_decisions d)) in
  match last with
  | None => tret ()
  | Some last =>
      if Before now (dr_IssuedAt last) then tfail ErrGatewayPending
      else if dr_Revoked last then tret ()
      else if Before (Truncate now second) (dr_IssuedAt last) then tfail ErrGatewayPending
      else
        let* _ := exec (λ _, insert_decision
          (mkDecisionRow (ba_ID a) (dr_Revision last + 1) requestID runtime 0 (Truncate now second) None true)) in
        let* _ := admissionOutbox a "GATEWAY_AUTHORIZATION_DECIDED" in
        backupAdmissionAudit requestID (ba_RepositoryID a) "GATEWAY_AUTHORIZATION_DECISION" "REVOKED" AuditSuccess
  end.

(** From the verified origin to the release. *)
Definition recover_runtime (a : BackupAdmission) (runtime : uuid) (origin : option OriginRow) (now : time) : Tx () :=
  let* requestID := newV7 in
  let* _ := revokeGatewayRuntime a runtime requestID now in
  let* _ :=
    if match origin with Some o => is_none (or_ClosedAt o) | None => false end then
      let* _ := exec (λ _, close_row (ba_ID a) runtime now) in
      backupAdmissionAudit requestID (ba_RepositoryID a) "GATEWAY_PENDING_ORIGIN" "RECOVERED" AuditSuccess
    else tret () in
  let* _ := ensureGatewayAuthorizationReleasable (ba_ID a) in
  let* _ := ensureGatewayPendingReleasable (ba_ID a) in
  let* _ := releaseBackupAdmission a "GATEWAY_BACKUP_RECOVERY" "RECOVERY_CONFIRMED" in
  commit.

Definition RecoverGatewayAdmission (id owner runtime : uuid) (source : string) : Tx () :=
  if negb (forallb valid_v7 [id; owner; runtime]) || (slen source != 0) && (slen source != PublicKeySize)
  then tfail ErrBackupAdmission
  else
    let* row := select (λ _ d, admission_of id owner d) in
    match row with
    | None => rejectBackupAdmission id uuid_Nil ErrBackupAdmission
    | Some _ =>
        let* _ := select (λ _ _, ()) in
        let* row := select (λ _ d, admission_of id owner d) in
        match row with
        | None => rejectBackupAdmission id uuid_Nil ErrBackupAdmission
        | Some a =>
            let deny := rejectBackupAdmission id (ba_RepositoryID a) ErrBackupAdmission in
            if is_some (ba_ReleasedAt a) then commit
            else
              let* now := clock_timestamp in
              if Before now (ba_ExpiresAt a) then deny
              else
                let* terminal := select (λ _ d, cleanup_complete id runtime d) in
                if (terminal : bool) then deny
                else
                  let* origin := select (λ _ d, origin_row id runtime d) in
                  match origin with
                  | Some o =>
                      if (or_RuntimeID o != runtime) || (slen source != PublicKeySize) || (or_PublicKey o != source)
                      then deny else recover_runtime a runtime origin now
                  | None => if slen source != 0 then deny else recover_runtime a runtime origin now
                  end
        end
    end.

(** ** Secrets for an admitted runtime (backup_material.go, gateway_material.go) *)

(** The current secret of a credential, by the join with its revisions. *)
Definition current_secret (c : StorageCredential) (d : CentralDb) : option SecretEnvelope :=
  if sg_revisions (cd_storage d) !! (sc_ID c, sc_SecretRevision c) == Some (sc_SecretRef c)
  then sg_secrets (cd_storage d) !! sc_SecretRef c else None.

(** [rejectBackupAdmission] when the lock reports [ErrBackupAdmission]. *)
Definition lock_or_reject (id owner : uuid) (hash : string) : Tx BackupAdmission :=
  let* locked := tattempt (lockBackupAdmission id owner hash) in
  match locked with
  | Err ErrBackupAdmission => rejectBackupAdmission id uuid_Nil ErrBackupAdmission
  | Err e => tfail e
  | Ok a => tret a
  end.

Definition BackupAdmissionMaterial (id owner : uuid) (hash : string) :
    Tx (BackupAdmission * StorageCredential * SecretEnvelope) :=
  let* a := lock_or_reject id owner hash in
  let* c := scanCredential (ba_StorageCredentialID a) in
  let* e := select_row (λ _ d, current_secret c d) in
  let* _ := backupAdmissionAudit id (ba_RepositoryID a) "GATEWAY_STORAGE_SECRET_ACCESS" "AUTHORIZED" AuditSuccess in
  let* _ := ensureLiveBackupAdmission id owner in
  let* _ := commit in
  tret (a, c, e).

Definition RefreshBackupAdmission (id owner : uuid) (hash : string) (expected : Z) (e : SecretEnvelope) :
    Tx StorageCredential :=
  let* a := lock_or_reject id owner hash in
  let* registered := select (λ _ d, is_some (cd_origins d !! id)) in
  if (registered : bool) then tfail ErrGatewayPending
  else
    let* c := scanCredential (ba_StorageCredentialID a) in
    if (expected <? 1) || (sc_SecretRevision c != expected) then tfail ErrRevisionConflict
    else if (se_Kind e != "RCLONE_CONFIG") || negb (valid_v7 (se_ID e)) then tfail ErrStorageUnavailable
    else
      let* now := clock_timestamp in
      let* _ := exec (λ _, refresh_rows (ba_StorageCredentialID a) e now) in
      let* c := scanCredential (ba_StorageCredentialID a) in
      let* _ := backupAdmissionAudit id (ba_RepositoryID a) "GATEWAY_STORAGE_REFRESH" "SECRET_CHANGED" AuditSuccess in
      let* _ := ensureLiveBackupAdmission id owner in
      let* _ := commit in
      tret c.

Definition insert_material (id : uuid) (m : MaterialRow) (d : CentralDb) : option CentralDb :=
  if is_some (cd_material d !! id) || is_none (origin_row id (mr_RuntimeID m) d) ||
     negb (validPendingHash (mr_ChallengeHash m)) || (mr_AuthorizationRevision m <? 1) || (mr_SecretRevision m <? 1)
  then None
  else Some (set_material (<[id := m]> (cd_material d)) d).

Definition GatewayDeliveryMaterial (id owner runtime : uuid) (source hash challengeHash : string) :
    Tx (BackupAdmission * StorageCredential * SecretEnvelope * GatewayPendingOrigin * GatewayDecision) :=
  if negb (valid_v7 runtime) || (slen source != 32) || negb (validPendingHash challengeHash) then tfail ErrGatewayPending
  else
    let* a := lockBackupAdmission id owner hash in
    let* row := tattempt (select_row (λ _ d, origin_row id runtime d)) in
    match row with
    | Err _ => tfail ErrGatewayPending
    | Ok o =>
        if is_some (or_ClosedAt o) || (or_PublicKey o != source) then tfail ErrGatewayPending
        else
          let* started := tattempt (select (λ _ d, existsb (λ r, rr_AdmissionID r == id) (cd_records d))) in
          match started with
          | Err _ | Ok true => tfail ErrGatewayPending
          | Ok false =>
              let* last := tattempt (select_row (λ _ d, latest_of id d)) in
              match last with
              | Err _ => tfail ErrGatewayPending
              | Ok last =>
                  if (dr_RuntimeID last != runtime) || dr_Revoked last || is_none (dr_ExpiresAt last)
                  then tfail ErrGatewayPending
                  else
                    let decision := decision_of a last in
                    let* credential := tattempt (scanCredential (ba_StorageCredentialID a)) in
                    match credential with
                    | Err _ => tfail ErrGatewayPending
                    | Ok c =>
                        if sc_SecretRevision c != or_InitialSecretRevision o then tfail ErrGatewayPending
                        else
                          let* envelope := select_row (λ _ d, current_secret c d) in
                          let* _ := exec (λ _, insert_material id
                            (mkMaterialRow runtime challengeHash (dr_Revision last) (sc_SecretRevision c))) in
                          let* _ := backupAdmissionAudit id (ba_RepositoryID a) "GATEWAY_MATERIAL_DELIVERY" "SECRET_ACCESS"
                            AuditSuccess in
                          let* live := tattempt (select (λ t _, (t <? gd_ExpiresAt decision) && (t <? ba_ExpiresAt a))) in
                          match live with
                          | Err _ | Ok false => tfail ErrGatewayPending
                          | Ok true => let* _ := commit in tret (a, c, envelope, origin_of a o, decision)
                          end
                    end
              end
          end
    end.

(** ** Process-wide audit (gateway_global_audit.go) *)

Record GatewayAuditOrigin := mkAuditOrigin {
  gao_Binding : GatewayAuditBinding; gao_PublicKey : string; gao_CreatedAt : time; gao_ClosedAt : option time }.

Definition audit_origin_of (id : uuid) (o : AuditOriginRow) : GatewayAuditOrigin :=
  mkAuditOrigin (mkAuditBinding id (ao_RuntimeID o)) (ao_PublicKey o) (ao_CreatedAt o) (ao_ClosedAt o).

Definition audit_origin_row (b : GatewayAuditBinding) (d : CentralDb) : option AuditOriginRow :=
  match cd_audit_origins d !! OriginID b with
  | Some o => if ao_RuntimeID o == AuditRuntimeID b then Some o else None
  | None => None
  end.

(** [insert ... on conflict(id) do nothing]; the value is whether a row was
    inserted. *)
Definition insert_audit_origin (b : GatewayAuditBinding) (public : string) (t : time) (d : CentralDb) :
    option (bool * CentralDb) :=
  if is_some (cd_audit_origins d !! OriginID b) then Some (false, d)
  else if existsb (λ o, ao_RuntimeID o == AuditRuntimeID b) (map_to_list (cd_audit_origins d)).*2 || (slen public != 32) ||
          negb (valid_v7 (OriginID b)) || negb (valid_v7 (AuditRuntimeID b))
  then None
  else Some (true, set_audit_origins
    (<[OriginID b := mkAuditOriginRow (AuditRuntimeID b) public t None]> (cd_audit_origins d)) d).

Definition RegisterGatewayAuditOrigin (b : GatewayAuditBinding) (public : string) : Tx GatewayAuditOrigin :=
  if negb (ValidateAuditBinding b) || (slen public != 32) then tfail ErrGatewayGlobalAudit
  else
    let* inserted := stmt (insert_audit_origin b public) in
    let* row := tattempt (select_row (λ _ d, cd_audit_origins d !! OriginID b)) in
    match row with
    | Err _ => tfail ErrGatewayGlobalAudit
    | Ok o =>
        if (ao_RuntimeID o != AuditRuntimeID b) || (ao_PublicKey o != public) || is_some (ao_ClosedAt o)
        then tfail ErrGatewayGlobalAudit
        else
          let* _ :=
            if (inserted : bool)
            then append_audit (system_event (OriginID b) (ao_CreatedAt o) "GATEWAY_AUDIT_ORIGIN" "GATEWAY" uuid_Nil
                   (OriginID b) AuditSuccess "REGISTERED")
            else tret () in
          let* _ := commit in
          tret (audit_origin_of (OriginID b) o)
    end.

Definition GatewayAuditOrigin_ (b : GatewayAuditBinding) : Tx GatewayAuditOrigin :=
  let* o := select_row (λ _ d, audit_origin_row b d) in
  tret (audit_origin_of (OriginID b) o).

Definition of_audit_origin (b : GatewayAuditBinding) (r : AuditRecordRow) : bool :=
  (ad_OriginID r == OriginID b) && (ad_RuntimeID r == AuditRuntimeID b).

Definition audit_tail_of (b : GatewayAuditBinding) (d : CentralDb) : Z * string :=
  match order_desc ad_Sequence (of_audit_origin b) (cd_audit_records d) with
  | Some r => (ad_Sequence r, ad_WireHash r)
  | None => (0, zero_hash)
  end.

Definition auditTail (b : GatewayAuditBinding) : Tx (Z * string) := select (λ _ d, audit_tail_of b d).

Definition close_audit_row (b : GatewayAuditBinding) (t : time) (d : CentralDb) : option CentralDb :=
  match audit_origin_row b d with
  | Some o =>
      if t <? ao_CreatedAt o then None
      else Some (set_audit_origins (<[OriginID b :=
             mkAuditOriginRow (ao_RuntimeID o) (ao_PublicKey o) (ao_CreatedAt o) (Some t)]> (cd_audit_origins d)) d)
  | None => Some d
  end.

Record GatewayAuditCommit := mkAuditCommit {
  gc_Binding : GatewayAuditBinding; gc_RecordID : uuid; gc_Sequence : Z; gc_PreviousHash : string; gc_WireHash : string;
  gc_CreatedAt : time; gc_Audit : AuditEvent }.

Definition insert_audit_record (r : AuditRecordRow) (d : CentralDb) : option CentralDb :=
  if existsb (λ x, (ad_OriginID x == ad_OriginID r) && (ad_RuntimeID x == ad_RuntimeID r) &&
                   (ad_Sequence x == ad_Sequence r) || (ad_RecordID x == ad_RecordID r)) (cd_audit_records d) ||
     (ad_Sequence r <? 1) || negb (validPendingHash (ad_WireHash r)) || negb (valid_v7 (ad_RecordID r))
  then None
  else Some (set_audit_records (cd_audit_records d ++ [r]) d).

(** What a committed event must look like at [now]. *)
Definition audit_commit_ok (r : GatewayAuditCommit) (o : AuditOriginRow) (tail : Z * string) (now : time) : bool :=
  negb (is_some (ao_ClosedAt o) || (gc_Sequence r != tail.1 + 1) || (gc_PreviousHash r != tail.2) ||
    Before (gc_CreatedAt r) (Truncate (ao_CreatedAt o) second) || After (gc_CreatedAt r) now ||
    (ae_ID (gc_Audit r) != gc_RecordID r) || (ae_RequestID (gc_Audit r) != gc_RecordID r) ||
    (ae_OccurredAt (gc_Audit r) != gc_CreatedAt r) || (ae_ResourceID (gc_Audit r) != uuid_Nil) ||
    (ae_ActorID (gc_Audit r) != uuid_Nil) || (ae_ActorType (gc_Audit r) != ActorSystem) ||
    (ae_ResourceType (gc_Audit r) != "GATEWAY") ||
    (ae_Result (gc_Audit r) != AuditDenied) && negb (gatewayCleanupAudit (gc_Audit r)) ||
    (ae_Action (gc_Audit r) == "GATEWAY_RUNTIME_CLEANUP_COMPLETE") && negb (gatewayCleanupAudit (gc_Audit r))).

Definition CommitGatewayGlobalAudit (r : GatewayAuditCommit) : Tx () :=
  let b := gc_Binding r in
  let* o := select_row (λ _ d, audit_origin_row b d) in
  let* old := select (λ _ d,
    List.find (λ x, of_audit_origin b x && (ad_Sequence x == gc_Sequence r)) (cd_audit_records d)) in
  match old with
  | Some x =>
      if (ad_RecordID x != gc_RecordID r) || (ad_WireHash x != gc_WireHash r) then tfail ErrGatewayGlobalAudit else commit
  | None =>
      let* tail := auditTail b in
      let* now := clock_timestamp in
      if negb (audit_commit_ok r o tail now) then tfail ErrGatewayGlobalAudit
      else
        let* _ := append_audit (gc_Audit r) in
        let* _ := exec (λ _, insert_audit_record
          (mkAuditRecordRow (OriginID b) (AuditRuntimeID b) (gc_Sequence r) (gc_RecordID r) (gc_WireHash r) (gc_CreatedAt r))) in
        let* _ :=
          if gatewayCleanupAudit (gc_Audit r) then
            let* _ := exec (close_audit_row b) in
            append_audit (system_event uuid_Nil now "GATEWAY_AUDIT_ORIGIN" "GATEWAY" uuid_Nil (OriginID b) AuditSuccess "SEALED")
          else tret () in
        commit
  end.

(** The server's own clock dates the closing event. *)
Definition CloseGatewayAuditOrigin (b : GatewayAuditBinding) (sequence : Z) (hash : string) (server_now : time) : Tx () :=
  let* o := select_row (λ _ d, audit_origin_row b d) in
  let* tail := tattempt (auditTail b) in
  match tail with
  | Err _ => tfail ErrGatewayGlobalAudit
  | Ok tail =>
      if (tail.1 != sequence) || (tail.2 != hash) then tfail ErrGatewayGlobalAudit
      else if is_some (ao_ClosedAt o) then commit
      else
        let* _ := exec (close_audit_row b) in
        let* _ := append_audit (system_event uuid_Nil server_now "GATEWAY_AUDIT_ORIGIN" "GATEWAY" uuid_Nil (OriginID b)
          AuditSuccess "SEALED") in
        commit
  end.
End Store.
