(* ===== verification/StorageSecret.v ===== *)
(** * StorageSecret: encrypted storage configurations

    internal/security/envelope.go and the secret half of internal/server/storage.go:
    envelope encryption under the master key, the binding of a secret to its
    credential and revision, and the validation of a refreshed configuration.
    AES-GCM is a parameter, the class [AEAD]. *)

From S2P Require Import Prelude GoStd Uuid CentralTx CentralStore RcloneConfig RcloneProps RcloneTarget.
Open Scope Z_scope.
Open Scope go_scope.

(** ** Envelopes (security/envelope.go) *)

(** crypto/cipher with AES: sealing and opening with a key, a nonce and
    additional data. *)
Class AEAD := {
  gcm_Seal : string → string → string → string → string;
  gcm_Open : string → string → string → string → option string }.

Definition aes_key (key : string) : bool := (slen key =? 16) || (slen key =? 24) || (slen key =? 32).
Definition NonceSize : Z := 12.

Class AEADLaws `{AE : AEAD} : Prop := {
  gcm_Open_Seal : ∀ key nonce plaintext aad, aes_key key = true → slen nonce = NonceSize →
    gcm_Open key nonce (gcm_Seal key nonce plaintext aad) aad = Some plaintext }.

Record Envelope := mkEnvelope {
  en_Ciphertext : string;
  en_Nonce : string;
  en_WrappedDataKey : string;
  en_WrapNonce : string;
  en_AAD : string }.

(** [rand.Read] into a buffer of [n] bytes: the bytes of the source, or an error. *)
Definition entropy : Type := option (nat → ascii).
Fixpoint read_bytes (src : nat → ascii) (from n : nat) : string :=
  match n with O => EmptyString | S n => String (src from) (read_bytes src (S from) n) end.
Definition rand_Read (src : entropy) (n : Z) : option string := (λ f, read_bytes f 0 (Z.to_nat n)) <$> src.

(** What sealing a configuration draws from its surroundings. *)
Record SealEnv := mkSealEnv {
  sl_id : option uuid;
  sl_dataKey : entropy;
  sl_nonce : entropy;
  sl_wrapNonce : entropy;
  sl_clock : time }.

(** Opening fails with an error, or panics on a nonce of the wrong size. *)
Inductive open_error := ErrMasterKey | ErrCipher | ErrUnwrap | ErrDecrypt | NoncePanic.

Section Envelopes.
Context `{AE : AEAD}.

Definition newGCM (key : string) : option string := if aes_key key then Some key else None.
Definition gcm_open (key nonce ciphertext aad : string) (failed : open_error) : result open_error string :=
  if negb (slen nonce =? NonceSize) then Err NoncePanic
  else match gcm_Open key nonce ciphertext aad with Some p => Ok p | None => Err failed end.

Definition wrapAAD (aad : string) : string := "wrap:" +:+ aad.

Definition SealEnvelope (masterKey plaintext aad : string) (env : SealEnv) : option Envelope :=
  if slen masterKey != 32 then None
  else
    dataKey ← rand_Read (sl_dataKey env) 32;
    dataGCM ← newGCM dataKey;
    nonce ← rand_Read (sl_nonce env) NonceSize;
    let ciphertext := gcm_Seal dataGCM nonce plaintext aad in
    wrapGCM ← newGCM masterKey;
    wrapNonce ← rand_Read (sl_wrapNonce env) NonceSize;
    let wrapped := gcm_Seal wrapGCM wrapNonce dataKey (wrapAAD aad) in
    Some (mkEnvelope ciphertext nonce wrapped wrapNonce aad).

Definition OpenEnvelope (masterKey : string) (envelope : Envelope) : result open_error string :=
  if slen masterKey != 32 then Err ErrMasterKey
  else match newGCM masterKey with
  | None => Err ErrCipher
  | Some wrapGCM =>
      let! dataKey := gcm_open wrapGCM (en_WrapNonce envelope) (en_WrappedDataKey envelope) (wrapAAD (en_AAD envelope)) ErrUnwrap in
      match newGCM dataKey with
      | None => Err ErrCipher
      | Some dataGCM => gcm_open dataGCM (en_Nonce envelope) (en_Ciphertext envelope) (en_AAD envelope) ErrDecrypt
      end
  end.
End Envelopes.

(** ** Storage secrets (server/storage.go) *)

Definition StorageOneDrive : string := "RCLONE_ONEDRIVE".
Definition StorageGDrive : string := "RCLONE_GDRIVE".
Definition StorageWebDAV : string := "RCLONE_WEBDAV".

Definition storageProvider (config : Config) : string :=
  if Backend config == "onedrive" then StorageOneDrive
  else if Backend config == "drive" then StorageGDrive
  else if Backend config == "webdav" then StorageWebDAV
  else "".

Definition with_revision (revision : Z) (now : time) (c : StorageCredential) : StorageCredential :=
  mkCredential (sc_ID c) (sc_Name c) (sc_Provider c) (sc_RemoteName c) (sc_Status c) (sc_SecretRef c) revision
    (sc_Revision c) (sc_CreatedAt c) now (sc_LastTestOperationID c) (sc_LastTestedAt c) (sc_LastTestResult c) (sc_LastRefreshedAt c).

Section Secrets.
Context `{U : UuidPkg} `{AE : AEAD}.

Definition storageAAD (credential : StorageCredential) (secretID : uuid) : string :=
  "restfleet:storage-rclone:v1:" +:+ UString (sc_ID credential) +:+ ":" +:+ Itoa (sc_SecretRevision credential) +:+ ":" +:+
  UString secretID +:+ ":master:v1".

Definition sealStorageConfig (masterKey : string) (credential : StorageCredential) (config : Config) (env : SealEnv) :
    option SecretEnvelope :=
  secretID ← sl_id env;
  let plaintext := Bytes config in
  sealed ← SealEnvelope masterKey plaintext (storageAAD credential secretID) env;
  Some (mkSecret secretID "RCLONE_CONFIG" EnvelopeAlgorithm "master:v1" (en_Ciphertext sealed) (en_Nonce sealed)
    (en_WrappedDataKey sealed) (en_WrapNonce sealed) (en_AAD sealed) (sc_UpdatedAt credential)).

Definition openStorageSecret (key : string) (credential : StorageCredential) (e : SecretEnvelope) : option string :=
  if (se_ID e != sc_SecretRef credential) || (se_Kind e != "RCLONE_CONFIG") || (se_KeyID e != "master:v1") ||
     (se_Algorithm e != EnvelopeAlgorithm) || (se_AAD e != storageAAD credential (se_ID e)) ||
     (slen (se_Nonce e) != 12) || (slen (se_WrapNonce e) != 12)
  then None
  else match OpenEnvelope key (mkEnvelope (se_Ciphertext e) (se_Nonce e) (se_WrappedDataKey e) (se_WrapNonce e) (se_AAD e)) with
  | Ok plaintext => Some plaintext
  | Err _ => None
  end.
End Secrets.

(** ** What was sealed opens *)

Lemma read_bytes_length src from n : String.length (read_bytes src from n) = n.
Proof. revert from. induction n as [|n IH]; intros from; [done|]. cbn. by rewrite IH. Qed.

Lemma rand_Read_length src n s : 0 ≤ n → rand_Read src n = Some s → slen s = n.
Proof.
  unfold rand_Read, slen. intros Hn. destruct src as [f|]; [|done]. cbn. intros [= <-]. rewrite read_bytes_length. lia.
Qed.

Section Opening.
Context `{U : UuidPkg} `{AE : AEAD} {HA : AEADLaws}.

Lemma Open_Seal masterKey plaintext aad env e :
  SealEnvelope masterKey plaintext aad env = Some e →
  OpenEnvelope masterKey e = Ok plaintext ∧ en_AAD e = aad ∧ slen (en_Nonce e) = 12 ∧ slen (en_WrapNonce e) = 12.
Proof using HA.
  unfold SealEnvelope, OpenEnvelope. destruct (slen masterKey != 32) eqn:Hk; [done|]. bool_prop.
  assert (Hm : aes_key masterKey = true) by (unfold aes_key; by rewrite Hk).
  destruct (rand_Read (sl_dataKey env) 32) as [dk|] eqn:Hd; [|done]. cbn [mbind option_bind].
  apply rand_Read_length in Hd; [|done]. assert (Hdk : aes_key dk = true) by (unfold aes_key; by rewrite Hd).
  unfold newGCM. rewrite Hm, Hdk. cbn [mbind option_bind].
  destruct (rand_Read (sl_nonce env) NonceSize) as [n|] eqn:Hn; [|done]. cbn [mbind option_bind].
  destruct (rand_Read (sl_wrapNonce env) NonceSize) as [w|] eqn:Hw; [|done]. cbn [mbind option_bind]. intros [= <-].
  apply rand_Read_length in Hn, Hw; [|done..]. cbn. unfold gcm_open. rewrite Hn, Hw. cbn.
  rewrite gcm_Open_Seal by done. cbn. rewrite Hdk. by rewrite gcm_Open_Seal by done.
Qed.

(** A sealed configuration opens for the credential that refers to it, at the
    revision it was sealed for. *)
Lemma open_sealed key c config env e c' :
  sealStorageConfig key c config env = Some e →
  sc_ID c' = sc_ID c → sc_SecretRevision c' = sc_SecretRevision c → sc_SecretRef c' = se_ID e →
  openStorageSecret key c' e = Some (Bytes config).
Proof using HA.
  unfold sealStorageConfig. destruct (sl_id env) as [id|]; [|done]. cbn [mbind option_bind].
  destruct (SealEnvelope _ _ _ _) as [s|] eqn:Hs; [|done]. cbn [mbind option_bind]. intros [= <-] Hid Hrev Href.
  apply Open_Seal in Hs as (Ho & Ha & Hn & Hw). unfold openStorageSecret. cbn in *.
  rewrite Ha, Href, Hn, Hw. unfold storageAAD. rewrite Hid, Hrev, !bool_decide_eq_true_2 by done. cbn [negb orb].
  unfold storageAAD in Ha. rewrite <- Ha. destruct s; cbn in *. by rewrite Ho.
Qed.

(** The size checks rule the panic out. *)
Lemma open_never_panics key envelope :
  slen (en_Nonce envelope) = 12 → slen (en_WrapNonce envelope) = 12 → OpenEnvelope key envelope ≠ Err NoncePanic.
Proof using Type.
  intros Hn Hw. unfold OpenEnvelope, gcm_open. rewrite Hn, Hw. destruct (slen key != 32); [done|].
  destruct (newGCM key); [|done]. cbn. destruct (gcm_Open _ _ _ _) as [dk|]; [|done]. cbn.
  destruct (newGCM dk); [|done]. by destruct (gcm_Open _ _ _ _).
Qed.
End Opening.

(** An implementation that satisfies the law: the tag is the key, the nonce and
    the additional data. *)
Definition small_open (key nonce ciphertext aad : string) : option string :=
  let tag := key +:+ nonce +:+ aad in
  if HasPrefix ciphertext tag then Some (drop_bytes (String.length tag) ciphertext) else None.
#[export] Instance small_gcm : AEAD :=
  { gcm_Seal := λ key nonce plaintext aad, (key +:+ nonce +:+ aad) +:+ plaintext; gcm_Open := small_open }.
#[export] Instance small_gcm_laws : AEADLaws.
Proof. split. intros key nonce plaintext aad _ _. cbn. unfold small_open. by rewrite HasPrefix_app, drop_bytes_prefix. Qed.

(** The JSON of the audited change. *)
Definition json_key (name : string) : string := String "034" name +:+ String "034" ":".
Definition secret_change (revision : Z) : string :=
  "{" +:+ json_key "secret" +:+ "{" +:+ json_key "changed" +:+ "true," +:+ json_key "revision" +:+ Itoa revision +:+ "}}".

(** ** Refreshed configurations (server/gateway_pending.go) *)

Section Refresh.
Context `{U : UuidPkg} `{AE : AEAD} `{T : TokenCodec} `{W : NetPkg}.

(** The configuration a secret holds, for the provider of its credential. *)
Definition openConfig (key : string) (credential : StorageCredential) (envelope : SecretEnvelope) : option Config :=
  raw ← openStorageSecret key credential envelope;
  previous ← ParseConfig raw (sc_RemoteName credential);
  if storageProvider previous != sc_Provider credential then None else Some previous.

(** The closure [validate] of [ReplayGatewayPending]. *)
Definition validateRefresh (key config : string) (env : SealEnv) (credential : StorageCredential) (envelope : SecretEnvelope) :
    option SecretEnvelope :=
  previous ← openConfig key credential envelope;
  next ← ParseConfig config (sc_RemoteName credential);
  if negb (SameExceptToken previous next) then None
  else if Bytes previous == Bytes next then None
  else sealStorageConfig key (with_revision (sc_SecretRevision credential + 1) (sl_clock env) credential) next env.
End Refresh.
