(* ===== verification/CentralTrace.v ===== *)
(** * CentralTrace: what the transactions of the control plane may change

    [step] is the specification of a single change to the Gateway's tables,
    [changes] a sequence of them.  Every transaction of CentralStore, on every
    path through it and whatever the environment does, leaves a database that
    [changes] reaches ([run_changes]); the properties are those of [step]. *)

From S2P Require Import Prelude GoStd Uuid Platform GatewaySession GatewayAuth AuditChain PendingRecord CentralTx CentralStore.
Open Scope Z_scope.
Open Scope go_scope.
Open Scope central_scope.

(** ** Weakest preconditions of transactions *)

(** [Q] holds of the result, the working copy and the committed database,
    whatever the environment does. *)
Definition wp {A} (m : Tx A) (Q : result dberr A → CentralDb → CentralDb → Prop) (w c : CentralDb) : Prop :=
  ∀ e ab n, Q (m e (mkTx w c ab n)).1 (tx_work (m e (mkTx w c ab n)).2) (tx_committed (m e (mkTx w c ab n)).2).

Section WpRules.
Context {A B : Type}.
Implicit Types Q : result dberr A → CentralDb → CentralDb → Prop.

Lemma wp_ret (a : A) Q w c : Q (Ok a) w c → wp (tret a) Q w c.
Proof. by intros H e ab n. Qed.

Lemma wp_fail x Q w c : Q (Err x) w c → wp (tfail x) Q w c.
Proof. by intros H e ab n. Qed.

Lemma wp_mono (m : Tx A) Q Q' w c : (∀ r w c, Q r w c → Q' r w c) → wp m Q w c → wp m Q' w c.
Proof. intros HQ H e ab n. apply HQ, H. Qed.

Lemma wp_bind (m : Tx A) (k : A → Tx B) (Q : result dberr B → CentralDb → CentralDb → Prop) w c :
  wp m (λ r w c, match r with Ok a => wp (k a) Q w c | Err x => Q (Err x) w c end) w c → wp (tbind m k) Q w c.
Proof.
  intros H e ab n. specialize (H e ab n). unfold tbind. destruct (m e (mkTx w c ab n)) as [[a|x] [w' c' ab' n']]; cbn in *.
  - apply H.
  - done.
Qed.

Lemma wp_attempt (m : Tx A) (Q : result dberr (result dberr A) → CentralDb → CentralDb → Prop) w c :
  wp m (λ r w c, Q (Ok r) w c) w c → wp (tattempt m) Q w c.
Proof. intros H e ab n. specialize (H e ab n). unfold tattempt. by destruct (m e (mkTx w c ab n)) as [r [w' c' ab' n']]. Qed.

Lemma wp_stmt (f : time → CentralDb → option (A * CentralDb)) Q w c :
  Q (Err ErrDB) w c → (∀ t a w', f t w = Some (a, w') → Q (Ok a) w' c) → wp (stmt f) Q w c.
Proof.
  intros He Hok e ab n. unfold stmt. cbn. destruct (ab || tx_fault e n); [done|].
  destruct (f (tx_clock e n) w) as [[a w']|] eqn:Hf; cbn; eauto.
Qed.

Lemma wp_select (f : time → CentralDb → A) Q w c :
  Q (Err ErrDB) w c → (∀ t, Q (Ok (f t w)) w c) → wp (select f) Q w c.
Proof. intros He Hok. apply wp_stmt; [done|]. intros t a w' Hf. cbn in Hf. simplify_eq. apply Hok. Qed.

End WpRules.

Lemma wp_select_row {A} (f : time → CentralDb → option A) (Q : result dberr A → CentralDb → CentralDb → Prop) w c :
  (∀ x, Q (Err x) w c) → (∀ t a, f t w = Some a → Q (Ok a) w c) → wp (select_row f) Q w c.
Proof.
  intros He Hok. unfold select_row. apply wp_bind. apply wp_select; [apply He|]. intros t. destruct (f t w) as [a|] eqn:Hf; [apply wp_ret|apply wp_fail]; eauto.
Qed.

Lemma wp_exec (f : time → CentralDb → option CentralDb) (Q : result dberr () → CentralDb → CentralDb → Prop) w c :
  Q (Err ErrDB) w c → (∀ t w', f t w = Some w' → Q (Ok ()) w' c) → wp (exec f) Q w c.
Proof.
  intros He Hok. apply wp_stmt; [done|]. intros t [] w' Hf. destruct (f t w) as [w''|] eqn:Hw; [|done].
  cbn in Hf. simplify_eq. eauto.
Qed.

Lemma wp_exec_unique cause clash f (Q : result dberr () → CentralDb → CentralDb → Prop) w c :
  (∀ x, Q (Err x) w c) → (∀ t w', clash w = false → f t w = Some w' → Q (Ok ()) w' c) → wp (exec_unique cause clash f) Q w c.
Proof.
  intros He Hok e ab n. unfold exec_unique. cbn. destruct (negb (ab || tx_fault e n) && clash w) eqn:Hb; [apply He|].
  unfold exec, stmt. cbn. destruct (ab || tx_fault e n); [apply He|]. cbn in Hb. destruct (f (tx_clock e n) w) as [w'|] eqn:Hf; [|apply He].
  by eapply Hok.
Qed.

Lemma wp_newV7 (Q : result dberr uuid → CentralDb → CentralDb → Prop) w c :
  Q (Err ErrDB) w c → (∀ id, Q (Ok id) w c) → wp newV7 Q w c.
Proof. intros He Hok e ab n. unfold newV7. cbn. destruct (tx_fresh e n); cbn; auto. Qed.

Lemma wp_commit (Q : result dberr () → CentralDb → CentralDb → Prop) w c :
  Q (Err ErrDB) w c → Q (Err ErrDB) w w → Q (Ok ()) w w → wp commit Q w c.
Proof. intros H1 H2 H3 e ab n. unfold commit. cbn. destruct ab; [done|]. by destruct (tx_commit e n). Qed.

Lemma wp_run {A} (m : Tx A) (Q : result dberr A → CentralDb → Prop) e d :
  wp m (λ r _ c, Q r c) d d → Q (run_tx m e d).1 (run_tx m e d).2.
Proof. intros H. specialize (H e false 0%nat). unfold run_tx. by destruct (m e (mkTx d d false 0)) as [r s]. Qed.

(** ** The specification *)

(** A decision after the previous one of its admission. *)
Definition follows (prev : option DecisionRow) (r : DecisionRow) : Prop :=
  match prev with
  | None => dr_Revision r = 1
  | Some p =>
      dr_Revision r = dr_Revision p + 1 ∧ dr_RuntimeID r = dr_RuntimeID p ∧ dr_Revoked p = false ∧
      dr_IssuedAt p ≤ dr_IssuedAt r
  end.

Definition open_origin (id : uuid) (d : CentralDb) : Prop := ∃ o, cd_origins d !! id = Some o ∧ or_ClosedAt o = None.

Definition unreleased (id : uuid) (a : BackupAdmission) (d : CentralDb) : Prop :=
  cd_admissions d !! id = Some a ∧ ba_ReleasedAt a = None.

(** The event a record stands for is in the audit chain. *)
Definition audited (id : uuid) (d : CentralDb) : Prop := ∃ e, e ∈ cd_audit d ∧ ae_ID e = id.

Section Steps.
Context `{U : UuidPkg} `{P : Platform} `{C : AuditCodec}.

(** Nothing about Gateways changes but the audit chain, which only grows. *)
Record quiet (d d' : CentralDb) : Prop := {
  qu_admissions : cd_admissions d' = cd_admissions d;
  qu_decisions : cd_decisions d' = cd_decisions d;
  qu_origins : cd_origins d' = cd_origins d;
  qu_records : cd_records d' = cd_records d;
  qu_audit_origins : cd_audit_origins d' = cd_audit_origins d;
  qu_audit_records : cd_audit_records d' = cd_audit_records d;
  qu_material : cd_material d ⊆ cd_material d';
  qu_audit : cd_audit d `prefix_of` cd_audit d';
  qu_chain : linked (cd_audit d) → linked (cd_audit d') }.

Inductive step (d : CentralDb) : CentralDb → Prop :=
| step_quiet d' : quiet d d' → step d d'
| step_admit a :
    cd_admissions d !! ba_ID a = None → cd_origins d !! ba_ID a = None → ba_ReleasedAt a = None →
    (∀ id x, unreleased id x d → ba_StorageCredentialID x ≠ ba_StorageCredentialID a) →
    ba_CreatedAt a + minute ≤ ba_ExpiresAt a ≤ ba_CreatedAt a + 30 * 24 * hour →
    step d (set_admissions (<[ba_ID a := a]> (cd_admissions d)) d)
| step_decide r a :
    unreleased (dr_AdmissionID r) a d → decision_check r = true → follows (latest_of (dr_AdmissionID r) d) r →
    (∀ x, x ∈ cd_decisions d → dr_RequestID x ≠ dr_RequestID r) →
    (∀ x, dr_ExpiresAt r = Some x → x ≤ ba_ExpiresAt a) →
    step d (set_decisions (cd_decisions d ++ [r]) d)
| step_origin id a o :
    unreleased id a d → cd_origins d !! id = None → or_ClosedAt o = None → slen (or_PublicKey o) = 32 →
    (∃ r, r ∈ cd_decisions d ∧ dr_AdmissionID r = id ∧ dr_RuntimeID r = or_RuntimeID o) →
    step d (set_origins (<[id := o]> (cd_origins d)) d)
| step_record r a o :
    unreleased (rr_AdmissionID r) a d → origin_row (rr_AdmissionID r) (rr_RuntimeID r) d = Some o → or_ClosedAt o = None →
    rr_Sequence r = (tail_of (rr_AdmissionID r) (rr_RuntimeID r) d).1 + 1 →
    (∀ x, x ∈ cd_records d → rr_RecordID x ≠ rr_RecordID r) →
    (rr_Kind r = "audit" → audited (rr_RecordID r) d) →
    step d (set_records (cd_records d ++ [r]) d)
| step_close id o t :
    cd_origins d !! id = Some o → or_ClosedAt o = None →
    step d (set_origins (<[id := with_closed t o]> (cd_origins d)) d)
| step_release id a t :
    unreleased id a d → ¬ open_origin id d →
    (revoked_for id d = true ∨ ∃ now, live_grant id now d = false) →
    step d (set_admissions (<[id := with_released t a]> (cd_admissions d)) d)
| step_audit_origin id o :
    cd_audit_origins d !! id = None → ao_ClosedAt o = None →
    step d (set_audit_origins (<[id := o]> (cd_audit_origins d)) d)
| step_audit_record r o :
    audit_origin_row (mkAuditBinding (ad_OriginID r) (ad_RuntimeID r)) d = Some o → ao_ClosedAt o = None →
    ad_Sequence r = (audit_tail_of (mkAuditBinding (ad_OriginID r) (ad_RuntimeID r)) d).1 + 1 →
    (∀ x, x ∈ cd_audit_records d → ad_RecordID x ≠ ad_RecordID r) → audited (ad_RecordID r) d →
    step d (set_audit_records (cd_audit_records d ++ [r]) d)
| step_audit_close id o t :
    cd_audit_origins d !! id = Some o → ao_ClosedAt o = None →
    step d (set_audit_origins (<[id := mkAuditOriginRow (ao_RuntimeID o) (ao_PublicKey o) (ao_CreatedAt o) (Some t)]>
              (cd_audit_origins d)) d).

Definition changes : CentralDb → CentralDb → Prop := rtc step.
End Steps.

(** ** Histories in a table *)

(** Rows numbered consecutively from [n + 1]. *)
Fixpoint numbered {A} (key : A → Z) (n : Z) (l : list A) : Prop :=
  match l with [] => True | r :: rest => key r = n + 1 ∧ numbered key (n + 1) rest end.

Fixpoint follows_all (prev : option DecisionRow) (l : list DecisionRow) : Prop :=
  match l with [] => True | r :: rest => follows prev r ∧ follows_all (Some r) rest end.

Lemma numbered_snoc {A} (key : A → Z) n l r :
  numbered key n (l ++ [r]) ↔ numbered key n l ∧ key r = n + Z.of_nat (length l) + 1.
Proof.
  revert n. induction l as [|x l IH]; intros n; cbn [numbered app length].
  - split; [intros [-> _]; split; [done|lia]|intros [_ ->]; split; [lia|done]].
  - rewrite IH. replace (n + 1 + Z.of_nat (length l) + 1) with (n + Z.of_nat (S (length l)) + 1) by lia. tauto.
Qed.

Lemma numbered_lookup {A} (key : A → Z) n l i r : numbered key n l → l !! i = Some r → key r = n + Z.of_nat i + 1.
Proof.
  revert n i. induction l as [|x l IH]; intros n i; cbn [numbered]; [done|]. intros [Hx Hl] Hi.
  destruct i as [|i]; cbn in Hi; [simplify_eq; lia|]. rewrite (IH _ _ Hl Hi). lia.
Qed.

Definition or_else {A} (x y : option A) : option A := match x with Some _ => x | None => y end.

Lemma follows_snoc prev l r :
  follows_all prev (l ++ [r]) ↔ follows_all prev l ∧ follows (or_else (last l) prev) r.
Proof.
  revert prev. induction l as [|x l IH]; intros prev; cbn [follows_all app]; [cbn; tauto|].
  rewrite IH, last_cons. destruct (last l); cbn; tauto.
Qed.

Lemma follows_numbered l prev :
  follows_all prev l → numbered dr_Revision (match prev with Some p => dr_Revision p | None => 0 end) l.
Proof.
  revert prev. induction l as [|x l IH]; intros prev; [done|]. cbn [follows_all numbered]. intros [Hx Hl].
  assert (Hr : dr_Revision x = match prev with Some p => dr_Revision p | None => 0 end + 1)
    by (destruct prev; cbn in Hx; [tauto|lia]).
  split; [done|]. rewrite <- Hr. apply (IH (Some x)), Hl.
Qed.

Section OrderDesc.
Context {A : Type} (key : A → Z) (p : A → bool).

Lemma order_desc_from n l best :
  (∀ b, best = Some b → key b ≤ n) → numbered key n (filter (λ r, p r = true) l) →
  foldl (λ best r, if p r then
                     match best with
                     | Some b => if key b <? key r then Some r else best
                     | None => Some r
                     end
                   else best) best l = or_else (last (filter (λ r, p r = true) l)) best.
Proof.
  revert n best. induction l as [|x l IH]; intros n best Hb Hn; [done|]. cbn [foldl].
  destruct (p x) eqn:Hp.
  - rewrite filter_cons_True in * by done. destruct Hn as [Hx Hn].
    assert (Hf : match best with Some b => if key b <? key x then Some x else best | None => Some x end = Some x).
    { destruct best as [b|]; [|done]. specialize (Hb b eq_refl). destruct (Z.ltb_spec (key b) (key x)); [done|lia]. }
    rewrite Hf, (IH (n + 1)); [|intros b [= <-]; lia|done]. rewrite last_cons. by destruct (last (filter _ l)).
  - rewrite filter_cons_False in * by congruence. eauto.
Qed.

(** On a numbered history the query returns its last row. *)
Lemma order_desc_last l :
  numbered key 0 (filter (λ r, p r = true) l) → order_desc key p l = last (filter (λ r, p r = true) l).
Proof.
  intros Hn. unfold order_desc. rewrite (order_desc_from 0 l None); [|done|done]. by destruct (last _).
Qed.

Lemma order_desc_tail l :
  numbered key 0 (filter (λ r, p r = true) l) →
  match order_desc key p l with
  | Some r => key r = Z.of_nat (length (filter (λ r, p r = true) l))
  | None => length (filter (λ r, p r = true) l) = 0%nat
  end.
Proof.
  intros Hn. rewrite order_desc_last by done. destruct (last _) as [r|] eqn:Hl.
  - rewrite last_lookup in Hl. rewrite (numbered_lookup _ _ _ _ _ Hn Hl).
    apply lookup_lt_Some in Hl. lia.
  - by apply last_None in Hl as ->.
Qed.

Lemma order_desc_elem l r : order_desc key p l = Some r → r ∈ l ∧ p r = true.
Proof.
  unfold order_desc.
  assert (Hg : ∀ l' best, (∀ b, best = Some b → b ∈ l ∧ p b = true) → (∀ x, x ∈ l' → x ∈ l) → ∀ r,
    foldl (λ best r, if p r then
                       match best with Some b => if key b <? key r then Some r else best | None => Some r end
                     else best) best l' = Some r → r ∈ l ∧ p r = true).
  { induction l' as [|x l' IH]; intros best Hb Hin y Hy; cbn in Hy; [eauto|].
    apply (IH _) in Hy; [done| |intros z Hz; apply Hin; by right].
    intros b. destruct (p x) eqn:Hp; [|by apply Hb]. assert (x ∈ l) by (apply Hin; by left).
    destruct best as [b0|]; [destruct (_ <? _)|]; intros [= <-]; auto. }
  by apply (Hg l None).
Qed.
End OrderDesc.

(** ** The invariant *)

Definition decisions_for (id : uuid) (d : CentralDb) : list DecisionRow :=
  filter (λ r, (dr_AdmissionID r == id) = true) (cd_decisions d).
Definition records_for (id runtime : uuid) (d : CentralDb) : list RecordRow :=
  filter (λ r, of_origin id runtime r = true) (cd_records d).
Definition audit_records_for (b : GatewayAuditBinding) (d : CentralDb) : list AuditRecordRow :=
  filter (λ r, of_audit_origin b r = true) (cd_audit_records d).

Section Invariant.
Context `{U : UuidPkg} `{P : Platform} `{C : AuditCodec}.

(** At most one unreleased admission holds a storage credential. *)
Record fence_ok (d : CentralDb) : Prop := {
  fo_ids : ∀ id a, cd_admissions d !! id = Some a → ba_ID a = id;
  fo_single : ∀ i j a b, unreleased i a d → unreleased j b d →
    ba_StorageCredentialID a = ba_StorageCredentialID b → i = j }.

(** The decisions of an admission are one history; each is within the bounds of
    its table and of its admission. *)
Record decisions_ok (d : CentralDb) : Prop := {
  do_history : ∀ id, follows_all None (decisions_for id d);
  do_bounds : ∀ r, r ∈ cd_decisions d → decision_check r = true ∧
    ∃ a, cd_admissions d !! dr_AdmissionID r = Some a ∧ ∀ x, dr_ExpiresAt r = Some x → x ≤ ba_ExpiresAt a;
  do_requests : NoDup (dr_RequestID <$> cd_decisions d) }.

(** An origin belongs to an admission, for the runtime of its decisions; a
    released admission has no open origin. *)
Record origins_ok (d : CentralDb) : Prop := {
  oo_runtime : ∀ id o, cd_origins d !! id = Some o → slen (or_PublicKey o) = 32 ∧
    ∃ r, r ∈ cd_decisions d ∧ dr_AdmissionID r = id ∧ dr_RuntimeID r = or_RuntimeID o;
  oo_released : ∀ id a, cd_admissions d !! id = Some a → ba_ReleasedAt a ≠ None → ¬ open_origin id d }.

(** The records of an origin are numbered without gaps, and the event of every
    audit record is in the audit chain. *)
Record records_ok (d : CentralDb) : Prop := {
  ro_numbered : ∀ id runtime, numbered rr_Sequence 0 (records_for id runtime d);
  ro_ids : NoDup (rr_RecordID <$> cd_records d);
  ro_origin : ∀ r, r ∈ cd_records d → is_Some (origin_row (rr_AdmissionID r) (rr_RuntimeID r) d);
  ro_audited : ∀ r, r ∈ cd_records d → rr_Kind r = "audit" → audited (rr_RecordID r) d }.

Record audit_ok (d : CentralDb) : Prop := {
  uo_numbered : ∀ b, numbered ad_Sequence 0 (audit_records_for b d);
  uo_ids : NoDup (ad_RecordID <$> cd_audit_records d);
  uo_audited : ∀ r, r ∈ cd_audit_records d → audited (ad_RecordID r) d;
  uo_chain : linked (cd_audit d) }.

Record central_ok (d : CentralDb) : Prop := {
  co_fence : fence_ok d;
  co_decisions : decisions_ok d;
  co_origins : origins_ok d;
  co_records : records_ok d;
  co_audit : audit_ok d }.

Lemma latest_of_last id d : decisions_ok d → latest_of id d = last (decisions_for id d).
Proof. intros Hd. apply order_desc_last, (follows_numbered _ None), do_history, Hd. Qed.

Lemma unreleased_insert id j a x (d : CentralDb) :
  unreleased id a (set_admissions (<[j := x]> (cd_admissions d)) d) →
  (id = j ∧ a = x ∧ ba_ReleasedAt x = None) ∨ (id ≠ j ∧ unreleased id a d).
Proof.
  intros [Hl Hr]. cbn in Hl. apply lookup_insert_Some in Hl as [[<- <-]|[Hne Hl]]; [by left|right]. by split.
Qed.

Lemma with_released_not t a : ba_ReleasedAt (with_released t a) ≠ None.
Proof. done. Qed.

Lemma step_fence d d' : step d d' → fence_ok d → fence_ok d'.
Proof.
  intros Hs [Hi Hf]. destruct Hs as [d' Hq|a Ha Ho Hr Hx He| | | | |id a t [Ha Hr] Hno Hg| | | ];
    try (split; cbn; [exact Hi|exact Hf]).
  - split; [by rewrite (qu_admissions _ _ Hq)|]. intros i j x y. unfold unreleased. rewrite (qu_admissions _ _ Hq). apply Hf.
  - split.
    + intros id x. cbn. intros [[<- <-]|[Hne Hl]]%lookup_insert_Some; [done|eauto].
    + intros i j x y [(-> & -> & H1)|[Hi1 H1]]%unreleased_insert [(-> & -> & H2)|[Hi2 H2]]%unreleased_insert Hc.
      * done.
      * by exfalso; eapply Hx.
      * by exfalso; eapply Hx.
      * eauto.
  - split.
    + intros j x. cbn. intros [[<- <-]|[Hne Hl]]%lookup_insert_Some; [cbn; eauto|eauto].
    + intros i j x y [(-> & -> & H1)|[Hi1 H1]]%unreleased_insert [(-> & -> & H2)|[Hi2 H2]]%unreleased_insert Hc;
        try done. eauto.
Qed.

(** Every admission stays, with the same expiry. *)
Lemma step_admission d d' id a :
  step d d' → cd_admissions d !! id = Some a →
  ∃ a', cd_admissions d' !! id = Some a' ∧ ba_ExpiresAt a' = ba_ExpiresAt a ∧
    (a' = a ∨ ba_ReleasedAt a = None ∧ ∃ t, a' = with_released t a).
Proof.
  intros Hs Ha. destruct Hs as [d' Hq|x Hx Ho Hr He| | | | |j x t [Hx Hr] Hno Hg| | | ]; cbn; eauto 6.
  - rewrite (qu_admissions _ _ Hq). eauto.
  - rewrite lookup_insert_ne by congruence. eauto.
  - destruct (decide (j = id)) as [->|Hne]; [|rewrite lookup_insert_ne by done; eauto].
    rewrite lookup_insert_eq. simplify_eq. eexists. split; [done|]. split; [done|]. eauto.
Qed.

Lemma step_decisions d d' : step d d' → decisions_ok d → decisions_ok d'.
Proof.
  intros Hs Hd. pose proof Hd as [Hh Hb Hn].
  assert (Hsame : cd_decisions d' = cd_decisions d → decisions_ok d').
  { intros Heq. split; [|rewrite Heq|by rewrite Heq].
    - intros id. unfold decisions_for. rewrite Heq. apply Hh.
    - intros r Hr. destruct (Hb r Hr) as (Hc & a & Ha & Hx). split; [done|].
      destruct (step_admission _ _ _ _ Hs Ha) as (a' & Ha' & He & _). exists a'. rewrite He. eauto. }
  destruct Hs as [d' Hq| |r a [Ha Hr] Hc Hf Hreq Hx| | | | | | | ]; try (by apply Hsame).
  - apply Hsame, (qu_decisions _ _ Hq).
  - clear Hsame. split; cbn.
    + intros id. unfold decisions_for. cbn. rewrite filter_snoc. case_decide as Hid; [|rewrite app_nil_r; apply Hh].
      bool_prop. subst id. apply follows_snoc. split; [apply Hh|].
      rewrite latest_of_last in Hf by done. unfold decisions_for in Hf |- *. by destruct (last _).
    + intros x [Hin| ->%list_elem_of_singleton]%elem_of_app; eauto.
    + apply NoDup_snoc_fmap; eauto.
Qed.

Lemma open_origin_insert id j o (d : CentralDb) :
  open_origin id (set_origins (<[j := o]> (cd_origins d)) d) →
  (id = j ∧ or_ClosedAt o = None) ∨ (id ≠ j ∧ open_origin id d).
Proof.
  intros (x & Hl & Hc). cbn in Hl. apply lookup_insert_Some in Hl as [[-> ->]|[Hne Hl]]; [by left|right].
  split; [done|]. by exists x.
Qed.

Lemma step_origins d d' : step d d' → origins_ok d → origins_ok d'.
Proof.
  intros Hs [Hr Hc]. destruct Hs as [d' Hq|a Ha Ho Hra Hx He|r a Hra Hck Hf Hrq Hx|id a o [Ha Hra] Ho Hoc Hk Hex| |id o t Ho Hoc|id a t [Ha Hra] Hno Hg| | | ];
    try (split; cbn; [exact Hr|exact Hc]).
  - split.
    + rewrite (qu_origins _ _ Hq), (qu_decisions _ _ Hq). done.
    + unfold open_origin. rewrite (qu_admissions _ _ Hq), (qu_origins _ _ Hq). done.
  - split; [done|]. intros id x. cbn. intros [[<- <-]|[Hne Hl]]%lookup_insert_Some Hrel; [done|by apply (Hc _ x)].
  - split; [|done]. intros id o Ho. destruct (Hr id o Ho) as (Hk & x & Hin & He). split; [done|]. exists x.
    split; [apply elem_of_app; by left|done].
  - split.
    + intros j x. cbn. intros [[<- <-]|[Hne Hl]]%lookup_insert_Some; eauto.
    + intros j x Hl Hrel [[-> _]|[Hne Hop]]%open_origin_insert; cbn in Hl; [congruence|]. by apply (Hc j x).
  - split.
    + intros j x. cbn. intros [[<- <-]|[Hne Hl]]%lookup_insert_Some; [cbn; eauto|eauto].
    + intros j x Hl Hrel [[-> ?]|[Hne Hop]]%open_origin_insert; [done|]. by apply (Hc j x).
  - split; [done|]. intros j x. cbn. intros [[<- <-]|[Hne Hl]]%lookup_insert_Some Hrel; [done|by apply (Hc j x)].
Qed.

Lemma audited_mono d d' id : cd_audit d `prefix_of` cd_audit d' → audited id d → audited id d'.
Proof. intros [l Hl] (e & He & Hid). exists e. rewrite Hl. split; [apply elem_of_app; by left|done]. Qed.

Lemma origin_row_insert id runtime j o (d : CentralDb) :
  (∀ x, cd_origins d !! j = Some x → or_RuntimeID o = or_RuntimeID x) →
  is_Some (origin_row id runtime d) → is_Some (origin_row id runtime (set_origins (<[j := o]> (cd_origins d)) d)).
Proof.
  intros Ho. unfold origin_row. cbn. destruct (decide (j = id)) as [->|Hne]; [|by rewrite lookup_insert_ne].
  rewrite lookup_insert_eq. destruct (cd_origins d !! id) as [x|] eqn:Hx; [|by intros []]. rewrite (Ho x) by done. case_bool_decide; [by eexists|done].
Qed.

Lemma step_records d d' : step d d' → records_ok d → records_ok d'.
Proof.
  intros Hs [Hn Hi Ho Ha].
  assert (Hsame : cd_records d' = cd_records d → cd_audit d `prefix_of` cd_audit d' →
    (∀ id runtime, is_Some (origin_row id runtime d) → is_Some (origin_row id runtime d')) → records_ok d').
  { intros Heq Hp Hor. split; rewrite ?Heq; try done.
    - intros id runtime. unfold records_for. rewrite Heq. apply Hn.
    - eauto.
    - intros r Hr Hk. eapply audited_mono; eauto. }
  destruct Hs as [d' Hq| | |id a o Hra Hno Hoc Hk Hex|r a o Hra Hor Hoc Hsq Hid Hau|id o t Hor Hoc| | | | ];
    try (by apply Hsame).
  - apply Hsame; [apply Hq|apply Hq|]. unfold origin_row. by rewrite (qu_origins _ _ Hq).
  - apply Hsame; [done|done|]. intros j runtime. apply origin_row_insert. congruence.
  - clear Hsame. split; cbn.
    + intros id runtime. unfold records_for. cbn. rewrite filter_snoc. case_decide as Hd; [|rewrite app_nil_r; apply Hn].
      apply numbered_snoc. split; [apply Hn|]. unfold of_origin in Hd. bool_prop. subst id runtime. rewrite Hsq. unfold tail_of.
      pose proof (order_desc_tail rr_Sequence (of_origin (rr_AdmissionID r) (rr_RuntimeID r)) (cd_records d)
        (Hn (rr_AdmissionID r) (rr_RuntimeID r))) as Ht.
      destruct (order_desc _ _ _); cbn; lia.
    + apply NoDup_snoc_fmap; eauto.
    + intros x [Hin| ->%list_elem_of_singleton]%elem_of_app; [by apply Ho|]. by exists o.
    + intros x [Hin| ->%list_elem_of_singleton]%elem_of_app Hkx; [by apply Ha|by apply Hau].
  - apply Hsame; [done|done|]. intros j runtime. apply origin_row_insert. intros x Hx. by simplify_eq.
Qed.

Lemma step_audit d d' : step d d' → audit_ok d → audit_ok d'.
Proof.
  intros Hs [Hn Hi Ha Hc].
  assert (Hsame : cd_audit_records d' = cd_audit_records d → cd_audit d' = cd_audit d → audit_ok d').
  { intros Heq Hau. split; rewrite ?Heq, ?Hau; try done.
    - intros b. unfold audit_records_for. rewrite Heq. apply Hn.
    - intros r Hr. apply (audited_mono d); [by rewrite Hau|eauto]. }
  destruct Hs as [d' Hq| | | | | | | |r o Hor Hoc Hsq Hid Hau| ]; try (by apply Hsame).
  - clear Hsame. split; rewrite ?(qu_audit_records _ _ Hq); try done.
    + intros b. unfold audit_records_for. rewrite (qu_audit_records _ _ Hq). apply Hn.
    + intros r Hr. eapply audited_mono; [apply Hq|eauto].
    + by apply Hq.
  - clear Hsame. split; cbn.
    + intros b. unfold audit_records_for. cbn. rewrite filter_snoc. case_decide as Hd; [|rewrite app_nil_r; apply Hn].
      apply numbered_snoc. split; [apply Hn|]. unfold of_audit_origin in Hd. bool_prop.
      assert (b = mkAuditBinding (ad_OriginID r) (ad_RuntimeID r)) as -> by (destruct b; cbn in *; congruence).
      rewrite Hsq. unfold audit_tail_of.
      pose proof (order_desc_tail ad_Sequence (of_audit_origin (mkAuditBinding (ad_OriginID r) (ad_RuntimeID r)))
        (cd_audit_records d) (Hn _)) as Ht.
      destruct (order_desc _ _ _); cbn; lia.
    + apply NoDup_snoc_fmap; eauto.
    + intros x [Hin| ->%list_elem_of_singleton]%elem_of_app; [by apply Ha|done].
    + done.
Qed.

Lemma step_ok d d' : step d d' → central_ok d → central_ok d'.
Proof. intros Hs [H1 H2 H3 H4 H5]. split; eauto using step_fence, step_decisions, step_origins, step_records, step_audit. Qed.

Lemma changes_ok d d' : changes d d' → central_ok d → central_ok d'.
Proof. induction 1; eauto using step_ok. Qed.
End Invariant.
