(* ===== verification/CentralGrowth.v ===== *)
(** * CentralGrowth: what a later database keeps

    [grows] relates a database to one of a later moment: rows are only added,
    but for the times at which an admission is released and an origin closed,
    each set once. *)

From S2P Require Import Prelude GoStd Uuid Platform GatewaySession GatewayAuth AuditChain PendingRecord CentralTx CentralStore.
From S2P Require Import CentralTrace.
Open Scope Z_scope.
Open Scope go_scope.
Open Scope central_scope.

(** ** Growth *)

Definition later_admission (a a' : BackupAdmission) : Prop :=
  a' = a ∨ ba_ReleasedAt a = None ∧ ∃ t, a' = with_released t a.
Definition later_origin (o o' : OriginRow) : Prop := o' = o ∨ or_ClosedAt o = None ∧ ∃ t, o' = with_closed t o.

Definition with_audit_closed (t : time) (o : AuditOriginRow) : AuditOriginRow :=
  mkAuditOriginRow (ao_RuntimeID o) (ao_PublicKey o) (ao_CreatedAt o) (Some t).
Definition later_audit_origin (o o' : AuditOriginRow) : Prop :=
  o' = o ∨ ao_ClosedAt o = None ∧ ∃ t, o' = with_audit_closed t o.

Record grows (d d' : CentralDb) : Prop := {
  gr_admissions : ∀ id a, cd_admissions d !! id = Some a → ∃ a', cd_admissions d' !! id = Some a' ∧ later_admission a a';
  gr_decisions : cd_decisions d `prefix_of` cd_decisions d';
  gr_origins : ∀ id o, cd_origins d !! id = Some o → ∃ o', cd_origins d' !! id = Some o' ∧ later_origin o o';
  gr_records : cd_records d `prefix_of` cd_records d';
  gr_audit_origins : ∀ id o, cd_audit_origins d !! id = Some o →
    ∃ o', cd_audit_origins d' !! id = Some o' ∧ later_audit_origin o o';
  gr_audit_records : cd_audit_records d `prefix_of` cd_audit_records d';
  gr_audit : cd_audit d `prefix_of` cd_audit d' }.

#[export] Instance later_admission_preorder : PreOrder later_admission.
Proof.
  split; [by left|]. intros x y z [->|[Hx [t ->]]] [->|[Hy [u ->]]]; [by left|by right; eauto|by right; eauto|done].
Qed.

#[export] Instance later_origin_preorder : PreOrder later_origin.
Proof.
  split; [by left|]. intros x y z [->|[Hx [t ->]]] [->|[Hy [u ->]]]; [by left|by right; eauto|by right; eauto|done].
Qed.

#[export] Instance later_audit_origin_preorder : PreOrder later_audit_origin.
Proof.
  split; [by left|]. intros x y z [->|[Hx [t ->]]] [->|[Hy [u ->]]]; [by left|by right; eauto|by right; eauto|done].
Qed.

(** Reflexivity as a hint. *)
Lemma later_admission_refl a : later_admission a a.
Proof. by left. Qed.
Lemma later_origin_refl o : later_origin o o.
Proof. by left. Qed.
Lemma later_audit_origin_refl o : later_audit_origin o o.
Proof. by left. Qed.
#[export] Hint Resolve later_admission_refl later_origin_refl later_audit_origin_refl : core.

#[export] Instance grows_preorder : PreOrder grows.
Proof.
  split.
  - intros d. by split; eauto.
  - intros x y z [A1 D1 O1 R1 B1 G1 U1] [A2 D2 O2 R2 B2 G2 U2]. split; try (by etrans).
    + intros id a (a' & Ha & La)%A1. apply A2 in Ha as (b & Hb & Lb). exists b. split; [done|by etrans].
    + intros id o (o' & Ho & Lo)%O1. apply O2 in Ho as (b & Hb & Lb). exists b. split; [done|by etrans].
    + intros id o (o' & Ho & Lo)%B1. apply B2 in Ho as (b & Hb & Lb). exists b. split; [done|by etrans].
Qed.

Section Growth.
Context `{U : UuidPkg} `{P : Platform} `{C : AuditCodec}.

(** A row is added, or changed into a later one. *)
Lemma later_insert {A} (later : A → A → Prop) (m : gmap uuid A) j o :
  (∀ x, later x x) → (∀ x, m !! j = Some x → later x o) → ∀ id x, m !! id = Some x →
  ∃ x', (<[j := o]> m) !! id = Some x' ∧ later x x'.
Proof.
  intros Hr Hj id x Hx. destruct (decide (j = id)) as [->|Hne].
  - exists o. split; [by rewrite lookup_insert_eq|by apply Hj].
  - exists x. split; [by rewrite lookup_insert_ne|done].
Qed.

Lemma step_grows d d' : step d d' → grows d d'.
Proof.
  intros Hs. split.
  - intros id a Ha. destruct (step_admission _ _ _ _ Hs Ha) as (a' & Ha' & _ & Hl). by exists a'.
  - destruct Hs as [d' Hq| | | | | | | | | ]; cbn; try done; [by rewrite (qu_decisions _ _ Hq)|by eexists].
  - destruct Hs as [d' Hq| | |id a o Hu Hn Hc|r a o|id o t Ho Hc| | | | ]; cbn; eauto.
    + rewrite (qu_origins _ _ Hq). eauto.
    + apply later_insert; [done|congruence].
    + apply later_insert; [done|]. intros x Hx. simplify_eq. right. eauto.
  - destruct Hs as [d' Hq| | | | | | | | | ]; cbn; try done; [by rewrite (qu_records _ _ Hq)|by eexists].
  - destruct Hs as [d' Hq| | | | | | |id o Ho Hc|r o|id o t Ho Hc]; cbn; eauto.
    + rewrite (qu_audit_origins _ _ Hq). eauto.
    + apply later_insert; [done|congruence].
    + apply later_insert; [done|]. intros x Hx. simplify_eq. right. eauto.
  - destruct Hs as [d' Hq| | | | | | | | | ]; cbn; try done; [by rewrite (qu_audit_records _ _ Hq)|by eexists].
  - destruct Hs as [d' Hq| | | | | | | | | ]; cbn; try done. apply Hq.
Qed.

Lemma changes_grows d d' : changes d d' → grows d d'.
Proof. induction 1 as [|x y z Hs _ IH]; [done|]. etrans; [by apply step_grows|done]. Qed.
End Growth.
