(* ===== verification/CentralRefine.v ===== *)
(** * CentralRefine: the transactions implement the specification

    Every transaction of CentralStore reaches, by COMMIT, only databases that
    [changes] relates to the one it started from. *)

From S2P Require Import Prelude GoStd Uuid Platform GatewaySession GatewayAuth AuditChain PendingRecord CentralTx CentralStore.
From S2P Require Import CentralTrace CentralGrowth.
Open Scope Z_scope.
Open Scope go_scope.
Open Scope central_scope.

(** One rule for the head of a transaction. *)
Ltac wp_head :=
  lazymatch goal with
  | |- wp (tbind _ _) _ _ _ => apply wp_bind
  | |- wp (tret _) _ _ _ => apply wp_ret
  | |- wp (tfail _) _ _ _ => apply wp_fail
  | |- wp (tattempt _) _ _ _ => apply wp_attempt
  | |- wp (select _) _ _ _ => apply wp_select; [|intros ?]
  | |- wp (select_row _) _ _ _ => apply wp_select_row; [intros ?|intros ? ? ?]
  | |- wp clock_timestamp _ _ _ => apply wp_select; [|intros ?]
  | |- wp newV7 _ _ _ => apply wp_newV7; [|intros ?]
  | |- wp commit _ _ _ => apply wp_commit
  | |- wp (if ?b then _ else _) _ _ _ => destruct b eqn:?
  | |- wp (match ?x with _ => _ end) _ _ _ => destruct x eqn:?
  | |- wp ((let '(_, _) := ?x in _)) _ _ _ => destruct x eqn:?
  end; cbn beta iota.
Ltac wp_run := repeat wp_head.

Lemma wp_lockAgentRepository id (Q : result dberr Repository → CentralDb → CentralDb → Prop) w c :
  (∀ r, Q r w c) → wp (lockAgentRepository id) Q w c.
Proof. intros HQ. unfold lockAgentRepository. wp_run; try apply HQ. Qed.

Section Refine.
Context `{U : UuidPkg} `{P : Platform} `{C : AuditCodec}.

#[local] Instance quiet_refl : Reflexive quiet.
Proof. by split. Qed.

#[local] Instance quiet_trans : Transitive quiet.
Proof.
  intros x y z [] []. split; try congruence.
  - by etrans.
  - by etrans.
  - auto.
Qed.

Lemma append_audit_quiet event fresh fault w :
  let '(ok, table) := appendAudit fresh fault event (cd_audit w) in
  ok = true → quiet w (set_audit table w) ∧ (ae_ID event ≠ uuid_Nil → audited (ae_ID event) (set_audit table w)).
Proof using Type.
  pose proof (append_linked fresh fault event (cd_audit w)) as Hv. unfold appendAudit in *. cbv zeta in *.
  destruct (if ae_ID event == uuid_Nil then fresh else Some (ae_ID event)) as [id|] eqn:Hid; [|done].
  destruct (ComputeAuditHash _ _) as [hash|]; [|done]. destruct (Jsonb _) as [stored|]; [|done]. destruct fault; [done|].
  intros _. split.
  - split; try done. cbn. by eexists.
  - intros Hne. rewrite bool_decide_eq_false_2 in Hid by done. simplify_eq. eexists.
    split; [cbn; apply elem_of_app; right; apply list_elem_of_singleton; reflexivity|done].
Qed.

Lemma wp_append_audit event (Q : result dberr () → CentralDb → CentralDb → Prop) w c :
  Q (Err ErrDB) w c → (∀ w', quiet w w' → (ae_ID event ≠ uuid_Nil → audited (ae_ID event) w') → Q (Ok ()) w' c) →
  wp (append_audit event) Q w c.
Proof using Type.
  intros He Hok e ab n. unfold append_audit. cbn.
  pose proof (append_audit_quiet event (tx_fresh e n) (ab || tx_fault e n) w) as Hq.
  destruct (appendAudit _ _ _ _) as [[|] table]; cbn; [|done]. destruct Hq as [H1 H2]; [done|]. by apply Hok.
Qed.


Lemma wp_audit id repo action reason result (Q : Prelude.result dberr () → CentralDb → CentralDb → Prop) w c :
  Q (Err ErrDB) w c → (∀ w', quiet w w' → Q (Ok ()) w' c) →
  wp (backupAdmissionAudit id repo action reason result) Q w c.
Proof using Type. intros He Hok. unfold backupAdmissionAudit. wp_run; try done. by apply wp_append_audit; [|intros; apply Hok]. Qed.

Lemma outbox_quiet x w : quiet w (set_outbox x w).
Proof. by split. Qed.

Lemma wp_outbox a event (Q : Prelude.result dberr () → CentralDb → CentralDb → Prop) w c :
  Q (Err ErrDB) w c → (∀ w', quiet w w' → Q (Ok ()) w' c) → wp (admissionOutbox a event) Q w c.
Proof.
  intros He Hok. unfold admissionOutbox. wp_run; try done. apply wp_exec; [done|]. intros t w' [= <-].
  apply Hok, outbox_quiet.
Qed.

(** A refused request leaves one event in the audit chain, or nothing. *)
Lemma wp_reject {A} id repo cause (Q : Prelude.result dberr A → CentralDb → CentralDb → Prop) w c :
  (∀ x w' c', quiet w w' → (c' = c ∨ c' = w') → Q (Err x) w' c') → wp (rejectBackupAdmission id repo cause) Q w c.
Proof using Type.
  intros HQ. unfold rejectBackupAdmission. wp_head. apply wp_audit; [apply HQ; [done|by left]|]. intros w' Hw. wp_run.
  - apply HQ; [done|by left].
  - apply HQ; [done|by right].
  - apply HQ; [done|by right].
Qed.

(** ** Bookkeeping of a transaction's changes *)

Definition tracks (d : CentralDb) {A} (_ : Prelude.result dberr A) (w c : CentralDb) : Prop := changes d w ∧ changes d c.

Lemma changes_step d w w' : changes d w → step w w' → changes d w'.
Proof. intros H Hs. by eapply rtc_r. Qed.

Lemma changes_quiet d w w' : changes d w → quiet w w' → changes d w'.
Proof. intros H Hq. by eapply changes_step, step_quiet. Qed.

Hint Resolve changes_quiet : core.

Lemma wp_reject_tracks {A} id repo cause d w c :
  changes d w → changes d c → wp (rejectBackupAdmission (A := A) id repo cause) (tracks d) w c.
Proof using Type. intros Hw Hc. apply wp_reject. intros x w' c' Hq [->| ->]; split; eauto. Qed.

Lemma wp_commit_tracks {A} (k : Tx A) d w c :
  changes d w → changes d c → (changes d w → wp k (tracks d) w w) → wp (let* _ := commit in k) (tracks d) w c.
Proof. intros Hw Hc Hk. wp_head. apply wp_commit; [done|done|]. by apply Hk. Qed.

Lemma fenced_spec cred w id a :
  fenced cred w = false → unreleased id a w → ba_StorageCredentialID a ≠ cred.
Proof.
  unfold fenced. intros Hf [Ha Hr] Hc. rewrite existsb_false in Hf. rewrite Forall_forall in Hf.
  specialize (Hf a). cbn in Hf. rewrite Hr, Hc, bool_decide_eq_true_2 in Hf by done. cbn in Hf.
  discriminate Hf. apply list_elem_of_fmap. exists (id, a). split; [done|]. by apply elem_of_map_to_list.
Qed.

Lemma no_admission_no_origin w id : central_ok w → cd_admissions w !! id = None → cd_origins w !! id = None.
Proof.
  intros [_ Hd Ho _ _] Ha. destruct (cd_origins w !! id) as [o|] eqn:He; [|done].
  destruct (oo_runtime _ Ho _ _ He) as (_ & r & Hr & Hid & _).
  destruct (do_bounds _ Hd r Hr) as (_ & a & Hl & _). congruence.
Qed.

Lemma insert_admission_step a w w' :
  central_ok w → fenced (ba_StorageCredentialID a) w = false → ba_ReleasedAt a = None →
  insert_admission a w = Some w' → step w w'.
Proof.
  intros Hok Hf Hr. unfold insert_admission. destruct (_ || _) eqn:Hc; [done|]. intros [= <-].
  bool_prop. unfold is_some, is_none in *. destruct (cd_admissions w !! ba_ID a) eqn:Ha; [done|].
  apply step_admit; [done|by apply no_admission_no_origin|done| |lia].
  intros id x Hx. by eapply fenced_spec.
Qed.

(** The head of a transaction that tracks its changes. *)
Ltac tr_head :=
  lazymatch goal with
  | |- wp (rejectBackupAdmission _ _ _) (tracks _) _ _ => apply wp_reject_tracks; [solve [eauto]|solve [eauto]]
  | |- wp (let* _ := commit in _) (tracks _) _ _ => apply wp_commit_tracks; [solve [eauto]|solve [eauto]|intros ?]
  | |- wp commit (tracks _) _ _ => apply wp_commit; (split; solve [eauto])
  | |- wp (lockAgentRepository _) _ _ _ => apply wp_lockAgentRepository; intros [?|[]]
  | |- wp (scanAgentDelivery _) _ _ _ => unfold scanAgentDelivery
  | |- wp (scanCredential _) _ _ _ => unfold scanCredential
  | |- wp (backupAdmissionAudit _ _ _ _ _) _ _ _ => apply wp_audit; [|intros ? ?]
  | |- wp (admissionOutbox _ _) _ _ _ => apply wp_outbox; [|intros ? ?]
  | |- tracks _ _ _ _ => split; solve [eauto]
  | _ => wp_head
  end; cbn beta iota.
Ltac tr_run := repeat tr_head.

Lemma Reserve_tracks request d : central_ok d → wp (ReserveBackupAdmission request) (tracks d) d d.
Proof using Type.
  intros Hok. assert (Hd : changes d d) by apply rtc_refl.
  unfold ReserveBackupAdmission, ensureNoBackupAdmission. cbv zeta. tr_run.
  unfold is_some, is_none in Heqb2. destruct (cd_admissions d !! br_ID request) eqn:Ha; [done|]. cbn in *.
  apply wp_exec; [tr_run|]. intros t' w' Hw. apply insert_admission_step in Hw; [|done|done|done].
  pose proof (changes_step _ _ _ Hd Hw). tr_run.
Qed.

(** ** Admissions *)

Lemma wp_lock id owner hash (Q : Prelude.result dberr BackupAdmission → CentralDb → CentralDb → Prop) w c :
  (∀ x, Q (Err x) w c) →
  (∀ a, admission_of id owner w = Some a → ba_ReleasedAt a = None → revoked_for (ba_ID a) w = false → Q (Ok a) w c) →
  wp (lockBackupAdmission id owner hash) Q w c.
Proof.
  intros He Hok. unfold lockBackupAdmission, ensureGatewayAuthorizationNotRevoked. tr_run; try apply He.
  unfold live_admission in *. destruct (admission_of id owner w) as [x|] eqn:Ha; [|done].
  destruct (is_none (ba_ReleasedAt x) && _) eqn:Hl; [|done]. simplify_eq. bool_prop.
  apply Hok; [done| |done]. by destruct (ba_ReleasedAt _).
Qed.

Lemma wp_live id owner (Q : Prelude.result dberr () → CentralDb → CentralDb → Prop) w c :
  (∀ r, Q r w c) → wp (ensureLiveBackupAdmission id owner) Q w c.
Proof. intros HQ. unfold ensureLiveBackupAdmission. tr_run; apply HQ. Qed.

Lemma Check_tracks id owner hash d : central_ok d → wp (CheckBackupAdmission id owner hash) (tracks d) d d.
Proof using Type.
  intros Hok. assert (Hd : changes d d) by apply rtc_refl. unfold CheckBackupAdmission. tr_run.
  apply wp_lock; [intros []|intros a Ha Hr Hv]; tr_run.
Qed.

Lemma admission_of_inv id owner w a : admission_of id owner w = Some a → cd_admissions w !! id = Some a ∧ ba_Owner a = owner.
Proof. unfold admission_of. destruct (cd_admissions w !! id); [|done]. case_bool_decide; [|done]. by intros [= ->]. Qed.

Lemma release_step id owner t w w' a :
  unreleased id a w → ¬ open_origin id w → (revoked_for id w = true ∨ ∃ now, live_grant id now w = false) →
  release_row id owner t w = Some w' → step w w'.
Proof.
  intros Ha Ho Hg. unfold release_row. destruct (admission_of id owner w) as [x|] eqn:Hx.
  - destruct (t <? _); [done|]. intros [= <-]. apply admission_of_inv in Hx as [Hx _].
    destruct Ha as [Ha Hr]. simplify_eq. by apply step_release.
  - intros [= <-]. by apply step_quiet.
Qed.

Lemma wp_releasable id (Q : Prelude.result dberr () → CentralDb → CentralDb → Prop) w c :
  Q (Err ErrDB) w c → Q (Err ErrGatewayDecision) w c →
  ((revoked_for id w = true ∨ ∃ now, live_grant id now w = false) → Q (Ok ()) w c) →
  wp (ensureGatewayAuthorizationReleasable id) Q w c.
Proof.
  intros He Hd Hok. unfold ensureGatewayAuthorizationReleasable. tr_run; [done|done|]. apply Hok.
  destruct (revoked_for id w); [by left|right]. exists t. rewrite andb_true_r in Heqb. done.
Qed.

Lemma wp_pending_releasable id (Q : Prelude.result dberr () → CentralDb → CentralDb → Prop) w c :
  (∀ x, Q (Err x) w c) → (¬ open_origin id w → Q (Ok ()) w c) → wp (ensureGatewayPendingReleasable id) Q w c.
Proof.
  intros He Hok. unfold ensureGatewayPendingReleasable. tr_run; try apply He. apply Hok.
  intros (o & Ho & Hc). rewrite Ho in *. by rewrite Hc in *.
Qed.

Lemma wp_release a action reason (Q : Prelude.result dberr () → CentralDb → CentralDb → Prop) w c x :
  unreleased (ba_ID a) x w → ¬ open_origin (ba_ID a) w →
  (revoked_for (ba_ID a) w = true ∨ ∃ now, live_grant (ba_ID a) now w = false) →
  (∀ w', changes w w' → ∀ r, Q r w' c) → wp (releaseBackupAdmission a action reason) Q w c.
Proof using Type.
  intros Hx Ho Hg HQ. assert (Hw : changes w w) by apply rtc_refl. unfold releaseBackupAdmission. wp_head.
  apply wp_exec; [by apply HQ|]. intros t w1 H1%(release_step _ _ _ _ _ x); [|done|done|done].
  pose proof (changes_step _ _ _ Hw H1). tr_run; apply HQ; eauto.
Qed.

Lemma Release_tracks id owner d : central_ok d → wp (ReleaseBackupAdmission id owner) (tracks d) d d.
Proof using Type.
  intros Hok. assert (Hd : changes d d) by apply rtc_refl. unfold ReleaseBackupAdmission. tr_run.
  apply admission_of_inv in Heqo as [Ha Hown]. assert (Hid : ba_ID b = id) by (eapply fo_ids; [apply Hok|done]).
  apply wp_releasable; [tr_run..|]. intros Hg. tr_run. apply wp_pending_releasable; [intros x; tr_run|]. intros Ho. tr_run.
  eapply (wp_release _ _ _ _ _ _ b); subst id; [|done|done|].
  - split; [done|]. by destruct (ba_ReleasedAt b).
  - intros w' Hw' [[]|x]; [tr_run|]; by split.
Qed.

(** ** Decisions *)

Lemma insert_decision_step r a w w' :
  unreleased (dr_AdmissionID r) a w → follows (latest_of (dr_AdmissionID r) w) r →
  (∀ x, dr_ExpiresAt r = Some x → x ≤ ba_ExpiresAt a) → insert_decision r w = Some w' → step w w'.
Proof.
  intros Ha Hf Hx. unfold insert_decision. destruct (_ || _) eqn:Hc; [done|]. intros [= <-].
  apply orb_false_iff in Hc as [Hu Hc]. apply negb_false_iff in Hc. apply step_decide with a; try done.
  intros x Hin Hreq. rewrite existsb_false, Forall_forall in Hu. specialize (Hu x Hin). cbn in Hu. bool_prop. congruence.
Qed.

Lemma latest_checked id w p : decisions_ok w → latest_of id w = Some p → decision_check p = true ∧ dr_AdmissionID p = id.
Proof.
  intros Hd. rewrite latest_of_last by done. intros Hl. apply last_Some_elem_of in Hl. unfold decisions_for in Hl.
  apply list_elem_of_filter in Hl as [Hid Hin]. bool_prop. split; [by apply (do_bounds _ Hd)|done].
Qed.

Lemma check_revision r : decision_check r = true → 1 ≤ dr_Revision r.
Proof. unfold decision_check. intros H. repeat (apply andb_true_iff in H as [H ?]). bool_prop. lia. Qed.

Lemma next_decision_inv r a now row :
  next_decision r a now = Some row →
  dr_AdmissionID row = ba_ID a ∧ dr_Revision row = dq_ExpectedRevision r + 1 ∧ dr_RequestID row = dq_ID r ∧
  dr_RuntimeID row = dq_RuntimeID r ∧ dr_IssuedAt row = now ∧ dr_Revoked row = dq_Revoke r ∧
  dr_LifetimeSeconds row = dq_Lifetime r / second ∧
  (∀ x, dr_ExpiresAt row = Some x → now < x ∧ x ≤ ba_ExpiresAt a ∧ x ≤ now + dq_Lifetime r ∧
     (x = now + dq_Lifetime r ∨ x = Truncate (ba_ExpiresAt a) second)).
Proof.
  unfold next_decision. destruct (dq_Revoke r); [by intros [= <-]|]. cbv zeta.
  destruct (negb _) eqn:Hx; [done|]. intros [= <-]. cbn. split_and!; try done. intros x [= <-]. bool_prop.
  unfold After, Add, Truncate in *. pose proof (Z.mod_pos_bound (ba_ExpiresAt a) second eq_refl).
  destruct (Z.ltb_spec (ba_ExpiresAt a - ba_ExpiresAt a mod second) (now + dq_Lifetime r)); bool_prop; split_and!; lia.
Qed.

Lemma wp_finish_decision a g (Q : Prelude.result dberr GatewayDecision → CentralDb → CentralDb → Prop) w c :
  (∀ x c', c' = c ∨ c' = w → Q (Err x) w c') → Q (Ok g) w w → wp (finish_decision a g) Q w c.
Proof.
  intros He Hok. unfold finish_decision.
  tr_run; auto. apply wp_live. intros [[]|x]; tr_run; auto.
Qed.

(** The decision the code builds follows the latest stored one. *)
Lemma decision_follows r a w now row :
  decisions_ok w →
  let previous := match latest_of (ba_ID a) w with
                  | Some p => decision_of a p
                  | None => mkDecision uuid_Nil uuid_Nil a 0 0 zero_time zero_time false
                  end in
  (0 <? gd_Revision previous) && (gd_RuntimeID previous != dq_RuntimeID r) = false →
  gd_Revision previous = dq_ExpectedRevision r → gd_Revoked previous = false → Before now (gd_IssuedAt previous) = false →
  next_decision r a now = Some row → follows (latest_of (ba_ID a) w) row.
Proof.
  intros Hd previous Hrt Hrev Hrk Hnow (_ & Hr & _ & Hru & Hi & _)%next_decision_inv. unfold previous in *.
  destruct (latest_of (ba_ID a) w) as [p|] eqn:Hp; cbn in *.
  - destruct (latest_checked _ _ _ Hd Hp) as [Hck _]. apply check_revision in Hck.
    apply andb_false_iff in Hrt as [Hrt|Hrt]; bool_prop; [lia|]. unfold Before in Hnow. bool_prop.
    rewrite Hr, Hru, Hi. split; [lia|]. split; [congruence|]. split; [done|lia].
  - lia.
Qed.

Lemma wp_decision_lock r hash (Q : Prelude.result dberr BackupAdmission → CentralDb → CentralDb → Prop) w c :
  (∀ x, Q (Err x) w c) → (∀ a, admission_of (dq_AdmissionID r) (dq_Owner r) w = Some a → Q (Ok a) w c) →
  wp (if dq_Revoke r then select_row (λ _ d, admission_of (dq_AdmissionID r) (dq_Owner r) d)
      else lockBackupAdmission (dq_AdmissionID r) (dq_Owner r) hash) Q w c.
Proof. intros He Hok. tr_head; [tr_run; eauto|]. apply wp_lock; eauto. Qed.

(** The decision [g] answers [r] with is the latest one stored. *)
Definition decision_stored (r : GatewayDecisionRequest) (g : GatewayDecision) (d : CentralDb) : Prop :=
  ∃ a row, admission_of (dq_AdmissionID r) (dq_Owner r) d = Some a ∧ latest_of (dq_AdmissionID r) d = Some row ∧
    row ∈ cd_decisions d ∧ g = decision_of a row.

Lemma decision_stored_new r a row now w w' w'' :
  central_ok w' → admission_of (dq_AdmissionID r) (dq_Owner r) w = Some a → ba_ID a = dq_AdmissionID r →
  dq_Lifetime r mod second = 0 → next_decision r a now = Some row → insert_decision row w = Some w' → quiet w' w'' →
  decision_stored r (mkDecision (dq_ID r) (dq_RuntimeID r) a (dq_ExpectedRevision r + 1) (dq_Lifetime r) now
    (default zero_time (dr_ExpiresAt row)) (dq_Revoke r)) w''.
Proof.
  intros Hok Ha Hid Hl (Hadm & Hr & Hrq & Hrt & Hi & Hrk & Hls & _)%next_decision_inv Hw Hq. exists a, row.
  revert Hw. unfold insert_decision. destruct (_ || _); [done|]. intros [= <-].
  unfold admission_of, latest_of in *. rewrite (qu_admissions _ _ Hq), (qu_decisions _ _ Hq). split; [done|]. split_and!.
  - fold (latest_of (dq_AdmissionID r) (set_decisions (cd_decisions w ++ [row]) w)). rewrite latest_of_last by apply Hok.
    unfold decisions_for. cbn. rewrite filter_snoc, decide_True by (apply bool_decide_eq_true; congruence). by rewrite last_snoc.
  - cbn. apply elem_of_app. right. by apply list_elem_of_singleton.
  - unfold decision_of. rewrite Hr, Hrq, Hrt, Hi, Hrk, Hls. f_equal.
    pose proof (Z.div_mod (dq_Lifetime r) second ltac:(done)). lia.
Qed.

Lemma decision_stored_old r a p (w : CentralDb) :
  admission_of (dq_AdmissionID r) (dq_Owner r) w = Some a → ba_ID a = dq_AdmissionID r → latest_of (ba_ID a) w = Some p →
  decision_stored r (decision_of a p) w.
Proof.
  intros Ha Hid Hp. exists a, p. rewrite <- Hid. split; [by rewrite Hid|]. split; [done|]. split; [|done].
  by apply order_desc_elem in Hp as [Hp _].
Qed.

Lemma valid_request r :
  ValidateDecisionRequest r = true → 0 ≤ dq_ExpectedRevision r ∧ dq_Lifetime r mod second = 0.
Proof.
  unfold ValidateDecisionRequest. intros H. apply andb_true_iff in H as [[_ Hr]%andb_true_iff Hl]. bool_prop. split; [done|].
  destruct (dq_Revoke r); bool_prop; [by rewrite Hl|done].
Qed.

Lemma wp_Decide r hash (Q : Prelude.result dberr GatewayDecision → CentralDb → CentralDb → Prop) d :
  central_ok d → (∀ x w c, changes d w → changes d c → Q (Err x) w c) →
  (∀ g w, changes d w → decision_stored r g w → Q (Ok g) w w) → wp (DecideGatewayAuthorization r hash) Q d d.
Proof using Type.
  intros Hok He HQ. assert (Hd : changes d d) by apply rtc_refl. unfold DecideGatewayAuthorization. cbv zeta.
  destruct (negb (ValidateDecisionRequest r)) eqn:Hv; [apply wp_fail; eauto|]. wp_head.
  apply wp_attempt, wp_decision_lock; [intros []; tr_run; eauto|]. intros a Hadm. pose proof (admission_of_inv _ _ _ _ Hadm) as [Ha Ho].
  assert (Hid : ba_ID a = dq_AdmissionID r) by (eapply fo_ids; [apply Hok|done]).
  apply negb_false_iff, valid_request in Hv as [Hexp Hl].
  tr_run; try (by eauto).
  - apply wp_finish_decision; [intros x c' [->| ->]; eauto|]. apply HQ; [done|].
    destruct (latest_of (ba_ID a) d) as [p|] eqn:Hp; [by apply decision_stored_old|]. cbn in Heqb1. bool_prop. lia.
  - apply orb_false_iff in Heqb1 as [[Hrev Hrk]%orb_false_iff Hrel]. bool_prop.
    assert (Hu : unreleased (ba_ID a) a d) by (split; [by rewrite Hid|by unfold is_some in Hrel; destruct (ba_ReleasedAt a)]).
    pose proof (decision_follows r a d _ _ (co_decisions _ Hok) Heqb Hrev Hrk Heqb3 Heqo) as Hf.
    pose proof (next_decision_inv _ _ _ _ Heqo) as (Hda & _ & _ & _ & _ & _ & _ & Hx). rewrite <- Hda in Hu, Hf.
    apply wp_exec; [eauto|]. intros t' w' Hw. pose proof Hw as Hs.
    apply (insert_decision_step _ a) in Hs; [|done|done|intros x Hx'; by apply Hx].
    pose proof (changes_step _ _ _ Hd Hs) as Hc. wp_head. apply wp_outbox; [eauto|]. intros w1 Hq1. wp_head.
    apply wp_audit; [eauto|]. intros w2 Hq2. assert (Hq : quiet w' w2) by (by etrans). apply wp_finish_decision; [intros x c' [->| ->]; eauto|].
    apply HQ; [eauto|]. apply (decision_stored_new r a d0 _ d w' w2); try done. by eapply changes_ok.
Qed.

Lemma Decide_tracks r hash d : central_ok d → wp (DecideGatewayAuthorization r hash) (tracks d) d d.
Proof using Type. intros Hok. apply wp_Decide; [done|by split|by split]. Qed.

(** ** Pending records *)

Lemma insert_origin_step id o a w w' :
  unreleased id a w → or_ClosedAt o = None →
  (∃ r, r ∈ cd_decisions w ∧ dr_AdmissionID r = id ∧ dr_RuntimeID r = or_RuntimeID o) →
  insert_origin id o w = Some w' → step w w'.
Proof.
  intros Ha Hc Hr. unfold insert_origin. destruct (_ || _) eqn:Hx; [done|]. intros [= <-].
  apply orb_false_iff in Hx as [[[Ho Hk]%orb_false_iff _]%orb_false_iff _]. bool_prop.
  apply step_origin with a; try done. unfold is_some in Ho. by destruct (cd_origins w !! id).
Qed.

Lemma Register_tracks id owner runtime public hash d :
  central_ok d → wp (RegisterGatewayPendingOrigin id owner runtime public hash) (tracks d) d d.
Proof using Type.
  intros Hok. assert (Hd : changes d d) by apply rtc_refl. unfold RegisterGatewayPendingOrigin. do 2 tr_head; [tr_run|].
  apply wp_lock; [intros x; tr_run|]. intros a [Ha Ho]%admission_of_inv Hr Hv. tr_run.
  apply existsb_exists in Heqb0 as (r & Hin & Hp). bool_prop.
  apply wp_exec; [tr_run|]. intros t' w' Hw.
  apply (insert_origin_step _ _ a) in Hw; [|done|done|exists r; split; [by apply list_elem_of_In|done]].
  pose proof (changes_step _ _ _ Hd Hw). tr_run. apply wp_live. intros [[]|x]; tr_run.
Qed.

Lemma wp_lock_origin id runtime (Q : Prelude.result dberr GatewayPendingOrigin → CentralDb → CentralDb → Prop) w c :
  (∀ x, Q (Err x) w c) →
  (∀ a o, cd_admissions w !! id = Some a → origin_row id runtime w = Some o → Q (Ok (origin_of a o)) w c) →
  wp (lockPendingOrigin id runtime) Q w c.
Proof. intros He Hok. unfold lockPendingOrigin. tr_run; eauto. Qed.

Lemma origin_row_inv id runtime w o : origin_row id runtime w = Some o → cd_origins w !! id = Some o ∧ or_RuntimeID o = runtime.
Proof. unfold origin_row. destruct (cd_origins w !! id); [|done]. case_bool_decide; [|done]. by intros [= ->]. Qed.

Lemma close_step id runtime t w w' o :
  origin_row id runtime w = Some o → or_ClosedAt o = None → close_row id runtime t w = Some w' → step w w'.
Proof.
  intros Ho Hc. unfold close_row. rewrite Ho. destruct (t <? _); [done|]. intros [= <-].
  apply origin_row_inv in Ho as [Ho _]. by apply step_close.
Qed.

Lemma Close_tracks id owner runtime sequence hash d :
  central_ok d → wp (CloseGatewayPendingOrigin id owner runtime sequence hash) (tracks d) d d.
Proof using Type.
  intros Hok. assert (Hd : changes d d) by apply rtc_refl. unfold CloseGatewayPendingOrigin, pendingTail. do 2 tr_head; [tr_run|].
  apply wp_lock_origin; [intros x; tr_run|]. intros a o Ha Ho. tr_run.
  apply wp_exec; [tr_run|]. intros t' w' Hw.
  apply (close_step _ _ _ _ _ o) in Hw; [|done|by cbn in *; unfold is_some in *; destruct (or_ClosedAt o)].
  pose proof (changes_step _ _ _ Hd Hw). tr_run.
Qed.

(** All decisions of an admission name one runtime, so that the latest one of
    the runtime is the latest one. *)
Lemma follows_runtime l prev r :
  follows_all prev l → r ∈ l → ∀ x, x ∈ l ∨ prev = Some x → dr_RuntimeID x = dr_RuntimeID r.
Proof.
  revert prev r. induction l as [|y l IH]; intros prev r; [by intros _ ?%not_elem_of_nil|].
  cbn [follows_all]. intros [Hy Hl] Hr.
  assert (Hall : ∀ x, x ∈ l → dr_RuntimeID x = dr_RuntimeID y) by (intros x Hx; symmetry; eapply (IH (Some y)); eauto).
  assert (Hr' : dr_RuntimeID r = dr_RuntimeID y) by (apply elem_of_cons in Hr as [->|Hr]; [done|by apply Hall]).
  intros x [[->|Hx]%elem_of_cons| ->].
  - done.
  - by rewrite Hr', Hall.
  - cbn in Hy. destruct Hy as (_ & Hy & _). congruence.
Qed.

Lemma latest_runtime id runtime w p :
  decisions_ok w → latest_decision (λ r, (dr_AdmissionID r == id) && (dr_RuntimeID r == runtime)) (cd_decisions w) = Some p →
  latest_of id w = Some p ∧ dr_RuntimeID p = runtime.
Proof.
  intros Hd Hl. pose proof (order_desc_elem _ _ _ _ Hl) as [Hp Hpt]. bool_prop.
  assert (Hin : p ∈ decisions_for id w) by (apply list_elem_of_filter; by rewrite bool_decide_eq_true_2).
  assert (Heq : filter (λ x, ((dr_AdmissionID x == id) && (dr_RuntimeID x == runtime)) = true) (cd_decisions w) =
                decisions_for id w).
  { apply filter_same. intros x Hx. case_bool_decide as Hid; [|done]. cbn. split; [done|]. intros _.
    apply bool_decide_eq_true_2. subst runtime.
    eapply (follows_runtime _ None); [apply (do_history _ Hd id)|done|]. left. apply list_elem_of_filter.
    by rewrite bool_decide_eq_true_2. }
  split; [|done]. rewrite latest_of_last by done. rewrite <- Heq, <- Hl. symmetry. apply order_desc_last.
  rewrite Heq. apply (follows_numbered _ None), do_history, Hd.
Qed.

Lemma insert_record_step r a o w w' :
  unreleased (rr_AdmissionID r) a w → origin_row (rr_AdmissionID r) (rr_RuntimeID r) w = Some o → or_ClosedAt o = None →
  rr_Sequence r = (tail_of (rr_AdmissionID r) (rr_RuntimeID r) w).1 + 1 →
  (rr_Kind r = "audit" → audited (rr_RecordID r) w) → insert_record r w = Some w' → step w w'.
Proof.
  intros Ha Ho Hc Hs Hau. unfold insert_record. destruct (_ || _) eqn:Hx; [done|]. intros [= <-].
  apply orb_false_iff in Hx as [Hx _]. repeat (apply orb_false_iff in Hx as [Hx ?]).
  apply step_record with a o; try done. intros x Hin Hid. rewrite existsb_false, Forall_forall in Hx. specialize (Hx x Hin).
  cbn in Hx. bool_prop. congruence.
Qed.

Lemma unreleased_quiet id a w w' : quiet w w' → unreleased id a w → unreleased id a w'.
Proof. intros Hq. unfold unreleased. by rewrite (qu_admissions _ _ Hq). Qed.

Lemma origin_quiet id runtime w w' : quiet w w' → origin_row id runtime w' = origin_row id runtime w.
Proof. intros Hq. unfold origin_row. by rewrite (qu_origins _ _ Hq). Qed.

(** The refresh of a credential changes no table of the Gateway. *)
Lemma refresh_quiet id e now w w' : refresh_rows id e now w = Some w' → quiet w w'.
Proof.
  unfold refresh_rows. destruct (sg_credentials (cd_storage w) !! id); [|by intros [= <-]].
  destruct (insertSecret _ _) as [g|]; [|done]. cbn. destruct (insert_revision _ _ _ _); [|done]. intros [= <-]. by split.
Qed.

(** The effect of a record leaves the tables alone but for the audit chain,
    which then holds the record's event. *)
Lemma wp_effect r o expires now validate (Q : Prelude.result dberr () → CentralDb → CentralDb → Prop) w c :
  (∀ e, pc_Audit r = Some e → ae_ID e = pc_RecordID r) → pc_RecordID r ≠ uuid_Nil →
  (∀ x w', quiet w w' → Q (Err x) w' c) →
  (∀ w', quiet w w' → (pc_Kind r = "audit" → audited (pc_RecordID r) w') → Q (Ok ()) w' c) →
  wp (pending_effect r o expires now validate) Q w c.
Proof using Type.
  intros Hid Hnil He Hok. unfold pending_effect. cbv zeta. tr_run; try (by apply He).
  - apply wp_append_audit; [by apply He|]. intros w' Hq Ha. rewrite (Hid a) in Ha by done. apply Hok; auto.
  - apply wp_exec; [by apply He|]. intros t' w' Hw%refresh_quiet. tr_run; [by apply He|].
    apply Hok; [by etrans|]. intros Hk. bool_prop. congruence.
Qed.

(** Withdrawing the runtime's authority keeps admission and origin. *)
Lemma revoke_step a runtime request w w' now last :
  central_ok w → unreleased (ba_ID a) a w →
  latest_decision (λ r, (dr_AdmissionID r == ba_ID a) && (dr_RuntimeID r == runtime)) (cd_decisions w) = Some last →
  dr_Revoked last = false → dr_IssuedAt last ≤ now →
  insert_decision (mkDecisionRow (ba_ID a) (dr_Revision last + 1) request runtime 0 now None true) w = Some w' →
  step w w' ∧ cd_admissions w' = cd_admissions w ∧ cd_origins w' = cd_origins w.
Proof.
  intros Hok Ha [Hl Hr]%latest_runtime Hrk Hi Hw; [|apply Hok]. split.
  - apply (insert_decision_step _ a) in Hw; [done|done| |done]. cbn. rewrite Hl. cbn. done.
  - revert Hw. unfold insert_decision. destruct (_ || _); [done|]. by intros [= <-].
Qed.

(** The end of an admission: release once nothing is outstanding. *)
Lemma wp_checked_release a action reason d w c (Q : Prelude.result dberr () → CentralDb → CentralDb → Prop) x :
  changes d w → unreleased (ba_ID a) x w → (∀ r w', changes d w' → Q r w' c) →
  wp (let* _ := ensureGatewayAuthorizationReleasable (ba_ID a) in
      let* _ := ensureGatewayPendingReleasable (ba_ID a) in
      releaseBackupAdmission a action reason) Q w c.
Proof using Type.
  intros Hw Ha HQ. wp_head. apply wp_releasable; [by apply HQ..|]. intros Hg. wp_head.
  apply wp_pending_releasable; [intros y; by apply HQ|]. intros Ho. apply (wp_release _ _ _ _ _ _ x); try done.
  intros w' Hw' r. apply HQ. by etrans.
Qed.

Lemma close_row_admissions id runtime t w w' : close_row id runtime t w = Some w' → cd_admissions w' = cd_admissions w.
Proof. unfold close_row. destruct (origin_row id runtime w); [destruct (_ <? _)|]; by intros [= <-]. Qed.

Lemma wp_seal_release a runtime request reason d w c row x (Q : Prelude.result dberr () → CentralDb → CentralDb → Prop) :
  changes d w → unreleased (ba_ID a) x w →
  origin_row (ba_ID a) runtime w = Some row → or_ClosedAt row = None →
  (∀ r w', changes d w' → Q r w' c) →
  wp (let* _ := exec (close_row (ba_ID a) runtime) in
      let* _ := backupAdmissionAudit runtime request "GATEWAY_PENDING_ORIGIN" "SEALED" AuditSuccess in
      let* _ := ensureGatewayAuthorizationReleasable (ba_ID a) in
      let* _ := ensureGatewayPendingReleasable (ba_ID a) in
      releaseBackupAdmission a "GATEWAY_BACKUP_RELEASE" reason) Q w c.
Proof using Type.
  intros Hw Ha Ho Hcl HQ. wp_head. apply wp_exec; [eauto|]. intros t w' Hw'.
  pose proof (close_row_admissions _ _ _ _ _ Hw') as Hadm.
  apply (close_step _ _ _ _ _ row) in Hw'; [|done|done]. pose proof (changes_step _ _ _ Hw Hw').
  wp_head. apply wp_audit; [eauto|]. intros w2 Hq.
  apply (wp_checked_release _ _ _ d _ _ _ x); [eauto| |done].
  eapply unreleased_quiet; [done|]. unfold unreleased in *. by rewrite Hadm.
Qed.

(** [finishGatewayAdmission] commits nothing by itself. *)
Lemma wp_finish o request d w c row (Q : Prelude.result dberr () → CentralDb → CentralDb → Prop) :
  central_ok w → changes d w →
  unreleased (ba_ID (go_Admission o)) (go_Admission o) w →
  origin_row (ba_ID (go_Admission o)) (go_RuntimeID o) w = Some row → or_ClosedAt row = None →
  (∀ r w', changes d w' → Q r w' c) → wp (finishGatewayAdmission o request) Q w c.
Proof using Type.
  intros Hok Hw Ha Ho Hcl HQ. unfold finishGatewayAdmission. cbv zeta. wp_head. apply wp_select_row; [eauto|].
  intros t last Hl. wp_head. wp_head. wp_head; [apply wp_fail; eauto|]. wp_head; [apply wp_fail; eauto|]. wp_head.
  destruct (dr_Revoked last) eqn:Hrk.
  - apply wp_ret. by apply (wp_seal_release _ _ _ _ d _ _ row (go_Admission o)).
  - wp_head. apply wp_exec; [eauto|]. intros t' w' Hw'. unfold Before in *. bool_prop.
    apply revoke_step in Hw' as (Hs & Hadm & Hor); [|done|done|done|done|lia].
    pose proof (changes_step _ _ _ Hw Hs). wp_head. apply wp_outbox; [eauto|]. intros w2 Hq2.
    apply wp_audit; [eauto|]. intros w3 Hq3. assert (Hq : quiet w' w3) by (by etrans).
    apply (wp_seal_release _ _ _ _ d _ _ row (go_Admission o)); [eauto| | |done|done].
    + eapply unreleased_quiet; [done|]. unfold unreleased in *. by rewrite Hadm.
    + rewrite (origin_quiet _ _ _ _ Hq). unfold origin_row in *. by rewrite Hor.
Qed.

(** The record a commit stands for is stored. *)
Definition record_stored (r : GatewayPendingCommit) (d : CentralDb) : Prop :=
  ∃ x, x ∈ cd_records d ∧ of_origin (pc_AdmissionID r) (pc_RuntimeID r) x = true ∧ rr_Sequence x = pc_Sequence r ∧
    rr_RecordID x = pc_RecordID r ∧ rr_WireHash x = pc_WireHash r.

Lemma record_stored_grows r d d' : grows d d' → record_stored r d → record_stored r d'.
Proof. intros Hg (x & Hx & H). exists x. split; [|done]. by eapply elem_of_prefix, gr_records. Qed.

Lemma record_stored_new r w w' : insert_record (record_row r) w = Some w' → record_stored r w'.
Proof.
  unfold insert_record. destruct (_ || _); [done|]. intros [= <-]. exists (record_row r). cbn. split_and!; try done.
  - apply elem_of_app. right. by apply list_elem_of_singleton.
  - unfold of_origin. cbn. by rewrite !bool_decide_eq_true_2.
Qed.

Lemma record_stored_old r x (w : CentralDb) :
  List.find (λ x, of_origin (pc_AdmissionID r) (pc_RuntimeID r) x && (rr_Sequence x == pc_Sequence r)) (cd_records w) = Some x →
  (rr_RecordID x != pc_RecordID r) || (rr_WireHash x != pc_WireHash r) = false → record_stored r w.
Proof.
  intros [Hin Hx]%find_some Hb. bool_prop. exists x. split_and!; try done. by apply list_elem_of_In.
Qed.

Lemma wp_Commit r validate (Q : Prelude.result dberr () → CentralDb → CentralDb → Prop) d :
  central_ok d → (∀ e, pc_Audit r = Some e → ae_ID e = pc_RecordID r) → pc_RecordID r ≠ uuid_Nil →
  (∀ x w c, changes d w → changes d c → Q (Err x) w c) →
  (∀ w, changes d w → record_stored r w → Q (Ok ()) w w) → wp (CommitGatewayPending r validate) Q d d.
Proof using Type.
  intros Hok Hid Hnil He HQ. assert (Hd : changes d d) by apply rtc_refl. unfold CommitGatewayPending, pendingTail. wp_head.
  apply wp_lock_origin; [eauto|]. intros a o Ha Ho. cbv zeta. tr_run; try (by eauto using record_stored_old).
  apply wp_effect; [done|done|eauto|]. intros w1 Hq1 Hau. wp_head.
  repeat match goal with H : (_ || _) = false |- _ => apply orb_false_iff in H as [H ?] end. bool_prop. cbn in *.
  assert (Hu : unreleased (pc_AdmissionID r) a w1).
  { eapply unreleased_quiet; [done|]. split; [done|]. unfold is_some in *. by destruct (ba_ReleasedAt a). }
  assert (Hcl : or_ClosedAt o = None) by (unfold is_some in *; by destruct (or_ClosedAt o)).
  assert (Hida : ba_ID a = pc_AdmissionID r) by done. assert (Hrt : or_RuntimeID o = pc_RuntimeID r) by (apply origin_row_inv in Ho as [_ Ho]; exact Ho).
  apply wp_exec; [eauto|]. intros t' w2 Hw2. pose proof (record_stored_new _ _ _ Hw2) as Hst.
  assert (Hrec : cd_admissions w2 = cd_admissions w1 ∧ cd_origins w2 = cd_origins w1).
  { revert Hw2. unfold insert_record. destruct (_ || _); [done|]. by intros [= <-]. }
  apply (insert_record_step _ a o) in Hw2; [|done| |done| |done].
  - pose proof (changes_step _ _ _ (changes_quiet _ _ _ Hd Hq1) Hw2) as Hch. wp_head.
    destruct (_ && _); [|tr_run; eauto].
    apply (wp_finish _ _ w2 _ _ o); cbn; [by eapply changes_ok|apply rtc_refl| | |done|].
    + destruct Hrec as [Hra _]. unfold unreleased in *. by rewrite Hra, Hida.
    + destruct Hrec as [_ Hro]. unfold origin_row in *. by rewrite Hro, (qu_origins _ _ Hq1), Hida, Hrt.
    + intros [[]|x] w3 Hc3; assert (changes d w3) by (by etrans); [tr_run; eauto using record_stored_grows, changes_grows|eauto].
  - cbn. by rewrite (origin_quiet _ _ _ _ Hq1).
  - cbn. unfold tail_of. by rewrite (qu_records _ _ Hq1).
Qed.

Lemma Commit_tracks r validate d :
  central_ok d → (∀ e, pc_Audit r = Some e → ae_ID e = pc_RecordID r) → pc_RecordID r ≠ uuid_Nil →
  wp (CommitGatewayPending r validate) (tracks d) d d.
Proof using Type. intros Hok Hid Hn. apply wp_Commit; [done|done|done|by split|by split]. Qed.

(** ** Recovery *)

Lemma wp_revoke a runtime request now d w c (Q : Prelude.result dberr () → CentralDb → CentralDb → Prop) :
  central_ok d → changes d w → unreleased (ba_ID a) a w →
  (∀ r w', changes d w' → cd_admissions w' = cd_admissions w → cd_origins w' = cd_origins w → Q r w' c) →
  wp (revokeGatewayRuntime a runtime request now) Q w c.
Proof using Type.
  intros Hok Hw Ha HQ. unfold revokeGatewayRuntime. tr_run; try (by apply HQ). unfold Before in *. bool_prop.
  apply wp_exec; [by apply HQ|]. intros t' w' Hw'.
  apply revoke_step in Hw' as (Hs & Hadm & Hor); [|by eapply changes_ok|done|done|done|lia].
  pose proof (changes_step _ _ _ Hw Hs). wp_head. apply wp_outbox; [by apply HQ|]. intros w2 Hq2.
  apply wp_audit.
  - apply HQ; [eauto|by rewrite (qu_admissions _ _ Hq2)|by rewrite (qu_origins _ _ Hq2)].
  - intros w3 Hq3. assert (Hq : quiet w' w3) by (by etrans).
    apply HQ; [eauto|by rewrite (qu_admissions _ _ Hq)|by rewrite (qu_origins _ _ Hq)].
Qed.

Lemma wp_commit_end d w c : changes d w → changes d c → wp commit (tracks d) w c.
Proof. intros Hw Hc. apply wp_commit; by split. Qed.

Lemma wp_recover_runtime a runtime now d :
  central_ok d → unreleased (ba_ID a) a d →
  wp (recover_runtime a runtime (origin_row (ba_ID a) runtime d) now) (tracks d) d d.
Proof using Type.
  intros Hok Ha. assert (Hd : changes d d) by apply rtc_refl. unfold recover_runtime. tr_head. tr_head; [tr_run|]. tr_head.
  apply (wp_revoke _ _ _ _ d); [done|done|done|]. intros [[]|x] w1 H1 Hadm Hor; [|tr_run].
  assert (Hrest : ∀ w2, changes d w2 → cd_admissions w2 = cd_admissions w1 →
    wp (let* _ := ensureGatewayAuthorizationReleasable (ba_ID a) in
        let* _ := ensureGatewayPendingReleasable (ba_ID a) in
        let* _ := releaseBackupAdmission a "GATEWAY_BACKUP_RECOVERY" "RECOVERY_CONFIRMED" in commit) (tracks d) w2 d).
  { intros w2 H2 Hadm2. wp_head. apply wp_releasable; [tr_run..|]. intros Hg. wp_head.
    apply wp_pending_releasable; [intros x; tr_run|]. intros Ho. wp_head. apply (wp_release _ _ _ _ _ _ a); [|done|done|].
    - unfold unreleased in *. by rewrite Hadm2, Hadm.
    - intros w3 H3 [[]|x]; [apply wp_commit_end; [by etrans|done]|split; [by etrans|done]]. }
  tr_head. destruct (origin_row (ba_ID a) runtime d) as [o|] eqn:Ho; [destruct (is_none (or_ClosedAt o)) eqn:Hc|].
  - wp_head. apply wp_exec; [tr_run|]. intros t' w' Hw'. pose proof (close_row_admissions _ _ _ _ _ Hw') as Hca.
    apply (close_step _ _ _ _ _ o) in Hw'; [|by unfold origin_row in *; rewrite Hor|by destruct (or_ClosedAt o)].
    pose proof (changes_step _ _ _ H1 Hw'). apply wp_audit; [tr_run|]. intros w3 Hq.
    apply Hrest; [eauto|]. by rewrite (qu_admissions _ _ Hq).
  - apply wp_ret. by apply Hrest.
  - apply wp_ret. by apply Hrest.
Qed.

Lemma Recover_tracks id owner runtime source d :
  central_ok d → wp (RecoverGatewayAdmission id owner runtime source) (tracks d) d d.
Proof using Type.
  intros Hok. assert (Hd : changes d d) by apply rtc_refl. unfold RecoverGatewayAdmission. cbv zeta.
  tr_head; [tr_run|]. tr_head. tr_head; [tr_run|]. tr_head; [|tr_run]. tr_head. tr_head; [tr_run|]. tr_head. tr_head; [tr_run|].
  rewrite Heqo. pose proof (admission_of_inv _ _ _ _ Heqo) as [Ha Ho]. pose proof (fo_ids _ (co_fence _ Hok) _ _ Ha) as Hid.
  tr_head; [tr_run|]. tr_head. tr_head; [tr_run|]. tr_head; [tr_run|]. tr_head. tr_head; [tr_run|]. tr_head; [tr_run|].
  assert (Hu : unreleased (ba_ID b) b d) by (split; [by rewrite Hid|unfold is_some in *; by destruct (ba_ReleasedAt b)]).
  tr_head. tr_head; [tr_run|]. subst id.
  pose proof (wp_recover_runtime b runtime) as Hrec.
  destruct (origin_row (ba_ID b) runtime d) as [o|] eqn:Hor.
  - tr_head; [tr_run|]. rewrite <- Hor. by apply Hrec.
  - tr_head; [tr_run|]. rewrite <- Hor. by apply Hrec.
Qed.

(** ** Secrets *)

Lemma Material_tracks id owner hash d : central_ok d → wp (BackupAdmissionMaterial id owner hash) (tracks d) d d.
Proof using Type.
  intros Hok. assert (Hd : changes d d) by apply rtc_refl. unfold BackupAdmissionMaterial, lock_or_reject. tr_head. wp_head. wp_head.
  apply wp_lock; [intros []; tr_run|]. 2: intros a Ha Hr Hv; tr_run; apply wp_live; intros [[]|x]; tr_run.
  all: apply wp_reject; intros x w' c' Hq [->| ->]; split; eauto.
Qed.

Lemma Refresh_tracks id owner hash expected e d :
  central_ok d → wp (RefreshBackupAdmission id owner hash expected e) (tracks d) d d.
Proof using Type.
  intros Hok. assert (Hd : changes d d) by apply rtc_refl. unfold RefreshBackupAdmission, lock_or_reject. tr_head. wp_head. wp_head.
  apply wp_lock; [intros []; tr_run|].
  2: { intros a Ha Hr Hv. tr_run. apply wp_exec; [tr_run|]. intros t' w' Hq%refresh_quiet.
       tr_run; [split; eauto..|]. apply wp_live. intros [[]|x]; tr_run. }
  all: apply wp_reject; intros x w' c' Hq [->| ->]; split; eauto.
Qed.

Lemma insert_material_quiet id m w w' : insert_material id m w = Some w' → quiet w w'.
Proof.
  unfold insert_material. destruct (_ || _) eqn:Hx; [done|]. intros [= <-]. split; try done. cbn.
  repeat (apply orb_false_iff in Hx as [Hx ?]). apply insert_subseteq. unfold is_some in Hx. by destruct (cd_material w !! id).
Qed.

Lemma Delivery_tracks id owner runtime source hash challenge d :
  central_ok d → wp (GatewayDeliveryMaterial id owner runtime source hash challenge) (tracks d) d d.
Proof using Type.
  intros Hok. assert (Hd : changes d d) by apply rtc_refl. unfold GatewayDeliveryMaterial. do 2 tr_head; [tr_run|].
  apply wp_lock; [intros x; tr_run|]. intros a Ha Hr Hv. cbv zeta. tr_run.
  apply wp_exec; [tr_run|]. intros t' w' Hq%insert_material_quiet. tr_run.
Qed.

(** ** Process-wide audit *)

Lemma audit_row_inv b w o :
  audit_origin_row b w = Some o → cd_audit_origins w !! OriginID b = Some o ∧ ao_RuntimeID o = AuditRuntimeID b.
Proof.
  unfold audit_origin_row. destruct (cd_audit_origins w !! OriginID b); [|done]. case_bool_decide; [|done]. by intros [= ->].
Qed.

Lemma close_audit_step b t w w' o :
  audit_origin_row b w = Some o → ao_ClosedAt o = None → close_audit_row b t w = Some w' → step w w'.
Proof.
  intros Ho Hc. unfold close_audit_row. rewrite Ho. destruct (t <? _); [done|]. intros [= <-].
  apply audit_row_inv in Ho as [Ho _]. by apply step_audit_close.
Qed.

Lemma RegisterAudit_tracks b public d : central_ok d → wp (RegisterGatewayAuditOrigin b public) (tracks d) d d.
Proof using Type.
  intros Hok. assert (Hd : changes d d) by apply rtc_refl. unfold RegisterGatewayAuditOrigin. do 2 tr_head; [tr_run|].
  apply wp_stmt; [tr_run|]. intros t inserted w' Hi.
  assert (Hw : changes d w').
  { revert Hi. unfold insert_audit_origin. destruct (is_some _) eqn:Hs; [by intros [= <- <-]|].
    case (_ || _); [done|]. intros [= <- <-]. eapply changes_step; [done|]. apply step_audit_origin; [|done]. unfold is_some in Hs. by destruct (cd_audit_origins _ !! _). }
  tr_run. apply wp_append_audit; [tr_run|]. intros w2 Hq _. tr_run.
Qed.

Lemma wp_seal_audit b o event d w c (Q : Prelude.result dberr () → CentralDb → CentralDb → Prop) :
  changes d w → audit_origin_row b w = Some o → ao_ClosedAt o = None → (∀ r w', changes d w' → Q r w' c) →
  wp (let* _ := exec (close_audit_row b) in append_audit event) Q w c.
Proof using Type.
  intros Hw Ho Hcl HQ. wp_head. apply wp_exec; [eauto|]. intros t w' Hw'%(close_audit_step _ _ _ _ o); [|done|done].
  pose proof (changes_step _ _ _ Hw Hw'). apply wp_append_audit; eauto.
Qed.

Definition audit_record_stored (r : GatewayAuditCommit) (d : CentralDb) : Prop :=
  ∃ x, x ∈ cd_audit_records d ∧ of_audit_origin (gc_Binding r) x = true ∧ ad_Sequence x = gc_Sequence r ∧
    ad_RecordID x = gc_RecordID r ∧ ad_WireHash x = gc_WireHash r.

Lemma audit_record_stored_grows r d d' : grows d d' → audit_record_stored r d → audit_record_stored r d'.
Proof. intros Hg (x & Hx & H). exists x. split; [|done]. by eapply elem_of_prefix, gr_audit_records. Qed.

Lemma audit_record_stored_old r x (w : CentralDb) :
  List.find (λ x, of_audit_origin (gc_Binding r) x && (ad_Sequence x == gc_Sequence r)) (cd_audit_records w) = Some x →
  (ad_RecordID x != gc_RecordID r) || (ad_WireHash x != gc_WireHash r) = false → audit_record_stored r w.
Proof.
  intros [Hin Hx]%find_some Hb. bool_prop. exists x. split_and!; try done. by apply list_elem_of_In.
Qed.

Definition audit_row (r : GatewayAuditCommit) : AuditRecordRow :=
  mkAuditRecordRow (OriginID (gc_Binding r)) (AuditRuntimeID (gc_Binding r)) (gc_Sequence r) (gc_RecordID r) (gc_WireHash r)
    (gc_CreatedAt r).

Lemma insert_audit_step r o w w' :
  audit_origin_row (gc_Binding r) w = Some o → ao_ClosedAt o = None →
  gc_Sequence r = (audit_tail_of (gc_Binding r) w).1 + 1 → audited (gc_RecordID r) w →
  insert_audit_record (audit_row r) w = Some w' →
  step w w' ∧ cd_audit_origins w' = cd_audit_origins w ∧ audit_record_stored r w'.
Proof.
  intros Ho Hcl Hsq Hau. unfold insert_audit_record. destruct (_ || _) eqn:Hx; [done|]. intros [= <-].
  repeat (apply orb_false_iff in Hx as [Hx ?]). split_and!; [|done|].
  - destruct (gc_Binding r) as [bo br] eqn:Hb. apply step_audit_record with o; cbn; rewrite ?Hb; cbn; try done.
    intros x Hin Hid. rewrite existsb_false, Forall_forall in Hx. specialize (Hx x Hin). cbn in Hx. bool_prop. congruence.
  - exists (audit_row r). cbn. split_and!; try done; [apply elem_of_app; right; by apply list_elem_of_singleton|].
    unfold of_audit_origin. cbn. by rewrite !bool_decide_eq_true_2.
Qed.

Lemma wp_CommitAudit r (Q : Prelude.result dberr () → CentralDb → CentralDb → Prop) d :
  central_ok d → gc_RecordID r ≠ uuid_Nil → (∀ x w c, changes d w → changes d c → Q (Err x) w c) →
  (∀ w, changes d w → audit_record_stored r w → Q (Ok ()) w w) → wp (CommitGatewayGlobalAudit r) Q d d.
Proof using Type.
  intros Hok Hv He HQ. assert (Hd : changes d d) by apply rtc_refl. unfold CommitGatewayGlobalAudit, auditTail. cbv zeta.
  tr_run; try (by eauto using audit_record_stored_old).
  apply negb_false_iff in Heqb. unfold audit_commit_ok in Heqb. apply negb_true_iff in Heqb.
  repeat match goal with H : (_ || _) = false |- _ => apply orb_false_iff in H as [H ?] end. bool_prop.
  assert (Hcl : ao_ClosedAt a = None) by (unfold is_some in *; by destruct (ao_ClosedAt a)).
  assert (Hid : ae_ID (gc_Audit r) = gc_RecordID r) by done.
  apply wp_append_audit; [eauto|]. intros w1 Hq1 Hau. wp_head. apply wp_exec; [eauto|]. intros t' w2 Hw2.
  assert (Hrow : audit_origin_row (gc_Binding r) w1 = Some a) by (unfold audit_origin_row in *; by rewrite (qu_audit_origins _ _ Hq1)).
  apply (insert_audit_step r a) in Hw2 as (Hs & Hor & Hst); [|done|done| |rewrite <- Hid; apply Hau; by rewrite Hid].
  2: { unfold audit_tail_of. by rewrite (qu_audit_records _ _ Hq1). }
  pose proof (changes_step _ _ _ (changes_quiet _ _ _ Hd Hq1) Hs) as Hch. wp_head.
  destruct (gatewayCleanupAudit _); [|tr_run; eauto].
  apply (wp_seal_audit _ a _ w2); [apply rtc_refl| |done|]; [unfold audit_origin_row in *; by rewrite Hor|].
  intros [[]|x] w3 Hc3; assert (changes d w3) by (by etrans); [tr_run; eauto using audit_record_stored_grows, changes_grows|eauto].
Qed.

Lemma CommitAudit_tracks r d : central_ok d → gc_RecordID r ≠ uuid_Nil → wp (CommitGatewayGlobalAudit r) (tracks d) d d.
Proof using Type. intros Hok Hn. apply wp_CommitAudit; [done|done|by split|by split]. Qed.

Lemma CloseAudit_tracks b sequence hash now d : central_ok d → wp (CloseGatewayAuditOrigin b sequence hash now) (tracks d) d d.
Proof using Type.
  intros Hok. assert (Hd : changes d d) by apply rtc_refl. unfold CloseGatewayAuditOrigin, auditTail. tr_run.
  apply wp_exec; [tr_run|]. intros t' w' Hw'%(close_audit_step _ _ _ _ a); [|done|by unfold is_some in *; destruct (ao_ClosedAt a)].
  pose proof (changes_step _ _ _ Hd Hw'). wp_head. apply wp_append_audit; [tr_run|]. intros w2 Hq _. tr_run.
Qed.
End Refine.

Create HintDb central.
#[export] Hint Resolve Reserve_tracks Check_tracks Release_tracks Decide_tracks Register_tracks Close_tracks : central.
#[export] Hint Resolve Recover_tracks Material_tracks Refresh_tracks Delivery_tracks RegisterAudit_tracks : central.
#[export] Hint Resolve CloseAudit_tracks : central.
