(* ===== verification/CentralFrame.v ===== *)
(** * CentralFrame: transactions that keep to a relation

    A transaction stays [within] a relation on databases when every statement it
    runs does.  With a relation that says which tables are left alone, this is a
    frame; the Gateway's transactions stay within [aside]: they leave hosts,
    operations and credentials alone and add no admission, save the few that do
    just that. *)

From S2P Require Import Prelude GoStd Uuid Platform GatewaySession GatewayAuth AuditChain PendingRecord CentralTx CentralStore.
From S2P Require Import CentralTrace CentralRefine.
Open Scope Z_scope.
Open Scope go_scope.
Open Scope central_scope.

Definition within (R : relation CentralDb) {A} (m : Tx A) : Prop :=
  ∀ w c, wp m (λ _ w' c', R w w' ∧ (c' = c ∨ R w c')) w c.

(** ** Rules *)

Lemma within_mono (R R' : relation CentralDb) {A} (m : Tx A) : (∀ d d', R d d' → R' d d') → within R m → within R' m.
Proof. intros HR Hm w c. eapply wp_mono; [|apply Hm]. intros r w' c' [Hw [->|Hc]]; auto. Qed.

Lemma wp_within R {A} (m : Tx A) (Q : result dberr A → CentralDb → CentralDb → Prop) w c :
  within R m → (∀ r w' c', R w w' → c' = c ∨ R w c' → Q r w' c') → wp m Q w c.
Proof. intros Hm HQ. eapply wp_mono; [|apply Hm]. intros r w' c' [Hw Hc]. by apply HQ. Qed.

Lemma wp_conj {A} (m : Tx A) (Q1 Q2 : result dberr A → CentralDb → CentralDb → Prop) w c :
  wp m Q1 w c → wp m Q2 w c → wp m (λ r w c, Q1 r w c ∧ Q2 r w c) w c.
Proof. intros H1 H2 e ab n. split; [apply H1|apply H2]. Qed.

Section Rules.
Context (R : relation CentralDb) {HR : PreOrder R}.

Lemma within_run {A} (m : Tx A) e d : within R m → R d (run_tx m e d).2.
Proof using HR. intros Hm. apply (wp_run m (λ _ d', R d d')). eapply wp_mono; [|apply Hm]. intros r w c [_ [->|Hc]]; [reflexivity|done]. Qed.

(** The rest of a transaction whose part so far kept to [R]. *)
Lemma wp_onward {A} (m : Tx A) w0 w c : R w0 w → within R m → wp m (λ _ w' c', R w0 w' ∧ (c' = c ∨ R w0 c')) w c.
Proof using HR.
  intros H0 Hm. eapply wp_mono; [|apply Hm]. intros r w' c' [Hw Hc]. split; [by etrans|]. destruct Hc as [->|Hc]; [by left|right; by etrans].
Qed.

Lemma within_ret {A} (a : A) : within R (tret a).
Proof using HR. intros w c. apply wp_ret. split; [reflexivity|by left]. Qed.

Lemma within_fail {A} x : within R (tfail (A := A) x).
Proof using HR. intros w c. apply wp_fail. split; [reflexivity|by left]. Qed.

Lemma within_bind {A B} (m : Tx A) (k : A → Tx B) : within R m → (∀ a, within R (k a)) → within R (tbind m k).
Proof using HR.
  intros Hm Hk w c. apply wp_bind. eapply wp_mono; [|apply Hm]. intros [a|x] w1 c1 [Hw Hc]; [|done].
  eapply wp_mono; [|apply Hk]. intros r w2 c2 [Hw2 Hc2]. split; [by etrans|]. destruct Hc2 as [->|Hc2]; [done|]. right. by etrans.
Qed.

Lemma within_attempt {A} (m : Tx A) : within R m → within R (tattempt m).
Proof using Type. intros Hm w c. apply wp_attempt, Hm. Qed.

Lemma within_stmt {A} (f : time → CentralDb → option (A * CentralDb)) :
  (∀ t d a d', f t d = Some (a, d') → R d d') → within R (stmt f).
Proof using HR. intros Hf w c. apply wp_stmt; [split; [reflexivity|by left]|]. intros t a w' Hx. split; [by eapply Hf|by left]. Qed.

Lemma within_exec f : (∀ t d d', f t d = Some d' → R d d') → within R (exec f).
Proof using HR. intros Hf w c. apply wp_exec; [split; [reflexivity|by left]|]. intros t w' Hx. split; [by eapply Hf|by left]. Qed.

Lemma within_exec_unique cause clash f : (∀ t d d', f t d = Some d' → R d d') → within R (exec_unique cause clash f).
Proof using HR.
  intros Hf w c. apply wp_exec_unique; [intros x; split; [reflexivity|by left]|]. intros t w' _ Hx. split; [by eapply Hf|by left].
Qed.

Lemma within_select {A} (f : time → CentralDb → A) : within R (select f).
Proof using HR. intros w c. apply wp_select; [|intros t]; (split; [reflexivity|by left]). Qed.

Lemma within_select_row {A} (f : time → CentralDb → option A) : within R (select_row f).
Proof using HR. intros w c. apply wp_select_row; [intros x|intros t a _]; (split; [reflexivity|by left]). Qed.

Lemma within_newV7 : within R newV7.
Proof using HR. intros w c. apply wp_newV7; [|intros id]; (split; [reflexivity|by left]). Qed.

Lemma within_commit : within R commit.
Proof using HR. intros w c. apply wp_commit; (split; [reflexivity|]); [by left|right; reflexivity..]. Qed.
End Rules.

(** The audit chain is extended within [R]. *)
Class Audited (R : relation CentralDb) `{U : UuidPkg} `{P : Platform} `{C : AuditCodec} :=
  within_audit : ∀ event, within R (append_audit event).

(** ** Relations *)

(** A part of the database stays as it is. *)
Definition kept {X} (p : CentralDb → X) : relation CentralDb := λ d d', p d' = p d.
#[export] Instance kept_preorder {X} (p : CentralDb → X) : PreOrder (kept p).
Proof. split; [by intros d|]. unfold kept. congruence. Qed.

(** Admissions are at most released. *)
Definition no_new_admission (d d' : CentralDb) : Prop :=
  ∀ id a', cd_admissions d' !! id = Some a' → ∃ a, cd_admissions d !! id = Some a ∧ (a' = a ∨ ∃ t, a' = with_released t a).
#[export] Instance no_new_admission_preorder : PreOrder no_new_admission.
Proof.
  split; [intros d id a Ha; eauto|]. intros d1 d2 d3 H12 H23 id a Ha. destruct (H23 _ _ Ha) as (b & Hb & Hab).
  destruct (H12 _ _ Hb) as (x & Hx & Hbx). exists x. split; [done|]. destruct Hab as [->|[t ->]]; [done|]. right. exists t.
  by destruct Hbx as [->|[t' ->]].
Qed.

(** What a transaction of the Gateway leaves alone. *)
Record aside (d d' : CentralDb) : Prop := {
  as_storage : cd_storage d' = cd_storage d;
  as_fleet : cd_fleet d' = cd_fleet d;
  as_admissions : no_new_admission d d' }.
#[export] Instance aside_preorder : PreOrder aside.
Proof.
  split; [intros d; by split|]. intros d1 d2 d3 [S1 F1 A1] [S2 F2 A2]. split; [congruence|congruence|by etrans].
Qed.

Lemma aside_same d d' : cd_storage d' = cd_storage d → cd_fleet d' = cd_fleet d → cd_admissions d' = cd_admissions d → aside d d'.
Proof. intros Hs Hf Ha. split; [done|done|]. intros id a. rewrite Ha. eauto. Qed.

Lemma aside_released id owner t d a : admission_of id owner d = Some a → aside d (set_admissions (<[id := with_released t a]> (cd_admissions d)) d).
Proof.
  intros [Ha _]%admission_of_inv. split; [done|done|]. intros j x. cbn. intros [[<- <-]|[_ Hx]]%lookup_insert_Some; eauto.
Qed.

(** Relations that [aside] refines. *)
Class Asideable (R : relation CentralDb) := aside_within : ∀ d d', aside d d' → R d d'.
#[export] Instance aside_aside : Asideable aside.
Proof. by intros d d'. Qed.
#[export] Instance kept_storage_aside : Asideable (kept cd_storage).
Proof. intros d d'. apply as_storage. Qed.
#[export] Instance kept_fleet_aside : Asideable (kept cd_fleet).
Proof. intros d d'. apply as_fleet. Qed.
#[export] Instance no_new_admission_aside : Asideable no_new_admission.
Proof. intros d d'. apply as_admissions. Qed.

Lemma wp_frame {A} (m : Tx A) (Q : result dberr A → CentralDb → CentralDb → Prop) w c :
  within (kept cd_storage) m →
  (∀ r w' c', cd_storage w' = cd_storage w → cd_storage c' = cd_storage c ∨ cd_storage c' = cd_storage w → Q r w' c') →
  wp m Q w c.
Proof. intros Hm HQ. apply (wp_within _ _ _ _ _ Hm). intros r w' c' Hw Hc. apply HQ; [done|]. destruct Hc as [->|Hc]; auto. Qed.

Lemma within_aside (R : relation CentralDb) `{!Asideable R} {A} (m : Tx A) : within aside m → within R m.
Proof. apply within_mono, aside_within. Qed.

#[export] Instance aside_audited (R : relation CentralDb) `{!Asideable R} `{U : UuidPkg} `{P : Platform} `{C : AuditCodec} : Audited R.
Proof.
  intros event. apply (within_aside R). intros w c e ab n. unfold append_audit.
  destruct (appendAudit _ _ _ _) as [[] t]; cbn; (split; [by apply aside_same|by left]).
Qed.

#[export] Instance quiet_preorder `{U : UuidPkg} `{P : Platform} `{C : AuditCodec} : PreOrder quiet.
Proof.
  split; [intros d; by split|]. intros d1 d2 d3 [] []. split; try congruence; try by etrans. auto.
Qed.
#[export] Instance quiet_audited `{U : UuidPkg} `{P : Platform} `{C : AuditCodec} : Audited quiet.
Proof. intros event w c. apply wp_append_audit; [split; [done|by left]|]. intros w' Hq _. split; [done|by left]. Qed.

Ltac within_head :=
  lazymatch goal with
  | |- within _ (tbind _ _) => apply within_bind; [exact _| |intros ?]
  | |- within _ (tret _) => apply within_ret; exact _
  | |- within _ (tfail _) => apply within_fail; exact _
  | |- within _ (tattempt _) => apply within_attempt
  | |- within _ (select _) => apply within_select; exact _
  | |- within _ (select_row _) => apply within_select_row; exact _
  | |- within _ clock_timestamp => apply within_select; exact _
  | |- within _ newV7 => apply within_newV7; exact _
  | |- within _ commit => apply within_commit; exact _
  | |- within _ (append_audit _) => apply within_audit
  | |- within _ (exec_unique _ _ _) => apply within_exec_unique; [exact _|]
  | |- within _ (exec _) => apply within_exec; [exact _|]
  | |- within _ (stmt _) => apply within_stmt; [exact _|]
  | |- within _ (if ?b then _ else _) => destruct b
  | |- within _ (let '(_, _) := ?x in _) => destruct x
  | |- within _ (match ?x with _ => _ end) => destruct x
  | |- within _ _ => solve [auto with within | apply within_aside; [exact _|auto with within]]
  end; cbn beta iota.
Create HintDb within.
Ltac stays := repeat within_head.
#[export] Hint Resolve within_audit : within.

(** ** The rows of the Gateway's tables *)

Ltac open_row :=
  intros; repeat match goal with
  | H : (if ?b then _ else _) = Some _ |- _ => destruct b eqn:?
  | H : match ?x with _ => _ end = Some _ |- _ => destruct x eqn:?
  | H : Some (_, _) = Some (_, _) |- _ => injection H as ? <-
  | H : Some _ = Some _ |- _ => injection H as <-
  | H : None = Some _ |- _ => discriminate H
  end.
Ltac aside_row :=
  unfold release_row, insert_origin, insert_record, close_row, insert_material, close_audit_row,
    insert_audit_record, insert_decision, insert_audit_origin in *; cbv zeta in *; open_row;
  first [reflexivity | by eapply aside_released | by apply aside_same].

(** ** The Gateway's transactions *)

Section Gateway.
Context `{U : UuidPkg} `{P : Platform} `{C : AuditCodec}.

(** One lemma per transaction, and the automation that chains them. *)
Ltac transaction :=
  intros; cbv zeta; stays; aside_row.

Lemma aside_lockAgentRepository id : within aside (lockAgentRepository id).
Proof. unfold lockAgentRepository. transaction. Qed.
Lemma aside_scanAgentDelivery id : within aside (scanAgentDelivery id).
Proof. unfold scanAgentDelivery. transaction. Qed.
Lemma aside_scanCredential id : within aside (scanCredential id).
Proof. unfold scanCredential. transaction. Qed.
Lemma aside_backupAdmissionAudit a b c d f : within aside (backupAdmissionAudit a b c d f).
Proof. unfold backupAdmissionAudit. transaction. Qed.
Lemma aside_reject {A} a b c : within aside (rejectBackupAdmission (A := A) a b c).
Proof. unfold rejectBackupAdmission, backupAdmissionAudit. transaction. Qed.
Lemma aside_outbox a e : within aside (admissionOutbox a e).
Proof. unfold admissionOutbox. transaction. Qed.
Lemma aside_noAdmission id : within aside (ensureNoBackupAdmission id).
Proof. unfold ensureNoBackupAdmission. transaction. Qed.
Lemma aside_notRevoked id : within aside (ensureGatewayAuthorizationNotRevoked id).
Proof. unfold ensureGatewayAuthorizationNotRevoked. transaction. Qed.
Lemma aside_live id owner : within aside (ensureLiveBackupAdmission id owner).
Proof. unfold ensureLiveBackupAdmission. transaction. Qed.
Lemma aside_releasable id : within aside (ensureGatewayAuthorizationReleasable id).
Proof. unfold ensureGatewayAuthorizationReleasable. transaction. Qed.
Lemma aside_pendingReleasable id : within aside (ensureGatewayPendingReleasable id).
Proof. unfold ensureGatewayPendingReleasable. transaction. Qed.
Lemma aside_pendingTail id runtime : within aside (pendingTail id runtime).
Proof. unfold pendingTail. transaction. Qed.
Lemma aside_auditTail b : within aside (auditTail b).
Proof. unfold auditTail. transaction. Qed.
#[local] Hint Resolve aside_lockAgentRepository aside_scanAgentDelivery aside_scanCredential aside_backupAdmissionAudit
  aside_reject aside_outbox aside_noAdmission aside_notRevoked aside_live aside_releasable aside_pendingReleasable
  aside_pendingTail aside_auditTail : within.

Lemma aside_lock id owner hash : within aside (lockBackupAdmission id owner hash).
Proof. unfold lockBackupAdmission. transaction. Qed.
Lemma aside_release_tx a action reason : within aside (releaseBackupAdmission a action reason).
Proof. unfold releaseBackupAdmission. transaction. Qed.
Lemma aside_finish_decision a d : within aside (finish_decision a d).
Proof. unfold finish_decision. transaction. Qed.
Lemma aside_lockOrigin id runtime : within aside (lockPendingOrigin id runtime).
Proof. unfold lockPendingOrigin. transaction. Qed.
Lemma aside_revoke a runtime request now : within aside (revokeGatewayRuntime a runtime request now).
Proof. unfold revokeGatewayRuntime. transaction. Qed.
#[local] Hint Resolve aside_lock aside_release_tx aside_finish_decision aside_lockOrigin aside_revoke : within.

Lemma aside_lock_or_reject id owner hash : within aside (lock_or_reject id owner hash).
Proof. unfold lock_or_reject. transaction. Qed.
Lemma aside_finish o request : within aside (finishGatewayAdmission o request).
Proof. unfold finishGatewayAdmission. transaction. Qed.
Lemma aside_recover_runtime a runtime o now : within aside (recover_runtime a runtime o now).
Proof. unfold recover_runtime. transaction. Qed.
#[local] Hint Resolve aside_lock_or_reject aside_finish aside_recover_runtime : within.

Lemma aside_Check id owner hash : within aside (CheckBackupAdmission id owner hash).
Proof. unfold CheckBackupAdmission. transaction. Qed.
Lemma aside_Release id owner : within aside (ReleaseBackupAdmission id owner).
Proof. unfold ReleaseBackupAdmission. transaction. Qed.
Lemma aside_Decide r hash : within aside (DecideGatewayAuthorization r hash).
Proof. unfold DecideGatewayAuthorization. transaction. Qed.
Lemma aside_Register id owner runtime public hash : within aside (RegisterGatewayPendingOrigin id owner runtime public hash).
Proof. unfold RegisterGatewayPendingOrigin. transaction. Qed.
Lemma aside_Close id owner runtime sequence hash : within aside (CloseGatewayPendingOrigin id owner runtime sequence hash).
Proof. unfold CloseGatewayPendingOrigin. transaction. Qed.
Lemma aside_Recover id owner runtime source : within aside (RecoverGatewayAdmission id owner runtime source).
Proof. unfold RecoverGatewayAdmission. transaction. Qed.
Lemma aside_Material id owner hash : within aside (BackupAdmissionMaterial id owner hash).
Proof. unfold BackupAdmissionMaterial. transaction. Qed.
Lemma aside_Delivery id owner runtime source hash challenge : within aside (GatewayDeliveryMaterial id owner runtime source hash challenge).
Proof. unfold GatewayDeliveryMaterial. transaction. Qed.
Lemma aside_RegisterAudit b public : within aside (RegisterGatewayAuditOrigin b public).
Proof. unfold RegisterGatewayAuditOrigin. transaction. Qed.
Lemma aside_CommitAudit r : within aside (CommitGatewayGlobalAudit r).
Proof. unfold CommitGatewayGlobalAudit. transaction. Qed.
Lemma aside_CloseAudit b sequence hash now : within aside (CloseGatewayAuditOrigin b sequence hash now).
Proof. unfold CloseGatewayAuditOrigin. transaction. Qed.
End Gateway.

#[export] Hint Resolve aside_lockAgentRepository aside_scanAgentDelivery aside_scanCredential aside_backupAdmissionAudit
  aside_reject aside_outbox aside_noAdmission aside_notRevoked aside_live aside_releasable aside_pendingReleasable
  aside_pendingTail aside_auditTail aside_lock aside_release_tx aside_finish_decision aside_lockOrigin aside_revoke
  aside_lock_or_reject aside_finish aside_recover_runtime aside_Check aside_Release aside_Decide
  aside_Register aside_Close aside_Recover aside_Material aside_Delivery aside_RegisterAudit aside_CommitAudit
  aside_CloseAudit : within.


(** ** The exceptions: a new admission, and a refreshed credential *)

Definition rows (d : CentralDb) : Storage * Fleet := (cd_storage d, cd_fleet d).
#[export] Instance rows_aside : Asideable (kept rows).
Proof. intros d d' [Hs Hf _]. unfold kept, rows. congruence. Qed.

(** Credentials are found under their ids, before and after. *)
Definition credentials_keyed (d d' : CentralDb) : Prop :=
  (∀ id c, sg_credentials (cd_storage d) !! id = Some c → sc_ID c = id) →
  ∀ id c, sg_credentials (cd_storage d') !! id = Some c → sc_ID c = id.

Lemma credentials_keyed_same d d' : cd_storage d' = cd_storage d → credentials_keyed d d'.
Proof. intros Hs. unfold credentials_keyed. by rewrite Hs. Qed.

Lemma credentials_keyed_insert d d' id c c' :
  sg_credentials (cd_storage d) !! id = Some c → sc_ID c' = sc_ID c →
  sg_credentials (cd_storage d') = <[id := c']> (sg_credentials (cd_storage d)) → credentials_keyed d d'.
Proof.
  intros Hc Hid Hg Hk j x. rewrite Hg. intros [[<- <-]|[_ Hx]]%lookup_insert_Some; [rewrite Hid|]; by apply Hk.
Qed.

Record settled (d d' : CentralDb) : Prop := {
  sd_fleet : cd_fleet d' = cd_fleet d;
  sd_admissions : no_new_admission d d';
  sd_keyed : credentials_keyed d d' }.
#[export] Instance settled_preorder : PreOrder settled.
Proof. split; [intros d; split; [done|done|by intros Hk]|]. intros d1 d2 d3 [F1 A1 K1] [F2 A2 K2]. split; [congruence|by etrans|]. by intros Hk%K1%K2. Qed.
#[export] Instance settled_aside : Asideable settled.
Proof. intros d d' [Hs Hf Ha]. split; [done|done|by apply credentials_keyed_same]. Qed.

Lemma settled_storage x d : credentials_keyed d (set_storage x d) → settled d (set_storage x d).
Proof. split; [done| |done]. intros id a. cbn. eauto. Qed.

Section Exceptions.
Context `{U : UuidPkg} `{P : Platform} `{C : AuditCodec}.

Lemma rows_Reserve r : within (kept rows) (ReserveBackupAdmission r).
Proof.
  unfold ReserveBackupAdmission. cbv zeta. stays. unfold insert_admission. open_row. reflexivity.
Qed.

Lemma insertSecret_credentials e g g' : insertSecret e g = Some g' → sg_credentials g' = sg_credentials g.
Proof. unfold insertSecret. by destruct (_ || _); [|intros [= <-]]. Qed.
Lemma insert_revision_credentials id r secret g g' : insert_revision id r secret g = Some g' → sg_credentials g' = sg_credentials g.
Proof. unfold insert_revision. by destruct (_ || _); [|intros [= <-]]. Qed.

Lemma settled_refresh_rows id e now d d' : refresh_rows id e now d = Some d' → settled d d'.
Proof.
  unfold refresh_rows. cbv zeta. intros H. destruct (sg_credentials _ !! id) as [c|] eqn:Hc; [|by injection H as <-].
  destruct (insertSecret _ _) as [g1|] eqn:H1; [|done]. cbn in H. destruct (insert_revision _ _ _ _) as [g2|] eqn:H2; [|done].
  injection H as <-. apply settled_storage, (credentials_keyed_insert _ _ id c (refreshed e now c)); [done|done|]. cbn.
  by rewrite (insert_revision_credentials _ _ _ _ _ H2), (insertSecret_credentials _ _ _ H1).
Qed.

Lemma settled_Refresh id owner hash expected e : within settled (RefreshBackupAdmission id owner hash expected e).
Proof. unfold RefreshBackupAdmission. stays. intros _ d d'. apply settled_refresh_rows. Qed.

Lemma settled_Commit r validate : within settled (CommitGatewayPending r validate).
Proof.
  unfold CommitGatewayPending, pending_effect. cbv zeta. stays; intros ? ? ? ?.
  all: first [by eapply settled_refresh_rows | apply aside_within; by aside_row].
Qed.
End Exceptions.
