(* ===== verification/CentralPlane.v ===== *)
(** * CentralPlane: the control plane's side of the Gateway protocol

    internal/server: gateway_decisions.go, gateway_pending.go,
    gateway_global_audit.go, and the audit helpers of controlplane.go they use.
    A call is a sequence of transactions, each with its own environment; whether
    the deadline of the call has passed is an input ([ctx]). *)

From S2P Require Import Prelude GoStd Uuid Platform GatewaySession GatewayAuth AuditChain PendingRecord CentralTx CentralStore.
From S2P Require Import RcloneConfig StorageSecret.
From S2P Require Import CentralTrace CentralRefine.
Open Scope Z_scope.
Open Scope go_scope.
Open Scope central_scope.

(** The settings of a [ControlPlane] that these calls read. *)
Record Plane := mkPlane {
  cp_gatewaySigningKey : string;
  cp_gatewayPendingKey : string;
  cp_masterKey : string;
  cp_gatewayPublicURL : string;
  cp_serverCABundle : string;
  cp_gatewayOfflineWindow : duration }.

(** The part of a [RequestMeta] that is audited. *)
Record RequestMeta := mkMeta { rm_RequestID : uuid; rm_SourceIPHash : string }.

Section Plane.
Context `{U : UuidPkg} `{P : Platform} `{E : Ed25519} `{C : AuditCodec} `{S : StatementCodec} `{N : PendingCodec}.
Context `{AE : AEAD} `{T : TokenCodec} `{W : NetPkg}.
Variable c : Plane.

Definition credentialConfigurationHash : string :=
  hex_encode (Sum256 (cp_gatewayPublicURL c +:+ String "010" "" +:+ cp_serverCABundle c)).

(** ** Audit of a refused replay *)

Definition RecordAudit (event : AuditEvent) : Tx () := let* _ := append_audit event in commit.

(** [auditEvent]; [now] is the server's clock. *)
Definition auditEvent (now : time) (action resourceType : string) (meta : RequestMeta) : Tx AuditEvent :=
  let* id := newV7 in
  let* request := if rm_RequestID meta == uuid_Nil then newV7 else tret (rm_RequestID meta) in
  tret (mkAudit id now ActorSystem uuid_Nil action resourceType uuid_Nil request (rm_SourceIPHash meta) AuditFailure "UNSPECIFIED"
    "{}" "" "").

Definition RecordDenied (now : time) (action resourceType reason : string) (meta : RequestMeta) : Tx () :=
  let* event := auditEvent now action resourceType meta in
  RecordAudit (mkAudit (ae_ID event) (ae_OccurredAt event) (ae_ActorType event) (ae_ActorID event) (ae_Action event)
    (ae_ResourceType event) (ae_ResourceID event) (ae_RequestID event) (ae_SourceIPHash event) AuditDenied reason
    (ae_Changes event) "" "").

Definition RecordGatewayReplayDenied (now : time) : Tx () :=
  RecordDenied now "GATEWAY_PENDING_REPLAY_DENIED" "GATEWAY" "REJECTED" (mkMeta uuid_Nil "").

(** ** Decisions (gateway_decisions.go) *)

Definition decision_binding (runtime : uuid) (a : BackupAdmission) : GatewayAuthorizationBinding :=
  mkBinding (ba_ID a) (ba_Owner a) runtime (ba_AgentID a) (ba_HostID a) (ba_RepositoryID a) (ba_GatewayID a)
    (ba_StorageCredentialID a) (ba_DeliveryID a) (ba_GatewaySecretRef a) (ba_ResticSecretRef a) (ba_ConfigurationHash a).

Definition decision_statement (d : GatewayDecision) : GatewayStatement :=
  mkStatement (decision_binding (gd_RuntimeID d) (gd_Admission d)) (gd_Revision d) (Unix (gd_IssuedAt d))
    (if gd_Revoked d then 0 else Unix (gd_ExpiresAt d)) (gd_Revoked d).

Definition signGatewayDecision (d : GatewayDecision) : option string :=
  SignGatewayStatement (decision_statement d) (cp_gatewaySigningKey c).

Definition with_default_lifetime (r : GatewayDecisionRequest) : GatewayDecisionRequest :=
  if negb (dq_Revoke r) && (dq_Lifetime r == 0)
  then mkDecisionRequest (dq_ID r) (dq_AdmissionID r) (dq_Owner r) (dq_RuntimeID r) (dq_ExpectedRevision r)
         (cp_gatewayOfflineWindow c) (dq_Revoke r)
  else r.

(** The decision the store returned is the one asked for, and still in force;
    [clock1] and [clock2] are the readings of the server's clock. *)
Definition decision_matches (r : GatewayDecisionRequest) (d : GatewayDecision) (clock1 clock2 : time) : bool :=
  let a := gd_Admission d in
  negb ((gd_RequestID d != dq_ID r) || (ba_ID a != dq_AdmissionID r) || (ba_Owner a != dq_Owner r) ||
        (gd_RuntimeID d != dq_RuntimeID r) || (gd_Revision d != dq_ExpectedRevision r + 1) ||
        negb (Bool.eqb (gd_Revoked d) (dq_Revoke r)) || (gd_RequestedLifetime d != dq_Lifetime r) ||
        After (gd_IssuedAt d) clock1) &&
  negb (negb (gd_Revoked d) &&
        (is_some (ba_ReleasedAt a) || (ba_ConfigurationHash a != credentialConfigurationHash) ||
         negb (After (gd_ExpiresAt d) clock2) || After (gd_ExpiresAt d) (ba_ExpiresAt a) ||
         (dq_Lifetime r <? Sub (gd_ExpiresAt d) (gd_IssuedAt d)))).

(** The signed statement, or [None] for an error. *)
Definition cpDecideGatewayAuthorization (r : GatewayDecisionRequest) (e : TxEnv) (ctx : bool) (clock1 clock2 : time)
    (d : CentralDb) : option string * CentralDb :=
  let r := with_default_lifetime r in
  if (slen (cp_gatewaySigningKey c) == 0) || (cp_gatewayPublicURL c == "") || negb (ValidateDecisionRequest r) ||
     (cp_gatewayOfflineWindow c <? dq_Lifetime r)
  then (None, d)
  else
    let '(decided, d) := run_tx (DecideGatewayAuthorization r credentialConfigurationHash) e d in
    match decided with
    | Err _ => (None, d)
    | Ok g =>
        if negb ctx || negb (decision_matches r g clock1 clock2) then (None, d)
        else (signGatewayDecision g, d)
    end.

(** ** Pending records (gateway_pending.go) *)

Definition pendingBinding (o : GatewayPendingOrigin) : GatewayAuthorizationBinding :=
  decision_binding (go_RuntimeID o) (go_Admission o).

Definition cpRegisterGatewayPending (binding : GatewayAuthorizationBinding) (source : string) (e : TxEnv) (ctx : bool)
    (d : CentralDb) : option (GatewayPendingOrigin * string) * CentralDb :=
  if negb (ValidateBinding binding) || (ConfigurationHash binding != credentialConfigurationHash) ||
     (slen (cp_gatewaySigningKey c) != 64) || (slen (cp_gatewayPendingKey c) != 32) || (slen source != 32)
  then (None, d)
  else
    let '(r, d) := run_tx (RegisterGatewayPendingOrigin (AdmissionID binding) (Owner binding) (RuntimeID binding) source
      (ConfigurationHash binding)) e d in
    match r with
    | Err _ => (None, d)
    | Ok o =>
        if negb ctx || (pendingBinding o != binding) || (go_PublicKey o != source) || is_some (go_ClosedAt o)
        then (None, d)
        else (pair o <$> GatewayPendingPublicKey (cp_gatewayPendingKey c), d)
    end.

(** What a replayed record asks the store to commit, once opened with the key of
    its origin, and the configuration it refreshes a credential with. *)
Definition replay_commit (runtime : uuid) (wire : string) (o : GatewayPendingOrigin) :
    option (GatewayPendingCommit * option string) :=
  match OpenGatewayPending wire (go_PublicKey o) (cp_gatewayPendingKey c) with
  | None => None
  | Some r =>
      let h := pr_Header r in
      if ph_Binding h != pendingBinding o then None
      else
        let created := time_of_unix (ph_CreatedAt h) in
        let commit audit := mkCommit (AdmissionID (ph_Binding h)) (Owner (ph_Binding h)) runtime (ph_RecordID h)
          (ph_Sequence h) (ph_AuthorizationRevision h) (ph_PreviousHash h) (GatewayPendingHash wire) (pr_Kind r) created audit
          (pr_ExpectedSecretRevision r) in
        if pr_Kind r == "audit" then
          match pr_Event r with
          | None => None
          | Some event =>
              if negb (event_route_ok h event) then None
              else
                let '(audit, valid) := GatewayAudit event in
                if negb valid then None
                else Some (commit (Some (mkAudit (ph_RecordID h) created (ae_ActorType audit) (ae_ActorID audit)
                       (ae_Action audit) (ae_ResourceType audit) (ae_ResourceID audit) (ph_RecordID h)
                       (ae_SourceIPHash audit) (ae_Result audit) (ae_ReasonCode audit) (ae_Changes audit) "" "")), None)
          end
        else Some (commit None, Some (default "" (pr_Config r)))
  end.

(** The closure handed to the store: absent for an audit event. *)
Definition refresh_with (env : SealEnv) (config : option string) : option (StorageCredential → SecretEnvelope → option SecretEnvelope) :=
  (λ config, validateRefresh (cp_masterKey c) config env) <$> config.

(** The transactions of a replay and the state of its context after the commit
    and after signing. *)
Record ReplayEnv := mkReplayEnv {
  re_lookup : TxEnv;
  re_commit : TxEnv;
  re_denied : TxEnv;
  re_ctx_commit : bool;
  re_ctx_sign : bool;
  re_seal : SealEnv;
  re_clock : time }.

(** A refusal is audited as well as it can be. *)
Definition replay_refused (e : ReplayEnv) (d : CentralDb) : option string * CentralDb :=
  (None, (run_tx (RecordGatewayReplayDenied (re_clock e)) (re_denied e) d).2).

Definition cpReplayGatewayPending (runtime : uuid) (wire : string) (e : ReplayEnv) (d : CentralDb) :
    option string * CentralDb :=
  if (slen (cp_gatewayPendingKey c) != 32) || (slen (cp_gatewaySigningKey c) != 64) || (slen (cp_masterKey c) != 32) ||
     negb (valid_v7 runtime) || (MaxGatewayPendingSize <? slen wire)
  then (None, d)
  else match GatewayPendingIdentity wire with
  | None => replay_refused e d
  | Some (id, claimedRuntime) =>
      if claimedRuntime != runtime then replay_refused e d
      else match (run_tx (GatewayPendingOrigin_ id runtime) (re_lookup e) d).1 with
      | Err _ => replay_refused e d
      | Ok o =>
          if go_RuntimeID o != runtime then replay_refused e d
          else match replay_commit runtime wire o with
          | None => replay_refused e d
          | Some (commit, config) =>
              let '(r, d) := run_tx (CommitGatewayPending commit (refresh_with (re_seal e) config)) (re_commit e) d in
              if negb (is_ok r && re_ctx_commit e) then replay_refused e d
              else
                match SignGatewayPendingReceipt
                        (mkReceipt (pc_AdmissionID commit) runtime (pc_Sequence commit) (pc_RecordID commit)
                           (pc_WireHash commit) uuid_Nil) (cp_gatewaySigningKey c) with
                | Some ack => if re_ctx_sign e then (Some ack, d) else replay_refused e d
                | None => replay_refused e d
                end
          end
      end
  end.

Definition cpSealGatewayPending (id owner runtime : uuid) (sequence : Z) (hash : string) (e : TxEnv) (ctx : bool)
    (d : CentralDb) : bool * CentralDb :=
  if slen (cp_gatewayPendingKey c) != 32 then (false, d)
  else
    let '(r, d) := run_tx (CloseGatewayPendingOrigin id owner runtime sequence hash) e d in
    (is_ok r && ctx, d).

(** ** Process-wide audit (gateway_global_audit.go) *)

Definition cpRegisterGatewayGlobalAudit (b : GatewayAuditBinding) (source : string) (e : TxEnv) (ctx : bool) (d : CentralDb) :
    option (GatewayAuditOrigin * string) * CentralDb :=
  if negb (ValidateAuditBinding b) || (slen source != 32) || (slen (cp_gatewayPendingKey c) != 32) ||
     (slen (cp_gatewaySigningKey c) != 64)
  then (None, d)
  else
    let '(r, d) := run_tx (RegisterGatewayAuditOrigin b source) e d in
    match r with
    | Err _ => (None, d)
    | Ok o =>
        if negb ctx || (gao_Binding o != b) || (gao_PublicKey o != source) || is_some (gao_ClosedAt o) then (None, d)
        else (pair o <$> GatewayPendingPublicKey (cp_gatewayPendingKey c), d)
    end.

Definition global_commit (b : GatewayAuditBinding) (wire : string) (o : GatewayAuditOrigin) : option GatewayAuditCommit :=
  match OpenGatewayPending wire (gao_PublicKey o) (cp_gatewayPendingKey c) with
  | None => None
  | Some r =>
      let h := pr_Header r in
      if (ph_AuditOrigin h != b) || (pr_Kind r != "global_audit") then None
      else match pr_Event r with
      | None => None
      | Some event =>
          let '(audit, valid) := GatewayGlobalAudit event in
          if negb valid then None
          else
            let created := time_of_unix (ph_CreatedAt h) in
            Some (mkAuditCommit b (ph_RecordID h) (ph_Sequence h) (ph_PreviousHash h) (GatewayPendingHash wire) created
              (mkAudit (ph_RecordID h) created (ae_ActorType audit) (ae_ActorID audit) (ae_Action audit) (ae_ResourceType audit)
                 (ae_ResourceID audit) (ph_RecordID h) (ae_SourceIPHash audit) (ae_Result audit) (ae_ReasonCode audit)
                 (ae_Changes audit) "" ""))
      end
  end.

Definition cpReplayGatewayGlobalAudit (runtime : uuid) (b : GatewayAuditBinding) (wire : string) (e : ReplayEnv) (d : CentralDb) :
    option string * CentralDb :=
  if negb (ValidateAuditBinding b) || (AuditRuntimeID b != runtime) || (slen (cp_gatewayPendingKey c) != 32) ||
     (slen (cp_gatewaySigningKey c) != 64) || (MaxGatewayPendingSize <? slen wire)
  then (None, d)
  else match (run_tx (GatewayAuditOrigin_ b) (re_lookup e) d).1 with
  | Err _ => replay_refused e d
  | Ok o =>
      if gao_Binding o != b then replay_refused e d
      else match global_commit b wire o with
      | None => replay_refused e d
      | Some commit =>
          let '(r, d) := run_tx (CommitGatewayGlobalAudit commit) (re_commit e) d in
          if negb (is_ok r && re_ctx_commit e) then replay_refused e d
          else
            match SignGatewayPendingReceipt
                    (mkReceipt uuid_Nil runtime (gc_Sequence commit) (gc_RecordID commit) (GatewayPendingHash wire) (OriginID b))
                    (cp_gatewaySigningKey c) with
            | Some ack => if re_ctx_sign e then (Some ack, d) else replay_refused e d
            | None => replay_refused e d
            end
      end
  end.

(** Both kinds of record arrive on one channel. *)
Definition cpReplayGatewayRecord (runtime : uuid) (wire : string) (e : ReplayEnv) (d : CentralDb) : option string * CentralDb :=
  match GatewayPendingAuditIdentity wire with
  | None => cpReplayGatewayPending runtime wire e d
  | Some b => cpReplayGatewayGlobalAudit runtime b wire e d
  end.

Definition cpSealGatewayGlobalAudit (b : GatewayAuditBinding) (sequence : Z) (hash : string) (e : TxEnv) (ctx : bool)
    (server_now : time) (d : CentralDb) : bool * CentralDb :=
  if negb (ValidateAuditBinding b) || (slen (cp_gatewayPendingKey c) != 32) then (false, d)
  else
    let '(r, d) := run_tx (CloseGatewayAuditOrigin b sequence hash server_now) e d in
    (is_ok r && ctx, d).
End Plane.
