(* ===== verification/StorageVault.v ===== *)
(** * StorageVault: storage credentials

    internal/server/storage.go, the lending of material in
    internal/server/backup_material.go, and their tables in
    internal/persistence/postgres/storage.go.  A call that reads, decides and then
    writes is split where other transactions can come between: the first half
    leaves what it holds in a [call], the second half continues from it. *)

From S2P Require Import Prelude GoStd Uuid Platform GatewaySession GatewayAuth AuditChain PendingRecord CentralTx CentralStore.
From S2P Require Import RcloneConfig StorageSecret CentralPlane.
Open Scope Z_scope.
Open Scope go_scope.
Open Scope central_scope.

(** ** The store (postgres/storage.go) *)

(** PostgreSQL's [lower], in the unique index over names. *)
Class Collation := { db_lower : string → string }.

Definition on_storage (f : Storage → option Storage) (d : CentralDb) : option CentralDb :=
  (λ g, set_storage g d) <$> f (cd_storage d).

Definition known_status (s : string) : bool := bool_decide (s ∈ ["UNTESTED"; "HEALTHY"; "DEGRADED"; "EXPIRED"; "DISABLED"]).
Definition known_provider (p : string) : bool := bool_decide (p ∈ [StorageOneDrive; StorageGDrive; StorageWebDAV]).

(** The runes of a valid UTF-8 string. *)
Fixpoint RuneCount (s : string) : Z :=
  match s with
  | EmptyString => 0
  | String c s => (if ((128 <=? byte_of c) && (byte_of c <=? 191))%N then 0 else 1) + RuneCount s
  end.

Section Store.
Context `{U : UuidPkg} `{P : Platform} `{C : AuditCodec} `{L : Collation}.

Definition credential_exists (c : StorageCredential) (d : CentralDb) : bool :=
  is_some (sg_credentials (cd_storage d) !! sc_ID c) ||
  existsb (λ x, db_lower (sc_Name x) == db_lower (sc_Name c)) (map_to_list (sg_credentials (cd_storage d))).*2.

(** The constraints of [storage_credentials] on a row. *)
Definition credential_check (c : StorageCredential) (g : Storage) : bool :=
  known_provider (sc_Provider c) && known_status (sc_Status c) && is_some (sg_secrets g !! sc_SecretRef c) &&
  (0 <? sc_SecretRevision c) && (0 <? sc_Revision c) && (1 <=? RuneCount (sc_Name c)) && (RuneCount (sc_Name c) <=? 128) &&
  remotePattern (sc_RemoteName c).

Definition put_credential (c : StorageCredential) (g : Storage) : option Storage :=
  if credential_check c g then Some (mkStorage (<[sc_ID c := c]> (sg_credentials g)) (sg_secrets g) (sg_revisions g)) else None.

Definition insert_credential (c : StorageCredential) (g : Storage) : option Storage :=
  put_credential (mkCredential (sc_ID c) (sc_Name c) (sc_Provider c) (sc_RemoteName c) (sc_Status c) (sc_SecretRef c)
    (sc_SecretRevision c) 1 (sc_CreatedAt c) (sc_CreatedAt c) None None "" None) g.

Definition update_credential (c : StorageCredential) (changed : bool) (g : Storage) : option Storage :=
  match sg_credentials g !! sc_ID c with
  | None => Some g
  | Some x =>
      put_credential (mkCredential (sc_ID x) (sc_Name x) (sc_Provider x) (sc_RemoteName x) (sc_Status c) (sc_SecretRef c)
        (sc_SecretRevision c) (sc_Revision x + 1) (sc_CreatedAt x) (sc_UpdatedAt c) (sc_LastTestOperationID x)
        (if changed then None else sc_LastTestedAt x) (if changed then "" else sc_LastTestResult x) (sc_LastRefreshedAt x)) g
  end.

(** [StorageCredentialSecret] *)
Definition StorageCredentialSecret (id : uuid) : Tx SecretEnvelope :=
  let* row := select (λ _ d,
    if bool_decide (map_Exists (λ _ x, x = id) (sg_revisions (cd_storage d))) then sg_secrets (cd_storage d) !! id else None) in
  match row with Some e => tret e | None => tfail ErrNotFound end.

Definition with_result (revision : Z) (c : StorageCredential) : StorageCredential :=
  mkCredential (sc_ID c) (sc_Name c) (sc_Provider c) (sc_RemoteName c) (sc_Status c) (sc_SecretRef c) (sc_SecretRevision c) revision
    (sc_CreatedAt c) (sc_UpdatedAt c) (sc_LastTestOperationID c) (sc_LastTestedAt c) (sc_LastTestResult c) (sc_LastRefreshedAt c).

Definition SaveStorageCredential (c : StorageCredential) (expectedRevision : Z) (secret : option SecretEnvelope) (audit : AuditEvent) :
    Tx StorageCredential :=
  let* _ :=
    if 0 <? expectedRevision then
      let* current := scanCredential (sc_ID c) in
      let* _ := match secret with Some _ => ensureNoBackupAdmission (sc_ID c) | None => tret () end in
      if sc_Revision current != expectedRevision then tfail ErrRevisionConflict else tret ()
    else tret () in
  let* _ := match secret with Some e => exec (λ _, on_storage (insertSecret e)) | None => tret () end in
  let* _ :=
    if expectedRevision == 0 then exec_unique ErrAlreadyExists (credential_exists c) (λ _, on_storage (insert_credential c))
    else exec (λ _, on_storage (update_credential c (is_some secret))) in
  let* _ :=
    match secret with
    | Some _ => exec (λ _, on_storage (insert_revision (sc_ID c) (sc_SecretRevision c) (sc_SecretRef c)))
    | None => tret ()
    end in
  let* _ := append_audit audit in
  let* _ := commit in
  tret (with_result (expectedRevision + 1) c).
End Store.

(** ** The control plane (server/storage.go) *)

Inductive storage_error :=
| ErrForbidden
| ErrValidation (field code : string)
| ErrStorageTargetChanged
| ErrIdentity
| ErrSeal
| ErrStore (e : dberr).

Definition RoleAdmin : string := "ADMIN".
Record User := mkUser { us_ID : uuid; us_Role : string }.

(** The transactions and readings of one call. *)
Record CallEnv := mkCallEnv {
  ce_denied : TxEnv;
  ce_read : TxEnv;
  ce_audit : TxEnv;
  ce_secret : TxEnv;
  ce_save : TxEnv;
  ce_id : option uuid;
  ce_clock : time;
  ce_seal : SealEnv }.

(** Between reading a credential and saving it. *)
Inductive call :=
| Replacing (read : StorageCredential) (next : Config) (actor : User) (meta : RequestMeta)
| Disabling (read : StorageCredential) (actor : User) (meta : RequestMeta)
| Lending (id owner : uuid) (hash : string) (credential : StorageCredential) (previous : Config).

Section Operations.
Context `{U : UuidPkg} `{P : Platform} `{C : AuditCodec} `{AE : AEAD} `{T : TokenCodec} `{W : NetPkg} `{L : Collation}.
Variable c : Plane.

(** [userAudit] (server/fleet.go) *)
Definition userAudit (now : time) (action resourceType : string) (resource actor : uuid) (meta : RequestMeta) (reason changes : string) :
    Tx AuditEvent :=
  let* event := auditEvent now action resourceType meta in
  tret (mkAudit (ae_ID event) (ae_OccurredAt event) ActorUser actor (ae_Action event) (ae_ResourceType event) resource
    (ae_RequestID event) (ae_SourceIPHash event) AuditSuccess reason changes "" "").

(** A refusal that must be audited first. *)
Definition denied {A} (action reason : string) (meta : RequestMeta) (cause : storage_error) (e : CallEnv) (d : CentralDb) :
    result storage_error A * CentralDb :=
  let '(r, d) := run_tx (RecordDenied (ce_clock e) action "STORAGE_CREDENTIAL" reason meta) (ce_denied e) d in
  (match r with Ok _ => Err cause | Err x => Err (ErrStore x) end, d).

Definition requireStorageAdmin (actor : User) (meta : RequestMeta) (e : CallEnv) (d : CentralDb) : result storage_error () * CentralDb :=
  if us_Role actor != RoleAdmin then denied "STORAGE_CREDENTIAL_CHANGE" "ROLE_DENIED" meta ErrForbidden e d
  else if slen (cp_masterKey c) != 32 then (Err (ErrStore ErrStorageUnavailable), d)
  else (Ok (), d).

Definition invalidStorageConfig {A} (meta : RequestMeta) (e : CallEnv) (d : CentralDb) : result storage_error A * CentralDb :=
  denied "STORAGE_CREDENTIAL_CHANGE" "CONFIG_REJECTED" meta (ErrValidation "rclone_config" "CONFIG_REJECTED") e d.

Definition stored_result {A} (r : result dberr A) : result storage_error A :=
  match r with Ok a => Ok a | Err x => Err (ErrStore x) end.

Definition with_secret (e : SecretEnvelope) (x : StorageCredential) : StorageCredential :=
  mkCredential (sc_ID x) (sc_Name x) (sc_Provider x) (sc_RemoteName x) (sc_Status x) (se_ID e) (sc_SecretRevision x) (sc_Revision x)
    (sc_CreatedAt x) (sc_UpdatedAt x) (sc_LastTestOperationID x) None "" (sc_LastRefreshedAt x).

Definition saveStorageConfig (credential : StorageCredential) (revision : Z) (config : Config) (actor : User) (meta : RequestMeta)
    (action : string) (e : CallEnv) (d : CentralDb) : result storage_error StorageCredential * CentralDb :=
  match sealStorageConfig (cp_masterKey c) credential config (ce_seal e) with
  | None => (Err ErrSeal, d)
  | Some envelope =>
      let credential := with_secret envelope credential in
      let '(r, d) := run_tx
        (let* audit := userAudit (ce_clock e) action "STORAGE_CREDENTIAL" (sc_ID credential) (us_ID actor) meta "SECRET_CHANGED"
           (secret_change (sc_SecretRevision credential)) in
         SaveStorageCredential credential revision (Some envelope) audit) (ce_save e) d in
      (stored_result r, d)
  end.

Definition valid_name (name : string) : bool :=
  ValidString name && (1 <=? RuneCount name) && (RuneCount name <=? 128) && negb (has_control name).

Definition CreateStorageCredential (name remote raw : string) (actor : User) (meta : RequestMeta) (e : CallEnv) (d : CentralDb) :
    result storage_error StorageCredential * CentralDb :=
  let '(admin, d) := requireStorageAdmin actor meta e d in
  match admin with
  | Err x => (Err x, d)
  | Ok _ =>
      let name := TrimSpace name in
      if negb (valid_name name) then (Err (ErrValidation "name" "INVALID_NAME"), d)
      else match ParseConfig raw remote with
      | None => invalidStorageConfig meta e d
      | Some config =>
          match ce_id e with
          | None => (Err ErrIdentity, d)
          | Some id =>
              let now := ce_clock e in
              saveStorageConfig (mkCredential id name (storageProvider config) remote "UNTESTED" uuid_Nil 1 1 now now None None "" None)
                0 config actor meta "STORAGE_CREDENTIAL_CREATE" e d
          end
      end
  end.

(** [ReplaceStorageCredential] until the secret is read. *)
Definition ReplaceStorageCredential_read (id : uuid) (revision : Z) (raw : string) (actor : User) (meta : RequestMeta) (e : CallEnv)
    (d : CentralDb) : result storage_error call * CentralDb :=
  let '(admin, d) := requireStorageAdmin actor meta e d in
  match admin with
  | Err x => (Err x, d)
  | Ok _ =>
      match (run_tx (scanCredential id) (ce_read e) d).1 with
      | Err x => (Err (ErrStore x), d)
      | Ok credential =>
          if revision != sc_Revision credential then (Err (ErrStore ErrRevisionConflict), d)
          else if sc_Status credential == "DISABLED" then (Err (ErrStore ErrCredentialDisabled), d)
          else match ParseConfig raw (sc_RemoteName credential) with
          | None => invalidStorageConfig meta e d
          | Some next =>
              let '(r, d) := run_tx
                (let* audit := userAudit (ce_clock e) "STORAGE_SECRET_ACCESS" "STORAGE_CREDENTIAL" id (us_ID actor) meta
                   "VALIDATE_REPLACEMENT" "{}" in
                 RecordAudit audit) (ce_audit e) d in
              (match r with Ok _ => Ok (Replacing credential next actor meta) | Err x => Err (ErrStore x) end, d)
          end
      end
  end.

Definition with_status (status : string) (now : time) (x : StorageCredential) : StorageCredential :=
  mkCredential (sc_ID x) (sc_Name x) (sc_Provider x) (sc_RemoteName x) status (sc_SecretRef x) (sc_SecretRevision x) (sc_Revision x)
    (sc_CreatedAt x) now (sc_LastTestOperationID x) (sc_LastTestedAt x) (sc_LastTestResult x) (sc_LastRefreshedAt x).

(** The rest of [ReplaceStorageCredential]. *)
Definition ReplaceStorageCredential_save (credential : StorageCredential) (next : Config) (actor : User) (meta : RequestMeta) (e : CallEnv)
    (d : CentralDb) : result storage_error StorageCredential * CentralDb :=
  match (run_tx (StorageCredentialSecret (sc_SecretRef credential)) (ce_secret e) d).1 with
  | Err x => (Err (ErrStore x), d)
  | Ok envelope =>
      match openConfig (cp_masterKey c) credential envelope with
      | None => (Err (ErrStore ErrStorageUnavailable), d)
      | Some previous =>
          if negb (SameTarget previous next)
          then denied "STORAGE_CREDENTIAL_REPLACE" "STORAGE_TARGET_CHANGED" meta ErrStorageTargetChanged e d
          else
            saveStorageConfig
              (with_status "UNTESTED" (ce_clock e) (with_revision (sc_SecretRevision credential + 1) (ce_clock e) credential))
              (sc_Revision credential) next actor meta "STORAGE_CREDENTIAL_REPLACE" e d
      end
  end.

Definition DisableStorageCredential_read (id : uuid) (revision : Z) (actor : User) (meta : RequestMeta) (e : CallEnv) (d : CentralDb) :
    result storage_error call * CentralDb :=
  let '(admin, d) := requireStorageAdmin actor meta e d in
  match admin with
  | Err x => (Err x, d)
  | Ok _ =>
      match (run_tx (scanCredential id) (ce_read e) d).1 with
      | Err x => (Err (ErrStore x), d)
      | Ok credential =>
          if revision != sc_Revision credential then (Err (ErrStore ErrRevisionConflict), d)
          else (Ok (Disabling credential actor meta), d)
      end
  end.

Definition DisableStorageCredential_save (credential : StorageCredential) (actor : User) (meta : RequestMeta) (e : CallEnv) (d : CentralDb) :
    result storage_error StorageCredential * CentralDb :=
  let '(r, d) := run_tx
    (let* audit := userAudit (ce_clock e) "STORAGE_CREDENTIAL_DISABLE" "STORAGE_CREDENTIAL" (sc_ID credential) (us_ID actor) meta
       "CREDENTIAL_DISABLED" "{}" in
     SaveStorageCredential (with_status "DISABLED" (ce_clock e) credential) (sc_Revision credential) None audit) (ce_save e) d in
  (stored_result r, d).

(** ** Lending (server/backup_material.go) *)

(** [WithBackupMaterial] until [run] is called. *)
Definition WithBackupMaterial (id owner : uuid) (e : TxEnv) (d : CentralDb) : option call * CentralDb :=
  if (slen (cp_masterKey c) != 32) || (cp_gatewayPublicURL c == "") then (None, d)
  else
    let hash := credentialConfigurationHash c in
    let '(r, d) := run_tx (BackupAdmissionMaterial id owner hash) e d in
    (match r with
     | Err _ => None
     | Ok (_, credential, envelope) => Lending id owner hash credential <$> openConfig (cp_masterKey c) credential envelope
     end, d).

Inductive persist_result := Persisted (lent : call) | Unchanged | ErrConfigChanged | ErrRefreshPersist.

(** The closure [persist]; [live] is that the loan is neither closed nor past its
    deadline. *)
Definition persist (id owner : uuid) (hash : string) (credential : StorageCredential) (previous : Config) (nextRaw : string) (live : bool)
    (env : SealEnv) (e : TxEnv) (d : CentralDb) : persist_result * CentralDb :=
  if negb live then (ErrRefreshPersist, d)
  else match ParseConfig nextRaw (sc_RemoteName credential) with
  | None => (ErrConfigChanged, d)
  | Some next =>
      if negb (SameExceptToken previous next) then (ErrConfigChanged, d)
      else if Bytes previous == Bytes next then (Unchanged, d)
      else match sealStorageConfig (cp_masterKey c) (with_revision (sc_SecretRevision credential + 1) (sl_clock env) credential) next env with
      | None => (ErrRefreshPersist, d)
      | Some sealed =>
          let '(r, d) := run_tx (RefreshBackupAdmission id owner hash (sc_SecretRevision credential) sealed) e d in
          (match r with Ok saved => Persisted (Lending id owner hash saved next) | Err _ => ErrRefreshPersist end, d)
      end
  end.
End Operations.
