(* ===== verification/CentralHistory.v ===== *)
(** * CentralHistory: histories of the control plane's Gateway state

    Every sequence of calls and other transactions, with failing statements,
    lost commits and refused requests, from a database without Gateways. *)

From S2P Require Import Prelude GoStd Uuid Platform GatewaySession GatewayAuth AuditChain PendingRecord CentralTx CentralStore.
From S2P Require Import RcloneConfig StorageSecret.
From S2P Require Import CentralTrace CentralRefine CentralPlane.
Open Scope Z_scope.
Open Scope go_scope.
Open Scope central_scope.

Section History.
Context `{U : UuidPkg} `{P : Platform} `{E : Ed25519} `{C : AuditCodec} `{S : StatementCodec} `{N : PendingCodec}.
Context `{AE : AEAD} `{T : TokenCodec} `{W : NetPkg}.
Variable c : Plane.

Inductive central_event :=
| Reserve (e : TxEnv) (r : BackupAdmissionRequest)
| CheckAdmission (e : TxEnv) (id owner : uuid) (hash : string)
| Release (e : TxEnv) (id owner : uuid)
| Decide (e : TxEnv) (ctx : bool) (clock1 clock2 : time) (r : GatewayDecisionRequest)
| Register (e : TxEnv) (ctx : bool) (binding : GatewayAuthorizationBinding) (source : string)
| Replay (e : ReplayEnv) (runtime : uuid) (wire : string)
| SealOrigin (e : TxEnv) (ctx : bool) (id owner runtime : uuid) (sequence : Z) (hash : string)
| RecoverAdmission (e : TxEnv) (id owner runtime : uuid) (source : string)
| ReadMaterial (e : TxEnv) (id owner : uuid) (hash : string)
| RefreshSecret (e : TxEnv) (id owner : uuid) (hash : string) (expected : Z) (secret : SecretEnvelope)
| DeliverMaterial (e : TxEnv) (id owner runtime : uuid) (source hash challenge : string)
| RegisterAudit (e : TxEnv) (ctx : bool) (b : GatewayAuditBinding) (source : string)
| SealAudit (e : TxEnv) (ctx : bool) (now : time) (b : GatewayAuditBinding) (sequence : Z) (hash : string)
(** Other transactions: hosts, repositories, credentials, jobs, and their audit events. *)
| Elsewhere (fleet : Fleet) (storage : Storage) (audits : list (option uuid * bool * AuditEvent)).

Definition elsewhere (fleet : Fleet) (storage : Storage) (audits : list (option uuid * bool * AuditEvent)) (d : CentralDb) :
    CentralDb :=
  mkCentral fleet storage (cd_admissions d) (cd_decisions d) (cd_origins d) (cd_records d) (cd_material d)
    (cd_audit_origins d) (cd_audit_records d) (append_all audits (cd_audit d)) (cd_outbox d).

Definition central_apply (x : central_event) (d : CentralDb) : CentralDb :=
  match x with
  | Reserve e r => (run_tx (ReserveBackupAdmission r) e d).2
  | CheckAdmission e id owner hash => (run_tx (CheckBackupAdmission id owner hash) e d).2
  | Release e id owner => (run_tx (ReleaseBackupAdmission id owner) e d).2
  | Decide e ctx clock1 clock2 r => (cpDecideGatewayAuthorization c r e ctx clock1 clock2 d).2
  | Register e ctx binding source => (cpRegisterGatewayPending c binding source e ctx d).2
  | Replay e runtime wire => (cpReplayGatewayRecord c runtime wire e d).2
  | SealOrigin e ctx id owner runtime sequence hash => (cpSealGatewayPending c id owner runtime sequence hash e ctx d).2
  | RecoverAdmission e id owner runtime source => (run_tx (RecoverGatewayAdmission id owner runtime source) e d).2
  | ReadMaterial e id owner hash => (run_tx (BackupAdmissionMaterial id owner hash) e d).2
  | RefreshSecret e id owner hash expected secret => (run_tx (RefreshBackupAdmission id owner hash expected secret) e d).2
  | DeliverMaterial e id owner runtime source hash challenge =>
      (run_tx (GatewayDeliveryMaterial id owner runtime source hash challenge) e d).2
  | RegisterAudit e ctx b source => (cpRegisterGatewayGlobalAudit c b source e ctx d).2
  | SealAudit e ctx now b sequence hash => (cpSealGatewayGlobalAudit c b sequence hash e ctx now d).2
  | Elsewhere fleet storage audits => elsewhere fleet storage audits d
  end.

Definition central_run (xs : list central_event) (d : CentralDb) : CentralDb := foldl (λ d x, central_apply x d) d xs.

(** A database before the first Gateway. *)
Definition no_gateways (fleet : Fleet) (storage : Storage) : CentralDb :=
  mkCentral fleet storage ∅ [] ∅ [] ∅ ∅ [] [] [].

(** ** Refinement *)

Section Refinement.
Context {HU : UuidLaws}.

Lemma run_changes {A} (m : Tx A) e d :
  (∀ d, central_ok d → wp m (tracks d) d d) → central_ok d → changes d (run_tx m e d).2.
Proof using Type. intros Hm Hok. apply (wp_run m (λ _ d', changes d d')). eapply wp_mono; [|by apply Hm]. by intros r w c' []. Qed.

Lemma denied_changes now e d : central_ok d → changes d (run_tx (RecordGatewayReplayDenied now) e d).2.
Proof using Type.
  intros Hok. apply run_changes; [|done]. clear Hok d. intros d Hok. assert (Hd : changes d d) by apply rtc_refl.
  unfold RecordGatewayReplayDenied, RecordDenied, auditEvent, RecordAudit.
  repeat wp_head; try (by split).
  all: apply wp_append_audit; [by split|]; intros w' Hq _; pose proof (changes_quiet _ _ _ Hd Hq); apply wp_commit; by split.
Qed.

Lemma refused_changes e d d' : central_ok d → changes d d' → changes d (replay_refused e d').2.
Proof using Type. intros Hok Hd. etrans; [done|]. apply denied_changes. by eapply changes_ok. Qed.

Lemma Open_valid wire source private r :
  OpenGatewayPending wire source private = Some r →
  InspectGatewayPending wire source = Some (pr_Header r) ∧ ValidateRecord r = true.
Proof using Type.
  unfold OpenGatewayPending, InspectGatewayPending. destruct (verifyPendingWire wire source) as [w|]; [|done].
  destruct (GatewayPendingPublicKey _); [|done]. destruct (OpenAnonymous _ _ _); [|done].
  destruct (UnmarshalPending _) as [r'|]; [|done]. case (_ || _) eqn:Hb; [done|]. case (MarshalPending r' != _); [done|].
  intros [= ->]. apply orb_false_iff in Hb as [Hh Hb]. bool_prop. cbn. by rewrite Hh.
Qed.

Lemma Open_record_id wire source private r :
  OpenGatewayPending wire source private = Some r → valid_v7 (ph_RecordID (pr_Header r)) = true.
Proof using Type.
  intros [_ Hb]%Open_valid. unfold ValidateRecord in Hb. apply andb_true_iff in Hb as [Hb _].
  unfold ValidateHeader in Hb. bool_prop. done.
Qed.

(** What a replay commits names its own audit event. *)
Lemma replay_commit_inv runtime wire o commit config :
  replay_commit c runtime wire o = Some (commit, config) →
  ∃ r, OpenGatewayPending wire (go_PublicKey o) (cp_gatewayPendingKey c) = Some r ∧
    ph_Binding (pr_Header r) = pendingBinding o ∧ valid_v7 (pc_RecordID commit) = true ∧
    (∀ e, pc_Audit commit = Some e → ae_ID e = pc_RecordID commit) ∧
    pc_AdmissionID commit = AdmissionID (ph_Binding (pr_Header r)) ∧ pc_Owner commit = Owner (ph_Binding (pr_Header r)) ∧
    pc_RuntimeID commit = runtime ∧ pc_RecordID commit = ph_RecordID (pr_Header r) ∧
    pc_Sequence commit = ph_Sequence (pr_Header r) ∧ pc_PreviousHash commit = ph_PreviousHash (pr_Header r) ∧
    pc_WireHash commit = GatewayPendingHash wire ∧ pc_Kind commit = pr_Kind r.
Proof using Type.
  unfold replay_commit. destruct (OpenGatewayPending _ _ _) as [r|] eqn:Ho; [|done].
  pose proof (Open_record_id _ _ _ _ Ho) as Hv.
  cbv zeta. destruct (_ != _) eqn:Hb; [done|]. bool_prop.
  destruct (pr_Kind r == "audit").
  - destruct (pr_Event r) as [event|]; [|done]. destruct (negb (event_route_ok _ _)); [done|].
    destruct (GatewayAudit event) as [audit valid]. destruct (negb valid); [done|]. intros [= <- <-]. exists r. cbn.
    split_and!; try done. by intros e [= <-].
  - intros [= <- <-]. exists r. cbn. by split_and!.
Qed.

Lemma Replay_changes runtime wire e d : central_ok d → changes d (cpReplayGatewayPending c runtime wire e d).2.
Proof using HU.
  intros Hok. assert (Hd : changes d d) by apply rtc_refl. unfold cpReplayGatewayPending. destruct (_ || _); [done|].
  destruct (GatewayPendingIdentity wire) as [[id claimed]|]; [|by apply refused_changes].
  destruct (claimed != runtime); [by apply refused_changes|].
  destruct (run_tx (GatewayPendingOrigin_ id runtime) _ d).1 as [o|x]; [|by apply refused_changes].
  destruct (go_RuntimeID o != runtime); [by apply refused_changes|].
  destruct (replay_commit c runtime wire o) as [[commit config]|] eqn:Hc; [|by apply refused_changes].
  apply replay_commit_inv in Hc as (r & _ & _ & Hv & Hid & _).
  pose proof (run_changes (CommitGatewayPending commit (refresh_with c (re_seal e) config)) (re_commit e) d) as Hrun.
  destruct (run_tx (CommitGatewayPending commit (refresh_with c (re_seal e) config)) (re_commit e) d) as [res d1]. cbn in Hrun.
  assert (H1 : changes d d1).
  { apply Hrun; [|done]. intros d' Hok'. apply Commit_tracks; [done|done|]. by apply valid_v7_not_nil. }
  destruct (negb _); [by apply refused_changes|]. destruct (SignGatewayPendingReceipt _ _); [|by apply refused_changes].
  destruct (re_ctx_sign e); [done|by apply refused_changes].
Qed.

Lemma global_commit_inv b wire o commit :
  global_commit c b wire o = Some commit → gc_Binding commit = b ∧ valid_v7 (gc_RecordID commit) = true.
Proof using Type.
  unfold global_commit. destruct (OpenGatewayPending _ _ _) as [r|] eqn:Ho; [|done].
  pose proof (Open_record_id _ _ _ _ Ho) as Hv.
  cbv zeta. destruct (_ || _); [done|]. destruct (pr_Event r) as [event|]; [|done].
  destruct (GatewayGlobalAudit event) as [audit valid]. destruct (negb valid); [done|]. by intros [= <-].
Qed.

Lemma ReplayGlobal_changes runtime b wire e d :
  central_ok d → changes d (cpReplayGatewayGlobalAudit c runtime b wire e d).2.
Proof using HU.
  intros Hok. assert (Hd : changes d d) by apply rtc_refl. unfold cpReplayGatewayGlobalAudit. destruct (_ || _); [done|].
  destruct (run_tx (GatewayAuditOrigin_ b) _ d).1 as [o|x]; [|by apply refused_changes].
  destruct (gao_Binding o != b); [by apply refused_changes|].
  destruct (global_commit c b wire o) as [commit|] eqn:Hc; [|by apply refused_changes].
  apply global_commit_inv in Hc as [_ Hv].
  pose proof (run_changes (CommitGatewayGlobalAudit commit) (re_commit e) d) as Hrun.
  destruct (run_tx (CommitGatewayGlobalAudit commit) (re_commit e) d) as [res d1]. cbn in Hrun.
  assert (H1 : changes d d1).
  { apply Hrun; [|done]. intros d' Hok'. apply CommitAudit_tracks; [done|]. by apply valid_v7_not_nil. }
  destruct (negb _); [by apply refused_changes|]. destruct (SignGatewayPendingReceipt _ _); [|by apply refused_changes].
  destruct (re_ctx_sign e); [done|by apply refused_changes].
Qed.

(** A call that runs one transaction and then checks what it returned. *)
Lemma call_changes {A B} (m : Tx A) (k : result dberr A → CentralDb → B * CentralDb) e d :
  (∀ d, central_ok d → wp m (tracks d) d d) → (∀ r d', (k r d').2 = d') → central_ok d →
  changes d (let '(r, d') := run_tx m e d in k r d').2.
Proof using Type.
  intros Hm Hk Hok. pose proof (run_changes m e d Hm Hok) as H. destruct (run_tx m e d) as [r d']. by rewrite Hk.
Qed.

Lemma elsewhere_quiet fleet storage audits d : quiet d (elsewhere fleet storage audits d).
Proof using Type.
  split; try done; cbn.
  - apply append_all_prefix.
  - by apply append_all_linked.
Qed.

(** Every event of a history is a sequence of the steps of the specification. *)
Lemma event_changes x d : central_ok d → changes d (central_apply x d).
Proof using HU.
  intros Hok. destruct x; cbn [central_apply]; try (apply run_changes; [intros; by auto with central|done]).
  - unfold cpDecideGatewayAuthorization. cbv zeta. destruct (_ || _); [apply rtc_refl|].
    apply call_changes; [intros; by auto with central| |done]. intros [g|x] d'; [|done]. by destruct (_ || _).
  - unfold cpRegisterGatewayPending. destruct (_ || _); [apply rtc_refl|].
    apply call_changes; [intros; by auto with central| |done]. intros [g|x] d'; [|done]. by destruct (_ || _).
  - unfold cpReplayGatewayRecord. destruct (GatewayPendingAuditIdentity _); [by apply ReplayGlobal_changes|by apply Replay_changes].
  - unfold cpSealGatewayPending. destruct (_ != _); [apply rtc_refl|]. apply call_changes; [intros; by auto with central|done|done].
  - unfold cpRegisterGatewayGlobalAudit. destruct (_ || _); [apply rtc_refl|].
    apply call_changes; [intros; by auto with central| |done]. intros [g|x] d'; [|done]. by destruct (_ || _).
  - unfold cpSealGatewayGlobalAudit. destruct (_ || _); [apply rtc_refl|]. apply call_changes; [intros; by auto with central|done|done].
  - eapply rtc_once, step_quiet, elsewhere_quiet.
Qed.

Lemma run_central xs d : central_ok d → changes d (central_run xs d).
Proof using HU.
  revert d. induction xs as [|x xs IH]; intros d Hok; [apply rtc_refl|]. pose proof (event_changes x d Hok) as Hx.
  etrans; [exact Hx|]. apply IH. by eapply changes_ok.
Qed.

Lemma no_gateways_ok fleet storage : central_ok (no_gateways fleet storage).
Proof using Type.
  split; split; cbn; try done; try apply linked_nil; try (by intros ? ?; rewrite lookup_empty); try (by apply NoDup_nil); try (by intros ? ?%not_elem_of_nil).
  intros i j a b [H _]. cbn in H. by rewrite lookup_empty in H.
Qed.

Lemma central_reachable_ok fleet storage xs : central_ok (central_run xs (no_gateways fleet storage)).
Proof using HU. eapply changes_ok; [apply run_central|]; apply no_gateways_ok. Qed.
End Refinement.
End History.
