(* ===== verification/CentralSafety.v ===== *)
(** * CentralSafety: what the control plane guarantees

    Of every history of calls, failures included: one admission at a time holds
    a storage credential, decisions and records are gapless histories that are
    only extended, a released admission is final, and a signed reply is backed
    by what is committed. *)

From S2P Require Import Prelude GoStd Uuid Platform GatewaySession GatewayAuth AuditChain PendingRecord CentralTx CentralStore.
From S2P Require Import RcloneConfig StorageSecret.
From S2P Require Import CentralTrace CentralGrowth CentralRefine CentralPlane CentralHistory.
Open Scope Z_scope.
Open Scope go_scope.
Open Scope central_scope.

(** ** Histories *)

Lemma numbered_unique {A} (key : A → Z) n l x y : numbered key n l → x ∈ l → y ∈ l → key x = key y → x = y.
Proof.
  intros Hn [i Hi]%list_elem_of_lookup_1 [j Hj]%list_elem_of_lookup_1 Hk.
  pose proof (numbered_lookup _ _ _ _ _ Hn Hi). pose proof (numbered_lookup _ _ _ _ _ Hn Hj).
  assert (i = j) as -> by lia. congruence.
Qed.

Lemma follows_after p l j s :
  follows_all (Some p) l → l !! j = Some s →
  dr_Revoked p = false ∧ dr_IssuedAt p ≤ dr_IssuedAt s ∧ dr_RuntimeID s = dr_RuntimeID p.
Proof.
  revert p j. induction l as [|x l IH]; intros p j; [done|]. cbn [follows_all follows]. intros [(_ & Hr & Hk & Hi) Hl] Hj.
  destruct j as [|j]; cbn in Hj; [by simplify_eq|]. destruct (IH x j Hl Hj) as (_ & Hi' & Hr').
  split; [done|]. split; [lia|congruence].
Qed.

Lemma follows_between prev l i j r s :
  follows_all prev l → l !! i = Some r → l !! j = Some s → (i < j)%nat →
  dr_Revoked r = false ∧ dr_IssuedAt r ≤ dr_IssuedAt s ∧ dr_RuntimeID s = dr_RuntimeID r.
Proof.
  revert prev i j. induction l as [|x l IH]; intros prev i j; [done|]. cbn [follows_all]. intros [_ Hl] Hi Hj Hij.
  destruct j as [|j]; [lia|]. destruct i as [|i]; cbn in Hi, Hj.
  - simplify_eq. by apply (follows_after r l j).
  - apply (IH (Some x) i j); [done|done|done|lia].
Qed.

Lemma revoked_for_elem id d :
  revoked_for id d = true ↔ ∃ r, r ∈ decisions_for id d ∧ dr_Revoked r = true.
Proof.
  unfold revoked_for, decisions_for. rewrite existsb_exists. split.
  - intros (r & Hin & Hr). bool_prop. exists r. split; [|done]. apply list_elem_of_filter. split; [by apply bool_decide_eq_true|].
    by apply list_elem_of_In.
  - intros (r & [Hid Hin]%list_elem_of_filter & Hr). exists r. split; [by apply list_elem_of_In|]. by rewrite Hid, Hr.
Qed.

Section Safety.
Context `{U : UuidPkg} `{P : Platform} `{E : Ed25519} `{C : AuditCodec} `{S : StatementCodec} `{N : PendingCodec}.
Context `{AE : AEAD} `{T : TokenCodec} `{W : NetPkg}.
Context {HU : UuidLaws}.
Variable c : Plane.

(** A database some history of calls leads to. *)
Definition central_reachable (d : CentralDb) : Prop :=
  ∃ fleet storage xs, d = central_run c xs (no_gateways fleet storage).

Lemma reachable_central d : central_reachable d → central_ok d.
Proof using HU. intros (fleet & storage & xs & ->). by apply central_reachable_ok. Qed.

Lemma reachable_later d ys : central_reachable d → changes d (central_run c ys d).
Proof using HU. intros Hd. by apply run_central, reachable_central. Qed.

Lemma revoked_is_last id d r :
  decisions_ok d → r ∈ decisions_for id d → dr_Revoked r = true → latest_of id d = Some r.
Proof using Type.
  intros Hd Hr Hk. rewrite latest_of_last by done. apply list_elem_of_lookup_1 in Hr as [i Hi]. rewrite last_lookup.
  destruct (decide (i = pred (length (decisions_for id d)))) as [->|Hne]; [done|].
  pose proof (lookup_lt_Some _ _ _ Hi) as Hlt.
  destruct (lookup_lt_is_Some_2 (decisions_for id d) (pred (length (decisions_for id d)))) as [s Hs]; [lia|].
  destruct (follows_between _ _ _ _ _ _ (do_history _ Hd id) Hi Hs) as [Hf _]; [lia|congruence].
Qed.

(** C31: the stores implement their specification. Whatever calls, failing
    statements, lost commits and other transactions follow each other, the
    Gateway's tables go through the changes of [step] only: admissions under the
    fence, decisions that follow the latest one within their admission's life,
    origins of a granted runtime, gapless records with their audited events, and
    releases with nothing outstanding (at which reading of the clock no grant was
    alive, the specification leaves open). *)
Theorem central_refines_spec (d : CentralDb) (ys : list central_event) :
  central_reachable d → changes d (central_run c ys d).
Proof using HU. intros Hd. by apply reachable_later. Qed.

(** C11: one admission per storage credential. However calls, failures and other
    transactions interleave, two admissions that are both unreleased never name
    the same storage credential. *)
Theorem fence_exclusive (d : CentralDb) (i j : uuid) (a b : BackupAdmission) :
  central_reachable d → unreleased i a d → unreleased j b d → ba_StorageCredentialID a = ba_StorageCredentialID b → i = j.
Proof using HU. intros Hd. apply fo_single, co_fence, reachable_central, Hd. Qed.

(** C5: the decisions of an admission are one history. They are numbered from 1
    without gaps, all for one runtime, issued at times that never decrease, and
    nothing follows a revocation; a grant ends after its issue, within 30 days
    of it, and not after its admission. *)
Theorem decision_history (d : CentralDb) (id : uuid) (i : nat) (r : DecisionRow) :
  central_reachable d → decisions_for id d !! i = Some r →
  dr_Revision r = Z.of_nat i + 1 ∧
  (∀ j s, decisions_for id d !! j = Some s → (i < j)%nat →
     dr_Revoked r = false ∧ dr_IssuedAt r ≤ dr_IssuedAt s ∧ dr_RuntimeID s = dr_RuntimeID r) ∧
  (∀ x, dr_ExpiresAt r = Some x → dr_IssuedAt r < x ≤ dr_IssuedAt r + 30 * 24 * hour ∧
     ∃ a, cd_admissions d !! id = Some a ∧ x ≤ ba_ExpiresAt a).
Proof using HU.
  intros [_ Hd _ _ _]%reachable_central Hi. split_and!.
  - pose proof (follows_numbered _ None (do_history _ Hd id)) as Hn. by rewrite (numbered_lookup _ _ _ _ _ Hn Hi).
  - intros j s Hj. by eapply follows_between; [apply Hd| |].
  - intros x Hx. apply list_elem_of_lookup_2, list_elem_of_filter in Hi as [Hid Hin]. bool_prop.
    destruct (do_bounds _ Hd r Hin) as (Hc & a & Ha & Hb). rewrite Hid in Ha. split; [|eauto].
    unfold decision_check in Hc. rewrite Hx in Hc. bool_prop. unfold hour, minute, second in *. lia.
Qed.

(** What Gateways reported is recorded without gaps. The records of an
    origin are numbered from 1 without gaps, no record identifier is stored
    twice, the event of every audit record is in the audit chain, and that chain is
    linked, and verifies when the column kept the values of the changes. *)
Theorem record_history (d : CentralDb) :
  central_reachable d →
  (∀ id runtime i r, records_for id runtime d !! i = Some r → rr_Sequence r = Z.of_nat i + 1) ∧
  (∀ b i r, audit_records_for b d !! i = Some r → ad_Sequence r = Z.of_nat i + 1) ∧
  NoDup (rr_RecordID <$> cd_records d) ∧ NoDup (ad_RecordID <$> cd_audit_records d) ∧
  (∀ r, r ∈ cd_records d → rr_Kind r = "audit" → audited (rr_RecordID r) d) ∧
  (∀ r, r ∈ cd_audit_records d → audited (ad_RecordID r) d) ∧
  linked (cd_audit d) ∧ (Forall kept_changes (cd_audit d) → VerifyAuditChain (cd_audit d) = true).
Proof using HU.
  intros [_ _ _ [Hn Hi _ Ha] [Gn Gi Ga Gc]]%reachable_central. split_and!; try done; [..|by apply linked_verifies].
  - intros id runtime i r Hr. by rewrite (numbered_lookup _ _ _ _ _ (Hn id runtime) Hr).
  - intros b i r Hr. by rewrite (numbered_lookup _ _ _ _ _ (Gn b) Hr).
Qed.

(** ** Finality *)

(** Everything the database holds about an admission. *)
Definition same_admission (id : uuid) (d d' : CentralDb) : Prop :=
  cd_admissions d' !! id = cd_admissions d !! id ∧ decisions_for id d' = decisions_for id d ∧
  cd_origins d' !! id = cd_origins d !! id ∧ ∀ runtime, records_for id runtime d' = records_for id runtime d.

Lemma step_released d d' id a :
  step d d' → central_ok d → cd_admissions d !! id = Some a → ba_ReleasedAt a ≠ None → same_admission id d d'.
Proof using Type.
  intros Hs Hok Ha Hr. pose proof (oo_released _ (co_origins _ Hok) _ _ Ha Hr) as Hno.
  assert (Hu : ∀ x, ¬ unreleased id x d) by (intros x [Hx Hn]; congruence).
  destruct Hs as [d' Hq|x Hx|r x Hx|j x o Hx Hn|r x o Hx|j o t Ho Hc|j x t Hx| | | ]; try done; unfold same_admission, decisions_for, records_for; cbn.
  - by rewrite (qu_admissions _ _ Hq), (qu_decisions _ _ Hq), (qu_origins _ _ Hq), (qu_records _ _ Hq).
  - split_and!; try done. apply lookup_insert_ne. congruence.
  - split_and!; try done. rewrite filter_snoc, decide_False, app_nil_r; [done|]. intros Hb. bool_prop. subst id. by eapply Hu.
  - split_and!; try done. apply lookup_insert_ne. intros ->. by eapply Hu.
  - split_and!; try done. intros runtime. rewrite filter_snoc, decide_False, app_nil_r; [done|]. unfold of_origin. intros Hb. bool_prop. subst id.
    by eapply Hu.
  - split_and!; try done. apply lookup_insert_ne. intros ->. apply Hno. by exists o.
  - split_and!; try done. apply lookup_insert_ne. intros ->. by eapply Hu.
Qed.

Lemma same_admission_trans id d1 d2 d3 : same_admission id d1 d2 → same_admission id d2 d3 → same_admission id d1 d3.
Proof using Type.
  intros (A1 & D1 & O1 & R1) (A2 & D2 & O2 & R2). unfold same_admission.
  rewrite A2, D2, O2. split_and!; try done. intros runtime. by rewrite R2.
Qed.

Lemma changes_released d d' id a :
  changes d d' → central_ok d → cd_admissions d !! id = Some a → ba_ReleasedAt a ≠ None → same_admission id d d'.
Proof using Type.
  induction 1 as [d|d1 d2 d3 Hs _ IH]; intros Hok Ha Hr; [by split_and!|].
  pose proof (step_released _ _ _ _ Hs Hok Ha Hr) as H12. eapply same_admission_trans; [done|].
  apply IH; [by eapply step_ok| |done]. by destruct H12 as [-> _].
Qed.

(** C10: release is final. Once an admission is released, no later call changes
    it, adds or alters one of its decisions or records, or reopens its origin. *)
Theorem released_is_final (d : CentralDb) (ys : list central_event) (id : uuid) (a : BackupAdmission) :
  central_reachable d → cd_admissions d !! id = Some a → ba_ReleasedAt a ≠ None →
  same_admission id d (central_run c ys d).
Proof using HU.
  intros Hd. apply changes_released; [by apply reachable_later|by apply reachable_central].
Qed.

(** Nothing recorded is altered. Between any two moments, admissions stay
    as they are but for being released once, origins but for being closed once,
    and the tables of decisions, records and audit events only grow at the end. *)
Theorem central_append_only (d : CentralDb) (ys : list central_event) :
  central_reachable d → grows d (central_run c ys d).
Proof using HU. intros Hd. by apply changes_grows, reachable_later. Qed.
End Safety.
