(* ===== verification/CentralReplies.v ===== *)
(** * CentralReplies: what a reply of the control plane promises

    A signed receipt, a signed decision and a release, against the database they
    leave; and that a call whose reply was lost can be repeated. *)

From S2P Require Import Prelude GoStd Uuid Platform GatewaySession GatewayAuth AuditChain PendingRecord CentralTx CentralStore.
From S2P Require Import RcloneConfig StorageSecret.
From S2P Require Import CentralTrace CentralGrowth CentralRefine CentralPlane CentralHistory CentralSafety.
Open Scope Z_scope.
Open Scope go_scope.
Open Scope central_scope.

(** ** Transactions that meet no failure *)

Definition no_faults (e : TxEnv) : Prop := ∀ n, tx_fault e n = false.
Definition commits (e : TxEnv) : Prop := ∀ n, tx_commit e n = Committed.

Section Healthy.
Context (e : TxEnv) (He : no_faults e).

Lemma select_healthy {A} (f : time → CentralDb → A) w k n :
  select f e (mkTx w k false n) = (Ok (f (tx_clock e n) w), mkTx w k false (S n)).
Proof using He. unfold select, stmt. cbn. by rewrite He. Qed.

Lemma select_row_healthy {A} (f : time → CentralDb → option A) w k n a :
  f (tx_clock e n) w = Some a → select_row f e (mkTx w k false n) = (Ok a, mkTx w k false (S n)).
Proof using He. intros Hf. unfold select_row, tbind. by rewrite select_healthy, Hf. Qed.

Lemma commit_healthy w k n : commits e → commit e (mkTx w k false n) = (Ok (), mkTx w w false (S n)).
Proof using Type. intros Hc. unfold commit. cbn. by rewrite Hc. Qed.
End Healthy.

Section Replies.
Context `{U : UuidPkg} `{P : Platform} `{E : Ed25519} `{C : AuditCodec} `{SC : StatementCodec} `{N : PendingCodec}.
Context `{AE : AEAD} `{T : TokenCodec} `{W : NetPkg}.
Context {HU : UuidLaws}.
Variable c : Plane.

(** ** Release *)

Lemma reject_keeps {A} id repo cause e ab n w k :
  cd_admissions k = cd_admissions w →
  cd_admissions (tx_committed (rejectBackupAdmission (A := A) id repo cause e (mkTx w k ab n)).2) = cd_admissions w.
Proof using Type.
  intros Hk. apply (wp_reject id repo cause (λ _ _ k', cd_admissions k' = cd_admissions w)).
  intros x w' k' Hq [->| ->]; [done|by apply Hq].
Qed.

Lemma releasable_run id e n w k :
  ensureGatewayAuthorizationReleasable id e (mkTx w k false n) = (Err ErrDB, mkTx w k true (S n)) ∨
  ensureGatewayAuthorizationReleasable id e (mkTx w k false n) =
    (if live_grant id (tx_clock e n) w && negb (revoked_for id w) then Err ErrGatewayDecision else Ok (), mkTx w k false (S n)).
Proof using Type.
  unfold ensureGatewayAuthorizationReleasable, tbind, select, stmt. cbn. destruct (tx_fault e n); [by left|right].
  by destruct (_ && _).
Qed.

Lemma pending_releasable_run id e n w k :
  ∃ r ab, ensureGatewayPendingReleasable id e (mkTx w k false n) = (r, mkTx w k ab (S n)) ∧ (r = Ok () → ¬ open_origin id w).
Proof using Type.
  unfold ensureGatewayPendingReleasable, tbind, select, stmt. cbn. destruct (tx_fault e n); [by do 2 eexists|].
  destruct (cd_origins w !! id) as [o|] eqn:Ho; [destruct (or_ClosedAt o) as [t|] eqn:Hc|]; cbn.
  - do 2 eexists. split; [done|]. intros _ (x & Hx & Hn). congruence.
  - by do 2 eexists.
  - do 2 eexists. split; [done|]. intros _ (x & Hx & Hn). congruence.
Qed.

Lemma no_live_grant id t d r x :
  live_grant id t d = false → r ∈ decisions_for id d → dr_ExpiresAt r = Some x → dr_Revoked r = false → x ≤ t.
Proof using Type.
  unfold live_grant. rewrite existsb_false, Forall_forall. intros Hl [Hid Hin]%list_elem_of_filter Hx Hr.
  specialize (Hl r Hin). cbn in Hl. rewrite Hid, Hr, Hx in Hl. cbn in Hl. bool_prop. lia.
Qed.

(** A release is justified. [ReleaseBackupAdmission] releases an admission
    only when no origin of it is open and its authority is over: revoked, or
    every grant expired by the clock reading of the check. *)
Theorem release_justified (d : CentralDb) (e : TxEnv) (id owner : uuid) (a : BackupAdmission) :
  unreleased id a d → ¬ unreleased id a (run_tx (ReleaseBackupAdmission id owner) e d).2 →
  ¬ open_origin id d ∧
  (revoked_for id d = true ∨
   ∀ r x, r ∈ decisions_for id d → dr_ExpiresAt r = Some x → dr_Revoked r = false → x ≤ tx_clock e 1).
Proof using Type.
  intros Hu Hn.
  assert (Hkeep : ∀ k, cd_admissions k = cd_admissions d → ¬ unreleased id a k → False).
  { intros k Hk Hx. apply Hx. unfold unreleased in *. by rewrite Hk. }
  revert Hn. unfold run_tx, ReleaseBackupAdmission. unfold tbind at 1. unfold select at 1, stmt at 1. cbn [tx_aborted tx_count tx_work tx_committed orb].
  destruct (tx_fault e 0); [intros Hx; by destruct (Hkeep d)|]. cbn beta iota.
  assert (Hrej : ∀ repo cause ab n, ¬ unreleased id a
    (let '(r, s) := rejectBackupAdmission (A := ()) id repo cause e (mkTx d d ab n) in (r, tx_committed s)).2 → False).
  { intros repo cause ab n. pose proof (reject_keeps (A := ()) id repo cause e ab n d d eq_refl) as Hk.
    destruct (rejectBackupAdmission _ _ _ _ _) as [res s]. by apply Hkeep. }
  destruct (admission_of id owner d) as [b|] eqn:Hb; [|intros Hx; by destruct (Hrej _ _ _ _ Hx)].
  apply admission_of_inv in Hb as [Hb _]. assert (b = a) as -> by (destruct Hu; congruence).
  destruct Hu as [_ Hrel]. rewrite Hrel. cbn [is_some is_none negb]. unfold tbind at 1, tattempt at 1.
  destruct (releasable_run id e 1 d d) as [->| ->]; cbn beta iota; [intros Hx; by destruct (Hkeep d)|].
  destruct (live_grant id (tx_clock e 1) d && negb (revoked_for id d)) eqn:Hlive; [intros Hx; by destruct (Hrej _ _ _ _ Hx)|].
  unfold tbind at 1, tattempt at 1. destruct (pending_releasable_run id e 2 d d) as (r & ab & -> & Hp). cbn beta iota.
  destruct r as [[]|x]; [|intros Hx; by destruct (Hrej _ _ _ _ Hx)]. intros _. split; [by apply Hp|].
  apply andb_false_iff in Hlive as [Hl|Hr]; [right; intros; by eapply no_live_grant|left; by apply negb_false_iff].
Qed.

(** ** Receipts *)

Lemma lookup_inv id runtime e d g :
  (run_tx (GatewayPendingOrigin_ id runtime) e d).1 = Ok g →
  ∃ a o, cd_admissions d !! id = Some a ∧ origin_row id runtime d = Some o ∧ g = origin_of a o.
Proof using Type.
  apply (wp_run (GatewayPendingOrigin_ id runtime) (λ r _, r = Ok g → ∃ a o, cd_admissions d !! id = Some a ∧
    origin_row id runtime d = Some o ∧ g = origin_of a o)).
  unfold GatewayPendingOrigin_. wp_run; try done. intros [= <-]. eauto.
Qed.

(** What the control plane refuses before it looks at a record. *)
Definition replay_disabled (runtime : uuid) (wire : string) : bool :=
  (slen (cp_gatewayPendingKey c) != 32) || (slen (cp_gatewaySigningKey c) != 64) || (slen (cp_masterKey c) != 32) ||
  negb (valid_v7 runtime) || (MaxGatewayPendingSize <? slen wire).

Definition replay_receipt (runtime : uuid) (r : GatewayPendingCommit) : option string :=
  SignGatewayPendingReceipt (mkReceipt (pc_AdmissionID r) runtime (pc_Sequence r) (pc_RecordID r) (pc_WireHash r) uuid_Nil)
    (cp_gatewaySigningKey c).

(** The calls behind an acknowledged replay. *)
Lemma Replay_inv runtime wire e d ack d' :
  cpReplayGatewayPending c runtime wire e d = (Some ack, d') →
  replay_disabled runtime wire = false ∧
  ∃ id a o commit config,
    GatewayPendingIdentity wire = Some (id, runtime) ∧ cd_admissions d !! id = Some a ∧ origin_row id runtime d = Some o ∧
    replay_commit c runtime wire (origin_of a o) = Some (commit, config) ∧
    run_tx (CommitGatewayPending commit (refresh_with c (re_seal e) config)) (re_commit e) d = (Ok (), d') ∧
    replay_receipt runtime commit = Some ack.
Proof using Type.
  unfold cpReplayGatewayPending. fold (replay_disabled runtime wire). destruct (replay_disabled runtime wire); [done|]. intros H. split; [done|]. revert H.
  destruct (GatewayPendingIdentity wire) as [[id claimed]|]; [|done].
  case_bool_decide; [subst claimed; cbn [negb]|done]. destruct (run_tx (GatewayPendingOrigin_ id runtime) (re_lookup e) d).1 as [g|x] eqn:Hg; [|done].
  apply lookup_inv in Hg as (a & o & Ha & Ho & ->). destruct (go_RuntimeID _ != runtime); [done|].
  destruct (replay_commit c runtime wire (origin_of a o)) as [[commit config]|] eqn:Hc; [|done].
  destruct (run_tx (CommitGatewayPending commit (refresh_with c (re_seal e) config)) (re_commit e) d) as [[[]|x] d1] eqn:Hr; [|done].
  destruct (re_ctx_commit e); [|done]. cbn [is_ok andb negb]. fold (replay_receipt runtime commit).
  destruct (replay_receipt runtime commit) as [ack'|] eqn:Hs; [|done]. destruct (re_ctx_sign e); [|done]. intros [= <- <-].
  exists id, a, o, commit, config. by split_and!.
Qed.

Lemma run_tx_ok {A} (m : Tx A) (Q : A → CentralDb → Prop) e d a d' :
  wp m (λ r _ k, ∀ a, r = Ok a → Q a k) d d → run_tx m e d = (Ok a, d') → Q a d'.
Proof using Type.
  intros Hm Hr. pose proof (wp_run m (λ r k, ∀ a, r = Ok a → Q a k) e d Hm a) as H. rewrite Hr in H. by apply H.
Qed.

Lemma Commit_stored r validate e d d' :
  central_ok d → (∀ x, pc_Audit r = Some x → ae_ID x = pc_RecordID r) → pc_RecordID r ≠ uuid_Nil →
  run_tx (CommitGatewayPending r validate) e d = (Ok (), d') → changes d d' ∧ record_stored r d'.
Proof using Type.
  intros Hok Hid Hn. apply (run_tx_ok _ (λ _ k, changes d k ∧ record_stored r k)).
  apply wp_Commit; [done|done|done|done|]. by intros w Hw Hs [] _.
Qed.

(** A stored record is found again, and committed as a repetition. *)
Lemma record_found r d :
  central_ok d → record_stored r d →
  ∃ x, List.find (λ x, of_origin (pc_AdmissionID r) (pc_RuntimeID r) x && (rr_Sequence x == pc_Sequence r)) (cd_records d) = Some x ∧
    rr_RecordID x = pc_RecordID r ∧ rr_WireHash x = pc_WireHash r.
Proof using Type.
  intros Hok (x & Hin & Hof & Hsq & Hid & Hh). destruct (List.find _ _) as [y|] eqn:Hf.
  - apply find_some in Hf as [Hy Hp]. bool_prop. exists y. assert (y = x) as ->; [|done].
    eapply numbered_unique; [apply (ro_numbered _ (co_records _ Hok) (pc_AdmissionID r) (pc_RuntimeID r))| | |congruence];
      apply list_elem_of_filter; split; try done. by apply list_elem_of_In.
  - apply list_elem_of_In in Hin. pose proof (find_none _ _ Hf x Hin) as Hn. cbn in Hn. rewrite Hof, Hsq, bool_decide_eq_true_2 in Hn; done.
Qed.

Lemma Commit_repeated r validate e d a o :
  central_ok d → record_stored r d → no_faults e → commits e →
  cd_admissions d !! pc_AdmissionID r = Some a → origin_row (pc_AdmissionID r) (pc_RuntimeID r) d = Some o →
  ba_ID a = pc_AdmissionID r → ba_Owner a = pc_Owner r →
  run_tx (CommitGatewayPending r validate) e d = (Ok (), d).
Proof using Type.
  intros Hok Hst He Hc Ha Ho Hid Hown. destruct (record_found r d Hok Hst) as (x & Hf & Hx & Hh).
  unfold run_tx, CommitGatewayPending, lockPendingOrigin, tbind.
  rewrite (select_row_healthy e He _ d d _ a Ha), (select_healthy e He). cbn beta iota.
  rewrite (select_row_healthy e He _ d d _ a Ha). cbn beta iota. rewrite (select_row_healthy e He _ d d _ o Ho). cbn beta iota.
  cbn [tret]. unfold tret. cbn beta iota. cbn [go_Admission origin_of]. rewrite !bool_decide_eq_true_2 by done. cbn [negb orb].
  rewrite (select_healthy e He). cbn beta iota. rewrite Hf, !bool_decide_eq_true_2 by done. cbn [negb orb].
  by rewrite commit_healthy.
Qed.

(** What a replay commits does not depend on release or closing. *)
Lemma replay_commit_later runtime wire a o a' o' :
  later_admission a a' → later_origin o o' →
  replay_commit c runtime wire (origin_of a' o') = replay_commit c runtime wire (origin_of a o).
Proof using Type. by intros [->|[_ [t ->]]] [->|[_ [u ->]]]. Qed.

Lemma later_admission_id a a' : later_admission a a' → ba_ID a' = ba_ID a ∧ ba_Owner a' = ba_Owner a.
Proof using Type. by intros [->|[_ [t ->]]]. Qed.

Lemma origin_row_later id runtime d d' o :
  grows d d' → origin_row id runtime d = Some o → ∃ o', origin_row id runtime d' = Some o' ∧ later_origin o o'.
Proof using Type.
  intros Hg [Ho Hr]%origin_row_inv. destruct (gr_origins _ _ Hg _ _ Ho) as (o' & Ho' & Hl). exists o'. split; [|done].
  unfold origin_row. rewrite Ho', bool_decide_eq_true_2; [done|]. by destruct Hl as [->|[_ [t ->]]].
Qed.

(** The commit of an acknowledged replay, in full. *)
Lemma Replay_committed runtime wire e d ack d' :
  central_ok d → cpReplayGatewayPending c runtime wire e d = (Some ack, d') →
  changes d d' ∧ ∃ a o commit config,
    GatewayPendingIdentity wire = Some (pc_AdmissionID commit, runtime) ∧
    cd_admissions d !! pc_AdmissionID commit = Some a ∧ origin_row (pc_AdmissionID commit) runtime d = Some o ∧
    replay_commit c runtime wire (origin_of a o) = Some (commit, config) ∧
    ba_ID a = pc_AdmissionID commit ∧ ba_Owner a = pc_Owner commit ∧ pc_RuntimeID commit = runtime ∧
    pc_WireHash commit = GatewayPendingHash wire ∧ record_stored commit d' ∧ replay_receipt runtime commit = Some ack.
Proof using HU.
  intros Hok (_ & id & a & o & commit & config & Hi & Ha & Ho & Hc & Hr & Hs)%Replay_inv.
  pose proof (replay_commit_inv _ _ _ _ _ _ Hc) as (r & _ & Hb & Hv & Haud & Hadm & Hown & Hrt & _ & _ & _ & Hh & _).
  assert (Hida : ba_ID a = id) by (eapply fo_ids; [apply Hok|done]). rewrite Hb in Hadm, Hown. cbn in Hadm, Hown.
  assert (id = pc_AdmissionID commit) as -> by congruence.
  destruct (Commit_stored commit (refresh_with c (re_seal e) config) (re_commit e) d d') as [Hch Hst]; try done; [by apply valid_v7_not_nil|].
  split; [done|]. exists a, o, commit, config. by split_and!.
Qed.

(** A call that nothing disturbs. *)
Record healthy (e : ReplayEnv) : Prop := {
  he_lookup : no_faults (re_lookup e);
  he_faults : no_faults (re_commit e);
  he_commit : commits (re_commit e);
  he_ctx : re_ctx_commit e = true ∧ re_ctx_sign e = true }.

Lemma lookup_healthy id runtime e d a o :
  no_faults e → cd_admissions d !! id = Some a → origin_row id runtime d = Some o →
  (run_tx (GatewayPendingOrigin_ id runtime) e d).1 = Ok (origin_of a o).
Proof using Type.
  intros He Ha Ho. unfold run_tx, GatewayPendingOrigin_, tbind. rewrite (select_row_healthy e He _ d d _ o Ho). cbn beta iota.
  by rewrite (select_row_healthy e He _ d d _ a Ha).
Qed.

Lemma Replay_repeated runtime wire e e' d d' d2 ack :
  central_ok d → cpReplayGatewayPending c runtime wire e d = (Some ack, d') → changes d' d2 → healthy e' →
  cpReplayGatewayPending c runtime wire e' d2 = (Some ack, d2).
Proof using HU.
  intros Hok Hrun H2 [Hel Hef Hec [Hx1 Hx2]]. destruct (Replay_inv _ _ _ _ _ _ Hrun) as [Hdis _].
  destruct (Replay_committed _ _ _ _ _ _ Hok Hrun) as
    (H1 & a & o & commit & config & Hi & Ha & Ho & Hc & Hida & Hown & Hrt & _ & Hst & Hs).
  assert (Hg : grows d d2) by (by apply changes_grows; etrans).
  assert (Hok2 : central_ok d2) by (eapply changes_ok; [by etrans|done]).
  destruct (gr_admissions _ _ Hg _ _ Ha) as (a' & Ha' & Hla). destruct (origin_row_later _ _ _ _ _ Hg Ho) as (o' & Ho' & Hlo).
  unfold cpReplayGatewayPending. fold (replay_disabled runtime wire). rewrite Hdis, Hi, bool_decide_eq_true_2 by done. cbn [negb].
  rewrite (lookup_healthy _ _ _ _ _ _ Hel Ha' Ho'), bool_decide_eq_true_2 by (by apply origin_row_inv in Ho' as [_ ?]). cbn [negb].
  rewrite (replay_commit_later _ _ _ _ _ _ Hla Hlo), Hc.
  destruct (later_admission_id _ _ Hla) as [Hi' Ho2]. rewrite (Commit_repeated commit (refresh_with c (re_seal e') config) (re_commit e') d2 a' o'); try done.
  - rewrite Hx1. cbn [is_ok andb negb]. fold (replay_receipt runtime commit). by rewrite Hs, Hx2.
  - eapply record_stored_grows; [by apply changes_grows|done].
  - by rewrite Hrt.
  - congruence.
  - congruence.
Qed.

(** ** Receipts for process-wide events *)

Definition global_disabled (runtime : uuid) (b : GatewayAuditBinding) (wire : string) : bool :=
  negb (ValidateAuditBinding b) || (AuditRuntimeID b != runtime) || (slen (cp_gatewayPendingKey c) != 32) ||
  (slen (cp_gatewaySigningKey c) != 64) || (MaxGatewayPendingSize <? slen wire).

Definition global_receipt (runtime : uuid) (b : GatewayAuditBinding) (wire : string) (r : GatewayAuditCommit) : option string :=
  SignGatewayPendingReceipt (mkReceipt uuid_Nil runtime (gc_Sequence r) (gc_RecordID r) (GatewayPendingHash wire) (OriginID b))
    (cp_gatewaySigningKey c).

Lemma audit_lookup_inv b e d g :
  (run_tx (GatewayAuditOrigin_ b) e d).1 = Ok g → ∃ o, audit_origin_row b d = Some o ∧ g = audit_origin_of (OriginID b) o.
Proof using Type.
  apply (wp_run (GatewayAuditOrigin_ b) (λ r _, r = Ok g → ∃ o, audit_origin_row b d = Some o ∧
    g = audit_origin_of (OriginID b) o)).
  unfold GatewayAuditOrigin_. wp_run; try done. intros [= <-]. eauto.
Qed.

Lemma global_commit_fields b wire g r :
  global_commit c b wire g = Some r →
  gc_Binding r = b ∧ valid_v7 (gc_RecordID r) = true ∧ gc_WireHash r = GatewayPendingHash wire.
Proof using Type.
  intros H. destruct (global_commit_inv _ _ _ _ _ H) as [Hb Hv]. split_and!; [done|done|]. revert H.
  unfold global_commit. destruct (OpenGatewayPending _ _ _) as [x|]; [|done]. cbv zeta. destruct (_ || _); [done|].
  destruct (pr_Event x) as [event|]; [|done]. destruct (GatewayGlobalAudit event) as [audit valid].
  destruct (negb valid); [done|]. by intros [= <-].
Qed.

Lemma Global_committed runtime b wire e d ack d' :
  central_ok d → cpReplayGatewayGlobalAudit c runtime b wire e d = (Some ack, d') →
  global_disabled runtime b wire = false ∧ changes d d' ∧ ∃ o r,
    audit_origin_row b d = Some o ∧ global_commit c b wire (audit_origin_of (OriginID b) o) = Some r ∧
    gc_Binding r = b ∧ gc_WireHash r = GatewayPendingHash wire ∧ audit_record_stored r d' ∧
    global_receipt runtime b wire r = Some ack.
Proof using HU.
  intros Hok. unfold cpReplayGatewayGlobalAudit. fold (global_disabled runtime b wire).
  destruct (global_disabled runtime b wire); [done|]. intros H. split; [done|]. revert H.
  destruct (run_tx (GatewayAuditOrigin_ b) (re_lookup e) d).1 as [g|x] eqn:Hg; [|done].
  apply audit_lookup_inv in Hg as (o & Ho & ->). destruct (gao_Binding _ != b); [done|].
  destruct (global_commit c b wire _) as [r|] eqn:Hc; [|done]. pose proof (global_commit_fields _ _ _ _ Hc) as (Hb & Hv & Hh).
  destruct (run_tx (CommitGatewayGlobalAudit r) (re_commit e) d) as [[[]|x] d1] eqn:Hr; [|done].
  destruct (re_ctx_commit e); [|done]. cbn [is_ok andb negb]. fold (global_receipt runtime b wire r).
  destruct (global_receipt runtime b wire r) as [ack'|] eqn:Hs; [|done]. destruct (re_ctx_sign e); [|done]. intros [= <- <-].
  assert (Hst : changes d d1 ∧ audit_record_stored r d1).
  { revert Hr. apply (run_tx_ok _ (λ _ k, changes d k ∧ audit_record_stored r k)).
    apply wp_CommitAudit; [done|by apply valid_v7_not_nil|done|]. by intros w Hw Hx [] _. }
  destruct Hst as [Hch Hst]. split; [done|]. exists o, r. by split_and!.
Qed.

Lemma audit_record_found r d :
  central_ok d → audit_record_stored r d →
  ∃ x, List.find (λ x, of_audit_origin (gc_Binding r) x && (ad_Sequence x == gc_Sequence r)) (cd_audit_records d) = Some x ∧
    ad_RecordID x = gc_RecordID r ∧ ad_WireHash x = gc_WireHash r.
Proof using Type.
  intros Hok (x & Hin & Hof & Hsq & Hid & Hh). destruct (List.find _ _) as [y|] eqn:Hf.
  - apply find_some in Hf as [Hy Hp]. bool_prop. exists y. assert (y = x) as ->; [|done].
    eapply numbered_unique; [apply (uo_numbered _ (co_audit _ Hok) (gc_Binding r))| | |congruence];
      apply list_elem_of_filter; split; try done. by apply list_elem_of_In.
  - apply list_elem_of_In in Hin. pose proof (find_none _ _ Hf x Hin) as Hn. cbn in Hn. rewrite Hof, Hsq, bool_decide_eq_true_2 in Hn; done.
Qed.

Lemma CommitAudit_repeated r e d o :
  central_ok d → audit_record_stored r d → no_faults e → commits e → audit_origin_row (gc_Binding r) d = Some o →
  run_tx (CommitGatewayGlobalAudit r) e d = (Ok (), d).
Proof using Type.
  intros Hok Hst He Hc Ho. destruct (audit_record_found r d Hok Hst) as (x & Hf & Hx & Hh).
  unfold run_tx, CommitGatewayGlobalAudit, tbind. cbv zeta. rewrite (select_row_healthy e He _ d d _ o Ho). cbn beta iota.
  rewrite (select_healthy e He). cbn beta iota. rewrite Hf, !bool_decide_eq_true_2 by done. cbn [negb orb].
  by rewrite commit_healthy.
Qed.

Lemma Global_repeated runtime b wire e e' d d' d2 ack :
  central_ok d → cpReplayGatewayGlobalAudit c runtime b wire e d = (Some ack, d') → changes d' d2 → healthy e' →
  cpReplayGatewayGlobalAudit c runtime b wire e' d2 = (Some ack, d2).
Proof using HU.
  intros Hok Hrun H2 [Hel Hef Hec [Hx1 Hx2]].
  destruct (Global_committed _ _ _ _ _ _ _ Hok Hrun) as (Hdis & H1 & o & r & Ho & Hc & Hb & _ & Hst & Hs).
  assert (Hg : grows d d2) by (by apply changes_grows; etrans).
  assert (Hok2 : central_ok d2) by (eapply changes_ok; [by etrans|done]).
  pose proof (audit_row_inv _ _ _ Ho) as [Hl Hrt]. destruct (gr_audit_origins _ _ Hg _ _ Hl) as (o' & Ho' & Hla).
  assert (Hrow : audit_origin_row b d2 = Some o').
  { unfold audit_origin_row. rewrite Ho', bool_decide_eq_true_2; [done|]. by destruct Hla as [->|[_ [t ->]]]. }
  assert (Hbind : gao_Binding (audit_origin_of (OriginID b) o') = b).
  { unfold audit_origin_of. cbn. apply audit_row_inv in Hrow as [_ ->]. by destruct b. }
  assert (Hsame : global_commit c b wire (audit_origin_of (OriginID b) o') = Some r).
  { rewrite <- Hc. unfold global_commit. by destruct Hla as [->|[_ [t ->]]]. }
  unfold cpReplayGatewayGlobalAudit. fold (global_disabled runtime b wire). rewrite Hdis.
  replace (run_tx (GatewayAuditOrigin_ b) (re_lookup e') d2).1 with (Ok (E := dberr) (audit_origin_of (OriginID b) o')).
  2: { unfold run_tx, GatewayAuditOrigin_, tbind. by rewrite (select_row_healthy _ Hel _ d2 d2 _ o' Hrow). }
  rewrite Hbind, bool_decide_eq_true_2 by done. cbn [negb]. rewrite Hsame, (CommitAudit_repeated r (re_commit e') d2 o'); try done.
  - rewrite Hx1. cbn [is_ok andb negb]. fold (global_receipt runtime b wire r). by rewrite Hs, Hx2.
  - eapply audit_record_stored_grows; [by apply changes_grows|done].
  - by rewrite Hb.
Qed.
End Replies.
