(* ===== verification/CentralProtocol.v ===== *)
(** * CentralProtocol: the control plane and the Gateway

    Signed receipts against the committed records, signed decisions against the
    committed history, and the Gateway's acceptance of them. *)

From S2P Require Import Prelude GoStd Uuid Platform GatewaySession GatewayAuth AuditChain PendingRecord CentralTx CentralStore.
From S2P Require Import RcloneConfig StorageSecret.
From S2P Require Import CentralTrace CentralGrowth CentralRefine CentralPlane CentralHistory CentralSafety CentralReplies.
Open Scope Z_scope.
Open Scope go_scope.
Open Scope central_scope.

Section Protocol.
Context `{U : UuidPkg} `{P : Platform} `{E : Ed25519} `{C : AuditCodec} `{SC : StatementCodec} `{N : PendingCodec}.
Context `{AE : AEAD} `{T : TokenCodec} `{W : NetPkg}.
Context {HU : UuidLaws} {HS : StatementCodecLaws} {HN : PendingCodecLaws} {HE : Ed25519Laws}.
Variable c : Plane.

(** ** Receipts *)

(** The record a receipt names is committed, and its event audited. *)
Definition receipt_backed (r : GatewayPendingReceipt) (d : CentralDb) : Prop :=
  if rc_AuditOriginID r == uuid_Nil then
    ∃ x, x ∈ cd_records d ∧ rr_AdmissionID x = rc_AdmissionID r ∧ rr_RuntimeID x = rc_RuntimeID r ∧
      rr_Sequence x = rc_Sequence r ∧ rr_RecordID x = rc_RecordID r ∧ rr_WireHash x = rc_WireHash r ∧
      (rr_Kind x = "audit" → audited (rr_RecordID x) d)
  else
    ∃ x, x ∈ cd_audit_records d ∧ ad_OriginID x = rc_AuditOriginID r ∧ ad_RuntimeID x = rc_RuntimeID r ∧
      ad_Sequence x = rc_Sequence r ∧ ad_RecordID x = rc_RecordID r ∧ ad_WireHash x = rc_WireHash r ∧
      audited (ad_RecordID x) d.

Lemma stored_backed r runtime d :
  central_ok d → pc_RuntimeID r = runtime → record_stored r d →
  receipt_backed (mkReceipt (pc_AdmissionID r) runtime (pc_Sequence r) (pc_RecordID r) (pc_WireHash r) uuid_Nil) d.
Proof using Type.
  intros Hok <- (x & Hin & Hof & Hsq & Hid & Hh). unfold receipt_backed. cbn. rewrite bool_decide_eq_true_2 by done. exists x.
  unfold of_origin in Hof. bool_prop. split_and!; try done. by apply co_records.
Qed.

Lemma audit_stored_backed r runtime d :
  central_ok d → AuditRuntimeID (gc_Binding r) = runtime → OriginID (gc_Binding r) ≠ uuid_Nil → audit_record_stored r d →
  receipt_backed (mkReceipt uuid_Nil runtime (gc_Sequence r) (gc_RecordID r) (gc_WireHash r) (OriginID (gc_Binding r))) d.
Proof using Type.
  intros Hok <- Hn (x & Hin & Hof & Hsq & Hid & Hh). unfold receipt_backed. cbn. rewrite bool_decide_eq_false_2 by done. exists x.
  unfold of_audit_origin in Hof. bool_prop. split_and!; try done. by apply co_audit.
Qed.

(** C4: an acknowledgement means committed. When the control plane answers a
    replayed record with a receipt, the Gateway's check of it succeeds, and the
    receipt names this message's hash and a record that is committed, with the
    audit event of an audit record in the chain. *)
Theorem ack_means_committed (d d' : CentralDb) (runtime : uuid) (wire ack : string) (e : ReplayEnv) :
  central_reachable c d → cpReplayGatewayRecord c runtime wire e d = (Some ack, d') →
  ∃ receipt, VerifyGatewayPendingReceipt ack (Public (cp_gatewaySigningKey c)) = Some receipt ∧
    rc_RuntimeID receipt = runtime ∧ rc_WireHash receipt = GatewayPendingHash wire ∧ receipt_backed receipt d'.
Proof using HU HN HE.
  intros Hok%reachable_central Hrun. unfold cpReplayGatewayRecord in Hrun. destruct (GatewayPendingAuditIdentity wire) as [b|].
  - destruct (Global_committed _ _ _ _ _ _ _ _ Hok Hrun) as (Hdis & Hch & o & r & _ & _ & Hb & Hh & Hst & Hs).
    unfold global_disabled in Hdis. bool_prop. eexists. split; [by eapply Sign_receipt_verified|]. cbn. split_and!; try done.
    rewrite <- Hh. subst b. apply audit_stored_backed; [by eapply changes_ok|done| |done].
    apply valid_v7_not_nil. match goal with H : ValidateAuditBinding _ = true |- _ => by apply andb_true_iff in H as [H _] end.
  - destruct (Replay_committed _ _ _ _ _ _ _ Hok Hrun) as (Hch & a & o & r & v & _ & _ & _ & _ & _ & _ & Hrt & Hh & Hst & Hs).
    eexists. split; [by eapply Sign_receipt_verified|]. cbn. split_and!; try done. apply stored_backed; [by eapply changes_ok|done|done].
Qed.

(** A lost acknowledgement is harmless. A record that was acknowledged once
    is acknowledged again with the same receipt, whatever happened since,
    release and sealing included, and the repetition changes nothing. *)
Theorem lost_ack_is_harmless (d d' : CentralDb) (runtime : uuid) (wire ack : string) (e e' : ReplayEnv) (ys : list central_event) :
  central_reachable c d → cpReplayGatewayRecord c runtime wire e d = (Some ack, d') → healthy e' →
  let d2 := central_run c ys d' in
  cpReplayGatewayRecord c runtime wire e' d2 = (Some ack, d2).
Proof using HU.
  intros Hok%reachable_central Hrun He d2. assert (Hd' : central_ok d' ∧ changes d' d2).
  { assert (Hch : changes d d') by (change d' with (Some ack, d').2; rewrite <- Hrun; apply (event_changes c (Replay e runtime wire) d Hok)).
    assert (Hok' : central_ok d') by (by eapply changes_ok). split; [done|]. by apply run_central. }
  destruct Hd' as [_ H2]. unfold cpReplayGatewayRecord in *. destruct (GatewayPendingAuditIdentity wire) as [b|].
  - by eapply Global_repeated.
  - by eapply Replay_repeated.
Qed.

(** ** Decisions *)

Lemma default_lifetime_same r :
  dq_AdmissionID (with_default_lifetime c r) = dq_AdmissionID r ∧ dq_Owner (with_default_lifetime c r) = dq_Owner r ∧
  dq_RuntimeID (with_default_lifetime c r) = dq_RuntimeID r ∧ dq_Revoke (with_default_lifetime c r) = dq_Revoke r ∧
  dq_ExpectedRevision (with_default_lifetime c r) = dq_ExpectedRevision r.
Proof using Type. unfold with_default_lifetime. by destruct (_ && _). Qed.

(** The stored decision behind a signed one. *)
Lemma Decide_inv r e ctx clock1 clock2 d wire d' :
  central_ok d → cpDecideGatewayAuthorization c r e ctx clock1 clock2 d = (Some wire, d') →
  changes d d' ∧ ∃ a row, admission_of (dq_AdmissionID r) (dq_Owner r) d' = Some a ∧
    latest_of (dq_AdmissionID r) d' = Some row ∧ dr_Revoked row = dq_Revoke r ∧ dr_RuntimeID row = dq_RuntimeID r ∧
    dr_Revision row = dq_ExpectedRevision r + 1 ∧ signGatewayDecision c (decision_of a row) = Some wire.
Proof using Type.
  intros Hok. unfold cpDecideGatewayAuthorization. destruct (default_lifetime_same r) as (Ha & Ho & Hr & Hk & Hv).
  set (r' := with_default_lifetime c r) in *. destruct (_ || _); [done|].
  destruct (run_tx (DecideGatewayAuthorization r' _) e d) as [[g|x] d1] eqn:Hrun; [|done].
  destruct (negb ctx || _) eqn:Hm; [done|]. intros [= Hs <-].
  apply (run_tx_ok _ (λ g k, changes d k ∧ decision_stored r' g k)) in Hrun as [Hch (a & row & Hadm & Hl & Hin & ->)].
  2: { apply wp_Decide; [done|done|]. by intros g' w Hw Hst g2 [= <-]. }
  rewrite Ha, Ho in Hadm. rewrite Ha in Hl. split; [done|]. exists a, row. apply orb_false_iff in Hm as [_ Hm].
  apply negb_false_iff in Hm. unfold decision_matches in Hm. apply andb_true_iff in Hm as [Hm _]. bool_prop. cbn in *.
  split_and!; try done; try congruence. match goal with H : Bool.eqb _ _ = true |- _ => apply eqb_prop in H end. congruence.
Qed.

(** What is signed is recorded. A decision leaves the control plane only
    when it is committed as the latest of its admission, with the revision,
    runtime and verdict asked for, and the Gateway's check of the message yields
    exactly that row. *)
Theorem decision_signed_is_recorded (d d' : CentralDb) (r : GatewayDecisionRequest) (e : TxEnv) (ctx : bool)
    (clock1 clock2 : time) (wire : string) :
  central_reachable c d → cpDecideGatewayAuthorization c r e ctx clock1 clock2 d = (Some wire, d') →
  ∃ a row, admission_of (dq_AdmissionID r) (dq_Owner r) d' = Some a ∧ latest_of (dq_AdmissionID r) d' = Some row ∧
    dr_Revoked row = dq_Revoke r ∧ dr_RuntimeID row = dq_RuntimeID r ∧ dr_Revision row = dq_ExpectedRevision r + 1 ∧
    VerifyGatewayStatement wire (Public (cp_gatewaySigningKey c)) = Some (decision_statement (decision_of a row)).
Proof using HU HS HE.
  intros Hok%reachable_central (_ & a & row & Ha & Hl & Hk & Hr & Hv & Hs)%Decide_inv; [|done].
  exists a, row. split_and!; try done. by apply sign_verify.
Qed.

Lemma revoked_grows id d d' : grows d d' → revoked_for id d = true → revoked_for id d' = true.
Proof using Type.
  intros Hg (r & [Hid Hin]%list_elem_of_filter & Hr)%revoked_for_elem. apply revoked_for_elem. exists r. split; [|done].
  apply list_elem_of_filter. split; [done|]. by eapply elem_of_prefix, gr_decisions.
Qed.

(** No grant after a revocation. Once a revocation of an admission is
    recorded, the control plane never signs a grant for it again, whatever is
    asked and whatever happens in between. *)
Theorem revoked_never_granted_again (d : CentralDb) (ys : list central_event) (r : GatewayDecisionRequest) (e : TxEnv)
    (ctx : bool) (clock1 clock2 : time) :
  central_reachable c d → revoked_for (dq_AdmissionID r) d = true → dq_Revoke r = false →
  (cpDecideGatewayAuthorization c r e ctx clock1 clock2 (central_run c ys d)).1 = None.
Proof using HU.
  intros Hok%reachable_central Hrev Hk. set (d2 := central_run c ys d).
  assert (H2 : changes d d2) by (by apply run_central). assert (Hok2 : central_ok d2) by (by eapply changes_ok).
  destruct (cpDecideGatewayAuthorization c r e ctx clock1 clock2 d2) as [[wire|] d3] eqn:Hd; [|done]. exfalso.
  apply Decide_inv in Hd as (H3 & a & row & _ & Hl & Hrk & _); [|done].
  apply (revoked_grows _ _ d3), revoked_for_elem in Hrev as (x & Hx & Hxk); [|by apply changes_grows; etrans].
  apply revoked_is_last in Hx; [|eapply co_decisions, changes_ok; [exact H3|done]|done]. congruence.
Qed.

Lemma Unix_mono t u : t ≤ u → Unix t ≤ Unix u.
Proof using Type. intros H. unfold Unix. pose proof (Z.div_le_mono t u second eq_refl H). lia. Qed.

(** An earlier decision of the admission, as a statement, precedes the latest. *)
Lemma earlier_statement id d a row row0 :
  decisions_ok d → latest_of id d = Some row → row0 ∈ decisions_for id d →
  let s0 := decision_statement (decision_of a row0) in let s := decision_statement (decision_of a row) in
  s0 = s ∨ Revoked s0 = false ∧ Revision s0 < Revision s ∧ IssuedAt s0 ≤ IssuedAt s.
Proof using Type.
  intros Hd Hl [i Hi]%list_elem_of_lookup_1. rewrite latest_of_last, last_lookup in Hl by done.
  destruct (decide (i = pred (length (decisions_for id d)))) as [->|Hne]; [left; congruence|right].
  pose proof (lookup_lt_Some _ _ _ Hi) as Hlt.
  destruct (follows_between _ _ _ _ _ _ (do_history _ Hd id) Hi Hl) as (Hk & Hi' & _); [lia|].
  pose proof (follows_numbered _ None (do_history _ Hd id)) as Hn.
  pose proof (numbered_lookup _ _ _ _ _ Hn Hi). pose proof (numbered_lookup _ _ _ _ _ Hn Hl).
  cbn. split; [done|]. split; [lia|]. by apply Unix_mono.
Qed.

(** C33: a signed decision reaches the Gateway. A Gateway with the right key and
    binding, whose current statement is none yet or one of this admission's
    decisions, and whose clock is safe and between issue and expiry, accepts the
    message and from then on holds exactly this decision. *)
Theorem decision_reaches_gateway (d d' : CentralDb) (r : GatewayDecisionRequest) (e : TxEnv) (ctx : bool)
    (clock1 clock2 : time) (wire : string) (adm : BackupAdmission) (row : DecisionRow) (g : Authorization) (now : Instant) :
  central_reachable c d → cpDecideGatewayAuthorization c r e ctx clock1 clock2 d = (Some wire, d') →
  admission_of (dq_AdmissionID r) (dq_Owner r) d' = Some adm → latest_of (dq_AdmissionID r) d' = Some row →
  let s := decision_statement (decision_of adm row) in
  au_key g = Public (cp_gatewaySigningKey c) → au_binding g = Binding s →
  (au_current g = zero_statement ∨ ∃ row0, row0 ∈ decisions_for (dq_AdmissionID r) d' ∧
     au_current g = decision_statement (decision_of adm row0)) →
  (observeClock now g).1 = true → IssuedAt s ≤ Unix (wall now) → (Revoked s = false → Unix (wall now) < ExpiresAt s) →
  (Accept now wire g).1 = true ∧ au_current (Accept now wire g).2 = s.
Proof using HU HS HE.
  intros Hok%reachable_central Hd Hadm Hl s Hkey Hbind Hcur Hclk Hiss Hexp.
  apply Decide_inv in Hd as (Hch & a & row' & Ha & Hl' & _ & _ & _ & Hs); [|done].
  assert (a = adm) as -> by congruence. assert (row' = row) as -> by congruence.
  apply sign_verify in Hs. change (decision_statement (decision_of adm row)) with s in Hs.
  assert (Hv : ValidateStatement s = true) by (by eapply Verify_valid).
  assert (Hprec : au_current g = s ∨ Revoked (au_current g) = false ∧ Revision (au_current g) < Revision s ∧ IssuedAt (au_current g) ≤ IssuedAt s).
  { pose proof (co_decisions _ (changes_ok _ _ Hch Hok)) as Hdo. destruct Hcur as [->|(row0 & Hr0 & ->)]; [right|by apply earlier_statement with (id := dq_AdmissionID r) (d := d')].
    pose proof (latest_checked _ _ _ Hdo Hl) as [Hck _]. apply check_revision in Hck.
    unfold ValidateStatement in Hv. apply andb_true_iff in Hv as [Hv _]. bool_prop. unfold s in *. cbn in *. split; [done|]. split; lia. }
  unfold Accept. destruct (observeClock now g) as [ok g1] eqn:Ho. unfold observeClock in Ho. injection Ho as Hok1 <-. cbn [fst] in Hclk. subst ok.
  cbn [negb]. rewrite Hclk. cbn [negb au_key au_binding au_current au_lastGrant au_lastWall au_deadline au_clockUnsafe].
  rewrite Hkey, Hs, Hbind, bool_decide_eq_true_2 by done. rewrite (proj2 (Z.ltb_ge _ _)) by lia. cbn [negb orb].
  destruct Hprec as [Heq|(Hr & Hrev & His)].
  - rewrite (bool_decide_eq_true_2 (s = _)) by done. done.
  - rewrite (bool_decide_eq_false_2 (s = _)) by (intros Hx; rewrite <- Hx in Hrev; lia).
    rewrite Hr, (proj2 (Z.leb_gt _ _)), (proj2 (Z.ltb_ge _ _)) by lia. cbn [orb].
    destruct (Revoked s) eqn:Hk; cbn [negb andb]; [done|]. specialize (Hexp eq_refl). by rewrite (proj2 (Z.leb_gt _ _)) by lia.
Qed.
End Protocol.
