(* ===== verification/CentralExamples.v ===== *)
(** * CentralExamples: a concrete history of an admission

    Admission, grant, registration, an audited event, the Gateway's confirmed
    cleanup with the release it causes, and a process-wide event; the theorems
    of CentralSafety and CentralProtocol at these databases. *)

From S2P Require Import Prelude GoStd Uuid Platform GatewaySession GatewayAuth AuditChain PendingRecord CentralTx CentralStore.
From S2P Require Import CentralTrace CentralGrowth CentralRefine CentralPlane CentralHistory CentralSafety CentralReplies.
From S2P Require Import RcloneConfig RcloneExamples StorageSecret PendingExamples CentralProtocol.
Open Scope Z_scope.
Open Scope go_scope.
Open Scope central_scope.

Definition ex_plane : Plane :=
  mkPlane example_central example_private (bytes_be 32 1) "https://gateway.example" "ca" (24 * hour).
Definition ex_hash : string := credentialConfigurationHash ex_plane.

(** Second [t] of the example; statements one millisecond apart. *)
Definition at_ (t : Z) : time := time_of_unix (1709210000 + t).
Definition ex_env (t : Z) : TxEnv :=
  mkTxEnv (λ n, at_ t + Z.of_nat n * 1000000) (λ n, Some (v7 (Z.to_N (100000 + t * 100 + Z.of_nat n)))) (λ _, false) (λ _, Committed).
Definition ex_sealing : SealEnv := mkSealEnv None None None None (at_ 0).
Definition ex_replay (t : Z) : ReplayEnv := mkReplayEnv (ex_env t) (ex_env t) (ex_env t) true true ex_sealing (at_ t).

Definition ex_fleet : Fleet :=
  mkFleet {[v7 4 := mkAgentRow (v7 5) "ACTIVE" None]} {[v7 5 := mkHostRow "ACTIVE" None]}
    {[v7 6 := mkRepository (v7 6) (v7 5) (v7 8) "READY" (v7 7) (v7 10) (v7 11) (Some (at_ 0)) None
       (hex_encode (bytes_be 32 7)) (Some 2) 1 (at_ 0) None]}
    {[v7 4 := mkDelivery (v7 9) (v7 4) 1 ex_hash (v7 6) (v7 10) (v7 11) (at_ 0) (Some (at_ 0))]} ∅ [] ∅ ∅ ∅ ∅ ∅ ∅ no_backups.
Definition ex_storage : Storage :=
  mkStorage {[v7 8 := mkCredential (v7 8) "nas" StorageWebDAV "vault" "HEALTHY" (v7 12) 1 1 (at_ 0) (at_ 0) None None "" None]}
    {[v7 12 := mkSecret (v7 12) "RCLONE_CONFIG" EnvelopeAlgorithm "master:v1" "" "" "" "" "" (at_ 0)]} {[(v7 8, 1) := v7 12]}.

Definition ex_binding : GatewayAuthorizationBinding :=
  mkBinding (v7 1) (v7 2) (v7 3) (v7 4) (v7 5) (v7 6) (v7 7) (v7 8) (v7 9) (v7 10) (v7 11) ex_hash.

Definition ex_seal (r : GatewayPendingRecord) : string := default "" (SealGatewayPending "" r example_private example_source).
Definition ex_record (id : uuid) (sequence : Z) (previous : string) (t : Z) (event : GatewayEvent) : string :=
  ex_seal (mkPending (mkHeader ex_binding id sequence previous 1 (1709210000 + t) no_origin) "audit" (Some event) 0 None).

Definition ex_denial : string := ex_record (v7 51) 1 zero_hash 30 (mkGatewayEvent no_binding false "denied" "rate_limited").
Definition ex_cleanup : string :=
  ex_record (v7 52) 2 (GatewayPendingHash ex_denial) 50 (mkGatewayEvent no_binding false "runtime_cleanup" "joined").

Definition ex_audit : GatewayAuditBinding := mkAuditBinding (v7 60) (v7 61).
Definition ex_global : string :=
  ex_seal (mkPending (mkHeader zero_binding (v7 62) 1 zero_hash 0 1709210040 ex_audit) "global_audit"
    (Some (mkGatewayEvent no_binding false "denied" "route_unavailable")) 0 None).

Definition ex_reserve : BackupAdmissionRequest := mkAdmissionRequest (v7 1) (v7 2) (v7 4) (v7 9) ex_hash hour.
Definition ex_grant (id : uuid) (revision : Z) : GatewayDecisionRequest :=
  mkDecisionRequest id (v7 1) (v7 2) (v7 3) revision (30 * minute) false.

Definition ex_start : CentralDb := no_gateways ex_fleet ex_storage.
Definition ex_events : list central_event :=
  [Reserve (ex_env 5) ex_reserve;
   Decide (ex_env 10) true (at_ 11) (at_ 11) (ex_grant (v7 41) 0);
   Register (ex_env 20) true ex_binding (Public example_source);
   Replay (ex_replay 31) (v7 3) ex_denial;
   RegisterAudit (ex_env 35) true ex_audit (Public example_source);
   Replay (ex_replay 41) (v7 61) ex_global;
   Replay (ex_replay 55) (v7 3) ex_cleanup].
Definition ex_db (n : nat) : CentralDb := central_run ex_plane (take n ex_events) ex_start.


Lemma answered {A} (p : option string * A) : is_some p.1 = true → p = (Some (default "" p.1), p.2).
Proof. by destruct p as [[w|] d]. Qed.

Lemma ex_reachable xs : central_reachable ex_plane (central_run ex_plane xs ex_start).
Proof. by exists ex_fleet, ex_storage, xs. Qed.

Definition ex_admission : BackupAdmission := default zero_admission (cd_admissions (ex_db 1) !! v7 1).

(** The whole history ends with the admission released and its origin closed. *)
Example history_released :
  is_some (default zero_admission (cd_admissions (ex_db 7) !! v7 1)).(ba_ReleasedAt) = true ∧
  length (cd_records (ex_db 7)) = 2%nat ∧ length (cd_audit_records (ex_db 7)) = 1%nat ∧
  dr_Revoked <$> cd_decisions (ex_db 7) = [false; true].
Proof. vm_compute. done. Qed.

Lemma central_refines_spec_witness : changes (ex_db 3) (central_run ex_plane (drop 3 ex_events) (ex_db 3)).
Proof. apply (central_refines_spec ex_plane (ex_db 3) (drop 3 ex_events) (ex_reachable _)). Defined.

Lemma fence_exclusive_witness : unreleased (v7 1) ex_admission (ex_db 1) ∧ v7 1 = v7 1.
Proof.
  assert (Hu : unreleased (v7 1) ex_admission (ex_db 1)) by (split; vm_compute; reflexivity).
  split; [exact Hu|].
  apply (fence_exclusive ex_plane (ex_db 1) (v7 1) (v7 1) ex_admission ex_admission (ex_reachable _) Hu Hu). reflexivity.
Defined.

Definition ex_decision : DecisionRow :=
  mkDecisionRow (v7 1) 1 (v7 41) (v7 3) 1800 (at_ 10) (Some (at_ 1810)) false.

Lemma decision_history_witness :
  at_ 10 < at_ 1810 ≤ at_ 10 + 30 * 24 * hour ∧ ∃ a, cd_admissions (ex_db 2) !! v7 1 = Some a ∧ at_ 1810 ≤ ba_ExpiresAt a.
Proof.
  destruct (decision_history ex_plane (ex_db 2) (v7 1) 0 ex_decision (ex_reachable _)) as (_ & _ & H).
  - vm_compute. reflexivity.
  - apply (H (at_ 1810)). reflexivity.
Defined.

Lemma record_history_witness : linked (cd_audit (ex_db 7)).
Proof. apply (record_history ex_plane (ex_db 7) (ex_reachable _)). Defined.

(** An admission that is given up before anything was granted. *)
Definition ex_given_up : CentralDb :=
  central_run ex_plane [Reserve (ex_env 5) ex_reserve; Release (ex_env 9) (v7 1) (v7 2)] ex_start.
Definition ex_released : BackupAdmission := default zero_admission (cd_admissions ex_given_up !! v7 1).

Lemma released_is_final_witness :
  same_admission (v7 1) ex_given_up (central_run ex_plane (drop 1 ex_events) ex_given_up).
Proof.
  apply (released_is_final ex_plane ex_given_up (drop 1 ex_events) (v7 1) ex_released (ex_reachable _)).
  - vm_compute. reflexivity.
  - vm_compute. discriminate.
Defined.

Lemma central_append_only_witness : grows (ex_db 3) (central_run ex_plane (drop 3 ex_events) (ex_db 3)).
Proof. apply (central_append_only ex_plane (ex_db 3) (drop 3 ex_events) (ex_reachable _)). Defined.

Lemma release_justified_witness :
  ¬ open_origin (v7 1) (ex_db 1) ∧
  (revoked_for (v7 1) (ex_db 1) = true ∨
   ∀ r x, r ∈ decisions_for (v7 1) (ex_db 1) → dr_ExpiresAt r = Some x → dr_Revoked r = false → x ≤ tx_clock (ex_env 9) 1).
Proof.
  apply (release_justified (ex_db 1) (ex_env 9) (v7 1) (v7 2) ex_admission).
  - split; vm_compute; reflexivity.
  - intros [H _]. vm_compute in H. discriminate H.
Defined.

Definition ex_acked : option string * CentralDb :=
  cpReplayGatewayRecord ex_plane (v7 3) ex_denial (ex_replay 31) (ex_db 3).
Definition ex_ack : string := default "" ex_acked.1.

Lemma ex_acked_eq :
  cpReplayGatewayRecord ex_plane (v7 3) ex_denial (ex_replay 31) (ex_db 3) = (Some ex_ack, ex_acked.2).
Proof.
  assert (H : is_some ex_acked.1 = true) by (vm_compute; reflexivity). exact (answered ex_acked H).
Qed.

Lemma ack_means_committed_witness :
  ∃ receipt, VerifyGatewayPendingReceipt ex_ack (Public example_central) = Some receipt ∧
    rc_RuntimeID receipt = v7 3 ∧ rc_WireHash receipt = GatewayPendingHash ex_denial ∧ receipt_backed receipt ex_acked.2.
Proof.
  apply (ack_means_committed ex_plane (ex_db 3) ex_acked.2 (v7 3) ex_denial ex_ack (ex_replay 31) (ex_reachable _)).
  exact ex_acked_eq.
Defined.

(** The receipt is lost; the Gateway asks again after the cleanup. *)
Lemma lost_ack_is_harmless_witness :
  let d2 := central_run ex_plane [Replay (ex_replay 55) (v7 3) ex_cleanup] ex_acked.2 in
  cpReplayGatewayRecord ex_plane (v7 3) ex_denial (ex_replay 70) d2 = (Some ex_ack, d2).
Proof.
  apply (lost_ack_is_harmless ex_plane (ex_db 3) ex_acked.2 (v7 3) ex_denial ex_ack (ex_replay 31) (ex_replay 70)
    [Replay (ex_replay 55) (v7 3) ex_cleanup] (ex_reachable _) ex_acked_eq).
  split; [intros n; reflexivity..|split; reflexivity].
Defined.

Definition ex_granted : option string * CentralDb :=
  cpDecideGatewayAuthorization ex_plane (ex_grant (v7 41) 0) (ex_env 10) true (at_ 11) (at_ 11) (ex_db 1).
Definition ex_wire : string := default "" ex_granted.1.

Lemma ex_granted_eq :
  cpDecideGatewayAuthorization ex_plane (ex_grant (v7 41) 0) (ex_env 10) true (at_ 11) (at_ 11) (ex_db 1) = (Some ex_wire, ex_granted.2).
Proof.
  assert (H : is_some ex_granted.1 = true) by (vm_compute; reflexivity). exact (answered ex_granted H).
Qed.

Lemma decision_signed_is_recorded_witness :
  ∃ a row, admission_of (v7 1) (v7 2) ex_granted.2 = Some a ∧ latest_of (v7 1) ex_granted.2 = Some row ∧
    dr_Revoked row = false ∧ dr_RuntimeID row = v7 3 ∧ dr_Revision row = 1 ∧
    VerifyGatewayStatement ex_wire (Public example_central) = Some (decision_statement (decision_of a row)).
Proof.
  apply (decision_signed_is_recorded ex_plane (ex_db 1) ex_granted.2 (ex_grant (v7 41) 0) (ex_env 10) true (at_ 11) (at_ 11)
    ex_wire (ex_reachable _) ex_granted_eq).
Defined.

Definition ex_revoked : CentralDb :=
  central_run ex_plane
    (take 2 ex_events ++ [Decide (ex_env 15) true (at_ 16) (at_ 16) (mkDecisionRequest (v7 42) (v7 1) (v7 2) (v7 3) 1 0 true)]) ex_start.

Lemma revoked_never_granted_again_witness :
  (cpDecideGatewayAuthorization ex_plane (ex_grant (v7 43) 2) (ex_env 25) true (at_ 26) (at_ 26)
    (central_run ex_plane (drop 2 ex_events) ex_revoked)).1 = None.
Proof.
  apply (revoked_never_granted_again ex_plane ex_revoked (drop 2 ex_events) (ex_grant (v7 43) 2) (ex_env 25) true (at_ 26)
    (at_ 26) (ex_reachable _)).
  - vm_compute. reflexivity.
  - reflexivity.
Defined.

Definition ex_gateway : Authorization :=
  mkAuthorization (Public example_central) ex_binding zero_statement zero_statement zero_time (mkInstant 0 0) false.

Lemma decision_reaches_gateway_witness :
  (Accept (mkInstant (at_ 12) 12) ex_wire ex_gateway).1 = true ∧
  au_current (Accept (mkInstant (at_ 12) 12) ex_wire ex_gateway).2 = decision_statement (decision_of ex_admission ex_decision).
Proof.
  apply (decision_reaches_gateway ex_plane (ex_db 1) ex_granted.2 (ex_grant (v7 41) 0) (ex_env 10) true (at_ 11) (at_ 11)
    ex_wire ex_admission ex_decision ex_gateway (mkInstant (at_ 12) 12) (ex_reachable _) ex_granted_eq).
  - vm_compute. reflexivity.
  - vm_compute. reflexivity.
  - reflexivity.
  - vm_compute. reflexivity.
  - left. reflexivity.
  - vm_compute. reflexivity.
  - vm_compute. discriminate.
  - intros _. vm_compute. reflexivity.
Defined.
