(* ===== verification/VaultOrder.v ===== *)
(** * VaultOrder: what a credential keeps

    The configuration a credential stores, as the control plane can read it back,
    and the order of later states of the credential tables: identities stay, new
    versions have higher numbers, and the target of the configuration never moves. *)

From S2P Require Import Prelude GoStd Uuid CentralTx CentralStore.
From S2P Require Import RcloneConfig RcloneProps RcloneTarget StorageSecret StorageVault.
Open Scope Z_scope.
Open Scope go_scope.

Section Vault.
Context `{U : UuidPkg} `{AE : AEAD} `{T : TokenCodec} `{W : NetPkg}.
Variable key : string.

(** A credential stores an accepted configuration of its provider: its secret is
    present and opens to the canonical form. *)
Record stored (g : Storage) (c : StorageCredential) (config : Config) : Prop := {
  st_secret : ∃ e, sg_secrets g !! sc_SecretRef c = Some e ∧ openStorageSecret key c e = Some (Bytes config);
  st_accepted : ∃ raw, ParseConfig raw (sc_RemoteName c) = Some config;
  st_provider : storageProvider config = sc_Provider c }.

(** Two versions of a credential in one numbering. *)
Record follows_credential (c c' : StorageCredential) : Prop := {
  fc_id : sc_ID c' = sc_ID c;
  fc_remote : sc_RemoteName c' = sc_RemoteName c;
  fc_provider : sc_Provider c' = sc_Provider c;
  fc_revision : sc_Revision c ≤ sc_Revision c';
  fc_same : sc_Revision c' = sc_Revision c → c' = c;
  fc_secret_revision : sc_SecretRevision c ≤ sc_SecretRevision c';
  fc_same_secret : sc_SecretRevision c' = sc_SecretRevision c → sc_SecretRef c' = sc_SecretRef c }.

Global Instance follows_credential_preorder : PreOrder follows_credential.
Proof.
  split; [by split|]. intros a b c [] []. split; try congruence; try lia.
  intros Hr. assert (sc_Revision b = sc_Revision a) as Hb by lia. rewrite <- (fc_same0 Hb). apply fc_same1. congruence.
Qed.

(** Later tables. *)
Record vault_le (replace : bool) (g g' : Storage) : Prop := {
  vl_secrets : sg_secrets g ⊆ sg_secrets g';
  vl_credentials : ∀ id c, sg_credentials g !! id = Some c → ∃ c', sg_credentials g' !! id = Some c' ∧ follows_credential c c' ∧
    ∀ config, stored g c config → ∃ config', stored g' c' config' ∧ same replace config config' }.

Global Instance vault_le_preorder replace : PreOrder (vault_le replace).
Proof.
  split.
  - intros g. split; [done|]. intros id c Hc. exists c. split_and!; [done..|]. intros config Hs. by exists config.
  - intros g1 g2 g3 [Hs1 H1] [Hs2 H2]. split; [by etrans|]. intros id c Hc. destruct (H1 id c Hc) as (c2 & Hc2 & Hf2 & Hk2).
    destruct (H2 id c2 Hc2) as (c3 & Hc3 & Hf3 & Hk3). exists c3. split_and!; [done|by etrans|]. intros config Hst.
    destruct (Hk2 config Hst) as (config2 & Hst2 & Hsame2). destruct (Hk3 config2 Hst2) as (config3 & Hst3 & Hsame3).
    exists config3. split; [done|]. by etrans.
Qed.

Lemma vault_le_weaken g g' : vault_le false g g' → vault_le true g g'.
Proof.
  intros [Hs H]. split; [done|]. intros id c Hc. destruct (H id c Hc) as (c' & Hc' & Hf & Hk). exists c'. split_and!; [done..|].
  intros config Hst. destruct (Hk config Hst) as (config' & Hst' & Hsame). exists config'. split; [done|]. by apply same_weaken.
Qed.

(** Every credential stores a configuration. *)
Definition vault_ok (g : Storage) : Prop :=
  ∀ id c, sg_credentials g !! id = Some c → sc_ID c = id ∧ 0 < sc_Revision c ∧ ∃ config, stored g c config.

(** What is stored depends on the secret's fields alone. *)
Definition same_secret (c c' : StorageCredential) : Prop :=
  sc_ID c' = sc_ID c ∧ sc_RemoteName c' = sc_RemoteName c ∧ sc_Provider c' = sc_Provider c ∧
  sc_SecretRef c' = sc_SecretRef c ∧ sc_SecretRevision c' = sc_SecretRevision c.

Lemma opens_same c c' e : same_secret c c' → openStorageSecret key c' e = openStorageSecret key c e.
Proof. intros (Hi & Hr & Hp & Hs & Hv). unfold openStorageSecret, storageAAD. by rewrite Hi, Hs, Hv. Qed.

Lemma stores_same g g' c c' config :
  sg_secrets g ⊆ sg_secrets g' → same_secret c c' → stored g c config → stored g' c' config.
Proof.
  intros Hsub Hsame [(e & He & Ho) Ha Hp]. pose proof Hsame as (Hi & Hr & Hpr & Hs & Hv). split.
  - exists e. rewrite Hs, (opens_same _ _ _ Hsame). split; [by eapply lookup_weaken|done].
  - by rewrite Hr.
  - by rewrite Hpr.
Qed.

(** What a credential stores, up to the bytes. *)
Lemma stored_bytes g c a b : stored g c a → stored g c b → Bytes a = Bytes b.
Proof. intros [(e & He & Ha) _ _] [(e' & He' & Hb) _ _]. simplify_eq. congruence. Qed.

Lemma same_provider replace a b : same replace a b → storageProvider a = storageProvider b.
Proof. intros H%same_Backend. unfold storageProvider. by rewrite H. Qed.

(** ** Changing one credential *)

Lemma vault_update replace g g' id c c' :
  vault_ok g → sg_credentials g !! id = Some c →
  sg_credentials g' = <[id := c']> (sg_credentials g) → sg_secrets g ⊆ sg_secrets g' → follows_credential c c' →
  (∀ config, stored g c config → ∃ config', stored g' c' config' ∧ same replace config config') →
  vault_ok g' ∧ vault_le replace g g'.
Proof.
  intros Hok Hc Hg Hs Hf Hk. destruct (Hok id c Hc) as (Hid & Hr & config & Hst). split.
  - intros j x. rewrite Hg. intros [[<- <-]|[Hne Hx]]%lookup_insert_Some.
    + destruct Hf. split_and!; [congruence|lia|]. destruct (Hk config Hst) as (config' & Hst' & _). eauto.
    + destruct (Hok j x Hx) as (Hj & Hrj & cj & Hstj). split_and!; [done..|]. exists cj. eapply stores_same; [done|by split_and!|done].
  - split; [done|]. intros j x Hx. rewrite Hg. destruct (decide (j = id)) as [->|Hne].
    + rewrite lookup_insert_eq. simplify_eq. eauto.
    + rewrite lookup_insert_ne by done. exists x. split_and!; [done..|]. intros cj Hstj. exists cj. split; [|done].
      eapply stores_same; [done|by split_and!|done].
Qed.

(** A change of metadata. *)
Lemma vault_metadata g g' id c c' :
  vault_ok g → sg_credentials g !! id = Some c →
  sg_credentials g' = <[id := c']> (sg_credentials g) → sg_secrets g ⊆ sg_secrets g' →
  same_secret c c' → sc_Revision c' = sc_Revision c + 1 → vault_ok g' ∧ vault_le false g g'.
Proof.
  intros Hok Hc Hg Hs Hsame Hr. pose proof Hsame as (Hi & Hre & Hp & Hsr & Hv).
  eapply vault_update; try done; [split; try congruence; lia|]. intros config Hst. exists config. split; [|done].
  by eapply stores_same.
Qed.

Context {HAE : AEADLaws}.

(** A new version of the secret, sealed for the next revision. *)
Lemma vault_version replace g g' id c c' for_c e env next raw :
  vault_ok g → sg_credentials g !! id = Some c → sg_secrets g !! se_ID e = None →
  sg_credentials g' = <[id := c']> (sg_credentials g) → sg_secrets g' = <[se_ID e := e]> (sg_secrets g) →
  sealStorageConfig key for_c next env = Some e → sc_ID for_c = sc_ID c → sc_SecretRevision for_c = sc_SecretRevision c + 1 →
  ParseConfig raw (sc_RemoteName c) = Some next → (∀ config, stored g c config → same replace config next) →
  sc_ID c' = sc_ID c → sc_RemoteName c' = sc_RemoteName c → sc_Provider c' = sc_Provider c → sc_SecretRef c' = se_ID e →
  sc_SecretRevision c' = sc_SecretRevision c + 1 → sc_Revision c' = sc_Revision c + 1 →
  vault_ok g' ∧ vault_le replace g g'.
Proof using HAE.
  intros Hok Hc Hfresh Hg Hs Hseal Hfi Hfv Hraw Hsame Hi Hre Hp Href Hv Hr.
  destruct (Hok id c Hc) as (_ & _ & config & Hst).
  eapply vault_update; try done; [rewrite Hs; by apply insert_subseteq|split; try congruence; lia|].
  intros old Hold. exists next. split; [|by apply Hsame]. split.
  - exists e. rewrite Hs, Href, lookup_insert_eq. split; [done|]. by eapply open_sealed; [exact Hseal|congruence..].
  - exists raw. by rewrite Hre.
  - rewrite Hp, <- (st_provider _ _ _ Hold). symmetry. by eapply same_provider, Hsame.
Qed.

(** A new credential. *)
Lemma vault_create g g' id c' for_c e env config raw :
  vault_ok g → sg_credentials g !! id = None → sg_secrets g !! se_ID e = None →
  sg_credentials g' = <[id := c']> (sg_credentials g) → sg_secrets g' = <[se_ID e := e]> (sg_secrets g) →
  sealStorageConfig key for_c config env = Some e → sc_ID c' = id → sc_ID for_c = id →
  sc_SecretRevision c' = sc_SecretRevision for_c → sc_SecretRef c' = se_ID e → 0 < sc_Revision c' →
  ParseConfig raw (sc_RemoteName c') = Some config → sc_Provider c' = storageProvider config →
  vault_ok g' ∧ vault_le false g g'.
Proof using HAE.
  intros Hok Hnone Hfresh Hg Hs Hseal Hi Hfi Hv Href Hr Hraw Hp.
  assert (Hsub : sg_secrets g ⊆ sg_secrets g') by (rewrite Hs; by apply insert_subseteq). split.
  - intros j x. rewrite Hg. intros [[<- <-]|[Hne Hx]]%lookup_insert_Some.
    + split_and!; [done..|]. exists config. split; [|by eexists|done]. exists e. rewrite Hs, Href, lookup_insert_eq. split; [done|].
      by eapply open_sealed; [exact Hseal|congruence..].
    + destruct (Hok j x Hx) as (Hj & Hrj & cj & Hstj). split_and!; [done..|]. exists cj. eapply stores_same; [done|by split_and!|done].
  - split; [done|]. intros j x Hx. rewrite Hg, lookup_insert_ne by congruence. exists x. split_and!; [done..|]. intros cj Hstj.
    exists cj. split; [|done]. eapply stores_same; [done|by split_and!|done].
Qed.
End Vault.
