(* ===== verification/VaultRefine.v ===== *)
(** * VaultRefine: transactions on the credential tables

    Every transaction that changes the credential tables turns them into later
    tables in the order of VaultOrder: the refresh in a Gateway's record, the
    refresh of a lent configuration, and the saving of a credential. *)

From S2P Require Import Prelude GoStd Uuid Platform GatewaySession GatewayAuth AuditChain PendingRecord CentralTx CentralStore.
From S2P Require Import RcloneConfig RcloneProps RcloneTarget StorageSecret CentralTrace CentralRefine CentralPlane StorageVault.
From S2P Require Import CentralFrame VaultOrder.
Open Scope Z_scope.
Open Scope go_scope.
Open Scope central_scope.

Section Vault.
Context `{U : UuidPkg} `{P : Platform} `{C : AuditCodec} `{AE : AEAD} `{T : TokenCodec} `{W : NetPkg}.
Variable key : string.

(** Tables that are later than [g], and again in order. *)
Definition ok_from (replace : bool) (g g' : Storage) : Prop := vault_ok key g' ∧ vault_le key replace g g'.

Lemma ok_from_refl replace g : vault_ok key g → ok_from replace g g.
Proof. intros Hok. by split. Qed.

Lemma ok_from_later replace g g1 g2 : ok_from replace g g1 → vault_ok key g2 ∧ vault_le key replace g1 g2 → ok_from replace g g2.
Proof. intros [_ H1] [Hok H2]. split; [done|]. by etrans. Qed.

(** Databases whose tables are later. *)
Definition later_tables (replace : bool) (d d' : CentralDb) : Prop :=
  vault_ok key (cd_storage d) → ok_from replace (cd_storage d) (cd_storage d').

Global Instance later_tables_preorder replace : PreOrder (later_tables replace).
Proof.
  split; [intros d Hok; by apply ok_from_refl|]. intros d1 d2 d3 H12 H23 Hok. eapply ok_from_later; [by apply H12|]. apply H23, H12, Hok.
Qed.

Global Instance later_tables_aside replace : Asideable (later_tables replace).
Proof. intros d d' [Hs _ _] Hok. unfold ok_from. rewrite Hs. by split. Qed.

(** A transaction that only leads to later tables. *)
Notation keeps replace m := (within (later_tables replace) m).

(** ** Refreshed configurations *)

Context {HAE : AEADLaws} {HT : TokenLaws} {HW : NetLaws}.

(** What a secret opens to is the stored configuration, up to a token. *)
Lemma openConfig_stored g c config e previous :
  stored key g c config → sg_secrets g !! sc_SecretRef c = Some e → openConfig key c e = Some previous → same false config previous.
Proof using HT HW.
  intros [(e' & He' & Ho) [raw Ha] _] He Hp. simplify_eq. unfold openConfig in Hp. rewrite Ho in Hp. cbn [mbind option_bind] in Hp.
  destruct (ParseConfig (Bytes config) _) as [p|] eqn:Hx; [|done]. cbn [mbind option_bind] in Hp.
  destruct (_ != _); [done|]. injection Hp as <-. by eapply Bytes_again.
Qed.

Lemma validateRefresh_inv config env c e e' :
  validateRefresh key config env c e = Some e' →
  ∃ previous next, openConfig key c e = Some previous ∧ ParseConfig config (sc_RemoteName c) = Some next ∧
    same false previous next ∧ sealStorageConfig key (with_revision (sc_SecretRevision c + 1) (sl_clock env) c) next env = Some e'.
Proof using Type.
  unfold validateRefresh. destruct (openConfig key c e) as [p|]; [|done]. cbn [mbind option_bind].
  destruct (ParseConfig config _) as [n|]; [|done]. cbn [mbind option_bind]. destruct (negb _) eqn:Hs; [done|].
  apply negb_false_iff in Hs. destruct (_ == _); [done|]. intros Hseal. by exists p, n.
Qed.

(** The rows of a refresh. *)
Lemma refresh_rows_inv id e now w w' c :
  refresh_rows id e now w = Some w' → sg_credentials (cd_storage w) !! id = Some c →
  sg_secrets (cd_storage w) !! se_ID e = None ∧
  sg_credentials (cd_storage w') = <[id := refreshed e now c]> (sg_credentials (cd_storage w)) ∧
  sg_secrets (cd_storage w') = <[se_ID e := e]> (sg_secrets (cd_storage w)).
Proof using Type.
  unfold refresh_rows, insertSecret, insert_revision. intros H Hc. rewrite Hc in H.
  destruct (sg_secrets (cd_storage w) !! se_ID e); [done|]. destruct (_ || _); [done|]. cbn in H.
  destruct (_ || _ || _ || _); [done|]. by injection H as <-.
Qed.

(** A refresh whose configuration differs from the stored one in a token only. *)
Lemma refresh_keeps id e now w w' c env for_c next raw :
  vault_ok key (cd_storage w) → sg_credentials (cd_storage w) !! id = Some c → refresh_rows id e now w = Some w' →
  sealStorageConfig key for_c next env = Some e → sc_ID for_c = sc_ID c → sc_SecretRevision for_c = sc_SecretRevision c + 1 →
  ParseConfig raw (sc_RemoteName c) = Some next → (∀ config, stored key (cd_storage w) c config → same false config next) →
  vault_ok key (cd_storage w') ∧ vault_le key false (cd_storage w) (cd_storage w').
Proof using HAE.
  intros Hok Hc Hw Hseal Hi Hv Hraw Hsame. destruct (refresh_rows_inv _ _ _ _ _ _ Hw Hc) as (Hf & Hg & Hs).
  by eapply vault_version; [exact HAE|exact Hok|exact Hc|exact Hf|exact Hg|exact Hs|exact Hseal| | |exact Hraw|exact Hsame|..].
Qed.

Lemma no_row_refresh id e now w w' : refresh_rows id e now w = Some w' → sg_credentials (cd_storage w) !! id = None → w' = w.
Proof using Type. unfold refresh_rows. intros H Hn. rewrite Hn in H. by injection H. Qed.

(** ** A record of the Gateway (gateway_pending.go) *)

Lemma effect_keeps r o expires now config env :
  keeps false (pending_effect r o expires now ((λ config, validateRefresh key config env) <$> config)).
Proof using HAE HT HW.
  unfold pending_effect. cbv zeta. destruct (pc_Kind r == "audit"); [stays|]. destruct (pc_Kind r == "refresh"); [|stays].
  destruct (pc_Audit r); [stays|]. destruct config as [config|]; cbn [fmap option_fmap option_map]; [|stays].
  destruct (negb _); [stays|]. intros w c. unfold scanCredential. wp_run; try (split; [reflexivity|by left]).
  apply wp_exec; [split; [reflexivity|by left]|]. intros t3 w' Hrows.
  match goal with H : sg_credentials _ !! _ = Some ?x |- _ => rename x into cred, H into Hcred end.
  match goal with H : validateRefresh _ _ _ _ _ = Some ?x |- _ => rename x into e', H into Hv end.
  match goal with H : sg_secrets _ !! _ = Some ?x |- _ => rename x into env0, H into Hsec end.
  destruct (validateRefresh_inv _ _ _ _ _ Hv) as (previous & next & Hop & Hnext & Hsame & Hseal).
  apply wp_onward; [exact _| |stays]. intros Hok.
  eapply refresh_keeps; [exact Hok|exact Hcred|exact Hrows|exact Hseal|done|done|exact Hnext|].
  intros old Hold. etrans; [by eapply openConfig_stored|done].
Qed.

Lemma Commit_keeps r config env : keeps false (CommitGatewayPending r ((λ config, validateRefresh key config env) <$> config)).
Proof using HAE HT HW.
  unfold CommitGatewayPending. cbv zeta. pose proof effect_keeps as He. stays; try apply He; intros ? ? ? ?; apply aside_within; aside_row.
Qed.

(** ** Saving a credential (postgres/storage.go) *)

Context `{L : Collation}.

(** The row an update leaves. *)
Definition saved_row (x c : StorageCredential) (changed : bool) : StorageCredential :=
  mkCredential (sc_ID x) (sc_Name x) (sc_Provider x) (sc_RemoteName x) (sc_Status c) (sc_SecretRef c)
    (sc_SecretRevision c) (sc_Revision x + 1) (sc_CreatedAt x) (sc_UpdatedAt c) (sc_LastTestOperationID x)
    (if changed then None else sc_LastTestedAt x) (if changed then "" else sc_LastTestResult x) (sc_LastRefreshedAt x).

Definition created_row (c : StorageCredential) : StorageCredential :=
  mkCredential (sc_ID c) (sc_Name c) (sc_Provider c) (sc_RemoteName c) (sc_Status c) (sc_SecretRef c)
    (sc_SecretRevision c) 1 (sc_CreatedAt c) (sc_CreatedAt c) None None "" None.

Lemma put_credential_inv c g g' :
  put_credential c g = Some g' → sg_credentials g' = <[sc_ID c := c]> (sg_credentials g) ∧ sg_secrets g' = sg_secrets g.
Proof using Type. unfold put_credential. destruct (credential_check c g); [|done]. by intros [= <-]. Qed.

Lemma insertSecret_inv e g g' :
  insertSecret e g = Some g' →
  sg_secrets g !! se_ID e = None ∧ sg_credentials g' = sg_credentials g ∧ sg_secrets g' = <[se_ID e := e]> (sg_secrets g).
Proof using Type.
  unfold insertSecret. destruct (sg_secrets g !! se_ID e); [done|]. cbn. destruct (negb _); [done|]. by intros [= <-].
Qed.

Lemma insert_revision_inv id r s g g' :
  insert_revision id r s g = Some g' → sg_credentials g' = sg_credentials g ∧ sg_secrets g' = sg_secrets g.
Proof using Type. unfold insert_revision. destruct (_ || _); [done|]. by intros [= <-]. Qed.

Lemma on_storage_inv f d d' : on_storage f d = Some d' → ∃ g, f (cd_storage d) = Some g ∧ cd_storage d' = g.
Proof using Type. unfold on_storage. destruct (f (cd_storage d)) as [g|]; [|done]. intros [= <-]. by exists g. Qed.

(** The statements of a save, one by one. *)
Lemma wp_save_check c expected (secret : option SecretEnvelope) w k :
  wp (if 0 <? expected then
       let* current := scanCredential (sc_ID c) in
       let* _ := match secret with Some _ => ensureNoBackupAdmission (sc_ID c) | None => tret () end in
       if sc_Revision current != expected then tfail ErrRevisionConflict else tret ()
     else tret ())
    (λ r w' k', w' = w ∧ k' = k ∧
       (r = Ok () → 0 < expected → ∃ x, sg_credentials (cd_storage w) !! sc_ID c = Some x ∧ sc_Revision x = expected)) w k.
Proof using Type.
  destruct (0 <? expected) eqn:Hx; [|apply wp_ret; split_and!; [done..|]; intros _ ?; bool_prop; lia].
  unfold scanCredential, ensureNoBackupAdmission. wp_run; split_and!; try done; intros _ _; eexists; (split; [done|]); bool_prop; done.
Qed.

Definition secret_saved (secret : option SecretEnvelope) (g g' : Storage) : Prop :=
  match secret with
  | Some e => sg_secrets g !! se_ID e = None ∧ sg_secrets g' = <[se_ID e := e]> (sg_secrets g)
  | None => sg_secrets g' = sg_secrets g
  end.

Lemma wp_save_secret secret w k :
  wp (match secret with Some e => exec (λ _, on_storage (insertSecret e)) | None => tret () end)
    (λ r w' k', k' = k ∧ (r = Ok () → sg_credentials (cd_storage w') = sg_credentials (cd_storage w) ∧
       secret_saved secret (cd_storage w) (cd_storage w'))) w k.
Proof using Type.
  destruct secret as [e|]; [|by apply wp_ret]. apply wp_exec; [done|]. intros t w' (g & Hg & Hw')%on_storage_inv. split; [done|]. intros _.
  apply insertSecret_inv in Hg as (? & ? & ?). unfold secret_saved. by rewrite Hw'.
Qed.

Definition row_saved (c : StorageCredential) (expected : Z) (changed : bool) (g g' : Storage) : Prop :=
  (expected = 0 → sg_credentials g !! sc_ID c = None ∧ sg_credentials g' = <[sc_ID c := created_row c]> (sg_credentials g)) ∧
  (0 < expected → ∃ x, sg_credentials g !! sc_ID c = Some x ∧ sc_Revision x = expected ∧
     sg_credentials g' = <[sc_ID x := saved_row x c changed]> (sg_credentials g)).

Lemma wp_save_row c expected changed w k :
  0 ≤ expected → (0 < expected → ∃ x, sg_credentials (cd_storage w) !! sc_ID c = Some x ∧ sc_Revision x = expected) →
  wp (if expected == 0 then exec_unique ErrAlreadyExists (credential_exists c) (λ _, on_storage (insert_credential c))
      else exec (λ _, on_storage (update_credential c changed)))
    (λ r w' k', k' = k ∧ (r = Ok () → sg_secrets (cd_storage w') = sg_secrets (cd_storage w) ∧
       row_saved c expected changed (cd_storage w) (cd_storage w'))) w k.
Proof using Type.
  intros H0 Hcur. destruct (bool_decide_reflect (expected = 0)) as [->|Hne].
  - apply wp_exec_unique; [done|]. intros t w' Hx (g & Hg & Hw')%on_storage_inv. split; [done|]. intros _.
    apply put_credential_inv in Hg as [Hg1 Hg2]. unfold credential_exists in Hx. apply orb_false_iff in Hx as [Hx _].
    rewrite Hw', Hg2. split; [done|]. split; [|lia]. intros _. split; [|exact Hg1].
    by destruct (sg_credentials (cd_storage w) !! sc_ID c).
  - apply wp_exec; [done|]. intros t w' (g & Hg & Hw')%on_storage_inv. split; [done|]. intros _.
    destruct Hcur as (x & Hx & Hxr); [lia|]. unfold update_credential in Hg. rewrite Hx in Hg.
    apply put_credential_inv in Hg as [Hg1 Hg2]. rewrite Hw', Hg2. split; [done|]. split; [lia|]. intros _. by exists x.
Qed.

(** What a save that reaches its commit has made of the tables. *)
Definition saving (c : StorageCredential) (expected : Z) (secret : option SecretEnvelope) (g g' : Storage) : Prop :=
  row_saved c expected (is_some secret) g g' ∧ secret_saved secret g g'.

Lemma wp_save_end c expected audit (R : Storage → Prop) w k :
  R (cd_storage k) → R (cd_storage w) →
  wp (let* _ := append_audit audit in let* _ := commit in tret (with_result (expected + 1) c)) (λ _ _ k', R (cd_storage k')) w k.
Proof using Type.
  intros Hk Hr. apply wp_bind, wp_frame; [stays|]. intros [[]|x] w1 k1 Hw1 Hk1.
  - assert (Hr1 : R (cd_storage w1)) by (by rewrite Hw1).
    apply wp_bind, wp_commit; [destruct Hk1 as [->| ->]; done|done|by apply wp_ret].
  - destruct Hk1 as [->| ->]; done.
Qed.

Lemma wp_save c expected secret audit (R : Storage → Prop) w k :
  0 ≤ expected → R (cd_storage k) → (∀ g', saving c expected secret (cd_storage w) g' → R g') →
  wp (SaveStorageCredential c expected secret audit) (λ _ _ k', R (cd_storage k')) w k.
Proof using Type.
  intros H0 Hk HR. unfold SaveStorageCredential. apply wp_bind.
  eapply wp_mono; [|apply (wp_save_check c expected secret)]. intros r w0 k0 (-> & -> & Hcur). destruct r as [[]|x]; [|done].
  specialize (Hcur eq_refl). apply wp_bind. eapply wp_mono; [|apply wp_save_secret].
  intros r w1 k1 (-> & H1). destruct r as [[]|x]; [|done]. destruct (H1 eq_refl) as [Hc1 Hs1].
  apply wp_bind. eapply wp_mono; [|apply wp_save_row; [done|by rewrite Hc1]].
  intros r w2 k2 (-> & H2). destruct r as [[]|x]; [|done]. destruct (H2 eq_refl) as [Hs2 Hr2].
  assert (Hrow : row_saved c expected (is_some secret) (cd_storage w) (cd_storage w2)) by (unfold row_saved in *; by rewrite <- !Hc1).
  apply wp_bind. destruct secret as [e|].
  - apply wp_exec; [done|]. intros t w3 (g & Hg & Hw3)%on_storage_inv. apply insert_revision_inv in Hg as [Hg1 Hg2].
    apply wp_save_end; [done|]. apply HR. unfold saving, row_saved, secret_saved in *. by rewrite Hw3, Hg1, Hg2, Hs2.
  - apply wp_ret, wp_save_end; [done|]. apply HR. unfold saving, secret_saved in *. by rewrite Hs2.
Qed.

(** ** Lent configurations (backup_material.go) *)

(** Accepted configurations with one canonical form are the same. *)
Lemma accepted_same raw1 raw2 remote a b :
  ParseConfig raw1 remote = Some a → ParseConfig raw2 remote = Some b → Bytes a = Bytes b → same false a b.
Proof using HT HW.
  intros Ha Hb Heq. pose proof (parsed_ok _ _ _ _ Ha) as [Hoka _]. pose proof (parsed_ok _ _ _ _ Hb) as [Hokb _].
  apply Bytes_read_back in Hoka, Hokb. rewrite Heq, Hokb in Hoka. injection Hoka as Hsec.
  apply parseConfig_inv in Ha as (? & ? & ? & ? & ? & ? & ? & _ & _ & _ & _ & _ & _ & _ & _ & _ & Hca).
  apply parseConfig_inv in Hb as (? & ? & ? & ? & ? & ? & ? & _ & _ & _ & _ & _ & _ & _ & _ & _ & Hcb).
  apply sameConfig_agree. split_and!.
  - by rewrite Hca, Hcb.
  - apply (f_equal dom) in Hsec. by rewrite !dom_fmap_L in Hsec.
  - intros name old new Ho Hn k. apply agree_refresh. left. apply (f_equal (lookup name)) in Hsec.
    rewrite !lookup_fmap, Ho, Hn in Hsec. injection Hsec as Hsec. by rewrite <- (nonempty_get old), <- Hsec, nonempty_get.
Qed.

(** What a loan remembers of a credential. *)
Definition lent_row (g : Storage) (credential : StorageCredential) (previous : Config) : Prop :=
  ∃ c, sg_credentials g !! sc_ID credential = Some c ∧ sc_ID c = sc_ID credential ∧ sc_RemoteName c = sc_RemoteName credential ∧
    sc_SecretRevision credential ≤ sc_SecretRevision c ∧
    (sc_SecretRevision c = sc_SecretRevision credential → ∀ config, stored key g c config → same false config previous).

Lemma lent_row_later replace g g' credential previous :
  vault_ok key g → vault_le key replace g g' → lent_row g credential previous → lent_row g' credential previous.
Proof using Type.
  intros Hok [Hsub Hle] (c & Hc & Hi & Hr & Hv & Hs). destruct (Hle _ _ Hc) as (c' & Hc' & [] & Hk). exists c'.
  split_and!; [done|congruence|congruence|lia|]. intros Heq config Hst.
  assert (Hsame : sc_SecretRevision c' = sc_SecretRevision c) by lia. destruct (Hok _ _ Hc) as (_ & _ & old & Hold).
  apply Hs; [congruence|]. assert (Hss : same_secret c c') by (split_and!; auto).
  destruct Hold as [(e & He & Ho) _ _]. destruct Hst as [(e' & He' & Ho') Ha Hp]. split.
  - exists e. split; [done|]. rewrite (fc_same_secret Hsame) in He'. pose proof (lookup_weaken _ _ _ _ He Hsub) as He2.
    rewrite He2 in He'. injection He' as <-. by rewrite <- (opens_same key c c' e).
  - by rewrite <- fc_remote.
  - by rewrite <- fc_provider.
Qed.

Definition lent_admission (id : uuid) (credential : StorageCredential) (d : CentralDb) : Prop :=
  ∃ a, cd_admissions d !! id = Some a ∧ ba_StorageCredentialID a = sc_ID credential.

Lemma wp_reject_storage {A} id repo cause (Q : result dberr A → CentralDb → CentralDb → Prop) d :
  (∀ x w' k', cd_storage k' = cd_storage d → Q (Err x) w' k') → wp (rejectBackupAdmission id repo cause) Q d d.
Proof using Type.
  intros He. assert (Hfail : wp (rejectBackupAdmission (A := A) id repo cause) (λ r _ _, ∃ x, r = Err x) d d).
  { unfold rejectBackupAdmission. apply wp_bind, wp_frame; [stays|]. intros [[]|x] w' k' _ _; [|eauto]. wp_run; eauto. }
  eapply wp_mono; [|apply wp_conj; [exact Hfail|apply wp_frame; [stays|exact (λ _ _ _ _ Hk, Hk)]]].
  intros r w' k' [[x ->] Hk]. apply He. tauto.
Qed.

Lemma wp_lock_or_reject id owner hash (Q : result dberr BackupAdmission → CentralDb → CentralDb → Prop) d :
  (∀ x w' k', cd_storage k' = cd_storage d → Q (Err x) w' k') → (∀ a, cd_admissions d !! id = Some a → Q (Ok a) d d) →
  wp (lock_or_reject id owner hash) Q d d.
Proof using Type.
  intros He Hok. unfold lock_or_reject. apply wp_bind, wp_attempt, wp_lock.
  - intros x. destruct x; try (by apply wp_fail, He). apply wp_reject_storage, He.
  - intros a Ha _ _. apply wp_ret, Hok. by apply admission_of_inv in Ha as [? _].
Qed.

(** The tail of a transaction: frames, then the commit. *)
Lemma wp_frame_commit {A} (m : Tx ()) (a : A) (Q : result dberr A → Storage → Prop) w k :
  within (kept cd_storage) m → (∀ x, Q (Err x) (cd_storage k)) → (∀ x, Q (Err x) (cd_storage w)) → Q (Ok a) (cd_storage w) →
  wp (let* _ := m in let* _ := commit in tret a) (λ r _ k', Q r (cd_storage k')) w k.
Proof using Type.
  intros Hm Hk Hw Ha. apply wp_bind, wp_frame; [done|]. intros [[]|x] w1 k1 Hw1 Hk1.
  - apply wp_bind, wp_commit; [destruct Hk1 as [->| ->]; done|by rewrite Hw1|by apply wp_ret; rewrite Hw1].
  - destruct Hk1 as [->| ->]; done.
Qed.

Lemma lent_row_refreshed id e now w w' c env for_c next raw :
  refresh_rows id e now w = Some w' → sg_credentials (cd_storage w) !! id = Some c → sc_ID c = id →
  sealStorageConfig key for_c next env = Some e → sc_ID for_c = sc_ID c → sc_SecretRevision for_c = sc_SecretRevision c + 1 →
  ParseConfig raw (sc_RemoteName c) = Some next → lent_row (cd_storage w') (refreshed e now c) next.
Proof using HAE HT HW.
  intros Hw Hc Hi Hseal Hfi Hfv Hraw. destruct (refresh_rows_inv _ _ _ _ _ _ Hw Hc) as (_ & Hg & Hs).
  exists (refreshed e now c). split_and!; [|done|done|done|].
  - rewrite Hg. cbn. by rewrite Hi, lookup_insert_eq.
  - intros _ config [(e' & He' & Ho) [raw' Ha] _]. rewrite Hs in He'. cbn in He', Ha. rewrite lookup_insert_eq in He'. injection He' as <-.
    erewrite open_sealed in Ho; [|exact Hseal|done..]. injection Ho as Hb. by eapply accepted_same.
Qed.

(** The outcome of a loan's refresh. *)
Definition loan_refreshed (g : Storage) (credential : StorageCredential) (next : Config) (r : result dberr StorageCredential) (g' : Storage) : Prop :=
  ok_from false g g' ∧ ∀ saved, r = Ok saved → lent_row g' saved next ∧ sc_ID saved = sc_ID credential.

Lemma Refresh_vault id owner hash credential previous next raw env clk e d :
  vault_ok key (cd_storage d) → lent_row (cd_storage d) credential previous → lent_admission id credential d →
  ParseConfig raw (sc_RemoteName credential) = Some next → same false previous next →
  sealStorageConfig key (with_revision (sc_SecretRevision credential + 1) clk credential) next env = Some e →
  wp (RefreshBackupAdmission id owner hash (sc_SecretRevision credential) e)
    (λ r _ k', loan_refreshed (cd_storage d) credential next r (cd_storage k')) d d.
Proof using HAE HT HW.
  intros Hok (c & Hc & Hi & Hre & Hle & Hcfg) (a & Ha & Haid) Hraw Hsame Hseal.
  assert (Herr : ∀ x, loan_refreshed (cd_storage d) credential next (Err x) (cd_storage d)) by (split; [by apply ok_from_refl|done]).
  unfold RefreshBackupAdmission. apply wp_bind, wp_lock_or_reject; [by intros x w' k' ->|]. intros a' Ha'. simplify_eq. rewrite Haid.
  apply wp_bind, wp_select; [done|]. intros _. destruct (is_some _); [by apply wp_fail|].
  unfold scanCredential. apply wp_bind, wp_bind, wp_select; [done|]. intros _. rewrite Hc. apply wp_ret.
  destruct ((_ <? 1) || _) eqn:Hrev; [by apply wp_fail|]. destruct ((se_Kind e != _) || _); [by apply wp_fail|]. bool_prop.
  match goal with H : sc_SecretRevision c = sc_SecretRevision credential |- _ => rename H into Hrev end.
  apply wp_bind, wp_select; [done|]. intros t. apply wp_bind, wp_exec; [done|]. intros _ w' Hrows.
  assert (Hseal' := Hseal). assert (Hok' : ok_from false (cd_storage d) (cd_storage w')).
  { eapply ok_from_later; [by apply ok_from_refl|]. eapply refresh_keeps; [exact Hok|exact Hc|exact Hrows|exact Hseal|done| |by rewrite Hre|].
    - cbn. by rewrite Hrev.
    - intros old Hold. etrans; [by apply Hcfg|done]. }
  destruct (refresh_rows_inv _ _ _ _ _ _ Hrows Hc) as (_ & Hg & _).
  apply wp_bind, wp_bind, wp_select; [done|]. intros _. rewrite Hg, lookup_insert_eq. apply wp_ret.
  assert (Hlent : lent_row (cd_storage w') (refreshed e t c) next).
  { eapply lent_row_refreshed; [exact Hrows|exact Hc|done|exact Hseal|done| |by rewrite Hre]. cbn. by rewrite Hrev. }
  apply wp_bind, wp_frame; [stays|]. intros r w1 k1 Hw1 Hk1.
  assert (Hk1e : ∀ x, loan_refreshed (cd_storage d) credential next (Err x) (cd_storage k1)) by (intros x; destruct Hk1 as [->| ->]; by split).
  destruct r as [[]|x]; [|done]. rewrite <- Hw1 in Hok', Hlent.
  apply wp_frame_commit; [stays|done|by split|]. split; [done|]. intros saved [= <-]. by split.
Qed.
End Vault.
