(* ===== verification/VaultHistory.v ===== *)
(** * VaultHistory: histories of the credential tables

    Every interleaving of the Gateway's calls, the management of storage
    credentials, and the loans of their configurations, as a step relation over
    the database and the calls in progress. *)

From S2P Require Import Prelude GoStd Uuid Platform GatewaySession GatewayAuth AuditChain PendingRecord CentralTx CentralStore.
From S2P Require Import RcloneConfig RcloneProps RcloneTarget StorageSecret CentralTrace CentralGrowth CentralRefine CentralPlane.
From S2P Require Import StorageVault CentralHistory CentralFrame VaultOrder VaultRefine.
Open Scope Z_scope.
Open Scope go_scope.
Open Scope central_scope.

(** ** Transactions on other tables *)

Section Calls.
Context `{U : UuidPkg} `{P : Platform} `{C : AuditCodec} `{L : Collation}.

Lemma on_storage_quiet f d d' : on_storage f d = Some d' → quiet d d'.
Proof using Type. unfold on_storage. destruct (f _); [|done]. intros [= <-]. by split. Qed.

Lemma within_denied R `{!PreOrder R} `{!Audited R} now action resource reason meta : within R (RecordDenied now action resource reason meta).
Proof using Type. unfold RecordDenied, auditEvent, RecordAudit. stays. Qed.

Lemma within_userAudit R `{!PreOrder R} now action resource id actor meta reason changes :
  within R (userAudit now action resource id actor meta reason changes).
Proof using Type. unfold userAudit, auditEvent. stays. Qed.

Lemma quiet_save c expected secret audit : within quiet (SaveStorageCredential c expected secret audit).
Proof using Type.
  unfold SaveStorageCredential, scanCredential, ensureNoBackupAdmission. stays.
  all: intros ? ? ?; apply on_storage_quiet.
Qed.

Lemma changes_of_quiet d d' : quiet d d' → changes d d'.
Proof using Type. intros Hq. eapply rtc_once, step_quiet, Hq. Qed.
End Calls.

(** ** The calls of the control plane *)

Section Vault.
Context `{U : UuidPkg} `{P : Platform} `{E : Ed25519} `{C : AuditCodec} `{S : StatementCodec} `{N : PendingCodec}.
Context `{AE : AEAD} `{T : TokenCodec} `{W : NetPkg} `{L : Collation}.
Context {HU : UuidLaws} {HAE : AEADLaws} {HT : TokenLaws} {HW : NetLaws}.
Variable c : Plane.
Notation key := (cp_masterKey c).

(** What a call may do to the database. *)
Definition safe (replace : bool) (d d' : CentralDb) : Prop :=
  changes d d' ∧ ok_from key replace (cd_storage d) (cd_storage d').

Lemma safe_refl replace d : vault_ok key (cd_storage d) → safe replace d d.
Proof using Type. intros Hok. split; [apply rtc_refl|by apply ok_from_refl]. Qed.

Lemma safe_trans replace d1 d2 d3 : safe replace d1 d2 → safe replace d2 d3 → safe replace d1 d3.
Proof using Type. intros [H1 H2] [H3 H4]. split; [by etrans|]. by eapply ok_from_later. Qed.

Lemma safe_weaken d d' : safe false d d' → safe true d d'.
Proof using Type. intros [H1 [H2 H3]]. split; [done|]. split; [done|]. by apply vault_le_weaken. Qed.

Lemma safe_ok replace d d' : safe replace d d' → vault_ok key (cd_storage d').
Proof using Type. by intros [_ [H _]]. Qed.

Lemma safe_framed replace d d' : vault_ok key (cd_storage d) → changes d d' → cd_storage d' = cd_storage d → safe replace d d'.
Proof using Type. intros Hok Hc Hs. split; [done|]. rewrite Hs. by apply ok_from_refl. Qed.

Lemma safe_aside {A} replace (m : Tx A) e d :
  within quiet m → within (kept cd_storage) m → vault_ok key (cd_storage d) → safe replace d (run_tx m e d).2.
Proof using Type.
  intros Hq Hf Hok. apply safe_framed; [done|by apply changes_of_quiet, (within_run quiet)|by apply (within_run (kept cd_storage))].
Qed.

Lemma denied_safe {A} replace action reason meta cause e d :
  vault_ok key (cd_storage d) → safe replace d (denied (A := A) action reason meta cause e d).2.
Proof using Type.
  intros Hok. unfold denied. pose proof (safe_aside replace (RecordDenied (ce_clock e) action "STORAGE_CREDENTIAL" reason meta) (ce_denied e) d) as H.
  destruct (run_tx _ _ d) as [r d']. apply H; [apply within_denied; exact _..|done].
Qed.

Lemma admin_safe replace actor meta e d : vault_ok key (cd_storage d) → safe replace d (requireStorageAdmin c actor meta e d).2.
Proof using Type.
  intros Hok. unfold requireStorageAdmin. destruct (_ != RoleAdmin); [by apply denied_safe|]. destruct (_ != 32); by apply safe_refl.
Qed.

(** The transaction of a save, after its audit event was made. *)
Lemma save_safe replace audit x expected secret e d :
  within quiet audit → within (kept cd_storage) audit → vault_ok key (cd_storage d) → 0 ≤ expected →
  (∀ g', saving x expected secret (cd_storage d) g' → ok_from key replace (cd_storage d) g') →
  safe replace d (run_tx (let* a := audit in SaveStorageCredential x expected secret a) e d).2.
Proof using Type.
  intros Hq Hf Hok H0 Hsave. split; [apply changes_of_quiet, (within_run quiet), within_bind; [exact _|done|intros a; apply quiet_save]|].
  apply (wp_run _ (λ _ d', ok_from key replace (cd_storage d) (cd_storage d'))). apply wp_bind, wp_frame; [done|]. intros [a|y] w' k' Hw Hk.
  - apply wp_save; [done| |by rewrite Hw]. destruct Hk as [->| ->]; by apply ok_from_refl.
  - destruct Hk as [->| ->]; by apply ok_from_refl.
Qed.

Lemma Create_safe name remote raw actor meta e d :
  vault_ok key (cd_storage d) → safe false d (CreateStorageCredential c name remote raw actor meta e d).2.
Proof using HAE.
  intros Hok. unfold CreateStorageCredential. pose proof (admin_safe false actor meta e d Hok) as Ha.
  destruct (requireStorageAdmin c actor meta e d) as [[[]|x] d1]; [|done]. cbn in Ha. cbv zeta. destruct (negb (valid_name _)); [done|].
  eapply safe_trans; [exact Ha|]. apply safe_ok in Ha. destruct (ParseConfig raw remote) as [config|] eqn:Hraw; [|by apply denied_safe].
  destruct (ce_id e) as [id|]; [|by apply safe_refl]. unfold saveStorageConfig.
  destruct (sealStorageConfig _ _ _ _) as [env|] eqn:Hseal; [|by apply safe_refl]. cbv zeta.
  match goal with |- context [run_tx (let* a := ?m in SaveStorageCredential ?x ?r ?s a) ?e ?d] =>
    pose proof (save_safe false m x r s e d) as H; destruct (run_tx (let* a := m in SaveStorageCredential x r s a) e d) as [res d2] end.
  apply H; [apply within_userAudit; exact _..|done|done|]. intros g' [[Hrow _] [Hfresh Hsec]]. destruct (Hrow eq_refl) as [Hnone Hrow'].
  apply (ok_from_later _ _ _ (cd_storage d1)); [by apply ok_from_refl|].
  eapply vault_create; [exact _|done|exact Hnone|exact Hfresh|exact Hrow'|exact Hsec|exact Hseal|done..|exact Hraw|done].
Qed.

(** What a call in progress holds. *)
Definition copy_ok (g : Storage) (x : StorageCredential) : Prop :=
  0 < sc_Revision x ∧ ∃ y, sg_credentials g !! sc_ID x = Some y ∧ follows_credential x y.

Lemma copy_ok_later replace g g' x : vault_le key replace g g' → copy_ok g x → copy_ok g' x.
Proof using Type.
  intros Hle (Hr & y & Hy & Hf). split; [done|]. destruct (vl_credentials _ _ _ _ Hle _ _ Hy) as (y' & Hy' & Hf' & _).
  exists y'. split; [done|]. by etrans.
Qed.

Definition call_ok (d : CentralDb) (k : call) : Prop :=
  match k with
  | Replacing x next _ _ => copy_ok (cd_storage d) x ∧ ∃ raw, ParseConfig raw (sc_RemoteName x) = Some next
  | Disabling x _ _ => copy_ok (cd_storage d) x
  | Lending id _ _ x previous => lent_row key (cd_storage d) x previous ∧ lent_admission id x d
  end.

Lemma call_ok_later replace d d' k : central_ok d → vault_ok key (cd_storage d) → safe replace d d' → call_ok d k → call_ok d' k.
Proof using Type.
  intros Hc Hv [Hch [_ Hle]]. destruct k as [x next a m|x a m|id owner hash x previous]; cbn.
  - intros [Hx Hr]. split; [by eapply copy_ok_later|done].
  - by apply copy_ok_later with replace.
  - intros [Hrow (a & Ha & Hid)]. split; [by eapply lent_row_later|].
    destruct (gr_admissions _ _ (changes_grows _ _ Hch) _ _ Ha) as (a' & Ha' & Hla). exists a'. split; [done|].
    by destruct Hla as [->|[_ [t ->]]].
Qed.

(** ** Reading a credential *)

Lemma scan_read id e d x : (run_tx (scanCredential id) e d).1 = Ok x → sg_credentials (cd_storage d) !! id = Some x.
Proof using Type.
  revert x. apply (wp_run (scanCredential id) (λ r _, ∀ x, r = Ok x → sg_credentials (cd_storage d) !! id = Some x)).
  unfold scanCredential. wp_run; try done; by intros ? [= <-].
Qed.

Lemma secret_read id e d x : (run_tx (StorageCredentialSecret id) e d).1 = Ok x → sg_secrets (cd_storage d) !! id = Some x.
Proof using Type.
  revert x. apply (wp_run (StorageCredentialSecret id) (λ r _, ∀ x, r = Ok x → sg_secrets (cd_storage d) !! id = Some x)).
  unfold StorageCredentialSecret. apply wp_bind, wp_select; [done|]. intros _.
  destruct (bool_decide _); [|by apply wp_fail]. destruct (_ !! id) eqn:Hx; [|by apply wp_fail].
  apply wp_ret. by intros ? [= <-].
Qed.

Lemma read_copy d id x : vault_ok key (cd_storage d) → sg_credentials (cd_storage d) !! id = Some x → copy_ok (cd_storage d) x.
Proof using Type. intros Hok Hx. destruct (Hok _ _ Hx) as (Hid & Hr & _). split; [done|]. exists x. by rewrite Hid. Qed.

(** What a first half does: nothing to the credentials, and its call holds a
    credential it read. *)
Definition begins (d : CentralDb) (p : result storage_error call * CentralDb) : Prop :=
  safe false d p.2 ∧ ∀ k, p.1 = Ok k → call_ok p.2 k.

Lemma begins_fail d x d' : safe false d d' → begins d (Err x, d').
Proof using Type. intros Hs. by split. Qed.

Lemma Replace_begins id revision raw actor meta e d :
  vault_ok key (cd_storage d) → begins d (ReplaceStorageCredential_read c id revision raw actor meta e d).
Proof using Type.
  intros Hok. unfold ReplaceStorageCredential_read. pose proof (admin_safe false actor meta e d Hok) as Ha.
  destruct (requireStorageAdmin c actor meta e d) as [[[]|x] d1]; [|by apply begins_fail]. cbn in Ha. pose proof (safe_ok _ _ _ Ha) as Hok1.
  destruct (run_tx (scanCredential id) _ d1).1 as [x|x] eqn:Hx; [|by apply begins_fail]. apply scan_read in Hx.
  destruct (_ != _); [by apply begins_fail|]. destruct (_ == _); [by apply begins_fail|].
  destruct (ParseConfig raw _) as [next|] eqn:Hraw.
  2: { unfold invalidStorageConfig. split; [eapply safe_trans; [exact Ha|by apply denied_safe]|].
       unfold denied. destruct (run_tx _ _ _) as [[]]; by intros k. }
  match goal with |- context [run_tx ?m ?t d1] =>
    assert (Hs : safe false d1 (run_tx m t d1).2) by
      (apply safe_aside; [apply within_bind; [exact _|apply within_userAudit; exact _|intros a; unfold RecordAudit; stays]..|done]);
    destruct (run_tx m t d1) as [r d2] end.
  cbn in Hs. split; [by eapply safe_trans|]. destruct r as [[]|y]; [|done]. intros k [= <-]. cbn. split; [|by exists raw].
  destruct Hs as [_ [_ Hle]]. eapply copy_ok_later; [exact Hle|]. by eapply read_copy.
Qed.

Lemma Disable_begins id revision actor meta e d :
  vault_ok key (cd_storage d) → begins d (DisableStorageCredential_read c id revision actor meta e d).
Proof using Type.
  intros Hok. unfold DisableStorageCredential_read. pose proof (admin_safe false actor meta e d Hok) as Ha.
  destruct (requireStorageAdmin c actor meta e d) as [[[]|x] d1]; [|by apply begins_fail]. cbn in Ha. pose proof (safe_ok _ _ _ Ha) as Hok1.
  destruct (run_tx (scanCredential id) _ d1).1 as [x|x] eqn:Hx; [|by apply begins_fail]. apply scan_read in Hx.
  destruct (_ != _); [by apply begins_fail|]. split; [done|]. intros k [= <-]. by eapply read_copy.
Qed.

(** A save finds the row it read. *)
Lemma copy_found g x row secret g' :
  copy_ok g x → sc_ID row = sc_ID x → saving row (sc_Revision x) secret g g' →
  sg_credentials g !! sc_ID x = Some x ∧ sg_credentials g' = <[sc_ID x := saved_row x row (is_some secret)]> (sg_credentials g).
Proof using Type.
  intros (Hr & y & Hy & Hf) Hi [[_ Hrow] _]. destruct Hrow as (z & Hz & Hzr & Hg); [done|]. rewrite Hi in Hz. simplify_eq.
  rewrite (fc_same _ _ Hf Hzr) in *. by split.
Qed.

Lemma Disable_safe x actor meta e d :
  vault_ok key (cd_storage d) → copy_ok (cd_storage d) x → safe false d (DisableStorageCredential_save x actor meta e d).2.
Proof using Type.
  intros Hok Hx. unfold DisableStorageCredential_save.
  match goal with |- context [run_tx (let* a := ?m in SaveStorageCredential ?x ?r ?s a) ?e ?d] =>
    pose proof (save_safe false m x r s e d) as H; destruct (run_tx (let* a := m in SaveStorageCredential x r s a) e d) as [res d2] end.
  apply H; [apply within_userAudit; exact _..|done|destruct Hx; lia|]. intros g' Hs. pose proof Hs as [_ Hsec].
  apply copy_found in Hs as [Hfound Hg]; [|done|done].
  apply (ok_from_later _ _ _ (cd_storage d)); [by apply ok_from_refl|]. cbn in Hsec.
  eapply vault_metadata; [done|exact Hfound|exact Hg|by rewrite Hsec|by split_and!|done].
Qed.

Lemma Replace_safe x next raw actor meta e d :
  vault_ok key (cd_storage d) → copy_ok (cd_storage d) x → ParseConfig raw (sc_RemoteName x) = Some next →
  safe true d (ReplaceStorageCredential_save c x next actor meta e d).2.
Proof using HAE HT HW.
  intros Hok Hx Hraw. unfold ReplaceStorageCredential_save.
  destruct (run_tx (StorageCredentialSecret _) _ d).1 as [env|y] eqn:He; [|by apply safe_refl]. apply secret_read in He.
  destruct (openConfig _ _ _) as [previous|] eqn:Hop; [|by apply safe_refl]. destruct (negb _) eqn:Hst; [by apply denied_safe|].
  apply negb_false_iff in Hst. unfold saveStorageConfig.
  destruct (sealStorageConfig _ _ _ _) as [sealed|] eqn:Hseal; [|by apply safe_refl]. cbv zeta.
  match goal with |- context [run_tx (let* a := ?m in SaveStorageCredential ?x ?r ?s a) ?e ?d] =>
    pose proof (save_safe true m x r s e d) as H; destruct (run_tx (let* a := m in SaveStorageCredential x r s a) e d) as [res d2] end.
  apply H; [apply within_userAudit; exact _..|done|destruct Hx; lia|]. intros g' Hs. pose proof Hs as [_ [Hfresh Hsec]].
  apply copy_found in Hs as [Hfound Hg]; [|done|done].
  apply (ok_from_later _ _ _ (cd_storage d)); [by apply ok_from_refl|].
  eapply vault_version; [exact _|done|exact Hfound|exact Hfresh|exact Hg|exact Hsec|exact Hseal|done|done|exact Hraw| |done..].
  intros old Hold. etrans; [apply same_weaken; by eapply openConfig_stored|done].
Qed.

(** ** Loans *)

(** What the material of an admission consists of. *)
Definition material_read (id : uuid) (d : CentralDb) (r : result dberr (BackupAdmission * StorageCredential * SecretEnvelope)) : Prop :=
  ∀ a x e, r = Ok (a, x, e) →
    cd_admissions d !! id = Some a ∧ sg_credentials (cd_storage d) !! ba_StorageCredentialID a = Some x ∧
    sg_secrets (cd_storage d) !! sc_SecretRef x = Some e.

Lemma wp_material id owner hash d : wp (BackupAdmissionMaterial id owner hash) (λ r _ _, material_read id d r) d d.
Proof using Type.
  unfold BackupAdmissionMaterial, scanCredential. apply wp_bind, wp_lock_or_reject; [done|]. intros a Ha.
  apply wp_bind, wp_bind, wp_select; [done|]. intros _. destruct (sg_credentials _ !! _) as [x|] eqn:Hx; [|by apply wp_fail]. apply wp_ret.
  apply wp_bind, wp_select_row; [done|]. intros t e He. unfold current_secret in He. destruct (_ == _); [|done].
  apply wp_bind, wp_frame; [stays|]. intros [[]|y] w1 c1 _ _; [|done].
  apply wp_bind, wp_frame; [stays|]. intros [[]|y] w2 c2 _ _; [|done].
  apply wp_bind, wp_commit; [done..|]. apply wp_ret. by intros ? ? ? [= <- <- <-].
Qed.

Lemma lent_now d id a x e previous :
  vault_ok key (cd_storage d) → cd_admissions d !! id = Some a →
  sg_credentials (cd_storage d) !! ba_StorageCredentialID a = Some x → sg_secrets (cd_storage d) !! sc_SecretRef x = Some e →
  openConfig key x e = Some previous → lent_row key (cd_storage d) x previous ∧ lent_admission id x d.
Proof using HT HW.
  intros Hok Ha Hx He Hop. destruct (Hok _ _ Hx) as (Hid & _ & _). split.
  - exists x. rewrite Hid. split_and!; [done..|]. intros _ config Hst. by eapply openConfig_stored.
  - by exists a.
Qed.

Lemma Lend_begins id owner e d :
  central_ok d → vault_ok key (cd_storage d) →
  safe false d (WithBackupMaterial c id owner e d).2 ∧
  ∀ k, (WithBackupMaterial c id owner e d).1 = Some k → call_ok (WithBackupMaterial c id owner e d).2 k.
Proof using HT HW.
  intros Hc Hok. unfold WithBackupMaterial. destruct (_ || _); [by split; [apply safe_refl|]|]. cbv zeta.
  set (hash := credentialConfigurationHash c). pose proof (run_changes (BackupAdmissionMaterial id owner hash) e d) as Hch.
  assert (Hfr : kept cd_storage d (run_tx (BackupAdmissionMaterial id owner hash) e d).2) by (apply within_run; [exact _|stays]).
  pose proof (wp_run _ (λ r _, material_read id d r) e d (wp_material id owner hash d)) as Hm.
  destruct (run_tx (BackupAdmissionMaterial id owner hash) e d) as [r d1]. cbn in *.
  assert (Hs : safe false d d1) by (apply safe_framed; [done|apply Hch; [by auto with central|done]|done]). split; [done|].
  destruct r as [[[a x] env]|y]; [|done]. intros k. destruct (openConfig key x env) as [previous|] eqn:Hop; [|done]. intros [= <-].
  destruct (Hm _ _ _ eq_refl) as (Ha & Hx & He). eapply call_ok_later; [exact Hc|exact Hok|exact Hs|]. by eapply lent_now.
Qed.

Lemma persist_safe id owner hash x previous raw live env e d :
  central_ok d → vault_ok key (cd_storage d) → lent_row key (cd_storage d) x previous → lent_admission id x d →
  safe false d (persist c id owner hash x previous raw live env e d).2 ∧
  ∀ k, (persist c id owner hash x previous raw live env e d).1 = Persisted k → call_ok (persist c id owner hash x previous raw live env e d).2 k.
Proof using HAE HT HW.
  intros Hc Hok Hrow Hadm. unfold persist. destruct (negb live); [by split; [apply safe_refl|]|].
  destruct (ParseConfig raw _) as [next|] eqn:Hraw; [|by split; [apply safe_refl|]].
  destruct (negb _) eqn:Hsame; [by split; [apply safe_refl|]|]. apply negb_false_iff in Hsame.
  destruct (Bytes previous == _); [by split; [apply safe_refl|]|].
  destruct (sealStorageConfig _ _ _ _) as [sealed|] eqn:Hseal; [|by split; [apply safe_refl|]].
  pose proof (run_changes (RefreshBackupAdmission id owner hash (sc_SecretRevision x) sealed) e d) as Hch.
  pose proof (wp_run _ (λ r d', loan_refreshed key (cd_storage d) x next r (cd_storage d')) e d
    (Refresh_vault key id owner hash x previous next raw env _ sealed d Hok Hrow Hadm Hraw Hsame Hseal)) as Hv.
  destruct (run_tx (RefreshBackupAdmission id owner hash (sc_SecretRevision x) sealed) e d) as [r d1]. cbn in *.
  destruct Hv as [Hv1 Hv2]. assert (Hs : safe false d d1) by (split; [apply Hch; [by auto with central|done]|done]). split; [done|].
  destruct r as [saved|y]; [|done]. intros k [= <-]. destruct (Hv2 saved eq_refl) as [Hl Hid]. split; [done|].
  destruct Hadm as (a & Ha & Hai). destruct Hs as [Hch' _].
  destruct (gr_admissions _ _ (changes_grows _ _ Hch') _ _ Ha) as (a' & Ha' & Hla). exists a'. split; [done|]. rewrite Hid, <- Hai.
  by destruct Hla as [->|[_ [t ->]]].
Qed.

(** ** The Gateway's calls *)

Lemma refused_safe e d d' : vault_ok key (cd_storage d') → safe false d d' → safe false d (replay_refused e d').2.
Proof using Type.
  intros Hok Hs. eapply safe_trans; [exact Hs|]. unfold replay_refused, RecordGatewayReplayDenied. cbn.
  apply safe_aside; [apply within_denied; exact _..|done].
Qed.

Lemma tx_safe {A} (m : Tx A) e d :
  central_ok d → vault_ok key (cd_storage d) → (∀ d, central_ok d → wp m (tracks d) d d) → within (later_tables key false) m → safe false d (run_tx m e d).2.
Proof using Type. intros Hc Hok Ht Hk. split; [by apply run_changes|by apply (within_run (later_tables key false))]. Qed.

Lemma Reserve_later r : within (later_tables key false) (ReserveBackupAdmission r).
Proof using Type.
  eapply within_mono; [|apply rows_Reserve]. intros d d' [= Hs _] Hok. unfold ok_from. rewrite Hs. by split.
Qed.

(** A call that runs one transaction and then checks what it returned. *)
Lemma call_safe {A B} (m : Tx A) (k : result dberr A → CentralDb → B * CentralDb) e d :
  central_ok d → vault_ok key (cd_storage d) → (∀ d, central_ok d → wp m (tracks d) d d) → within aside m → (∀ r d', (k r d').2 = d') →
  safe false d (let '(r, d') := run_tx m e d in k r d').2.
Proof using Type.
  intros Hc Hok Ht Hf Hk. pose proof (tx_safe m e d Hc Hok Ht (within_aside _ _ Hf)) as H. destruct (run_tx m e d) as [r d']. by rewrite Hk.
Qed.

Lemma Replay_safe runtime wire e d :
  central_ok d → vault_ok key (cd_storage d) → safe false d (cpReplayGatewayPending c runtime wire e d).2.
Proof using HU HAE HT HW.
  intros Hc Hok. pose proof (safe_refl false d Hok) as Hd. unfold cpReplayGatewayPending. destruct (_ || _); [done|].
  destruct (GatewayPendingIdentity wire) as [[id claimed]|]; [|by apply refused_safe].
  destruct (claimed != runtime); [by apply refused_safe|].
  destruct (run_tx (GatewayPendingOrigin_ id runtime) _ d).1 as [o|x]; [|by apply refused_safe].
  destruct (go_RuntimeID o != runtime); [by apply refused_safe|].
  destruct (replay_commit c runtime wire o) as [[commit config]|] eqn:Hcm; [|by apply refused_safe].
  apply replay_commit_inv in Hcm as (r & _ & _ & Hv & Hid & _). unfold refresh_with.
  match goal with |- context [run_tx ?m ?t d] => assert (H : safe false d (run_tx m t d).2) end.
  { apply tx_safe; [done|done| |by apply Commit_keeps]. intros d' Hok'. apply Commit_tracks; [done|done|]. by apply valid_v7_not_nil. }
  destruct (run_tx _ _ d) as [res d1]. cbn in H. pose proof (safe_ok _ _ _ H) as H1.
  destruct (negb _); [by apply refused_safe|]. destruct (SignGatewayPendingReceipt _ _); [|by apply refused_safe].
  destruct (re_ctx_sign e); [done|by apply refused_safe].
Qed.

Lemma ReplayGlobal_safe runtime b wire e d :
  central_ok d → vault_ok key (cd_storage d) → safe false d (cpReplayGatewayGlobalAudit c runtime b wire e d).2.
Proof using HU.
  intros Hc Hok. pose proof (safe_refl false d Hok) as Hd. unfold cpReplayGatewayGlobalAudit. destruct (_ || _); [done|].
  destruct (run_tx (GatewayAuditOrigin_ b) _ d).1 as [o|x]; [|by apply refused_safe].
  destruct (gao_Binding o != b); [by apply refused_safe|].
  destruct (global_commit c b wire o) as [commit|] eqn:Hcm; [|by apply refused_safe].
  apply global_commit_inv in Hcm as [_ Hv].
  match goal with |- context [run_tx ?m ?t d] => assert (H : safe false d (run_tx m t d).2) end.
  { apply tx_safe; [done|done| |by stays]. intros d' Hok'. apply CommitAudit_tracks; [done|].
    by apply valid_v7_not_nil. }
  destruct (run_tx _ _ d) as [res d1]. cbn in H. pose proof (safe_ok _ _ _ H) as H1.
  destruct (negb _); [by apply refused_safe|]. destruct (SignGatewayPendingReceipt _ _); [|by apply refused_safe].
  destruct (re_ctx_sign e); [done|by apply refused_safe].
Qed.

(** What other transactions may do to the credential tables: a change of a
    credential leaves its secret and gives it the next revision. *)
Record elsewhere_ok (g g' : Storage) : Prop := {
  eo_secrets : sg_secrets g ⊆ sg_secrets g';
  eo_new : ∀ id, sg_credentials g !! id = None → sg_credentials g' !! id = None;
  eo_kept : ∀ id x, sg_credentials g !! id = Some x →
    ∃ x', sg_credentials g' !! id = Some x' ∧ (x' = x ∨ same_secret x x' ∧ sc_Revision x < sc_Revision x') }.

Lemma elsewhere_follows x x' : x' = x ∨ same_secret x x' ∧ sc_Revision x < sc_Revision x' → same_secret x x' ∧ follows_credential x x'.
Proof using Type.
  intros [->|[Hs Hr]]; [by split; [split_and!|]|]. split; [done|]. destruct Hs as (? & ? & ? & ? & ?). split; try congruence; lia.
Qed.

Lemma elsewhere_keeps g g' : vault_ok key g → elsewhere_ok g g' → ok_from key false g g'.
Proof using Type.
  intros Hok [Hs Hn Hk]. split.
  - intros id x' Hx'. destruct (sg_credentials g !! id) as [x|] eqn:Hx; [|by rewrite (Hn _ Hx) in Hx'].
    destruct (Hk _ _ Hx) as (y & Hy & Hf%elsewhere_follows). simplify_eq. destruct Hf as [Hss [Hi _ _ Hr _ _ _]].
    destruct (Hok _ _ Hx) as (Hid & Hr0 & config & Hst). split_and!; [congruence|lia|]. exists config. by eapply stores_same.
  - split; [done|]. intros id x Hx. destruct (Hk _ _ Hx) as (x' & Hx' & [Hss Hf]%elsewhere_follows). exists x'. split_and!; [done..|].
    intros config Hst. exists config. split; [|done]. by eapply stores_same.
Qed.

(** The events the control plane's own calls account for: a secret is written by
    [persist] and nothing else. *)
Definition gateway_event (x : central_event) (d : CentralDb) : Prop :=
  match x with
  | RefreshSecret _ _ _ _ _ _ => False
  | Elsewhere _ storage _ => elsewhere_ok (cd_storage d) storage
  | _ => True
  end.

Lemma gateway_safe x d :
  central_ok d → vault_ok key (cd_storage d) → gateway_event x d → safe false d (central_apply c x d).
Proof using HU HAE HT HW.
  intros Hc Hok Hx. destruct x; cbn [central_apply gateway_event] in *;
    try (apply tx_safe; [done|done|intros; by auto with central|first [apply Reserve_later|by stays]]); try done.
  - unfold cpDecideGatewayAuthorization. cbv zeta. destruct (_ || _); [by apply safe_refl|].
    apply call_safe; [done|done|intros; by auto with central|by stays|]. intros [g|x] d'; [|done]. by destruct (_ || _).
  - unfold cpRegisterGatewayPending. destruct (_ || _); [by apply safe_refl|].
    apply call_safe; [done|done|intros; by auto with central|by stays|]. intros [g|x] d'; [|done]. by destruct (_ || _).
  - unfold cpReplayGatewayRecord. destruct (GatewayPendingAuditIdentity _); [by apply ReplayGlobal_safe|by apply Replay_safe].
  - unfold cpSealGatewayPending. destruct (_ != _); [by apply safe_refl|].
    apply call_safe; [done|done|intros; by auto with central|by stays|done].
  - unfold cpRegisterGatewayGlobalAudit. destruct (_ || _); [by apply safe_refl|].
    apply call_safe; [done|done|intros; by auto with central|by stays|]. intros [g|x] d'; [|done]. by destruct (_ || _).
  - unfold cpSealGatewayGlobalAudit. destruct (_ || _); [by apply safe_refl|].
    apply call_safe; [done|done|intros; by auto with central|by stays|done].
  - split; [eapply rtc_once, step_quiet, elsewhere_quiet|]. by apply elsewhere_keeps.
Qed.
End Vault.
