(* ===== verification/CentralJobs.v ===== *)
(** * CentralJobs: operations on storage credentials and their jobs

    internal/persistence/postgres: credential_jobs.go, repository_jobs.go,
    gateway_reads.go, and the jobs of snapshot_list.go and snapshot_index.go.  An
    operation is queued with one job; a worker claims the job under a lease,
    renews the lease while it works, and finishes operation and job together. *)

From S2P Require Import Prelude GoStd Uuid Platform Domain GatewaySession GatewayAuth AuditChain PendingRecord CentralTx CentralStore.
From S2P Require Import RcloneConfig StorageSecret.
Import Domain.Operation (ValidateOperationTransition, OperationTerminal, ValidCredentialTestCode, ValidInitializeCode, ValidInitializedRepository).
Open Scope Z_scope.
Open Scope go_scope.
Open Scope central_scope.

Notation operations d := (fl_operations (cd_fleet d)).
Notation events d := (fl_events (cd_fleet d)).
Notation jobs d := (fl_jobs (cd_fleet d)).
Notation leases d := (fl_leases (cd_fleet d)).

(** The role a connection has: the tables are created by [restfleet_migrator],
    the server connects as [restfleet_app]. *)
Inductive db_role := restfleet_app | restfleet_migrator.

(** [grant select, insert, update on repository_leases to restfleet_app] *)
Definition may_delete_leases (role : db_role) : bool := match role with restfleet_app => false | restfleet_migrator => true end.

(** The JSON of a snapshot listing's payload. *)
Class ListCodec := {
  MarshalList : string → string → string → option string;
  UnmarshalList : string → option (string * string * string) }.

Record CredentialJob := mkCredentialJob {
  cj_ID : uuid;
  cj_Owner : uuid;
  cj_Operation : Operation;
  cj_Credential : StorageCredential;
  cj_Repository : option Repository;
  cj_RepositoryAvailable : bool;
  cj_LeaseExpiresAt : time;
  cj_Payload : string;
  cj_GatewayRead : option GatewayReadBinding }.

Definition with_operation (o : Operation) (j : CredentialJob) : CredentialJob :=
  mkCredentialJob (cj_ID j) (cj_Owner j) o (cj_Credential j) (cj_Repository j) (cj_RepositoryAvailable j) (cj_LeaseExpiresAt j)
    (cj_Payload j) (cj_GatewayRead j).
Definition with_owner (owner : uuid) (expires : time) (j : CredentialJob) : CredentialJob :=
  mkCredentialJob (cj_ID j) owner (cj_Operation j) (cj_Credential j) (cj_Repository j) (cj_RepositoryAvailable j) expires
    (cj_Payload j) (cj_GatewayRead j).

(** ** Operations (credential_jobs.go) *)

Definition scanOperation (id : uuid) : Tx Operation :=
  let* row := select (λ _ d, operations d !! id) in
  match row with Some o => tret o | None => tfail ErrNotFound end.

(** [coalesce(max(sequence),0)+1] *)
Definition next_sequence (id : uuid) (l : list OperationEvent) : Z :=
  foldr (λ ev m, if ev_OperationID ev == id then Z.max (ev_Sequence ev) m else m) 0 l + 1.

Definition insert_event (id : uuid) (from to : string) (now : time) (d : CentralDb) : option CentralDb :=
  if is_none (operations d !! id) then None
  else Some (set_events (events d ++ [mkOperationEvent id (next_sequence id (events d)) from to now]) d).

Definition recordOperationEvent (o : Operation) (from : string) (now : time) : Tx () :=
  let* _ := exec (λ _, insert_event (op_ID o) from (op_Status o) now) in
  let* _ := newV7 in
  exec (λ _ d, Some (set_outbox (cd_outbox d ++ [("OPERATION_STATE_CHANGED", op_ID o)]) d)).

(** The constraints of [operations] on a row. *)
Definition known_error_code (code : string) : bool :=
  ValidCredentialTestCode code || ValidInitializeCode code ||
  bool_decide (code ∈ ["SNAPSHOT_NOT_FOUND"; "PATH_INVALID"; "SCAN_FAILED"; "SCAN_TIMED_OUT"; "INDEX_FAILED"; "INDEX_TIMED_OUT"]).
Definition repository_type (type : string) : bool := bool_decide (type ∈ ["REPOSITORY_INITIALIZE"; "SNAPSHOT_LIST"; "SNAPSHOT_INDEX"]).
Definition operation_check (o : Operation) : bool :=
  ((op_Type o == "CREDENTIAL_TEST") || repository_type (op_Type o)) &&
  bool_decide (repository_type (op_Type o) = is_some (op_RepositoryID o)) &&
  ((op_Source o == "USER") || (op_Source o == "SYSTEM")) &&
  bool_decide ((op_Source o == "SYSTEM") = is_none (op_RequestedByUserID o)) &&
  (0 <? op_SecretRevision o) && (0 <? op_Attempt o) &&
  bool_decide (OperationTerminal (op_Status o) = is_some (op_FinishedAt o)) && known_error_code (op_ErrorCode o).

(** What a transition sets. *)
Definition moved_to (to : string) (now : time) (o : Operation) : Operation :=
  mkOperation (op_ID o) (op_Type o) to (op_Source o) (op_StorageCredentialID o) (op_RepositoryID o) (op_SecretRevision o)
    (op_RequestedByUserID o) (op_Attempt o) (op_CreatedAt o)
    (if to == "DISPATCHED" then Some now else op_DispatchedAt o)
    (if to == "ACKNOWLEDGED" then Some now else op_AcknowledgedAt o)
    (if to == "RUNNING" then Some now else op_StartedAt o)
    (if OperationTerminal to then Some now else op_FinishedAt o) (op_ErrorCode o).

(** [update operations set status, ..., error_code where id]: the row keeps its
    other columns. *)
Definition stored_operation (o x : Operation) : Operation :=
  mkOperation (op_ID x) (op_Type x) (op_Status o) (op_Source x) (op_StorageCredentialID x) (op_RepositoryID x) (op_SecretRevision x)
    (op_RequestedByUserID x) (op_Attempt x) (op_CreatedAt x) (op_DispatchedAt o) (op_AcknowledgedAt o) (op_StartedAt o)
    (op_FinishedAt o) (op_ErrorCode o).

Definition save_operation (o : Operation) (d : CentralDb) : option CentralDb :=
  if operation_check o then Some (set_operations (<[op_ID o := o]> (operations d)) d) else None.

Definition update_operation (o : Operation) (d : CentralDb) : option CentralDb :=
  match operations d !! op_ID o with
  | None => Some d
  | Some x => save_operation (stored_operation o x) d
  end.

Definition transitionOperation (o : Operation) (to : string) (now : time) : Tx Operation :=
  if negb (ValidateOperationTransition (op_Status o) to) then tfail ErrOperationTransition
  else
    let next := moved_to to now o in
    let* _ := exec (λ _, update_operation next) in
    let* _ := recordOperationEvent next (op_Status o) now in
    tret next.

Definition with_code (code : string) (o : Operation) : Operation :=
  mkOperation (op_ID o) (op_Type o) (op_Status o) (op_Source o) (op_StorageCredentialID o) (op_RepositoryID o) (op_SecretRevision o)
    (op_RequestedByUserID o) (op_Attempt o) (op_CreatedAt o) (op_DispatchedAt o) (op_AcknowledgedAt o) (op_StartedAt o)
    (op_FinishedAt o) code.

Definition set_attempt (attempt : Z) (o : Operation) : Operation :=
  mkOperation (op_ID o) (op_Type o) (op_Status o) (op_Source o) (op_StorageCredentialID o) (op_RepositoryID o) (op_SecretRevision o)
    (op_RequestedByUserID o) attempt (op_CreatedAt o) (op_DispatchedAt o) (op_AcknowledgedAt o) (op_StartedAt o)
    (op_FinishedAt o) (op_ErrorCode o).

Definition set_secret_revision (revision : Z) (o : Operation) : Operation :=
  mkOperation (op_ID o) (op_Type o) (op_Status o) (op_Source o) (op_StorageCredentialID o) (op_RepositoryID o) revision
    (op_RequestedByUserID o) (op_Attempt o) (op_CreatedAt o) (op_DispatchedAt o) (op_AcknowledgedAt o) (op_StartedAt o)
    (op_FinishedAt o) (op_ErrorCode o).

(** [update operations set ... where id=$1] of one column. *)
Definition alter_operation (id : uuid) (f : Operation → Operation) (d : CentralDb) : option CentralDb :=
  match operations d !! id with None => Some d | Some x => save_operation (f x) d end.

Definition credentialUnchanged (j : CredentialJob) : bool :=
  (sc_Status (cj_Credential j) != "DISABLED") &&
  (is_some (cj_GatewayRead j) || (sc_SecretRevision (cj_Credential j) == op_SecretRevision (cj_Operation j))).

(** ** Repositories and their leases (repository_jobs.go, snapshot_list.go) *)

Definition scanRepository (id : uuid) : Tx Repository :=
  let* row := select (λ _ d, fl_repositories (cd_fleet d) !! id) in
  match row with Some r => tret r | None => tfail ErrNotFound end.

(** The host's status and the repository, both locked. *)
Definition lock_repository (id : uuid) : Tx (string * Repository) :=
  let* host := select (λ _ d, rp_HostID <$> fl_repositories (cd_fleet d) !! id) in
  match host with
  | None => tfail ErrNotFound
  | Some host =>
      let* status := select_row (λ _ d, hr_Status <$> fl_hosts (cd_fleet d) !! host) in
      let* r := scanRepository id in
      tret (status, r)
  end.

Definition host_usable (status : string) : bool := (status == "PENDING") || (status == "ACTIVE").

(** Both return the repository beside the reason it is not available. *)
Definition lockProvisionRepository (id : uuid) : Tx (Repository * option dberr) :=
  let* (status, r) := lock_repository id in
  tret (r, if negb (host_usable status) then Some ErrHostUnavailable
           else if (rp_Status r != "PROVISIONING") || is_some (rp_InitializedAt r) then Some ErrRepositoryUnavailable
           else None).

Definition lockRepositoryForRead (id : uuid) : Tx (Repository * option dberr) :=
  let* (status, r) := lock_repository id in
  tret (r, if negb (host_usable status) then Some ErrHostUnavailable else None).

(** [exists(select 1 from repository_leases where repository_id=$1 and expires_at>clock_timestamp())] *)
Definition leased (id : uuid) (t : time) (d : CentralDb) : bool :=
  match leases d !! id with Some l => t <? le_ExpiresAt l | None => false end.

Definition holds_lease (l : LeaseRow) (operation owner : uuid) (t : time) : bool :=
  (le_OperationID l == operation) && (le_Owner l == owner) && (le_Kind l == "MAINTENANCE") && (t <? le_ExpiresAt l).

Definition ensureProvisionLease (j : CredentialJob) : Tx () :=
  match cj_Repository j with
  | None => tret ()
  | Some r =>
      let* valid := select (λ t d,
        match leases d !! rp_ID r with Some l => holds_lease l (op_ID (cj_Operation j)) (cj_Owner j) t | None => false end) in
      if negb valid then tfail ErrJobLeaseLost else tret ()
  end.

Section Jobs.
Context `{U : UuidPkg} `{P : Platform} `{C : AuditCodec}.

(** ** Reads beside a Gateway (gateway_reads.go) *)

(** [GatewayReadBinding.Valid] *)
Definition valid_binding (b : GatewayReadBinding) : bool :=
  forallb valid_v7 [gr_RepositoryID b; gr_OperationID b; gr_AdmissionID b; gr_RuntimeID b] && validPendingHash (gr_ConfigurationHash b).

(** Whether the unreleased admission [a] may be borrowed for a read of [repo]. *)
Definition borrowable (repo : Repository) (hash : string) (t : time) (d : CentralDb) (a : BackupAdmission) (r : Repository)
    (agent : AgentRow) (host : HostRow) : bool :=
  (t <? ba_ExpiresAt a) && match cd_origins d !! ba_ID a with Some o => is_none (or_ClosedAt o) | None => false end &&
  (ba_ConfigurationHash a == hash) && is_none (rp_ArchivedAt r) && is_some (rp_InitializedAt r) &&
  ((rp_Status r == "PROVISIONING") || (rp_Status r == "READY") || (rp_Status r == "DEGRADED")) && (rp_ID r == rp_ID repo) &&
  (ba_HostID a == rp_HostID r) && (ba_GatewayID a == rp_GatewayID r) && (ba_ResticSecretRef a == rp_ResticSecretRef r) &&
  (ba_GatewaySecretRef a == rp_GatewaySecretRef r) && (ba_StorageCredentialID a == rp_StorageCredentialID r) &&
  (ar_Status agent == "ACTIVE") && (ar_HostID agent == ba_HostID a) && (hr_Status host == "ACTIVE") && is_none (hr_ArchivedAt host) &&
  match fl_deliveries (cd_fleet d) !! ba_AgentID a with
  | Some dl => (cr_ID dl == ba_DeliveryID a) && (cr_RepositoryID dl == rp_ID r) && is_some (cr_AcceptedAt dl) &&
      (cr_ConfigurationHash dl == hash) && (cr_GatewaySecretRef dl == rp_GatewaySecretRef r) &&
      (cr_ResticSecretRef dl == rp_ResticSecretRef r)
  | None => false
  end &&
  match latest_of (ba_ID a) d with
  | Some g => negb (dr_Revoked g) && (Some (dr_RuntimeID g) == (or_RuntimeID <$> cd_origins d !! ba_ID a)) && (dr_IssuedAt g <=? t) &&
      match dr_ExpiresAt g with Some x => t <? x | None => false end
  | None => false
  end.

(** The unreleased admission of the credential, its repository, its runtime, its
    hash, and whether it may be borrowed. *)
Definition read_row (repo : Repository) (hash : string) (t : time) (d : CentralDb) : option (uuid * uuid * option uuid * string * bool) :=
  a ← List.find (λ a, (ba_StorageCredentialID a == rp_StorageCredentialID repo) && is_none (ba_ReleasedAt a))
        (map_to_list (cd_admissions d)).*2;
  r ← fl_repositories (cd_fleet d) !! ba_RepositoryID a;
  agent ← fl_agents (cd_fleet d) !! ba_AgentID a;
  host ← fl_hosts (cd_fleet d) !! ba_HostID a;
  Some (ba_ID a, ba_RepositoryID a, or_RuntimeID <$> cd_origins d !! ba_ID a, ba_ConfigurationHash a, borrowable repo hash t d a r agent host).

Definition gatewayReadBinding (repo : Repository) (operation : uuid) (configurationHash : string) : Tx (option GatewayReadBinding) :=
  let* row := select (read_row repo configurationHash) in
  match row with
  | None => tret None
  | Some (id, repository, runtime, hash, valid) =>
      if negb valid || (repository != rp_ID repo) then tfail ErrRepositoryBusy
      else match runtime with
      | None => tfail ErrRepositoryBusy
      | Some runtime =>
          let binding := mkReadBinding repository operation id runtime hash in
          if negb (valid_binding binding) then tfail ErrRepositoryUnavailable else tret (Some binding)
      end
  end.

Definition snapshot_type (type : string) : bool := (type == "SNAPSHOT_INDEX") || (type == "SNAPSHOT_LIST").

Definition ensureReadJobBinding (j : CredentialJob) : Tx () :=
  match cj_GatewayRead j with
  | None => ensureNoBackupAdmission (sc_ID (cj_Credential j))
  | Some read =>
      match cj_Repository j with
      | None => tfail ErrOperationTransition
      | Some repo =>
          if negb (snapshot_type (op_Type (cj_Operation j))) then tfail ErrOperationTransition
          else if (sc_Status (cj_Credential j) == "DISABLED") || negb (cj_RepositoryAvailable j) then tfail ErrRepositoryUnavailable
          else
            let* current := gatewayReadBinding repo (op_ID (cj_Operation j)) (gr_ConfigurationHash read) in
            if current != Some read then tfail ErrRepositoryUnavailable else tret ()
      end
  end.

(** ** Finishing a job *)

Definition credentialJobAudit (o : Operation) (action reason : string) (now : time) : Tx AuditEvent :=
  let* id := newV7 in
  tret (system_event id now action "STORAGE_CREDENTIAL" (op_StorageCredentialID o) (op_ID o) AuditSuccess reason).

Definition on_repository (r : Repository) (e : AuditEvent) : AuditEvent :=
  mkAudit (ae_ID e) (ae_OccurredAt e) (ae_ActorType e) (ae_ActorID e) (ae_Action e) "REPOSITORY" (rp_ID r) (ae_RequestID e)
    (ae_SourceIPHash e) (ae_Result e) (ae_ReasonCode e) (ae_Changes e) (ae_PreviousHash e) (ae_EventHash e).
Definition with_audit_result (result : string) (e : AuditEvent) : AuditEvent :=
  mkAudit (ae_ID e) (ae_OccurredAt e) (ae_ActorType e) (ae_ActorID e) (ae_Action e) (ae_ResourceType e) (ae_ResourceID e)
    (ae_RequestID e) (ae_SourceIPHash e) result (ae_ReasonCode e) (ae_Changes e) (ae_PreviousHash e) (ae_EventHash e).
Definition with_changes (changes : string) (e : AuditEvent) : AuditEvent :=
  mkAudit (ae_ID e) (ae_OccurredAt e) (ae_ActorType e) (ae_ActorID e) (ae_Action e) (ae_ResourceType e) (ae_ResourceID e)
    (ae_RequestID e) (ae_SourceIPHash e) (ae_Result e) (ae_ReasonCode e) changes (ae_PreviousHash e) (ae_EventHash e).

Definition job_held (owner : uuid) (t : time) (j : JobRow) : bool :=
  (jr_LeaseOwner j == Some owner) && match jr_LeaseExpiresAt j with Some x => t <? x | None => false end.

Definition ensureCredentialLease (id owner : uuid) : Tx () :=
  let* valid := select (λ t d,
    match jobs d !! id with Some j => (jr_Status j == "LEASED") && job_held owner t j | None => false end) in
  if negb valid then tfail ErrJobLeaseLost else tret ().

Definition finished_job (status code : string) (now : time) (j : JobRow) : JobRow :=
  mkJobRow (jr_ID j) (jr_OperationID j) (jr_Queue j) (jr_Payload j) status (jr_AvailableAt j) None None (jr_Attempt j)
    (jr_MaxAttempts j) code now (jr_GatewayRead j).

(** The update, and whether it found its row: that of the job, under its lease
    when the job has an owner. *)
Definition finish_row (id owner : uuid) (status code : string) (now t : time) (d : CentralDb) : option (bool * CentralDb) :=
  match jobs d !! id with
  | Some j =>
      if (owner == uuid_Nil) || job_held owner t j
      then Some (true, set_jobs (<[id := finished_job status code now j]> (jobs d)) d) else Some (false, d)
  | None => Some (false, d)
  end.

Definition finishJobRow (j : CredentialJob) (to : string) (now : time) : Tx () :=
  let status := if (to != "SUCCEEDED") && (to != "SUCCEEDED_WITH_WARNINGS") then "DEAD" else "DONE" in
  let* found := stmt (finish_row (cj_ID j) (cj_Owner j) status (op_ErrorCode (cj_Operation j)) now) in
  if negb found then tfail ErrJobLeaseLost else tret ().

Definition delete_lease (role : db_role) (repository operation : uuid) (d : CentralDb) : option CentralDb :=
  if negb (may_delete_leases role) then None
  else match leases d !! repository with
  | Some l =>
      if (le_OperationID l == operation) && (le_Kind l == "MAINTENANCE") then Some (set_leases (delete repository (leases d)) d) else Some d
  | None => Some d
  end.

Variable role : db_role.

Definition finishSnapshotReadJob (j : CredentialJob) (to : string) (now : time) : Tx () :=
  match cj_Repository j with
  | None => tfail ErrOperationTransition
  | Some repo =>
      if negb (snapshot_type (op_Type (cj_Operation j))) then tfail ErrOperationTransition
      else
        let* o := transitionOperation (cj_Operation j) to now in
        let j := with_operation o j in
        let* audit := credentialJobAudit o (op_Type o +:+ "_RESULT") to now in
        let audit := on_repository repo audit in
        let audit := if (to != "SUCCEEDED") && (to != "SUCCEEDED_WITH_WARNINGS") then with_audit_result AuditFailure audit else audit in
        let* _ := append_audit audit in
        let* _ :=
          if cj_Owner j != uuid_Nil then
            let* _ := ensureCredentialLease (cj_ID j) (cj_Owner j) in
            ensureProvisionLease j
          else tret () in
        let* _ := finishJobRow j to now in
        exec (λ _, delete_lease role (rp_ID repo) (op_ID o))
  end.

Definition initialized (resticID : string) (version : Z) (now : time) (r : Repository) : Repository :=
  mkRepository (rp_ID r) (rp_HostID r) (rp_StorageCredentialID r) (rp_Status r) (rp_GatewayID r) (rp_GatewaySecretRef r)
    (rp_ResticSecretRef r) (Some now) (rp_ArchivedAt r) resticID (Some version) (rp_Revision r + 1) now (rp_LastInitializeOperationID r).

Definition initialize_row (id : uuid) (resticID : string) (version : Z) (now : time) (d : CentralDb) : option (bool * CentralDb) :=
  match fl_repositories (cd_fleet d) !! id with
  | Some r =>
      if (rp_Status r == "PROVISIONING") && is_none (rp_InitializedAt r)
      then Some (true, set_repositories (<[id := initialized resticID version now r]> (fl_repositories (cd_fleet d))) d)
      else Some (false, d)
  | None => Some (false, d)
  end.

Definition expire_lease (repository operation : uuid) (t : time) (d : CentralDb) : option CentralDb :=
  match leases d !! repository with
  | Some l =>
      if (le_OperationID l == operation) && (le_Kind l == "MAINTENANCE")
      then Some (set_leases (<[repository := mkLeaseRow (le_OperationID l) (le_Owner l) (le_Kind l) t]> (leases d)) d) else Some d
  | None => Some d
  end.

Definition finishRepositoryJob (j : CredentialJob) (repo : Repository) (to : string) (now : time) (resticID : string) (version : Z) : Tx () :=
  let* o := transitionOperation (cj_Operation j) to now in
  let j := with_operation o j in
  let* _ :=
    if to == "SUCCEEDED" then
      if negb (ValidInitializedRepository resticID version) || negb (credentialUnchanged j) then tfail ErrOperationTransition
      else
        let* found := stmt (λ _, initialize_row (rp_ID repo) resticID version now) in
        if negb found then tfail ErrRepositoryUnavailable else tret ()
    else tret () in
  let* audit := credentialJobAudit o "REPOSITORY_INITIALIZE_RESULT" to now in
  let audit := on_repository repo audit in
  let audit := if to != "SUCCEEDED" then with_audit_result AuditFailure audit else audit in
  let* _ := append_audit audit in
  let* _ := if cj_Owner j != uuid_Nil then ensureProvisionLease j else tret () in
  let* _ := exec (expire_lease (rp_ID repo) (op_ID o)) in
  finishJobRow j to now.

(** The health a test gives its credential. *)
Definition tested (health code : string) (now : time) (x : StorageCredential) : StorageCredential :=
  mkCredential (sc_ID x) (sc_Name x) (sc_Provider x) (sc_RemoteName x) health (sc_SecretRef x) (sc_SecretRevision x) (sc_Revision x + 1)
    (sc_CreatedAt x) now (sc_LastTestOperationID x) (Some now) (if code == "" then "SUCCEEDED" else code) (sc_LastRefreshedAt x).

Definition alter_credential (id : uuid) (f : StorageCredential → StorageCredential) (d : CentralDb) : option CentralDb :=
  let g := cd_storage d in
  match sg_credentials g !! id with
  | Some x => Some (set_storage (mkStorage (<[id := f x]> (sg_credentials g)) (sg_secrets g) (sg_revisions g)) d)
  | None => Some d
  end.

Definition finishCredentialJob (j : CredentialJob) (to : string) (now : time) : Tx () :=
  if snapshot_type (op_Type (cj_Operation j)) then finishSnapshotReadJob j to now
  else match cj_Repository j with
  | Some repo => finishRepositoryJob j repo to now "" 0
  | None =>
      let* o := transitionOperation (cj_Operation j) to now in
      let j := with_operation o j in
      let* _ :=
        if credentialUnchanged j then
          exec (λ _, alter_credential (sc_ID (cj_Credential j))
            (tested (if to == "SUCCEEDED" then "HEALTHY" else "DEGRADED") (op_ErrorCode o) now))
        else tret () in
      let* audit := credentialJobAudit o "STORAGE_CREDENTIAL_TEST_RESULT" (op_Status o) now in
      let audit := if to != "SUCCEEDED" then with_audit_result AuditFailure audit else audit in
      let* _ := append_audit audit in
      finishJobRow j to now
  end.

(** ** Queueing (credential_jobs.go, snapshot_list.go, snapshot_index.go) *)

Definition unfinished_for (p : Operation → bool) (d : CentralDb) : bool :=
  existsb (λ o, p o && is_none (op_FinishedAt o)) (map_to_list (operations d)).*2.

(** The unique indexes of unfinished operations. *)
Definition operation_clash (o : Operation) (d : CentralDb) : bool :=
  is_some (operations d !! op_ID o) ||
  unfinished_for (λ x, op_StorageCredentialID x == op_StorageCredentialID o) d ||
  unfinished_for (λ x, is_some (op_RepositoryID o) && (op_RepositoryID x == op_RepositoryID o)) d.

Definition insert_operation (o : Operation) (d : CentralDb) : option CentralDb :=
  if operation_clash o d || is_none (sg_credentials (cd_storage d) !! op_StorageCredentialID o) ||
     match op_RepositoryID o with Some r => is_none (fl_repositories (cd_fleet d) !! r) | None => false end
  then None else save_operation o d.

Definition queued (o : Operation) (type source : string) (c : StorageCredential) (now : time) : Operation :=
  mkOperation (op_ID o) type "QUEUED" source (sc_ID c) (op_RepositoryID o) (sc_SecretRevision c) (op_RequestedByUserID o) 1 now
    None None None None "".

Definition ready_job (id : uuid) (o : Operation) (payload : string) (now : time) (read : option GatewayReadBinding) : JobRow :=
  mkJobRow id (op_ID o) (op_Type o) payload "READY" now None None 0 3 "" now read.

Definition insert_job (j : JobRow) (d : CentralDb) : option CentralDb :=
  if is_some (jobs d !! jr_ID j) || is_none (operations d !! jr_OperationID j) ||
     existsb (λ x, jr_OperationID x == jr_OperationID j) (map_to_list (jobs d)).*2 ||
     negb ((jr_Payload j == "{}") || (jr_Queue j == "SNAPSHOT_LIST"))
  then None
  else Some (set_jobs (<[jr_ID j := j]> (jobs d)) d).

Definition remembered (scope key : string) (t : time) (d : CentralDb) : option IdempotencyRow :=
  match fl_idempotency (cd_fleet d) !! (scope, key) with
  | Some r => if t <? ir_ExpiresAt r then Some r else None
  | None => None
  end.

Definition remember (scope key request : string) (o : Operation) (d : CentralDb) : option CentralDb :=
  if is_none (operations d !! op_ID o) then None
  else Some (set_idempotency
    (<[(scope, key) := mkIdempotencyRow request (op_ID o) (op_CreatedAt o + 24 * hour)]> (fl_idempotency (cd_fleet d))) d).

Definition last_test (o : Operation) (x : StorageCredential) : StorageCredential :=
  mkCredential (sc_ID x) (sc_Name x) (sc_Provider x) (sc_RemoteName x) (sc_Status x) (sc_SecretRef x) (sc_SecretRevision x)
    (sc_Revision x + 1) (sc_CreatedAt x) (op_CreatedAt o) (Some (op_ID o)) (sc_LastTestedAt x) (sc_LastTestResult x) (sc_LastRefreshedAt x).

Definition last_initialize (id : uuid) (o : Operation) (d : CentralDb) : option CentralDb :=
  match fl_repositories (cd_fleet d) !! id with
  | Some r =>
      Some (set_repositories (<[id := mkRepository (rp_ID r) (rp_HostID r) (rp_StorageCredentialID r) (rp_Status r) (rp_GatewayID r)
        (rp_GatewaySecretRef r) (rp_ResticSecretRef r) (rp_InitializedAt r) (rp_ArchivedAt r) (rp_ResticID r) (rp_FormatVersion r)
        (rp_Revision r + 1) (op_CreatedAt o) (Some (op_ID o))]> (fl_repositories (cd_fleet d))) d)
  | None => Some d
  end.

(** A new operation without its job: its checks, and the row. *)
Definition EnqueueStorageOperation_insert (o : Operation) (credential : uuid) : Tx Operation :=
  let* c := scanCredential credential in
  let* _ := ensureNoBackupAdmission (sc_ID c) in
  if sc_Status c == "DISABLED" then tfail ErrCredentialDisabled
  else
    let* active := select (λ _, unfinished_for (λ x, op_StorageCredentialID x == sc_ID c)) in
    if (active : bool) then tfail (if op_RepositoryID o then ErrRepositoryBusy else ErrCredentialTestBusy)
    else
      let* now := clock_timestamp in
      let o := queued o (if op_RepositoryID o then "REPOSITORY_INITIALIZE" else "CREDENTIAL_TEST") "USER" c now in
      let* _ := exec (λ _, insert_operation o) in
      tret o.

Definition EnqueueStorageOperation (o : Operation) (scope key request : string) (audit : AuditEvent) : Tx Operation :=
  if (slen scope != 32) || (slen key != 32) || (slen request != 32) then tfail ErrIdempotencyReused
  else
    let* _ := select (λ _ _, ()) in
    let* original := select (λ t d, remembered scope key t d) in
    match original with
    | Some r =>
        if ir_RequestHash r != request then tfail ErrIdempotencyReused
        else let* result := scanOperation (ir_ResourceID r) in let* _ := commit in tret result
    | None =>
        let* credential :=
          match op_RepositoryID o with
          | Some id =>
              let* (repo, unavailable) := lockProvisionRepository id in
              match unavailable with
              | Some x => tfail x
              | None =>
                  let* busy := select (leased (rp_ID repo)) in
                  if (busy : bool) then tfail ErrRepositoryBusy else tret (rp_StorageCredentialID repo)
              end
          | None => tret (op_StorageCredentialID o)
          end in
        let* o := EnqueueStorageOperation_insert o credential in
        let* jobID := newV7 in
        let* _ := exec (λ _, insert_job (ready_job jobID o "{}" (op_CreatedAt o) None)) in
        let* _ := exec (λ _, remember scope key request o) in
        let* _ := match op_RepositoryID o with
                  | None => exec (λ _, alter_credential (op_StorageCredentialID o) (last_test o))
                  | Some id => exec (λ _, last_initialize id o)
                  end in
        let* _ := recordOperationEvent o "" (op_CreatedAt o) in
        let* _ := append_audit audit in
        let* _ := commit in
        tret o
    end.

(** The common part of both snapshot queues. *)
Definition enqueue_snapshot (o : Operation) (id : uuid) (type source payload configurationHash : string) : Tx Operation :=
  let* (repo, unavailable) := lockRepositoryForRead id in
  match unavailable with
  | Some x => tfail x
  | None =>
      if (rp_ResticID repo == "") || is_none (rp_InitializedAt repo) then tfail ErrRepositoryUnavailable
      else
        let* active := select (λ _, unfinished_for (λ x, op_RepositoryID x == Some (rp_ID repo))) in
        if (active : bool) then tfail ErrRepositoryBusy
        else
          let* active := select (leased (rp_ID repo)) in
          if (active : bool) then tfail ErrRepositoryBusy
          else
            let* c := scanCredential (rp_StorageCredentialID repo) in
            if sc_Status c == "DISABLED" then tfail ErrCredentialDisabled
            else
              let* read := gatewayReadBinding repo (op_ID o) configurationHash in
              let* now := clock_timestamp in
              let o := queued o type source c now in
              let* _ := exec_unique ErrRepositoryBusy (operation_clash o) (λ _, insert_operation o) in
              let* jobID := newV7 in
              let* _ := exec (λ _, insert_job (ready_job jobID o payload now read)) in
              let* _ := recordOperationEvent o "" now in
              let* _ := commit in
              tret o
  end.

Definition EnqueueSnapshotIndex (o : Operation) (configurationHash : string) : Tx Operation :=
  match op_RepositoryID o, op_RequestedByUserID o with
  | Some id, None =>
      if Version (op_ID o) != 7 then tfail ErrOperationTransition
      else enqueue_snapshot o id "SNAPSHOT_INDEX" "SYSTEM" "{}" configurationHash
  | _, _ => tfail ErrOperationTransition
  end.

(** A byte below 0x20, or 0x7f. *)
Definition ascii_control (s : string) : bool := negb (string_forallb (λ c, negb ((byte_of c <? 32)%N || (byte_of c =? 127)%N)) s).

Definition valid_cursor (cursor : string) : bool :=
  (slen cursor <=? 4096) && ((cursor == "") || HasPrefix cursor "/" && negb (ascii_control cursor)).

Definition EnqueueSnapshotList `{ListCodec} (o : Operation) (snapshotID path cursor configurationHash : string) : Tx Operation :=
  match op_RepositoryID o, op_RequestedByUserID o with
  | Some id, Some user =>
      if (user == uuid_Nil) || (Version (op_ID o) != 7) || (slen path == 0) || (4096 <? slen path) || negb (valid_cursor cursor)
      then tfail ErrOperationTransition
      else match MarshalList snapshotID path cursor with
      | None => tfail ErrDB
      | Some payload => enqueue_snapshot o id "SNAPSHOT_LIST" "USER" payload configurationHash
      end
  | _, _ => tfail ErrOperationTransition
  end.

(** ** Working on a job *)

Definition queues : list string := ["CREDENTIAL_TEST"; "REPOSITORY_INITIALIZE"; "SNAPSHOT_LIST"; "SNAPSHOT_INDEX"].

Definition claimable (t : time) (j : JobRow) : bool :=
  bool_decide (jr_Queue j ∈ queues) &&
  ((jr_Status j == "READY") && (jr_AvailableAt j <=? t) ||
   (jr_Status j == "LEASED") && match jr_LeaseExpiresAt j with Some x => x <=? t | None => false end).

(** [order by available_at,id limit 1] *)
Definition job_before (a b : JobRow) : bool :=
  (jr_AvailableAt a <? jr_AvailableAt b) || (jr_AvailableAt a =? jr_AvailableAt b) && (jr_ID a <? jr_ID b)%N.
Definition first_job (l : list JobRow) : option JobRow :=
  foldr (λ j best, match best with Some b => if job_before b j then Some b else Some j | None => Some j end) None l.
Definition next_job (t : time) (d : CentralDb) : option JobRow := first_job (List.filter (claimable t) (map_to_list (jobs d)).*2).

(** The operation, repository and credential of a job, locked in this order. *)
Definition lock_operation (id operation : uuid) (owner : uuid) (expires : time) (payload : string) (read : option GatewayReadBinding) :
    Tx CredentialJob :=
  let* o := scanOperation operation in
  let* found :=
    match op_RepositoryID o with
    | None => tret None
    | Some repo =>
        let* (r, unavailable) := if snapshot_type (op_Type o) then lockRepositoryForRead repo else lockProvisionRepository repo in
        if rp_StorageCredentialID r != op_StorageCredentialID o then tfail ErrOperationTransition
        else tret (Some (r, is_none unavailable))
    end in
  let* c := scanCredential (op_StorageCredentialID o) in
  tret (mkCredentialJob id owner o c (fst <$> found) (match found with Some (_, b) => b | None => false end) expires payload read).

Definition acquire_row (repository operation owner : uuid) (expires t : time) (d : CentralDb) : option (bool * CentralDb) :=
  let row := mkLeaseRow operation owner "MAINTENANCE" expires in
  match leases d !! repository with
  | Some l => if le_ExpiresAt l <=? t then Some (true, set_leases (<[repository := row]> (leases d)) d) else Some (false, d)
  | None => Some (true, set_leases (<[repository := row]> (leases d)) d)
  end.

Definition acquireProvisionLease (j : CredentialJob) (repo : Repository) (now : time) : Tx () :=
  let* _ := ensureReadJobBinding j in
  let* _ := select (λ _ _, ()) in
  let* found := stmt (acquire_row (rp_ID repo) (op_ID (cj_Operation j)) (cj_Owner j) (now + 30 * second)) in
  if negb found then tfail ErrRepositoryBusy else tret ().

Definition claimed (owner : uuid) (expires now : time) (j : JobRow) : JobRow :=
  mkJobRow (jr_ID j) (jr_OperationID j) (jr_Queue j) (jr_Payload j) "LEASED" (jr_AvailableAt j) (Some owner) (Some expires)
    (jr_Attempt j + 1) (jr_MaxAttempts j) (jr_LastErrorCode j) now (jr_GatewayRead j).

Definition alter_job (id : uuid) (f : JobRow → JobRow) (d : CentralDb) : option CentralDb :=
  match jobs d !! id with Some j => Some (set_jobs (<[id := f j]> (jobs d)) d) | None => Some d end.

Fixpoint transitions (o : Operation) (path : list string) (now : time) : Tx Operation :=
  match path with
  | [] => tret o
  | to :: path => let* o := transitionOperation o to now in transitions o path now
  end.

Definition runtime_reason (type : string) : string :=
  if type == "REPOSITORY_INITIALIZE" then "INITIALIZE_RUNTIME"
  else if type == "SNAPSHOT_LIST" then "SNAPSHOT_LIST_RUNTIME"
  else if type == "SNAPSHOT_INDEX" then "SNAPSHOT_INDEX_RUNTIME" else "TEST_RUNTIME".

(** A job that ends at its claim. *)
Definition retire (j : CredentialJob) (code : string) (finish : CredentialJob → Tx ()) : Tx CredentialJob :=
  let* _ := finish (with_operation (with_code code (cj_Operation j)) j) in
  let* _ := commit in
  tfail ErrNotFound.

(** The claim proper: leases, attempt, transitions, audit, and the final checks. *)
Definition claim (j : CredentialJob) (attempt : Z) (owner : uuid) (now : time) : Tx CredentialJob :=
  let j := with_owner owner (now + 30 * second) j in
  let* _ := match cj_Repository j with Some repo => acquireProvisionLease j repo now | None => tret () end in
  let operation := op_ID (cj_Operation j) in
  let* _ := exec (λ _, alter_job (cj_ID j) (claimed owner (now + 30 * second) now)) in
  let* _ := exec (λ _, alter_operation operation (set_attempt (attempt + 1))) in
  let o := set_attempt (attempt + 1) (cj_Operation j) in
  let* o :=
    if op_Status o == "QUEUED" then transitions o ["DISPATCHED"; "ACKNOWLEDGED"; "RUNNING"] now
    else if op_Status o != "RUNNING" then tfail ErrOperationTransition else tret o in
  let j := with_operation o j in
  let reason := runtime_reason (op_Type o) in
  let* audit := credentialJobAudit o "STORAGE_SECRET_ACCESS" reason now in
  let* _ := if is_none (cj_GatewayRead j) then append_audit audit else tret () in
  let* _ :=
    match cj_Repository j with
    | Some repo =>
        let* audit := credentialJobAudit o "REPOSITORY_SECRET_ACCESS" reason now in
        let* _ := append_audit (on_repository repo audit) in
        ensureProvisionLease j
    | None => tret ()
    end in
  let* _ :=
    match cj_GatewayRead j, cj_Repository j with
    | Some _, Some repo =>
        let* audit := credentialJobAudit o "GATEWAY_CENTRAL_READ_AUTHORIZATION" "READ_RUNTIME" now in
        let* _ := append_audit (on_repository repo audit) in
        ensureReadJobBinding j
    | _, _ => tret ()
    end in
  let* _ := ensureCredentialLease (cj_ID j) owner in
  let* _ := commit in
  tret j.

Definition ClaimCredentialJob (owner : uuid) : Tx CredentialJob :=
  if owner == uuid_Nil then tfail ErrJobLeaseLost
  else
    let* row := select next_job in
    match row with
    | None => tfail ErrNotFound
    | Some row =>
        let* j := lock_operation (jr_ID row) (jr_OperationID row) uuid_Nil zero_time (jr_Payload row) (jr_GatewayRead row) in
        let* now := clock_timestamp in
        let* bound := tattempt (ensureReadJobBinding j) in
        match bound with
        | Err x =>
            if is_none (cj_GatewayRead j) || negb ((x == ErrRepositoryBusy) || (x == ErrRepositoryUnavailable)) then tfail x
            else
              retire j "REPOSITORY_UNAVAILABLE"
                (λ j, finishSnapshotReadJob j (if op_Status (cj_Operation j) == "QUEUED" then "REJECTED" else "FAILED") now)
        | Ok _ =>
            if jr_MaxAttempts row <=? jr_Attempt row
            then retire j "WORKER_LOST" (λ j, finishCredentialJob j "TIMED_OUT" now)
            else claim j (jr_Attempt row) owner now
        end
    end.

(** [lockCredentialJob]: the job under its live lease. *)
Definition lockCredentialJob (id owner : uuid) : Tx CredentialJob :=
  let* row := select (λ t d,
    match jobs d !! id with Some j => if (jr_Status j == "LEASED") && job_held owner t j then Some j else None | None => None end) in
  match row with
  | None => tfail ErrJobLeaseLost
  | Some row =>
      let* j := lock_operation id (jr_OperationID row) owner (default zero_time (jr_LeaseExpiresAt row)) (jr_Payload row)
                  (jr_GatewayRead row) in
      let* _ := if is_none (cj_GatewayRead j) then ensureNoBackupAdmission (sc_ID (cj_Credential j)) else tret () in
      let* _ := ensureProvisionLease j in
      tret j
  end.

Definition renewed (t : time) (j : JobRow) : JobRow :=
  mkJobRow (jr_ID j) (jr_OperationID j) (jr_Queue j) (jr_Payload j) (jr_Status j) (jr_AvailableAt j) (jr_LeaseOwner j)
    (Some (t + 30 * second)) (jr_Attempt j) (jr_MaxAttempts j) (jr_LastErrorCode j) t (jr_GatewayRead j).

Definition renew_row (id owner : uuid) (t : time) (d : CentralDb) : option (option uuid * CentralDb) :=
  match jobs d !! id with
  | Some j =>
      if (jr_Status j == "LEASED") && job_held owner t j
      then Some (Some (jr_OperationID j), set_jobs (<[id := renewed t j]> (jobs d)) d) else Some (None, d)
  | None => Some (None, d)
  end.

Definition renew_lease (repository operation owner : uuid) (t : time) (d : CentralDb) : option (bool * CentralDb) :=
  match leases d !! repository with
  | Some l =>
      if holds_lease l operation owner t
      then Some (true, set_leases (<[repository := mkLeaseRow (le_OperationID l) (le_Owner l) (le_Kind l) (t + 30 * second)]> (leases d)) d)
      else Some (false, d)
  | None => Some (false, d)
  end.

Definition RenewCredentialJob (id owner : uuid) : Tx () :=
  let* j := lockCredentialJob id owner in
  let* _ := if is_some (cj_GatewayRead j) then ensureReadJobBinding j else tret () in
  let* row := stmt (renew_row id owner) in
  match row with
  | None => tfail ErrJobLeaseLost
  | Some operation =>
      let* repository := select_row (λ _ d, op_RepositoryID <$> operations d !! operation) in
      let* _ :=
        match repository with
        | Some repository =>
            let* found := stmt (renew_lease repository operation owner) in
            if negb found then tfail ErrJobLeaseLost else tret ()
        | None => tret ()
        end in
      commit
  end.

Definition RefreshCredentialJob (id owner : uuid) (expected : Z) (e : SecretEnvelope) : Tx StorageCredential :=
  let* j := lockCredentialJob id owner in
  if is_some (cj_GatewayRead j) then tfail ErrOperationTransition
  else if negb (credentialUnchanged j) || (op_SecretRevision (cj_Operation j) != expected) ||
          is_some (cj_Repository j) && negb (cj_RepositoryAvailable j)
  then tfail ErrRevisionConflict
  else
    let* now := clock_timestamp in
    let credential := sc_ID (cj_Credential j) in
    let* _ := exec (λ _ d, (λ g, set_storage g d) <$> insertSecret e (cd_storage d)) in
    let* _ := exec (λ _ d, (λ g, set_storage g d) <$> insert_revision credential (expected + 1) (se_ID e) (cd_storage d)) in
    let* _ := exec (λ _, alter_credential credential (refreshed e now)) in
    let* c := scanCredential credential in
    let* _ := exec (λ _, alter_operation (op_ID (cj_Operation j)) (set_secret_revision (sc_SecretRevision c))) in
    let* audit := credentialJobAudit (cj_Operation j) "STORAGE_CREDENTIAL_REFRESH" "SECRET_CHANGED" now in
    let* _ := append_audit (with_changes (secret_change (sc_SecretRevision c)) audit) in
    let* _ := ensureProvisionLease j in
    let* _ := ensureCredentialLease id owner in
    let* _ := commit in
    tret c.

(** ** Completion *)

Definition CompleteCredentialJob (id owner : uuid) (code : string) : Tx () :=
  if negb (ValidCredentialTestCode code) then tfail ErrOperationTransition
  else
    let* j := lockCredentialJob id owner in
    let* now := clock_timestamp in
    let code :=
      if negb (credentialUnchanged j)
      then (if sc_Status (cj_Credential j) == "DISABLED" then "CREDENTIAL_DISABLED" else "CREDENTIAL_CHANGED") else code in
    let to := if code == "" then "SUCCEEDED" else if code == "TEST_TIMED_OUT" then "TIMED_OUT" else "FAILED" in
    let* _ := ensureCredentialLease id owner in
    let* _ := finishCredentialJob (with_operation (with_code code (cj_Operation j)) j) to now in
    commit.

Definition CompleteRepositoryJob (id owner : uuid) (code resticID : string) (version : Z) : Tx () :=
  if negb (ValidInitializeCode code) || (code == "") && negb (ValidInitializedRepository resticID version) then tfail ErrOperationTransition
  else
    let* j := lockCredentialJob id owner in
    match cj_Repository j with
    | None => tfail ErrOperationTransition
    | Some repo =>
        let* now := clock_timestamp in
        let code := if negb (credentialUnchanged j) then "CREDENTIAL_CHANGED" else code in
        let code := if sc_Status (cj_Credential j) == "DISABLED" then "CREDENTIAL_DISABLED" else code in
        let code := if negb (cj_RepositoryAvailable j) then "REPOSITORY_UNAVAILABLE" else code in
        let to := if code == "" then "SUCCEEDED" else if code == "INITIALIZE_TIMED_OUT" then "TIMED_OUT" else "FAILED" in
        let* _ := finishRepositoryJob (with_operation (with_code code (cj_Operation j)) j) repo to now resticID version in
        commit
    end.

(** The code a finished read has: the credential, the repository and the borrowed
    admission must be as they were. *)
Definition read_code (j : CredentialJob) (code : string) : Tx string :=
  let code :=
    if negb (credentialUnchanged j)
    then (if sc_Status (cj_Credential j) == "DISABLED" then "CREDENTIAL_DISABLED" else "CREDENTIAL_CHANGED") else code in
  let code := if negb (cj_RepositoryAvailable j) then "REPOSITORY_UNAVAILABLE" else code in
  if is_some (cj_GatewayRead j) then
    let* bound := tattempt (ensureReadJobBinding j) in
    match bound with
    | Ok _ => tret code
    | Err x => if (x == ErrRepositoryBusy) || (x == ErrRepositoryUnavailable) then tret "REPOSITORY_UNAVAILABLE" else tfail x
    end
  else tret code.

(** The transaction's end: the operation finishes, and a borrowed admission is
    checked once more when the result counts. *)
Definition finish_read (j : CredentialJob) (code to : string) (now : time) : Tx () :=
  let j := with_operation (with_code code (cj_Operation j)) j in
  let* _ := finishSnapshotReadJob j to now in
  let* _ := if (code == "") && is_some (cj_GatewayRead j) then ensureReadJobBinding j else tret () in
  commit.

(** *** Listings (snapshot_list.go) *)

Record SnapshotListResult := mkListResult {
  lr_OperationID : uuid;
  lr_RepositoryID : uuid;
  lr_SnapshotID : string;
  lr_TreeID : string;
  lr_Path : string;
  lr_Truncated : bool;
  lr_NextCursor : string;
  lr_Scanned : Z;
  lr_Entries : list SnapshotEntry;
  lr_CollectedAt : time }.

Definition validSnapshotListCode (code : string) : bool :=
  bool_decide (code ∈ [""; "SNAPSHOT_NOT_FOUND"; "PATH_INVALID"; "SCAN_FAILED"; "SCAN_TIMED_OUT"; "REPOSITORY_UNAVAILABLE";
    "REPOSITORY_LOCKED"; "PASSWORD_REJECTED"; "CREDENTIAL_CHANGED"; "CREDENTIAL_DISABLED"; "SECRET_UNAVAILABLE"; "CONFIG_UNSAFE";
    "REFRESH_FAILED"; "WORKER_LOST"]).

Definition valid_entry (e : SnapshotEntry) : bool :=
  negb ((ey_Name e == "") || (255 <? slen (ey_Name e)) || (slen (ey_Path e) == 0) || (4096 <? slen (ey_Path e)) ||
        negb (HasPrefix (ey_Path e) "/") || (ey_Type e == "") || ascii_control (ey_Name e +:+ ey_Path e)).

Definition valid_result (request : string * string * string) (r : SnapshotListResult) : bool :=
  (request.1.1 == lr_SnapshotID r) && (request.1.2 == lr_Path r) && (slen (lr_SnapshotID r) == 64) && (slen (lr_TreeID r) == 64) &&
  negb (slen (lr_Path r) == 0) && (slen (lr_Path r) <=? 4096) && (Z.of_nat (length (lr_Entries r)) <=? 5000) && (0 <=? lr_Scanned r) &&
  valid_cursor (lr_NextCursor r) && forallb valid_entry (lr_Entries r).

Definition page_at (repository : uuid) (r : SnapshotListResult) (cursor : string) (p : PageRow) : bool :=
  (pg_RepositoryID p == repository) && (pg_SnapshotID p == lr_SnapshotID r) && (pg_Path p == lr_Path r) && (pg_Cursor p == cursor).

Definition delete_pages (repository : uuid) (r : SnapshotListResult) (cursor : string) (d : CentralDb) : option CentralDb :=
  Some (set_pages (filter (λ kv, page_at repository r cursor kv.2 = false) (fl_pages (cd_fleet d))) d).

(** The primary key and the checks of [snapshot_list_results]. *)
Definition insert_page (operation : uuid) (p : PageRow) (d : CentralDb) : option CentralDb :=
  if is_some (fl_pages (cd_fleet d) !! operation) || negb (string_forallb lower_hex (pg_SnapshotID p)) ||
     negb (string_forallb lower_hex (pg_TreeID p))
  then None else Some (set_pages (<[operation := p]> (fl_pages (cd_fleet d))) d).

Definition store_page `{ListCodec} (j : CredentialJob) (repo : Repository) (r : SnapshotListResult) (now : time) : Tx () :=
  match UnmarshalList (cj_Payload j) with
  | None => tfail ErrOperationTransition
  | Some request =>
      if negb (valid_result request r) then tfail ErrOperationTransition
      else
        let* _ := exec (λ _, delete_pages (rp_ID repo) r request.2) in
        exec (λ _, insert_page (op_ID (cj_Operation j))
          (mkPageRow (rp_ID repo) (lr_SnapshotID r) (lr_TreeID r) (lr_Path r) request.2 (lr_NextCursor r) (lr_Truncated r) (lr_Scanned r)
             (lr_Entries r) now (now + 5 * minute)))
  end.

Definition FinishSnapshotListJob `{ListCodec} (id owner : uuid) (code : string) (r : SnapshotListResult) : Tx () :=
  if negb (validSnapshotListCode code) then tfail ErrOperationTransition
  else
    let* j := lockCredentialJob id owner in
    match cj_Repository j with
    | Some repo =>
        if op_Type (cj_Operation j) != "SNAPSHOT_LIST" then tfail ErrOperationTransition
        else
          let* now := clock_timestamp in
          let* code := read_code j code in
          let* _ := if code == "" then store_page j repo r now else tret () in
          let to := if code == "" then (if lr_Truncated r then "SUCCEEDED_WITH_WARNINGS" else "SUCCEEDED")
                    else if code == "SCAN_TIMED_OUT" then "TIMED_OUT" else "FAILED" in
          finish_read j code to now
    | None => tfail ErrOperationTransition
    end.

(** The row of the one unfinished listing of a repository. *)
Definition ActiveSnapshotListOperation (repository : uuid) : Tx (option Operation) :=
  select (λ _ d, List.find (λ o, (op_RepositoryID o == Some repository) && (op_Type o == "SNAPSHOT_LIST") && is_none (op_FinishedAt o))
    (map_to_list (operations d)).*2).

(** [order by collected_at desc limit 1] of the pages that are still fresh. *)
Definition fresh_page (repository : uuid) (snapshotID path cursor : string) (now : time) (d : CentralDb) : option (uuid * PageRow) :=
  foldr (λ kv best,
    let p := kv.2 in
    if (pg_RepositoryID p == repository) && (pg_SnapshotID p == snapshotID) && (pg_Path p == path) && (pg_Cursor p == cursor) &&
       (now <? pg_ExpiresAt p)
    then match best with
         | Some x => if pg_CollectedAt (snd x) <? pg_CollectedAt p then Some kv else best
         | None => Some kv
         end
    else best) None (map_to_list (fl_pages (cd_fleet d))).

Definition SnapshotListResult_ (repository : uuid) (snapshotID path cursor : string) (now : time) : Tx (option SnapshotListResult) :=
  select (λ _ d,
    (λ kv, let p := kv.2 in
      mkListResult kv.1 (pg_RepositoryID p) (pg_SnapshotID p) (pg_TreeID p) (pg_Path p) (pg_Truncated p) (pg_NextCursor p) (pg_Scanned p)
        (pg_Entries p) (pg_CollectedAt p)) <$> fresh_page repository snapshotID path cursor now d).

Definition delete_expired (now : time) (d : CentralDb) : option (Z * CentralDb) :=
  let expired := filter (λ kv, pg_ExpiresAt kv.2 <= now) (fl_pages (cd_fleet d)) in
  Some (Z.of_nat (size expired), set_pages (fl_pages (cd_fleet d) ∖ expired) d).

Definition DeleteExpiredSnapshotListResults (now : time) : Tx Z :=
  let* n := stmt (λ _, delete_expired now) in
  let* _ := commit in
  tret n.

(** *** The index (snapshot_index.go) *)

Record IndexedSnapshot := mkIndexed {
  ix_PlanID : option uuid;
  ix_SnapshotID : string;
  ix_TreeID : string;
  ix_CapturedAt : time;
  ix_Tags : list string;
  ix_Paths : list string;
  ix_ProgramVersion : string;
  ix_FilesNew : Z;
  ix_BytesAdded : Z }.

Definition validSnapshotIndexCode (code : string) : bool :=
  bool_decide (code ∈ [""; "INDEX_FAILED"; "INDEX_TIMED_OUT"; "REPOSITORY_UNAVAILABLE"; "REPOSITORY_LOCKED"; "PASSWORD_REJECTED";
    "CREDENTIAL_CHANGED"; "CREDENTIAL_DISABLED"; "SECRET_UNAVAILABLE"; "CONFIG_UNSAFE"; "REFRESH_FAILED"; "WORKER_LOST"]).

Definition valid_indexed (e : IndexedSnapshot) : bool :=
  (slen (ix_SnapshotID e) == 64) && (slen (ix_TreeID e) == 64) && negb (IsZero (ix_CapturedAt e)) &&
  (Z.of_nat (length (ix_Tags e)) <=? 100) && (Z.of_nat (length (ix_Paths e)) <=? 1000).

(** [... from plans where id=$1 and repository_id=$2 and archived_at is null] *)
Definition live_plan (id repository : uuid) (d : CentralDb) : option (uuid * uuid) :=
  match fl_plans (cd_fleet d) !! id with
  | Some p => if (pn_RepositoryID p == repository) && is_none (pn_ArchivedAt p) then Some (pn_HostID p, pn_AgentID p) else None
  | None => None
  end.

Definition upsert_snapshot (repository : uuid) (id : string) (row : SnapshotRow) (d : CentralDb) : option CentralDb :=
  if negb (string_forallb lower_hex (sn_TreeID row)) || (sn_FilesNew row <? 0) || (sn_BytesAdded row <? 0) then None
  else Some (set_snapshots (<[(repository, id) := row]> (fl_snapshots (cd_fleet d))) d).

Definition index_entry (j : CredentialJob) (repo : Repository) (now : time) (e : IndexedSnapshot) : Tx () :=
  if negb (valid_indexed e) then tfail ErrOperationTransition
  else
    let* plan := match ix_PlanID e with Some id => select (λ _, live_plan id (rp_ID repo)) | None => tret None end in
    exec (λ _, upsert_snapshot (rp_ID repo) (ix_SnapshotID e)
      (mkSnapshotRow (match plan with Some _ => ix_PlanID e | None => None end) (snd <$> plan) (default (rp_HostID repo) (fst <$> plan))
         (op_ID (cj_Operation j)) (ix_CapturedAt e) now (ix_FilesNew e) (ix_BytesAdded e) (is_some plan) (ix_TreeID e) (ix_Tags e)
         (ix_Paths e) (ix_ProgramVersion e) None)).

Fixpoint index_entries (j : CredentialJob) (repo : Repository) (now : time) (entries : list IndexedSnapshot) : Tx () :=
  match entries with
  | [] => tret ()
  | e :: entries => let* _ := index_entry j repo now e in index_entries j repo now entries
  end.

Definition missing_at (now : time) (x : SnapshotRow) : SnapshotRow :=
  mkSnapshotRow (sn_PlanID x) (sn_AgentID x) (sn_HostID x) (sn_OperationID x) (sn_CapturedAt x) (sn_RecordedAt x) (sn_FilesNew x)
    (sn_BytesAdded x) (sn_Managed x) (sn_TreeID x) (sn_Tags x) (sn_Paths x) (sn_ProgramVersion x) (Some now).

(** [update snapshots set missing_at=$2 where repository_id=$1 and missing_at is
    null and not (snapshot_id = any($3))] *)
Definition mark_missing (repository : uuid) (seen : list string) (now : time) (d : CentralDb) : option CentralDb :=
  Some (set_snapshots
    (map_imap (λ k x, Some (if (k.1 == repository) && is_none (sn_MissingAt x) && negb (bool_decide (k.2 ∈ seen)) then missing_at now x else x))
       (fl_snapshots (cd_fleet d))) d).

Definition store_index (j : CredentialJob) (repo : Repository) (entries : list IndexedSnapshot) (now : time) : Tx () :=
  if 50000 <? Z.of_nat (length entries) then tfail ErrOperationTransition
  else
    let* _ := index_entries j repo now entries in
    exec (λ _, mark_missing (rp_ID repo) (ix_SnapshotID <$> entries) now).

Definition FinishSnapshotIndexJob (id owner : uuid) (code : string) (entries : list IndexedSnapshot) : Tx () :=
  if negb (validSnapshotIndexCode code) then tfail ErrOperationTransition
  else
    let* j := lockCredentialJob id owner in
    match cj_Repository j with
    | Some repo =>
        if op_Type (cj_Operation j) != "SNAPSHOT_INDEX" then tfail ErrOperationTransition
        else
          let* now := clock_timestamp in
          let* code := read_code j code in
          let* _ := if code == "" then store_index j repo entries now else tret () in
          let to := if code == "" then "SUCCEEDED" else if code == "INDEX_TIMED_OUT" then "TIMED_OUT" else "FAILED" in
          finish_read j code to now
    | None => tfail ErrOperationTransition
    end.
End Jobs.
