(* ===== verification/JobSpec.v ===== *)
(** * JobSpec: what may happen to operations and jobs

    [job_step] is the specification of a single change: an operation is queued
    with its job, claimed, renewed, refreshed or finished, or something else
    happens around it.  [jobs_ok] is the invariant of such changes. *)

From S2P Require Import Prelude GoStd Uuid Platform Domain GatewaySession GatewayAuth AuditChain PendingRecord CentralTx CentralStore.
From S2P Require Import CentralTrace CentralRefine CentralFrame CentralJobs.
Import Domain.Operation (ValidateOperationTransition, OperationTerminal, rank, history, history_one, history_step, transition_rank, rank_le).
Open Scope Z_scope.
Open Scope go_scope.
Open Scope central_scope.

(** ** Changes *)

(** The rows an admission refers to. *)
Definition rows_of (a : BackupAdmission) (d : CentralDb) : Prop :=
  is_Some (fl_agents (cd_fleet d) !! ba_AgentID a) ∧ is_Some (fl_hosts (cd_fleet d) !! ba_HostID a) ∧
  is_Some (fl_repositories (cd_fleet d) !! ba_RepositoryID a).

(** Rows are found under their ids. *)
Record keyed (d : CentralDb) : Prop := {
  ky_repositories : ∀ id r, fl_repositories (cd_fleet d) !! id = Some r → rp_ID r = id;
  ky_credentials : ∀ id c, sg_credentials (cd_storage d) !! id = Some c → sc_ID c = id }.

(** Rows that others refer to stay. *)
Record kept_rows (d d' : CentralDb) : Prop := {
  kr_agents : ∀ id, is_Some (fl_agents (cd_fleet d) !! id) → is_Some (fl_agents (cd_fleet d') !! id);
  kr_hosts : ∀ id, is_Some (fl_hosts (cd_fleet d) !! id) → is_Some (fl_hosts (cd_fleet d') !! id);
  kr_repositories : ∀ id, is_Some (fl_repositories (cd_fleet d) !! id) → is_Some (fl_repositories (cd_fleet d') !! id);
  kr_keys : keyed d → keyed d' }.
#[export] Instance kept_rows_preorder : PreOrder kept_rows.
Proof. split; [intros d; by split|]. intros d1 d2 d3 [] []. split; auto. Qed.

Definition around (d d' : CentralDb) : Prop := no_new_admission d d' ∧ kept_rows d d'.
#[export] Instance around_preorder : PreOrder around.
Proof. split; [intros d; by split|]. intros d1 d2 d3 [] []. split; by etrans. Qed.

(** The tables of operations and jobs stay as they are. *)
Record calm (d d' : CentralDb) : Prop := {
  ca_around : around d d';
  ca_operations : operations d' = operations d;
  ca_events : events d' = events d;
  ca_jobs : jobs d' = jobs d }.
#[export] Instance calm_preorder : PreOrder calm.
Proof. split; [intros d; by split|]. intros d1 d2 d3 [] []. split; congruence || by etrans. Qed.

Lemma kept_rows_fleet d d' : cd_fleet d' = cd_fleet d → credentials_keyed d d' → kept_rows d d'.
Proof. intros Hf Hk. split; rewrite ?Hf; try done. intros [Kr Kc]. split; [by rewrite Hf|by apply Hk]. Qed.

Lemma calm_settled d d' : settled d d' → calm d d'.
Proof. intros [Hf Ha Hk]. split; [|by rewrite Hf..]. split; [done|by apply kept_rows_fleet]. Qed.
#[export] Instance calm_aside : Asideable calm.
Proof. intros d d' Ha. apply calm_settled, aside_within, Ha. Qed.

(** The operation and its history after a path of transitions. *)
Definition event_of (o : Operation) (to : string) (now : time) (l : list OperationEvent) : OperationEvent :=
  mkOperationEvent (op_ID o) (next_sequence (op_ID o) l) (op_Status o) to now.
Fixpoint walked (o : Operation) (path : list string) (now : time) (l : list OperationEvent) : Operation * list OperationEvent :=
  match path with
  | [] => (o, l)
  | to :: path => walked (moved_to to now o) path now (l ++ [event_of o to now l])
  end.

Definition unfinished (id : uuid) (o : Operation) (d : CentralDb) : Prop := operations d !! id = Some o ∧ op_FinishedAt o = None.

Definition starting : list string := ["DISPATCHED"; "ACKNOWLEDGED"; "RUNNING"].

Inductive job_step (d d' : CentralDb) : Prop :=
| js_calm : calm d d' → job_step d d'
| js_admit a :
    kept_rows d d' → operations d' = operations d → events d' = events d → jobs d' = jobs d →
    cd_admissions d' = <[ba_ID a := a]> (cd_admissions d) →
    (∀ id o, unfinished id o d → op_StorageCredentialID o ≠ ba_StorageCredentialID a) →
    is_Some (fl_agents (cd_fleet d) !! ba_AgentID a) → is_Some (fl_hosts (cd_fleet d) !! ba_HostID a) →
    (keyed d → is_Some (fl_repositories (cd_fleet d) !! ba_RepositoryID a)) → job_step d d'
| js_queue o j now :
    around d d' → operations d !! op_ID o = None → op_Status o = "QUEUED" → op_FinishedAt o = None →
    (∀ id x, unfinished id x d → op_StorageCredentialID x ≠ op_StorageCredentialID o) →
    jobs d !! jr_ID j = None → (∀ id x, jobs d !! id = Some x → jr_OperationID x ≠ op_ID o) → jr_OperationID j = op_ID o →
    jr_Status j = "READY" → jr_Attempt j = 0 → jr_MaxAttempts j = 3 → jr_LeaseOwner j = None →
    (jr_GatewayRead j = None → keyed d → (∀ id a, unreleased id a d → rows_of a d) →
     ∀ id a, unreleased id a d → ba_StorageCredentialID a ≠ op_StorageCredentialID o) →
    operations d' = <[op_ID o := o]> (operations d) →
    events d' = events d ++ [mkOperationEvent (op_ID o) (next_sequence (op_ID o) (events d)) "" "QUEUED" now] →
    jobs d' = <[jr_ID j := j]> (jobs d) → job_step d d'
| js_claim j o path owner now t :
    around d d' → jobs d !! jr_ID j = Some j → operations d !! jr_OperationID j = Some o → claimable t j = true →
    jr_Attempt j < jr_MaxAttempts j → (op_Status o = "QUEUED" ∧ path = starting ∨ op_Status o = "RUNNING" ∧ path = []) →
    operations d' = <[jr_OperationID j := (walked (set_attempt (jr_Attempt j + 1) o) path now (events d)).1]> (operations d) →
    events d' = (walked (set_attempt (jr_Attempt j + 1) o) path now (events d)).2 →
    jobs d' = <[jr_ID j := claimed owner (now + 30 * second) now j]> (jobs d) → job_step d d'
| js_renew j owner t :
    around d d' → jobs d !! jr_ID j = Some j → jr_Status j = "LEASED" → job_held owner t j = true →
    operations d' = operations d → events d' = events d → jobs d' = <[jr_ID j := renewed t j]> (jobs d) → job_step d d'
| js_secret id o r :
    around d d' → operations d !! id = Some o → operations d' = <[id := set_secret_revision r o]> (operations d) →
    events d' = events d → jobs d' = jobs d → job_step d d'
| js_finish j o to code now status last at_ :
    around d d' → jobs d !! jr_ID j = Some j → operations d !! jr_OperationID j = Some o →
    ValidateOperationTransition (op_Status o) to = true → OperationTerminal to = true → status ∈ ["DONE"; "DEAD"] →
    operations d' = <[jr_OperationID j := moved_to to now (with_code code o)]> (operations d) →
    events d' = events d ++ [event_of o to now (events d)] →
    jobs d' = <[jr_ID j := finished_job status last at_ j]> (jobs d) → job_step d d'.

Definition works : CentralDb → CentralDb → Prop := rtc job_step.

(** ** Histories of an operation *)

Definition events_for (id : uuid) (l : list OperationEvent) : list OperationEvent := filter (λ ev, ev_OperationID ev = id) l.

Definition advances (from to : string) : Prop := from = "" ∧ to = "QUEUED" ∨ ValidateOperationTransition from to = true.

Fixpoint linked (n : Z) (from : string) (l : list OperationEvent) (to : string) : Prop :=
  match l with
  | [] => from = to
  | ev :: l => ev_Sequence ev = n + 1 ∧ ev_From ev = from ∧ advances from (ev_To ev) ∧ linked (n + 1) (ev_To ev) l to
  end.

Lemma linked_extend n from l ev mid :
  linked n from l mid → ev_Sequence ev = n + Z.of_nat (length l) + 1 → ev_From ev = mid → advances mid (ev_To ev) →
  linked n from (l ++ [ev]) (ev_To ev).
Proof.
  revert n from. induction l as [|x l IH]; intros n from; cbn [linked app length].
  - intros -> Hs Hf Ha. split_and!; [lia|done|done|done].
  - intros (Hx & Hf & Ha & Hl) Hs Hm Hadv. split_and!; [done..|]. apply IH; [done|lia|done|done].
Qed.

Lemma linked_sequences n from l to ev : linked n from l to → ev ∈ l → n < ev_Sequence ev ≤ n + Z.of_nat (length l).
Proof.
  revert n from. induction l as [|x l IH]; intros n from; [by intros _ ?%not_elem_of_nil|]. cbn [linked length].
  intros (Hx & _ & _ & Hl) [->|Hin]%elem_of_cons; [lia|]. specialize (IH _ _ Hl Hin). lia.
Qed.

Lemma linked_last n from l to : linked n from l to → l ≠ [] → ∃ ev, ev ∈ l ∧ ev_Sequence ev = n + Z.of_nat (length l).
Proof.
  revert n from. induction l as [|x l IH]; intros n from; [done|]. cbn [linked length]. intros (Hx & _ & _ & Hl) _.
  destruct l as [|y l]; [exists x; split; [by left|cbn in *; lia]|].
  destruct (IH _ _ Hl) as (ev & Hev & Hs); [done|]. exists ev. split; [by right|]. rewrite Hs. cbn [length]. lia.
Qed.

(** [coalesce(max(sequence),0)] of a numbered history is its length. *)
Lemma max_sequence id l :
  let m := foldr (λ ev m, if ev_OperationID ev == id then Z.max (ev_Sequence ev) m else m) 0 l in
  0 ≤ m ∧ (∀ ev, ev ∈ events_for id l → ev_Sequence ev ≤ m) ∧ (m = 0 ∨ ∃ ev, ev ∈ events_for id l ∧ ev_Sequence ev = m).
Proof.
  unfold events_for. induction l as [|x l (H0 & Hle & Hm)]; [by split_and!; [done|intros ? ?%not_elem_of_nil|left]|]. cbn [foldr].
  rewrite filter_cons. destruct (bool_decide_reflect (ev_OperationID x = id)) as [Hx|Hx]; [rewrite decide_True by done|by rewrite decide_False].
  split_and!; [lia| |].
  - intros ev [->|Hin]%elem_of_cons; [lia|]. specialize (Hle _ Hin). lia.
  - destruct (Z.max_spec (ev_Sequence x) (foldr (λ ev m, if ev_OperationID ev == id then Z.max (ev_Sequence ev) m else m) 0 l)) as [[_ ->]|[_ ->]].
    + destruct Hm as [->|(ev & Hin & Hev)]; [by left|]. right. exists ev. split; [by right|done].
    + right. exists x. split; [by left|done].
Qed.

Lemma next_sequence_linked id l to : linked 0 "" (events_for id l) to → next_sequence id l = Z.of_nat (length (events_for id l)) + 1.
Proof.
  intros Hl. unfold next_sequence. pose proof (max_sequence id l) as (H0 & Hle & Hm). cbv zeta in *.
  set (m := foldr _ _ _) in *. destruct (events_for id l) as [|x r] eqn:He.
  - destruct Hm as [->|(ev & Hin & _)]; [done|]. by apply not_elem_of_nil in Hin.
  - destruct (linked_last _ _ _ _ Hl) as (ev & Hev & Hs); [done|]. specialize (Hle _ Hev).
    destruct Hm as [Hm|(ev' & Hin & Hev')]; [cbn in *; lia|]. pose proof (linked_sequences _ _ _ _ _ Hl Hin). lia.
Qed.

Lemma events_for_snoc id l ev : events_for id (l ++ [ev]) = events_for id l ++ (if decide (ev_OperationID ev = id) then [ev] else []).
Proof. unfold events_for. by rewrite filter_snoc. Qed.

Lemma linked_event o to now l :
  linked 0 "" (events_for (op_ID o) l) (op_Status o) → ValidateOperationTransition (op_Status o) to = true →
  linked 0 "" (events_for (op_ID o) (l ++ [event_of o to now l])) to.
Proof.
  intros Hl Hv. rewrite events_for_snoc, decide_True by done.
  apply (linked_extend _ _ _ (event_of o to now l) (op_Status o)); [done| |done|by right].
  cbn. by erewrite next_sequence_linked.
Qed.

Lemma event_elsewhere o to now l id : id ≠ op_ID o → events_for id (l ++ [event_of o to now l]) = events_for id l.
Proof. intros Hne. by rewrite events_for_snoc, decide_False, app_nil_r by done. Qed.

Lemma transition_named from to : ValidateOperationTransition from to = true → from ≠ "" ∧ to ≠ "".
Proof.
  intros Hv. split; intros ->.
  - apply transition_rank in Hv as [Hr _]. pose proof (rank_le to). vm_compute (rank "") in Hr. lia.
  - revert Hv. unfold ValidateOperationTransition.
    repeat match goal with |- context [if from == ?x then _ else _] => destruct (from == x) end; by vm_compute.
Qed.

(** The statuses of a linked history. *)
Lemma linked_history n from l to :
  linked n from l to → from ≠ "" → history (from :: (ev_To <$> l)) ∧ last (from :: (ev_To <$> l)) = Some to.
Proof.
  revert n from. induction l as [|ev l IH]; intros n from; cbn [linked fmap list_fmap].
  - intros -> _. split; [apply history_one|done].
  - intros (_ & _ & Ha & Hl) Hne. destruct Ha as [[Hf _]|Hv]; [done|].
    pose proof (transition_named _ _ Hv) as [_ Hto].
    destruct (IH _ _ Hl Hto) as [Hh Hlast]. split; [by apply history_step|]. by rewrite last_cons_cons.
Qed.

Lemma first_queued l to : linked 0 "" l to → to ≠ "" → ∃ ev rest, l = ev :: rest ∧ ev_To ev = "QUEUED" ∧
  history (ev_To <$> l) ∧ last (ev_To <$> l) = Some to.
Proof.
  destruct l as [|ev l]; cbn [linked]; [by intros -> ?|]. intros (_ & _ & Ha & Hl) _. exists ev, l.
  destruct Ha as [[_ Hq]|Hv]; [|by apply transition_named in Hv as [? _]]. split_and!; [done|done|..].
  all: rewrite Hq in Hl; destruct (linked_history _ _ _ _ Hl) as [H1 H2]; [done|]; by rewrite fmap_cons, Hq.
Qed.

(** ** The invariant *)

(** Where a job and its operation stand together. *)
Definition job_state (j : JobRow) (o : Operation) : Prop :=
  jr_MaxAttempts j = 3 ∧ 0 ≤ jr_Attempt j ≤ 3 ∧
  (jr_Status j = "READY" ∧ op_Status o = "QUEUED" ∧ jr_Attempt j = 0 ∧ jr_LeaseOwner j = None ∨
   jr_Status j = "LEASED" ∧ op_Status o = "RUNNING" ∧ 1 ≤ jr_Attempt j ∧ is_Some (jr_LeaseOwner j) ∨
   jr_Status j ∈ ["DONE"; "DEAD"] ∧ OperationTerminal (op_Status o) = true).

Record jobs_ok (d : CentralDb) : Prop := {
  jk_keys : keyed d;
  jk_rows : ∀ id a, unreleased id a d → rows_of a d;
  jk_operation : ∀ id o, operations d !! id = Some o → op_ID o = id ∧ (op_FinishedAt o = None ↔ OperationTerminal (op_Status o) = false) ∧
    linked 0 "" (events_for id (events d)) (op_Status o);
  jk_events : ∀ id, operations d !! id = None → events_for id (events d) = [];
  jk_job : ∀ id j, jobs d !! id = Some j → jr_ID j = id ∧ ∃ o, operations d !! jr_OperationID j = Some o ∧ job_state j o;
  jk_unique : ∀ i j x y, jobs d !! i = Some x → jobs d !! j = Some y → jr_OperationID x = jr_OperationID y → i = j;
  jk_served : ∀ id o, operations d !! id = Some o → ∃ i j, jobs d !! i = Some j ∧ jr_OperationID j = id;
  jk_single : ∀ i j x y, unfinished i x d → unfinished j y d → op_StorageCredentialID x = op_StorageCredentialID y → i = j;
  jk_exclusive : ∀ i j o id a, jobs d !! i = Some j → jr_GatewayRead j = None → unfinished (jr_OperationID j) o d →
    unreleased id a d → ba_StorageCredentialID a ≠ op_StorageCredentialID o }.

Lemma unreleased_before d d' id a : no_new_admission d d' → unreleased id a d' → unreleased id a d.
Proof.
  intros Hn [Ha Hr]. destruct (Hn _ _ Ha) as (x & Hx & [->|[t ->]]); [by split|]. by destruct (with_released_not t x).
Qed.

Lemma rows_around d d' id a : jobs_ok d → around d d' → unreleased id a d' → rows_of a d'.
Proof.
  intros Hok [Hn [Ka Kh Kr _]] Hu%(unreleased_before d); [|done]. destruct (jk_rows _ Hok _ _ Hu) as (? & ? & ?). unfold rows_of. auto.
Qed.

Lemma calm_ok d d' : calm d d' → jobs_ok d → jobs_ok d'.
Proof.
  intros [Har Ho He Hj] Hok. pose proof Hok as [K R O E J Un Sv Si Ex]. pose proof Har as [Hn [_ _ _ Kk]].
  unfold unfinished in *. split; rewrite ?Ho, ?He, ?Hj; try done.
  - by apply Kk.
  - intros id a. by apply rows_around with d.
  - intros i j x y Hx Hy. by apply Si; rewrite <- Ho.
  - intros i j o id a Hji Hg. unfold unfinished. rewrite Ho. intros Hu Ha%(unreleased_before d); [|done]. by eapply Ex.
Qed.

Lemma admit_ok d d' a :
  kept_rows d d' → operations d' = operations d → events d' = events d → jobs d' = jobs d →
  cd_admissions d' = <[ba_ID a := a]> (cd_admissions d) →
  (∀ id o, unfinished id o d → op_StorageCredentialID o ≠ ba_StorageCredentialID a) →
  is_Some (fl_agents (cd_fleet d) !! ba_AgentID a) → is_Some (fl_hosts (cd_fleet d) !! ba_HostID a) →
  is_Some (fl_repositories (cd_fleet d) !! ba_RepositoryID a) → jobs_ok d → jobs_ok d'.
Proof.
  intros [Ka Kh Kr Kk] Ho He Hj Ha Hfree Hag Hh Hr Hok. pose proof Hok as [K R O E J Un Sv Si Ex].
  assert (Hu : ∀ id x, unreleased id x d' → x = a ∨ unreleased id x d).
  { intros id x [Hx Hrel]. rewrite Ha in Hx. apply lookup_insert_Some in Hx as [[_ <-]|[_ Hx]]; [by left|by right]. }
  unfold unfinished in *. split; rewrite ?Ho, ?He, ?Hj; try done.
  - by apply Kk.
  - intros id x [->|Hx]%Hu; [unfold rows_of; by auto|]. destruct (R _ _ Hx) as (? & ? & ?). unfold rows_of. auto.
  - intros i j x y Hx Hy. by apply Si; rewrite <- Ho.
  - intros i j o id x Hji Hg. unfold unfinished. rewrite Ho. intros Huf [->|Hx]%Hu; [intros Heq; by eapply Hfree|by eapply Ex].
Qed.

Lemma update_ok d d' j j' o o' :
  jobs_ok d → around d d' → jobs d !! jr_ID j = Some j → operations d !! jr_OperationID j = Some o →
  jr_ID j' = jr_ID j → jr_OperationID j' = jr_OperationID j → jr_GatewayRead j' = jr_GatewayRead j →
  op_ID o' = op_ID o → op_StorageCredentialID o' = op_StorageCredentialID o → (op_FinishedAt o' = None → op_FinishedAt o = None) →
  (op_FinishedAt o' = None ↔ OperationTerminal (op_Status o') = false) → job_state j' o' →
  linked 0 "" (events_for (op_ID o) (events d')) (op_Status o') →
  (∀ id, id ≠ op_ID o → events_for id (events d') = events_for id (events d)) →
  operations d' = <[jr_OperationID j := o']> (operations d) → jobs d' = <[jr_ID j := j']> (jobs d) → jobs_ok d'.
Proof.
  intros Hok Har Hj Ho Hji Hjo Hjg Hoi Hoc Hof Hterm Hst Hl Hel Hops Hjobs. pose proof Hok as [K R O E J Un Sv Si Ex].
  pose proof Har as [Hn [_ _ _ Kk]]. destruct (O _ _ Ho) as (Hid & _ & _).
  assert (Hu : ∀ id x, unfinished id x d' → ∃ y, unfinished id y d ∧ op_StorageCredentialID y = op_StorageCredentialID x).
  { intros id x [Hx Hf]. rewrite Hops in Hx. apply lookup_insert_Some in Hx as [[<- <-]|[_ Hx]]; [|by exists x].
    exists o. split; [split; auto|done]. }
  assert (Hjb : ∀ i x, jobs d' !! i = Some x → ∃ y, jobs d !! i = Some y ∧ jr_OperationID y = jr_OperationID x ∧ jr_GatewayRead y = jr_GatewayRead x).
  { intros i x Hx. rewrite Hjobs in Hx. apply lookup_insert_Some in Hx as [[<- <-]|[_ Hx]]; [by exists j|by exists x]. }
  split.
  - by apply Kk.
  - intros id a. by apply rows_around with d.
  - intros id x. rewrite Hops. intros [[<- <-]|[Hne Hx]]%lookup_insert_Some; [by rewrite <- Hid, Hoi at 1; split_and!; [congruence|done|rewrite <- Hid]|].
    destruct (O _ _ Hx) as (? & ? & ?). rewrite Hel by congruence. done.
  - intros id. rewrite Hops. intros [Hx Hne]%lookup_insert_None. rewrite Hel by congruence. by apply E.
  - intros i x. rewrite Hjobs. intros [[<- <-]|[Hne Hx]]%lookup_insert_Some.
    + split; [done|]. exists o'. rewrite Hjo, Hops, lookup_insert_eq. done.
    + destruct (J _ _ Hx) as (Hi & y & Hy & Hst'). split; [done|]. exists y. split; [|done].
      rewrite Hops, lookup_insert_ne; [done|]. intros Heq. apply Hne. by eapply Un.
  - intros i1 i2 x y Hx Hy Heq. destruct (Hjb _ _ Hx) as (x' & Hx' & Hxo & _). destruct (Hjb _ _ Hy) as (y' & Hy' & Hyo & _).
    apply (Un i1 i2 x' y'); [done|done|congruence].
  - intros id x Hx. assert (∃ y, operations d !! id = Some y) as [y Hy].
    { rewrite Hops in Hx. apply lookup_insert_Some in Hx as [[<- _]|[_ Hx]]; eauto. }
    destruct (Sv _ _ Hy) as (i & z & Hz & Hzo). destruct (decide (i = jr_ID j)) as [->|Hne].
    + exists (jr_ID j), j'. rewrite Hjobs, lookup_insert_eq. split; [done|]. congruence.
    + exists i, z. by rewrite Hjobs, lookup_insert_ne.
  - intros i1 i2 x y Hx Hy Heq. destruct (Hu _ _ Hx) as (x' & Hx' & Hxc). destruct (Hu _ _ Hy) as (y' & Hy' & Hyc).
    apply (Si i1 i2 x' y'); [done|done|congruence].
  - intros i x y id a Hx Hg Hy Ha%(unreleased_before d); [|done]. destruct (Hjb _ _ Hx) as (x' & Hx' & Hxo & Hxg).
    destruct (Hu _ _ Hy) as (y' & Hy' & Hyc). rewrite <- Hxo in Hy'. rewrite <- Hyc. eapply Ex; [done|congruence|done|done].
Qed.

Lemma queue_ok d d' o j now :
  around d d' → operations d !! op_ID o = None → op_Status o = "QUEUED" → op_FinishedAt o = None →
  (∀ id x, unfinished id x d → op_StorageCredentialID x ≠ op_StorageCredentialID o) →
  jobs d !! jr_ID j = None → (∀ id x, jobs d !! id = Some x → jr_OperationID x ≠ op_ID o) → jr_OperationID j = op_ID o →
  jr_Status j = "READY" → jr_Attempt j = 0 → jr_MaxAttempts j = 3 → jr_LeaseOwner j = None →
  (jr_GatewayRead j = None → ∀ id a, unreleased id a d → ba_StorageCredentialID a ≠ op_StorageCredentialID o) →
  operations d' = <[op_ID o := o]> (operations d) →
  events d' = events d ++ [mkOperationEvent (op_ID o) (next_sequence (op_ID o) (events d)) "" "QUEUED" now] →
  jobs d' = <[jr_ID j := j]> (jobs d) → jobs_ok d → jobs_ok d'.
Proof.
  intros Har Ho Hs Hf Hfree Hj Hjs Hjo Hr Ha Hm Hlo Hex Hops Hev Hjobs Hok. pose proof Hok as [K R O E J Un Sv Si Ex].
  pose proof Har as [Hn [_ _ _ Kk]].
  assert (Hnew : events_for (op_ID o) (events d) = []) by (by apply E).
  assert (Hevs : ∀ id, id ≠ op_ID o → events_for id (events d') = events_for id (events d)).
  { intros id Hne. rewrite Hev, events_for_snoc, decide_False, app_nil_r by (cbn; congruence). done. }
  split.
  - by apply Kk.
  - intros id a. by apply rows_around with d.
  - intros id x. rewrite Hops. intros [[<- <-]|[Hne Hx]]%lookup_insert_Some.
    + split; [done|]. rewrite Hf, Hs. split; [by vm_compute|]. rewrite Hev, events_for_snoc, decide_True by done. rewrite Hnew. cbn.
      erewrite next_sequence_linked by (rewrite Hnew; reflexivity). rewrite Hnew. by split_and!; [..|left|].
    + destruct (O _ _ Hx) as (? & ? & ?). rewrite Hevs by congruence. done.
  - intros id. rewrite Hops. intros [Hx Hne]%lookup_insert_None. rewrite Hevs by congruence. by apply E.
  - intros i x. rewrite Hjobs. intros [[<- <-]|[Hne Hx]]%lookup_insert_Some.
    + split; [done|]. exists o. rewrite Hjo, Hops, lookup_insert_eq. split; [done|]. split_and!; [done|lia|lia|]. by left.
    + destruct (J _ _ Hx) as (Hi & y & Hy & Hst'). split; [done|]. exists y. split; [|done].
      rewrite Hops, lookup_insert_ne; [done|]. by apply not_eq_sym, (Hjs i).
  - intros i1 i2 x y. rewrite Hjobs. intros [[<- <-]|[_ Hx]]%lookup_insert_Some [[<- <-]|[_ Hy]]%lookup_insert_Some Heq; [done|..].
    + by destruct (Hjs _ _ Hy); rewrite <- Heq.
    + by destruct (Hjs _ _ Hx); rewrite Heq.
    + by eapply Un.
  - intros id x. rewrite Hops. intros [[<- <-]|[Hne Hx]]%lookup_insert_Some.
    + exists (jr_ID j), j. by rewrite Hjobs, lookup_insert_eq.
    + destruct (Sv _ _ Hx) as (i & z & Hz & Hzo). exists i, z. rewrite Hjobs, lookup_insert_ne; [done|]. congruence.
  - unfold unfinished. intros i1 i2 x y. rewrite Hops. intros [[[<- <-]|[_ Hx]]%lookup_insert_Some Fx] [[[<- <-]|[_ Hy]]%lookup_insert_Some Fy] Heq; [done|..].
    + destruct (Hfree i2 y); [by split|done].
    + destruct (Hfree i1 x); [by split|done].
    + by apply (Si i1 i2 x y).
  - unfold unfinished. intros i x y id a. rewrite Hops, Hjobs. intros Hx Hg [Hy Hfy] Hu%(unreleased_before d); [|done].
    apply lookup_insert_Some in Hy as [[Hyo <-]|[Hny Hy]].
    + apply lookup_insert_Some in Hx as [[_ <-]|[_ Hx]]; [by eapply Hex|]. by destruct (Hjs _ _ Hx).
    + apply lookup_insert_Some in Hx as [[_ <-]|[_ Hx]]; [congruence|]. by eapply (Ex i x y).
Qed.

Lemma set_attempt_ids n o :
  op_ID (set_attempt n o) = op_ID o ∧ op_StorageCredentialID (set_attempt n o) = op_StorageCredentialID o ∧
  op_FinishedAt (set_attempt n o) = op_FinishedAt o ∧ op_Status (set_attempt n o) = op_Status o.
Proof. done. Qed.

(** The path of a claim. *)
Lemma walked_starting o now l :
  op_Status o = "QUEUED" → linked 0 "" (events_for (op_ID o) l) "QUEUED" →
  let p := walked o starting now l in
  op_ID p.1 = op_ID o ∧ op_StorageCredentialID p.1 = op_StorageCredentialID o ∧ op_FinishedAt p.1 = op_FinishedAt o ∧
  op_Status p.1 = "RUNNING" ∧ linked 0 "" (events_for (op_ID o) p.2) "RUNNING" ∧
  ∀ id, id ≠ op_ID o → events_for id p.2 = events_for id l.
Proof.
  intros Hq Hl. cbn [walked starting fst snd]. split_and!; try done.
  - set (o1 := moved_to "DISPATCHED" now o). set (o2 := moved_to "ACKNOWLEDGED" now o1).
    apply (linked_event o2); [|done]. apply (linked_event o1); [|done]. apply (linked_event o); rewrite Hq; [done|by vm_compute].
  - intros id Hne. rewrite !event_elsewhere by done. done.
Qed.

Lemma state_of d j o : jobs_ok d → jobs d !! jr_ID j = Some j → operations d !! jr_OperationID j = Some o → job_state j o.
Proof. intros Hok Hj Ho. destruct (jk_job _ Hok _ _ Hj) as (_ & x & Hx & Hs). simplify_eq. done. Qed.

Lemma claim_ok d d' j o path owner now t :
  around d d' → jobs d !! jr_ID j = Some j → operations d !! jr_OperationID j = Some o → claimable t j = true →
  jr_Attempt j < jr_MaxAttempts j → (op_Status o = "QUEUED" ∧ path = starting ∨ op_Status o = "RUNNING" ∧ path = []) →
  operations d' = <[jr_OperationID j := (walked (set_attempt (jr_Attempt j + 1) o) path now (events d)).1]> (operations d) →
  events d' = (walked (set_attempt (jr_Attempt j + 1) o) path now (events d)).2 →
  jobs d' = <[jr_ID j := claimed owner (now + 30 * second) now j]> (jobs d) → jobs_ok d → jobs_ok d'.
Proof.
  intros Har Hj Ho Hcl Hat Hpath Hops Hev Hjobs Hok. destruct (jk_operation _ Hok _ _ Ho) as (Hid & Hterm & Hl).
  destruct (state_of _ _ _ Hok Hj Ho) as (Hm & Ha & Hst).
  set (o1 := set_attempt (jr_Attempt j + 1) o) in *.
  assert (Hend : let p := walked o1 path now (events d) in
    op_ID p.1 = op_ID o ∧ op_StorageCredentialID p.1 = op_StorageCredentialID o ∧ op_FinishedAt p.1 = op_FinishedAt o ∧
    op_Status p.1 = "RUNNING" ∧ linked 0 "" (events_for (op_ID o) p.2) "RUNNING" ∧ ∀ id, id ≠ op_ID o → events_for id p.2 = events_for id (events d)).
  { destruct Hpath as [[Hq ->]|[Hr ->]].
    - apply (walked_starting o1); [done|]. rewrite <- Hq. cbn. by rewrite Hid.
    - cbn. split_and!; try done. rewrite Hid, <- Hr. done. }
  cbv zeta in Hend. destruct Hend as (E1 & E2 & E3 & E4 & E5 & E6).
  assert (Hf : op_FinishedAt o = None) by (apply Hterm; destruct Hpath as [[-> _]|[-> _]]; by vm_compute).
  eapply (update_ok d d' j (claimed owner (now + 30 * second) now j) o (walked o1 path now (events d)).1);
    rewrite ?Hev; try done.
  - rewrite E3, E4, Hf. by vm_compute.
  - split_and!; [done|cbn; lia|cbn; lia|]. right. left. cbn. split_and!; [done|done|lia|done].
  - by rewrite E4.
Qed.

Lemma step_jobs_ok d d' : job_step d d' → jobs_ok d → jobs_ok d'.
Proof.
  intros Hs Hok. destruct Hs as [Hc|a Hkr Ho He Hj Ha Hf Hag Hh Hr|o j now ? ? ? ? ? ? ? ? ? ? ? ? Hex|j o path owner now t|j owner t Har Hj Hl Hh Ho He Hjs|id o r Har Ho Hops He Hj|j o to code now status last at_ Har Hj Ho Hv Ht Hst Hops He Hjs].
  - by eapply calm_ok.
  - eapply admit_ok; try done. apply Hr, jk_keys, Hok.
  - eapply queue_ok; try done. intros Hg. apply Hex; [done|apply Hok..].
  - by eapply claim_ok.
  - destruct (jk_job _ Hok _ _ Hj) as (_ & o & Hop & Hm & Ha & Hs). destruct (jk_operation _ Hok _ _ Hop) as (Hid & Hterm & Hlk).
    eapply (update_ok d d' j (renewed t j) o o); rewrite ?He; try done; [by rewrite Hid|]. by rewrite Ho, insert_id.
  - destruct (jk_served _ Hok _ _ Ho) as (i & j & Hji & Hjo). destruct (jk_job _ Hok _ _ Hji) as (Hi & o' & Ho' & Hst).
    destruct (jk_operation _ Hok _ _ Ho) as (Hid & Hterm & Hlk). subst i. assert (o' = o) as -> by congruence.
    eapply (update_ok d d' j j o (set_secret_revision r o)); rewrite ?He; try done; try (by rewrite ?Hjo, ?Hid).
    by rewrite Hj, insert_id.
  - destruct (jk_operation _ Hok _ _ Ho) as (Hid & Hterm & Hlk). destruct (state_of _ _ _ Hok Hj Ho) as (Hm & Ha & Hs).
    eapply (update_ok d d' j (finished_job status last at_ j) o (moved_to to now (with_code code o))); rewrite ?He; try done.
    + cbn. by rewrite Ht.
    + cbn. by rewrite Ht.
    + split_and!; [done|cbn; lia|cbn; lia|]. right. right. done.
    + cbn. apply (linked_event o to now); [by rewrite Hid|done].
    + intros id Hne. by rewrite event_elsewhere.
Qed.

Lemma works_ok d d' : works d d' → jobs_ok d → jobs_ok d'.
Proof. induction 1 as [d|d1 d2 d3 Hs _ IH]; [done|]. intros Hok. apply IH. by eapply step_jobs_ok. Qed.
