(* ===== verification/JobRefine.v ===== *)
(** * JobRefine: the transactions on jobs implement the specification

    Every transaction of CentralJobs reaches, by COMMIT, only databases that
    [works] relates to the one it started from. *)

From S2P Require Import Prelude GoStd Uuid Platform Domain GatewaySession GatewayAuth AuditChain PendingRecord CentralTx CentralStore.
From S2P Require Import StorageSecret CentralTrace CentralRefine CentralFrame CentralJobs JobSpec.
Import Domain.Operation (ValidateOperationTransition, OperationTerminal).
Open Scope Z_scope.
Open Scope go_scope.
Open Scope central_scope.

(** ** Parts of a transaction before its commit *)

(** [m] commits nothing, and what it returns satisfies [Q]. *)
Definition yields {A} (m : Tx A) (w : CentralDb) (Q : A → CentralDb → Prop) : Prop :=
  ∀ c, wp m (λ r w' c', c' = c ∧ ∀ a, r = Ok a → Q a w') w c.

Section Yields.
Context {A B : Type}.

Lemma yields_mono (m : Tx A) w (P Q : A → CentralDb → Prop) : yields m w P → (∀ a w', P a w' → Q a w') → yields m w Q.
Proof. intros Hm HPQ c. eapply wp_mono; [|apply Hm]. intros r w' c' [Hc Hr]. eauto. Qed.

Lemma yields_bind (m : Tx A) (k : A → Tx B) w Q : yields m w (λ a w', yields (k a) w' Q) → yields (tbind m k) w Q.
Proof.
  intros Hm c. apply wp_bind. eapply wp_mono; [|apply Hm]. intros [a|x] w' c' [-> Hr]; [by apply Hr|by split].
Qed.

Lemma yields_ret (a : A) w Q : Q a w → yields (tret a) w Q.
Proof. intros H c. apply wp_ret. split; [done|]. by intros ? [= <-]. Qed.

Lemma yields_fail x w (Q : A → CentralDb → Prop) : yields (tfail x) w Q.
Proof. intros c. by apply wp_fail. Qed.

Lemma yields_stmt (f : time → CentralDb → option (A * CentralDb)) w Q : (∀ t a w', f t w = Some (a, w') → Q a w') → yields (stmt f) w Q.
Proof. intros H c. apply wp_stmt; [done|]. intros t a w' Hf. split; [done|]. intros ? [= <-]. by eapply H. Qed.

Lemma yields_select (f : time → CentralDb → A) w Q : (∀ t, Q (f t w) w) → yields (select f) w Q.
Proof. intros H c. apply wp_select; [done|]. intros t. split; [done|]. by intros ? [= <-]. Qed.

Lemma yields_select_row (f : time → CentralDb → option A) w Q : (∀ t a, f t w = Some a → Q a w) → yields (select_row f) w Q.
Proof. intros H c. apply wp_select_row; [done|]. intros t a Ha. split; [done|]. intros ? [= <-]. by eapply H. Qed.

(** A result that is inspected comes from a part that changes nothing. *)
Lemma yields_attempt (m : Tx A) w Q : (∀ c, wp m (λ r w' c', c' = c ∧ w' = w) w c) → (∀ r, Q r w) → yields (tattempt m) w Q.
Proof. intros Hm HQ c. apply wp_attempt. eapply wp_mono; [|apply Hm]. intros r w' c' [-> ->]. split; [done|]. intros ? [= <-]. apply HQ. Qed.
End Yields.

Lemma yields_exec f w (Q : () → CentralDb → Prop) : (∀ t w', f t w = Some w' → Q () w') → yields (exec f) w Q.
Proof. intros H c. apply wp_exec; [done|]. intros t w' Hf. split; [done|]. intros [] _. by eapply H. Qed.

Lemma yields_exec_unique x clash f w (Q : () → CentralDb → Prop) :
  (∀ t w', clash w = false → f t w = Some w' → Q () w') → yields (exec_unique x clash f) w Q.
Proof. intros H c. apply wp_exec_unique; [done|]. intros t w' Hc Hf. split; [done|]. intros [] _. by eapply H. Qed.

Lemma yields_newV7 w (Q : uuid → CentralDb → Prop) : (∀ id, Q id w) → yields newV7 w Q.
Proof. intros H c. apply wp_newV7; [done|]. intros id. split; [done|]. by intros ? [= <-]. Qed.

Lemma yields_audit `{U : UuidPkg} `{P : Platform} `{C : AuditCodec} event w (Q : () → CentralDb → Prop) :
  (∀ table, Q () (set_audit table w)) → yields (append_audit event) w Q.
Proof.
  intros H c e ab n. unfold append_audit. cbn. destruct (appendAudit _ _ _ _) as [[] table]; cbn; (split; [done|]); [|done]. intros [] _. apply H.
Qed.

(** A transaction: what precedes its commit, and the commit. *)
Lemma wp_yields {A} (m : Tx A) (Q : A → CentralDb → Prop) (R : result dberr A → CentralDb → CentralDb → Prop) w c :
  yields m w Q → (∀ x w', R (Err x) w' c) → (∀ a w', Q a w' → R (Ok a) w' c) → wp m R w c.
Proof. intros Hm He Hok. eapply wp_mono; [|apply Hm]. intros [a|x] w' c' [-> Hr]; [by apply Hok, Hr|apply He]. Qed.

Lemma wp_commit_ret {A} (a : A) (Q : CentralDb → Prop) w c :
  Q c → Q w → wp (let* _ := commit in tret a) (λ _ _ c', Q c') w c.
Proof. intros Hc Hw. apply wp_bind, wp_commit; [done..|by apply wp_ret]. Qed.

(** ** Parts that keep to the surroundings *)

Ltac yield_head :=
  lazymatch goal with
  | |- yields (tbind _ _) _ _ => apply yields_bind
  | |- yields (tret _) _ _ => apply yields_ret
  | |- yields (tfail _) _ _ => apply yields_fail
  | |- yields (select _) _ _ => apply yields_select; intros ?
  | |- yields clock_timestamp _ _ => apply yields_select; intros ?
  | |- yields (select_row _) _ _ => apply yields_select_row; intros ? ? ?
  | |- yields newV7 _ _ => apply yields_newV7; intros ?
  | |- yields (append_audit _) _ _ => apply yields_audit; intros ?
  | |- yields (if ?b then _ else _) _ _ => destruct b eqn:?
  | |- yields (match ?x with _ => _ end) _ _ => destruct x eqn:?
  end; cbn beta iota.
Ltac yield := repeat yield_head.

(** [m] leaves operations and jobs alone. *)
Definition calmly {A} (m : Tx A) : Prop := ∀ w, yields m w (λ _ w', calm w w').

Lemma calmly_bind {A B} (m : Tx A) (k : A → Tx B) : calmly m → (∀ a, calmly (k a)) → calmly (tbind m k).
Proof.
  intros Hm Hk w. apply yields_bind. eapply yields_mono; [apply Hm|]. intros a w1 H1. eapply yields_mono; [apply Hk|].
  intros b w2 H2. cbn in H1, H2. by transitivity w1.
Qed.

(** The next part of a transaction so far calm. *)
Lemma yields_calm {A B} (m : Tx A) (k : A → Tx B) w Q : calmly m → (∀ a w', calm w w' → yields (k a) w' Q) → yields (tbind m k) w Q.
Proof. intros Hm Hk. apply yields_bind. eapply yields_mono; [apply Hm|]. cbn. auto. Qed.

Lemma calm_around d d' : around d d' → operations d' = operations d → events d' = events d → jobs d' = jobs d → calm d d'.
Proof. by split. Qed.

Lemma around_keyed d d' : cd_admissions d' = cd_admissions d → fl_agents (cd_fleet d') = fl_agents (cd_fleet d) →
  fl_hosts (cd_fleet d') = fl_hosts (cd_fleet d) → fl_repositories (cd_fleet d') = fl_repositories (cd_fleet d) →
  credentials_keyed d d' → around d d'.
Proof.
  intros Ha Hg Hh Hr Hk. split; [intros id a; rewrite Ha; eauto|]. split; rewrite ?Hg, ?Hh, ?Hr; auto.
  intros [Kr Kc]. split; [by rewrite Hr|by apply Hk].
Qed.

Lemma around_fleet d d' : cd_storage d' = cd_storage d → cd_admissions d' = cd_admissions d →
  fl_agents (cd_fleet d') = fl_agents (cd_fleet d) → fl_hosts (cd_fleet d') = fl_hosts (cd_fleet d) →
  fl_repositories (cd_fleet d') = fl_repositories (cd_fleet d) → around d d'.
Proof. intros Hs Ha Hg Hh Hr. by apply around_keyed, credentials_keyed_same. Qed.

Lemma around_repository d id r r' :
  fl_repositories (cd_fleet d) !! id = Some r → rp_ID r' = rp_ID r → around d (set_repositories (<[id := r']> (fl_repositories (cd_fleet d))) d).
Proof.
  intros Hr Hid. split; [intros j a; cbn; eauto|]. split; cbn; [done|done| |].
  - intros j Hj. destruct (decide (j = id)) as [->|Hne]; [by rewrite lookup_insert_eq|by rewrite lookup_insert_ne].
  - intros [Hk Hc]. split; [|done]. intros j x. cbn. intros [[<- <-]|[_ Hx]]%lookup_insert_Some; [rewrite Hid|]; by apply Hk.
Qed.

Ltac calm_row := apply calm_around; [by apply around_fleet|done..].

Create HintDb calm.
Ltac calmly_head :=
  lazymatch goal with
  | |- calmly (tbind _ _) => apply calmly_bind; [|intros ?]
  | |- calmly (if ?b then _ else _) => destruct b
  | |- calmly (match ?x with _ => _ end) => destruct x
  | |- calmly (tret _) => intros ?; apply yields_ret; reflexivity
  | |- calmly (tfail _) => intros ?; apply yields_fail
  | |- calmly (select _) => intros ?; apply yields_select; intros ?; reflexivity
  | |- calmly clock_timestamp => intros ?; apply yields_select; intros ?; reflexivity
  | |- calmly (select_row _) => intros ?; apply yields_select_row; intros ? ? ?; reflexivity
  | |- calmly newV7 => intros ?; apply yields_newV7; intros ?; reflexivity
  | |- calmly (append_audit _) => intros ?; apply yields_audit; intros ?; calm_row
  | |- calmly (exec _) => first [solve [auto with calm]|intros ?; apply yields_exec; intros ? ? ?]
  | |- calmly (stmt _) => first [solve [auto with calm]|intros ?; apply yields_stmt; intros ? ? ? ?]
  | |- calmly _ => solve [auto with calm]
  end; cbn beta iota.
Ltac calmly := repeat calmly_head.

Section Jobs.
Context `{U : UuidPkg} `{P : Platform} `{C : AuditCodec}.

Lemma calmly_scanCredential id : calmly (scanCredential id).
Proof. unfold scanCredential. calmly. Qed.
Lemma calmly_noAdmission id : calmly (ensureNoBackupAdmission id).
Proof. unfold ensureNoBackupAdmission. calmly. Qed.
Lemma calmly_provision j : calmly (ensureProvisionLease j).
Proof. unfold ensureProvisionLease. calmly. Qed.
Lemma calmly_lease id owner : calmly (ensureCredentialLease id owner).
Proof. unfold ensureCredentialLease. calmly. Qed.
Lemma calmly_jobAudit o action reason now : calmly (credentialJobAudit o action reason now).
Proof. unfold credentialJobAudit. calmly. Qed.
Lemma calmly_readBinding repo operation hash : calmly (gatewayReadBinding repo operation hash).
Proof. unfold gatewayReadBinding. calmly. Qed.
#[local] Hint Resolve calmly_scanCredential calmly_noAdmission calmly_provision calmly_lease calmly_jobAudit calmly_readBinding : calm.

Lemma calmly_binding j : calmly (ensureReadJobBinding j).
Proof. unfold ensureReadJobBinding. calmly. Qed.
#[local] Hint Resolve calmly_binding : calm.

Lemma calmly_acquire j repo now : calmly (acquireProvisionLease j repo now).
Proof. unfold acquireProvisionLease. calmly. unfold acquire_row in *. open_row; calm_row || reflexivity. Qed.

Lemma calmly_expire repo operation : calmly (exec (expire_lease repo operation)).
Proof. calmly. unfold expire_lease in *. open_row; calm_row || reflexivity. Qed.

Lemma calmly_delete role repo operation : calmly (exec (λ _, delete_lease role repo operation)).
Proof. calmly. unfold delete_lease in *. open_row; calm_row || reflexivity. Qed.

Lemma calmly_credential id f : (∀ x, sc_ID (f x) = sc_ID x) → calmly (exec (λ _, alter_credential id f)).
Proof.
  intros Hf. calmly. unfold alter_credential in *. cbv zeta in *. open_row; [|reflexivity].
  apply calm_around; [|done..]. apply around_keyed; [done..|]. by eapply (credentials_keyed_insert _ _ id _ (f _)).
Qed.

Lemma calmly_initialize id resticID version now : calmly (stmt (λ _, initialize_row id resticID version now)).
Proof.
  calmly. unfold initialize_row in *. open_row; try reflexivity.
  apply calm_around; [|done..]. by eapply around_repository.
Qed.
End Jobs.

#[export] Hint Resolve calmly_scanCredential calmly_noAdmission calmly_provision calmly_lease calmly_jobAudit calmly_readBinding
  calmly_binding calmly_acquire calmly_expire calmly_delete calmly_credential calmly_initialize : calm.

(** ** Locks *)

Section Jobs.
Context `{U : UuidPkg} `{P : Platform} `{C : AuditCodec}.

(** What the locks of a job have read. *)
Record locked (operation : uuid) (read : option GatewayReadBinding) (j : CredentialJob) (w : CentralDb) : Prop := {
  lk_operation : operations w !! operation = Some (cj_Operation j);
  lk_credential : sg_credentials (cd_storage w) !! op_StorageCredentialID (cj_Operation j) = Some (cj_Credential j);
  lk_read : cj_GatewayRead j = read;
  lk_repository : ∀ r, cj_Repository j = Some r → rp_StorageCredentialID r = op_StorageCredentialID (cj_Operation j) }.

Lemma yields_lock_repository id w (Q : string * Repository → CentralDb → Prop) :
  (∀ status r, fl_repositories (cd_fleet w) !! id = Some r → Q (status, r) w) → yields (lock_repository id) w Q.
Proof. intros HQ. unfold lock_repository, scanRepository. yield. by apply HQ. Qed.

Lemma yields_lock_operation id operation owner expires payload read w (Q : CredentialJob → CentralDb → Prop) :
  (∀ j, cj_ID j = id → cj_Owner j = owner → locked operation read j w → Q j w) →
  yields (lock_operation id operation owner expires payload read) w Q.
Proof.
  intros HQ. unfold lock_operation, scanOperation, scanCredential. apply yields_bind, yields_bind, yields_select. intros _. destruct (operations w !! operation) as [o|] eqn:Ho; [|apply yields_fail].
  apply yields_ret, yields_bind.
  assert (Hrest : ∀ found : option (Repository * bool),
    (∀ r b, found = Some (r, b) → rp_StorageCredentialID r = op_StorageCredentialID o) →
    yields (let* c := scanCredential (op_StorageCredentialID o) in
      tret (mkCredentialJob id owner o c (fst <$> found) (match found with Some (_, b) => b | None => false end) expires payload read)) w Q).
  { intros found Hf. unfold scanCredential. yield. apply HQ; [done|done|]. split; cbn; [done|done|done|].
    intros r Hr. destruct found as [[r' b]|]; [|done]. injection Hr as <-. by eapply Hf. }
  destruct (op_RepositoryID o) as [repo|]; [|apply yields_ret, Hrest; done].
  apply yields_bind. destruct (snapshot_type (op_Type o)); unfold lockRepositoryForRead, lockProvisionRepository;
    apply yields_bind, yields_lock_repository; intros status r Hr; apply yields_ret; cbn beta iota;
    (destruct (_ != _) eqn:Hb; [apply yields_fail|]; bool_prop; apply yields_ret, Hrest; intros ? ? [= <- <-]; done).
Qed.

(** The job's row, under its lease. *)
Lemma yields_lockCredentialJob id owner w (Q : CredentialJob → CentralDb → Prop) :
  (∀ j row t, jobs w !! id = Some row → jr_Status row = "LEASED" → job_held owner t row = true →
     cj_ID j = id → cj_Owner j = owner → locked (jr_OperationID row) (jr_GatewayRead row) j w →
     (jr_GatewayRead row = None → fenced (sc_ID (cj_Credential j)) w = false) → Q j w) →
  yields (lockCredentialJob id owner) w Q.
Proof.
  intros HQ. unfold lockCredentialJob. apply yields_bind, yields_select. intros t.
  destruct (jobs w !! id) as [row|] eqn:Hrow; [|apply yields_fail].
  destruct ((jr_Status row == "LEASED") && job_held owner t row) eqn:Hheld; [|apply yields_fail]. bool_prop.
  apply yields_bind, yields_lock_operation. intros j Hid Hown Hl. rewrite (lk_read _ _ _ _ Hl).
  assert (Hend : (jr_GatewayRead row = None → fenced (sc_ID (cj_Credential j)) w = false) →
    yields (let* _ := ensureProvisionLease j in tret j) w Q).
  { intros Hf. assert (HQ' : Q j w) by (by eapply HQ). unfold ensureProvisionLease. yield; done. }
  destruct (jr_GatewayRead row) as [b|] eqn:Hread; cbn [is_none].
  - apply yields_bind, yields_ret. by apply Hend.
  - unfold ensureNoBackupAdmission. apply yields_bind, yields_bind, yields_select. intros t'.
    destruct (fenced _ w) eqn:Hf; [apply yields_fail|]. by apply yields_ret, Hend.
Qed.

(** ** Transitions *)

Lemma yields_event o from now w (Q : () → CentralDb → Prop) :
  (∀ w', cd_storage w' = cd_storage w → around w w' → operations w' = operations w → jobs w' = jobs w →
     events w' = events w ++ [mkOperationEvent (op_ID o) (next_sequence (op_ID o) (events w)) from (op_Status o) now] → Q () w') →
  yields (recordOperationEvent o from now) w Q.
Proof.
  intros HQ. unfold recordOperationEvent. apply yields_bind, yields_exec. intros _ w1 Hw1. unfold insert_event in Hw1.
  destruct (is_none _); [done|]. injection Hw1 as <-. apply yields_bind, yields_newV7. intros _. apply yields_exec. intros _ w2 [= <-].
  apply HQ; try done. by apply around_fleet.
Qed.

(** The operation at hand is its row, but for the code. *)
Definition at_hand (o : Operation) (w : CentralDb) : Prop := ∃ x code, operations w !! op_ID o = Some x ∧ o = with_code code x.

Lemma yields_transition o to now w (Q : Operation → CentralDb → Prop) :
  at_hand o w →
  (∀ w', ValidateOperationTransition (op_Status o) to = true → around w w' →
     operations w' = <[op_ID o := moved_to to now o]> (operations w) →
     events w' = events w ++ [event_of o to now (events w)] → jobs w' = jobs w → Q (moved_to to now o) w') →
  yields (transitionOperation o to now) w Q.
Proof.
  intros (x & code & Hx & Ho) HQ. unfold transitionOperation. destruct (negb _) eqn:Hv; [apply yields_fail|]. apply negb_false_iff in Hv.
  cbv zeta. apply yields_bind, yields_exec. intros _ w1 Hw1. unfold update_operation in Hw1. cbn [op_ID moved_to] in Hw1. rewrite Hx in Hw1.
  unfold save_operation in Hw1. destruct (operation_check _); [|done]. injection Hw1 as <-.
  assert (Hst : stored_operation (moved_to to now o) x = moved_to to now o) by (by rewrite Ho).
  assert (Hid : op_ID x = op_ID o) by (by rewrite Ho). rewrite Hst, Hid.
  apply yields_bind, yields_event. intros w2 _ Har Hops Hjobs Hev. apply yields_ret, HQ; [done| |by rewrite Hops|by rewrite Hev|by rewrite Hjobs].
  etrans; [|exact Har]. by apply around_fleet.
Qed.

(** ** Finishing *)

(** A job that is about to finish: its row and its operation's. *)
Definition finishing (j : CredentialJob) (w : CentralDb) : Prop :=
  ∃ row x code, jobs w !! cj_ID j = Some row ∧ jr_ID row = cj_ID j ∧ operations w !! jr_OperationID row = Some x ∧
    op_ID x = jr_OperationID row ∧ cj_Operation j = with_code code x.

(** The operation has moved, the job has not. *)
Record moved (j : CredentialJob) (to : string) (now : time) (w0 w : CentralDb) : Prop := {
  mv_valid : ValidateOperationTransition (op_Status (cj_Operation j)) to = true;
  mv_around : around w0 w;
  mv_operations : operations w = <[op_ID (cj_Operation j) := moved_to to now (cj_Operation j)]> (operations w0);
  mv_events : events w = events w0 ++ [event_of (cj_Operation j) to now (events w0)];
  mv_jobs : jobs w = jobs w0 }.

Lemma moved_calm j to now w0 w w' : moved j to now w0 w → calm w w' → moved j to now w0 w'.
Proof. intros [Hv Ha Ho He Hj] [Ca Co Ce Cj]. split; [done|by etrans|congruence..]. Qed.

Lemma finishing_at_hand j w : finishing j w → at_hand (cj_Operation j) w.
Proof. intros (row & x & code & _ & _ & Hx & Hid & Ho). exists x, code. split; [|done]. rewrite Ho. cbn. by rewrite Hid. Qed.

Lemma yields_moved j to now w0 w (Q : Operation → CentralDb → Prop) :
  finishing j w0 → calm w0 w → (∀ w', moved j to now w0 w' → Q (moved_to to now (cj_Operation j)) w') →
  yields (transitionOperation (cj_Operation j) to now) w Q.
Proof.
  intros Hf%finishing_at_hand [Ha Ho He Hj] HQ. apply yields_transition; [by unfold at_hand; rewrite Ho|].
  intros w' Hv Hw Hops Hev Hjobs. apply HQ. split; [done|by etrans|by rewrite Hops, Ho|by rewrite Hev, He|by rewrite Hjobs].
Qed.

Lemma yields_finishJobRow j o to now now' w0 w :
  finishing j w0 → moved j to now w0 w → OperationTerminal to = true →
  yields (finishJobRow (with_operation o j) to now') w (λ _ w', works w0 w').
Proof.
  intros (row & x & code & Hrow & Hid & Hx & Hxid & Ho) [Hv Ha Hops Hev Hjobs] Ht. unfold finishJobRow. cbv zeta. cbn [cj_ID with_operation].
  apply yields_bind, yields_stmt. intros t found w' Hw'. unfold finish_row in Hw'. rewrite Hjobs, Hrow in Hw'.
  destruct (_ || _) eqn:Hb; [|injection Hw' as <- <-; apply yields_fail]. injection Hw' as <- <-. apply yields_ret.
  match goal with |- context [finished_job ?status ?last ?at_ row] => set (st := status); eapply rtc_once, (js_finish w0 _ row x to code now st last at_) end; try done.
  - etrans; [exact Ha|]. by apply around_fleet.
  - by rewrite Hid.
  - by rewrite Ho in Hv.
  - unfold st. destruct (_ && _); set_solver.
  - cbn. rewrite Hops, Ho. cbn. by rewrite Hxid.
  - cbn. rewrite Hev, Ho. done.
  - cbn. by rewrite Hid.
Qed.

Lemma works_calm d w w' : works d w → calm w w' → works d w'.
Proof. intros Hw Hc. eapply rtc_r; [exact Hw|by apply js_calm]. Qed.

Variable role : db_role.

Lemma finishSnapshotReadJob_works j to now w0 w :
  finishing j w0 → calm w0 w → OperationTerminal to = true → yields (finishSnapshotReadJob role j to now) w (λ _ w', works w0 w').
Proof.
  intros Hf Hc Ht. unfold finishSnapshotReadJob. destruct (cj_Repository j) as [repo|] eqn:Hrepo; [|apply yields_fail].
  destruct (negb _); [apply yields_fail|]. apply yields_bind. apply (yields_moved j to now w0 w); [done|done|]. intros w1 H1. cbv zeta.
  apply yields_calm; [calmly|]. intros audit w2 H2. apply yields_calm; [calmly|]. intros [] w3 H3.
  apply yields_calm; [calmly|]. intros [] w4 H4.
  apply yields_bind. eapply yields_mono; [eapply (yields_finishJobRow j _ to now)|].
  - done.
  - do 3 (eapply moved_calm; [|eassumption]). exact H1.
  - done.
  - intros [] w5 H5. eapply yields_mono; [apply calmly_delete|]. intros [] w6 H6. by eapply works_calm.
Qed.

Lemma finishRepositoryJob_works j repo to now resticID version w0 w :
  finishing j w0 → calm w0 w → OperationTerminal to = true →
  yields (finishRepositoryJob j repo to now resticID version) w (λ _ w', works w0 w').
Proof.
  intros Hf Hc Ht. unfold finishRepositoryJob. apply yields_bind. apply (yields_moved j to now w0 w); [done|done|]. intros w1 H1. cbv zeta.
  apply yields_calm; [calmly|]. intros [] w2 H2. apply yields_calm; [calmly|]. intros audit w3 H3. apply yields_calm; [calmly|]. intros [] w4 H4.
  apply yields_calm; [calmly|]. intros [] w5 H5. apply yields_calm; [auto with calm|]. intros [] w6 H6.
  eapply (yields_finishJobRow j _ to now); [done| |done]. do 5 (eapply moved_calm; [|eassumption]). exact H1.
Qed.

Lemma finishCredentialJob_works j to now w0 w :
  finishing j w0 → calm w0 w → OperationTerminal to = true → yields (finishCredentialJob role j to now) w (λ _ w', works w0 w').
Proof.
  intros Hf Hc Ht. unfold finishCredentialJob. destruct (snapshot_type _); [by apply finishSnapshotReadJob_works|].
  destruct (cj_Repository j) as [repo|]; [by apply finishRepositoryJob_works|]. apply yields_bind.
  apply (yields_moved j to now w0 w); [done|done|]. intros w1 H1. cbv zeta.
  apply yields_calm; [calmly; auto with calm|]. intros [] w2 H2. apply yields_calm; [calmly|]. intros audit w3 H3.
  apply yields_calm; [calmly|]. intros [] w4 H4.
  eapply (yields_finishJobRow j _ to now); [done| |done]. do 3 (eapply moved_calm; [|eassumption]). exact H1.
Qed.
End Jobs.
