(* ===== verification/JobTrace.v ===== *)
(** * JobTrace: every transaction on jobs is a run of the specification

    [works d] holds of whatever the transactions of CentralJobs commit. *)

From S2P Require Import Prelude GoStd Uuid Platform Domain GatewaySession GatewayAuth AuditChain PendingRecord CentralTx CentralStore.
From S2P Require Import StorageSecret CentralTrace CentralRefine CentralFrame CentralJobs JobSpec JobRefine.
Import Domain.Operation (ValidateOperationTransition, OperationTerminal).
Open Scope Z_scope.
Open Scope go_scope.
Open Scope central_scope.

(** What is committed is a run of the specification from [d]. *)
Notation commits d m w := (wp m (λ _ _ c', works d c') w d).

Lemma commits_bind {A B} (m : Tx A) (k : A → Tx B) d w P :
  yields m w P → (∀ a w', P a w' → commits d (k a) w') → commits d (tbind m k) w.
Proof.
  intros Hm Hk. apply wp_bind. eapply wp_mono; [|apply Hm]. intros [a|x] w' c' [-> Hr]; [by apply Hk, Hr|apply rtc_refl].
Qed.

Lemma commits_calm {A B} (m : Tx A) (k : A → Tx B) d w0 w :
  calm w0 w → calmly m → (∀ a w', calm w0 w' → commits d (k a) w') → commits d (tbind m k) w.
Proof. intros Hw Hm Hk. eapply commits_bind; [apply Hm|]. intros a w' Hw'. apply Hk. by etrans. Qed.

Lemma commits_select {A B} (f : time → CentralDb → A) (k : A → Tx B) d w :
  (∀ t, commits d (k (f t w)) w) → commits d (tbind (select f) k) w.
Proof. intros H. apply wp_bind, wp_select; [apply rtc_refl|]. intros t. apply H. Qed.

Lemma commits_fail {A} x d w : commits d (tfail (A := A) x) w.
Proof. apply wp_fail, rtc_refl. Qed.

Lemma commits_commit d w : works d w → commits d commit w.
Proof. intros Hw. by apply wp_commit; [apply rtc_refl|..]. Qed.

Lemma commits_ret {A} (a : A) d w : works d w → commits d (let* _ := commit in tret a) w.
Proof. intros Hw. apply wp_bind, wp_commit; [apply rtc_refl|done|by apply wp_ret]. Qed.

Lemma commits_end {A} (m : Tx A) d w : yields m w (λ _ w', works d w') → commits d (let* _ := m in commit) w.
Proof. intros Hm. eapply commits_bind; [exact Hm|]. intros a w' Hw. by apply commits_commit. Qed.

Lemma commits_onward {A B} (m : Tx A) (k : A → Tx B) d w :
  works d w → calmly m → (∀ a w', works d w' → commits d (k a) w') → commits d (tbind m k) w.
Proof. intros Hw Hm Hk. eapply commits_bind; [apply Hm|]. intros a w' Hw'. apply Hk. by eapply works_calm. Qed.

(** A query for a row of a table that finds none. *)
Lemma no_row {K} `{Countable K} {X} (p : X → bool) (m : gmap K X) i x : existsb p (map_to_list m).*2 = false → m !! i = Some x → p x = false.
Proof.
  intros Hn Hx. rewrite existsb_false, Forall_forall in Hn. apply Hn, list_elem_of_fmap. exists (i, x).
  split; [done|]. by apply elem_of_map_to_list.
Qed.

Section Jobs.
Context `{U : UuidPkg} `{P : Platform} `{C : AuditCodec}.
Variable role : db_role.

Lemma finishing_locked d row j code :
  jobs_ok d → jobs d !! cj_ID j = Some row → locked (jr_OperationID row) (jr_GatewayRead row) j d →
  finishing (with_operation (with_code code (cj_Operation j)) j) d.
Proof.
  intros Hok Hrow Hl. exists row, (cj_Operation j), code. destruct (jk_job _ Hok _ _ Hrow) as (Hid & _).
  pose proof (lk_operation _ _ _ _ Hl) as Ho. destruct (jk_operation _ Hok _ _ Ho) as (Hoid & _). by split_and!.
Qed.

(** ** Completion *)

Lemma Complete_commits id owner code d : jobs_ok d → commits d (CompleteCredentialJob role id owner code) d.
Proof.
  intros Hok. unfold CompleteCredentialJob. destruct (negb _); [apply commits_fail|].
  eapply commits_bind; [apply (yields_lockCredentialJob _ _ _ (λ j w', w' = d ∧ ∃ row, jobs d !! cj_ID j = Some row ∧
    locked (jr_OperationID row) (jr_GatewayRead row) j d))|].
  { intros j row t Hrow _ _ Hid _ Hl _. split; [done|]. exists row. by rewrite Hid. }
  intros j w [-> (row & Hrow & Hl)]. apply commits_select. intros now. cbv zeta.
  eapply (commits_calm _ _ _ d); [reflexivity|calmly|]. intros [] w1 H1. apply commits_end.
  apply finishCredentialJob_works; [by eapply finishing_locked|done|].
  repeat match goal with |- context [if ?b then _ else _] => destruct b end; by vm_compute.
Qed.

Lemma CompleteRepository_commits id owner code resticID version d :
  jobs_ok d → commits d (CompleteRepositoryJob id owner code resticID version) d.
Proof.
  intros Hok. unfold CompleteRepositoryJob. destruct (_ || _); [apply commits_fail|].
  eapply commits_bind; [apply (yields_lockCredentialJob _ _ _ (λ j w', w' = d ∧ ∃ row, jobs d !! cj_ID j = Some row ∧
    locked (jr_OperationID row) (jr_GatewayRead row) j d))|].
  { intros j row t Hrow _ _ Hid _ Hl _. split; [done|]. exists row. by rewrite Hid. }
  intros j w [-> (row & Hrow & Hl)]. destruct (cj_Repository j) as [repo|]; [|apply commits_fail].
  apply commits_select. intros now. cbv zeta. apply commits_end.
  apply finishRepositoryJob_works; [by eapply finishing_locked|done|].
  repeat match goal with |- context [if ?b then _ else _] => destruct b end; by vm_compute.
Qed.

Lemma calmly_read_code j code : calmly (read_code j code).
Proof.
  unfold read_code. cbv zeta. apply calmly_bind || destruct (is_some (cj_GatewayRead j)); [|calmly].
  apply calmly_bind; [|intros [[]|x]; calmly]. intros w. apply yields_attempt; [|done].
  unfold ensureReadJobBinding, gatewayReadBinding, ensureNoBackupAdmission. intros c. wp_run; done.
Qed.

Lemma finish_read_commits j row code to now d w :
  jobs_ok d → jobs d !! cj_ID j = Some row → locked (jr_OperationID row) (jr_GatewayRead row) j d → calm d w →
  OperationTerminal to = true → commits d (finish_read role j code to now) w.
Proof.
  intros Hok Hrow Hl Hw Ht. unfold finish_read. cbv zeta.
  eapply commits_bind; [apply finishSnapshotReadJob_works; [by eapply finishing_locked|exact Hw|done]|].
  intros [] w1 H1. apply commits_end. apply (yields_mono _ _ (λ _, calm w1)); [|intros [] w2; by apply works_calm].
  destruct (_ && _); [apply calmly_binding|]. apply yields_ret. reflexivity.
Qed.

Lemma calmly_store_page `{ListCodec} j repo r now : calmly (store_page j repo r now).
Proof.
  unfold store_page. destruct (UnmarshalList _); [|calmly]. destruct (negb _); [calmly|].
  apply calmly_bind; [|intros []]; intros w; apply yields_exec; intros t w' Hw'.
  - injection Hw' as <-. calm_row.
  - unfold insert_page in Hw'. destruct (_ || _); [done|]. injection Hw' as <-. calm_row.
Qed.

Lemma calmly_store_index j repo entries now : calmly (store_index j repo entries now).
Proof.
  unfold store_index. destruct (_ <? _); [calmly|]. apply calmly_bind; [|intros []; intros w; apply yields_exec; intros t w' [= <-]; calm_row].
  induction entries as [|e entries IH]; cbn [index_entries]; [calmly|]. apply calmly_bind; [|intros []; exact IH].
  unfold index_entry. destruct (negb _); [calmly|]. apply calmly_bind; [calmly|]. intros plan w. apply yields_exec. intros t w' Hw'.
  unfold upsert_snapshot in Hw'. destruct (_ || _); [done|]. injection Hw' as <-. calm_row.
Qed.

Lemma FinishList_commits `{ListCodec} id owner code r d : jobs_ok d → commits d (FinishSnapshotListJob role id owner code r) d.
Proof.
  intros Hok. unfold FinishSnapshotListJob. destruct (negb _); [apply commits_fail|].
  eapply commits_bind; [apply (yields_lockCredentialJob _ _ _ (λ j w', w' = d ∧ ∃ row, jobs d !! cj_ID j = Some row ∧
    locked (jr_OperationID row) (jr_GatewayRead row) j d))|].
  { intros j row t Hrow _ _ Hid _ Hl _. split; [done|]. exists row. by rewrite Hid. }
  intros j w [-> (row & Hrow & Hl)]. destruct (cj_Repository j) as [repo|]; [|apply commits_fail].
  destruct (_ != _); [apply commits_fail|]. apply commits_select. intros now.
  eapply (commits_calm _ _ _ d); [reflexivity|apply calmly_read_code|]. intros code' w1 H1.
  eapply commits_calm; [exact H1|destruct (_ == _); [apply calmly_store_page|calmly]|]. intros [] w2 H2. cbv zeta.
  eapply finish_read_commits; [done|exact Hrow|done|exact H2|].
  repeat match goal with |- context [if ?b then _ else _] => destruct b end; by vm_compute.
Qed.

Lemma FinishIndex_commits id owner code entries d : jobs_ok d → commits d (FinishSnapshotIndexJob role id owner code entries) d.
Proof.
  intros Hok. unfold FinishSnapshotIndexJob. destruct (negb _); [apply commits_fail|].
  eapply commits_bind; [apply (yields_lockCredentialJob _ _ _ (λ j w', w' = d ∧ ∃ row, jobs d !! cj_ID j = Some row ∧
    locked (jr_OperationID row) (jr_GatewayRead row) j d))|].
  { intros j row t Hrow _ _ Hid _ Hl _. split; [done|]. exists row. by rewrite Hid. }
  intros j w [-> (row & Hrow & Hl)]. destruct (cj_Repository j) as [repo|]; [|apply commits_fail].
  destruct (_ != _); [apply commits_fail|]. apply commits_select. intros now.
  eapply (commits_calm _ _ _ d); [reflexivity|apply calmly_read_code|]. intros code' w1 H1.
  eapply commits_calm; [exact H1|destruct (_ == _); [apply calmly_store_index|calmly]|]. intros [] w2 H2. cbv zeta.
  eapply finish_read_commits; [done|exact Hrow|done|exact H2|].
  repeat match goal with |- context [if ?b then _ else _] => destruct b end; by vm_compute.
Qed.

(** ** Leases *)

Lemma calmly_renew_lease repository operation owner : calmly (stmt (renew_lease repository operation owner)).
Proof. calmly. unfold renew_lease in *. open_row; calm_row || reflexivity. Qed.

#[local] Hint Resolve calmly_renew_lease : calm.

Lemma Renew_commits id owner d : jobs_ok d → commits d (RenewCredentialJob id owner) d.
Proof.
  intros Hok. unfold RenewCredentialJob. eapply commits_bind; [apply (yields_lockCredentialJob _ _ _ (λ _ w, w = d)); done|].
  intros j w ->. eapply (commits_calm _ _ _ d); [reflexivity|destruct (is_some _); [apply calmly_binding|calmly]|]. intros [] w1 H1.
  eapply (commits_bind _ _ _ _ (λ _ w, works d w)).
  - apply yields_stmt. intros t row w2 Hw2. unfold renew_row in Hw2. destruct (jobs w1 !! id) as [x|] eqn:Hx.
    + destruct (_ && _) eqn:Hh; [|injection Hw2 as _ <-; by apply rtc_once, js_calm]. bool_prop. injection Hw2 as _ <-.
      eapply rtc_l; [by apply js_calm|]. rewrite (ca_jobs _ _ H1) in Hx. destruct (jk_job _ Hok _ _ Hx) as (<- & _).
      eapply rtc_once, (js_renew _ _ x owner t); try done; [by apply around_fleet|]. by rewrite (ca_jobs _ _ H1).
    + injection Hw2 as _ <-. by apply rtc_once, js_calm.
  - intros [operation|] w2 H2; [|apply commits_fail]. eapply commits_onward; [exact H2|calmly|]. intros repository w3 H3.
    eapply commits_onward; [exact H3|calmly|]. intros [] w4. apply commits_commit.
Qed.

Lemma calmly_storage f : (∀ g g', f g = Some g' → sg_credentials g' = sg_credentials g) →
  calmly (exec (λ _ d, (λ g, set_storage g d) <$> f (cd_storage d))).
Proof.
  intros Hf w. apply yields_exec. intros t w' Hw. destruct (f _) as [g|] eqn:Hg; [|done]. injection Hw as <-.
  apply calm_around; [|done..]. apply around_keyed; [done..|]. intros Hk. cbn. by rewrite (Hf _ _ Hg).
Qed.

Lemma Refresh_commits id owner expected e d : jobs_ok d → commits d (RefreshCredentialJob id owner expected e) d.
Proof.
  intros Hok. unfold RefreshCredentialJob. eapply commits_bind; [apply (yields_lockCredentialJob _ _ _ (λ j w, w = d ∧
    ∃ id, locked id (cj_GatewayRead j) j d))|].
  { intros j row t _ _ _ _ _ Hl _. split; [done|]. exists (jr_OperationID row). by rewrite (lk_read _ _ _ _ Hl). }
  intros j w [-> [operation Hl]]. destruct (is_some _); [apply commits_fail|]. destruct (_ || _); [apply commits_fail|].
  apply commits_select. intros now. cbv zeta.
  eapply (commits_calm _ _ _ d); [reflexivity|apply calmly_storage; intros g g'; apply insertSecret_credentials|]. intros [] w1 H1.
  eapply commits_calm; [exact H1|apply calmly_storage; intros g g'; apply insert_revision_credentials|]. intros [] w2 H2.
  eapply commits_calm; [exact H2|by apply calmly_credential|]. intros [] w3 H3. eapply commits_calm; [exact H3|calmly|]. intros x w4 H4.
  eapply (commits_bind _ _ _ _ (λ _, works d)).
  - apply yields_exec. intros t w5 Hw5. unfold alter_operation in Hw5. rewrite (ca_operations _ _ H4) in Hw5.
    pose proof (lk_operation _ _ _ _ Hl) as Ho. destruct (jk_operation _ Hok _ _ Ho) as (Hid & _). rewrite Hid, Ho in Hw5.
    unfold save_operation in Hw5. destruct (operation_check _); [|done]. injection Hw5 as <-. cbn [op_ID set_secret_revision]. rewrite Hid.
    eapply rtc_l; [by apply js_calm|]. eapply rtc_once, (js_secret _ _ operation (cj_Operation j)); try done.
    + by apply around_fleet.
    + by rewrite (ca_operations _ _ H4).
  - intros [] w5 H5. do 4 (eapply commits_onward; [eassumption|calmly|]; intros ? ? ?). by apply commits_ret.
Qed.

(** ** Claims *)

Lemma first_job_in l j : first_job l = Some j → j ∈ l.
Proof using Type.
  induction l as [|x l IH]; [done|]. cbn. fold (first_job l). destruct (first_job l) as [b|]; [destruct (job_before b x)|]; intros [= <-];
    [right; by apply IH|by left|by left].
Qed.

Lemma next_job_in t d row : next_job t d = Some row → claimable t row = true ∧ ∃ id, jobs d !! id = Some row.
Proof using Type.
  unfold next_job. intros Hj%first_job_in. apply list_elem_of_In, filter_In in Hj as [Hin%list_elem_of_In Hc]. split; [done|].
  apply list_elem_of_fmap in Hin as ([id x] & -> & Hx%elem_of_map_to_list). by exists id.
Qed.

Lemma calmly_bound j : calmly (tattempt (ensureReadJobBinding j)).
Proof using Type.
  intros w. apply yields_attempt; [|done]. unfold ensureReadJobBinding, gatewayReadBinding, ensureNoBackupAdmission. intros c. wp_run; done.
Qed.

(** Transitions in a row. *)
Lemma yields_transitions path o now w (Q : Operation → CentralDb → Prop) :
  operations w !! op_ID o = Some o →
  (∀ w', around w w' → operations w' = <[op_ID o := (walked o path now (events w)).1]> (operations w) →
     events w' = (walked o path now (events w)).2 → jobs w' = jobs w → Q (walked o path now (events w)).1 w') →
  yields (transitions o path now) w Q.
Proof using Type.
  revert o w Q. induction path as [|to path IH]; intros o w Q Ho HQ; cbn [transitions walked fst snd] in *.
  - apply yields_ret, HQ; try done. by rewrite insert_id.
  - apply yields_bind, yields_transition; [exists o, (op_ErrorCode o); by destruct o|]. intros w1 _ Har Hops Hev Hjobs.
    apply IH; [cbn; by rewrite Hops, lookup_insert_eq|]. intros w2 Har2 Hops2 Hev2 Hjobs2. rewrite Hev in *. cbn [op_ID moved_to] in Hops2.
    apply HQ; [by etrans|by rewrite Hops2, Hops, insert_insert_eq|done|by rewrite Hjobs2].
Qed.

Lemma retire_commits j code finish d w :
  yields (finish (with_operation (with_code code (cj_Operation j)) j)) w (λ _ w', works d w') → commits d (retire j code finish) w.
Proof using Type.
  intros Hf. unfold retire. eapply commits_bind; [exact Hf|]. intros [] w1 H1. apply wp_bind, wp_commit; [apply rtc_refl|exact H1|by apply wp_fail].
Qed.

Lemma claim_commits j row t owner now d w :
  jobs_ok d → jobs d !! cj_ID j = Some row → claimable t row = true → jr_Attempt row < jr_MaxAttempts row →
  locked (jr_OperationID row) (jr_GatewayRead row) j d → calm d w → commits d (claim j (jr_Attempt row) owner now) w.
Proof using Type.
  intros Hok Hrow Hcl Hat Hl Hw. pose proof (lk_operation _ _ _ _ Hl) as Ho. destruct (jk_operation _ Hok _ _ Ho) as (Hid & _).
  destruct (jk_job _ Hok _ _ Hrow) as (Hji & _). unfold claim. cbv zeta. cbn [cj_Repository cj_Operation cj_ID cj_GatewayRead with_owner with_operation].
  eapply commits_calm; [exact Hw|calmly|]. intros [] w1 H1. rewrite Hid.
  set (o := set_attempt (jr_Attempt row + 1) (cj_Operation j)). set (row' := claimed owner (now + 30 * second) now row).
  assert (Hstart : ∀ path w2, op_Status o = "QUEUED" ∧ path = starting ∨ op_Status o = "RUNNING" ∧ path = [] → calm d w2 → ∀ w', around w2 w' →
    operations w' = <[op_ID o := (walked o path now (events w2)).1]> (operations w2) → events w' = (walked o path now (events w2)).2 →
    jobs w' = <[cj_ID j := row']> (jobs w2) → works d w').
  { intros path w2 Hp H2 w' Har Hops Hev Hj. eapply rtc_l; [by apply js_calm|].
    eapply rtc_once, (js_claim _ _ row (cj_Operation j) path owner now t); try done.
    - by rewrite (ca_jobs _ _ H2), Hji.
    - by rewrite (ca_operations _ _ H2).
    - rewrite Hops. cbn [op_ID set_attempt o]. by rewrite Hid.
    - by rewrite Hj, Hji. }
  eapply (commits_bind _ _ _ _ (λ _ w2, around w1 w2 ∧ operations w2 = operations w1 ∧ events w2 = events w1 ∧ jobs w2 = <[cj_ID j := row']> (jobs w1))).
  { apply yields_exec. intros t2 w2 Hw2. unfold alter_job in Hw2. rewrite (ca_jobs _ _ H1), Hrow in Hw2. injection Hw2 as <-.
    split_and!; try done; [by apply around_fleet|]. cbn. by rewrite (ca_jobs _ _ H1). }
  intros [] w2 (Har2 & Hops2 & Hev2 & Hj2).
  eapply (commits_bind _ _ _ _ (λ _ w3, around w1 w3 ∧ operations w3 = <[op_ID o := o]> (operations w1) ∧ events w3 = events w1 ∧ jobs w3 = jobs w2)).
  { apply yields_exec. intros t3 w3 Hw3. unfold alter_operation in Hw3. rewrite Hops2, (ca_operations _ _ H1), Ho in Hw3.
    unfold save_operation in Hw3. destruct (operation_check _); [|done]. injection Hw3 as <-.
    split_and!; try done; [etrans; [exact Har2|by apply around_fleet]|]. cbn [operations set_operations cd_fleet fl_operations]. by rewrite <- Hops2. }
  intros [] w3 (Har3 & Hops3 & Hev3 & Hj3).
  eapply (commits_bind _ _ _ _ (λ _ w4, works d w4)).
  { destruct (op_Status o == "QUEUED") eqn:Hq.
    - bool_prop. apply yields_transitions; [by rewrite Hops3, lookup_insert_eq|]. intros w4 Har4 Hops4 Hev4 Hj4.
      eapply (Hstart starting w1); [by left|done|by etrans| | |by rewrite Hj4, Hj3].
      + by rewrite Hops4, Hev3, Hops3, insert_insert_eq.
      + by rewrite Hev4, Hev3.
    - destruct (_ != "RUNNING") eqn:Hr; [apply yields_fail|]. bool_prop. apply yields_ret.
      eapply (Hstart [] w1); [by right|done|done|done|done|by rewrite Hj3]. }
  intros o4 w4 H4.
  do 5 (eapply commits_onward; [eassumption|calmly|]; intros ? ? ?). by apply commits_ret.
Qed.

Lemma Claim_commits owner d : jobs_ok d → commits d (ClaimCredentialJob role owner) d.
Proof using Type.
  intros Hok. unfold ClaimCredentialJob. destruct (_ == _); [apply commits_fail|]. apply commits_select. intros t.
  destruct (next_job t d) as [row|] eqn:Hn; [|apply commits_fail]. apply next_job_in in Hn as [Hcl [id Hrow]].
  destruct (jk_job _ Hok _ _ Hrow) as (<- & _).
  eapply commits_bind; [apply (yields_lock_operation _ _ _ _ _ _ _ (λ j w, w = d ∧ cj_ID j = jr_ID row ∧ locked (jr_OperationID row) (jr_GatewayRead row) j d)); by intros|].
  intros j w (-> & Hid & Hl). rewrite <- Hid in Hrow. pose proof (λ code, finishing_locked d row j code Hok Hrow Hl) as Hf.
  apply commits_select. intros now. eapply (commits_calm _ _ _ d); [reflexivity|apply calmly_bound|]. intros [[]|x] w1 H1.
  - destruct (_ <=? _) eqn:Hat; bool_prop; [|by eapply claim_commits].
    apply retire_commits, finishCredentialJob_works; [apply Hf|done|by vm_compute].
  - destruct (_ || _); [apply commits_fail|]. apply retire_commits, finishSnapshotReadJob_works; [apply Hf|done|].
    destruct (_ == _); by vm_compute.
Qed.

(** ** Queueing *)

(** An operation may be added beside those of [d]. *)
Record queueable (o : Operation) (d : CentralDb) : Prop := {
  qa_new : operations d !! op_ID o = None;
  qa_status : op_Status o = "QUEUED";
  qa_open : op_FinishedAt o = None;
  qa_single : ∀ id x, unfinished id x d → op_StorageCredentialID x ≠ op_StorageCredentialID o }.

(** The operation is there, its event is not yet. *)
Record queueing (o : Operation) (js : gmap uuid JobRow) (d w : CentralDb) : Prop := {
  qe_around : around d w;
  qe_operations : operations w = <[op_ID o := o]> (operations d);
  qe_events : events w = events d;
  qe_jobs : jobs w = js }.

Lemma queueing_calm o js d w w' : queueing o js d w → calm w w' → queueing o js d w'.
Proof using Type. intros [Ha Ho He Hj] [Ca Co Ce Cj]. split; [by etrans|congruence..]. Qed.

Lemma insert_operation_inv o d w :
  insert_operation o d = Some w → op_Status o = "QUEUED" → op_FinishedAt o = None → queueable o d ∧ queueing o (jobs d) d w.
Proof using Type.
  unfold insert_operation, operation_clash. intros Hw Hs Hf. destruct (_ || _) eqn:Hb; [done|]. bool_prop.
  unfold save_operation in Hw. destruct (operation_check o); [|done]. injection Hw as <-. split.
  - split; [by destruct (operations d !! op_ID o)|done|done|]. intros id x [Hx Hxf] Heq.
    match goal with H : unfinished_for (λ x, op_StorageCredentialID x == _) d = false |- _ => rename H into Hun end.
    unfold unfinished_for in Hun. pose proof (no_row _ _ _ _ Hun Hx) as Hp. cbn in Hp. by rewrite Heq, Hxf, bool_decide_true in Hp.
  - split; try done. by apply around_fleet.
Qed.

Lemma insert_job_inv j d w :
  insert_job j d = Some w →
  jobs d !! jr_ID j = None ∧ (∀ id x, jobs d !! id = Some x → jr_OperationID x ≠ jr_OperationID j) ∧ w = set_jobs (<[jr_ID j := j]> (jobs d)) d.
Proof using Type.
  unfold insert_job. destruct (_ || _) eqn:Hb; [done|]. bool_prop. intros [= <-].
  match goal with H : existsb _ _ = false |- _ => rename H into Hun end. split_and!; [by destruct (jobs d !! jr_ID j)| |done].
  intros id x Hx. pose proof (no_row _ _ _ _ Hun Hx) as Hp. cbn in Hp. by bool_prop.
Qed.

Lemma read_row_none repo hash t d :
  read_row repo hash t d = None → (∀ id a, unreleased id a d → rows_of a d) →
  ∀ id a, unreleased id a d → ba_StorageCredentialID a ≠ rp_StorageCredentialID repo.
Proof using Type.
  unfold read_row. intros Hn Hrows id a [Ha Hr] Heq. destruct (List.find _ _) as [x|] eqn:Hx; cbn in Hn.
  - apply find_some in Hx as [Hin Hb]. bool_prop. apply list_elem_of_In, list_elem_of_fmap in Hin as ([i y] & -> & Hy%elem_of_map_to_list).
    cbn in *. destruct (Hrows i y) as ([ag Hag] & [h Hh] & [r Hrp]); [split; [done|]; by destruct (ba_ReleasedAt y)|].
    by rewrite Hrp, Hag, Hh in Hn.
  - eapply find_none in Hx; [|apply list_elem_of_In, list_elem_of_fmap; exists (id, a); split; [reflexivity|by apply elem_of_map_to_list]].
    cbn in Hx. by rewrite Heq, Hr, bool_decide_true in Hx.
Qed.

Lemma yields_binding repo operation hash w :
  yields (gatewayReadBinding repo operation hash) w (λ read w', w' = w ∧
    (read = None → (∀ id a, unreleased id a w → rows_of a w) → ∀ id a, unreleased id a w → ba_StorageCredentialID a ≠ rp_StorageCredentialID repo)).
Proof using Type.
  unfold gatewayReadBinding. apply yields_bind, yields_select. intros t. destruct (read_row repo hash t w) as [[[[[id repository] runtime] h] valid]|] eqn:Hr.
  - yield; done.
  - apply yields_ret. split; [done|]. intros _. by eapply read_row_none.
Qed.

(** The job of an operation that is being queued. *)
Record ready (j : JobRow) (o : Operation) (d : CentralDb) : Prop := {
  rj_new : jobs d !! jr_ID j = None;
  rj_only : ∀ id x, jobs d !! id = Some x → jr_OperationID x ≠ op_ID o;
  rj_operation : jr_OperationID j = op_ID o;
  rj_fresh : jr_Status j = "READY" ∧ jr_Attempt j = 0 ∧ jr_MaxAttempts j = 3 ∧ jr_LeaseOwner j = None }.

Lemma yields_ready id o payload now read d w (Q : () → CentralDb → Prop) :
  let j := ready_job id o payload now read in
  queueing o (jobs d) d w → (∀ w', ready j o d → queueing o (<[id := j]> (jobs d)) d w' → Q () w') →
  yields (exec (λ _, insert_job j)) w Q.
Proof using Type.
  intros j [Ha Ho He Hj] HQ. apply yields_exec. intros _ w' Hw'. apply insert_job_inv in Hw' as (Hn & Hon & ->). rewrite Hj in *.
  apply HQ; [by split|]. split; [|done|done|done]. etrans; [exact Ha|by apply around_fleet].
Qed.

(** The fence that a queued job without a binding leaves behind. *)
Definition fenced_off (read : option GatewayReadBinding) (o : Operation) (d : CentralDb) : Prop :=
  read = None → keyed d → (∀ id a, unreleased id a d → rows_of a d) →
  ∀ id a, unreleased id a d → ba_StorageCredentialID a ≠ op_StorageCredentialID o.

Lemma yields_queued j o now d0 d w :
  works d0 d → queueable o d → ready j o d → fenced_off (jr_GatewayRead j) o d → queueing o (<[jr_ID j := j]> (jobs d)) d w →
  yields (recordOperationEvent o "" now) w (λ _ w', works d0 w').
Proof using Type.
  intros Hd [Hn Hs Hf Hun] [Jn Jo Jid (? & ? & ? & ?)] Hfence [Ha Ho He Hj]. apply yields_event. intros w' _ Har Hops Hjobs Hev.
  eapply rtc_r; [exact Hd|]. eapply (js_queue _ _ o j now); try done.
  - by etrans.
  - by rewrite Hops.
  - by rewrite Hev, He, Hs.
  - by rewrite Hjobs.
Qed.

Lemma yields_insert o credential d (Q : Operation → CentralDb → Prop) :
  (∀ o' w, queueable o' d → queueing o' (jobs d) d w → fenced_off None o' d → Q o' w) →
  yields (EnqueueStorageOperation_insert o credential) d Q.
Proof using Type.
  intros HQ. unfold EnqueueStorageOperation_insert, scanCredential, ensureNoBackupAdmission. yield. apply yields_exec. intros ? w Hw. yield.
  apply insert_operation_inv in Hw as [Hq Hw]; [|done..]. apply HQ; [done|done|]. intros _ _ _ id a. by apply fenced_spec.
Qed.

Lemma calmly_remember scope key request o : calmly (exec (λ _, remember scope key request o)).
Proof using Type. calmly. unfold remember in *. open_row. calm_row. Qed.

Lemma calmly_last_initialize id o : calmly (exec (λ _, last_initialize id o)).
Proof using Type.
  calmly. unfold last_initialize in *. open_row; [|reflexivity]. apply calm_around; [|done..]. by eapply around_repository.
Qed.
#[local] Hint Resolve calmly_remember calmly_last_initialize : calm.

Lemma calmly_lockRepository id : calmly (lockProvisionRepository id) ∧ calmly (lockRepositoryForRead id).
Proof using Type. unfold lockProvisionRepository, lockRepositoryForRead, lock_repository, scanRepository. split; calmly. Qed.

Lemma Enqueue_commits o scope key request audit d : commits d (EnqueueStorageOperation o scope key request audit) d.
Proof using Type.
  unfold EnqueueStorageOperation. destruct (_ || _); [apply commits_fail|]. apply commits_select. intros _. apply commits_select. intros t.
  destruct (remembered _ _ _ _) as [r|].
  - destruct (_ != _); [apply commits_fail|]. eapply (commits_calm _ _ _ d); [reflexivity|unfold scanOperation; calmly|]. intros x w1 H1.
    by apply commits_ret, rtc_once, js_calm.
  - eapply (commits_calm _ _ _ d); [reflexivity| |].
    { destruct (op_RepositoryID o); [|calmly]. apply calmly_bind; [apply calmly_lockRepository|]. intros [repo [x|]]; calmly. }
    intros credential w1 H1. eapply (commits_bind _ _ _ _ (λ o' w, queueable o' w1 ∧ queueing o' (jobs w1) w1 w ∧ fenced_off None o' w1));
      [by apply yields_insert; intros|]. intros o' w2 (Hq & H2 & Hfence).
    eapply commits_bind; [apply (yields_newV7 _ (λ _ w, w = w2)); done|]. intros job w ->.
    eapply commits_bind; [eapply (yields_ready _ _ _ _ _ w1 _ (λ _ w, ready (ready_job job o' "{}" (op_CreatedAt o') None) o' w1 ∧ _)); [exact H2|split; eassumption]|].
    cbn beta. intros [] w3 [Hr H3].
    eapply commits_bind; [apply calmly_remember|]. intros [] w4 H4. pose proof (queueing_calm _ _ _ _ _ H3 H4) as H3'.
    eapply commits_bind; [destruct (op_RepositoryID o'); [apply calmly_last_initialize|by apply calmly_credential]|]. intros [] w5 H5.
    eapply commits_bind; [by eapply (yields_queued _ o' _ d w1); [apply rtc_once, js_calm|..|eapply queueing_calm]|]. intros [] w6 H6.
    eapply commits_onward; [exact H6|calmly|]. intros [] w7. apply commits_ret.
Qed.

Lemma yields_lock_read id d (Q : Repository * option dberr → CentralDb → Prop) :
  (∀ p, Q p d) → yields (lockRepositoryForRead id) d Q.
Proof using Type. intros HQ. unfold lockRepositoryForRead, lock_repository, scanRepository. yield; apply HQ. Qed.

(** The credential of a snapshot's operation is that of its repository. *)
Lemma enqueue_snapshot_commits o id type source payload hash d : commits d (enqueue_snapshot o id type source payload hash) d.
Proof using Type.
  unfold enqueue_snapshot. eapply commits_bind; [apply (yields_lock_read _ _ (λ _ w, w = d)); done|]. intros [repo [x|]] w ->; [apply commits_fail|].
  destruct (_ || _); [apply commits_fail|]. apply commits_select. intros t1. destruct (unfinished_for _ _); [apply commits_fail|].
  apply commits_select. intros t2. destruct (leased _ _ _); [apply commits_fail|].
  eapply commits_bind; [apply (yields_bind _ _ _ (λ c w, w = d ∧ sg_credentials (cd_storage d) !! rp_StorageCredentialID repo = Some c)), yields_select;
    intros _; destruct (_ !! _) as [c|] eqn:Hc; [by apply yields_ret|apply yields_fail]|].
  intros c w [-> Hc]. destruct (_ == _); [apply commits_fail|]. eapply commits_bind; [apply yields_binding|]. intros read w [-> Hread].
  apply commits_select. intros now. cbv zeta. set (o' := queued o type source c now).
  eapply (commits_bind _ _ _ _ (λ _ w, queueable o' d ∧ queueing o' (jobs d) d w)).
  { apply yields_exec_unique. intros t3 w _ Hw. by apply insert_operation_inv in Hw. }
  intros [] w2 [Hq H2]. eapply commits_bind; [apply (yields_newV7 _ (λ _ w, w = w2)); done|]. intros job w ->.
  eapply commits_bind; [eapply (yields_ready _ _ _ _ _ d _ (λ _ w, ready (ready_job job o' payload now read) o' d ∧ _)); [exact H2|split; eassumption]|].
  cbn beta. intros [] w3 [Hr H3].
  eapply commits_bind; [eapply (yields_queued _ o' _ d d); [apply rtc_refl|done|exact Hr| |exact H3]|].
  { intros Hn [_ Hk] Hrows i a Ha. cbn. rewrite (Hk _ _ Hc). by eapply Hread. }
  intros [] w4. apply commits_ret.
Qed.

Lemma EnqueueIndex_commits o hash d : commits d (EnqueueSnapshotIndex o hash) d.
Proof using Type.
  unfold EnqueueSnapshotIndex. destruct (op_RepositoryID o), (op_RequestedByUserID o); try apply commits_fail.
  destruct (_ != _); [apply commits_fail|apply enqueue_snapshot_commits].
Qed.

Lemma EnqueueList_commits `{ListCodec} o snapshot path cursor hash d : commits d (EnqueueSnapshotList o snapshot path cursor hash) d.
Proof using Type.
  unfold EnqueueSnapshotList. destruct (op_RepositoryID o), (op_RequestedByUserID o); try apply commits_fail.
  destruct (_ || _); [apply commits_fail|]. destruct (MarshalList _ _ _); [apply enqueue_snapshot_commits|apply commits_fail].
Qed.

Lemma DeleteExpired_commits now d : commits d (DeleteExpiredSnapshotListResults now) d.
Proof using Type.
  eapply (commits_calm _ _ _ d); [reflexivity| |].
  - intros w. apply yields_stmt. intros t n w' [= _ <-]. calm_row.
  - intros n w Hw. by apply commits_ret, rtc_once, js_calm.
Qed.
End Jobs.
