(* ===== verification/JobHistory.v ===== *)
(** * JobHistory: histories of operations and jobs

    Every sequence of the Gateway's calls and the transactions on jobs, as a run
    of one state machine over the database, and its refinement of [works]. *)

From S2P Require Import Prelude GoStd Uuid Platform GatewaySession GatewayAuth AuditChain PendingRecord CentralTx CentralStore.
From S2P Require Import RcloneConfig StorageSecret CentralTrace CentralRefine CentralFrame CentralPlane CentralHistory CentralJobs JobSpec JobRefine JobTrace.
Open Scope Z_scope.
Open Scope go_scope.
Open Scope central_scope.

Section History.
Context `{U : UuidPkg} `{P : Platform} `{E : Ed25519} `{C : AuditCodec} `{S : StatementCodec} `{N : PendingCodec}.
Context `{AE : AEAD} `{T : TokenCodec} `{W : NetPkg} `{LC : ListCodec}.
Variable c : Plane.
Variable role : db_role.

Inductive job_event :=
| OnGateway (x : central_event)
| EnqueueStorage (e : TxEnv) (o : Operation) (scope key request : string) (audit : AuditEvent)
| EnqueueIndex (e : TxEnv) (o : Operation) (hash : string)
| EnqueueList (e : TxEnv) (o : Operation) (snapshot path cursor hash : string)
| Claim (e : TxEnv) (owner : uuid)
| Renew (e : TxEnv) (id owner : uuid)
| RefreshJob (e : TxEnv) (id owner : uuid) (expected : Z) (secret : SecretEnvelope)
| CompleteTest (e : TxEnv) (id owner : uuid) (code : string)
| CompleteInitialize (e : TxEnv) (id owner : uuid) (code resticID : string) (version : Z)
| FinishList (e : TxEnv) (id owner : uuid) (code : string) (r : SnapshotListResult)
| FinishIndex (e : TxEnv) (id owner : uuid) (code : string) (entries : list IndexedSnapshot)
| DropPages (e : TxEnv) (now : time).

Definition job_apply (x : job_event) (d : CentralDb) : CentralDb :=
  match x with
  | OnGateway x => central_apply c x d
  | EnqueueStorage e o scope key request audit => (run_tx (EnqueueStorageOperation o scope key request audit) e d).2
  | EnqueueIndex e o hash => (run_tx (EnqueueSnapshotIndex o hash) e d).2
  | EnqueueList e o snapshot path cursor hash => (run_tx (EnqueueSnapshotList o snapshot path cursor hash) e d).2
  | Claim e owner => (run_tx (ClaimCredentialJob role owner) e d).2
  | Renew e id owner => (run_tx (RenewCredentialJob id owner) e d).2
  | RefreshJob e id owner expected secret => (run_tx (RefreshCredentialJob id owner expected secret) e d).2
  | CompleteTest e id owner code => (run_tx (CompleteCredentialJob role id owner code) e d).2
  | CompleteInitialize e id owner code resticID version => (run_tx (CompleteRepositoryJob id owner code resticID version) e d).2
  | FinishList e id owner code r => (run_tx (FinishSnapshotListJob role id owner code r) e d).2
  | FinishIndex e id owner code entries => (run_tx (FinishSnapshotIndexJob role id owner code entries) e d).2
  | DropPages e now => (run_tx (DeleteExpiredSnapshotListResults now) e d).2
  end.

Definition job_run (xs : list job_event) (d : CentralDb) : CentralDb := foldl (λ d x, job_apply x d) d xs.

(** Other transactions leave the tables of operations and jobs alone, and rows
    that others refer to stay. *)
Definition job_allowed (x : job_event) (d : CentralDb) : Prop :=
  match x with
  | OnGateway (Elsewhere fleet storage audits) =>
      let d' := elsewhere fleet storage audits d in
      kept_rows d d' ∧ operations d' = operations d ∧ events d' = events d ∧ jobs d' = jobs d
  | _ => True
  end.

Fixpoint job_permitted (xs : list job_event) (d : CentralDb) : Prop :=
  match xs with [] => True | x :: xs => job_allowed x d ∧ job_permitted xs (job_apply x d) end.

(** A database before the first operation and the first Gateway. *)
Record no_operations (fleet : Fleet) (storage : Storage) : Prop := {
  no_operation : fl_operations fleet = ∅;
  no_event : fl_events fleet = [];
  no_job : fl_jobs fleet = ∅;
  no_keys : keyed (no_gateways fleet storage) }.

(** ** The Gateway's calls *)

Lemma calm_tx {A} (m : Tx A) e d : within settled m → calm d (run_tx m e d).2.
Proof using Type. intros Hm. eapply (within_run calm), within_mono, Hm. apply calm_settled. Qed.

Lemma calm_call {A B} (m : Tx A) (k : result dberr A → CentralDb → B * CentralDb) e d :
  within settled m → (∀ r d', (k r d').2 = d') → calm d (let '(r, d') := run_tx m e d in k r d').2.
Proof using Type. intros Hm Hk. pose proof (calm_tx m e d Hm) as H. destruct (run_tx m e d) as [r d']. by rewrite Hk. Qed.

Lemma calm_denied now action resource reason meta e d : calm d (run_tx (RecordDenied now action resource reason meta) e d).2.
Proof using Type. apply calm_tx. unfold RecordDenied, auditEvent, RecordAudit. stays. Qed.

Lemma calm_refused e d d' : calm d d' → calm d (replay_refused e d').2.
Proof using Type. intros Hd. etrans; [exact Hd|]. apply calm_denied. Qed.

Lemma calm_Replay runtime wire e d : calm d (cpReplayGatewayPending c runtime wire e d).2.
Proof using Type.
  assert (Hd : calm d d) by reflexivity. unfold cpReplayGatewayPending. destruct (_ || _); [done|].
  destruct (GatewayPendingIdentity wire) as [[id claimed]|]; [|by apply calm_refused]. destruct (claimed != runtime); [by apply calm_refused|].
  destruct (run_tx (GatewayPendingOrigin_ id runtime) _ d).1 as [o|x]; [|by apply calm_refused].
  destruct (go_RuntimeID o != runtime); [by apply calm_refused|].
  destruct (replay_commit c runtime wire o) as [[commit config]|]; [|by apply calm_refused].
  match goal with |- context [run_tx ?m ?t d] => pose proof (calm_tx m t d (settled_Commit _ _)) as H end.
  destruct (run_tx _ _ d) as [res d1]. cbn in H. destruct (negb _); [by apply calm_refused|].
  destruct (SignGatewayPendingReceipt _ _); [|by apply calm_refused]. destruct (re_ctx_sign e); [done|by apply calm_refused].
Qed.

Lemma calm_ReplayGlobal runtime b wire e d : calm d (cpReplayGatewayGlobalAudit c runtime b wire e d).2.
Proof using Type.
  assert (Hd : calm d d) by reflexivity. unfold cpReplayGatewayGlobalAudit. destruct (_ || _); [done|].
  destruct (run_tx (GatewayAuditOrigin_ b) _ d).1 as [o|x]; [|by apply calm_refused].
  destruct (gao_Binding o != b); [by apply calm_refused|].
  destruct (global_commit c b wire o) as [commit|]; [|by apply calm_refused].
  match goal with |- context [run_tx ?m ?t d] => assert (H : calm d (run_tx m t d).2) by (apply calm_tx; stays) end.
  destruct (run_tx _ _ d) as [res d1]. cbn in H. destruct (negb _); [by apply calm_refused|].
  destruct (SignGatewayPendingReceipt _ _); [|by apply calm_refused]. destruct (re_ctx_sign e); [done|by apply calm_refused].
Qed.

(** ** Admission *)

Lemma wp_lockAgent id d (Q : result dberr Repository → CentralDb → CentralDb → Prop) :
  (∀ x, Q (Err x) d d) →
  (∀ r, is_Some (fl_agents (cd_fleet d) !! id) → is_Some (fl_hosts (cd_fleet d) !! rp_HostID r) →
     (keyed d → is_Some (fl_repositories (cd_fleet d) !! rp_ID r)) → Q (Ok r) d d) →
  wp (lockAgentRepository id) Q d d.
Proof using Type.
  intros He Hok. unfold lockAgentRepository. wp_run; try apply He.
  destruct (fl_agents (cd_fleet d) !! id) as [ag|] eqn:Ha; [|done]. destruct (ar_Status ag == "ACTIVE"); [|done]. simplify_eq.
  unfold host_repository in *. match goal with H : List.find _ _ = Some _ |- _ => apply find_some in H as [Hin Hb] end. bool_prop.
  apply list_elem_of_In, list_elem_of_fmap in Hin as ([i x] & Hx & Hin%elem_of_map_to_list). cbn in Hx. subst x.
  apply Hok; [by eexists| |].
  - match goal with H : rp_HostID _ = _ |- _ => rewrite H end. by destruct (fl_hosts (cd_fleet d) !! ar_HostID ag).
  - intros [Hk _]. rewrite (Hk _ _ Hin). by eexists.
Qed.

Lemma deny_commits {A} id repo cause d : commits d (rejectBackupAdmission (A := A) id repo cause) d.
Proof using Type.
  eapply wp_within; [apply aside_reject|]. intros _ w' c' Ha [->|Hc]; [apply rtc_refl|]. by apply rtc_once, js_calm, calm_settled, aside_within.
Qed.

Lemma calmly_outbox a kind : calmly (admissionOutbox a kind).
Proof using Type. unfold admissionOutbox. calmly. open_row. calm_row. Qed.

Lemma calmly_admissionAudit id repo action reason result : calmly (backupAdmissionAudit id repo action reason result).
Proof using Type. unfold backupAdmissionAudit. calmly. Qed.

(** An admission is made when no unfinished operation is on its credential. *)
Lemma Reserve_commits r d : commits d (ReserveBackupAdmission r) d.
Proof using Type.
  unfold ReserveBackupAdmission. destruct (negb _); [apply commits_fail|]. cbv zeta.
  apply wp_bind, wp_attempt, wp_lockAgent; [intros []; first [apply commits_fail|apply deny_commits]|].
  intros repo Hag Hh Hr. destruct (_ == "LOCKED"); [apply deny_commits|]. apply wp_bind, wp_attempt.
unfold scanAgentDelivery.
  apply wp_select_row; [intros []; first [apply commits_fail|apply deny_commits]|]. intros _ dl _.
  apply commits_select. intros _. apply commits_select. intros _. set (a := match cd_admissions d !! br_ID r with Some a => a | None => _ end).
  destruct (_ || _); [apply deny_commits|]. apply commits_select. intros now.
  destruct (cd_admissions d !! br_ID r) as [x|] eqn:Hx; unfold is_some; cbn [is_none negb].
  { destruct (negb _); [apply deny_commits|apply commits_ret, rtc_refl]. }
  unfold ensureNoBackupAdmission. apply wp_bind, wp_attempt, wp_bind, wp_select; [apply commits_fail|]. intros _.
  destruct (fenced _ _); [apply wp_fail, deny_commits|]. apply wp_ret. apply commits_select. intros t.
  destruct (credential_busy _ _ _) eqn:Hbusy; [apply deny_commits|]. set (a' := mkAdmission _ _ _ _ _ _ _ _ _ _ _ _ _ _).
  eapply (commits_bind _ _ _ _ (λ _ w, works d w)).
  - apply yields_exec. intros _ w Hw. unfold insert_admission in Hw. destruct (_ || _); [done|]. injection Hw as <-.
    apply rtc_once, (js_admit _ _ a'); try done; [by apply kept_rows_fleet, credentials_keyed_same|..].
    unfold credential_busy in Hbusy. bool_prop. intros id o [Ho Hf] Heq.
    match goal with H : existsb _ (map_to_list (operations d)).*2 = false |- _ => pose proof (no_row _ _ _ _ H Ho) as Hp end.
    cbn in Hp. by rewrite Heq, Hf, bool_decide_true in Hp.
  - intros [] w1 H1. eapply commits_onward; [exact H1|apply calmly_outbox|]. intros [] w2 H2.
    eapply commits_onward; [exact H2|apply calmly_admissionAudit|]. intros [] w3 H3.
    eapply commits_onward; [exact H3|calmly|]. intros valid w4 H4. destruct (negb valid); [apply commits_fail|by apply commits_ret].
Qed.

(** ** Refinement *)

Lemma gateway_works x d : job_allowed (OnGateway x) d → works d (central_apply c x d).
Proof using Type.
  assert (Hcalm : ∀ d', calm d d' → works d d') by (intros d' Hd; by apply rtc_once, js_calm).
  intros Hx. destruct x; cbn [central_apply job_allowed] in *; try (apply Hcalm, calm_tx; by stays).
  - apply (wp_run _ (λ _ d', works d d')). apply Reserve_commits.
  - unfold cpDecideGatewayAuthorization. cbv zeta. destruct (_ || _); [apply rtc_refl|]. apply Hcalm, calm_call; [by stays|].
    intros [g|x] d'; [|done]. by destruct (_ || _).
  - unfold cpRegisterGatewayPending. destruct (_ || _); [apply rtc_refl|]. apply Hcalm, calm_call; [by stays|].
    intros [g|x] d'; [|done]. by destruct (_ || _).
  - unfold cpReplayGatewayRecord. destruct (GatewayPendingAuditIdentity _); [by apply Hcalm, calm_ReplayGlobal|by apply Hcalm, calm_Replay].
  - unfold cpSealGatewayPending. destruct (_ != _); [apply rtc_refl|]. apply Hcalm, calm_call; [by stays|done].
  - apply Hcalm, calm_tx, settled_Refresh.
  - unfold cpRegisterGatewayGlobalAudit. destruct (_ || _); [apply rtc_refl|]. apply Hcalm, calm_call; [by stays|].
    intros [g|x] d'; [|done]. by destruct (_ || _).
  - unfold cpSealGatewayGlobalAudit. destruct (_ || _); [apply rtc_refl|]. apply Hcalm, calm_call; [by stays|done].
  - destruct Hx as (Hk & Ho & He & Hj). apply Hcalm. split; [|done..]. split; [|done]. intros id a. cbn. eauto.
Qed.

Lemma job_works x d : jobs_ok d → job_allowed x d → works d (job_apply x d).
Proof using Type.
  intros Hok Hx. destruct x; cbn [job_apply]; [by apply gateway_works|..]; apply (wp_run _ (λ _ d', works d d')).
  - apply Enqueue_commits.
  - apply EnqueueIndex_commits.
  - apply EnqueueList_commits.
  - by apply Claim_commits.
  - by apply Renew_commits.
  - by apply Refresh_commits.
  - by apply Complete_commits.
  - by apply CompleteRepository_commits.
  - by apply FinishList_commits.
  - by apply FinishIndex_commits.
  - apply DeleteExpired_commits.
Qed.

Lemma run_works xs d : jobs_ok d → job_permitted xs d → works d (job_run xs d).
Proof using Type.
  revert d. induction xs as [|x xs IH]; intros d Hok; [intros _; apply rtc_refl|]. intros [Hx Hxs].
  pose proof (job_works x d Hok Hx) as Hw. etrans; [exact Hw|]. apply IH; [by eapply works_ok|done].
Qed.

Lemma no_operations_ok fleet storage : no_operations fleet storage → jobs_ok (no_gateways fleet storage).
Proof using Type.
  intros [Ho He Hj Hk]. split; cbn; rewrite ?Ho, ?He, ?Hj; try done; unfold unfinished, unreleased; cbn; rewrite ?Ho; try set_solver.
  all: intros *; rewrite ?lookup_empty; try by intros [].
Qed.

(** The databases that a history reaches. *)
Definition job_reachable (d : CentralDb) : Prop :=
  ∃ fleet storage xs, no_operations fleet storage ∧ job_permitted xs (no_gateways fleet storage) ∧ d = job_run xs (no_gateways fleet storage).

Lemma reachable_jobs_ok d : job_reachable d → jobs_ok d.
Proof using Type.
  intros (fleet & storage & xs & Hn & Hp & ->). pose proof (no_operations_ok _ _ Hn) as Hok. by eapply works_ok; [apply run_works|].
Qed.
End History.
