(* ===== verification/JobFrame.v ===== *)
(** * JobFrame: what the transactions on jobs leave alone

    A transaction on jobs changes nothing of a Gateway's state but the audit
    chain, and of a storage credential its health at most; the exception is the
    refresh, which gives it another secret. *)

From S2P Require Import Prelude GoStd Uuid Platform Domain GatewaySession GatewayAuth AuditChain PendingRecord CentralTx CentralStore.
From S2P Require Import RcloneConfig RcloneProps RcloneTarget StorageSecret CentralTrace CentralRefine CentralFrame StorageVault VaultOrder VaultRefine.
From S2P Require Import CentralJobs JobSpec JobRefine.
Open Scope Z_scope.
Open Scope go_scope.
Open Scope central_scope.

Section Jobs.
Context `{U : UuidPkg} `{P : Platform} `{C : AuditCodec} `{AE : AEAD} `{T : TokenCodec} `{W : NetPkg}.
Variable key : string.

(** Only the fleet's tables, the audit chain, and metadata of credentials change. *)
Record light (d d' : CentralDb) : Prop := {
  lt_quiet : quiet d d';
  lt_tables : later_tables key false d d' }.

#[export] Instance light_preorder : PreOrder light.
Proof using Type. split; [intros d; split; reflexivity|]. intros d1 d2 d3 [] []. split; by etrans. Qed.

#[local] Instance light_audited : Audited light.
Proof using Type.
  intros event w c. eapply wp_mono; [|apply wp_conj; [apply (within_audit (R := quiet) event)|apply (within_audit (R := later_tables key false) event)]].
  intros r w' c' [[Hq Hqc] [Ht Htc]]. split; [by split|]. destruct Hqc as [->|Hqc]; [by left|]. destruct Htc as [->|Htc]; [by left|]. right. by split.
Qed.

Lemma light_fleet f o d : light d (set_outbox o (set_fleet f d)).
Proof using Type. split; [by split|]. intros Hok. by apply ok_from_refl. Qed.

Lemma light_metadata d d' id c c' :
  quiet d d' → sg_credentials (cd_storage d) !! id = Some c → same_secret c c' → sc_Revision c' = sc_Revision c + 1 →
  sg_credentials (cd_storage d') = <[id := c']> (sg_credentials (cd_storage d)) → sg_secrets (cd_storage d') = sg_secrets (cd_storage d) → light d d'.
Proof using Type.
  intros Hq Hc Hs Hr Hg Hse. split; [done|]. intros Hok. eapply ok_from_later; [by apply ok_from_refl|].
  eapply vault_metadata; [done|exact Hc|exact Hg|by rewrite Hse|done|done].
Qed.

Ltac light_row := intros; open_row; first [reflexivity | exact (light_fleet _ _ _)].

(** Known parts first, statements by their rows. *)
Ltac parts := repeat first [solve [auto with within]|within_head].
Ltac transaction := intros; cbv zeta; parts; light_row.

(** ** Parts *)

Lemma light_metadata_row id f :
  (∀ x, same_secret x (f x) ∧ sc_Revision (f x) = sc_Revision x + 1) → within light (exec (λ _, alter_credential id f)).
Proof using Type.
  intros Hf. stays. unfold alter_credential. cbv zeta. intros _ d d' H. destruct (_ !! id) as [x|] eqn:Hx; injection H as <-; [|reflexivity].
  destruct (Hf x). by eapply (light_metadata _ _ id x (f x)).
Qed.

Lemma light_ids (id : uuid) : within light (scanOperation id) ∧ within light (scanRepository id) ∧ within light (scanCredential id).
Proof using Type. unfold scanOperation, scanRepository, scanCredential. split_and!; stays. Qed.
Lemma light_noAdmission id : within light (ensureNoBackupAdmission id).
Proof using Type. unfold ensureNoBackupAdmission. stays. Qed.
Lemma light_lease id owner : within light (ensureCredentialLease id owner).
Proof using Type. unfold ensureCredentialLease. stays. Qed.
Lemma light_provision j : within light (ensureProvisionLease j).
Proof using Type. unfold ensureProvisionLease. stays. Qed.
Lemma light_jobAudit o action reason now : within light (credentialJobAudit o action reason now).
Proof using Type. unfold credentialJobAudit. stays. Qed.
Lemma light_binding repo operation hash : within light (gatewayReadBinding repo operation hash).
Proof using Type. unfold gatewayReadBinding. stays. Qed.
Lemma light_lockRead id : within light (lockRepositoryForRead id) ∧ within light (lockProvisionRepository id).
Proof using Type. unfold lockRepositoryForRead, lockProvisionRepository, lock_repository, scanRepository. split; stays. Qed.
Lemma light_event o from now : within light (recordOperationEvent o from now).
Proof using Type. unfold recordOperationEvent, insert_event. transaction. Qed.
#[local] Hint Resolve light_noAdmission light_lease light_provision light_jobAudit light_binding light_event : within.
#[local] Hint Extern 1 (within light (scanOperation _)) => apply light_ids : within.
#[local] Hint Extern 1 (within light (scanCredential _)) => apply light_ids : within.
#[local] Hint Extern 1 (within light (lockRepositoryForRead _)) => apply light_lockRead : within.
#[local] Hint Extern 1 (within light (lockProvisionRepository _)) => apply light_lockRead : within.

Lemma light_readBinding j : within light (ensureReadJobBinding j).
Proof using Type. unfold ensureReadJobBinding. stays. Qed.
Lemma light_transition o to now : within light (transitionOperation o to now).
Proof using Type. unfold transitionOperation, update_operation, save_operation. transaction. Qed.
Lemma light_jobRow j to now : within light (finishJobRow j to now).
Proof using Type. unfold finishJobRow, finish_row. transaction. Qed.
Lemma light_delete role repo operation : within light (exec (λ _, delete_lease role repo operation)).
Proof using Type. unfold delete_lease. transaction. Qed.
Lemma light_expire repo operation : within light (exec (expire_lease repo operation)).
Proof using Type. unfold expire_lease. transaction. Qed.
Lemma light_initialize id resticID version now : within light (stmt (λ _, initialize_row id resticID version now)).
Proof using Type. unfold initialize_row. transaction. Qed.
#[local] Hint Resolve light_readBinding light_transition light_jobRow light_delete light_expire light_initialize : within.

(** ** Finishing *)

Lemma light_finishRead role j to now : within light (finishSnapshotReadJob role j to now).
Proof using Type. unfold finishSnapshotReadJob. cbv zeta. parts. Qed.
Lemma light_finishRepository j repo to now resticID version : within light (finishRepositoryJob j repo to now resticID version).
Proof using Type. unfold finishRepositoryJob. cbv zeta. parts. Qed.
Lemma light_tested id health code now : within light (exec (λ _, alter_credential id (tested health code now))).
Proof using Type. by apply light_metadata_row. Qed.
Lemma light_last_test id o : within light (exec (λ _, alter_credential id (last_test o))).
Proof using Type. by apply light_metadata_row. Qed.
#[local] Hint Resolve light_finishRead light_finishRepository light_tested light_last_test : within.

Lemma light_finish role j to now : within light (finishCredentialJob role j to now).
Proof using Type. unfold finishCredentialJob. cbv zeta. parts. Qed.
#[local] Hint Resolve light_finish : within.

(** ** Transactions *)

Lemma light_lockOperation id operation owner expires payload read : within light (lock_operation id operation owner expires payload read).
Proof using Type. unfold lock_operation. parts. Qed.
#[local] Hint Resolve light_lockOperation : within.

Lemma light_lockJob id owner : within light (lockCredentialJob id owner).
Proof using Type. unfold lockCredentialJob. parts. Qed.
#[local] Hint Resolve light_lockJob : within.

Lemma light_Enqueue o scope key' request audit : within light (EnqueueStorageOperation o scope key' request audit).
Proof using Type.
  unfold EnqueueStorageOperation, EnqueueStorageOperation_insert, insert_operation, save_operation, insert_job, remember, last_initialize. transaction.
Qed.

Lemma light_snapshot o id type source payload hash : within light (enqueue_snapshot o id type source payload hash).
Proof using Type. unfold enqueue_snapshot, insert_operation, save_operation, insert_job. transaction. Qed.
#[local] Hint Resolve light_snapshot : within.

Lemma light_EnqueueIndex o hash : within light (EnqueueSnapshotIndex o hash).
Proof using Type. unfold EnqueueSnapshotIndex. parts. Qed.
Lemma light_EnqueueList `{ListCodec} o snapshot path cursor hash : within light (EnqueueSnapshotList o snapshot path cursor hash).
Proof using Type. unfold EnqueueSnapshotList. parts. Qed.

Lemma light_transitions path o now : within light (transitions o path now).
Proof using Type. revert o. induction path as [|to path IH]; intros o; cbn [transitions]; parts; apply IH. Qed.
#[local] Hint Resolve light_transitions : within.

Lemma light_Claim role owner : within light (ClaimCredentialJob role owner).
Proof using Type.
  unfold ClaimCredentialJob, retire, claim, acquireProvisionLease, acquire_row, alter_job, alter_operation, save_operation. transaction.
Qed.

Lemma light_Renew id owner : within light (RenewCredentialJob id owner).
Proof using Type. unfold RenewCredentialJob, renew_row, renew_lease. transaction. Qed.
Lemma light_Complete role id owner code : within light (CompleteCredentialJob role id owner code).
Proof using Type. unfold CompleteCredentialJob. cbv zeta. parts. Qed.
Lemma light_CompleteRepository id owner code resticID version : within light (CompleteRepositoryJob id owner code resticID version).
Proof using Type. unfold CompleteRepositoryJob. cbv zeta. parts. Qed.

Lemma light_FinishList `{ListCodec} role id owner code r : within light (FinishSnapshotListJob role id owner code r).
Proof using Type. unfold FinishSnapshotListJob, read_code, store_page, finish_read, delete_pages, insert_page. transaction. Qed.

Lemma light_index j repo now entries : within light (index_entries j repo now entries).
Proof using Type. induction entries as [|e entries IH]; cbn [index_entries]; unfold index_entry, upsert_snapshot; parts; first [exact IH|light_row]. Qed.
#[local] Hint Resolve light_index : within.

Lemma light_FinishIndex role id owner code entries : within light (FinishSnapshotIndexJob role id owner code entries).
Proof using Type. unfold FinishSnapshotIndexJob, read_code, store_index, finish_read, mark_missing. transaction. Qed.
Lemma light_DeleteExpired now : within light (DeleteExpiredSnapshotListResults now).
Proof using Type. unfold DeleteExpiredSnapshotListResults, delete_expired. transaction. Qed.

(** ** The refresh *)

Lemma quiet_RefreshJob id owner expected e : within quiet (RefreshCredentialJob id owner expected e).
Proof using AE T W key.
  assert (Hl : within quiet (lockCredentialJob id owner)) by (eapply within_mono; [apply lt_quiet|apply light_lockJob]).
  assert (Hp : ∀ j, within quiet (ensureProvisionLease j)) by (intros j; eapply within_mono; [apply lt_quiet|apply light_provision]).
  unfold RefreshCredentialJob, scanCredential, credentialJobAudit, ensureCredentialLease. cbv zeta. parts; intros _ d d'.
  - destruct (insertSecret _ _); [|done]. by intros [= <-].
  - destruct (insert_revision _ _ _ _); [|done]. by intros [= <-].
  - unfold alter_credential. cbv zeta. destruct (_ !! _); intros [= <-]; by split.
  - unfold alter_operation, save_operation. open_row; by split.
Qed.

(** The job still is for the credential that was lent. *)
Definition lent_job (id : uuid) (credential : StorageCredential) (d : CentralDb) : Prop :=
  ∃ row o, jobs d !! id = Some row ∧ operations d !! jr_OperationID row = Some o ∧ op_StorageCredentialID o = sc_ID credential.

(** The three statements of a refresh are those of [refresh_rows]. *)
Lemma refresh_statements id e now w g1 g2 c w' :
  sg_credentials (cd_storage w) !! id = Some c →
  insertSecret e (cd_storage w) = Some g1 → insert_revision id (sc_SecretRevision c + 1) (se_ID e) g1 = Some g2 →
  alter_credential id (refreshed e now) (set_storage g2 (set_storage g1 w)) = Some w' → refresh_rows id e now w = Some w'.
Proof using Type.
  intros Hc H1 H2 H3. unfold refresh_rows. cbv zeta. rewrite Hc, H1. cbn [mbind option_bind]. rewrite H2. cbn [mbind option_bind].
  unfold alter_credential in H3. cbv zeta in H3. cbn [cd_storage set_storage] in H3.
  pose proof (insertSecret_credentials _ _ _ H1) as E1. pose proof (insert_revision_credentials _ _ _ _ _ H2) as E2.
  rewrite E2, E1, Hc in H3. injection H3 as <-. by rewrite E2, E1.
Qed.


(** Parts of a transaction that leave the credential tables alone. *)
Lemma wp_aside {A B} (R : Storage → Prop) (m : Tx A) (k : A → Tx B) (Q : result dberr B → CentralDb → CentralDb → Prop) w w0 c :
  within (kept cd_storage) m → cd_storage w = cd_storage w0 → R (cd_storage w0) → R (cd_storage c) →
  (∀ x w' c', R (cd_storage c') → Q (Err x) w' c') →
  (∀ a w' c', cd_storage w' = cd_storage w0 → R (cd_storage c') → wp (k a) Q w' c') → wp (tbind m k) Q w c.
Proof using Type.
  intros Hm Hw H0 Hc He Hk. apply wp_bind, wp_frame; [done|]. intros r w' c' Hw' Hc'.
  assert (R (cd_storage c')) by (destruct Hc' as [->| ->]; [done|by rewrite Hw]).
  destruct r as [a|x]; [|by apply He]. apply Hk; [congruence|done].
Qed.

Context {HAE : AEADLaws} {HT : TokenLaws} {HW : NetLaws}.

Lemma RefreshJob_vault id owner credential previous next raw env clk e d :
  vault_ok key (cd_storage d) → lent_row key (cd_storage d) credential previous → lent_job id credential d →
  ParseConfig raw (sc_RemoteName credential) = Some next → same false previous next →
  sealStorageConfig key (with_revision (sc_SecretRevision credential + 1) clk credential) next env = Some e →
  wp (RefreshCredentialJob id owner (sc_SecretRevision credential) e)
    (λ r _ k', loan_refreshed key (cd_storage d) credential next r (cd_storage k')) d d.
Proof using HAE HT HW.
  intros Hok (c & Hc & Hi & Hre & Hle & Hcfg) (row & o & Hrow & Ho & Hcred) Hraw Hsame Hseal.
  assert (Herr : ∀ x, loan_refreshed key (cd_storage d) credential next (Err x) (cd_storage d)) by (split; [by apply ok_from_refl|done]).
  unfold RefreshCredentialJob. apply wp_bind.
  eapply wp_yields; [apply (yields_lockCredentialJob _ _ _ (λ j w, w = d ∧ cj_Operation j = o ∧ cj_Credential j = c))|done|].
  { intros j row' t Hrow' _ _ _ _ [Hop Hcr _ _] _. split_and!; [done|congruence|]. rewrite Hrow in Hrow'. injection Hrow' as <-.
    rewrite Ho in Hop. injection Hop as Hop. rewrite <- Hop, Hcred, Hc in Hcr. by injection Hcr. }
  intros j w (-> & Hjo & Hjc). destruct (is_some _) eqn:Hread; [by apply wp_fail|]. destruct (_ || _) eqn:Hrev; [by apply wp_fail|]. bool_prop.
  assert (Hrc : sc_SecretRevision c = sc_SecretRevision credential).
  { match goal with H : credentialUnchanged j = true |- _ => unfold credentialUnchanged in H; rewrite Hread in H; cbn [orb] in H end.
    bool_prop. rewrite Hjc in *. congruence. }
  apply wp_bind, wp_select; [done|]. intros now. cbv zeta.
  apply wp_bind, wp_exec; [done|]. intros _ w1 Hx1. destruct (insertSecret e (cd_storage d)) as [g1|] eqn:Hg1; [|done]. injection Hx1 as <-.
  apply wp_bind, wp_exec; [done|]. intros _ w2 Hx2. cbn [cd_storage set_storage] in Hx2. rewrite Hjc, Hi in Hx2.
  destruct (insert_revision _ _ _ g1) as [g2|] eqn:Hg2; [|done]. injection Hx2 as <-.
  apply wp_bind, wp_exec; [done|]. intros _ w' Hx3. rewrite Hjc, Hi in Hx3. rewrite <- Hrc in Hg2.
  pose proof (refresh_statements _ _ _ _ _ _ _ _ Hc Hg1 Hg2 Hx3) as Hrows.
  assert (Hok' : ok_from key false (cd_storage d) (cd_storage w')).
  { eapply ok_from_later; [by apply ok_from_refl|]. eapply refresh_keeps; [exact HAE|exact Hok|exact Hc|exact Hrows|exact Hseal|done| |by rewrite Hre|].
    - cbn. by rewrite Hrc.
    - intros old Hold. etrans; [by apply Hcfg|done]. }
  destruct (refresh_rows_inv _ _ _ _ _ _ Hrows Hc) as (_ & Hg & _). rewrite Hjc, Hi.
  unfold scanCredential. apply wp_bind, wp_bind, wp_select; [done|]. intros _. rewrite Hg, lookup_insert_eq. apply wp_ret.
  assert (Hlent : lent_row key (cd_storage w') (refreshed e now c) next).
  { eapply lent_row_refreshed; [exact HAE|exact HT|exact HW|exact Hrows|exact Hc|done|exact Hseal|done| |by rewrite Hre]. cbn. by rewrite Hrc. }
  set (R := λ g, g = cd_storage d ∨ g = cd_storage w').
  assert (Hfail : ∀ x (w1 k1 : CentralDb), R (cd_storage k1) → loan_refreshed key (cd_storage d) credential next (Err x) (cd_storage k1)).
  { intros x _ k1 [->| ->]; [apply Herr|by split]. }
  assert (HR : R (cd_storage w')) by (by right).
  eapply (wp_aside R _ _ _ w' w' d); [|done|done|by left|exact Hfail|].
  { parts. unfold alter_operation, save_operation. by open_row. }
  intros [] w3 k3 Hw3 Hk3. unfold credentialJobAudit, ensureProvisionLease, ensureCredentialLease.
  do 4 (eapply (wp_aside R _ _ _ _ w'); [stays|done|done|done|exact Hfail|]; intros ? ? ? ? ?).
  apply wp_bind, wp_commit; [by apply (Hfail _ d)|apply (Hfail _ d); by right|]. apply wp_ret.
  match goal with H : cd_storage ?w = cd_storage w' |- loan_refreshed _ _ _ _ _ (cd_storage ?w) => rewrite H end.
  split; [done|]. intros saved [= <-]. by split.
Qed.
End Jobs.
