(* ===== verification/JobWorker.v ===== *)
(** * JobWorker: the worker of the control plane

    internal/server: credential_jobs.go, gateway_read.go, and the parts of
    snapshot_index.go and snapshot_list.go the worker uses.  [ProcessCredentialJob]
    is cut wherever another transaction can come between: a step of a [Work] runs
    at most one transaction that writes.  What rclone and restic do, and what they
    return, is input. *)

From S2P Require Import Prelude GoStd Uuid Platform Domain GatewaySession GatewayAuth AuditChain PendingRecord CentralTx CentralStore.
From S2P Require Import RcloneConfig StorageSecret CentralPlane StorageVault CentralJobs.
Import Domain.Operation (ValidInitializedRepository).
Open Scope Z_scope.
Open Scope go_scope.
Open Scope central_scope.

(** ** Errors of a run *)

(** The sentinels [errors.Is] is asked for. *)
Inductive sentinel :=
| context_DeadlineExceeded
| restic_ErrRepositoryLocked | restic_ErrWrongPassword | restic_ErrRepositoryAbsent | restic_ErrRepositoryMatch | restic_ErrRepositoryInUse
| restic_ErrInvalidListRequest | restic_ErrProcessFailed | restic_ErrInvalidOutput
| rclone_ErrRefreshPersist | rclone_ErrInvalidConfig | rclone_ErrUnsafeRuntime | rclone_ErrConfigChanged | rclone_ErrCommandFailed
| domain_ErrStorageUnavailable.
#[export] Instance sentinel_eq_dec : EqDecision sentinel.
Proof. solve_decision. Defined.

(** An error, as the sentinels its chain contains; [None] is nil. *)
Definition run_error : Type := option (list sentinel).
Definition Is (err : run_error) (s : sentinel) : bool := match err with Some chain => bool_decide (s ∈ chain) | None => false end.

Definition config_unsafe (err : run_error) : bool :=
  Is err rclone_ErrInvalidConfig || Is err rclone_ErrUnsafeRuntime || Is err rclone_ErrConfigChanged.

Definition snapshotListErrorCode (err : run_error) : string :=
  if is_none err then ""
  else if Is err context_DeadlineExceeded then "SCAN_TIMED_OUT"
  else if Is err restic_ErrRepositoryLocked then "REPOSITORY_LOCKED"
  else if Is err restic_ErrWrongPassword then "PASSWORD_REJECTED"
  else if Is err restic_ErrRepositoryAbsent then "REPOSITORY_UNAVAILABLE"
  else if Is err domain_ErrStorageUnavailable then "SECRET_UNAVAILABLE"
  else if Is err restic_ErrInvalidListRequest then "PATH_INVALID"
  else if Is err rclone_ErrRefreshPersist then "REFRESH_FAILED"
  else if config_unsafe err then "CONFIG_UNSAFE"
  else "SCAN_FAILED".

Definition snapshotIndexErrorCode (err : run_error) : string :=
  if is_none err then ""
  else if Is err context_DeadlineExceeded then "INDEX_TIMED_OUT"
  else if Is err restic_ErrRepositoryLocked then "REPOSITORY_LOCKED"
  else if Is err restic_ErrWrongPassword then "PASSWORD_REJECTED"
  else if Is err restic_ErrRepositoryAbsent then "REPOSITORY_UNAVAILABLE"
  else if Is err domain_ErrStorageUnavailable then "SECRET_UNAVAILABLE"
  else if Is err rclone_ErrRefreshPersist then "REFRESH_FAILED"
  else if config_unsafe err then "CONFIG_UNSAFE"
  else "INDEX_FAILED".

(** server/repository_jobs.go *)
Definition initializeErrorCode (err : run_error) : string :=
  if is_none err then ""
  else if Is err context_DeadlineExceeded then "INITIALIZE_TIMED_OUT"
  else if Is err restic_ErrRepositoryLocked then "REPOSITORY_LOCKED"
  else if Is err restic_ErrRepositoryMatch || Is err restic_ErrRepositoryAbsent then "REPOSITORY_MISMATCH"
  else if Is err restic_ErrRepositoryInUse then "REPOSITORY_NOT_EMPTY"
  else if Is err restic_ErrWrongPassword then "PASSWORD_REJECTED"
  else "INITIALIZE_FAILED".

(** The last two switches of [ProcessCredentialJob]. *)
Definition testErrorCode (err : run_error) : string :=
  if is_none err then ""
  else if Is err context_DeadlineExceeded then "TEST_TIMED_OUT"
  else if Is err rclone_ErrRefreshPersist then "REFRESH_FAILED"
  else if config_unsafe err then "CONFIG_UNSAFE"
  else "CONNECTION_FAILED".
Definition jobErrorCode (repository : bool) (err : run_error) : string :=
  let code := testErrorCode err in
  if repository then
    if Is err domain_ErrStorageUnavailable then "SECRET_UNAVAILABLE"
    else if (code == "CONFIG_UNSAFE") || (code == "REFRESH_FAILED") then code
    else initializeErrorCode err
  else code.

(** ** Plans of snapshots (snapshot_index.go) *)

Section Tags.
Context `{U : UuidPkg}.

Record TagState := mkTags { tg_managed : bool; tg_ambiguous : bool; tg_planID : option uuid }.

Definition plan_prefix : string := "restfleet:plan:".

Definition read_tag (st : TagState) (tag : string) : TagState :=
  if tag == "restfleet:managed" then mkTags true (tg_ambiguous st) (tg_planID st)
  else if HasPrefix tag plan_prefix then
    let ambiguous := mkTags (tg_managed st) true (tg_planID st) in
    match Parse (TrimPrefix tag plan_prefix) with
    | Some parsed =>
        if valid_v7 parsed && (TrimPrefix tag plan_prefix == UString parsed) then
          match tg_planID st with
          | None => mkTags (tg_managed st) (tg_ambiguous st) (Some parsed)
          | Some plan => if plan != parsed then ambiguous else st
          end
        else ambiguous
    | None => ambiguous
    end
  else st.

Definition resolveSnapshotPlan (tags : list string) : option uuid :=
  let st := foldl read_tag (mkTags false false None) tags in
  if negb (tg_managed st) || tg_ambiguous st then None else tg_planID st.

Definition resolved (e : IndexedSnapshot) : IndexedSnapshot :=
  mkIndexed (resolveSnapshotPlan (ix_Tags e)) (ix_SnapshotID e) (ix_TreeID e) (ix_CapturedAt e) (ix_Tags e) (ix_Paths e)
    (ix_ProgramVersion e) (ix_FilesNew e) (ix_BytesAdded e).
End Tags.

(** ** A worker on a job *)

(** What the control plane was started with: its runners and its CA. *)
Record Runners := mkRunners {
  rn_test : bool;
  rn_initialize : bool;
  rn_list : bool;
  rn_index : bool;
  rn_CA : bool }.

Record RepositoryInfo := mkInfo { ri_ID : string; ri_FormatVersion : Z }.
Definition no_info : RepositoryInfo := mkInfo "" 0.

(** [restic.ListResult] *)
Record Listed := mkListed {
  li_TreeID : string;
  li_Truncated : bool;
  li_NextCursor : string;
  li_Scanned : Z;
  li_Entries : list SnapshotEntry }.

Definition no_listing : SnapshotListResult := mkListResult uuid_Nil uuid_Nil "" "" "" false "" 0 [] zero_time.

(** What a job ends with. *)
Record Ending := mkEnding {
  en_Code : string;
  en_Info : RepositoryInfo;
  en_List : SnapshotListResult;
  en_Index : list IndexedSnapshot }.
Definition ends (code : string) : Ending := mkEnding code no_info no_listing [].

(** Where a worker stands: it has claimed the job; it has renewed its lease; its
    run is on, with the credential and configuration it lent, unless the run
    failed before it began, until a renewal fails; it knows how the job ends, by
    the closure [complete] of [processGatewayReadJob] or the one around it. *)
Inductive phase :=
| Claimed
| Opening
| Running (lent : option (StorageCredential * Config)) (failed : run_error) (renewErr : option dberr)
| Ends (reader : bool) (x : Ending).

Record Work := mkWork { wk_Owner : uuid; wk_Job : CredentialJob; wk_Phase : phase }.
Definition at_phase (p : phase) (w : Work) : Work := mkWork (wk_Owner w) (wk_Job w) p.

(** What a run returns, and what its contexts say then: [workCtx.Err()], and
    whether [ctx] is done. *)
Record RunOutcome := mkOutcome {
  ro_Err : run_error;
  ro_Info : RepositoryInfo;
  ro_List : Listed;
  ro_Index : list IndexedSnapshot;
  ro_WorkErr : run_error;
  ro_Stopped : bool }.

Section Worker.
Context `{U : UuidPkg} `{P : Platform} `{C : AuditCodec} `{AE : AEAD} `{T : TokenCodec} `{W : NetPkg} `{LC : ListCodec}.
Variable c : Plane.
Variable role : db_role.
Variable runners : Runners.

Definition gateway_mode (w : Work) : bool := is_some (cj_GatewayRead (wk_Job w)).
Definition job_type (w : Work) : string := op_Type (cj_Operation (wk_Job w)).

Definition configured : bool :=
  (rn_test runners || rn_initialize runners || rn_list runners || rn_index runners) && (slen (cp_masterKey c) == 32).

(** The claim. *)
Definition claim_work (owner : uuid) (e : TxEnv) (d : CentralDb) : option Work * CentralDb :=
  if negb configured then (None, d)
  else
    let '(r, d) := run_tx (ClaimCredentialJob role owner) e d in
    (match r with Ok j => Some (mkWork owner j Claimed) | Err _ => None end, d).

(** The closures [complete], that of [processGatewayReadJob] first. *)
Definition complete (reader : bool) (w : Work) (x : Ending) : Tx () :=
  let id := cj_ID (wk_Job w) in
  if reader then
    if job_type w == "SNAPSHOT_INDEX" then FinishSnapshotIndexJob role id (wk_Owner w) (en_Code x) (en_Index x)
    else FinishSnapshotListJob role id (wk_Owner w) (en_Code x) (en_List x)
  else if job_type w == "SNAPSHOT_LIST" then FinishSnapshotListJob role id (wk_Owner w) (en_Code x) (en_List x)
  else if job_type w == "SNAPSHOT_INDEX" then FinishSnapshotIndexJob role id (wk_Owner w) (en_Code x) (en_Index x)
  else match cj_Repository (wk_Job w) with
  | Some _ => CompleteRepositoryJob id (wk_Owner w) (en_Code x) (ri_ID (en_Info x)) (ri_FormatVersion (en_Info x))
  | None => CompleteCredentialJob role id (wk_Owner w) (en_Code x)
  end.

(** Why a claimed job ends before its lease is renewed. *)
Definition refusal (w : Work) : option phase :=
  let j := wk_Job w in
  if is_some (cj_Repository j) && negb (cj_RepositoryAvailable j) then Some (Ends false (ends "REPOSITORY_UNAVAILABLE"))
  else if (sc_Status (cj_Credential j) == "DISABLED") ||
          is_none (cj_GatewayRead j) && (sc_SecretRevision (cj_Credential j) != op_SecretRevision (cj_Operation j))
  then Some (Ends false (ends "CREDENTIAL_CHANGED"))
  else match cj_GatewayRead j with
  | Some read =>
      if is_none (cj_Repository j) || (gr_ConfigurationHash read != credentialConfigurationHash c) || negb (rn_CA runners) ||
         (cp_gatewayPublicURL c == "")
      then Some (Ends true (ends "CONFIG_UNSAFE")) else None
  | None => None
  end.

Definition busy_repository (x : dberr) : bool := (x == ErrRepositoryBusy) || (x == ErrRepositoryUnavailable).

(** What keeps a run from beginning; [password] is what [RepositoryResticSecret]
    and [openRepositorySecret] give. *)
Definition run_refusal (w : Work) (password : option string) : run_error :=
  match cj_Repository (wk_Job w) with
  | None => if rn_test runners then None else Some [rclone_ErrCommandFailed]
  | Some _ =>
      let secret := if is_none password then Some [domain_ErrStorageUnavailable] else None in
      if job_type w == "SNAPSHOT_LIST" then
        if negb (rn_list runners) then Some [restic_ErrProcessFailed]
        else if is_none (UnmarshalList (cj_Payload (wk_Job w))) then Some [restic_ErrInvalidListRequest] else secret
      else if job_type w == "SNAPSHOT_INDEX" then if rn_index runners then secret else Some [restic_ErrProcessFailed]
      else if rn_initialize runners then secret else Some [restic_ErrProcessFailed]
  end.

(** [issued] is that x509 and the source of randomness gave the reader's
    certificate. *)
Definition reader_refusal (w : Work) (read : GatewayReadBinding) (password : option string) (issued : bool) : run_error :=
  if is_none password then Some [domain_ErrStorageUnavailable]
  else if negb (valid_binding read && issued) then Some [domain_ErrStorageUnavailable]
  else if (job_type w == "SNAPSHOT_INDEX") && rn_index runners then None
  else if (job_type w == "SNAPSHOT_LIST") && rn_list runners then
    if is_none (UnmarshalList (cj_Payload (wk_Job w))) then Some [restic_ErrInvalidListRequest] else None
  else Some [restic_ErrProcessFailed].

(** From the claim to the renewal of the lease; [None] is that the worker is done. *)
Definition step_claimed (w : Work) (password : option string) (issued : bool) (e : TxEnv) (d : CentralDb) : option Work * CentralDb :=
  match refusal w with
  | Some p => (Some (at_phase p w), d)
  | None =>
      let '(r, d) := run_tx (RenewCredentialJob (cj_ID (wk_Job w)) (wk_Owner w)) e d in
      (match r, cj_GatewayRead (wk_Job w) with
       | Ok _, Some read => Some (at_phase (Running None (reader_refusal w read password issued) None) w)
       | Ok _, None => Some (at_phase Opening w)
       | Err x, Some _ => if busy_repository x then Some (at_phase (Ends true (ends "REPOSITORY_UNAVAILABLE")) w) else None
       | Err _, None => None
       end, d)
  end.

(** The secret is read and opened. *)
Definition step_opening (w : Work) (password : option string) (e : TxEnv) (d : CentralDb) : Work :=
  let credential := cj_Credential (wk_Job w) in
  let ended code := at_phase (Ends false (ends code)) w in
  match (run_tx (StorageCredentialSecret (sc_SecretRef credential)) e d).1 with
  | Err _ => ended "SECRET_UNAVAILABLE"
  | Ok envelope =>
      match openStorageSecret (cp_masterKey c) credential envelope with
      | None => ended "SECRET_UNAVAILABLE"
      | Some raw =>
          match ParseConfig raw (sc_RemoteName credential) with
          | None => ended "CONFIG_UNSAFE"
          | Some previous =>
              if storageProvider previous != sc_Provider credential then ended "CONFIG_UNSAFE"
              else at_phase (Running (Some (credential, previous)) (run_refusal w password) None) w
          end
      end
  end.

(** A tick of the goroutine that renews the lease; [expired] is [workCtx.Err() != nil]. *)
Definition step_renew (w : Work) (expired : bool) (e : TxEnv) (d : CentralDb) : Work * CentralDb :=
  match wk_Phase w with
  | Running lent failed None =>
      let '(r, d) := run_tx (RenewCredentialJob (cj_ID (wk_Job w)) (wk_Owner w)) e d in
      (match r with
       | Ok _ => w
       | Err x => if expired && negb (gateway_mode w) then w else at_phase (Running lent failed (Some x)) w
       end, d)
  | _ => (w, d)
  end.

Inductive refresh_error := RefreshChanged | RefreshSeal | RefreshStore (x : dberr).

(** The closure [persist]. *)
Definition refresh_job (w : Work) (credential : StorageCredential) (previous : Config) (nextRaw : string) (env : SealEnv) (e : TxEnv)
    (d : CentralDb) : result refresh_error (StorageCredential * Config) * CentralDb :=
  match ParseConfig nextRaw (sc_RemoteName credential) with
  | None => (Err RefreshChanged, d)
  | Some next =>
      if negb (SameExceptToken previous next) then (Err RefreshChanged, d)
      else match sealStorageConfig (cp_masterKey c) (with_revision (sc_SecretRevision credential + 1) (sl_clock env) credential) next env with
      | None => (Err RefreshSeal, d)
      | Some sealed =>
          let '(r, d) := run_tx (RefreshCredentialJob (cj_ID (wk_Job w)) (wk_Owner w) (sc_SecretRevision credential) sealed) e d in
          (match r with Ok saved => Ok (saved, next) | Err x => Err (RefreshStore x) end, d)
      end
  end.

(** rclone asks to keep a configuration it changed. *)
Definition step_refresh (w : Work) (raw : string) (env : SealEnv) (e : TxEnv) (d : CentralDb) : Work * CentralDb :=
  match wk_Phase w with
  | Running (Some (credential, previous)) None renewErr =>
      let '(r, d) := refresh_job w credential previous raw env e d in
      (match r with Ok lent => at_phase (Running (Some lent) None renewErr) w | Err _ => w end, d)
  | _ => (w, d)
  end.

(** *** The end of a run *)

Definition listing (w : Work) (l : Listed) : SnapshotListResult :=
  match UnmarshalList (cj_Payload (wk_Job w)) with
  | Some (snapshot, path, _) =>
      mkListResult uuid_Nil uuid_Nil snapshot (li_TreeID l) path (li_Truncated l) (li_NextCursor l) (li_Scanned l) (li_Entries l) zero_time
  | None => no_listing
  end.

(** [runErr] as the run left it. *)
Definition run_result (w : Work) (failed : run_error) (o : RunOutcome) : run_error :=
  match failed with
  | Some _ => failed
  | None =>
      if is_none (ro_Err o) && negb (gateway_mode w) && is_some (cj_Repository (wk_Job w)) && negb (snapshot_type (job_type w)) &&
         negb (ValidInitializedRepository (ri_ID (ro_Info o)) (ri_FormatVersion (ro_Info o)))
      then Some [restic_ErrInvalidOutput] else ro_Err o
  end.

(** [runErr] in the end: a success after the deadline is none. *)
Definition final_error (w : Work) (failed : run_error) (o : RunOutcome) : run_error :=
  match run_result w failed o with Some x => Some x | None => ro_WorkErr o end.

Definition run_code (w : Work) (err : run_error) : string :=
  if gateway_mode w then if job_type w == "SNAPSHOT_LIST" then snapshotListErrorCode err else snapshotIndexErrorCode err
  else if job_type w == "SNAPSHOT_LIST" then snapshotListErrorCode err
  else if job_type w == "SNAPSHOT_INDEX" then snapshotIndexErrorCode err
  else jobErrorCode (is_some (cj_Repository (wk_Job w))) err.

(** The results a finished run leaves in its variables: beside a Gateway also
    those of a run that failed. *)
Definition run_ending (w : Work) (failed : run_error) (o : RunOutcome) : Ending :=
  let ran := is_none failed && (gateway_mode w || is_none (ro_Err o)) in
  mkEnding (run_code w (final_error w failed o))
    (if is_none failed && negb (gateway_mode w) && is_some (cj_Repository (wk_Job w)) && negb (snapshot_type (job_type w)) then ro_Info o else no_info)
    (if ran && (job_type w == "SNAPSHOT_LIST") then listing w (ro_List o) else no_listing)
    (if ran && (job_type w == "SNAPSHOT_INDEX") then resolved <$> ro_Index o else []).

Definition step_return (w : Work) (o : RunOutcome) : option Work :=
  match wk_Phase w with
  | Running lent failed renewErr =>
      if ro_Stopped o then None
      else match renewErr with
      | Some x =>
          if gateway_mode w && busy_repository x then Some (at_phase (Ends true (ends "REPOSITORY_UNAVAILABLE")) w) else None
      | None => Some (at_phase (Ends (gateway_mode w) (run_ending w failed o)) w)
      end
  | _ => Some w
  end.

(** ** Workers *)

Inductive work_event :=
| Take (owner : uuid) (e : TxEnv)
| Proceed (i : nat) (password : option string) (issued : bool) (e : TxEnv)
| Tick (i : nat) (expired : bool) (e : TxEnv)
| Keep (i : nat) (raw : string) (env : SealEnv) (e : TxEnv)
| Return (i : nat) (o : RunOutcome).

(** Work [i] goes on as [w], or is over. *)
Definition set_work (i : nat) (w : option Work) (l : list Work) : list Work :=
  match w with Some w => <[i := w]> l | None => delete i l end.

(** [Proceed] takes the worker's next step outside a run: its renewal, the opening
    of the secret, or the completion of the job. *)
Definition proceed (w : Work) (password : option string) (issued : bool) (e : TxEnv) (d : CentralDb) : option Work * CentralDb :=
  match wk_Phase w with
  | Claimed => step_claimed w password issued e d
  | Opening => (Some (step_opening w password e d), d)
  | Running _ _ _ => (Some w, d)
  | Ends reader x => (None, (run_tx (complete reader w x) e d).2)
  end.

Definition work_apply (x : work_event) (l : list Work) (d : CentralDb) : list Work * CentralDb :=
  match x with
  | Take owner e => let '(w, d) := claim_work owner e d in (match w with Some w => l ++ [w] | None => l end, d)
  | Proceed i password issued e =>
      match l !! i with
      | Some w => let '(w, d) := proceed w password issued e d in (set_work i w l, d)
      | None => (l, d)
      end
  | Tick i expired e =>
      match l !! i with Some w => let '(w, d) := step_renew w expired e d in (<[i := w]> l, d) | None => (l, d) end
  | Keep i raw env e =>
      match l !! i with Some w => let '(w, d) := step_refresh w raw env e d in (<[i := w]> l, d) | None => (l, d) end
  | Return i o => match l !! i with Some w => (set_work i (step_return w o) l, d) | None => (l, d) end
  end.
End Worker.
