(* ===== verification/WorkerHistory.v ===== *)
(** * WorkerHistory: what a worker does to the credential tables

    Whatever a worker holds was read from the database, and every step of it
    leaves the targets of storage credentials where they are.  The calls that
    manage credentials leave operations and jobs alone. *)

From S2P Require Import Prelude GoStd Uuid Platform Domain GatewaySession GatewayAuth AuditChain PendingRecord CentralTx CentralStore.
From S2P Require Import RcloneConfig RcloneProps RcloneTarget StorageSecret CentralTrace CentralGrowth CentralRefine CentralPlane.
From S2P Require Import StorageVault CentralHistory CentralFrame VaultOrder VaultRefine VaultHistory.
From S2P Require Import CentralJobs JobSpec JobRefine JobTrace JobHistory JobFrame JobWorker.
Import Domain.Operation (ValidInitializedRepository).
Open Scope Z_scope.
Open Scope go_scope.
Open Scope central_scope.

(** ** Jobs stay with their credentials *)

(** Every row of [m] is one of [m'] that agrees with it on [f]. *)
Definition agrees {A B} (f : A → B) (m m' : gmap uuid A) : Prop :=
  ∀ id z, m !! id = Some z → ∃ z', m' !! id = Some z' ∧ f z' = f z.

#[export] Instance agrees_preorder {A B} (f : A → B) : PreOrder (agrees f).
Proof.
  split; [intros m id z Hz; eauto|]. intros m1 m2 m3 H1 H2 id z Hz. destruct (H1 _ _ Hz) as (z2 & Hz2 & E2).
  destruct (H2 _ _ Hz2) as (z3 & Hz3 & E3). exists z3. split; [done|congruence].
Qed.

Lemma agrees_insert {A B} (f : A → B) m i y : (∀ x, m !! i = Some x → f y = f x) → agrees f m (<[i := y]> m).
Proof.
  intros Hf id z Hz. destruct (decide (i = id)) as [->|Hne]; [|exists z; by rewrite lookup_insert_ne].
  exists y. rewrite lookup_insert_eq. auto.
Qed.

Record same_work (d d' : CentralDb) : Prop := {
  sw_jobs : agrees jr_OperationID (jobs d) (jobs d');
  sw_operations : agrees op_StorageCredentialID (operations d) (operations d') }.

#[export] Instance same_work_preorder : PreOrder same_work.
Proof. split; [intros d; by split|]. intros d1 d2 d3 [] []. split; by etrans. Qed.

Lemma step_same_work d d' : job_step d d' → same_work d d'.
Proof.
  intros Hs. destruct Hs as [[_ Ho _ Hj]|a _ Ho _ Hj|o j now _ Hn _ _ _ Hjn _ _ _ _ _ _ _ Ho _ Hj|j o path owner now t _ Hjr Hop _ _ Hp Ho _ Hj
    |j owner t _ Hjr _ _ Ho _ Hj|id o r _ Hop Ho _ Hj|j o to code now status last at_ _ Hjr Hop _ _ _ Ho _ Hj].
  all: split; rewrite ?Ho, ?Hj; try done; apply agrees_insert; intros x Hx; simplify_eq; try done.
  destruct Hp as [[_ ->]|[_ ->]]; done.
Qed.

Lemma works_same_work d d' : works d d' → same_work d d'.
Proof. induction 1 as [|d1 d2 d3 Hs _ IH]; [done|]. etrans; [by apply step_same_work|done]. Qed.

Lemma lent_job_later id credential d d' : same_work d d' → lent_job id credential d → lent_job id credential d'.
Proof.
  intros [Hj Ho] (row & o & Hrow & Hop & Hc). destruct (Hj _ _ Hrow) as (row' & Hrow' & Hr). destruct (Ho _ _ Hop) as (o' & Hop' & Hc').
  exists row', o'. rewrite Hr. split_and!; [done|done|congruence].
Qed.

(** ** What a claim has read *)

(** What a transaction returns when it succeeds, whatever it does. *)
Definition returns {A} (m : Tx A) (Q : A → Prop) : Prop := ∀ w d, wp m (λ r _ _, ∀ a, r = Ok a → Q a) w d.

Lemma returns_ret {A} (a : A) Q : Q a → returns (tret a) Q.
Proof. intros Ha w d. apply wp_ret. by intros b [= <-]. Qed.
Lemma returns_fail {A} x (Q : A → Prop) : returns (tfail x) Q.
Proof. intros w d. by apply wp_fail. Qed.
Lemma returns_bind {A B} (m : Tx A) (k : A → Tx B) P Q : returns m P → (∀ a, P a → returns (k a) Q) → returns (tbind m k) Q.
Proof. intros Hm Hk w d. apply wp_bind. eapply wp_mono; [|apply Hm]. intros [a|x] w' d' Ha; [by apply Hk, Ha|done]. Qed.
Lemma returns_any {A B} (m : Tx A) (k : A → Tx B) Q : (∀ a, returns (k a) Q) → returns (tbind m k) Q.
Proof. intros Hk. by apply (returns_bind _ _ (λ _, True)). Qed.
Lemma returns_attempt {A} (m : Tx A) (Q : A → Prop) : returns m Q → returns (tattempt m) (λ r, ∀ a, r = Ok a → Q a).
Proof. intros Hm w d. apply wp_attempt. eapply wp_mono; [|apply Hm]. by intros r w' d' Hr r' [= <-]. Qed.

Section Claim.
Context `{U : UuidPkg} `{P : Platform} `{C : AuditCodec}.

Definition read_job (d : CentralDb) (j : CredentialJob) : Prop :=
  sg_credentials (cd_storage d) !! sc_ID (cj_Credential j) = Some (cj_Credential j) ∧ lent_job (cj_ID j) (cj_Credential j) d.

Lemma transitions_type path o now : returns (transitions o path now) (λ x, op_Type x = op_Type o).
Proof.
  revert o. induction path as [|to path IH]; intros o; cbn [transitions]; [by apply returns_ret|].
  apply (returns_bind _ _ (λ x, op_Type x = op_Type o)); [|intros x <-; apply IH].
  unfold transitionOperation. destruct (negb _); [apply returns_fail|]. cbv zeta. do 2 (apply returns_any; intros []). by apply returns_ret.
Qed.

(** A claim returns the job it locked, of the same kind. *)
Record claimed_from (j x : CredentialJob) : Prop := {
  cf_id : cj_ID x = cj_ID j;
  cf_credential : cj_Credential x = cj_Credential j;
  cf_read : cj_GatewayRead x = cj_GatewayRead j;
  cf_type : op_Type (cj_Operation x) = op_Type (cj_Operation j) }.

Lemma claim_copies j attempt owner now : returns (claim j attempt owner now) (claimed_from j).
Proof.
  unfold claim. cbv zeta. cbn [cj_ID cj_GatewayRead cj_Repository cj_Operation with_owner with_operation].
  do 3 (apply returns_any; intros []). apply (returns_bind _ _ (λ o, op_Type o = op_Type (set_attempt (attempt + 1) (cj_Operation j)))).
  - destruct (_ == _); [apply transitions_type|]. destruct (_ != _); [apply returns_fail|by apply returns_ret].
  - intros o Ho. do 6 (apply returns_any; intros ?). by apply returns_ret.
Qed.

(** A job that borrows an admission is a snapshot's. *)
Definition read_typed (j : CredentialJob) : Prop := is_some (cj_GatewayRead j) = true → snapshot_type (op_Type (cj_Operation j)) = true.

Lemma binding_typed j : returns (ensureReadJobBinding j) (λ _, read_typed j).
Proof.
  unfold ensureReadJobBinding, read_typed. destruct (cj_GatewayRead j) as [read|]; [|intros w d; by apply (wp_mono _ (λ _ _ _, True))].
  destruct (cj_Repository j); [|apply returns_fail]. destruct (snapshot_type _); [|apply returns_fail]. intros w d. by apply (wp_mono _ (λ _ _ _, True)).
Qed.

(** What a claim returns comes from its row, by the locks of its operation. *)
Lemma Claim_from role owner (Q : CredentialJob → Prop) d :
  (∀ t row j, next_job t d = Some row → cj_ID j = jr_ID row → locked (jr_OperationID row) (jr_GatewayRead row) j d →
     ∀ x, claimed_from j x → read_typed j → Q x) →
  wp (ClaimCredentialJob role owner) (λ r _ _, ∀ x, r = Ok x → Q x) d d.
Proof.
  intros HQ. unfold ClaimCredentialJob. destruct (_ == _); [by apply wp_fail|]. apply wp_bind, wp_select; [done|]. intros t.
  destruct (next_job t d) as [row|] eqn:Hn; [|by apply wp_fail]. apply wp_bind.
  eapply wp_yields; [apply (yields_lock_operation _ _ _ _ _ _ _ (λ j w, w = d ∧ cj_ID j = jr_ID row ∧ locked (jr_OperationID row) (jr_GatewayRead row) j d)); by intros|done|].
  intros j w (-> & Hid & Hl).
  assert (Hretire : ∀ x code finish, returns (retire x code finish) Q).
  { intros x code finish. unfold retire. do 2 (apply returns_any; intros ?). apply returns_fail. }
  match goal with |- wp ?m _ d d => assert (Hm : returns m Q); [|apply Hm] end.
  apply returns_any. intros now. eapply returns_bind; [apply returns_attempt, binding_typed|].
  intros [[]|x] Ht; [|destruct (_ || _); [apply returns_fail|apply Hretire]]. destruct (_ <=? _); [apply Hretire|].
  intros w' d'. eapply wp_mono; [|apply claim_copies]. intros r w2 d2 Hr x Hx. eapply HQ; [exact Hn|exact Hid|exact Hl|by apply Hr|by apply (Ht ())].
Qed.

Lemma Claim_reads role owner d : jobs_ok d → wp (ClaimCredentialJob role owner) (λ r _ _, ∀ j, r = Ok j → read_job d j) d d.
Proof.
  intros Hok. apply Claim_from. intros t row j Hn Hid [Ho Hc _ _] x [E1 E2 _ _] _. apply next_job_in in Hn as [_ [id Hrow]].
  destruct (jk_job _ Hok _ _ Hrow) as (<- & _). pose proof (ky_credentials _ (jk_keys _ Hok) _ _ Hc) as Hi.
  unfold read_job. rewrite E1, E2. split; [by rewrite Hi|]. exists row, (cj_Operation j). by rewrite Hid, Hi.
Qed.

Lemma Claim_typed role owner d : wp (ClaimCredentialJob role owner) (λ r _ _, ∀ j, r = Ok j → read_typed j) d d.
Proof.
  apply Claim_from. intros t row j _ _ _ x [_ _ E3 E4] Ht. unfold read_typed in *. by rewrite E3, E4.
Qed.
End Claim.

(** ** The steps of a worker *)

Section Workers.
Context `{U : UuidPkg} `{P : Platform} `{E : Ed25519} `{C : AuditCodec} `{S : StatementCodec} `{N : PendingCodec}.
Context `{AE : AEAD} `{T : TokenCodec} `{W : NetPkg} `{L : Collation} `{LC : ListCodec}.
Context {HU : UuidLaws} {HAE : AEADLaws} {HT : TokenLaws} {HW : NetLaws}.
Variable c : Plane.
Variable role : db_role.
Variable runners : Runners.
Notation key := (cp_masterKey c).

(** What a worker holds. *)
Definition work_ok (d : CentralDb) (w : Work) : Prop :=
  let j := wk_Job w in
  match wk_Phase w with
  | Claimed | Opening => copy_ok (cd_storage d) (cj_Credential j) ∧ lent_job (cj_ID j) (cj_Credential j) d
  | Running (Some (x, previous)) _ _ => lent_row key (cd_storage d) x previous ∧ lent_job (cj_ID j) x d
  | _ => True
  end.

Lemma work_ok_later replace d d' w : works d d' → vault_ok key (cd_storage d) → safe c replace d d' → work_ok d w → work_ok d' w.
Proof using Type.
  intros Hw%works_same_work Hv [_ [_ Hle]]. unfold work_ok. destruct (wk_Phase w) as [| |[[x previous]|] ? ?|]; try done.
  - intros [Hc Hj]. split; [by eapply copy_ok_later|by eapply lent_job_later].
  - intros [Hc Hj]. split; [by eapply copy_ok_later|by eapply lent_job_later].
  - intros [Hc Hj]. split; [by eapply lent_row_later|by eapply lent_job_later].
Qed.

(** A transaction of the store other than the refresh. *)
Definition of_store (x : job_event) : Prop := match x with OnGateway _ | RefreshJob _ _ _ _ _ => False | _ => True end.

Lemma light_safe {A} (m : Tx A) e d : within (light key) m → vault_ok key (cd_storage d) → safe c false d (run_tx m e d).2.
Proof using Type.
  intros Hm Hok. pose proof (within_run _ m e d Hm) as [Hq Ht]. split; [by apply changes_of_quiet|by apply Ht].
Qed.

Lemma of_store_safe x d : of_store x → vault_ok key (cd_storage d) → safe c false d (job_apply c role x d).
Proof using E S N LC role.
  intros Hx Hok. destruct x; cbn [job_apply of_store] in *; try done; apply light_safe; try done.
  - apply light_Enqueue.
  - apply light_EnqueueIndex.
  - apply light_EnqueueList.
  - apply light_Claim.
  - apply light_Renew.
  - apply light_Complete.
  - apply light_CompleteRepository.
  - apply light_FinishList.
  - apply light_FinishIndex.
  - apply light_DeleteExpired.
Qed.

(** What a step that is such a transaction, or none, does. *)
Definition quietly (d d' : CentralDb) : Prop := d' = d ∨ ∃ x, of_store x ∧ d' = job_apply c role x d.

Lemma quietly_works d d' : jobs_ok d → quietly d d' → works d d'.
Proof using Type. intros Hok [->|(x & Hx & ->)]; [apply rtc_refl|]. apply job_works; [done|]. by destruct x. Qed.

Lemma quietly_safe d d' : vault_ok key (cd_storage d) → quietly d d' → safe c false d d'.
Proof using E S N LC role. intros Hok [->|(x & Hx & ->)]; [by apply safe_refl|]. by apply of_store_safe. Qed.

Lemma complete_quietly reader w x e d : quietly d (run_tx (complete role reader w x) e d).2.
Proof using Type.
  right. unfold complete. set (id := cj_ID (wk_Job w)).
  assert (Hlist : ∃ y, of_store y ∧ (run_tx (FinishSnapshotListJob role id (wk_Owner w) (en_Code x) (en_List x)) e d).2 = job_apply c role y d)
    by (by exists (FinishList e id (wk_Owner w) (en_Code x) (en_List x))).
  assert (Hindex : ∃ y, of_store y ∧ (run_tx (FinishSnapshotIndexJob role id (wk_Owner w) (en_Code x) (en_Index x)) e d).2 = job_apply c role y d)
    by (by exists (FinishIndex e id (wk_Owner w) (en_Code x) (en_Index x))).
  destruct reader; [destruct (_ == _); [exact Hindex|exact Hlist]|]. destruct (_ == _); [exact Hlist|]. destruct (_ == _); [exact Hindex|]. destruct (cj_Repository _).
  - by exists (CompleteInitialize e id (wk_Owner w) (en_Code x) (ri_ID (en_Info x)) (ri_FormatVersion (en_Info x))).
  - by exists (CompleteTest e id (wk_Owner w) (en_Code x)).
Qed.

(** *** Steps that hold on *)

(** A step of [w] that leaves it as [w'], if it goes on. *)
Definition steps_to (d : CentralDb) (p : option Work * CentralDb) : Prop :=
  works d p.2 ∧ safe c false d p.2 ∧ ∀ w', p.1 = Some w' → work_ok p.2 w'.

Lemma steps_quietly d p : jobs_ok d → vault_ok key (cd_storage d) → quietly d p.2 → (∀ w', p.1 = Some w' → work_ok p.2 w') → steps_to d p.
Proof using E S N LC role. intros Hj Hv Hq Hw. split_and!; [by apply quietly_works|by apply quietly_safe|done]. Qed.

Lemma read_job_ok d j : vault_ok key (cd_storage d) → read_job d j → copy_ok (cd_storage d) (cj_Credential j) ∧ lent_job (cj_ID j) (cj_Credential j) d.
Proof using Type. intros Hok [Hc Hl]. split; [by eapply read_copy|done]. Qed.

Lemma claim_steps owner e d : jobs_ok d → vault_ok key (cd_storage d) → steps_to d (claim_work c role runners owner e d).
Proof using E S N LC role.
  intros Hj Hv. unfold claim_work. destruct (negb _); [apply steps_quietly; [done|done|by left|done]|].
  pose proof (wp_run _ (λ r _, ∀ j, r = Ok j → read_job d j) e d (Claim_reads role owner d Hj)) as Hr.
  assert (Hq : quietly d (run_tx (ClaimCredentialJob role owner) e d).2) by (right; by exists (Claim e owner)).
  destruct (run_tx _ e d) as [r d']. cbn in *. split_and!; [by apply quietly_works|by apply quietly_safe|].
  destruct r as [j|x]; [|done]. intros w' [= <-]. eapply work_ok_later; [by apply quietly_works|exact Hv|by apply quietly_safe|].
  cbn. by apply read_job_ok, Hr.
Qed.

Lemma claimed_steps w password issued e d :
  jobs_ok d → vault_ok key (cd_storage d) → work_ok d w → wk_Phase w = Claimed → steps_to d (step_claimed c runners w password issued e d).
Proof using E S N LC role.
  intros Hj Hv Hw Hp. unfold work_ok in Hw. rewrite Hp in Hw. unfold step_claimed. destruct (refusal c runners w) as [p|] eqn:Hr.
  - apply steps_quietly; [done|done|by left|]. intros w' [= <-]. unfold refusal in Hr. repeat case_match; simplify_eq; done.
  - assert (Hq : quietly d (run_tx (RenewCredentialJob (cj_ID (wk_Job w)) (wk_Owner w)) e d).2) by (right; by exists (Renew e (cj_ID (wk_Job w)) (wk_Owner w))).
    destruct (run_tx _ e d) as [r d']. cbn in *. split_and!; [by apply quietly_works|by apply quietly_safe|]. cbn.
    assert (Hw' : work_ok d' (at_phase Opening w)) by (eapply work_ok_later; [by apply quietly_works|exact Hv|by apply quietly_safe|done]).
    intros w' H. repeat case_match; simplify_eq; done.
Qed.

(** What was read and opened is lent. *)
Lemma opened_lent d x e raw previous :
  vault_ok key (cd_storage d) → copy_ok (cd_storage d) x → sg_secrets (cd_storage d) !! sc_SecretRef x = Some e →
  openStorageSecret key x e = Some raw → ParseConfig raw (sc_RemoteName x) = Some previous → storageProvider previous = sc_Provider x →
  lent_row key (cd_storage d) x previous.
Proof using HT HW E S N LC role.
  intros Hok (Hr & y & Hy & [Hi Hre Hp Hrev Hsame Hsr Href]) He Hraw Hparse Hprov. exists y. split_and!; [done..|]. intros Heq config Hst.
  assert (Hss : same_secret y x) by (split_and!; symmetry; auto).
  assert (Hst' : stored key (cd_storage d) x config) by (by eapply stores_same).
  eapply openConfig_stored; [exact HT|exact HW|exact Hst'|exact He|]. unfold openConfig. rewrite Hraw. cbn [mbind option_bind]. rewrite Hparse. cbn [mbind option_bind].
  by rewrite bool_decide_eq_true_2.
Qed.

Lemma opening_ok w password e d :
  vault_ok key (cd_storage d) → work_ok d w → wk_Phase w = Opening → work_ok d (step_opening c runners w password e d).
Proof using HT HW E S N LC role.
  intros Hv Hw Hp. unfold work_ok in Hw. rewrite Hp in Hw. destruct Hw as [Hc Hl]. unfold step_opening.
  destruct (run_tx (StorageCredentialSecret _) e d).1 as [env|x] eqn:He; [|done]. apply secret_read in He.
  destruct (openStorageSecret _ _ _) as [raw|] eqn:Hraw; [|done]. destruct (ParseConfig raw _) as [previous|] eqn:Hparse; [|done].
  destruct (_ != _) eqn:Hprov; [done|]. bool_prop. split; [by eapply opened_lent|done].
Qed.

Lemma proceed_steps w password issued e d :
  jobs_ok d → vault_ok key (cd_storage d) → work_ok d w → steps_to d (proceed c role runners w password issued e d).
Proof using HT HW E S N LC role.
  intros Hj Hv Hw. unfold proceed. destruct (wk_Phase w) as [| |lent failed renewErr|reader x] eqn:Hp.
  - by apply claimed_steps.
  - apply steps_quietly; [done|done|by left|]. intros w' [= <-]. by apply opening_ok.
  - apply steps_quietly; [done|done|by left|]. by intros w' [= <-].
  - apply steps_quietly; [done|done|apply complete_quietly|done].
Qed.

Lemma renew_steps w expired e d :
  jobs_ok d → vault_ok key (cd_storage d) → work_ok d w →
  steps_to d (Some (step_renew w expired e d).1, (step_renew w expired e d).2).
Proof using E S N LC role.
  intros Hj Hv Hw.
  assert (Hsame : steps_to d (Some w, d)) by (apply steps_quietly; [done|done|by left|by intros w' [= <-]]).
  unfold step_renew. destruct (wk_Phase w) as [| |lent failed [x|]|reader x] eqn:Hp; try done.
  assert (Hq : quietly d (run_tx (RenewCredentialJob (cj_ID (wk_Job w)) (wk_Owner w)) e d).2) by (right; by exists (Renew e (cj_ID (wk_Job w)) (wk_Owner w))).
  destruct (run_tx _ e d) as [r d']. cbn in *. split_and!; [by apply quietly_works|by apply quietly_safe|].
  assert (Hw' : work_ok d' w) by (eapply work_ok_later; [by apply quietly_works|exact Hv|by apply quietly_safe|done]).
  intros w' [= <-]. destruct r as [[]|x]; [done|]. destruct (_ && _); [done|]. unfold work_ok in *. rewrite Hp in Hw'. done.
Qed.

Lemma refresh_steps w raw env e d :
  jobs_ok d → vault_ok key (cd_storage d) → work_ok d w →
  steps_to d (Some (step_refresh c w raw env e d).1, (step_refresh c w raw env e d).2).
Proof using HAE HT HW E S N LC role.
  intros Hj Hv Hw.
  assert (Hsame : steps_to d (Some w, d)) by (apply steps_quietly; [done|done|by left|by intros w' [= <-]]).
  unfold step_refresh. destruct (wk_Phase w) as [| |[[x previous]|] [failed|] renewErr|reader x] eqn:Hp; try done.
  unfold refresh_job. destruct (ParseConfig raw _) as [next|] eqn:Hraw; [|done]. destruct (negb _) eqn:Hsm; [done|]. apply negb_false_iff in Hsm.
  destruct (sealStorageConfig _ _ _ _) as [sealed|] eqn:Hseal; [|done].
  assert (Hw' := Hw). unfold work_ok in Hw'. rewrite Hp in Hw'. destruct Hw' as [Hrow Hjob].
  set (m := RefreshCredentialJob (cj_ID (wk_Job w)) (wk_Owner w) (sc_SecretRevision x) sealed).
  pose proof (wp_run _ (λ r d', loan_refreshed key (cd_storage d) x next r (cd_storage d')) e d
    (RefreshJob_vault key _ (wk_Owner w) x previous next raw env _ sealed d Hv Hrow Hjob Hraw Hsm Hseal)) as [Hok Hl].
  assert (Hch : changes d (run_tx m e d).2) by (apply changes_of_quiet, (within_run quiet), (quiet_RefreshJob key)).
  assert (Hws : works d (run_tx m e d).2) by (apply (job_works c role (RefreshJob e (cj_ID (wk_Job w)) (wk_Owner w) (sc_SecretRevision x) sealed)); done).
  fold m in Hok, Hl. destruct (run_tx m e d) as [r d']. cbn in *. split_and!; [done|by split|]. intros w' [= <-].
  assert (Hs : safe c false d d') by (by split). destruct r as [saved|y]; [|by eapply work_ok_later].
  destruct (Hl saved eq_refl) as [Hrow' Hid]. cbn. split; [done|].
  eapply lent_job_later; [by apply works_same_work|]. destruct Hjob as (row & o & Hr & Ho & Hc). exists row, o. by rewrite Hid.
Qed.

Lemma return_ok d w o w' : step_return w o = Some w' → work_ok d w → work_ok d w'.
Proof using Type.
  unfold step_return. destruct (wk_Phase w) as [| |lent failed renewErr|reader x] eqn:Hp; try by intros [= <-].
  intros H _. repeat case_match; simplify_eq; done.
Qed.

(** *** Workers *)

Lemma works_later l d d' :
  works d d' → vault_ok key (cd_storage d) → safe c false d d' → Forall (work_ok d) l → Forall (work_ok d') l.
Proof using Type. intros Hw Hv Hs. intros Hl. eapply Forall_impl; [exact Hl|]. intros w. by eapply work_ok_later. Qed.

Lemma set_work_ok d i w l : Forall (work_ok d) l → (∀ w', w = Some w' → work_ok d w') → Forall (work_ok d) (set_work i w l).
Proof using Type. intros Hl Hw. destruct w as [w|]; [apply Forall_insert; [done|by apply Hw]|by apply Forall_delete]. Qed.

Lemma work_step x l d :
  jobs_ok d → vault_ok key (cd_storage d) → Forall (work_ok d) l →
  let p := work_apply c role runners x l d in works d p.2 ∧ safe c false d p.2 ∧ Forall (work_ok p.2) p.1.
Proof using HAE HT HW E S N LC role.
  intros Hj Hv Hl.
  assert (Hsame : works d d ∧ safe c false d d ∧ Forall (work_ok d) l) by (split_and!; [apply rtc_refl|by apply safe_refl|done]).
  assert (Hset : ∀ i p, steps_to d p → works d p.2 ∧ safe c false d p.2 ∧ Forall (work_ok p.2) (set_work i p.1 l)).
  { intros i p (Hw & Hs & Hk). split_and!; [done|done|]. apply set_work_ok; [by eapply works_later|done]. }
  destruct x as [owner e|i password issued e|i expired e|i raw env e|i o]; cbn [work_apply].
  - pose proof (claim_steps owner e d Hj Hv) as (Hw & Hs & Hk). destruct (claim_work _ _ _ _ _ _) as [[w|] d']; cbn in *; split_and!; try done.
    + apply Forall_app. split; [by eapply works_later|]. apply Forall_singleton. by apply Hk.
    + by eapply works_later.
  - destruct (l !! i) as [w|] eqn:Hi; [|done]. pose proof (Hset i _ (proceed_steps w password issued e d Hj Hv (Forall_lookup_1 _ _ _ _ Hl Hi))) as H.
    by destruct (proceed _ _ _ _ _ _ _ _) as [w' d'].
  - destruct (l !! i) as [w|] eqn:Hi; [|done]. pose proof (Hset i _ (renew_steps w expired e d Hj Hv (Forall_lookup_1 _ _ _ _ Hl Hi))) as H.
    by destruct (step_renew _ _ _ _) as [w' d'].
  - destruct (l !! i) as [w|] eqn:Hi; [|done]. pose proof (Hset i _ (refresh_steps w raw env e d Hj Hv (Forall_lookup_1 _ _ _ _ Hl Hi))) as H.
    by destruct (step_refresh _ _ _ _ _ _) as [w' d'].
  - destruct (l !! i) as [w|] eqn:Hi; [|done]. cbn. split_and!; [apply rtc_refl|by apply safe_refl|]. apply set_work_ok; [done|].
    intros w' Hw'. eapply return_ok; [exact Hw'|]. by eapply Forall_lookup_1.
Qed.
End Workers.

(** ** The management of credentials leaves jobs alone *)

Section Calls.
Context `{U : UuidPkg} `{P : Platform} `{C : AuditCodec} `{AE : AEAD} `{T : TokenCodec} `{W : NetPkg} `{L : Collation}.
Variable c : Plane.

Lemma settled_on_storage f :
  (∀ g g', f g = Some g' → (∀ id x, sg_credentials g !! id = Some x → sc_ID x = id) → ∀ id x, sg_credentials g' !! id = Some x → sc_ID x = id) →
  within settled (exec (λ _, on_storage f)).
Proof using Type.
  intros Hf. apply within_exec; [exact _|]. intros _ d d' H. unfold on_storage in H. destruct (f _) as [g|] eqn:Hg; [|done]. injection H as <-.
  apply settled_storage. intros Hk. by eapply Hf.
Qed.

Lemma put_keyed x g g' id y :
  put_credential x g = Some g' → (∀ id x, sg_credentials g !! id = Some x → sc_ID x = id) → sg_credentials g' !! id = Some y → sc_ID y = id.
Proof using Type.
  unfold put_credential. destruct (credential_check x g); [|done]. intros [= <-] Hk. cbn. intros [[<- <-]|[_ Hy]]%lookup_insert_Some; [done|by apply Hk].
Qed.

Lemma settled_save x expected secret audit : within settled (SaveStorageCredential x expected secret audit).
Proof using Type.
  unfold SaveStorageCredential, scanCredential, ensureNoBackupAdmission.
  assert (Hsecret : ∀ e, within settled (exec (λ _, on_storage (insertSecret e)))).
  { intros e. apply settled_on_storage. intros g g' H. by rewrite (insertSecret_credentials _ _ _ H). }
  assert (Hrev : ∀ id r e, within settled (exec (λ _, on_storage (insert_revision id r e)))).
  { intros id r e. apply settled_on_storage. intros g g' H. by rewrite (insert_revision_credentials _ _ _ _ _ H). }
  assert (Hup : within settled (exec (λ _, on_storage (update_credential x (is_some secret))))).
  { apply settled_on_storage. intros g g' H Hk id y. unfold update_credential in H. destruct (sg_credentials g !! sc_ID x); [|injection H as <-; apply Hk].
    by eapply put_keyed. }
  assert (Hin : within settled (exec_unique ErrAlreadyExists (credential_exists x) (λ _, on_storage (insert_credential x)))).
  { apply within_exec_unique; [exact _|]. intros _ d d' H. unfold on_storage in H. destruct (insert_credential x _) as [g|] eqn:Hg; [|done]. injection H as <-.
    apply settled_storage. intros Hk id y. unfold insert_credential in Hg. by eapply put_keyed. }
  repeat first [apply Hsecret|apply Hrev|apply Hup|apply Hin|within_head].
Qed.

Lemma calm_RecordDenied {A} action reason meta cause e d : calm d (denied (A := A) action reason meta cause e d).2.
Proof using Type.
  unfold denied. pose proof (calm_denied (ce_clock e) action "STORAGE_CREDENTIAL" reason meta (ce_denied e) d) as H. by destruct (run_tx _ _ d).
Qed.

Lemma calm_admin actor meta e d : calm d (requireStorageAdmin c actor meta e d).2.
Proof using Type. unfold requireStorageAdmin. destruct (_ != RoleAdmin); [apply calm_RecordDenied|]. by destruct (_ != 32). Qed.

(** Audit, then save. *)
Lemma calm_saved {R} audit x expected secret e d (f : result dberr StorageCredential → R) :
  within settled audit → calm d (let '(r, d') := run_tx (let* a := audit in SaveStorageCredential x expected secret a) e d in (f r, d')).2.
Proof using Type.
  intros Ha. assert (H : calm d (run_tx (let* a := audit in SaveStorageCredential x expected secret a) e d).2).
  { apply calm_tx, within_bind; [exact _|done|]. intros a. apply settled_save. }
  by destruct (run_tx _ _ d).
Qed.

Lemma calm_saveConfig x revision config actor meta action e d : calm d (saveStorageConfig c x revision config actor meta action e d).2.
Proof using Type.
  unfold saveStorageConfig. destruct (sealStorageConfig _ _ _ _); [|done]. cbv zeta. apply calm_saved, within_userAudit; exact _.
Qed.

Lemma calm_Create name remote raw actor meta e d : calm d (CreateStorageCredential c name remote raw actor meta e d).2.
Proof using Type.
  unfold CreateStorageCredential. pose proof (calm_admin actor meta e d) as Ha. destruct (requireStorageAdmin _ _ _ _ _) as [[[]|x] d1]; [|done]. cbn in Ha.
  cbv zeta. destruct (negb _); [done|]. etrans; [exact Ha|]. destruct (ParseConfig _ _); [|apply calm_RecordDenied]. destruct (ce_id e); [|done]. apply calm_saveConfig.
Qed.

Lemma calm_Replace_read id revision raw actor meta e d : calm d (ReplaceStorageCredential_read c id revision raw actor meta e d).2.
Proof using Type.
  unfold ReplaceStorageCredential_read. pose proof (calm_admin actor meta e d) as Ha. destruct (requireStorageAdmin _ _ _ _ _) as [[[]|x] d1]; [|done].
  cbn in Ha. etrans; [exact Ha|]. destruct (run_tx _ _ d1).1 as [x|x]; [|done]. destruct (_ != _); [done|]. destruct (_ == _); [done|].
  destruct (ParseConfig _ _); [|apply calm_RecordDenied].
  match goal with |- context [run_tx ?m ?t d1] => assert (Hs : calm d1 (run_tx m t d1).2) by
    (apply calm_tx, within_bind; [exact _|apply within_userAudit; exact _|intros a; unfold RecordAudit; stays]); by destruct (run_tx m t d1) end.
Qed.

Lemma calm_Replace_save x next actor meta e d : calm d (ReplaceStorageCredential_save c x next actor meta e d).2.
Proof using Type.
  unfold ReplaceStorageCredential_save. destruct (run_tx _ _ d).1; [|done]. destruct (openConfig _ _ _); [|done].
  destruct (negb _); [apply calm_RecordDenied|apply calm_saveConfig].
Qed.

Lemma calm_Disable_read id revision actor meta e d : calm d (DisableStorageCredential_read c id revision actor meta e d).2.
Proof using Type.
  unfold DisableStorageCredential_read. pose proof (calm_admin actor meta e d) as Ha. destruct (requireStorageAdmin _ _ _ _ _) as [[[]|x] d1]; [|done].
  cbn in Ha. destruct (run_tx _ _ d1).1 as [x|x]; [|done]. by destruct (_ != _).
Qed.

Lemma calm_Disable_save x actor meta e d : calm d (DisableStorageCredential_save x actor meta e d).2.
Proof using Type. unfold DisableStorageCredential_save. apply calm_saved, within_userAudit; exact _. Qed.

Lemma calm_Lend id owner e d : calm d (WithBackupMaterial c id owner e d).2.
Proof using Type.
  unfold WithBackupMaterial. destruct (_ || _); [done|]. cbv zeta.
  match goal with |- context [run_tx ?m ?t d] => assert (Hs : calm d (run_tx m t d).2) by (apply calm_tx; by stays); by destruct (run_tx m t d) end.
Qed.

Lemma calm_persist id owner hash x previous raw live env e d : calm d (persist c id owner hash x previous raw live env e d).2.
Proof using Type.
  unfold persist. destruct (negb live); [done|]. destruct (ParseConfig _ _); [|done]. destruct (negb _); [done|]. destruct (_ == _); [done|].
  destruct (sealStorageConfig _ _ _ _); [|done].
  match goal with |- context [run_tx ?m ?t d] => pose proof (calm_tx m t d (settled_Refresh _ _ _ _ _)) as Hs; by destruct (run_tx m t d) end.
Qed.
End Calls.
