(* ===== verification/JobSafety.v ===== *)
(** * JobSafety: what holds of operations and jobs

    In every history of the Gateway's calls and the transactions on jobs: who may
    use a storage credential, the history of an operation, its one job, the lease
    a worker needs, the memory of requests, and what the server's role may not do. *)

From S2P Require Import Prelude GoStd Uuid Platform Domain GatewaySession GatewayAuth AuditChain PendingRecord CentralTx CentralStore.
From S2P Require Import RcloneConfig StorageSecret CentralTrace CentralRefine CentralFrame CentralPlane CentralHistory CentralJobs JobSpec JobRefine JobTrace.
From S2P Require Import JobHistory.
Import Domain.Operation (ValidateOperationTransition, OperationTerminal, history).
Open Scope Z_scope.
Open Scope go_scope.
Open Scope central_scope.

(** ** Numbered histories *)

Lemma linked_numbered n from l to i ev : linked n from l to → l !! i = Some ev → ev_Sequence ev = n + Z.of_nat i + 1.
Proof.
  revert n from i. induction l as [|x l IH]; intros n from [|i]; cbn [linked]; [done..| |].
  - intros (Hx & _) [= <-]. lia.
  - intros (_ & _ & _ & Hl) Hi. rewrite (IH _ _ _ Hl Hi). lia.
Qed.

Lemma linked_adjacent n from l to i a b : linked n from l to → l !! i = Some a → l !! S i = Some b → ev_From b = ev_To a.
Proof.
  revert n from i. induction l as [|x l IH]; intros n from [|i]; cbn [linked]; [done..| |].
  - intros (_ & _ & _ & Hl) [= <-] Hb. destruct l as [|y l]; [done|]. cbn in Hb. injection Hb as <-. by destruct Hl as (_ & ? & _).
  - intros (_ & _ & _ & Hl). by apply IH with (1 := Hl).
Qed.

Section Safety.
Context `{U : UuidPkg} `{P : Platform} `{E : Ed25519} `{C : AuditCodec} `{S : StatementCodec} `{N : PendingCodec}.
Context `{AE : AEAD} `{T : TokenCodec} `{W : NetPkg} `{LC : ListCodec}.
Variable c : Plane.
Variable role : db_role.
Notation job_reachable := (job_reachable c role).

(** C12: one user of a storage credential. However the calls of Gateways, the
    transactions on jobs and their failures interleave, two unfinished operations
    never use the same storage credential, and an unfinished operation that does
    not borrow an admission never shares its credential with an admission that is
    not released. *)
Theorem operations_exclusive (d : CentralDb) :
  job_reachable d →
  (∀ i j x y, unfinished i x d → unfinished j y d → op_StorageCredentialID x = op_StorageCredentialID y → i = j) ∧
  (∀ i j o id a, jobs d !! i = Some j → jr_GatewayRead j = None → unfinished (jr_OperationID j) o d → unreleased id a d →
     ba_StorageCredentialID a ≠ op_StorageCredentialID o).
Proof using Type. intros Hok%reachable_jobs_ok. split; [apply Hok|apply Hok]. Qed.

(** The events of an operation are its history. They are numbered from 1
    without gaps, each starts where the one before it ended, the first queues the
    operation, their statuses follow the transitions of the domain, the last is
    the operation's status, and the operation has an end time exactly when that
    status is terminal. *)
Theorem operation_history (d : CentralDb) (id : uuid) (o : Operation) :
  job_reachable d → operations d !! id = Some o →
  let l := events_for id (events d) in
  (∀ i ev, l !! i = Some ev → ev_Sequence ev = Z.of_nat i + 1) ∧
  (∀ i a b, l !! i = Some a → l !! Datatypes.S i = Some b → ev_From b = ev_To a) ∧
  (ev_To <$> head l) = Some "QUEUED" ∧ history (ev_To <$> l) ∧ last (ev_To <$> l) = Some (op_Status o) ∧
  (op_FinishedAt o = None ↔ OperationTerminal (op_Status o) = false).
Proof using Type.
  intros Hok%reachable_jobs_ok Ho l. destruct (jk_operation _ Hok _ _ Ho) as (_ & Hf & Hl). fold l in Hl.
  destruct (jk_served _ Hok _ _ Ho) as (i & j & Hj & <-). destruct (jk_job _ Hok _ _ Hj) as (_ & x & Hx & _ & _ & Hst).
  assert (x = o) as -> by congruence.
  destruct (first_queued _ _ Hl) as (ev & rest & Hr & Hq & Hh & Hlast).
  { destruct Hst as [(_ & -> & _)|[(_ & -> & _)|(_ & Ht)]]; [done..|]. by intros Hs; rewrite Hs in Ht. }
  split_and!; [..|done|done|done].
  - intros n e Hn. by rewrite (linked_numbered _ _ _ _ _ _ Hl Hn).
  - intros n a b. by apply linked_adjacent with (1 := Hl).
  - by rewrite Hr, <- Hq.
Qed.

(** No operation is stranded. Every operation has exactly one job, which is
    ready while the operation is queued, leased while it runs, and done or dead
    once it has ended, and which has been attempted at most three times. *)
Theorem operation_served (d : CentralDb) (id : uuid) (o : Operation) :
  job_reachable d → operations d !! id = Some o →
  ∃ j, jobs d !! jr_ID j = Some j ∧ jr_OperationID j = id ∧ job_state j o ∧
    ∀ i x, jobs d !! i = Some x → jr_OperationID x = id → i = jr_ID j ∧ x = j.
Proof using Type.
  intros Hok%reachable_jobs_ok Ho. destruct (jk_served _ Hok _ _ Ho) as (i & j & Hj & Hid).
  destruct (jk_job _ Hok _ _ Hj) as (<- & x & Hx & Hst). rewrite Hid in Hx. assert (x = o) as -> by congruence.
  exists j. split_and!; [done..|]. intros i x Hi Hx'. assert (i = jr_ID j) as -> by (eapply (jk_unique _ Hok); [exact Hi|exact Hj|congruence]).
  split; [done|congruence].
Qed.

(** C29: the transactions on jobs implement their specification. Whatever
    transactions run from a database that a history reaches, with whatever
    statements failing and commits lost, the database changes only by the steps
    of [job_step]: an admission or an operation on a free credential, a claim of
    a job that is ready or whose lease has run out at a reading of the clock the
    specification leaves open, and a renewal, a refresh or the one end of an
    operation together with its job. *)
Theorem jobs_refine_spec (d : CentralDb) (xs : list job_event) :
  job_reachable d → job_permitted c role xs d → works d (job_run c role xs d).
Proof using Type. intros Hok%reachable_jobs_ok. by apply run_works. Qed.

(** ** Leases *)

(** The worker of a transaction: its job and its name. *)
Definition worker (x : job_event) : option (TxEnv * uuid * uuid) :=
  match x with
  | Renew e id owner | RefreshJob e id owner _ _ | CompleteTest e id owner _ | CompleteInitialize e id owner _ _ _
  | FinishList e id owner _ _ | FinishIndex e id owner _ _ => Some (e, id, owner)
  | _ => None
  end.

(** Whether the job is leased to the worker when the transaction first looks. *)
Definition leased_to (e : TxEnv) (id owner : uuid) (d : CentralDb) : bool :=
  match jobs d !! id with Some j => (jr_Status j == "LEASED") && job_held owner (tx_clock e 0) j | None => false end.

Lemma lock_lost e id owner d :
  leased_to e id owner d = false → ∃ x ab n, lockCredentialJob id owner e (mkTx d d false 0) = (Err x, mkTx d d ab n).
Proof using Type.
  unfold leased_to. intros Hl. unfold lockCredentialJob, select, stmt, tbind at 1. cbn [tx_aborted tx_count tx_work tx_committed orb].
  destruct (tx_fault e 0); [by do 3 eexists|]. destruct (jobs d !! id) as [j|]; [rewrite Hl|]; by do 3 eexists.
Qed.

Lemma run_lost {A} (k : CredentialJob → Tx A) e id owner d :
  leased_to e id owner d = false → (run_tx (let* j := lockCredentialJob id owner in k j) e d).2 = d.
Proof using Type. intros (x & ab & n & Hx)%lock_lost. unfold run_tx, tbind at 1. by rewrite Hx. Qed.

(** A worker without the lease does nothing. A transaction of a worker on a
    job that is not leased to it when the transaction starts, because another
    worker has claimed it, the lease has run out or the job has ended, leaves
    the database as it is. *)
Theorem only_the_holder_works (x : job_event) (e : TxEnv) (id owner : uuid) (d : CentralDb) :
  worker x = Some (e, id, owner) → leased_to e id owner d = false → job_apply c role x d = d.
Proof using Type.
  intros Hw Hl. destruct x; cbn [worker] in Hw; simplify_eq; cbn [job_apply].
  - unfold RenewCredentialJob. by apply run_lost.
  - unfold RefreshCredentialJob. by apply run_lost.
  - unfold CompleteCredentialJob. destruct (negb _); [done|]. by apply run_lost.
  - unfold CompleteRepositoryJob. destruct (_ || _); [done|]. by apply run_lost.
  - unfold FinishSnapshotListJob. destruct (negb _); [done|]. by apply run_lost.
  - unfold FinishSnapshotIndexJob. destruct (negb _); [done|]. by apply run_lost.
Qed.

(** ** What the server's role may not do *)

(** [m] never returns, and commits nothing. *)
Definition fruitless {A} (m : Tx A) : Prop := ∀ w, yields m w (λ _ _, False).
(** [m] commits nothing. *)
Definition plain {A} (m : Tx A) : Prop := ∀ w, yields m w (λ _ _, True).

Lemma plain_calm {A} (m : Tx A) : calmly m → plain m.
Proof using Type. intros Hm w. by eapply yields_mono; [apply Hm|]. Qed.

Lemma fruitless_run {A} (m : Tx A) e d : fruitless m → ∃ x, run_tx m e d = (Err x, d).
Proof using Type.
  intros Hm. pose proof (wp_run m (λ r d', d' = d ∧ ∀ a, r ≠ Ok a) e d) as H. destruct (run_tx m e d) as [r d']. cbn in H.
  destruct H as [-> Hr]; [|destruct r as [a|x]; [by destruct (Hr a)|by exists x]].
  eapply wp_mono; [|apply (Hm d d)]. intros r' w' c' [-> Hf]. split; [done|]. intros a ->. by apply (Hf a).
Qed.

Lemma fruitless_tail {A B} (m : Tx A) (k : A → Tx B) : plain m → (∀ a, fruitless (k a)) → fruitless (tbind m k).
Proof using Type. intros Hm Hk w. apply yields_bind. eapply yields_mono; [apply Hm|]. intros a w' _. apply Hk. Qed.

Lemma fruitless_head {A B} (m : Tx A) (k : A → Tx B) : fruitless m → fruitless (tbind m k).
Proof using Type. intros Hm w. apply yields_bind. eapply yields_mono; [apply Hm|]. by intros a w'. Qed.

Lemma fruitless_fail {A} x : fruitless (tfail (A := A) x).
Proof using Type. intros w. apply yields_fail. Qed.

Lemma plain_transition o to now : plain (transitionOperation o to now).
Proof using Type.
  intros w. unfold transitionOperation, recordOperationEvent. cbv zeta. repeat (yield; try done; apply yields_exec; intros). Qed.

Lemma plain_finishJobRow j to now : plain (finishJobRow j to now).
Proof using Type. intros w. unfold finishJobRow. cbv zeta. yield. apply yields_stmt. intros. by yield. Qed.

Lemma plain_lock id owner : plain (lockCredentialJob id owner).
Proof using Type. intros w. by apply yields_lockCredentialJob. Qed.

(** The lease of the repository cannot be deleted, so no read ends. *)
Lemma app_finishes_no_read j to now : fruitless (finishSnapshotReadJob restfleet_app j to now).
Proof using Type.
  unfold finishSnapshotReadJob. destruct (cj_Repository j); [|apply fruitless_fail]. destruct (negb _); [apply fruitless_fail|].
  apply fruitless_tail; [apply plain_transition|]. intros o. cbv zeta. do 3 (apply fruitless_tail; [apply plain_calm; calmly|intros ?]).
  apply fruitless_tail; [apply plain_finishJobRow|]. intros [] w. by apply yields_exec.
Qed.

Lemma fruitless_retire j code finish : (∀ j', fruitless (finish j')) → fruitless (retire j code finish).
Proof using Type. intros Hf. unfold retire. apply fruitless_head, Hf. Qed.

(** A transaction's first query. *)
Lemma run_select {A B} (f : time → CentralDb → A) (k : A → Tx B) e d :
  yields (k (f (tx_clock e 0) d)) d (λ _ _, False) → ∃ x, run_tx (let* a := select f in k a) e d = (Err x, d).
Proof using Type.
  intros Hk. unfold run_tx, tbind at 1, select, stmt. cbn [tx_aborted tx_count tx_work tx_committed orb].
  destruct (tx_fault e 0); [by eexists|]. pose proof (Hk d e false 1%nat) as [Hc Hr]. destruct (k _ _ _) as [r s]. cbn in *. subst.
  destruct r as [a|x]; [by destruct (Hr a)|by exists x].
Qed.

(** C30: as the role the server connects with, reads of a repository never end.
    The transaction that finishes a listing or an index of snapshots deletes the
    repository's lease, which [restfleet_app] is not granted: it always fails and
    changes nothing. A claim that meets such a job with its attempts used up at
    the head of the queue fails in the same way, so that no other job is ever
    claimed while it is there. *)
Theorem app_never_finishes_reads (e : TxEnv) (id owner : uuid) (code : string) (d : CentralDb) :
  (∀ r, ∃ x, run_tx (FinishSnapshotListJob restfleet_app id owner code r) e d = (Err x, d)) ∧
  (∀ entries, ∃ x, run_tx (FinishSnapshotIndexJob restfleet_app id owner code entries) e d = (Err x, d)) ∧
  (∀ row o, next_job (tx_clock e 0) d = Some row → operations d !! jr_OperationID row = Some o → snapshot_type (op_Type o) = true →
     jr_MaxAttempts row ≤ jr_Attempt row → ∃ x, run_tx (ClaimCredentialJob restfleet_app owner) e d = (Err x, d)).
Proof using Type.
  split_and!.
  - intros r. apply fruitless_run. unfold FinishSnapshotListJob. destruct (negb _); [apply fruitless_fail|].
    apply fruitless_tail; [apply plain_lock|]. intros j. destruct (cj_Repository j); [|apply fruitless_fail].
    destruct (_ != _); [apply fruitless_fail|]. apply fruitless_tail; [apply plain_calm; calmly|]. intros now.
    apply fruitless_tail; [apply plain_calm, calmly_read_code|]. intros code'.
    apply fruitless_tail; [apply plain_calm; destruct (_ == _); [apply calmly_store_page|calmly]|]. intros []. cbv zeta.
    apply fruitless_head, app_finishes_no_read.
  - intros entries. apply fruitless_run. unfold FinishSnapshotIndexJob. destruct (negb _); [apply fruitless_fail|].
    apply fruitless_tail; [apply plain_lock|]. intros j. destruct (cj_Repository j); [|apply fruitless_fail].
    destruct (_ != _); [apply fruitless_fail|]. apply fruitless_tail; [apply plain_calm; calmly|]. intros now.
    apply fruitless_tail; [apply plain_calm, calmly_read_code|]. intros code'.
    apply fruitless_tail; [apply plain_calm; destruct (_ == _); [apply calmly_store_index|calmly]|]. intros []. cbv zeta.
    apply fruitless_head, app_finishes_no_read.
  - intros row o Hrow Ho Ht Hat. unfold ClaimCredentialJob. destruct (_ == _); [by eexists|]. apply run_select. rewrite Hrow.
    apply yields_bind, yields_lock_operation. intros j _ _ Hl. pose proof (lk_operation _ _ _ _ Hl) as Hj.
    assert (cj_Operation j = o) as Hjo by congruence. clear Hl Hj. revert d Hrow Ho. intros w _ _.
    apply (fruitless_tail clock_timestamp); [apply plain_calm; calmly|]. intros now.
    apply (fruitless_tail (tattempt _)); [apply plain_calm, calmly_bound|]. intros [[]|x].
    + rewrite (proj2 (Z.leb_le _ _) Hat). unfold retire. apply fruitless_head. unfold finishCredentialJob.
      cbn [cj_Operation with_operation with_code op_Type]. rewrite Hjo, Ht. apply app_finishes_no_read.
    + destruct (_ || _); [apply fruitless_fail|]. apply fruitless_retire. intros j'. apply app_finishes_no_read.
Qed.

(** ** Requests that are repeated *)

(** The memory of requests, and what it refers to. *)
Definition ledger (d : CentralDb) : gmap uuid Operation * gmap (string * string) IdempotencyRow := (operations d, fl_idempotency (cd_fleet d)).
#[local] Instance ledger_aside : Asideable (kept ledger).
Proof using Type. intros d d' [_ Hf _]. unfold kept, ledger. by rewrite Hf. Qed.

Lemma yields_kept {A} (m : Tx A) w : within (kept ledger) m → plain m → yields m w (λ _ w', ledger w' = ledger w).
Proof using Type.
  intros Hk Hp c0. eapply wp_mono; [|apply wp_conj; [apply (Hk w c0)|apply (Hp w c0)]]. intros r w' c' [[Hw _] [-> _]]. split; [done|]. by intros.
Qed.

Lemma plain_event o from now : plain (recordOperationEvent o from now).
Proof using Type. intros w. unfold recordOperationEvent. repeat (yield; try done; apply yields_exec; intros). Qed.

Lemma ledger_credential id f : within (kept ledger) (exec (λ _, alter_credential id f)).
Proof using Type. stays. unfold alter_credential. cbv zeta. by open_row. Qed.
Lemma ledger_initialize id o : within (kept ledger) (exec (λ _, last_initialize id o)).
Proof using Type. stays. unfold last_initialize. by open_row. Qed.
Lemma ledger_event o from now : within (kept ledger) (recordOperationEvent o from now).
Proof using Type. unfold recordOperationEvent. stays; unfold insert_event; by open_row. Qed.

(** The request is remembered with the operation [o']. *)
Definition remembers (scope key request : string) (o' : Operation) (d : CentralDb) : Prop :=
  ∃ row, fl_idempotency (cd_fleet d) !! (scope, key) = Some row ∧ ir_RequestHash row = request ∧ operations d !! ir_ResourceID row = Some o'.

Lemma remembers_kept scope key request o' d d' : ledger d' = ledger d → remembers scope key request o' d → remembers scope key request o' d'.
Proof using Type. intros [= Ho Hi]. unfold remembers. by rewrite Ho, Hi. Qed.

Lemma remember_remembers scope key request o d d' :
  operations d !! op_ID o = Some o → remember scope key request o d = Some d' → remembers scope key request o d'.
Proof using Type.
  intros Ho. unfold remember. rewrite Ho. intros [= <-]. eexists. split; [apply lookup_insert_eq|]. by split.
Qed.

Lemma Enqueue_remembers o scope key request audit d :
  wp (EnqueueStorageOperation o scope key request audit) (λ r _ c', ∀ o', r = Ok o' → remembers scope key request o' c') d d.
Proof using Type.
  unfold EnqueueStorageOperation. destruct (_ || _); [by apply wp_fail|]. apply wp_bind, wp_select; [done|]. intros _.
  apply wp_bind, wp_select; [done|]. intros t. destruct (remembered scope key t d) as [row|] eqn:Hrow.
  - destruct (_ != _) eqn:Hreq; [by apply wp_fail|]. bool_prop. unfold scanOperation. apply wp_bind, wp_bind, wp_select; [done|]. intros _.
    destruct (operations d !! _) as [x|] eqn:Hx; [|by apply wp_fail]. apply wp_ret, wp_bind, wp_commit; [done|done|]. apply wp_ret.
    intros o' [= <-]. exists row. split_and!; [|done|done]. unfold remembered in Hrow. destruct (_ !! _) as [r|]; [|done].
    destruct (_ <? _); [|done]. exact Hrow.
  - apply wp_bind. eapply wp_yields; [apply plain_calm|done|].
    { destruct (op_RepositoryID o); [|calmly]. apply calmly_bind; [apply calmly_lockRepository|]. intros [repo [x|]]; calmly. }
    intros credential w1 _. apply wp_bind.
    eapply wp_yields; [apply (yields_insert _ _ _ (λ o' w, operations w !! op_ID o' = Some o')); intros o' w _ [_ Hops _ _] _; by rewrite Hops, lookup_insert_eq|done|].
    intros o' w2 H2. apply wp_bind. eapply wp_yields; [apply (yields_newV7 _ (λ _ w, w = w2)); done|done|]. intros job w ->.
    apply wp_bind. eapply wp_yields; [apply (yields_exec _ _ (λ _ w, operations w !! op_ID o' = Some o')); intros _ w Hw;
      apply insert_job_inv in Hw as (_ & _ & ->); exact H2|done|]. intros [] w3 H3.
    apply wp_bind. eapply wp_yields; [apply (yields_exec _ _ (λ _, remembers scope key request o')); intros _ w; by apply remember_remembers|done|]. intros [] w4 H4.
    apply wp_bind. eapply wp_yields; [apply yields_kept; [destruct (op_RepositoryID o'); [apply ledger_initialize|apply ledger_credential]|]|done|].
    { apply plain_calm. destruct (op_RepositoryID o'); [apply calmly_last_initialize|by apply calmly_credential]. }
    intros [] w5 H5. apply wp_bind. eapply wp_yields; [apply yields_kept; [apply ledger_event|apply plain_event]|done|]. intros [] w6 H6.
    apply wp_bind. eapply wp_yields; [apply yields_kept; [stays|apply plain_calm; calmly]|done|]. intros [] w7 H7.
    apply wp_bind, wp_commit; [done|done|]. apply wp_ret. intros ? [= <-].
    eapply remembers_kept; [exact H7|]. eapply remembers_kept; [exact H6|]. by eapply remembers_kept.
Qed.

(** A request that is remembered is answered from memory. *)
Lemma Enqueue_again o scope key request request' audit o' e d :
  remembers scope key request' o' d → remembered scope key (tx_clock e 1) d = fl_idempotency (cd_fleet d) !! (scope, key) →
  let p := run_tx (EnqueueStorageOperation o scope key request audit) e d in
  p.2 = d ∧ (∀ x, p.1 = Ok x → request = request' ∧ x = o') ∧
  (request = request' → slen scope = 32 → slen key = 32 → slen request = 32 → (∀ n, tx_fault e n = false) → (∀ n, tx_commit e n = Committed) →
   p.1 = Ok o').
Proof using Type.
  intros (row & Hrow & Hreq & Ho) Hmem. rewrite Hrow in Hmem. unfold EnqueueStorageOperation, scanOperation. cbv zeta.
  destruct (_ || _) eqn:Hlen.
  { split_and!; [done|done|]. intros -> Hs Hk Hr. by rewrite Hs, Hk, Hr in Hlen. }
  unfold run_tx, tbind, select, stmt, commit, tret, tfail. cbn [tx_aborted tx_count tx_work tx_committed orb].
  destruct (tx_fault e 0) eqn:H0; [by split_and!; [..|intros _ _ _ _ Hf; rewrite Hf in H0]|]. cbn [tx_aborted tx_count tx_work tx_committed orb].
  destruct (tx_fault e 1) eqn:H1; [by split_and!; [..|intros _ _ _ _ Hf; rewrite Hf in H1]|]. cbn [tx_aborted tx_count tx_work tx_committed orb].
  rewrite Hmem. destruct (ir_RequestHash row != request) eqn:Hne; [split_and!; [done|done|intros ->; by bool_prop]|].
  cbn [tx_aborted tx_count tx_work tx_committed orb].
  destruct (tx_fault e 2) eqn:H2; [by split_and!; [..|intros _ _ _ _ Hf; rewrite Hf in H2]|]. cbn [tx_aborted tx_count tx_work tx_committed orb].
  rewrite Ho. cbn [tx_aborted tx_count tx_work tx_committed orb]. bool_prop.
  destruct (tx_commit e 3) eqn:Hcm; cbn.
  - split_and!; [done| |done]. intros ? [= <-]. by split; [congruence|].
  - by split_and!; [..|intros _ _ _ _ _ Hc; rewrite Hc in Hcm].
  - by split_and!; [..|intros _ _ _ _ _ Hc; rewrite Hc in Hcm].
Qed.

(** A request is carried out once. After an operation was queued, or was
    found queued, for a request, the same request answers with the same
    operation as long as it is remembered, which is a day, and with nothing
    else; another request under the same key is refused; and neither changes the
    database. *)
Theorem enqueue_idempotent (e e' : TxEnv) (o o2 o' : Operation) (scope key request request2 : string) (audit audit2 : AuditEvent) (d d' : CentralDb) :
  run_tx (EnqueueStorageOperation o scope key request audit) e d = (Ok o', d') →
  (∀ row, fl_idempotency (cd_fleet d') !! (scope, key) = Some row → tx_clock e' 1 < ir_ExpiresAt row) →
  let again := run_tx (EnqueueStorageOperation o2 scope key request2 audit2) e' d' in
  again.2 = d' ∧ (∀ x, again.1 = Ok x → request2 = request ∧ x = o') ∧
  (request2 = request → (∀ n, tx_fault e' n = false) → (∀ n, tx_commit e' n = Committed) → again.1 = Ok o').
Proof using Type.
  intros Hrun Hlive again. pose proof (wp_run _ _ e d (Enqueue_remembers o scope key request audit d)) as Hr. rewrite Hrun in Hr. cbn in Hr.
  specialize (Hr o' eq_refl). pose proof Hr as (row & Hrow & _).
  assert (Hlen : slen scope = 32 ∧ slen key = 32 ∧ slen request = 32).
  { revert Hrun. unfold EnqueueStorageOperation. destruct (_ || _) eqn:Hl; [done|]. bool_prop. done. }
  destruct (Enqueue_again o2 scope key request2 request audit2 o' e' d' Hr) as (H1 & H2 & H3).
  - unfold remembered. rewrite Hrow. by rewrite (proj2 (Z.ltb_lt _ _) (Hlive _ Hrow)).
  - split_and!; [done|done|]. intros -> Hf Hc. destruct Hlen as (? & ? & ?). by apply H3.
Qed.
End Safety.
