(* ===== verification/JobExamples.v ===== *)
(** * JobExamples: a concrete operation and its job

    A test of a credential is queued, claimed, renewed, taken over after its
    lease ran out, and completed; the theorems of JobSafety at these databases. *)

From S2P Require Import Prelude GoStd Uuid Platform Domain GatewaySession GatewayAuth AuditChain PendingRecord CentralTx CentralStore.
From S2P Require Import RcloneConfig RcloneExamples StorageSecret CentralTrace CentralRefine CentralPlane CentralHistory CentralExamples PendingExamples.
From S2P Require Import CentralFrame CentralJobs JobSpec JobRefine JobTrace JobHistory JobSafety.
Import Domain.Operation (OperationTerminal, history).
Open Scope Z_scope.
Open Scope go_scope.
Open Scope central_scope.

#[export] Instance small_lists : ListCodec := { MarshalList a b c := Some (a +:+ b +:+ c); UnmarshalList _ := None }.

Definition ex_scope : string := bytes_be 32 3.
Definition ex_key : string := bytes_be 32 4.
Definition ex_request : string := bytes_be 32 5.
Definition ex_operation : Operation := mkOperation (v7 70) "" "" "" (v7 8) None 0 (Some (v7 71)) 0 0 None None None None "".
Definition ex_queue_audit : AuditEvent :=
  system_event (v7 72) (at_ 100) "STORAGE_CREDENTIAL_TEST" "STORAGE_CREDENTIAL" (v7 8) (v7 73) AuditSuccess "QUEUED".

(** The job's id is the first the queueing transaction draws. *)
Definition ex_life : list job_event :=
  [EnqueueStorage (ex_env 100) ex_operation ex_scope ex_key ex_request ex_queue_audit;
   Claim (ex_env 101) (v7 74);
   Renew (ex_env 110) (v7 110007) (v7 74);
   Claim (ex_env 150) (v7 75);
   CompleteTest (ex_env 151) (v7 110007) (v7 74) "";
   CompleteTest (ex_env 152) (v7 110007) (v7 75) ""].
Definition ex_jobs (n : nat) : CentralDb := job_run ex_plane restfleet_app (take n ex_life) ex_start.
Definition ex_job (n : nat) : JobRow :=
  default (mkJobRow 0 0 "" "" "" 0 None None 0 0 "" 0 None) (jobs (ex_jobs n) !! v7 110007).
Definition ex_op (n : nat) : Operation := default ex_operation (operations (ex_jobs n) !! v7 70).

(** The second worker took over; the first one's result was refused. *)
Example taken_over :
  op_Status (ex_op 5) = "RUNNING" ∧ op_Attempt (ex_op 5) = 2 ∧ op_Status (ex_op 6) = "SUCCEEDED" ∧ jr_Status (ex_job 6) = "DONE" ∧
  ev_To <$> events (ex_jobs 6) = ["QUEUED"; "DISPATCHED"; "ACKNOWLEDGED"; "RUNNING"; "SUCCEEDED"].
Proof. vm_compute. done. Qed.

Lemma ex_no_operations : no_operations ex_fleet ex_storage.
Proof.
  split; [done..|]. split; intros id x; cbn; intros [<- <-]%lookup_singleton_Some; done.
Qed.

Lemma ex_permitted n : job_permitted ex_plane restfleet_app (take n ex_life) ex_start.
Proof. do 7 (destruct n as [|n]; [cbn [take ex_life job_permitted job_allowed]; tauto|]). cbn [take ex_life job_permitted job_allowed]. tauto. Qed.

Lemma ex_job_reachable n : job_reachable ex_plane restfleet_app (ex_jobs n).
Proof. exists ex_fleet, ex_storage, (take n ex_life). split; [apply ex_no_operations|]. split; [apply ex_permitted|done]. Qed.

Lemma ex_op_found : operations (ex_jobs 2) !! v7 70 = Some (ex_op 2).
Proof. vm_compute. reflexivity. Qed.

Lemma operations_exclusive_witness :
  unfinished (v7 70) (ex_op 2) (ex_jobs 2) ∧ ∀ id a, unreleased id a (ex_jobs 2) → ba_StorageCredentialID a ≠ op_StorageCredentialID (ex_op 2).
Proof.
  assert (Hu : unfinished (v7 70) (ex_op 2) (ex_jobs 2)) by (split; vm_compute; reflexivity).
  split; [exact Hu|]. intros id a.
  apply (proj2 (operations_exclusive ex_plane restfleet_app (ex_jobs 2) (ex_job_reachable 2)) (v7 110007) (ex_job 2)).
  - vm_compute. reflexivity.
  - vm_compute. reflexivity.
  - replace (jr_OperationID (ex_job 2)) with (v7 70) by (vm_compute; reflexivity). exact Hu.
Defined.

Lemma operation_history_witness : last (ev_To <$> events_for (v7 70) (events (ex_jobs 2))) = Some (op_Status (ex_op 2)).
Proof. apply (operation_history ex_plane restfleet_app (ex_jobs 2) (v7 70) (ex_op 2) (ex_job_reachable 2) ex_op_found). Defined.

Lemma operation_served_witness :
  ∃ j, jobs (ex_jobs 2) !! jr_ID j = Some j ∧ jr_OperationID j = v7 70 ∧ job_state j (ex_op 2) ∧
    ∀ i x, jobs (ex_jobs 2) !! i = Some x → jr_OperationID x = v7 70 → i = jr_ID j ∧ x = j.
Proof. apply (operation_served ex_plane restfleet_app (ex_jobs 2) (v7 70) (ex_op 2) (ex_job_reachable 2) ex_op_found). Defined.

Lemma jobs_refine_spec_witness : works (ex_jobs 1) (job_run ex_plane restfleet_app (drop 1 ex_life) (ex_jobs 1)).
Proof.
  apply (jobs_refine_spec ex_plane restfleet_app (ex_jobs 1) (drop 1 ex_life) (ex_job_reachable 1)).
  cbn [drop ex_life job_permitted job_allowed]. tauto.
Defined.

(** The first worker, after the second has claimed the job. *)
Lemma only_the_holder_works_witness :
  job_apply ex_plane restfleet_app (CompleteTest (ex_env 151) (v7 110007) (v7 74) "") (ex_jobs 4) = ex_jobs 4.
Proof.
  apply (only_the_holder_works ex_plane restfleet_app (CompleteTest (ex_env 151) (v7 110007) (v7 74) "") (ex_env 151) (v7 110007) (v7 74)).
  - reflexivity.
  - vm_compute. reflexivity.
Defined.

Definition ex_first : result dberr Operation * CentralDb :=
  run_tx (EnqueueStorageOperation ex_operation ex_scope ex_key ex_request ex_queue_audit) (ex_env 100) ex_start.

Lemma ex_first_eq : ex_first = (Ok (ex_op 1), ex_jobs 1).
Proof. vm_compute. reflexivity. Qed.

(** The same request an hour later. *)
Lemma enqueue_idempotent_witness :
  (run_tx (EnqueueStorageOperation ex_operation ex_scope ex_key ex_request ex_queue_audit) (ex_env 3700) (ex_jobs 1)).1 = Ok (ex_op 1).
Proof.
  apply (enqueue_idempotent (ex_env 100) (ex_env 3700) ex_operation ex_operation (ex_op 1) ex_scope ex_key ex_request ex_request
    ex_queue_audit ex_queue_audit ex_start (ex_jobs 1) ex_first_eq).
  - intros row Hrow. vm_compute in Hrow. injection Hrow as <-. reflexivity.
  - reflexivity.
  - reflexivity.
  - reflexivity.
Defined.

(** A worker that cannot finish an index takes the job three times. *)
Definition ex_index : Operation := mkOperation (v7 76) "" "" "" 0 (Some (v7 6)) 0 None 0 0 None None None None "".
Definition ex_reads : list job_event :=
  [EnqueueIndex (ex_env 100) ex_index ex_hash; Claim (ex_env 101) (v7 74);
   FinishIndex (ex_env 102) (v7 110009) (v7 74) "" []; Claim (ex_env 140) (v7 74); Claim (ex_env 180) (v7 74); Claim (ex_env 220) (v7 74)].
Definition ex_stuck (role : db_role) (n : nat) : CentralDb := job_run ex_plane role (take n ex_reads) ex_start.
Definition ex_read (role : db_role) (n : nat) : Operation := default ex_operation (operations (ex_stuck role n) !! v7 76).
Definition ex_read_job (n : nat) : JobRow := default (ex_job 1) (jobs (ex_stuck restfleet_app n) !! v7 110009).

(** With the right to delete leases the index ends at once. *)
Example owner_finishes : op_Status (ex_read restfleet_migrator 3) = "SUCCEEDED" ∧ op_Status (ex_read restfleet_app 3) = "RUNNING".
Proof. vm_compute. done. Qed.

Lemma app_never_finishes_reads_witness : ∃ x, run_tx (ClaimCredentialJob restfleet_app (v7 74)) (ex_env 220) (ex_stuck restfleet_app 5) = (Err x, ex_stuck restfleet_app 5).
Proof.
  apply (proj2 (proj2 (app_never_finishes_reads (ex_env 220) (v7 110009) (v7 74) "" (ex_stuck restfleet_app 5))) (ex_read_job 5) (ex_read restfleet_app 5)).
  - vm_compute. reflexivity.
  - vm_compute. reflexivity.
  - vm_compute. reflexivity.
  - vm_compute. discriminate.
Defined.
