(* ===== verification/VaultSafety.v ===== *)
(** * VaultSafety: what never happens to a storage credential

    The calls of the control plane and its workers as one state machine over the
    database, the calls that have read it and not yet written, and the jobs being
    worked on: whatever their interleaving, the target a credential stores never
    moves, and only an administrator's replacement changes more of its
    configuration than a token. *)

From S2P Require Import Prelude GoStd Uuid Platform GatewaySession GatewayAuth AuditChain PendingRecord CentralTx CentralStore.
From S2P Require Import RcloneConfig RcloneProps RcloneTarget StorageSecret CentralTrace CentralGrowth CentralRefine CentralPlane.
From S2P Require Import StorageVault CentralHistory CentralFrame VaultOrder VaultRefine VaultHistory.
From S2P Require Import CentralJobs JobSpec JobHistory JobWorker WorkerHistory.
Open Scope Z_scope.
Open Scope go_scope.
Open Scope central_scope.

(** The database, the calls in progress, and the workers. *)
Record Vault := mkVault { vd : CentralDb; vcalls : list call; vworks : list Work }.

Inductive vault_event :=
| Jobs (x : job_event)
| Working (x : work_event)
| Create (name remote raw : string) (actor : User) (meta : RequestMeta) (e : CallEnv)
| Replace (id : uuid) (revision : Z) (raw : string) (actor : User) (meta : RequestMeta) (e : CallEnv)
| FinishReplace (i : nat) (e : CallEnv)
| Disable (id : uuid) (revision : Z) (actor : User) (meta : RequestMeta) (e : CallEnv)
| FinishDisable (i : nat) (e : CallEnv)
| Lend (id owner : uuid) (e : TxEnv)
| Persist (i : nat) (raw : string) (live : bool) (env : SealEnv) (e : TxEnv).

Section Machine.
Context `{U : UuidPkg} `{P : Platform} `{E : Ed25519} `{C : AuditCodec} `{S : StatementCodec} `{N : PendingCodec}.
Context `{AE : AEAD} `{T : TokenCodec} `{W : NetPkg} `{L : Collation} `{LC : ListCodec}.
Variable c : Plane.
Variable role : db_role.
Variable runners : Runners.

(** The calls after a first half, which leaves its own. *)
Definition begun (k : option call) (calls : list call) : list call := match k with Some k => calls ++ [k] | None => calls end.

Definition vault_apply (x : vault_event) (v : Vault) : Vault :=
  let with_calls (p : list call * CentralDb) := mkVault p.2 p.1 (vworks v) in
  let begin (p : result storage_error call * CentralDb) := with_calls (begun (match p.1 with Ok k => Some k | Err _ => None end) (vcalls v), p.2) in
  match x with
  | Jobs x => with_calls (vcalls v, job_apply c role x (vd v))
  | Working x => let p := work_apply c role runners x (vworks v) (vd v) in mkVault p.2 (vcalls v) p.1
  | Create name remote raw actor meta e => with_calls (vcalls v, (CreateStorageCredential c name remote raw actor meta e (vd v)).2)
  | Replace id revision raw actor meta e => begin (ReplaceStorageCredential_read c id revision raw actor meta e (vd v))
  | FinishReplace i e =>
      match vcalls v !! i with
      | Some (Replacing credential next actor meta) =>
          with_calls (delete i (vcalls v), (ReplaceStorageCredential_save c credential next actor meta e (vd v)).2)
      | _ => v
      end
  | Disable id revision actor meta e => begin (DisableStorageCredential_read c id revision actor meta e (vd v))
  | FinishDisable i e =>
      match vcalls v !! i with
      | Some (Disabling credential actor meta) =>
          with_calls (delete i (vcalls v), (DisableStorageCredential_save credential actor meta e (vd v)).2)
      | _ => v
      end
  | Lend id owner e => let p := WithBackupMaterial c id owner e (vd v) in with_calls (begun p.1 (vcalls v), p.2)
  | Persist i raw live env e =>
      match vcalls v !! i with
      | Some (Lending id owner hash credential previous) =>
          let p := persist c id owner hash credential previous raw live env e (vd v) in
          with_calls (match p.1 with Persisted k => <[i := k]> (vcalls v) | _ => vcalls v end, p.2)
      | _ => v
      end
  end.

Definition vault_run (xs : list vault_event) (v : Vault) : Vault := foldl (λ v x, vault_apply x v) v xs.

Definition no_credentials : Storage := mkStorage ∅ ∅ ∅.
Definition empty_vault (fleet : Fleet) : Vault := mkVault (no_gateways fleet no_credentials) [] [].

(** Other transactions stay within what [job_allowed] and [gateway_event] say, and
    a job's credential is refreshed by its worker alone. *)
Definition allowed (x : vault_event) (v : Vault) : Prop :=
  match x with
  | Jobs y =>
      job_allowed y (vd v) ∧
      match y with OnGateway z => gateway_event z (vd v) | RefreshJob _ _ _ _ _ => False | _ => True end
  | _ => True
  end.

Fixpoint permitted (xs : list vault_event) (v : Vault) : Prop :=
  match xs with [] => True | x :: xs => allowed x v ∧ permitted xs (vault_apply x v) end.

Definition replaces (x : vault_event) : bool := match x with FinishReplace _ _ => true | _ => false end.

Context {HU : UuidLaws} {HAE : AEADLaws} {HT : TokenLaws} {HW : NetLaws}.
Notation key := (cp_masterKey c).

(** ** The invariant *)

Record vault_inv (v : Vault) : Prop := {
  vi_central : central_ok (vd v);
  vi_jobs : jobs_ok (vd v);
  vi_stored : vault_ok key (cd_storage (vd v));
  vi_calls : Forall (call_ok c (vd v)) (vcalls v);
  vi_works : Forall (work_ok c (vd v)) (vworks v) }.

(** What an event may do to the database. *)
Definition moves (replace : bool) (d d' : CentralDb) : Prop := works d d' ∧ safe c replace d d'.

Lemma calm_moves replace d d' : calm d d' → safe c replace d d' → moves replace d d'.
Proof using Type. intros Hc Hs. split; [by apply rtc_once, js_calm|done]. Qed.

Lemma calls_later replace d d' calls :
  central_ok d → vault_ok key (cd_storage d) → safe c replace d d' → Forall (call_ok c d) calls → Forall (call_ok c d') calls.
Proof using Type. intros Hc Hv Hs Hf. eapply Forall_impl; [exact Hf|]. intros k. by eapply call_ok_later. Qed.

Lemma vault_later replace v d' calls' :
  vault_inv v → moves replace (vd v) d' → (Forall (call_ok c d') (vcalls v) → Forall (call_ok c d') calls') →
  vault_inv (mkVault d' calls' (vworks v)).
Proof using Type.
  intros [Hc Hj Hv Hk Hw] [Hm Hs] Hcalls. pose proof Hs as [Hch [Hok _]].
  split; [by eapply changes_ok|by eapply works_ok|done|by eapply Hcalls, calls_later|].
  eapply Forall_impl; [exact Hw|]. intros w. by eapply work_ok_later.
Qed.

(** The events of one kind: the database moves, and the calls hold on. *)
Definition keeps_vault (replace : bool) (v v' : Vault) : Prop := vault_inv v' ∧ moves replace (vd v) (vd v').

Lemma keeps_moved replace v d' calls' :
  vault_inv v → moves replace (vd v) d' → (Forall (call_ok c d') (vcalls v) → Forall (call_ok c d') calls') →
  keeps_vault replace v (mkVault d' calls' (vworks v)).
Proof using Type. intros Hv Hm Hc. split; [by eapply vault_later|done]. Qed.

Lemma keeps_begun v k d' :
  vault_inv v → moves false (vd v) d' → (∀ x, k = Some x → call_ok c d' x) → keeps_vault false v (mkVault d' (begun k (vcalls v)) (vworks v)).
Proof using Type.
  intros Hv Hm Hk. apply keeps_moved; [done|done|]. intros Hf. destruct k as [k|]; [|done]. apply Forall_app. split; [done|].
  apply Forall_singleton. by apply Hk.
Qed.

Lemma keeps_begins v p :
  vault_inv v → calm (vd v) p.2 → begins c (vd v) p →
  keeps_vault false v (mkVault p.2 (begun (match p.1 with Ok k => Some k | Err _ => None end) (vcalls v)) (vworks v)).
Proof using Type.
  intros Hv Hcalm [Hs Hk]. apply keeps_begun; [done|by apply calm_moves|]. destruct p as [[k|x] d']; [|done]. intros k' [= <-]. by apply Hk.
Qed.

Lemma job_moves x v :
  vault_inv v → allowed (Jobs x) v → moves false (vd v) (job_apply c role x (vd v)).
Proof using HU HAE HT HW.
  intros [Hc Hj Hv _ _] [Ha Hx]. split; [by apply job_works|]. destruct x; try by apply of_store_safe. by apply gateway_safe.
Qed.

(** Every event keeps the invariant, and changes no more than it may. *)
Lemma vault_step x v : vault_inv v → allowed x v → keeps_vault (replaces x) v (vault_apply x v).
Proof using HU HAE HT HW.
  intros Hv Hx. pose proof Hv as [Hc Hj Hok Hk Hw].
  assert (Hsame : ∀ replace, keeps_vault replace v v) by (split; [done|split; [apply rtc_refl|by apply safe_refl]]).
  destruct x as [x|x|name remote raw actor meta e|id revision raw actor meta e|i e|id revision actor meta e|i e|id owner e|i raw live env e];
    cbv zeta; cbn [vault_apply replaces fst snd].
  - apply keeps_moved; [done|by apply job_moves|done].
  - destruct (work_step c role runners x (vworks v) (vd v) Hj Hok Hw) as (Hm & Hs & Hw'). pose proof Hs as [Hch [Hok' _]].
    split; [|by split]. split; [by eapply changes_ok|by eapply works_ok|done|by eapply calls_later|done].
  - apply keeps_moved; [done|apply calm_moves; [apply calm_Create|by apply Create_safe]|done].
  - apply keeps_begins; [done|apply calm_Replace_read|by apply Replace_begins].
  - destruct (vcalls v !! i) as [[x next actor meta|x actor meta|id owner hash x previous]|] eqn:Hi; try done.
    destruct (Forall_lookup_1 _ _ _ _ Hk Hi) as [Hx' [raw Hraw]].
    apply keeps_moved; [done|apply calm_moves; [apply calm_Replace_save|by eapply Replace_safe]|apply Forall_delete].
  - apply keeps_begins; [done|apply calm_Disable_read|by apply Disable_begins].
  - destruct (vcalls v !! i) as [[x next actor meta|x actor meta|id owner hash x previous]|] eqn:Hi; try done.
    apply keeps_moved; [done|apply calm_moves; [apply calm_Disable_save|]|apply Forall_delete].
    by apply Disable_safe, (Forall_lookup_1 _ _ _ _ Hk Hi).
  - destruct (Lend_begins c id owner e (vd v) Hc Hok) as [Hs Hl]. apply keeps_begun; [done|apply calm_moves; [apply calm_Lend|done]|done].
  - destruct (vcalls v !! i) as [[x next actor meta|x actor meta|id owner hash x previous]|] eqn:Hi; try done.
    destruct (Forall_lookup_1 _ _ _ _ Hk Hi) as [Hrow Hadm].
    destruct (persist_safe c id owner hash x previous raw live env e (vd v) Hc Hok Hrow Hadm) as [Hs Hl].
    apply keeps_moved; [done|apply calm_moves; [apply calm_persist|done]|]. intros Hf.
    destruct (persist _ _ _ _ _ _ _ _ _ _ _) as [[k| | |] d'] eqn:Hp; try done. apply Forall_insert; [done|]. by apply Hl.
Qed.

(** ** Histories *)

Lemma vault_history xs v :
  vault_inv v → permitted xs v → vault_inv (vault_run xs v) ∧ vault_le key (existsb replaces xs) (cd_storage (vd v)) (cd_storage (vd (vault_run xs v))).
Proof using HU HAE HT HW.
  revert v. induction xs as [|x xs IH]; intros v Hv; [done|]. intros [Hx Hxs]. destruct (vault_step x v Hv Hx) as [Hv1 [_ [_ [_ Hle1]]]].
  destruct (IH _ Hv1 Hxs) as [Hv2 Hle2]. split; [done|]. cbn [existsb]. etrans.
  - destruct (replaces x), (existsb replaces xs); try exact Hle1. by apply vault_le_weaken.
  - cbn. destruct (replaces x), (existsb replaces xs); try exact Hle2. by apply vault_le_weaken.
Qed.

Lemma empty_inv fleet : no_operations fleet no_credentials → vault_inv (empty_vault fleet).
Proof using Type.
  intros Hn. split; [apply no_gateways_ok|by apply no_operations_ok| |done|done]. intros id x. cbn. by rewrite lookup_empty.
Qed.

Lemma permitted_app xs ys v : permitted (xs ++ ys) v ↔ permitted xs v ∧ permitted ys (vault_run xs v).
Proof using Type. revert v. induction xs as [|x xs IH]; intros v; cbn; [tauto|]. rewrite IH. cbn. tauto. Qed.

(** The later state of a credential. *)
Definition still (g g' : Storage) (x : StorageCredential) (agree : Config → Config → bool) : Prop :=
  ∃ x' config config', sg_credentials g' !! sc_ID x = Some x' ∧
    sc_RemoteName x' = sc_RemoteName x ∧ sc_Provider x' = sc_Provider x ∧
    sc_Revision x ≤ sc_Revision x' ∧ sc_SecretRevision x ≤ sc_SecretRevision x' ∧
    (sc_Revision x' = sc_Revision x → x' = x) ∧
    stored key g x config ∧ stored key g' x' config' ∧ agree config config' = true.

Lemma vault_still replace g g' id x :
  vault_ok key g → vault_le key replace g g' → sg_credentials g !! id = Some x →
  still g g' x (if replace then SameTarget else SameExceptToken).
Proof using Type.
  intros Hok Hle Hx. destruct (Hok _ _ Hx) as (Hid & _ & config & Hst). destruct (vl_credentials _ _ _ _ Hle _ _ Hx) as (x' & Hx' & [] & Hk).
  destruct (Hk _ Hst) as (config' & Hst' & Hsame). exists x', config, config'. rewrite Hid. split_and!; try done.
  by destruct replace.
Qed.

(** C13: the target of a storage credential never moves. Whatever calls of
    administrators, of Gateways, of holders of lent configurations and of workers
    on jobs interleave, with failing statements and lost commits and whatever
    configurations rclone hands back, a credential that once existed
    still does, under the same remote name and provider; its secret opens with
    the master key to an accepted configuration; that configuration has the
    target of the one it held before; and when no administrator's replacement
    was saved in between, it differs from it by an OAuth token at most. *)
Theorem target_never_moves (fleet : Fleet) (xs ys : list vault_event) (id : uuid) (x : StorageCredential) :
  no_operations fleet no_credentials → permitted (xs ++ ys) (empty_vault fleet) →
  sg_credentials (cd_storage (vd (vault_run xs (empty_vault fleet)))) !! id = Some x →
  still (cd_storage (vd (vault_run xs (empty_vault fleet)))) (cd_storage (vd (vault_run (xs ++ ys) (empty_vault fleet)))) x
    (if existsb replaces ys then SameTarget else SameExceptToken).
Proof using HU HAE HT HW.
  intros Hn. rewrite permitted_app. intros [Hp Hq] Hx. destruct (vault_history _ _ (empty_inv fleet Hn) Hp) as [Hv _].
  destruct (vault_history _ _ Hv Hq) as [_ Hle]. unfold vault_run at 2. rewrite foldl_app. fold (vault_run xs (empty_vault fleet)).
  by apply (vault_still _ _ _ id); [apply Hv| |].
Qed.
End Machine.
