(* ===== verification/WorkerSafety.v ===== *)
(** * WorkerSafety: what a worker reports

    The code a worker ends a job with is one the store accepts for that job,
    whatever rclone and restic return; it is empty exactly when the run succeeded;
    and the plan of a snapshot is read from its tags alone. *)

From S2P Require Import Prelude GoStd Uuid Platform Domain GatewaySession GatewayAuth AuditChain PendingRecord CentralTx CentralStore.
From S2P Require Import RcloneConfig StorageSecret CentralTrace CentralRefine CentralPlane StorageVault CentralFrame CentralJobs JobSpec JobRefine JobTrace.
From S2P Require Import JobHistory JobWorker WorkerHistory VaultSafety.
Import Domain.Operation (ValidCredentialTestCode, ValidInitializeCode, ValidInitializedRepository).
Open Scope Z_scope.
Open Scope go_scope.
Open Scope central_scope.

(** ** Codes *)

Ltac cases_of_code := repeat match goal with |- context [if ?b then _ else _] => destruct b end.

Lemma list_code_valid err : validSnapshotListCode (snapshotListErrorCode err) = true ∧ (snapshotListErrorCode err = "" ↔ err = None).
Proof. unfold snapshotListErrorCode. destruct err as [chain|]; cbn [is_none]; [|done]. cases_of_code; split; done. Qed.

Lemma index_code_valid err : validSnapshotIndexCode (snapshotIndexErrorCode err) = true ∧ (snapshotIndexErrorCode err = "" ↔ err = None).
Proof. unfold snapshotIndexErrorCode. destruct err as [chain|]; cbn [is_none]; [|done]. cases_of_code; split; done. Qed.

Lemma test_code_valid err : ValidCredentialTestCode (testErrorCode err) = true ∧ (testErrorCode err = "" ↔ err = None).
Proof. unfold testErrorCode. destruct err as [chain|]; cbn [is_none]; [|done]. cases_of_code; split; done. Qed.

Lemma initialize_code_valid err : ValidInitializeCode (initializeErrorCode err) = true ∧ (initializeErrorCode err = "" ↔ err = None).
Proof. unfold initializeErrorCode. destruct err as [chain|]; cbn [is_none]; [|done]. cases_of_code; split; done. Qed.

Lemma repository_code_valid err : ValidInitializeCode (jobErrorCode true err) = true ∧ (jobErrorCode true err = "" ↔ err = None).
Proof.
  unfold jobErrorCode. destruct (Is err domain_ErrStorageUnavailable) eqn:Hs; [by destruct err|].
  destruct (_ || _) eqn:Hc; [|apply initialize_code_valid]. destruct err as [chain|]; [|by vm_compute in Hc].
  apply orb_true_iff in Hc as [Hc|Hc]; bool_prop; rewrite Hc; done.
Qed.

(** What [complete] asks of an ending. *)
Definition accepts (reader : bool) (w : Work) (x : Ending) : bool :=
  let code := en_Code x in
  if reader then if job_type w == "SNAPSHOT_INDEX" then validSnapshotIndexCode code else validSnapshotListCode code
  else if job_type w == "SNAPSHOT_LIST" then validSnapshotListCode code
  else if job_type w == "SNAPSHOT_INDEX" then validSnapshotIndexCode code
  else match cj_Repository (wk_Job w) with
  | Some _ =>
      ValidInitializeCode code && ((code != "") || ValidInitializedRepository (ri_ID (en_Info x)) (ri_FormatVersion (en_Info x)))
  | None => ValidCredentialTestCode code
  end.

(** A job beside a Gateway is a snapshot's. *)
Definition typed (w : Work) : Prop := gateway_mode w = true → snapshot_type (job_type w) = true.

(** A run whose result is a success: it began, returned no error, its contexts
    were alive, its lease was renewed, and a new repository is what it should be. *)
Definition run_succeeded (w : Work) (failed : run_error) (renewErr : option dberr) (o : RunOutcome) : Prop :=
  failed = None ∧ renewErr = None ∧ ro_Err o = None ∧ ro_WorkErr o = None ∧
  (gateway_mode w = false → is_some (cj_Repository (wk_Job w)) = true → snapshot_type (job_type w) = false →
   ValidInitializedRepository (ri_ID (ro_Info o)) (ri_FormatVersion (ro_Info o)) = true).

Lemma final_error_none w failed o : final_error w failed o = None ↔ run_succeeded w failed None o.
Proof.
  unfold final_error, run_result, run_succeeded. destruct failed as [f|]; [split; [done|by intros [? _]]|].
  destruct (ro_Err o) as [x|] eqn:He; cbn [is_none andb]; [split; [done|by intros (_ & _ & ? & _)]|].
  destruct (gateway_mode w), (is_some (cj_Repository (wk_Job w))), (snapshot_type (job_type w)); cbn [negb andb];
    try (split; [intros ->; by split_and!|tauto]).
  destruct (ValidInitializedRepository _ _) eqn:Hv; cbn [negb]; [split; [intros ->; by split_and!|tauto]|].
  split; [done|]. intros (_ & _ & _ & _ & H). by specialize (H eq_refl eq_refl eq_refl).
Qed.

Lemma run_code_valid `{U : UuidPkg} `{LC : ListCodec} w failed o :
  typed w →
  accepts (gateway_mode w) w (run_ending w failed o) = true ∧ (en_Code (run_ending w failed o) = "" ↔ final_error w failed o = None).
Proof.
  intros Ht. assert (Hcode : en_Code (run_ending w failed o) = run_code w (final_error w failed o)) by done.
  pose proof (final_error_none w failed o) as Hnone.
  unfold accepts. rewrite Hcode. unfold run_code, typed, snapshot_type in *. destruct (gateway_mode w) eqn:Hg.
  - specialize (Ht eq_refl). apply orb_true_iff in Ht as [Hi|Hl]; bool_prop.
    + rewrite Hi. cbn. apply index_code_valid.
    + rewrite Hl. cbn. apply list_code_valid.
  - destruct (job_type w == "SNAPSHOT_LIST") eqn:Hl; [apply list_code_valid|].
    destruct (job_type w == "SNAPSHOT_INDEX") eqn:Hi; [apply index_code_valid|].
    destruct (cj_Repository (wk_Job w)) as [r|] eqn:Hr; [|apply test_code_valid]. cbn [is_some is_none negb].
    destruct (repository_code_valid (final_error w failed o)) as [Hv He]. split; [|done]. rewrite Hv. cbn [andb].
    destruct (bool_decide_reflect (jobErrorCode true (final_error w failed o) = "")) as [Hz|Hz]; [|done]. cbn [negb orb].
    apply He, Hnone in Hz as (-> & _ & _ & _ & Hinfo). unfold run_ending. rewrite Hg, Hr. unfold snapshot_type. rewrite Hl, Hi. cbn.
    rewrite Hr, Hg in Hinfo. apply Hinfo; [done|done|]. unfold snapshot_type. by rewrite Hl, Hi.
Qed.

(** ** Histories *)

Section Histories.
Context `{U : UuidPkg} `{P : Platform} `{E : Ed25519} `{C : AuditCodec} `{S : StatementCodec} `{N : PendingCodec}.
Context `{AE : AEAD} `{T : TokenCodec} `{W : NetPkg} `{L : Collation} `{LC : ListCodec}.
Variable c : Plane.
Variable role : db_role.
Variable runners : Runners.

Definition reports (w : Work) : Prop :=
  typed w ∧ match wk_Phase w with Ends reader x => accepts reader w x = true | _ => True end.

Lemma reports_at p w : reports w → match p with Ends reader x => accepts reader w x = true | _ => True end → reports (at_phase p w).
Proof using Type. by intros [Ht _] Hp. Qed.

(** Codes every transaction accepts. *)
Lemma accepts_ends reader w code :
  code ∈ ["CREDENTIAL_CHANGED"; "CONFIG_UNSAFE"; "SECRET_UNAVAILABLE"] ∨ code = "REPOSITORY_UNAVAILABLE" ∧ (reader = true ∨ is_some (cj_Repository (wk_Job w)) = true) →
  accepts reader w (ends code) = true.
Proof using Type.
  intros Hc. unfold accepts, ends. cbn [en_Code en_Info].
  destruct Hc as [Hc|[-> Hr]].
  - repeat (apply elem_of_cons in Hc as [->|Hc]; [by cases_of_code|]). by apply not_elem_of_nil in Hc.
  - destruct reader; [by cases_of_code|]. destruct Hr as [|Hr]; [done|]. by cases_of_code.
Qed.

Lemma claim_reports owner e d w : (claim_work c role runners owner e d).1 = Some w → reports w.
Proof using Type.
  unfold claim_work. destruct (negb _); [done|].
  pose proof (wp_run _ (λ r _, ∀ j, r = Ok j → read_typed j) e d (Claim_typed role owner d)) as Ht.
  destruct (run_tx _ e d) as [[j|x] d']; [|done]. intros [= <-]. split; [by apply Ht|done].
Qed.

Lemma claimed_reports w password issued e d w' :
  reports w → (step_claimed c runners w password issued e d).1 = Some w' → reports w'.
Proof using Type.
  intros Hr. unfold step_claimed. destruct (refusal c runners w) as [p|] eqn:Hp.
  - intros [= <-]. apply reports_at; [done|]. unfold refusal in Hp.
    destruct (is_some (cj_Repository (wk_Job w))) eqn:Hrepo; cbn [andb] in Hp; repeat case_match; simplify_eq; apply accepts_ends;
      first [by left; set_solver|right; auto].
  - destruct (run_tx _ e d) as [r d']. cbn [fst].
    intros H; repeat case_match; simplify_eq; apply reports_at; try done; apply accepts_ends; right; auto.
Qed.

Lemma opening_reports w password e d : reports w → reports (step_opening c runners w password e d).
Proof using Type.
  intros Hr. unfold step_opening. repeat case_match; apply reports_at; try done; apply accepts_ends; left; set_solver.
Qed.

Lemma return_reports w o w' : reports w → step_return w o = Some w' → reports w'.
Proof using Type.
  intros Hr. unfold step_return. destruct (wk_Phase w) as [| |lent failed renewErr|reader x] eqn:Hp; try by intros [= <-].
  destruct (ro_Stopped o); [done|]. destruct renewErr as [x|].
  - destruct (_ && _); [|done]. intros [= <-]. apply reports_at; [done|]. apply accepts_ends. right. auto.
  - intros [= <-]. apply reports_at; [done|]. by apply run_code_valid, Hr.
Qed.

Lemma proceed_reports w password issued e d w' :
  reports w → (proceed c role runners w password issued e d).1 = Some w' → reports w'.
Proof using Type.
  intros Hr. unfold proceed. destruct (wk_Phase w) as [| |lent failed renewErr|reader x]; [by apply claimed_reports|..].
  - intros [= <-]. by apply opening_reports.
  - by intros [= <-].
  - done.
Qed.

Lemma running_reports w lent failed renewErr lent' failed' renewErr' :
  reports w → wk_Phase w = Running lent failed renewErr → reports (at_phase (Running lent' failed' renewErr') w).
Proof using Type. intros Hr _. by apply reports_at. Qed.

Lemma renew_reports w expired e d : reports w → reports (step_renew w expired e d).1.
Proof using Type.
  intros Hr. unfold step_renew. destruct (wk_Phase w) as [| |lent failed [x|]|reader x] eqn:Hp; try done.
  destruct (run_tx _ e d) as [[[]|x] d']; [done|]. cbn. destruct (_ && _); [done|]. by eapply running_reports.
Qed.

Lemma refresh_reports w raw env e d : reports w → reports (step_refresh c w raw env e d).1.
Proof using Type.
  intros Hr. unfold step_refresh. destruct (wk_Phase w) as [| |[[x previous]|] [f|] renewErr|reader x] eqn:Hp; try done.
  destruct (refresh_job _ _ _ _ _ _ _ _) as [[lent|y] d']; [by eapply running_reports|done].
Qed.

Lemma set_work_reports i w l : Forall reports l → (∀ w', w = Some w' → reports w') → Forall reports (set_work i w l).
Proof using Type. intros Hl Hw. destruct w as [w|]; [apply Forall_insert; [done|by apply Hw]|by apply Forall_delete]. Qed.

Lemma work_reports x l d : Forall reports l → Forall reports (work_apply c role runners x l d).1.
Proof using Type.
  intros Hl. destruct x as [owner e|i password issued e|i expired e|i raw env e|i o]; cbn [work_apply].
  2-5: destruct (l !! i) as [w|] eqn:Hi; [|done]; pose proof (Forall_lookup_1 _ _ _ _ Hl Hi) as Hw.
  - pose proof (claim_reports owner e d) as Hc. destruct (claim_work _ _ _ _ _ _) as [[w|] d']; [|done].
    apply Forall_app. split; [done|]. apply Forall_singleton. by apply Hc.
  - pose proof (λ w', proceed_reports w password issued e d w' Hw) as Hp. destruct (proceed _ _ _ _ _ _ _ _) as [w' d']. by apply set_work_reports.
  - pose proof (renew_reports w expired e d Hw) as Hp. destruct (step_renew _ _ _ _) as [w' d']. by apply Forall_insert.
  - pose proof (refresh_reports w raw env e d Hw) as Hp. destruct (step_refresh _ _ _ _ _ _) as [w' d']. by apply Forall_insert.
  - apply set_work_reports; [done|]. intros w'. by apply return_reports.
Qed.

Lemma vault_reports x v : Forall reports (vworks v) → Forall reports (vworks (vault_apply c role runners x v)).
Proof using Type.
  intros Hv. destruct x; cbv zeta; cbn [vault_apply vworks]; try done; [by apply work_reports|..]; by repeat case_match.
Qed.

(** C28: a worker never reports a code its transaction refuses, and reports
    success exactly when there was one. In every history of the control plane the
    ending of every worker is one that the transaction it is about to run accepts
    for the type of its operation; and a worker whose run returns without a stop
    or a lost lease ends with the empty code exactly when the run began, returned
    no error within its deadline and, for a new repository, reported a valid one. *)
Theorem worker_reports_truthfully (fleet : Fleet) (xs : list vault_event) (w : Work) :
  w ∈ vworks (vault_run c role runners xs (empty_vault fleet)) →
  (∀ reader x, wk_Phase w = Ends reader x → accepts reader w x = true) ∧
  ∀ lent failed o, wk_Phase w = Running lent failed None → ro_Stopped o = false →
    ∃ x, step_return w o = Some (at_phase (Ends (gateway_mode w) x) w) ∧ accepts (gateway_mode w) w x = true ∧
      (en_Code x = "" ↔ run_succeeded w failed None o).
Proof using Type.
  intros Hw. assert (Hr : Forall reports (vworks (vault_run c role runners xs (empty_vault fleet)))).
  { clear Hw. induction xs as [|x xs IH] using rev_ind; [done|]. unfold vault_run. rewrite foldl_app. cbn [foldl]. by apply vault_reports. }
  pose proof (proj1 (Forall_forall _ _) Hr w Hw) as [Ht Hp]. split; [intros reader x Hx; by rewrite Hx in Hp|].
  intros lent failed o Hrun Hstop. unfold step_return. rewrite Hrun, Hstop. exists (run_ending w failed o).
  destruct (run_code_valid w failed o Ht) as [Ha He]. split_and!; [done|done|]. by rewrite He, final_error_none.
Qed.
End Histories.

(** ** The plan of a snapshot *)

Section Tags.
Context `{U : UuidPkg} {HU : UuidLaws}.

Definition plan_tag (id : uuid) : string := plan_prefix +:+ UString id.

(** The tags decide on plan [id]. *)
Record decides (tags : list string) (id : uuid) : Prop := {
  dc_valid : valid_v7 id = true;
  dc_named : plan_tag id ∈ tags;
  dc_only : ∀ tag, tag ∈ tags → HasPrefix tag plan_prefix = true → tag = plan_tag id }.

Lemma HasPrefix_inv s pre : HasPrefix s pre = true → s = pre +:+ TrimPrefix s pre.
Proof using Type.
  intros H. unfold TrimPrefix. rewrite H. revert s H. induction pre as [|a pre IH]; intros [|b s]; cbn; try done.
  intros [Hb Hs]%andb_true_iff. bool_prop. subst b.
  change (String a s = String a (pre +:+ drop_bytes (String.length pre) s)). f_equal. by apply IH.
Qed.

Lemma TrimPrefix_app pre s : TrimPrefix (pre +:+ s) pre = s.
Proof using Type. unfold TrimPrefix. by rewrite HasPrefix_app, drop_bytes_prefix. Qed.

Lemma read_plan_tag st id :
  (id < 2 ^ 128)%N → valid_v7 id = true → tg_planID st = None ∨ tg_planID st = Some id →
  read_tag st (plan_tag id) = mkTags (tg_managed st) (tg_ambiguous st) (Some id).
Proof using HU.
  intros Hid Hv Hp. unfold read_tag, plan_tag. rewrite (bool_decide_eq_false_2 (_ = "restfleet:managed")) by done.
  rewrite HasPrefix_app, TrimPrefix_app, Parse_UString, Hv, bool_decide_eq_true_2 by done. cbn [andb].
  destruct Hp as [Hp|Hp]; rewrite Hp; [done|]. rewrite bool_decide_eq_true_2 by done. cbn. rewrite <- Hp. by destruct st.
Qed.

Lemma read_other_tag st tag :
  HasPrefix tag plan_prefix = false →
  read_tag st tag = mkTags (tg_managed st || (tag == "restfleet:managed")) (tg_ambiguous st) (tg_planID st).
Proof using Type.
  intros Hn. unfold read_tag. rewrite Hn. destruct (tag == "restfleet:managed"); [by rewrite orb_true_r|]. rewrite orb_false_r. by destruct st.
Qed.

(** Tags that decide on one plan never make it ambiguous. *)
Lemma read_tags_decided id tags st :
  (id < 2 ^ 128)%N → valid_v7 id = true → (∀ tag, tag ∈ tags → HasPrefix tag plan_prefix = true → tag = plan_tag id) →
  tg_planID st = None ∨ tg_planID st = Some id →
  foldl read_tag st tags = mkTags (tg_managed st || bool_decide ("restfleet:managed" ∈ tags)) (tg_ambiguous st)
    (if bool_decide (plan_tag id ∈ tags) then Some id else tg_planID st).
Proof using HU.
  intros Hid Hv. revert st. induction tags as [|tag tags IH]; intros st Hall Hp; cbn [foldl].
  - rewrite !bool_decide_eq_false_2, orb_false_r by apply not_elem_of_nil. by destruct st.
  - assert (Hrest : ∀ t, t ∈ tags → HasPrefix t plan_prefix = true → t = plan_tag id) by (intros t Ht; apply Hall; by right).
    destruct (HasPrefix tag plan_prefix) eqn:Hpre.
    + rewrite (Hall tag) by (done || by left). rewrite read_plan_tag by done. rewrite IH by (done || by right). cbn [tg_managed tg_ambiguous tg_planID].
      rewrite (bool_decide_eq_true_2 (plan_tag id ∈ _ :: _)) by left. f_equal; [|by case_match].
      f_equal. apply bool_decide_ext. rewrite elem_of_cons. split; [by right|]. by intros [H|H].
    + rewrite read_other_tag by done. rewrite IH by done. cbn [tg_managed tg_ambiguous tg_planID]. f_equal.
      * rewrite <- orb_assoc. f_equal. rewrite <- bool_decide_or. apply bool_decide_ext. rewrite elem_of_cons. split; intros [H|H]; auto.
      * assert (Hne : plan_tag id ≠ tag) by (intros <-; unfold plan_tag in Hpre; by rewrite HasPrefix_app in Hpre).
        erewrite (bool_decide_ext (plan_tag id ∈ tag :: tags)); [done|]. rewrite elem_of_cons. split; [|by right]. by intros [?|?].
Qed.

(** Whatever is read unambiguously was decided. *)
Lemma read_tags_inv tags :
  let st := foldl read_tag (mkTags false false None) tags in
  tg_managed st = bool_decide ("restfleet:managed" ∈ tags) ∧
  (tg_ambiguous st = false → match tg_planID st with
     | Some id => decides tags id
     | None => ∀ tag, tag ∈ tags → HasPrefix tag plan_prefix = false
     end).
Proof using HU.
  induction tags as [|tag tags IH] using rev_ind; [split; [done|intros _ tag []%not_elem_of_nil]|].
  cbv zeta in *. rewrite foldl_app. cbn [foldl]. set (st := foldl read_tag _ tags) in *. destruct IH as [Hm Hp].
  assert (Hman : bool_decide ("restfleet:managed" ∈ tags ++ [tag]) = bool_decide ("restfleet:managed" ∈ tags) || (tag == "restfleet:managed")).
  { rewrite <- bool_decide_or. apply bool_decide_ext. rewrite elem_of_app, list_elem_of_singleton. naive_solver. }
  rewrite Hman, <- Hm. destruct (HasPrefix tag plan_prefix) eqn:Hpre.
  - assert (Hne : tag ≠ "restfleet:managed") by (by intros ->). rewrite (bool_decide_eq_false_2 _ Hne), orb_false_r.
    pose proof (HasPrefix_inv _ _ Hpre) as Htag. unfold read_tag. rewrite (bool_decide_eq_false_2 _ Hne), Hpre.
    destruct (Parse _) as [parsed|]; [|done]. destruct (valid_v7 parsed && _) eqn:Hv; [|done]. bool_prop.
    assert (Hpt : tag = plan_tag parsed) by (unfold plan_tag; congruence).
    destruct (tg_planID st) as [plan|] eqn:Hplan.
    + destruct (plan != parsed) eqn:Hd; [done|]. bool_prop. subst parsed. split; [done|]. rewrite Hplan. intros Ha. destruct (Hp Ha) as [D1 D2 D3].
      split; [done|apply elem_of_app; by left|]. intros t [Ht|Ht%list_elem_of_singleton]%elem_of_app; [by apply D3|by subst].
    + cbn. split; [done|]. intros Ha. specialize (Hp Ha). split; [done|apply elem_of_app; right; rewrite Hpt; left|].
      intros t [Ht|Ht%list_elem_of_singleton]%elem_of_app Htp; [by rewrite Hp in Htp|by subst].
  - rewrite read_other_tag by done. cbn. split; [done|]. intros Ha. specialize (Hp Ha). destruct (tg_planID st) as [plan|].
    + destruct Hp as [D1 D2 D3]. split; [done|apply elem_of_app; by left|].
      intros t [Ht|Ht%list_elem_of_singleton]%elem_of_app; [by apply D3|subst; by rewrite Hpre].
    + intros t [Ht|Ht%list_elem_of_singleton]%elem_of_app; [by apply Hp|by subst].
Qed.

(** A snapshot is attributed to a plan exactly when it carries the managed tag
    and all its plan tags are the canonical tag of that one plan, a version 7
    UUID; the order and repetition of tags do not matter. *)
Theorem snapshot_plan_decided (tags : list string) (id : uuid) :
  (id < 2 ^ 128)%N → resolveSnapshotPlan tags = Some id ↔ "restfleet:managed" ∈ tags ∧ decides tags id.
Proof using HU.
  intros Hid. unfold resolveSnapshotPlan. cbv zeta. split.
  - pose proof (read_tags_inv tags) as [Hm Hp]. destruct (_ || _) eqn:Hb; [done|]. intros Hs. bool_prop. rewrite Hm in *. bool_prop.
    split; [done|]. match goal with H : tg_ambiguous _ = false |- _ => specialize (Hp H) end. by rewrite Hs in Hp.
  - intros [Hman [Hv Hin Hall]]. rewrite (read_tags_decided id) by (done || by left). cbn. by rewrite !bool_decide_eq_true_2 by done.
Qed.
End Tags.
