(* ===== verification/VaultExamples.v ===== *)
(** * VaultExamples: a concrete history of a storage credential

    A credential is created, a replacement and a disabling of it race, and a
    worker tests it while rclone renews its token; the theorems of VaultSafety and
    WorkerSafety at these histories. *)

From S2P Require Import Prelude GoStd Uuid Platform GatewaySession GatewayAuth AuditChain PendingRecord CentralTx CentralStore.
From S2P Require Import RcloneConfig RcloneProps RcloneTarget RcloneExamples StorageSecret CentralTrace CentralGrowth CentralRefine CentralPlane.
From S2P Require Import StorageVault CentralHistory CentralExamples PendingExamples CentralFrame VaultOrder VaultRefine VaultHistory.
From S2P Require Import CentralJobs JobSpec JobHistory JobExamples JobWorker WorkerHistory VaultSafety WorkerSafety.
Open Scope Z_scope.
Open Scope go_scope.
Open Scope central_scope.

#[export] Instance small_collation : Collation := { db_lower := small_lower }.

Definition ex_admin : User := mkUser (v7 80) RoleAdmin.
Definition ex_meta : RequestMeta := mkMeta (v7 81) "".
Definition ex_sealing_at (n : N) (t : Z) : SealEnv :=
  mkSealEnv (Some (v7 n)) (Some (λ i, ascii_of_N (n + N.of_nat i))) (Some (λ i, ascii_of_N (n + N.of_nat i))) (Some (λ i, ascii_of_N (n + N.of_nat i))) (at_ t).
Definition ex_call (n : N) (t : Z) : CallEnv :=
  mkCallEnv (ex_env t) (ex_env t) (ex_env (t + 1)) (ex_env t) (ex_env (t + 2)) (Some (v7 (n + 1000))) (at_ t) (ex_sealing_at n t).
Definition ex_credential : uuid := v7 1090.

(** An administrator creates a credential and starts to replace it; another
    one wants to disable it, and comes too late. *)
Definition ex_create : list vault_event :=
  [Create "nas" "vault" (onedrive_text "{one}") ex_admin ex_meta (ex_call 90 0)].
Definition ex_race : list vault_event :=
  [Replace ex_credential 1 (onedrive_text "{two}") ex_admin ex_meta (ex_call 91 10);
   Disable ex_credential 1 ex_admin ex_meta (ex_call 92 20);
   FinishReplace 0 (ex_call 93 30); FinishDisable 0 (ex_call 94 40)].
Definition ex_runners : Runners := mkRunners true true true true true.
Definition ex_vault (xs : list vault_event) : Vault := vault_run ex_plane restfleet_app ex_runners xs (empty_vault ex_fleet).
Definition ex_row (xs : list vault_event) : option StorageCredential := sg_credentials (cd_storage (vd (ex_vault xs))) !! ex_credential.
Definition ex_created : StorageCredential := default (mkCredential 0 "" "" "" "" 0 0 0 0 0 None None "" None) (ex_row ex_create).

Lemma found_row {A} (o : option A) d : is_some o = true → o = Some (default d o).
Proof. by destruct o. Qed.

(** The replacement is saved; the disabling finds another revision than it read. *)
Example replacement_wins :
  (sc_Status <$> ex_row (ex_create ++ ex_race)) = Some "UNTESTED" ∧ (sc_SecretRevision <$> ex_row (ex_create ++ ex_race)) = Some 2.
Proof. vm_compute. done. Qed.

Definition ex_disabling : list vault_event :=
  [Disable ex_credential 1 ex_admin ex_meta (ex_call 92 20); FinishDisable 0 (ex_call 94 40)].

(** A test of the credential, whose run renews the token. *)
Definition ex_test : Operation := mkOperation (v7 70) "" "" "" ex_credential None 0 (Some (v7 71)) 0 0 None None None None "".
Definition ex_outcome (err : run_error) : RunOutcome := mkOutcome err no_info (mkListed "" false "" 0 []) [] None false.
Definition ex_testing (err : run_error) : list vault_event :=
  [Jobs (EnqueueStorage (ex_env 100) ex_test ex_scope ex_key ex_request ex_queue_audit);
   Working (Take (v7 74) (ex_env 101));
   Working (Proceed 0 None false (ex_env 102));
   Working (Proceed 0 None false (ex_env 103));
   Working (Tick 0 false (ex_env 108));
   Working (Keep 0 (onedrive_text "{two}") (ex_sealing_at 95 110) (ex_env 110));
   Working (Return 0 (ex_outcome err));
   Working (Proceed 0 None false (ex_env 112))].

Definition ex_tested (err : run_error) : list vault_event := ex_create ++ ex_testing err.

Example token_renewed :
  (sc_Status <$> ex_row (ex_tested None)) = Some "HEALTHY" ∧ (sc_SecretRevision <$> ex_row (ex_tested None)) = Some 2 ∧
  (sc_LastTestResult <$> ex_row (ex_tested (Some [rclone_ErrCommandFailed]))) = Some "CONNECTION_FAILED" ∧
  vworks (ex_vault (ex_tested None)) = [].
Proof. vm_compute. done. Qed.

Lemma ex_no_credentials : no_operations ex_fleet no_credentials.
Proof. split; [done..|]. split; intros id x; [cbn; intros [<- <-]%lookup_singleton_Some; done|done]. Qed.

Lemma target_never_moves_witness :
  still ex_plane (cd_storage (vd (ex_vault ex_create))) (cd_storage (vd (ex_vault (ex_create ++ ex_race)))) ex_created SameTarget ∧
  still ex_plane (cd_storage (vd (ex_vault ex_create))) (cd_storage (vd (ex_vault (ex_create ++ ex_disabling)))) ex_created SameExceptToken ∧
  still ex_plane (cd_storage (vd (ex_vault ex_create))) (cd_storage (vd (ex_vault (ex_tested None)))) ex_created SameExceptToken.
Proof.
  assert (Hfound : sg_credentials (cd_storage (vd (ex_vault ex_create))) !! ex_credential = Some ex_created) by (apply found_row; vm_compute; reflexivity).
  split; [|split].
  - apply (target_never_moves ex_plane restfleet_app ex_runners ex_fleet ex_create ex_race ex_credential ex_created ex_no_credentials);
      [cbn [permitted app ex_create ex_race allowed]; tauto|exact Hfound].
  - apply (target_never_moves ex_plane restfleet_app ex_runners ex_fleet ex_create ex_disabling ex_credential ex_created ex_no_credentials);
      [cbn [permitted app ex_create ex_disabling allowed]; tauto|exact Hfound].
  - apply (target_never_moves ex_plane restfleet_app ex_runners ex_fleet ex_create (ex_testing None) ex_credential ex_created ex_no_credentials);
      [cbn [permitted app ex_create ex_testing allowed job_allowed]; tauto|exact Hfound].
Defined.

(** The worker of the test, while its run is on. *)
Definition ex_running : Work := default (mkWork 0 (mkCredentialJob 0 0 ex_test ex_created None false 0 "" None) Claimed)
  (head (vworks (ex_vault (ex_create ++ take 5 (ex_testing None))))).
Definition ex_lent : option (StorageCredential * Config) := match wk_Phase ex_running with Running lent _ _ => lent | _ => None end.
Definition ex_late : RunOutcome := mkOutcome None no_info (mkListed "" false "" 0 []) [] (Some [context_DeadlineExceeded]) false.

Lemma worker_reports_truthfully_witness :
  ∃ x, step_return ex_running ex_late = Some (at_phase (Ends (gateway_mode ex_running) x) ex_running) ∧
    accepts (gateway_mode ex_running) ex_running x = true ∧ en_Code x ≠ "".
Proof.
  assert (Hin : ex_running ∈ vworks (ex_vault (ex_create ++ take 5 (ex_testing None)))).
  { assert (Hone : vworks (ex_vault (ex_create ++ take 5 (ex_testing None))) = [ex_running]) by (vm_compute; reflexivity). rewrite Hone. left. }
  assert (Hphase : wk_Phase ex_running = Running ex_lent None None) by (vm_compute; reflexivity).
  destruct (proj2 (worker_reports_truthfully ex_plane restfleet_app ex_runners ex_fleet (ex_create ++ take 5 (ex_testing None)) ex_running Hin)
    _ _ ex_late Hphase eq_refl) as (x & Hx & Ha & Hc).
  exists x. split_and!; [exact Hx|exact Ha|]. intros (_ & _ & _ & Hlate & _)%Hc. discriminate Hlate.
Defined.

Definition ex_plan_tags : list string := [plan_tag (v7 7); "weekly"; "restfleet:managed"; plan_tag (v7 7)].

Lemma snapshot_plan_decided_witness :
  resolveSnapshotPlan ex_plan_tags = Some (v7 7) ∧ resolveSnapshotPlan (plan_tag (v7 8) :: ex_plan_tags) ≠ Some (v7 7).
Proof.
  split.
  - apply (snapshot_plan_decided ex_plan_tags (v7 7)); [vm_compute; reflexivity|]. split; [unfold ex_plan_tags; do 2 right; left|].
    split; [vm_compute; reflexivity|unfold ex_plan_tags; left|]. unfold ex_plan_tags. intros tag Htag.
    repeat (apply elem_of_cons in Htag as [->|Htag]; [vm_compute; try done|]). by apply not_elem_of_nil in Htag.
  - rewrite (snapshot_plan_decided (plan_tag (v7 8) :: ex_plan_tags) (v7 7)); [|vm_compute; reflexivity]. intros [_ [_ _ Hall]].
    assert (H : plan_tag (v7 8) = plan_tag (v7 7)) by (apply Hall; [left|vm_compute; reflexivity]). vm_compute in H. discriminate H.
Defined.
