(* ===== verification/RepositoryView.v ===== *)
(** * RepositoryView: what the control plane says of a repository

    internal/persistence/postgres: the reads of repository.go and
    repository_gateway.go; internal/server/repository.go: [Repositories],
    [Repository]; [WithGatewayObservation] of internal/domain/repository.go.  The
    status shown is computed, from the last proof a Gateway gave of its backend
    and the authority that holds now. *)

From S2P Require Import Prelude GoStd Uuid Platform GatewaySession GatewayAuth AuditChain PendingRecord CentralTx CentralStore.
From S2P Require Import RcloneConfig StorageSecret CentralTrace CentralPlane StorageVault CentralJobs.
Open Scope Z_scope.
Open Scope go_scope.
Open Scope central_scope.

(** ** Observations (domain/repository.go) *)

Record Observation := mkObservation { ob_VerifiedAt : time; ob_Authorized : bool }.

(** A repository with [AgentCredentialAcceptedAt]. *)
Record RepositoryView := mkView { rv_Row : Repository; rv_AcceptedAt : option time }.

Definition RepositoryGatewayObservationLifetime : duration := 10 * minute.

Definition with_shown (status : string) (v : RepositoryView) : RepositoryView :=
  let r := rv_Row v in
  mkView (mkRepository (rp_ID r) (rp_HostID r) (rp_StorageCredentialID r) status (rp_GatewayID r) (rp_GatewaySecretRef r)
    (rp_ResticSecretRef r) (rp_InitializedAt r) (rp_ArchivedAt r) (rp_ResticID r) (rp_FormatVersion r) (rp_Revision r) (rp_UpdatedAt r)
    (rp_LastInitializeOperationID r)) (rv_AcceptedAt v).

Definition WithGatewayObservation (v : RepositoryView) (o : Observation) (now : time) : RepositoryView :=
  let status := rp_Status (rv_Row v) in
  if (status != "PROVISIONING") && (status != "READY") && (status != "DEGRADED") then v
  else if IsZero (ob_VerifiedAt o) then if status == "READY" then with_shown "DEGRADED" v else v
  else if is_some (rp_InitializedAt (rv_Row v)) && is_some (rv_AcceptedAt v) && ob_Authorized o && negb (After (ob_VerifiedAt o) now) &&
          (Sub now (ob_VerifiedAt o) <? RepositoryGatewayObservationLifetime)
  then with_shown "READY" v
  else with_shown "DEGRADED" v.

(** ** Reads (postgres/repository.go) *)

(** The deliveries the subqueries of [repositoryColumns] find. *)
Definition accepted_deliveries (r : Repository) (d : CentralDb) : list AgentCredentialDelivery :=
  List.filter (λ dl,
    (cr_RepositoryID dl == rp_ID r) && (cr_GatewaySecretRef dl == rp_GatewaySecretRef r) && (cr_ResticSecretRef dl == rp_ResticSecretRef r) &&
    match fl_agents (cd_fleet d) !! cr_AgentID dl with
    | Some ag => (ar_Status ag == "ACTIVE") && (ar_HostID ag == rp_HostID r)
    | None => false
    end) (map_to_list (fl_deliveries (cd_fleet d))).*2.

(** A subquery that finds two rows is an error. *)
Definition view_of (d : CentralDb) (r : Repository) : option RepositoryView :=
  match accepted_deliveries r d with
  | [] => Some (mkView r None)
  | [dl] => Some (mkView r (cr_AcceptedAt dl))
  | _ => None
  end.

(** [order by id] *)
Definition by_id (a b : Repository) : Prop := (rp_ID a ≤ rp_ID b)%N.
#[export] Instance by_id_dec a b : Decision (by_id a b).
Proof. unfold by_id. apply _. Defined.

Definition live_repositories (after : uuid) (d : CentralDb) : list Repository :=
  merge_sort by_id (List.filter (λ r, is_none (rp_ArchivedAt r) && (after <? rp_ID r)%N) (map_to_list (fl_repositories (cd_fleet d))).*2).

Definition db_Repositories (after : uuid) (limit : Z) : Tx (list RepositoryView) :=
  stmt (λ _ d, (λ views, (views, d)) <$> mapM (view_of d) (take (Z.to_nat limit) (live_repositories after d))).
Definition db_Repository (id : uuid) : Tx RepositoryView :=
  let* found := stmt (λ _ d,
    match fl_repositories (cd_fleet d) !! id with Some r => (λ v, (Some v, d)) <$> view_of d r | None => Some (None, d) end) in
  match found with Some v => tret v | None => tfail ErrNotFound end.

(** ** What Gateways proved (postgres/repository_gateway.go) *)

(** A row of the query: when the proof was given, when the admission was made, the
    proof's sequence, and whether the authority behind it holds. *)
Record ProofRow := mkProof { pf_At : time; pf_AdmittedAt : time; pf_Sequence : Z; pf_Authorized : bool }.

Definition ready_event (id : uuid) (d : CentralDb) : option AuditEvent :=
  List.find (λ e, (ae_ID e == id) && (ae_Action e == "GATEWAY_BACKEND_READY")) (cd_audit d).

Definition issued_then (d : CentralDb) (p : RecordRow) : bool :=
  existsb (λ g, (dr_AdmissionID g == rr_AdmissionID p) && (dr_RuntimeID g == rr_RuntimeID p) && (dr_Revision g == rr_AuthorizationRevision p) &&
    negb (dr_Revoked g) && (dr_IssuedAt g <=? rr_OccurredAt p) && match dr_ExpiresAt g with Some x => rr_OccurredAt p <? x | None => false end)
    (cd_decisions d).

Definition proves (a runtime : uuid) (d : CentralDb) (p : RecordRow) : bool :=
  (rr_AdmissionID p == a) && (rr_RuntimeID p == runtime) && (rr_Kind p == "audit") && is_some (ready_event (rr_RecordID p) d) && issued_then d p.

(** [order by p.sequence desc limit 1] *)
Definition last_proof (a runtime : uuid) (d : CentralDb) : option RecordRow := order_desc rr_Sequence (proves a runtime d) (cd_records d).

Definition authorized_now (hash : string) (t : time) (d : CentralDb) (a : BackupAdmission) (o : OriginRow) (p : RecordRow) (r : Repository)
    (ag : AgentRow) (h : HostRow) (c : StorageCredential) : bool :=
  is_none (ba_ReleasedAt a) && (t <? ba_ExpiresAt a) && is_none (or_ClosedAt o) &&
  match latest_of (ba_ID a) d with
  | Some g =>
      negb (dr_Revoked g) && (dr_RuntimeID g == rr_RuntimeID p) && (dr_IssuedAt g <=? t) &&
      match dr_ExpiresAt g with Some x => t <? x | None => false end
  | None => false
  end &&
  (ar_Status ag == "ACTIVE") && (ar_HostID ag == ba_HostID a) && (hr_Status h == "ACTIVE") && is_none (hr_ArchivedAt h) &&
  (sc_Status c != "DISABLED") && ((rp_Status r == "PROVISIONING") || (rp_Status r == "READY") || (rp_Status r == "DEGRADED")) &&
  is_none (rp_ArchivedAt r) && is_some (rp_InitializedAt r) && (ba_HostID a == rp_HostID r) && (ba_GatewayID a == rp_GatewayID r) &&
  (ba_StorageCredentialID a == rp_StorageCredentialID r) && (ba_GatewaySecretRef a == rp_GatewaySecretRef r) &&
  (ba_ResticSecretRef a == rp_ResticSecretRef r) &&
  match fl_deliveries (cd_fleet d) !! ba_AgentID a with
  | Some dl =>
      (cr_ID dl == ba_DeliveryID a) && (cr_RepositoryID dl == rp_ID r) && is_some (cr_AcceptedAt dl) &&
      (cr_GatewaySecretRef dl == rp_GatewaySecretRef r) && (cr_ResticSecretRef dl == rp_ResticSecretRef r) &&
      (ba_ConfigurationHash a == hash) && (cr_ConfigurationHash dl == hash)
  | None => false
  end.

Definition proof_row (hash : string) (t : time) (d : CentralDb) (a : BackupAdmission) : option ProofRow :=
  o ← cd_origins d !! ba_ID a;
  p ← last_proof (ba_ID a) (or_RuntimeID o) d;
  e ← ready_event (rr_RecordID p) d;
  r ← fl_repositories (cd_fleet d) !! ba_RepositoryID a;
  ag ← fl_agents (cd_fleet d) !! ba_AgentID a;
  h ← fl_hosts (cd_fleet d) !! ba_HostID a;
  c ← sg_credentials (cd_storage d) !! ba_StorageCredentialID a;
  Some (mkProof (ae_OccurredAt e) (ba_CreatedAt a) (rr_Sequence p) (authorized_now hash t d a o p r ag h c)).

(** [order by e.occurred_at desc, a.created_at desc, sequence desc] *)
Definition proof_after (x y : ProofRow) : bool :=
  (pf_At y <? pf_At x) || (pf_At x =? pf_At y) &&
    ((pf_AdmittedAt y <? pf_AdmittedAt x) || (pf_AdmittedAt x =? pf_AdmittedAt y) && (pf_Sequence y <? pf_Sequence x)).

(** [distinct on (a.repository_id)] *)
Definition newest_proof (id : uuid) (hash : string) (t : time) (d : CentralDb) : option ProofRow :=
  foldr (λ a best,
    if ba_RepositoryID a == id then
      match proof_row hash t d a, best with
      | Some p, Some b => if proof_after p b then Some p else Some b
      | Some p, None => Some p
      | None, _ => best
      end
    else best) None (map_to_list (cd_admissions d)).*2.

Definition observation_of (id : uuid) (hash : string) (t : time) (d : CentralDb) : Observation :=
  match newest_proof id hash t d with
  | Some p => mkObservation (pf_At p) (pf_Authorized p)
  | None => mkObservation zero_time false
  end.

(** The map of observations, as a function that gives the zero value elsewhere. *)
Definition RepositoryGatewayObservations (ids : list uuid) (hash : string) : Tx (uuid → Observation) :=
  if (Z.of_nat (length ids) =? 0) || (201 <? Z.of_nat (length ids)) then tfail ErrRepositoryUnavailable
  else select (λ t d id, if bool_decide (id ∈ ids) then observation_of id hash t d else mkObservation zero_time false).

(** ** The control plane (server/repository.go) *)

Section Views.
Context `{P : Platform}.
Variable c : Plane.

(** Two reads; the database may change between them. *)
Definition repositoryAvailability (items : list RepositoryView) (now : time) (e : TxEnv) (d : CentralDb) :
    result dberr (list RepositoryView) :=
  if Z.of_nat (length items) =? 0 then Ok items
  else match (run_tx (RepositoryGatewayObservations ((rp_ID ∘ rv_Row) <$> items) (credentialConfigurationHash c)) e d).1 with
  | Err x => Err x
  | Ok observations => Ok ((λ v, WithGatewayObservation v (observations (rp_ID (rv_Row v))) (Truncate now second)) <$> items)
  end.

Definition Repositories (after : uuid) (limit : Z) (now : time) (e e' : TxEnv) (d d' : CentralDb) :
    result storage_error (list RepositoryView) :=
  if (limit <? 1) || (201 <? limit) then Err (ErrValidation "limit" "INVALID_LIMIT")
  else match (run_tx (db_Repositories after limit) e d).1 with
  | Err x => Err (ErrStore x)
  | Ok items => stored_result (repositoryAvailability items now e' d')
  end.

Definition Repository_ (id : uuid) (now : time) (e e' : TxEnv) (d d' : CentralDb) : result dberr RepositoryView :=
  match (run_tx (db_Repository id) e d).1 with
  | Err x => Err x
  | Ok v =>
      match repositoryAvailability [v] now e' d' with
      | Ok (v :: _) => Ok v
      | Ok [] => Err ErrDB
      | Err x => Err x
      end
  end.
End Views.

(** ** What READY means *)

Lemma ready_event_inv id d e : ready_event id d = Some e → e ∈ cd_audit d ∧ ae_ID e = id ∧ ae_Action e = "GATEWAY_BACKEND_READY".
Proof. intros [Hin Hb]%find_some. bool_prop. by rewrite list_elem_of_In. Qed.

Lemma newest_proof_inv id hash t d p :
  newest_proof id hash t d = Some p → ∃ a, a ∈ (map_to_list (cd_admissions d)).*2 ∧ ba_RepositoryID a = id ∧ proof_row hash t d a = Some p.
Proof.
  unfold newest_proof. induction (map_to_list (cd_admissions d)).*2 as [|a l IH]; cbn [foldr]; [done|].
  assert (Hrest : ∀ x, (∃ b, b ∈ l ∧ ba_RepositoryID b = id ∧ proof_row hash t d b = Some x) →
    ∃ b, b ∈ a :: l ∧ ba_RepositoryID b = id ∧ proof_row hash t d b = Some x) by (intros x (b & Hb & H); exists b; split; [by right|done]).
  set (best := foldr _ _ _) in *. destruct (ba_RepositoryID a == id) eqn:Ha; [|intros H; by apply Hrest, IH]. bool_prop.
  assert (Hhere : ∀ x, proof_row hash t d a = Some x → ∃ b, b ∈ a :: l ∧ ba_RepositoryID b = id ∧ proof_row hash t d b = Some x)
    by (intros x Hx; exists a; split; [by left|done]).
  destruct (proof_row hash t d a) as [x|]; [|intros H; by apply Hrest, IH]. destruct best as [y|]; [|by intros [= <-]; apply Hhere].
  destruct (proof_after x y); intros [= <-]; [by apply Hhere|by apply Hrest, IH].
Qed.

Definition pick_proof (id : uuid) (hash : string) (t : time) (d : CentralDb) : list BackupAdmission → option ProofRow :=
  foldr (λ a best,
    if ba_RepositoryID a == id then
      match proof_row hash t d a, best with
      | Some p, Some b => if proof_after p b then Some p else Some b
      | Some p, None => Some p
      | None, _ => best
      end
    else best) None.

Lemma newest_none id hash t d l a : pick_proof id hash t d l = None → a ∈ l → ba_RepositoryID a = id → proof_row hash t d a = None.
Proof.
  induction l as [|b l IH]; [by intros _ ?%not_elem_of_nil|]. cbn [pick_proof foldr]. fold (pick_proof id hash t d l). intros Hn.
  destruct (pick_proof id hash t d l) as [y|] eqn:Hy.
  { destruct (ba_RepositoryID b == id); [|done]. destruct (proof_row hash t d b) as [x|]; [|done]. by destruct (proof_after x y). }
  intros [->|Ha]%elem_of_cons Hid; [|by apply IH]. rewrite bool_decide_eq_true_2 in Hn by done. by destruct (proof_row hash t d b).
Qed.

(** Of the proofs of a repository the newest counts. *)
Lemma newest_proof_latest id hash t d p a q :
  newest_proof id hash t d = Some p → a ∈ (map_to_list (cd_admissions d)).*2 → ba_RepositoryID a = id → proof_row hash t d a = Some q →
  pf_At q ≤ pf_At p.
Proof.
  unfold newest_proof. intros Hn Ha Hid Hq. revert p Hn. induction (map_to_list (cd_admissions d)).*2 as [|b l IH]; cbn [foldr]; [by apply not_elem_of_nil in Ha|].
  intros p. set (best := foldr _ _ _) in *. apply elem_of_cons in Ha as [->|Ha].
  - rewrite bool_decide_eq_true_2, Hq by done. destruct best as [y|]; [|by intros [= <-]]. destruct (proof_after q y) eqn:E; intros [= <-]; [done|].
    unfold proof_after in E. bool_prop. lia.
  - specialize (IH Ha). destruct (ba_RepositoryID b == id); [|apply IH]. destruct (proof_row hash t d b) as [x|]; [|apply IH].
    destruct best as [y|] eqn:Hb; [|pose proof (newest_none id hash t d l a Hb Ha Hid); congruence].
    specialize (IH y eq_refl). destruct (proof_after x y) eqn:E; intros [= <-]; [|done]. unfold proof_after in E. bool_prop.
    apply orb_true_iff in E as [E|E]; bool_prop; lia.
Qed.

(** The authority of admission [a] over the repository shown as [r], whose row is
    [stored], at [t], and the proof [p] its Gateway gave of the backend. *)
Record vouched (hash : string) (t now : time) (d : CentralDb) (r stored : Repository) (a : BackupAdmission) (o : OriginRow) (g : DecisionRow)
    (p : RecordRow) (e : AuditEvent) : Prop := {
  vc_admission : ∃ id, cd_admissions d !! id = Some a;
  vc_open : ba_ReleasedAt a = None ∧ t < ba_ExpiresAt a ∧ ba_ConfigurationHash a = hash;
  vc_repository : ba_RepositoryID a = rp_ID r ∧ fl_repositories (cd_fleet d) !! rp_ID r = Some stored;
  vc_own : ba_HostID a = rp_HostID stored ∧ ba_GatewayID a = rp_GatewayID stored ∧ ba_StorageCredentialID a = rp_StorageCredentialID stored ∧
    ba_GatewaySecretRef a = rp_GatewaySecretRef stored ∧ ba_ResticSecretRef a = rp_ResticSecretRef stored;
  vc_delivery : ∃ dl, fl_deliveries (cd_fleet d) !! ba_AgentID a = Some dl ∧ cr_ID dl = ba_DeliveryID a ∧ cr_RepositoryID dl = rp_ID stored ∧
    is_Some (cr_AcceptedAt dl) ∧ cr_GatewaySecretRef dl = rp_GatewaySecretRef stored ∧ cr_ResticSecretRef dl = rp_ResticSecretRef stored ∧
    cr_ConfigurationHash dl = hash;
  vc_live : rp_ArchivedAt stored = None ∧ is_Some (rp_InitializedAt stored) ∧
    (rp_Status stored = "PROVISIONING" ∨ rp_Status stored = "READY" ∨ rp_Status stored = "DEGRADED");
  vc_origin : cd_origins d !! ba_ID a = Some o ∧ or_ClosedAt o = None;
  vc_latest : latest_of (ba_ID a) d = Some g ∧ dr_Revoked g = false ∧ dr_RuntimeID g = or_RuntimeID o ∧ dr_IssuedAt g ≤ t ∧
    ∃ x, dr_ExpiresAt g = Some x ∧ t < x;
  vc_proof : p ∈ cd_records d ∧ rr_AdmissionID p = ba_ID a ∧ rr_RuntimeID p = or_RuntimeID o ∧ rr_Kind p = "audit";
  vc_issued : ∃ h, h ∈ cd_decisions d ∧ dr_AdmissionID h = ba_ID a ∧ dr_RuntimeID h = or_RuntimeID o ∧
    dr_Revision h = rr_AuthorizationRevision p ∧ dr_Revoked h = false ∧ dr_IssuedAt h ≤ rr_OccurredAt p ∧
    ∃ x, dr_ExpiresAt h = Some x ∧ rr_OccurredAt p < x;
  vc_event : e ∈ cd_audit d ∧ ae_ID e = rr_RecordID p ∧ ae_Action e = "GATEWAY_BACKEND_READY";
  vc_recent : ae_OccurredAt e ≤ now < ae_OccurredAt e + RepositoryGatewayObservationLifetime;
  vc_newest : ∀ b q, b ∈ (map_to_list (cd_admissions d)).*2 → ba_RepositoryID b = rp_ID r → proof_row hash t d b = Some q → pf_At q ≤ ae_OccurredAt e;
  vc_agent : ∃ ag, fl_agents (cd_fleet d) !! ba_AgentID a = Some ag ∧ ar_Status ag = "ACTIVE" ∧ ar_HostID ag = ba_HostID a;
  vc_host : ∃ h, fl_hosts (cd_fleet d) !! ba_HostID a = Some h ∧ hr_Status h = "ACTIVE" ∧ hr_ArchivedAt h = None;
  vc_credential : ∃ c, sg_credentials (cd_storage d) !! ba_StorageCredentialID a = Some c ∧ sc_Status c ≠ "DISABLED";
  vc_initialized : is_Some (rp_InitializedAt r) }.

Lemma none_of {A} (o : option A) : is_none o = true → o = None.
Proof. by destruct o. Qed.
Lemma some_of {A} (o : option A) : is_some o = true → is_Some o.
Proof. destruct o; [by eexists|done]. Qed.

Lemma issued_then_inv d p : issued_then d p = true → ∃ h, h ∈ cd_decisions d ∧ dr_AdmissionID h = rr_AdmissionID p ∧
  dr_RuntimeID h = rr_RuntimeID p ∧ dr_Revision h = rr_AuthorizationRevision p ∧ dr_Revoked h = false ∧ dr_IssuedAt h ≤ rr_OccurredAt p ∧
  ∃ x, dr_ExpiresAt h = Some x ∧ rr_OccurredAt p < x.
Proof.
  unfold issued_then. intros (h & Hin & Hh)%existsb_exists. exists h. split; [by apply list_elem_of_In|].
  destruct (dr_ExpiresAt h) as [x|]; [|by rewrite andb_false_r in Hh]. bool_prop. split_and!; try done. by exists x.
Qed.

Lemma proof_row_vouched hash t now d r a pf :
  proof_row hash t d a = Some pf → pf_Authorized pf = true → (∃ id, cd_admissions d !! id = Some a) → ba_RepositoryID a = rp_ID r →
  (∀ b q, b ∈ (map_to_list (cd_admissions d)).*2 → ba_RepositoryID b = rp_ID r → proof_row hash t d b = Some q → pf_At q ≤ pf_At pf) →
  pf_At pf ≤ now < pf_At pf + RepositoryGatewayObservationLifetime → is_Some (rp_InitializedAt r) →
  ∃ stored o g p e, vouched hash t now d r stored a o g p e.
Proof.
  unfold proof_row at 1. destruct (cd_origins d !! ba_ID a) as [o|] eqn:Ho; [|done]. cbn [mbind option_bind].
  destruct (last_proof _ _ d) as [p|] eqn:Hp; [|done]. cbn [mbind option_bind]. destruct (ready_event _ d) as [e|] eqn:He; [|done]. cbn [mbind option_bind].
  destruct (fl_repositories (cd_fleet d) !! _) as [x|] eqn:Hx0; [|done]. cbn [mbind option_bind].
  destruct (fl_agents (cd_fleet d) !! _) as [ag|] eqn:Hag; [|done]. cbn [mbind option_bind].
  destruct (fl_hosts (cd_fleet d) !! _) as [h|] eqn:Hh; [|done]. cbn [mbind option_bind].
  destruct (sg_credentials (cd_storage d) !! _) as [c|] eqn:Hc; [|done]. cbn [mbind option_bind]. intros [= <-] Hauth Ha Hr Hnew Hnow Hin.
  cbn [pf_At pf_Authorized] in *. unfold authorized_now in Hauth. bool_prop.
  destruct (latest_of (ba_ID a) d) as [g|] eqn:Hg; [|done]. destruct (fl_deliveries (cd_fleet d) !! ba_AgentID a) as [dl|] eqn:Hdl; [|done]. bool_prop.
  unfold last_proof in Hp. apply order_desc_elem in Hp as [Hpin Hpp]. unfold proves in Hpp. bool_prop.
  match goal with H : issued_then _ _ = true |- _ => apply issued_then_inv in H as (k & K1 & K2 & K3 & K) end.
  destruct (dr_ExpiresAt g) as [x'|] eqn:Hx; [|done]. bool_prop. apply ready_event_inv in He as (? & ? & ?).
  exists x, o, g, p, e. split; try done.
  - split_and!; [by apply none_of|done|done].
  - by rewrite <- Hr.
  - exists dl. split_and!; try done. by apply some_of.
  - split_and!; [by apply none_of|by apply some_of|].
    match goal with H : _ || _ || _ = true |- _ => rewrite !orb_true_iff in H; destruct H as [[H|H]|H]; bool_prop; auto end.
  - split; [done|by apply none_of].
  - split_and!; [done|done|congruence|done|]. by exists x'.
  - exists k. split_and!; [done|congruence|congruence|apply K..].
  - by exists ag.
  - exists h. split_and!; [done|done|by apply none_of].
  - by exists c.
Qed.

Lemma observation_vouched hash t now d r :
  let o := observation_of (rp_ID r) hash t d in
  ob_Authorized o = true → ob_VerifiedAt o ≤ now < ob_VerifiedAt o + RepositoryGatewayObservationLifetime → is_Some (rp_InitializedAt r) →
  ∃ stored a o g p e, vouched hash t now d r stored a o g p e.
Proof.
  unfold observation_of. destruct (newest_proof _ _ _ _) as [pf|] eqn:Hn; [|done]. cbn. intros Ha Hnow Hi.
  assert (Hmax := λ b q, newest_proof_latest _ _ _ _ _ b q Hn). apply newest_proof_inv in Hn as (a & Hin & Hr & Hp).
  apply list_elem_of_fmap in Hin as ([id x] & Hx & Hin%elem_of_map_to_list). cbn in Hx. subst x.
  destruct (proof_row_vouched hash t now d r a pf) as (stored & o & g & p & e & Hv); [done..|by exists id|done|done|done|done|]. by exists stored, a, o, g, p, e.
Qed.

(** Only a recent observation of authority shows READY. *)
Lemma shown_ready v o now :
  rp_Status (rv_Row (WithGatewayObservation v o now)) = "READY" →
  ob_Authorized o = true ∧ ob_VerifiedAt o ≤ now < ob_VerifiedAt o + RepositoryGatewayObservationLifetime ∧
  is_Some (rp_InitializedAt (rv_Row v)) ∧ is_Some (rv_AcceptedAt v).
Proof.
  unfold WithGatewayObservation. cbv zeta. destruct (_ && _) eqn:Hst; [intros H; by rewrite H in Hst|].
  destruct (IsZero _); [destruct (_ == "READY") eqn:Hr; [done|]; intros H; bool_prop; done|].
  destruct (_ && _) eqn:Hb in |- *; [|done]. intros _. bool_prop. unfold After, Sub, RepositoryGatewayObservationLifetime in *.
  rewrite <- !not_eq_None_Some. split_and!; [done|..].
  - unfold max_int64, min_int64, minute, second in *. bool_prop. lia.
  - unfold max_int64, min_int64, minute, second in *. bool_prop. lia.
  - by destruct (rp_InitializedAt _).
  - by destruct (rv_AcceptedAt v).
Qed.

Lemma shown_row v o now :
  rp_ID (rv_Row (WithGatewayObservation v o now)) = rp_ID (rv_Row v) ∧
  rp_InitializedAt (rv_Row (WithGatewayObservation v o now)) = rp_InitializedAt (rv_Row v) ∧
  rv_AcceptedAt (WithGatewayObservation v o now) = rv_AcceptedAt v.
Proof. unfold WithGatewayObservation. cbv zeta. repeat case_match; done. Qed.

Lemma observations_read ids hash e d f :
  (run_tx (RepositoryGatewayObservations ids hash) e d).1 = Ok f →
  ∀ id, f id = if bool_decide (id ∈ ids) then observation_of id hash (tx_clock e 0) d else mkObservation zero_time false.
Proof.
  unfold RepositoryGatewayObservations. destruct (_ || _); [done|]. unfold run_tx, select, stmt. cbn. destruct (tx_fault e 0); [done|]. by intros [= <-].
Qed.

(** C27: a repository is shown READY only while a Gateway vouches for it.  When the
    page was computed, the repository was initialized, not archived and its
    credential had been accepted by its Agent; an unreleased and unexpired admission
    of it named its own host, Gateway, storage credential and secrets under this
    configuration, and the delivery its Agent accepted for the same repository,
    secrets and configuration; the admission's origin was open and its latest
    decision an unexpired grant to the origin's runtime; Agent and host were active
    and belonged together, the storage credential was not disabled; and that runtime
    had, under a grant then in force, reported its backend ready in an audit record
    whose event is in the chain, at most ten minutes before and not before any other
    such report of the repository. *)
Theorem ready_means_vouched `{P : Platform} (c : Plane) (after : uuid) (limit : Z) (now : time) (e e' : TxEnv) (d d' : CentralDb)
    (views : list RepositoryView) (v : RepositoryView) :
  Repositories c after limit now e e' d d' = Ok views → v ∈ views → rp_Status (rv_Row v) = "READY" →
  is_Some (rv_AcceptedAt v) ∧
  ∃ stored a o g p ev, vouched (credentialConfigurationHash c) (tx_clock e' 0) (Truncate now second) d' (rv_Row v) stored a o g p ev.
Proof.
  unfold Repositories. destruct (_ || _); [done|]. destruct (run_tx (db_Repositories after limit) e d).1 as [items|x]; [|done].
  unfold repositoryAvailability. destruct (_ =? 0) eqn:Hz; [intros [= <-]; bool_prop; destruct items; [by intros ?%not_elem_of_nil|done]|].
  destruct (run_tx _ e' d').1 as [f|x] eqn:Hf; [|done]. pose proof (observations_read _ _ _ _ _ Hf) as Hobs. clear Hf.
  intros [= <-] [w [-> Hw]]%list_elem_of_fmap Hready. apply shown_ready in Hready as (Ha & Hnow & Hi & Hacc). rewrite Hobs in Ha, Hnow.
  destruct (shown_row w (f (rp_ID (rv_Row w))) (Truncate now second)) as (E1 & E2 & E3). split; [by rewrite E3|].
  rewrite bool_decide_eq_true_2 in Ha, Hnow by (apply list_elem_of_fmap; by exists w).
  destruct (observation_vouched _ _ _ _ _ Ha Hnow Hi) as (stored & a & o & g & p & ev & Hv). exists stored, a, o, g, p, ev.
  destruct Hv. split; rewrite ?E1, ?E2; done.
Qed.
