(* ===== verification/SnapshotService.v ===== *)
(** * SnapshotService: the calls that queue work on storage

    internal/server: [TestStorageCredential] of credential_jobs.go,
    [InitializeRepository] of repository_jobs.go, [SnapshotEntries] of
    snapshot_list.go with [NormalizeListPath] of internal/restic/list_linux.go, and
    [indexReadyRepositories] of snapshot_index.go. *)

From S2P Require Import Prelude GoStd Uuid Platform GatewaySession GatewayAuth AuditChain PendingRecord CentralTx CentralStore.
From S2P Require Import RcloneConfig StorageSecret CentralTrace CentralRefine CentralPlane StorageVault CentralFrame CentralJobs JobSpec JobRefine JobTrace JobWorker.
From S2P Require Import WorkerHistory RepositoryView.
Open Scope Z_scope.
Open Scope go_scope.
Open Scope central_scope.

Section Service.
Context `{U : UuidPkg} `{P : Platform} `{C : AuditCodec} `{L : Collation} `{LC : ListCodec}.
Variable c : Plane.
Variable runners : Runners.

(** ** Requests of users *)

Definition validateOperationKey (key : string) : option storage_error :=
  let invalid := ErrValidation "Idempotency-Key" "INVALID_IDEMPOTENCY_KEY" in
  if (slen key <? 1) || (128 <? slen key) then Some invalid
  else if negb (string_forallb (λ ch, negb ((byte_of ch <? 33)%N || (126 <? byte_of ch)%N)) key) then Some invalid
  else None.

(** A request that queues [o] for the user: the audit event and the hashes of its
    idempotency record, and the transaction. *)
Definition enqueue_request (action resource reason path key : string) (id : uuid) (o : Operation) (actor : User) (meta : RequestMeta)
    (e : CallEnv) (d : CentralDb) : result storage_error Operation * CentralDb :=
  let scope := Sum256 (UString (us_ID actor) +:+ newline +:+ "POST" +:+ newline +:+ path) in
  let '(r, d) := run_tx
    (let* audit := userAudit (ce_clock e) action resource id (us_ID actor) meta reason "{}" in
     EnqueueStorageOperation o scope (Sum256 key) (Sum256 "") audit) (ce_save e) d in
  (stored_result r, d).

Definition new_operation (id credential : uuid) (repository : option uuid) (user : option uuid) : Operation :=
  mkOperation id "" "" "" credential repository 0 user 0 zero_time None None None None "".

Definition TestStorageCredential (id : uuid) (key : string) (actor : User) (meta : RequestMeta) (e : CallEnv) (d : CentralDb) :
    result storage_error Operation * CentralDb :=
  let '(admin, d) := requireStorageAdmin c actor meta e d in
  match admin with
  | Err x => (Err x, d)
  | Ok _ =>
      if negb (rn_test runners) then (Err (ErrStore ErrStorageUnavailable), d)
      else match validateOperationKey key with
      | Some x => (Err x, d)
      | None =>
          match ce_id e with
          | None => (Err ErrIdentity, d)
          | Some operationID =>
              enqueue_request "STORAGE_CREDENTIAL_TEST" "STORAGE_CREDENTIAL" "TEST_QUEUED"
                ("/api/v1/storage-credentials/" +:+ UString id +:+ "/test") key id
                (new_operation operationID id None (Some (us_ID actor))) actor meta e d
          end
      end
  end.

Definition InitializeRepository (id : uuid) (key : string) (actor : User) (meta : RequestMeta) (e : CallEnv) (d : CentralDb) :
    result storage_error Operation * CentralDb :=
  let '(admin, d) := requireStorageAdmin c actor meta e d in
  match admin with
  | Err x => (Err x, d)
  | Ok _ =>
      if negb (rn_initialize runners) || (slen (cp_masterKey c) != 32) then (Err (ErrStore ErrStorageUnavailable), d)
      else match validateOperationKey key with
      | Some x => (Err x, d)
      | None =>
          match ce_id e with
          | None => (Err ErrIdentity, d)
          | Some operationID =>
              enqueue_request "REPOSITORY_INITIALIZE" "REPOSITORY" "INITIALIZE_QUEUED"
                ("/api/v1/repositories/" +:+ UString id +:+ "/initialize") key id
                (new_operation operationID uuid_Nil (Some id) (Some (us_ID actor))) actor meta e d
          end
      end
  end.

(** ** Listings *)

(** [normalizeListPath] *)
Definition NormalizeListPath (raw : string) : option string :=
  if raw == "" then Some "/"
  else if (4096 <? slen raw) || negb (HasPrefix raw "/") || ascii_control raw then None
  else if existsb (λ part, (part == ".") || (part == "..")) (Split "/" raw) then None
  else if Clean raw != raw then None
  else Some raw.

(** [SnapshotsByID]: the repositories that have the snapshot, the newest first. *)
Definition recorded_after (x y : uuid * SnapshotRow) : Prop := sn_RecordedAt y.2 ≤ sn_RecordedAt x.2.
#[local] Instance recorded_after_dec x y : Decision (recorded_after x y).
Proof using Type. unfold recorded_after. apply _. Defined.
Definition SnapshotsByID (snapshotID : string) : Tx (list (uuid * SnapshotRow)) :=
  select (λ _ d, merge_sort recorded_after
    ((λ kv, (kv.1.1, kv.2)) <$> List.filter (λ kv, kv.1.2 == snapshotID) (map_to_list (fl_snapshots (cd_fleet d))))).

Inductive entries_error :=
| EntriesInvalid (field code : string)
| EntriesAmbiguous
| EntriesUnavailable
| EntriesIdentity
| EntriesStore (x : dberr).

(** The reads and the transaction of one call. *)
Record EntriesEnv := mkEntriesEnv { ee_read : nat → TxEnv; ee_clock : time; ee_id : option uuid; ee_enqueue : TxEnv }.

(** The path and the cursor of a request. *)
Definition entries_place (rawPath rawCursor : string) : result entries_error (string * string) :=
  match NormalizeListPath rawPath with
  | None => Err (EntriesInvalid "path" "INVALID_PATH")
  | Some path =>
      if rawCursor == "" then Ok (path, "")
      else match NormalizeListPath rawCursor with
      | Some cursor => if cursor == "/" then Err (EntriesInvalid "cursor" "INVALID_CURSOR") else Ok (path, cursor)
      | None => Err (EntriesInvalid "cursor" "INVALID_CURSOR")
      end
  end.

(** The repository meant among those that have the snapshot. *)
Definition resolve_repository (snapshots : list (uuid * SnapshotRow)) (repositoryID : option uuid) : result entries_error uuid :=
  let repositories : gset uuid := list_to_set snapshots.*1 in
  match snapshots with
  | [] => Err (EntriesStore ErrNotFound)
  | (first, _) :: _ =>
      match repositoryID with
      | Some id => if bool_decide (id ∈ repositories) then Ok id else Err (EntriesStore ErrNotFound)
      | None => if (size repositories =? 1)%nat then Ok first else Err EntriesAmbiguous
      end
  end.

Definition pending_listing (operation repository : uuid) (snapshotID path : string) : SnapshotListResult :=
  mkListResult operation repository snapshotID "" path false "" 0 [] zero_time.

(** The reads see the databases [view 0] to [view 3]; the transaction runs on [d]. *)
Definition SnapshotEntries (snapshotID : string) (repositoryID : option uuid) (rawPath rawCursor : string) (requestedBy : uuid)
    (e : EntriesEnv) (view : nat → CentralDb) (d : CentralDb) : result entries_error (SnapshotListResult * bool) * CentralDb :=
  let read {A} (n : nat) (m : Tx A) : result entries_error A :=
    match (run_tx m (ee_read e n) (view n)).1 with Ok a => Ok a | Err x => Err (EntriesStore x) end in
  if negb (rn_list runners) || (slen (cp_masterKey c) != 32) then (Err (EntriesStore ErrStorageUnavailable), d)
  else if slen snapshotID != 64 then (Err (EntriesStore ErrNotFound), d)
  else
    let answer : result entries_error (uuid * string * string * option SnapshotListResult * option Operation) :=
      let! place := entries_place rawPath rawCursor in
      let '(path, cursor) := place in
      let! snapshots := read 0%nat (SnapshotsByID snapshotID) in
      let! resolved := resolve_repository snapshots repositoryID in
      let! repository := read 1%nat (db_Repository resolved) in
      if (rp_ResticID (rv_Row repository) == "") || is_none (rp_InitializedAt (rv_Row repository)) then Err EntriesUnavailable
      else
        let! page := read 2%nat (SnapshotListResult_ resolved snapshotID path cursor (ee_clock e)) in
        match page with
        | Some page => Ok (resolved, path, cursor, Some page, None)
        | None =>
            let! active := read 3%nat (ActiveSnapshotListOperation resolved) in
            Ok (resolved, path, cursor, None, active)
        end in
    match answer with
    | Err x => (Err x, d)
    | Ok (_, _, _, Some page, _) => (Ok (page, false), d)
    | Ok (resolved, path, _, None, Some active) => (Ok (pending_listing (op_ID active) resolved snapshotID path, true), d)
    | Ok (resolved, path, cursor, None, None) =>
        match ee_id e with
        | None => (Err EntriesIdentity, d)
        | Some operationID =>
            let '(r, d) := run_tx (EnqueueSnapshotList (new_operation operationID uuid_Nil (Some resolved) (Some requestedBy))
              snapshotID path cursor (credentialConfigurationHash c)) (ee_enqueue e) d in
            (match r with
             | Ok o => Ok (pending_listing (op_ID o) resolved snapshotID path, true)
             | Err x => Err (EntriesStore x)
             end, d)
        end
    end.

(** ** The indexer *)

(** What one page of repositories reads and draws. *)
Record PageEnv := mkPageEnv { pe_list : TxEnv; pe_proofs : TxEnv; pe_now : time; pe_id : nat → option uuid; pe_enqueue : nat → TxEnv }.

(** Outcomes the indexer passes over. *)
Definition index_skips (r : result dberr Operation) : bool :=
  match r with
  | Ok _ => true
  | Err x => (x == ErrRepositoryBusy) || (x == ErrRepositoryUnavailable) || (x == ErrCredentialDisabled)
  end.

(** The repositories of a page from the [n]-th on: those an index was asked for,
    and what ended the page. *)
Fixpoint index_page (items : list RepositoryView) (n : nat) (e : PageEnv) (d : CentralDb) : list uuid * option storage_error * CentralDb :=
  match items with
  | [] => ([], None, d)
  | v :: items =>
      if rp_Status (rv_Row v) != "READY" then index_page items (S n) e d
      else match pe_id e n with
      | None => ([], Some ErrIdentity, d)
      | Some operationID =>
          let id := rp_ID (rv_Row v) in
          let '(r, d) := run_tx (EnqueueSnapshotIndex (new_operation operationID uuid_Nil (Some id) None) (credentialConfigurationHash c))
            (pe_enqueue e n) d in
          if index_skips r then let '(asked, x, d) := index_page items (S n) e d in (id :: asked, x, d)
          else ([id], match r with Err x => Some (ErrStore x) | Ok _ => None end, d)
      end
  end.

Definition last_id (after : uuid) (items : list RepositoryView) : uuid := default after (rp_ID ∘ rv_Row <$> last items).

(** The loop over pages, with what it has seen; [None] is that the fuel ran out. *)
Fixpoint index_from (fuel : nat) (after : uuid) (page : nat) (e : nat → PageEnv) (d : CentralDb) :
    option (list RepositoryView * list uuid * option storage_error * CentralDb) :=
  match fuel with
  | O => None
  | S fuel =>
      match Repositories c after 200 (pe_now (e page)) (pe_list (e page)) (pe_proofs (e page)) d d with
      | Err x => Some ([], [], Some x, d)
      | Ok items =>
          let '(asked, x, d) := index_page items 0 (e page) d in
          if is_some x then Some (items, asked, x, d)
          else if Z.of_nat (length items) <? 200 then Some (items, asked, None, d)
          else match index_from fuel (last_id after items) (S page) e d with
          | Some (seen, more, x, d) => Some (items ++ seen, asked ++ more, x, d)
          | None => None
          end
      end
  end.

Definition indexReadyRepositories (fuel : nat) (e : nat → PageEnv) (d : CentralDb) :
    option (list RepositoryView * list uuid * option storage_error * CentralDb) := index_from fuel uuid_Nil 0 e d.
End Service.
