(* ===== verification/SnapshotSafety.v ===== *)
(** * SnapshotSafety: what the snapshot services answer

    The indexer ends, and asks for an index of every repository that is ready; a
    listing is answered from a fresh page or by an operation under way. *)

From S2P Require Import Prelude GoStd Uuid Platform GatewaySession GatewayAuth AuditChain PendingRecord CentralTx CentralStore.
From S2P Require Import RcloneConfig StorageSecret CentralTrace CentralRefine CentralPlane StorageVault CentralFrame CentralJobs JobSpec JobRefine JobTrace.
From S2P Require Import JobWorker WorkerHistory RepositoryView SnapshotService.
Open Scope Z_scope.
Open Scope go_scope.
Open Scope central_scope.

(** ** Pages of repositories *)

Notation repositories d := (fl_repositories (cd_fleet d)).

Definition ids_of (l : list Repository) : list uuid := rp_ID <$> l.
Definition view_ids (l : list RepositoryView) : list uuid := (rp_ID ∘ rv_Row) <$> l.

#[export] Instance by_id_total : Total by_id.
Proof. intros a b. unfold by_id. lia. Qed.
#[export] Instance by_id_trans : Transitive by_id.
Proof. intros a b c. unfold by_id. lia. Qed.

Lemma filter_perm {A} (f : A → bool) (l k : list A) : l ≡ₚ k → List.filter f l ≡ₚ List.filter f k.
Proof.
  induction 1 as [|x l k _ IH|x y l|l1 l2 l3 _ IH1 _ IH2]; cbn; [done| | |by etrans]; [destruct (f x); by rewrite ?IH|].
  destruct (f x), (f y); try done. constructor.
Qed.

Lemma filter_every {A} (f : A → bool) (l : list A) : (∀ x, x ∈ l → f x = true) → List.filter f l = l.
Proof. induction l as [|x l IH]; intros H; cbn; [done|]. rewrite H by left. f_equal. apply IH. intros y Hy. apply H. by right. Qed.

Lemma filter_nothing {A} (f : A → bool) (l : list A) : (∀ x, x ∈ l → f x = false) → List.filter f l = [].
Proof. induction l as [|x l IH]; intros H; cbn; [done|]. rewrite H by left. apply IH. intros y Hy. apply H. by right. Qed.

Lemma filter_and {A} (f g : A → bool) (l : list A) : List.filter f (List.filter g l) = List.filter (λ x, f x && g x) l.
Proof. induction l as [|x l IH]; cbn; [done|]. destruct (g x); cbn; [|rewrite andb_false_r; done]. rewrite andb_true_r. by destruct (f x); rewrite IH. Qed.

(** Repositories under their ids. *)
Definition well_keyed (d : CentralDb) : Prop := ∀ id r, repositories d !! id = Some r → rp_ID r = id.

Section Live.
Variable d : CentralDb.
Hypothesis Hkey : well_keyed d.
Notation vals := (map_to_list (repositories d)).*2.

Lemma vals_inv r : r ∈ vals → repositories d !! rp_ID r = Some r.
Proof using Hkey. intros ([id x] & Hx & Hin%elem_of_map_to_list)%list_elem_of_fmap. cbn in Hx. subst x. by rewrite (Hkey _ _ Hin). Qed.

Lemma vals_nodup : NoDup (ids_of vals).
Proof using Hkey.
  assert (Heq : ids_of vals = (map_to_list (repositories d)).*1).
  { unfold ids_of. rewrite <- list_fmap_compose. apply list_fmap_ext. intros i [id r] Hi. cbn. apply Hkey.
    apply elem_of_map_to_list. by eapply list_elem_of_lookup_2. }
  rewrite Heq. apply NoDup_fst_map_to_list.
Qed.

Lemma same_id r r' : r ∈ vals → r' ∈ vals → rp_ID r = rp_ID r' → r = r'.
Proof using Hkey. intros Hr%vals_inv Hr'%vals_inv Heq. rewrite Heq in Hr. congruence. Qed.

Lemma live_perm after : live_repositories after d ≡ₚ List.filter (λ r, is_none (rp_ArchivedAt r) && (after <? rp_ID r)%N) vals.
Proof using Type. apply merge_sort_Permutation. Qed.

Lemma live_elem after r : r ∈ live_repositories after d ↔ r ∈ vals ∧ is_none (rp_ArchivedAt r) = true ∧ (after < rp_ID r)%N.
Proof using Type. rewrite (live_perm after), elem_of_filter_list, andb_true_iff, N.ltb_lt. done. Qed.

Lemma live_sorted after : StronglySorted by_id (live_repositories after d).
Proof using Type. apply StronglySorted_merge_sort; exact _. Qed.

Lemma live_nodup after : NoDup (live_repositories after d).
Proof using Hkey.
  rewrite (live_perm after). apply NoDup_ListNoDup, List.NoDup_filter, NoDup_ListNoDup. eapply NoDup_fmap_1, vals_nodup.
Qed.

(** What is left after the first [k] repositories. *)
Lemma live_rest after k r :
  live_repositories after d !! k = Some r → live_repositories (rp_ID r) d = drop (S k) (live_repositories after d).
Proof using Hkey.
  intros Hk. set (l := live_repositories after d) in *. pose proof (list_elem_of_lookup_2 _ _ _ Hk) as Hr.
  apply live_elem in Hr as (Hrv & _ & Hra).
  assert (Hsplit : l = take (S k) l ++ drop (S k) l) by (by rewrite take_drop).
  pose proof (live_sorted after) as Hs. pose proof (live_nodup after) as Hn. fold l in Hs, Hn.
  assert (Hbefore : ∀ x, x ∈ take (S k) l → (rp_ID x ≤ rp_ID r)%N).
  { intros x Hx. rewrite (take_S_r _ _ _ Hk), elem_of_app, list_elem_of_singleton in Hx. destruct Hx as [Hx| ->]; [|done].
    assert (Hl : l = take k l ++ drop k l) by (by rewrite take_drop). rewrite Hl in Hs.
    eapply (StronglySorted_app_1_elem_of by_id _ _ x r Hs); [done|]. rewrite (drop_S _ _ _ Hk). left. }
  assert (Hafter : ∀ x, x ∈ drop (S k) l → (rp_ID r < rp_ID x)%N).
  { intros x Hx. rewrite Hsplit in Hs, Hn. assert (Hrt : r ∈ take (S k) l) by (rewrite (take_S_r _ _ _ Hk), elem_of_app; right; left).
    pose proof (StronglySorted_app_1_elem_of by_id _ _ r x Hs Hrt Hx) as Hle. unfold by_id in Hle.
    destruct (N.eq_dec (rp_ID r) (rp_ID x)) as [Heq|]; [|lia]. exfalso. apply NoDup_app in Hn as (_ & Hd & _). apply (Hd r Hrt).
    assert (Hxv : x ∈ vals) by (apply (live_elem after); fold l; rewrite Hsplit, elem_of_app; by right).
    by rewrite (same_id r x). }
  apply (StronglySorted_unique_strong by_id).
  - intros x y Hx Hy Hxy Hyx. apply same_id; [by apply (live_elem (rp_ID r))| |unfold by_id in *; lia].
    apply (live_elem after). fold l. rewrite Hsplit, elem_of_app. by right.
  - apply live_sorted.
  - rewrite Hsplit in Hs. by apply StronglySorted_app_1_r in Hs.
  - rewrite (live_perm (rp_ID r)).
    assert (Hf : List.filter (λ x, is_none (rp_ArchivedAt x) && (rp_ID r <? rp_ID x)%N) vals =
      List.filter (λ x, (rp_ID r <? rp_ID x)%N) (List.filter (λ x, is_none (rp_ArchivedAt x) && (after <? rp_ID x)%N) vals)).
    { rewrite filter_and. apply List.filter_ext. intros x. destruct (is_none _); cbn; [|by rewrite andb_false_r].
      destruct (N.ltb_spec (rp_ID r) (rp_ID x)), (N.ltb_spec after (rp_ID x)); cbn; lia || done. }
    rewrite Hf. rewrite <- (filter_perm _ _ _ (live_perm after)). fold l. rewrite Hsplit at 1. rewrite List.filter_app.
    rewrite filter_nothing, filter_every; [done| |].
    + intros x Hx. by apply N.ltb_lt, Hafter.
    + intros x Hx. by apply N.ltb_ge, Hbefore.
Qed.
End Live.

Lemma view_of_row d r v : view_of d r = Some v → rv_Row v = r.
Proof. unfold view_of. repeat case_match; by intros [= <-]. Qed.

Lemma shown_id v o now : rp_ID (rv_Row (WithGatewayObservation v o now)) = rp_ID (rv_Row v).
Proof. apply shown_row. Qed.

Lemma page_ids `{P : Platform} c after limit now e e' d d' items :
  Repositories c after limit now e e' d d' = Ok items → view_ids items = ids_of (take (Z.to_nat limit) (live_repositories after d)).
Proof.
  unfold Repositories. destruct (_ || _); [done|].
  assert (Hread : ∀ l, (run_tx (db_Repositories after limit) e d).1 = Ok l → view_ids l = ids_of (take (Z.to_nat limit) (live_repositories after d))).
  { unfold db_Repositories, run_tx, stmt. cbn. destruct (tx_fault e 0); [done|].
    destruct (mapM (view_of d) _) as [views|] eqn:Hm; [|done]. cbn. intros l [= <-]. apply mapM_Some in Hm.
    clear -Hm. unfold view_ids, ids_of. induction Hm as [|r v l1 l2 Hv _ IH]; [done|]. cbn. by rewrite (view_of_row _ _ _ Hv), IH. }
  destruct (run_tx _ e d).1 as [l|x]; [|done]. specialize (Hread l eq_refl). unfold repositoryAvailability.
  destruct (_ =? 0); [by intros [= <-]|]. destruct (run_tx _ e' d').1 as [f|x]; [|done]. intros [= <-]. rewrite <- Hread.
  unfold view_ids. rewrite <- list_fmap_compose. apply list_fmap_ext. intros i v _. cbn. apply shown_id.
Qed.

(** ** The indexer *)

Section Index.
Context `{U : UuidPkg} `{P : Platform}.
Variable c : Plane.

Lemma Enqueue_keeps_repositories o hash : within (kept (λ d, repositories d)) (EnqueueSnapshotIndex o hash).
Proof using Type.
  unfold EnqueueSnapshotIndex, enqueue_snapshot, lockRepositoryForRead, lock_repository, scanRepository, scanCredential, gatewayReadBinding,
    recordOperationEvent, insert_operation, insert_job, insert_event, save_operation.
  cbv zeta. stays; open_row; reflexivity.
Qed.

(** The repositories of a page that are shown READY. *)
Definition ready_ids (items : list RepositoryView) : list uuid :=
  view_ids (List.filter (λ v, rp_Status (rv_Row v) == "READY") items).

Lemma index_page_spec items n e d :
  let '(asked, x, d') := index_page c items n e d in
  repositories d' = repositories d ∧ (x = None → asked = ready_ids items).
Proof using Type.
  revert n d. induction items as [|v items IH]; intros n d; cbn [index_page]; [done|]. unfold ready_ids in *. cbn [List.filter].
  destruct (rp_Status (rv_Row v) == "READY"); cbn [negb]; [|apply IH]. destruct (pe_id e n) as [id|]; [|done].
  set (m := EnqueueSnapshotIndex _ _). assert (Hk : repositories (run_tx m (pe_enqueue e n) d).2 = repositories d) by
    (apply (within_run (kept (λ d, repositories d))), Enqueue_keeps_repositories).
  destruct (run_tx m (pe_enqueue e n) d) as [r d1]. cbn in Hk. destruct (index_skips r) eqn:Hr.
  - specialize (IH (S n) d1). destruct (index_page c items (S n) e d1) as [[asked x] d2]. destruct IH as [E1 E2]. split; [congruence|].
    intros Hx. cbn. by rewrite E2.
  - split; [done|]. destruct r as [o|x]; [by vm_compute in Hr|done].
Qed.

Lemma live_same d d' after : repositories d' = repositories d → live_repositories after d' = live_repositories after d.
Proof using Type. intros H. unfold live_repositories. by rewrite H. Qed.

Lemma last_of_page after items l k :
  view_ids items = ids_of (take k l) → (0 < k)%nat → (k ≤ length l)%nat → ∃ r, l !! (k - 1)%nat = Some r ∧ last_id after items = rp_ID r.
Proof using Type.
  intros Hv Hk Hl. destruct (lookup_lt_is_Some_2 l (k - 1)) as [r Hr]; [lia|]. exists r. split; [done|].
  assert (Hlast : last (view_ids items) = Some (rp_ID r)).
  { rewrite Hv. unfold ids_of. rewrite fmap_last, last_lookup, length_take_le, lookup_take_lt by lia.
    replace (pred k) with (k - 1)%nat by lia. by rewrite Hr. }
  unfold last_id. unfold view_ids in Hlast. rewrite fmap_last in Hlast. destruct (last items); [by injection Hlast|done].
Qed.

Lemma index_from_spec fuel after page e d :
  well_keyed d → (length (live_repositories after d) < fuel)%nat →
  ∃ seen asked x d', index_from c fuel after page e d = Some (seen, asked, x, d') ∧ repositories d' = repositories d ∧
    (x = None → view_ids seen = ids_of (live_repositories after d) ∧ asked = ready_ids seen).
Proof using Type.
  revert after page d. induction fuel as [|fuel IH]; intros after page d Hk Hf; [lia|]. cbn [index_from].
  destruct (Repositories c after 200 _ _ _ d d) as [items|x] eqn:Hp; [|by exists [], [], (Some x), d].
  apply page_ids in Hp. change (Z.to_nat 200) with 200%nat in Hp.
  pose proof (index_page_spec items 0 (e page) d) as Hpage. destruct (index_page c items 0 (e page) d) as [[asked x] d1].
  destruct Hpage as [Hr Ha]. destruct x as [x|]; [by exists items, asked, (Some x), d1|]. cbn [is_some is_none negb]. specialize (Ha eq_refl).
  assert (Hlen : length items = Nat.min 200 (length (live_repositories after d))).
  { assert (Hl : length (view_ids items) = length (ids_of (take 200 (live_repositories after d)))) by (by rewrite Hp).
    unfold view_ids, ids_of in Hl. rewrite !length_fmap, length_take in Hl. done. }
  destruct (Z.of_nat (length items) <? 200) eqn:Hlt; bool_prop.
  - exists items, asked, None, d1. split_and!; [done|done|]. intros _. split; [|done]. rewrite Hp, take_ge by lia. done.
  - destruct (last_of_page after items (live_repositories after d) 200 Hp) as (r & Hlast & ->); [lia..|].
    pose proof (live_rest d Hk after _ r Hlast) as Hrest. change (S (200 - 1)) with 200%nat in Hrest.
    destruct (IH (rp_ID r) (S page) d1) as (seen & more & x & d2 & -> & E1 & E2).
    { intros id y. rewrite Hr. apply Hk. }
    { rewrite (live_same _ _ _ Hr), Hrest, length_drop. lia. }
    exists (items ++ seen), (asked ++ more), x, d2. split_and!; [done|congruence|]. intros Hx. destruct (E2 Hx) as [E3 E4].
    rewrite (live_same _ _ _ Hr), Hrest in E3. unfold view_ids, ready_ids, ids_of in *. rewrite fmap_app, E3, Hp, <- fmap_app, take_drop.
    split; [done|]. rewrite Ha, E4, List.filter_app. unfold view_ids. by rewrite fmap_app.
Qed.

(** C26: a pass of the indexer ends, after at most one page more than there are
    repositories, whatever the calls of the store return; when it ends without an
    error it has seen every repository that is not archived exactly once, in the
    order of their ids, and has asked for an index of exactly those shown READY. *)
Theorem indexer_visits_all (fuel : nat) (e : nat → PageEnv) (d : CentralDb) :
  well_keyed d → (length (live_repositories uuid_Nil d) < fuel)%nat →
  ∃ seen asked x d', indexReadyRepositories c fuel e d = Some (seen, asked, x, d') ∧
    (x = None → view_ids seen = ids_of (live_repositories uuid_Nil d) ∧ NoDup (view_ids seen) ∧ asked = ready_ids seen).
Proof using Type.
  intros Hk Hf. destruct (index_from_spec fuel uuid_Nil 0 e d Hk Hf) as (seen & asked & x & d' & E1 & _ & E2). exists seen, asked, x, d'.
  split; [done|]. intros Hx. destruct (E2 Hx) as [E3 E4]. split_and!; [done| |done]. rewrite E3. unfold ids_of.
  rewrite (live_perm d uuid_Nil). pose proof (vals_nodup d Hk) as Hn. unfold ids_of in Hn.
  assert (Hsub : ∀ f l, NoDup (rp_ID <$> l) → NoDup (rp_ID <$> List.filter f l)); [|by apply Hsub].
  clear. intros f l. induction l as [|r l IH]; cbn; [done|]. intros [Hr Hl]%NoDup_cons. destruct (f r); [|by apply IH].
  cbn. apply NoDup_cons. split; [|by apply IH]. intros (y & Hy & Hin)%list_elem_of_fmap. apply Hr. rewrite Hy. apply list_elem_of_fmap_2.
  by apply elem_of_filter_list in Hin as [? _].
Qed.
End Index.

(** ** Listings *)

Section Entries.
Context `{U : UuidPkg} `{P : Platform} `{C : AuditCodec} `{L : Collation} `{LC : ListCodec}.
Variable c : Plane.
Variable runners : Runners.

(** What a transaction leaves committed when it succeeds. *)
Definition leaves {A} (m : Tx A) (Q : A → CentralDb → Prop) : Prop := ∀ w k, wp m (λ r _ k', ∀ a, r = Ok a → Q a k') w k.

Lemma leaves_fail {A} x (Q : A → CentralDb → Prop) : leaves (tfail x) Q.
Proof using Type. intros w k. by apply wp_fail. Qed.

Lemma leaves_any {A B} (m : Tx A) (f : A → Tx B) Q : (∀ a, leaves (f a) Q) → leaves (tbind m f) Q.
Proof using Type. intros Hf w k. apply wp_bind. intros e ab n. destruct (m e _) as [[a|x] [w' k' ab' n']]; cbn; [apply Hf|done]. Qed.

(** A part that keeps [p] of the database. *)
Lemma wp_keeping {X A B} (p : CentralDb → X) (m : Tx A) (f : A → Tx B) Q w k :
  within (kept p) m → (∀ a w' k', p w' = p w → wp (f a) (λ r _ k', ∀ b, r = Ok b → Q b k') w' k') →
  wp (tbind m f) (λ r _ k', ∀ b, r = Ok b → Q b k') w k.
Proof using Type.
  intros Hm Hf. apply wp_bind, (wp_within (kept p)); [done|]. intros [a|x] w' k' Hw _; [by apply Hf|done].
Qed.

(** The operation as it was queued. *)
Definition queued_listing (repository : uuid) (x : Operation) (d : CentralDb) : Prop :=
  operations d !! op_ID x = Some x ∧ op_Type x = "SNAPSHOT_LIST" ∧ op_RepositoryID x = Some repository ∧ op_FinishedAt x = None.

Lemma enqueue_leaves o id source payload hash repository :
  op_RepositoryID o = Some repository → leaves (enqueue_snapshot o id "SNAPSHOT_LIST" source payload hash) (queued_listing repository).
Proof using Type.
  intros Hrepo. unfold enqueue_snapshot. apply leaves_any. intros [repo [x|]]; [apply leaves_fail|]. destruct (_ || _); [apply leaves_fail|].
  apply leaves_any. intros [|]; [apply leaves_fail|]. apply leaves_any. intros [|]; [apply leaves_fail|]. apply leaves_any. intros cr.
  destruct (_ == _); [apply leaves_fail|]. do 2 (apply leaves_any; intros ?). cbv zeta. set (o' := queued _ _ _ _ _). intros w k.
  apply wp_bind, wp_exec_unique; [done|]. intros t w1 _ Hw1.
  assert (Ho : operations w1 !! op_ID o' = Some o').
  { unfold insert_operation, save_operation in Hw1. destruct (_ || _); [done|]. destruct (operation_check o'); [|done]. injection Hw1 as <-.
    apply lookup_insert_eq. }
  apply (wp_keeping (λ d, operations d)); [stays|]. intros job w2 k2 H2.
  apply (wp_keeping (λ d, operations d)); [unfold insert_job; stays; open_row; reflexivity|]. intros [] w3 k3 H3.
  apply (wp_keeping (λ d, operations d)); [unfold recordOperationEvent, insert_event; stays; open_row; reflexivity|]. intros [] w4 k4 H4.
  apply wp_bind, wp_commit; [done|done|]. apply wp_ret. intros x [= <-]. split_and!; [congruence|done|exact Hrepo|done].
Qed.

Lemma EnqueueList_leaves o snapshot path cursor hash repository :
  op_RepositoryID o = Some repository → leaves (EnqueueSnapshotList o snapshot path cursor hash) (queued_listing repository).
Proof using Type.
  intros Hrepo. unfold EnqueueSnapshotList. rewrite Hrepo. destruct (op_RequestedByUserID o); [|apply leaves_fail].
  destruct (_ || _); [apply leaves_fail|]. destruct (MarshalList _ _ _); [by apply enqueue_leaves|apply leaves_fail].
Qed.

(** A page that answers a request. *)
Definition answers (d : CentralDb) (repository : uuid) (snapshotID path cursor : string) (now : time) (r : SnapshotListResult) : Prop :=
  ∃ id p, fl_pages (cd_fleet d) !! id = Some p ∧ pg_RepositoryID p = repository ∧ pg_SnapshotID p = snapshotID ∧ pg_Path p = path ∧
    pg_Cursor p = cursor ∧ now < pg_ExpiresAt p ∧
    r = mkListResult id (pg_RepositoryID p) (pg_SnapshotID p) (pg_TreeID p) (pg_Path p) (pg_Truncated p) (pg_NextCursor p) (pg_Scanned p)
          (pg_Entries p) (pg_CollectedAt p).

Lemma fresh_page_inv repository snapshotID path cursor now d id p :
  fresh_page repository snapshotID path cursor now d = Some (id, p) →
  fl_pages (cd_fleet d) !! id = Some p ∧ pg_RepositoryID p = repository ∧ pg_SnapshotID p = snapshotID ∧ pg_Path p = path ∧
  pg_Cursor p = cursor ∧ now < pg_ExpiresAt p.
Proof using Type.
  unfold fresh_page.
  assert (Hin : ∀ l, (∀ kv, kv ∈ l → fl_pages (cd_fleet d) !! kv.1 = Some kv.2) → ∀ id p,
    foldr (λ kv best, let p := kv.2 in
      if (pg_RepositoryID p == repository) && (pg_SnapshotID p == snapshotID) && (pg_Path p == path) && (pg_Cursor p == cursor) && (now <? pg_ExpiresAt p)
      then match best with Some x => if pg_CollectedAt (snd x) <? pg_CollectedAt p then Some kv else best | None => Some kv end
      else best) None l = Some (id, p) →
    fl_pages (cd_fleet d) !! id = Some p ∧ pg_RepositoryID p = repository ∧ pg_SnapshotID p = snapshotID ∧ pg_Path p = path ∧
    pg_Cursor p = cursor ∧ now < pg_ExpiresAt p).
  { intros l Hl. induction l as [|[i x] l IH]; intros j q; cbn [foldr snd]; [done|]. cbv zeta.
    assert (Hrest : ∀ kv, kv ∈ l → fl_pages (cd_fleet d) !! kv.1 = Some kv.2) by (intros kv Hkv; apply Hl; by right). specialize (IH Hrest).
    destruct (_ && _) eqn:Hb; [|by apply IH]. bool_prop. pose proof (Hl (i, x)) as Hx. cbn in Hx. specialize (Hx ltac:(left)).
    destruct (foldr _ _ _) as [y|]; [|intros [= <- <-]; by split_and!]. destruct (_ <? _); [|by apply IH]. intros [= <- <-]. by split_and!. }
  apply Hin. intros [i x] Hkv. by apply elem_of_map_to_list.
Qed.

(** [repository] has the snapshot, is the one asked for, and the only one if none
    was. *)
Definition names_repository (d : CentralDb) (snapshotID : string) (asked : option uuid) (repository : uuid) : Prop :=
  is_Some (fl_snapshots (cd_fleet d) !! (repository, snapshotID)) ∧
  match asked with
  | Some id => id = repository
  | None => ∀ other, is_Some (fl_snapshots (cd_fleet d) !! (other, snapshotID)) → other = repository
  end.

Lemma snapshots_elem snapshotID e d l :
  (run_tx (SnapshotsByID snapshotID) e d).1 = Ok l → ∀ r, r ∈ l.*1 ↔ is_Some (fl_snapshots (cd_fleet d) !! (r, snapshotID)).
Proof using Type.
  unfold SnapshotsByID, run_tx, select, stmt. cbn. destruct (tx_fault e 0); [done|]. cbn. intros [= <-] r. rewrite merge_sort_Permutation.
  rewrite list_elem_of_fmap. split.
  - intros ([i x] & -> & ([[i' s] y] & [= -> ->] & Hin)%list_elem_of_fmap). apply elem_of_filter_list in Hin as [Hin Hs]. cbn in *. bool_prop. subst s.
    apply elem_of_map_to_list in Hin. by eexists.
  - intros [x Hx]. exists (r, x). split; [done|]. apply list_elem_of_fmap. exists ((r, snapshotID), x). split; [done|].
    apply elem_of_filter_list. split; [by apply elem_of_map_to_list|]. cbn. by apply bool_decide_eq_true.
Qed.

Lemma resolve_names snapshotID asked e d l repository :
  (run_tx (SnapshotsByID snapshotID) e d).1 = Ok l → resolve_repository l asked = Ok repository → names_repository d snapshotID asked repository.
Proof using Type.
  intros Hl Hr. pose proof (snapshots_elem _ _ _ _ Hl) as Hel. unfold resolve_repository in Hr. destruct l as [|[first x] l]; [done|].
  destruct asked as [id|].
  - destruct (bool_decide _) eqn:Hb; [|done]. injection Hr as <-. bool_prop. apply elem_of_list_to_set, Hel in Hb. by split.
  - destruct (_ =? 1)%nat eqn:Hs; [|done]. injection Hr as <-. apply Nat.eqb_eq, size_1_elem_of in Hs as [y Hy]. split; [apply Hel; left|].
    intros other Ho%Hel. assert (Hfirst : first ∈ (list_to_set ((first, x) :: l).*1 : gset uuid)) by (apply elem_of_list_to_set; left).
    apply (elem_of_list_to_set (C := gset uuid)) in Ho. rewrite Hy in Ho, Hfirst. by apply elem_of_singleton in Ho as ->, Hfirst as ->.
Qed.

Lemma page_read repository snapshotID path cursor now e d page :
  (run_tx (SnapshotListResult_ repository snapshotID path cursor now) e d).1 = Ok (Some page) →
  answers d repository snapshotID path cursor now page.
Proof using Type.
  unfold SnapshotListResult_, run_tx, select, stmt. cbn. destruct (tx_fault e 0); [done|]. cbn.
  destruct (fresh_page _ _ _ _ _ _) as [[id p]|] eqn:Hp; [|done]. cbn. intros [= <-]. apply fresh_page_inv in Hp as (? & ? & ? & ? & ? & ?).
  exists id, p. by split_and!.
Qed.

Lemma active_read repository e d o :
  (run_tx (ActiveSnapshotListOperation repository) e d).1 = Ok (Some o) →
  (∃ id, operations d !! id = Some o) ∧ op_Type o = "SNAPSHOT_LIST" ∧ op_RepositoryID o = Some repository ∧ op_FinishedAt o = None.
Proof using Type.
  unfold ActiveSnapshotListOperation, run_tx, select, stmt. cbn. destruct (tx_fault e 0); [done|]. cbn. intros [= Hf].
  apply find_some in Hf as [Hin Hb]. bool_prop. apply list_elem_of_In, list_elem_of_fmap in Hin as ([id x] & Hx & Hin%elem_of_map_to_list).
  cbn in Hx. subst x. split_and!; [by exists id|done|done|by destruct (op_FinishedAt o)].
Qed.

(** A listing is answered from a page that is still fresh, or by an operation
    that fetches one. The repository is the one asked for, or the only one that
    has the snapshot; a page returned is stored for just this place and has not
    expired, and nothing is written; otherwise the answer names an unfinished
    listing of that repository, found under way or committed by this call. *)
Theorem listing_is_answered (snapshotID : string) (asked : option uuid) (rawPath rawCursor : string) (user : uuid) (e : EntriesEnv)
    (view : nat → CentralDb) (d d' : CentralDb) (r : SnapshotListResult) (pending : bool) :
  SnapshotEntries c runners snapshotID asked rawPath rawCursor user e view d = (Ok (r, pending), d') →
  ∃ repository path cursor, entries_place rawPath rawCursor = Ok (path, cursor) ∧ names_repository (view 0%nat) snapshotID asked repository ∧
    lr_RepositoryID r = repository ∧ lr_SnapshotID r = snapshotID ∧ lr_Path r = path ∧
    if pending then
      ∃ o, op_ID o = lr_OperationID r ∧ op_Type o = "SNAPSHOT_LIST" ∧ op_RepositoryID o = Some repository ∧ op_FinishedAt o = None ∧
        ((∃ id, operations (view 3%nat) !! id = Some o) ∧ d' = d ∨ operations d' !! op_ID o = Some o)
    else d' = d ∧ answers (view 2%nat) repository snapshotID path cursor (ee_clock e) r.
Proof using Type.
  unfold SnapshotEntries. cbv zeta. destruct (_ || _); [done|]. destruct (_ != 64); [done|].
  destruct (entries_place rawPath rawCursor) as [[path cursor]|x]; cbn [rbind]; [|done].
  destruct (run_tx (SnapshotsByID snapshotID) _ _).1 as [snapshots|x] eqn:Hs; cbn [rbind]; [|done].
  destruct (resolve_repository snapshots asked) as [repository|x] eqn:Hr; cbn [rbind]; [|done].
  pose proof (resolve_names _ _ _ _ _ _ Hs Hr) as Hn.
  destruct (run_tx (db_Repository repository) _ _).1 as [v|x]; cbn [rbind]; [|done]. destruct (_ || _); [done|].
  destruct (run_tx (SnapshotListResult_ _ _ _ _ _) _ _).1 as [[page|]|x] eqn:Hp; cbn [rbind]; [| |done].
  - intros [= <- <- <-]. apply page_read in Hp. pose proof Hp as (id & p & _ & Hpr & Hps & Hpp & _ & _ & ->). cbn.
    exists repository, path, cursor. by split_and!.
  - destruct (run_tx (ActiveSnapshotListOperation repository) _ _).1 as [[active|]|x] eqn:Ha; cbn [rbind]; [| |done].
    + intros [= <- <- <-]. apply active_read in Ha as (Hid & Ht & Hrp & Hf). exists repository, path, cursor. split_and!; try done.
      exists active. split_and!; try done. by left.
    + destruct (ee_id e) as [id|]; [|done].
      set (o := new_operation id uuid_Nil (Some repository) (Some user)).
      pose proof (wp_run _ (λ r d', ∀ a, r = Ok a → queued_listing repository a d') (ee_enqueue e) d
        (EnqueueList_leaves o snapshotID path cursor (credentialConfigurationHash c) repository eq_refl d d)) as Hl.
      destruct (run_tx (EnqueueSnapshotList _ _ _ _ _) _ d) as [[x|x] d1]; [|done]. intros [= <- <- <-].
      destruct (Hl x eq_refl) as (Ho & Ht & Hrp & Hf). exists repository, path, cursor. split_and!; try done. exists x. split_and!; try done. by right.
Qed.
End Entries.
