(* ===== verification/ServiceExamples.v ===== *)
(** * ServiceExamples: a repository's proof, its index, and a listing

    A Gateway proves its backend, the repository is shown READY, the indexer asks
    for its index, and a listing of one of its snapshots is queued; the theorems of
    RepositoryView and SnapshotSafety at these databases. *)

From S2P Require Import Prelude GoStd Uuid Platform GatewaySession GatewayAuth AuditChain PendingRecord CentralTx CentralStore.
From S2P Require Import CentralTrace CentralRefine CentralPlane CentralHistory CentralExamples RcloneConfig RcloneExamples StorageSecret PendingExamples.
From S2P Require Import StorageVault CentralFrame CentralJobs JobSpec JobExamples JobWorker VaultExamples RepositoryView SnapshotService SnapshotSafety.
Open Scope Z_scope.
Open Scope go_scope.
Open Scope central_scope.

Definition ex_proof : string :=
  ex_record (v7 51) 1 zero_hash 30 (mkGatewayEvent (mkGatewayBinding (v7 5) (v7 6) (v7 7) (v7 2)) false "backend_ready" "verified").
Definition ex_proved : CentralDb := central_run ex_plane (take 3 ex_events ++ [Replay (ex_replay 31) (v7 3) ex_proof]) ex_start.
Definition shown {E} (r : result E (list RepositoryView)) : list RepositoryView := match r with Ok views => views | Err _ => [] end.
Definition ex_views (t : Z) : list RepositoryView :=
  shown (Repositories ex_plane uuid_Nil 200 (at_ t) (ex_env t) (ex_env t) ex_proved ex_proved).
Definition ex_view : RepositoryView := default (mkView (mkRepository 0 0 0 "" 0 0 0 None None "" None 0 0 None) None) (head (ex_views 60)).

(** Eleven minutes later the proof no longer counts. *)
Example proof_expires : (rp_Status ∘ rv_Row) <$> ex_views 60 = ["READY"] ∧ (rp_Status ∘ rv_Row) <$> ex_views 720 = ["DEGRADED"].
Proof. vm_compute. done. Qed.

Lemma ready_means_vouched_witness :
  is_Some (rv_AcceptedAt ex_view) ∧
  ∃ stored a o g p ev, vouched (credentialConfigurationHash ex_plane) (at_ 60) (Truncate (at_ 60) second) ex_proved (rv_Row ex_view) stored a o g p ev.
Proof.
  assert (Hv : Repositories ex_plane uuid_Nil 200 (at_ 60) (ex_env 60) (ex_env 60) ex_proved ex_proved = Ok [ex_view]) by (vm_compute; reflexivity).
  replace (at_ 60) with (tx_clock (ex_env 60) 0) at 1 by (vm_compute; reflexivity).
  apply (ready_means_vouched ex_plane uuid_Nil 200 (at_ 60) (ex_env 60) (ex_env 60) ex_proved ex_proved [ex_view] ex_view Hv).
  - left.
  - vm_compute. reflexivity.
Defined.

Definition ex_page (n : nat) : PageEnv := mkPageEnv (ex_env 60) (ex_env 60) (at_ 60) (λ _, Some (v7 90)) (λ _, ex_env 61).

Lemma ex_well_keyed : well_keyed ex_proved.
Proof.
  assert (Hr : repositories ex_proved = repositories ex_start) by (vm_compute; reflexivity). intros id r. rewrite Hr. cbn.
  by intros [<- <-]%lookup_singleton_Some.
Qed.

Lemma indexer_visits_all_witness :
  ∃ seen asked x d', indexReadyRepositories ex_plane 2 ex_page ex_proved = Some (seen, asked, x, d') ∧
    (x = None → view_ids seen = ids_of (live_repositories uuid_Nil ex_proved) ∧ NoDup (view_ids seen) ∧ asked = ready_ids seen).
Proof.
  apply (indexer_visits_all ex_plane 2 ex_page ex_proved ex_well_keyed).
  assert (Hl : live_repositories uuid_Nil ex_proved = live_repositories uuid_Nil ex_start) by (vm_compute; reflexivity).
  rewrite Hl. vm_compute. lia.
Defined.

(** The repository is proved, so the pass queued one index. *)
Example indexer_asks :
  (λ p, (p.1.1.2, p.1.2)) <$> indexReadyRepositories ex_plane 2 ex_page ex_proved = Some ([v7 6], None) ∧
  (λ p, op_Status <$> (operations p.2 !! v7 90)) <$> indexReadyRepositories ex_plane 2 ex_page ex_proved = Some (Some "QUEUED").
Proof. vm_compute. done. Qed.

(** A listing of a snapshot that one repository has. *)
Definition ex_snapshot : string := hex_encode (bytes_be 32 9).
Definition ex_listed : CentralDb :=
  set_snapshots {[(v7 6, ex_snapshot) := mkSnapshotRow None None (v7 5) (v7 76) (at_ 0) (at_ 0) 0 0 false ex_snapshot [] [] "" None]} ex_proved.
Definition ex_entries : EntriesEnv := mkEntriesEnv (λ _, ex_env 60) (at_ 60) (Some (v7 91)) (ex_env 61).
Definition ex_answered : CentralDb :=
  (SnapshotEntries ex_plane ex_runners ex_snapshot None "/etc" "" (v7 71) ex_entries (λ _, ex_listed) ex_listed).2.
Definition ex_pending : SnapshotListResult := pending_listing (v7 91) (v7 6) ex_snapshot "/etc".

Lemma listing_is_answered_witness :
  ∃ o, op_ID o = v7 91 ∧ op_Type o = "SNAPSHOT_LIST" ∧ op_RepositoryID o = Some (v7 6) ∧ op_FinishedAt o = None.
Proof.
  assert (Ha : SnapshotEntries ex_plane ex_runners ex_snapshot None "/etc" "" (v7 71) ex_entries (λ _, ex_listed) ex_listed =
    (Ok (ex_pending, true), ex_answered)) by (vm_compute; reflexivity).
  destruct (listing_is_answered ex_plane ex_runners ex_snapshot None "/etc" "" (v7 71) ex_entries (λ _, ex_listed) ex_listed ex_answered ex_pending true Ha) as (repository & path & cursor & _ & _ & Hr & _ & _ & o & Ho & Ht & Hrp & Hf & _).
  exists o. cbn in Hr. split_and!; [exact Ho|exact Ht|by rewrite Hrp, <- Hr|exact Hf].
Defined.
