(* ===== verification/BackupStore.v ===== *)
(** * BackupStore: the control plane's record of backup operations

    The transactions of internal/persistence/postgres: operations.go (the
    operations Agents report and users queue, their events, cancellations and
    snapshots), backup_requests.go (the memory of requests), operation_logs.go,
    and [ReconcilePlanHealth] of plan.go, on the tables of CentralTx with the
    constraints of db/migrations. *)

From S2P Require Import Prelude GoStd Uuid Platform Domain Plan DomainLogs GatewaySession GatewayAuth AuditChain PendingRecord.
From S2P Require Import CentralTx CentralStore AgentLogs.
Open Scope Z_scope.
Open Scope go_scope.
Open Scope central_scope.

(** ** Reports (internal/domain/operation.go) *)

Record BackupOperationProgress := mkProgress {
  bp_OperationID : uuid;
  bp_PlanID : uuid;
  bp_AgentID : uuid;
  bp_PlanRevision : Z;
  bp_ScheduledAt : time;
  bp_Sequence : Z;
  bp_Stage : string;
  bp_FilesDone : Z;
  bp_TotalFiles : Z;
  bp_BytesDone : Z;
  bp_TotalBytes : Z;
  bp_ObservedAt : time;
  bp_ParentOperationID : option uuid;
  bp_RootOperationID : option uuid;
  bp_Attempt : Z }.

Record BackupOperationResult := mkBackupResult {
  bres_OperationID : uuid;
  bres_PlanID : uuid;
  bres_AgentID : uuid;
  bres_PlanRevision : Z;
  bres_ScheduledAt : time;
  bres_Status : string;
  bres_ErrorCode : string;
  bres_ExitCode : Z;
  bres_SnapshotID : string;
  bres_FilesNew : Z;
  bres_DataAdded : Z;
  bres_FinishedAt : time;
  bres_ParentOperationID : option uuid;
  bres_RootOperationID : option uuid;
  bres_Attempt : Z;
  bres_Summary : option BackupSummary }.

Record BackupRequestKey := mkRequestKey { rk_Scope : string; rk_Key : string; rk_Body : string }.

(** What a report says about the identity of its operation: the arguments of
    [lockReportedOperation]. *)
Record Reported := mkReported {
  rd_ID : uuid;
  rd_AgentID : uuid;
  rd_PlanID : uuid;
  rd_PlanRevision : Z;
  rd_Parent : option uuid;
  rd_Root : option uuid;
  rd_Attempt : Z }.
Definition reported_progress (p : BackupOperationProgress) : Reported :=
  mkReported (bp_OperationID p) (bp_AgentID p) (bp_PlanID p) (bp_PlanRevision p) (bp_ParentOperationID p) (bp_RootOperationID p) (bp_Attempt p).
Definition reported_result (r : BackupOperationResult) : Reported :=
  mkReported (bres_OperationID r) (bres_AgentID r) (bres_PlanID r) (bres_PlanRevision r) (bres_ParentOperationID r) (bres_RootOperationID r)
    (bres_Attempt r).

(** ** Tables *)

Definition runs (d : CentralDb) : gmap uuid BackupOperation := bk_operations (fl_backups (cd_fleet d)).
Definition run_events (d : CentralDb) : gmap (uuid * Z) BackupEventRow := bk_events (fl_backups (cd_fleet d)).
Definition log_heads (d : CentralDb) : gmap uuid LogHeadRow := bk_heads (fl_backups (cd_fleet d)).
Definition log_rows (d : CentralDb) : gmap (uuid * Z) BackupLogEntry := bk_logs (fl_backups (cd_fleet d)).
Definition run_requests (d : CentralDb) : gmap (string * string) BackupRequestRow := bk_requests (fl_backups (cd_fleet d)).

Definition set_runs (x : gmap uuid BackupOperation) (d : CentralDb) : CentralDb :=
  set_backups (mkBackups x (run_events d) (log_heads d) (log_rows d) (run_requests d)) d.
Definition set_run_events (x : gmap (uuid * Z) BackupEventRow) (d : CentralDb) : CentralDb :=
  set_backups (mkBackups (runs d) x (log_heads d) (log_rows d) (run_requests d)) d.
Definition set_log_heads (x : gmap uuid LogHeadRow) (d : CentralDb) : CentralDb :=
  set_backups (mkBackups (runs d) (run_events d) x (log_rows d) (run_requests d)) d.
Definition set_log_rows (x : gmap (uuid * Z) BackupLogEntry) (d : CentralDb) : CentralDb :=
  set_backups (mkBackups (runs d) (run_events d) (log_heads d) x (run_requests d)) d.
Definition set_run_requests (x : gmap (string * string) BackupRequestRow) (d : CentralDb) : CentralDb :=
  set_backups (mkBackups (runs d) (run_events d) (log_heads d) (log_rows d) x) d.

(** The CHECK constraints of [backup_operations]. *)
Definition run_statuses : list string :=
  ["QUEUED"; "RUNNING"; "SUCCEEDED"; "SUCCEEDED_WITH_WARNINGS"; "FAILED"; "CANCEL_REQUESTED"; "CANCELED"; "LOST"; "MISSED";
   "CONCURRENCY_SKIPPED"].
Definition run_check (o : BackupOperation) : bool :=
  bool_decide (bo_Status o ∈ run_statuses) && (0 <? bo_PlanRevision o) && (0 <=? bo_FilesDone o) && (0 <=? bo_TotalFiles o) &&
  (0 <=? bo_BytesDone o) && (0 <=? bo_TotalBytes o) && (1 <=? bo_Attempt o) && (bo_Attempt o <=? 10000).

Definition known_run (d : CentralDb) (id : uuid) : bool := is_some (runs d !! id).
(** Its foreign keys; a row may refer to itself. *)
Definition run_references (o : BackupOperation) (d : CentralDb) : bool :=
  is_some (fl_plans (cd_fleet d) !! bo_PlanID o) && is_some (fl_agents (cd_fleet d) !! bo_AgentID o) &&
  match bo_ParentOperationID o with Some id => known_run d id || (id == bo_ID o) | None => true end &&
  match bo_RootOperationID o with Some id => known_run d id || (id == bo_ID o) | None => true end.

Definition open_run (o : BackupOperation) : bool := is_none (bo_FinishedAt o).

Definition save_run (o : BackupOperation) (d : CentralDb) : option CentralDb :=
  if run_check o then Some (set_runs (<[bo_ID o := o]> (runs d)) d) else None.
Definition insert_run (o : BackupOperation) (d : CentralDb) : option CentralDb :=
  if known_run d (bo_ID o) || negb (run_references o d) then None else save_run o d.

(** [now()]: when the transaction began, at its first statement. *)
Definition transaction_timestamp : Tx time := λ e s, (Ok (tx_clock e 0), s).

Definition scanBackupOperation (f : CentralDb → option BackupOperation) : Tx BackupOperation :=
  let* row := select (λ _, f) in
  match row with Some o => tret o | None => tfail ErrNotFound end.

(** ** Changes of a row *)

Definition with_progress (status : string) (started : option time) (updated : time) (o : BackupOperation) : BackupOperation :=
  mkBackup (bo_ID o) (bo_PlanID o) (bo_AgentID o) (bo_Type o) (bo_Source o) status (bo_PlanRevision o) (bo_ConfigHash o)
    (bo_ScheduledAt o) started (bo_FinishedAt o) (bo_ExitCode o) (bo_ErrorCode o) (bo_SnapshotID o) (bo_FilesDone o) (bo_TotalFiles o)
    (bo_BytesDone o) (bo_TotalBytes o) (bo_CreatedAt o) updated (bo_ParentOperationID o) (bo_RootOperationID o) (bo_CancelRequestedAt o)
    (bo_CancelReason o) (bo_DispatchedAt o) (bo_Attempt o) (bo_Summary o).

Definition with_counters (files total bytes size : Z) (updated : time) (summary : option BackupSummary) (o : BackupOperation) : BackupOperation :=
  mkBackup (bo_ID o) (bo_PlanID o) (bo_AgentID o) (bo_Type o) (bo_Source o) (bo_Status o) (bo_PlanRevision o) (bo_ConfigHash o)
    (bo_ScheduledAt o) (bo_StartedAt o) (bo_FinishedAt o) (bo_ExitCode o) (bo_ErrorCode o) (bo_SnapshotID o) files total bytes size
    (bo_CreatedAt o) updated (bo_ParentOperationID o) (bo_RootOperationID o) (bo_CancelRequestedAt o) (bo_CancelReason o)
    (bo_DispatchedAt o) (bo_Attempt o) summary.

Definition with_end (status : string) (finished : time) (exit : option Z) (error snapshot : string) (updated : time) (o : BackupOperation) :
    BackupOperation :=
  mkBackup (bo_ID o) (bo_PlanID o) (bo_AgentID o) (bo_Type o) (bo_Source o) status (bo_PlanRevision o) (bo_ConfigHash o)
    (bo_ScheduledAt o) (bo_StartedAt o) (Some finished) exit error snapshot (bo_FilesDone o) (bo_TotalFiles o) (bo_BytesDone o)
    (bo_TotalBytes o) (bo_CreatedAt o) updated (bo_ParentOperationID o) (bo_RootOperationID o) (bo_CancelRequestedAt o) (bo_CancelReason o)
    (bo_DispatchedAt o) (bo_Attempt o) (bo_Summary o).

(** Closed by the server, with a code of its own. *)
Definition closed_run (status error : string) (now : time) (o : BackupOperation) : BackupOperation :=
  with_end status now (bo_ExitCode o) error (bo_SnapshotID o) now o.

Definition with_cancel (status : string) (finished : option time) (error : string) (now : time) (reason : string) (o : BackupOperation) :
    BackupOperation :=
  mkBackup (bo_ID o) (bo_PlanID o) (bo_AgentID o) (bo_Type o) (bo_Source o) status (bo_PlanRevision o) (bo_ConfigHash o)
    (bo_ScheduledAt o) (bo_StartedAt o) finished (bo_ExitCode o) error (bo_SnapshotID o) (bo_FilesDone o) (bo_TotalFiles o) (bo_BytesDone o)
    (bo_TotalBytes o) (bo_CreatedAt o) now (bo_ParentOperationID o) (bo_RootOperationID o) (Some now) reason (bo_DispatchedAt o)
    (bo_Attempt o) (bo_Summary o).

Definition with_dispatch (now : time) (o : BackupOperation) : BackupOperation :=
  mkBackup (bo_ID o) (bo_PlanID o) (bo_AgentID o) (bo_Type o) (bo_Source o) (bo_Status o) (bo_PlanRevision o) (bo_ConfigHash o)
    (bo_ScheduledAt o) (bo_StartedAt o) (bo_FinishedAt o) (bo_ExitCode o) (bo_ErrorCode o) (bo_SnapshotID o) (bo_FilesDone o)
    (bo_TotalFiles o) (bo_BytesDone o) (bo_TotalBytes o) (bo_CreatedAt o) now (bo_ParentOperationID o) (bo_RootOperationID o)
    (bo_CancelRequestedAt o) (bo_CancelReason o) (Some now) (bo_Attempt o) (bo_Summary o).

(** ** Reports (operations.go) *)

(** The row of a retry follows the failed attempt before it. *)
Definition continues_run (r : Reported) (p : BackupOperation) : bool :=
  (bo_AgentID p == rd_AgentID r) && (bo_PlanID p == rd_PlanID r) && (bo_PlanRevision p == rd_PlanRevision r) &&
  (bo_Status p == "FAILED") && Execution.RetryableBackupError (bo_ErrorCode p) && (rd_Attempt r == bo_Attempt p + 1) && (rd_Attempt r <=? 10).
Definition root_of (p : BackupOperation) : uuid := default (bo_ID p) (bo_RootOperationID p).

Definition reported_of (r : Reported) (o : BackupOperation) : bool :=
  (bo_AgentID o == rd_AgentID r) && (bo_PlanID o == rd_PlanID r) && (bo_PlanRevision o == rd_PlanRevision r).

Definition lockReportedOperation (r : Reported) : Tx () :=
  let* row := select (λ _ d, runs d !! rd_ID r) in
  match row with
  | Some o =>
      if negb (reported_of r o) then tfail ErrPlanBindingInvalid
      else if (rd_Attempt r != 0) && ((bo_Attempt o != rd_Attempt r) || (bo_ParentOperationID o != rd_Parent r) ||
                                      (bo_RootOperationID o != rd_Root r)) then tfail ErrPlanBindingInvalid
      else tret ()
  | None =>
      match rd_Parent r with
      | None => if is_some (rd_Root r) || (1 <? rd_Attempt r) then tfail ErrPlanBindingInvalid else tret ()
      | Some parent =>
          match rd_Root r with
          | None => tfail ErrPlanBindingInvalid
          | Some root =>
              if (parent == rd_ID r) || (root == rd_ID r) then tfail ErrPlanBindingInvalid
              else
                let* previous := tattempt (scanBackupOperation (λ d, runs d !! parent)) in
                match previous with
                | Err _ => tfail ErrPlanBindingInvalid
                | Ok p =>
                    if negb (continues_run r p) then tfail ErrPlanBindingInvalid
                    else if root != root_of p then tfail ErrPlanBindingInvalid
                    else tret ()
                end
          end
      end
  end.

(** [on conflict (id) do update ... where]: an unfinished row of this report. *)
Definition conflict_matches (r : Reported) (o : BackupOperation) : bool :=
  open_run o && reported_of r o &&
  ((rd_Attempt r == 0) ||
   (bo_ParentOperationID o == rd_Parent r) && (bo_RootOperationID o == rd_Root r) && (bo_Attempt o == Z.max (rd_Attempt r) 1)).

(** The statement that inserts a row or merges into it, and whether it did. *)
Definition upsert_run (r : Reported) (fresh : BackupOperation) (merge : BackupOperation → BackupOperation) (d : CentralDb) :
    option (bool * CentralDb) :=
  if negb (run_check fresh) then None
  else match runs d !! rd_ID r with
       | None => pair true <$> insert_run fresh d
       | Some o => if conflict_matches r o then pair true <$> save_run (merge o) d else Some (false, d)
       end.

Definition fresh_run (r : Reported) (status : string) (scheduled started : time) (finished : option time) (exit : option Z)
    (error snapshot : string) (now : time) : BackupOperation :=
  mkBackup (rd_ID r) (rd_PlanID r) (rd_AgentID r) "BACKUP" "SCHEDULED" status (rd_PlanRevision r) "" (Some scheduled) (Some started)
    finished exit error snapshot 0 0 0 0 now now (rd_Parent r) (rd_Root r) None "" None (Z.max (rd_Attempt r) 1) None.

Definition progress_fresh (p : BackupOperationProgress) : BackupOperation :=
  fresh_run (reported_progress p) "RUNNING" (bp_ScheduledAt p) (bp_ObservedAt p) None None "" "" (bp_ObservedAt p).
Definition progress_merge (p : BackupOperationProgress) (o : BackupOperation) : BackupOperation :=
  with_progress (if bo_Status o == "CANCEL_REQUESTED" then "CANCEL_REQUESTED" else "RUNNING")
    (Some (default (bp_ObservedAt p) (bo_StartedAt o))) (bp_ObservedAt p) o.

Definition progress_event (p : BackupOperationProgress) : BackupEventRow :=
  mkBackupEvent (bp_Stage p) (bp_FilesDone p) (bp_TotalFiles p) (bp_BytesDone p) (bp_TotalBytes p) (bp_ObservedAt p).
Definition insert_run_event (p : BackupOperationProgress) (d : CentralDb) : option (bool * CentralDb) :=
  if (bp_Sequence p <? 0) || (2 ^ 63 <=? bp_Sequence p) || (bp_FilesDone p <? 0) || (bp_TotalFiles p <? 0) || (bp_BytesDone p <? 0) ||
     (bp_TotalBytes p <? 0) || negb (known_run d (bp_OperationID p)) then None
  else match run_events d !! (bp_OperationID p, bp_Sequence p) with
       | Some _ => Some (false, d)
       | None => Some (true, set_run_events (<[(bp_OperationID p, bp_Sequence p) := progress_event p]> (run_events d)) d)
       end.

(** [select max(sequence) from backup_operation_events where operation_id=$1] *)
Definition max_sequence (id : uuid) (d : CentralDb) : option Z :=
  foldr (λ k best, if (k.1 : uuid) == id then Some (match best with Some m => Z.max m k.2 | None => k.2 end) else best) None
    (map_to_list (run_events d)).*1.

Definition update_counters (p : BackupOperationProgress) (d : CentralDb) : option CentralDb :=
  match runs d !! bp_OperationID p with
  | Some o =>
      if open_run o && (max_sequence (bp_OperationID p) d == Some (bp_Sequence p))
      then save_run (with_counters (bp_FilesDone p) (bp_TotalFiles p) (bp_BytesDone p) (bp_TotalBytes p) (bp_ObservedAt p) (bo_Summary o) o) d
      else Some d
  | None => Some d
  end.

(** The plan and its host, when the Agent of the report serves that host. *)
Definition bound_plan (plan agent : uuid) (d : CentralDb) : option PlanRow :=
  match fl_plans (cd_fleet d) !! plan, fl_agents (cd_fleet d) !! agent with
  | Some p, Some a => if ar_HostID a == pn_HostID p then Some p else None
  | _, _ => None
  end.

Definition UpsertOperationProgress (p : BackupOperationProgress) : Tx () :=
  let* exists_ := select (λ _ d, is_some (bound_plan (bp_PlanID p) (bp_AgentID p) d)) in
  if negb exists_ then tfail ErrPlanBindingInvalid
  else
    let* _ := lockReportedOperation (reported_progress p) in
    let* changed := stmt (λ _, upsert_run (reported_progress p) (progress_fresh p) (progress_merge p)) in
    if negb changed then (let* _ := lockReportedOperation (reported_progress p) in commit)
    else
      let* added := stmt (λ _, insert_run_event p) in
      if negb added then commit
      else
        let* _ := exec (λ _, update_counters p) in
        commit.

Definition result_fresh (r : BackupOperationResult) : BackupOperation :=
  fresh_run (reported_result r) (bres_Status r) (bres_ScheduledAt r) (bres_ScheduledAt r) (Some (bres_FinishedAt r)) (Some (bres_ExitCode r))
    (bres_ErrorCode r) (bres_SnapshotID r) (bres_FinishedAt r).
Definition result_merge (r : BackupOperationResult) (o : BackupOperation) : BackupOperation :=
  with_end (bres_Status r) (bres_FinishedAt r) (Some (bres_ExitCode r)) (bres_ErrorCode r) (bres_SnapshotID r) (bres_FinishedAt r) o.

Definition store_summary (id : uuid) (s : BackupSummary) (d : CentralDb) : option CentralDb :=
  match runs d !! id with
  | Some o =>
      save_run (with_counters (bs_TotalFilesProcessed s) (bs_TotalFilesProcessed s) (bs_TotalBytesProcessed s) (bs_TotalBytesProcessed s)
        (bo_UpdatedAt o) (Some s) o) d
  | None => Some d
  end.

(** What a result says about the health of its plan, and whether it succeeded. *)
Definition result_health (status : string) : string * bool :=
  if status == "SUCCEEDED" then ("HEALTHY", true)
  else if status == "SUCCEEDED_WITH_WARNINGS" then ("WARNING", true)
  else if (status == "FAILED") || (status == "LOST") then ("FAILED", false)
  else if status == "MISSED" then ("OVERDUE", false)
  else ("", false).

(** [last_result_at>$5], which is unknown without a last result. *)
Definition newer_result (p : PlanRow) (at_ : time) : bool := match pn_LastResultAt p with Some t => at_ <? t | None => false end.
Definition greatest (x : option time) (t : time) : time := match x with Some y => Z.max y t | None => t end.

Definition plan_result (health : string) (success : bool) (operation : uuid) (at_ : time) (p : PlanRow) : PlanRow :=
  mkPlanRow (pn_HostID p) (pn_AgentID p) (pn_RepositoryID p) (pn_ArchivedAt p) (pn_Status p) (pn_DesiredRevision p) (pn_ConfigHash p)
    (pn_MisfireGraceSeconds p)
    (if pn_Status p == "PAUSED" then "PAUSED" else if (health == "") || newer_result p at_ then pn_BackupHealth p else health)
    (pn_NextRunAt p)
    (if success then Some (greatest (pn_LastSuccessAt p) at_) else pn_LastSuccessAt p)
    (if newer_result p at_ then pn_LastOperationID p else Some operation)
    (Some (greatest (pn_LastResultAt p) at_))
    (Z.max (pn_UpdatedAt p) at_).

Definition update_plan_result (r : BackupOperationResult) (d : CentralDb) : option CentralDb :=
  let '(health, success) := result_health (bres_Status r) in
  match fl_plans (cd_fleet d) !! bres_PlanID r with
  | Some p => Some (set_plans (<[bres_PlanID r := plan_result health success (bres_OperationID r) (bres_FinishedAt r) p]> (fl_plans (cd_fleet d))) d)
  | None => Some d
  end.

(** The index row of the snapshot a result names; one that is known keeps what a
    scan of the repository told about it. *)
Definition index_result (r : BackupOperationResult) (host repository : uuid) (now : time) (d : CentralDb) : option CentralDb :=
  let key := (repository, bres_SnapshotID r) in
  let known := fl_snapshots (cd_fleet d) !! key in
  let row := mkSnapshotRow (Some (bres_PlanID r)) (Some (bres_AgentID r)) host (bres_OperationID r) (bres_FinishedAt r) now (bres_FilesNew r)
    (bres_DataAdded r) true (match known with Some x => sn_TreeID x | None => "" end) (match known with Some x => sn_Tags x | None => [] end)
    (match known with Some x => sn_Paths x | None => [] end) (match known with Some x => sn_ProgramVersion x | None => "" end) None in
  if (128 <? slen (bres_SnapshotID r)) || (bres_FilesNew r <? 0) || (bres_DataAdded r <? 0) ||
     is_none (fl_plans (cd_fleet d) !! bres_PlanID r) || is_none (fl_agents (cd_fleet d) !! bres_AgentID r) ||
     is_none (fl_hosts (cd_fleet d) !! host) || is_none (fl_repositories (cd_fleet d) !! repository)
  then None
  else Some (set_snapshots (<[key := row]> (fl_snapshots (cd_fleet d))) d).

Definition UpsertOperationResult (r : BackupOperationResult) : Tx () :=
  let* bound := select (λ _ d, bound_plan (bres_PlanID r) (bres_AgentID r) d) in
  match bound with
  | None => tfail ErrPlanBindingInvalid
  | Some plan =>
      let* _ := lockReportedOperation (reported_result r) in
      let* changed := stmt (λ _, upsert_run (reported_result r) (result_fresh r) (result_merge r)) in
      if negb changed then (let* _ := lockReportedOperation (reported_result r) in commit)
      else
        let* _ := match bres_Summary r with
                  | Some s => exec (λ _, store_summary (bres_OperationID r) s)
                  | None => tret ()
                  end in
        let* _ := exec (λ _, update_plan_result r) in
        let* now := transaction_timestamp in
        let* _ := if bres_SnapshotID r != "" then exec (λ _, index_result r (pn_HostID plan) (pn_RepositoryID plan) now) else tret () in
        commit
  end.

(** ** Requests of users (backup_requests.go) *)

Definition zero_hash : string := String.string_of_list_ascii (replicate 32 "000"%char).

Definition answered (key : BackupRequestKey) (t : time) (d : CentralDb) : option BackupRequestRow :=
  match run_requests d !! (rk_Scope key, rk_Key key) with
  | Some r => if t <? bq_ExpiresAt r then Some r else None
  | None => None
  end.

Definition lockBackupRequest (key : BackupRequestKey) : Tx (option BackupOperation) :=
  if (rk_Scope key == zero_hash) || (rk_Key key == zero_hash) || (rk_Body key == zero_hash) then tfail ErrIdempotencyReused
  else
    let* _ := select (λ _ _, ()) in
    let* row := select (λ t, answered key t) in
    match row with
    | None => tret None
    | Some r => if bq_RequestHash r != rk_Body key then tfail ErrIdempotencyReused else tret (Some (bq_Response r))
    end.

Definition store_request (key : BackupRequestKey) (o : BackupOperation) (t : time) (d : CentralDb) : option CentralDb :=
  if (slen (rk_Scope key) != 32) || (slen (rk_Key key) != 32) || (slen (rk_Body key) != 32) || negb (known_run d (bo_ID o)) then None
  else Some (set_run_requests
    (<[(rk_Scope key, rk_Key key) := mkBackupRequestRow (rk_Body key) (bo_ID o) o (t + 24 * hour)]> (run_requests d)) d).
Definition saveBackupRequest (key : BackupRequestKey) (o : BackupOperation) : Tx () := exec (store_request key o).

Section Audited.
Context `{U : UuidPkg} `{P : Platform} `{C : AuditCodec}.

(** The plan, root and attempt of a manual run; a retry takes them from the run
    it follows. *)
Definition manual_lineage (planID : uuid) (parent : option uuid) : Tx (uuid * option uuid * Z) :=
  match parent with
  | None => tret (planID, None, 0)
  | Some id =>
      let* previous := scanBackupOperation (λ d, runs d !! id) in
      if negb (Operation.OperationTerminal (bo_Status previous)) then tfail ErrOperationNotTerminal
      else if 10000 <=? bo_Attempt previous then tfail ErrOperationTransition
      else tret (bo_PlanID previous, Some (root_of previous), bo_Attempt previous + 1)
  end.

Definition manual_run (id planID : uuid) (p : PlanRow) (parent root : option uuid) (attempt : Z) (now : time) : BackupOperation :=
  mkBackup id planID (pn_AgentID p) "BACKUP" "MANUAL" "QUEUED" (pn_DesiredRevision p) (pn_ConfigHash p) (Some now) None None None "" ""
    0 0 0 0 now now parent root None "" None (if attempt == 0 then 1 else attempt) None.

Definition CreateManualOperation (id planID : uuid) (parent : option uuid) (request : BackupRequestKey) (audit : AuditEvent) :
    Tx BackupOperation :=
  let* original := lockBackupRequest request in
  match original with
  | Some o => let* _ := commit in tret o
  | None =>
      let* (planID, root, attempt) := manual_lineage planID parent in
      let* row := select (λ _ d, fl_plans (cd_fleet d) !! planID) in
      match row with
      | None => tfail ErrNotFound
      | Some p =>
          if is_some (pn_ArchivedAt p) then tfail ErrNotFound
          else if pn_Status p != "ACTIVE" then tfail ErrPlanStateInvalid
          else
            let* now := clock_timestamp in
            let o := manual_run id planID p parent root attempt now in
            let* _ := exec_unique ErrAlreadyExists (λ d, run_check o && known_run d id) (λ _, insert_run o) in
            let* _ := append_audit audit in
            let* _ := saveBackupRequest request o in
            let* _ := commit in
            tret o
      end
  end.

Definition terminal_statuses : list string :=
  ["CANCELED"; "SUCCEEDED"; "SUCCEEDED_WITH_WARNINGS"; "FAILED"; "LOST"; "MISSED"; "CONCURRENCY_SKIPPED"].

(** What a cancellation makes of an operation that is neither ended nor already
    being canceled. *)
Definition cancel_run (now : time) (o : BackupOperation) : BackupOperation :=
  if (bo_Status o == "QUEUED") && is_none (bo_DispatchedAt o)
  then with_cancel "CANCELED" (Some now) "CANCELED" now "USER_CANCELED" o
  else with_cancel "CANCEL_REQUESTED" (bo_FinishedAt o) (bo_ErrorCode o) now "USER_CANCELED" o.

(** The update writes what the answer carries, when the row is unfinished. *)
Definition store_cancel (o : BackupOperation) (d : CentralDb) : option CentralDb :=
  match runs d !! bo_ID o with
  | Some x => if open_run x then save_run o d else Some d
  | None => Some d
  end.

Definition CancelBackupOperation (id : uuid) (now : time) (request : BackupRequestKey) (audit : AuditEvent) : Tx BackupOperation :=
  let* original := lockBackupRequest request in
  match original with
  | Some o => let* _ := commit in tret o
  | None =>
      let* o := scanBackupOperation (λ d, runs d !! id) in
      if bool_decide (bo_Status o ∈ terminal_statuses) then tfail ErrOperationTerminal
      else
        let o' := if bo_Status o == "CANCEL_REQUESTED" then o else cancel_run now o in
        let* _ := if bo_Status o == "CANCEL_REQUESTED" then tret () else exec (λ _, store_cancel o') in
        let* _ := append_audit audit in
        let* _ := saveBackupRequest request o' in
        let* _ := commit in
        tret o'
  end.
End Audited.

(** ** Dispatch (operations.go) *)

Definition dispatchable (agent : uuid) (before : time) (o : BackupOperation) : bool :=
  (bo_AgentID o == agent) && (bo_Source o == "MANUAL") && (bo_Status o == "QUEUED") &&
  match bo_DispatchedAt o with Some t => t <=? before | None => true end.

(** [order by created_at limit 1] *)
Definition earliest_run (l : list BackupOperation) : option BackupOperation :=
  foldr (λ o best, match best with
                   | Some b => if bo_CreatedAt b <? bo_CreatedAt o then Some b else Some o
                   | None => Some o
                   end) None l.

Definition claim_run (agent : uuid) (now : time) (retryAfter : duration) (d : CentralDb) : option (option BackupOperation * CentralDb) :=
  match earliest_run (List.filter (dispatchable agent (now - retryAfter)) (map_to_list (runs d)).*2) with
  | Some o => pair (Some (with_dispatch now o)) <$> save_run (with_dispatch now o) d
  | None => Some (None, d)
  end.

Definition ClaimManualOperationDispatch (agent : uuid) (now : time) (retryAfter : duration) : Tx (option BackupOperation) :=
  let* o := stmt (λ _, claim_run agent now retryAfter) in
  let* _ := commit in
  tret o.

(** [updateAgentOperation]: only the Agent of an operation may move it. *)
Definition updateAgentOperation (agent id : uuid) (update : time → BackupOperation → option BackupOperation) : Tx () :=
  let* owner := select (λ _ d, bo_AgentID <$> runs d !! id) in
  match owner with
  | None => tfail ErrPlanBindingInvalid
  | Some owner =>
      if owner != agent then tfail ErrPlanBindingInvalid
      else
        let* now := transaction_timestamp in
        let* _ := exec (λ _ d, match runs d !! id with
                               | Some o => match update now o with Some o' => save_run o' d | None => Some d end
                               | None => Some d
                               end) in
        commit
  end.

Definition rejected_run (at_ : time) (_ : time) (o : BackupOperation) : option BackupOperation :=
  if (bo_Source o == "MANUAL") && bool_decide (bo_Status o ∈ ["QUEUED"; "RUNNING"; "CANCEL_REQUESTED"]) && open_run o
  then Some (closed_run "FAILED" "AGENT_REJECTED" at_ o) else None.
Definition RejectManualOperation (agent id : uuid) (now : time) : Tx () := updateAgentOperation agent id (rejected_run now).

Definition accepted_run (now : time) (o : BackupOperation) : option BackupOperation :=
  if bool_decide (bo_Status o ∈ ["QUEUED"; "CANCEL_REQUESTED"]) && open_run o
  then Some (with_progress (if bo_Status o == "QUEUED" then "RUNNING" else bo_Status o) (Some (default now (bo_StartedAt o))) now o)
  else None.
Definition MarkOperationDispatched (agent id : uuid) : Tx () := updateAgentOperation agent id accepted_run.

(** [order by created_at] *)
Definition created_before (a b : BackupOperation) : Prop := bo_CreatedAt a ≤ bo_CreatedAt b.
#[export] Instance created_before_dec a b : Decision (created_before a b).
Proof. unfold created_before. apply _. Defined.

Definition PendingCancelOperations (agent : uuid) : Tx (list BackupOperation) :=
  select (λ _ d, merge_sort created_before
    (List.filter (λ o, (bo_AgentID o == agent) && (bo_Status o == "CANCEL_REQUESTED")) (map_to_list (runs d)).*2)).

(** ** Reconciliation *)

(** An update of all rows that satisfy [p]; the number of rows. *)
Definition update_runs (p : CentralDb → BackupOperation → bool) (f : BackupOperation → BackupOperation) (d : CentralDb) :
    option (Z * CentralDb) :=
  let hit := List.filter (p d) (map_to_list (runs d)).*2 in
  if forallb (λ o, run_check (f o)) hit
  then Some (Z.of_nat (length hit), set_runs ((λ o, if p d o then f o else o) <$> runs d) d) else None.

Definition statement (m : CentralDb → option (Z * CentralDb)) : Tx Z :=
  let* n := stmt (λ _, m) in
  let* _ := commit in
  tret n.

Definition unstarted_cancel (cutoff : time) (_ : CentralDb) (o : BackupOperation) : bool :=
  (bo_Status o == "CANCEL_REQUESTED") && is_none (bo_StartedAt o) && open_run o &&
  match bo_CancelRequestedAt o with Some t => t <=? cutoff | None => false end.
Definition CloseUnstartedCancellations (cutoff now : time) : Tx Z :=
  statement (update_runs (unstarted_cancel cutoff) (closed_run "CANCELED" "CANCELED" now)).

(** A run that began before its Agent's present boot, known for long enough. *)
Definition of_earlier_boot (cutoff : time) (d : CentralDb) (o : BackupOperation) : bool :=
  match fl_agents (cd_fleet d) !! bo_AgentID o with
  | Some a =>
      bool_decide (bo_Status o ∈ ["RUNNING"; "CANCEL_REQUESTED"]) && open_run o &&
      match ar_BootChangedAt a with
      | Some boot => (boot <=? cutoff) && (default (bo_CreatedAt o) (bo_StartedAt o) <? boot)
      | None => false
      end
  | None => false
  end.
Definition ReconcileLostOperations (cutoff now : time) : Tx Z :=
  statement (update_runs (of_earlier_boot cutoff) (closed_run "LOST" "LOCAL_OPERATION_RECOVERED" now)).

(** [ReconcilePlanHealth] (plan.go) *)
Definition overdue_plan (now : time) (p : PlanRow) : bool :=
  (pn_Status p == "ACTIVE") && is_none (pn_ArchivedAt p) && is_some (pn_LastOperationID p) && (pn_BackupHealth p != "PAUSED") &&
  match pn_NextRunAt p with
  | Some next =>
      match pn_LastSuccessAt p with Some t => t <? next | None => true end &&
      (next + Z.max 0 (Z.min 86400 (pn_MisfireGraceSeconds p)) * second <? now)
  | None => false
  end.
Definition with_overdue (now : time) (p : PlanRow) : PlanRow :=
  mkPlanRow (pn_HostID p) (pn_AgentID p) (pn_RepositoryID p) (pn_ArchivedAt p) (pn_Status p) (pn_DesiredRevision p) (pn_ConfigHash p)
    (pn_MisfireGraceSeconds p) "OVERDUE" (pn_NextRunAt p) (pn_LastSuccessAt p) (pn_LastOperationID p) (pn_LastResultAt p) now.
Definition mark_overdue (now : time) (d : CentralDb) : option (Z * CentralDb) :=
  let plans := fl_plans (cd_fleet d) in
  Some (Z.of_nat (length (List.filter (overdue_plan now) (map_to_list plans).*2)),
        set_plans ((λ p, if overdue_plan now p then with_overdue now p else p) <$> plans) d).
Definition ReconcilePlanHealth (now : time) : Tx Z := statement (mark_overdue now).

(** ** Logs (operation_logs.go) *)

Fixpoint consecutive (l : list BackupLogEntry) : bool :=
  match l with
  | a :: (b :: _) as rest => (le_Sequence b =? le_Sequence a + 1) && consecutive rest
  | _ => true
  end.
Definition valid_chunk (entries : list BackupLogEntry) : bool :=
  negb (Nat.eqb (length entries) 0) && (length entries <=? 200)%nat && forallb ValidateLogEntry entries && consecutive entries.

Section Logs.
Context `{LC : LogCodec}.

Definition insert_log (id : uuid) (entry : BackupLogEntry) (d : CentralDb) : option CentralDb :=
  if is_some (log_rows d !! (id, le_Sequence entry)) || (le_Sequence entry <=? 0) || negb (known_run d id) then None
  else Some (set_log_rows (<[(id, le_Sequence entry) := entry]> (log_rows d)) d).

(** The loop over the entries, with what is acknowledged and how many bytes are
    taken so far. *)
Fixpoint append_entries (id : uuid) (entries : list BackupLogEntry) (ack used : Z) : Tx (Z * Z) :=
  match entries with
  | [] => tret (ack, used)
  | entry :: rest =>
      if le_Sequence entry <=? ack then append_entries id rest ack used
      else match marshal_entry entry with
           | None => tfail ErrDB
           | Some raw =>
               if Desired.DefaultLogLimitBytes <? used + slen raw then tfail ErrOperationTransition
               else
                 let* _ := exec (λ _, insert_log id entry) in
                 append_entries id rest (le_Sequence entry) (used + slen raw)
           end
  end.

Definition insert_head (id : uuid) (d : CentralDb) : option CentralDb :=
  match log_heads d !! id with
  | Some _ => Some d
  | None => if known_run d id then Some (set_log_heads (<[id := mkLogHead 0 0]> (log_heads d)) d) else None
  end.
Definition update_head (id : uuid) (ack used : Z) (d : CentralDb) : option CentralDb :=
  match log_heads d !! id with
  | Some _ =>
      if (ack <? 0) || (used <? 0) || (Desired.DefaultLogLimitBytes <? used) then None
      else Some (set_log_heads (<[id := mkLogHead ack used]> (log_heads d)) d)
  | None => Some d
  end.

Definition AppendOperationLogs (agent id : uuid) (entries : list BackupLogEntry) : Tx Z :=
  if negb (valid_chunk entries) then tfail ErrOperationTransition
  else
    let* owner := select (λ _ d, bo_AgentID <$> runs d !! id) in
    match owner with
    | None => tfail ErrPlanBindingInvalid
    | Some owner =>
        if owner != agent then tfail ErrPlanBindingInvalid
        else
          let* _ := exec (λ _, insert_head id) in
          let* head := select_row (λ _ d, log_heads d !! id) in
          if lh_AckSequence head + 1 <? match entries with e :: _ => le_Sequence e | [] => 0 end then tfail ErrOperationTransition
          else
            let* (ack, used) := append_entries id entries (lh_AckSequence head) (lh_BytesReceived head) in
            let* _ := exec (λ _, update_head id ack used) in
            let* _ := commit in
            tret ack
    end.
End Logs.

(** [order by sequence limit $3] *)
Definition by_sequence (a b : Z * BackupLogEntry) : Prop := a.1 ≤ b.1.
#[export] Instance by_sequence_dec a b : Decision (by_sequence a b).
Proof. unfold by_sequence. apply _. Defined.
Definition logs_of (id : uuid) (d : CentralDb) : list (Z * BackupLogEntry) :=
  map_to_list (log_rows d) ≫= λ kv, if (kv.1.1 : uuid) == id then [(kv.1.2, kv.2)] else [].
Definition db_OperationLogs (id : uuid) (after limit : Z) : Tx (list BackupLogEntry) :=
  select (λ _ d, (take (Z.to_nat limit) (merge_sort by_sequence (List.filter (λ e, after <? e.1) (logs_of id d)))).*2).

(** ** Reads *)

Definition db_BackupOperation (id : uuid) : Tx BackupOperation := scanBackupOperation (λ d, runs d !! id).

(** [order by id desc limit $1] *)
Definition id_after (a b : BackupOperation) : Prop := (bo_ID b ≤ bo_ID a)%N.
#[export] Instance id_after_dec a b : Decision (id_after a b).
Proof. unfold id_after. apply _. Defined.
Definition db_BackupOperations (after : uuid) (limit : Z) : Tx (list BackupOperation) :=
  select (λ _ d, take (Z.to_nat limit) (merge_sort id_after
    (List.filter (λ o, (after == uuid_Nil) || (bo_ID o <? after)%N) (map_to_list (runs d)).*2))).

Definition count {A} (p : A → bool) (l : list A) : Z := Z.of_nat (length (List.filter p l)).
Definition FleetBackupCounts : Tx (Z * Z * Z * Z * Z) :=
  select (λ t d,
    let plans := (map_to_list (fl_plans (cd_fleet d))).*2 in
    let ops := (map_to_list (runs d)).*2 in
    (count (λ p, is_none (pn_ArchivedAt p)) plans, count (λ _, true) ops, count (λ o, bo_Status o == "RUNNING") ops,
     count (λ o, (bo_Status o == "FAILED") && match bo_FinishedAt o with Some f => t - 24 * hour <? f | None => false end) ops,
     count (λ p, is_none (pn_ArchivedAt p) && bool_decide (pn_BackupHealth p ∈ ["WARNING"; "FAILED"; "OVERDUE"; "NEVER_RUN"])) plans)).
