(* ===== verification/BackupSpec.v ===== *)
(** * BackupSpec: how the records of backup operations may change

    [backup_step] is the specification of a single change to the tables of
    BackupStore: an operation is opened, moves forward or ends, a progress event
    is recorded, a result reaches its plan, an answer is remembered, a chunk of
    log is appended.  [backup_ok] is the invariant of these steps, and [forward]
    what every later database keeps. *)

From S2P Require Import Prelude GoStd Uuid Platform Domain Plan DomainLogs GatewaySession GatewayAuth AuditChain PendingRecord.
From S2P Require Import CentralTx CentralStore AgentLogs BackupStore.
Open Scope Z_scope.
Open Scope go_scope.

(** ** One operation *)

(** Operations are queued, run, are asked to stop, and have ended. *)
Definition stage (status : string) : Z :=
  if status == "QUEUED" then 0 else if status == "RUNNING" then 1 else if status == "CANCEL_REQUESTED" then 2 else 3.

(** What no transaction changes about an operation. *)
Record same_run (o o' : BackupOperation) : Prop := {
  sr_id : bo_ID o' = bo_ID o;
  sr_plan : bo_PlanID o' = bo_PlanID o;
  sr_agent : bo_AgentID o' = bo_AgentID o;
  sr_type : bo_Type o' = bo_Type o;
  sr_source : bo_Source o' = bo_Source o;
  sr_revision : bo_PlanRevision o' = bo_PlanRevision o;
  sr_hash : bo_ConfigHash o' = bo_ConfigHash o;
  sr_scheduled : bo_ScheduledAt o' = bo_ScheduledAt o;
  sr_created : bo_CreatedAt o' = bo_CreatedAt o;
  sr_parent : bo_ParentOperationID o' = bo_ParentOperationID o;
  sr_root : bo_RootOperationID o' = bo_RootOperationID o;
  sr_attempt : bo_Attempt o' = bo_Attempt o }.
#[export] Instance same_run_preorder : PreOrder same_run.
Proof. split; [by intros o; split|]. intros x y z [] []. split; congruence. Qed.

Record moves (o o' : BackupOperation) : Prop := {
  mv_same : same_run o o';
  mv_stage : stage (bo_Status o) ≤ stage (bo_Status o');
  mv_started : ∀ t, bo_StartedAt o = Some t → bo_StartedAt o' = Some t;
  mv_cancel : ∀ t, bo_CancelRequestedAt o = Some t → bo_CancelRequestedAt o' = Some t;
  mv_dispatched : is_Some (bo_DispatchedAt o) → is_Some (bo_DispatchedAt o');
  mv_claimed : bo_DispatchedAt o = None → is_Some (bo_DispatchedAt o') → bo_Status o = "QUEUED" }.

Lemma stage_queued status : stage status ≤ 0 → status = "QUEUED".
Proof.
  unfold stage. destruct (status == "QUEUED") eqn:E; [by bool_prop|]. destruct (status == "RUNNING"); [lia|]. destruct (status == "CANCEL_REQUESTED"); lia.
Qed.

#[export] Instance moves_preorder : PreOrder moves.
Proof.
  split.
  - intros o. split; [reflexivity|done..|]. intros -> [t Ht]. discriminate.
  - intros x y z Hx Hy. split.
    + etrans; [apply Hx|apply Hy].
    + etrans; [apply Hx|apply Hy].
    + intros t Ht. by apply Hy, Hx.
    + intros t Ht. by apply Hy, Hx.
    + intros Ht. by apply Hy, Hx.
    + intros Hn Hz. destruct (bo_DispatchedAt y) as [t|] eqn:Hd; [apply Hx; [done|by rewrite Hd; eauto]|].
      pose proof (mv_claimed _ _ Hy Hd Hz) as Hq. apply stage_queued. pose proof (mv_stage _ _ Hx) as Hs. by rewrite Hq in Hs.
Qed.

(** An ended operation never changes. *)
Definition later (o o' : BackupOperation) : Prop := o' = o ∨ open_run o = true ∧ moves o o'.
#[export] Instance later_preorder : PreOrder later.
Proof.
  split; [by left|]. intros x y z [->|[Hx Hxy]]; [done|]. intros [->|[Hy Hyz]]; right; [done|]. split; [done|by etrans].
Qed.

Lemma later_same o o' : later o o' → same_run o o'.
Proof. intros [->|[_ []]]; [reflexivity|done]. Qed.

Definition counters (o : BackupOperation) : Z * Z * Z * Z := (bo_FilesDone o, bo_TotalFiles o, bo_BytesDone o, bo_TotalBytes o).
Definition event_counters (e : BackupEventRow) : Z * Z * Z * Z := (be_FilesDone e, be_TotalFiles e, be_BytesDone e, be_TotalBytes e).
Definition summary_counters (s : BackupSummary) : Z * Z * Z * Z :=
  (bs_TotalFilesProcessed s, bs_TotalFilesProcessed s, bs_TotalBytesProcessed s, bs_TotalBytesProcessed s).

(** A well-formed row. *)
Record run_ok (o : BackupOperation) : Prop := {
  ro_check : run_check o = true;
  ro_type : bo_Type o = "BACKUP";
  ro_source : bo_Source o = "SCHEDULED" ∨ bo_Source o = "MANUAL";
  ro_ended : is_Some (bo_FinishedAt o) ↔ bo_Status o ∈ terminal_statuses;
  ro_running : bo_Status o = "RUNNING" → is_Some (bo_StartedAt o);
  ro_cancel : bo_Status o = "CANCEL_REQUESTED" → is_Some (bo_CancelRequestedAt o);
  ro_first : bo_ParentOperationID o = None → bo_RootOperationID o = None ∧ bo_Attempt o = 1;
  ro_queued : bo_Status o = "QUEUED" → bo_StartedAt o = None;
  ro_summary : open_run o = true → bo_Summary o = None;
  ro_uncanceled : stage (bo_Status o) < 2 → bo_CancelRequestedAt o = None }.

(** A retry follows an ended operation of its plan and belongs to its root. *)
Definition descends (d : CentralDb) (o : BackupOperation) : Prop :=
  ∀ p, bo_ParentOperationID o = Some p → ∃ x, runs d !! p = Some x ∧ open_run x = false ∧ bo_PlanID x = bo_PlanID o ∧
    bo_Attempt o = bo_Attempt x + 1 ∧ bo_RootOperationID o = Some (root_of x).

(** ** Counters and events *)

Definition latest_event (id : uuid) (d : CentralDb) : option BackupEventRow :=
  match max_sequence id d with Some m => run_events d !! (id, m) | None => None end.

(** The counters are those of the newest event, or of the summary at the end. *)
Definition counted (d : CentralDb) (o : BackupOperation) : Prop :=
  counters o = match bo_Summary o with
               | Some s => summary_counters s
               | None => match latest_event (bo_ID o) d with Some e => event_counters e | None => (0, 0, 0, 0) end
               end.

(** ** Plans *)

Definition same_result (p p' : PlanRow) : Prop := pn_LastResultAt p' = pn_LastResultAt p ∧ pn_LastOperationID p' = pn_LastOperationID p.

(** A plan names the operation that gave its last result. *)
Definition vouches (d : CentralDb) (plan : uuid) (p : PlanRow) : Prop :=
  match pn_LastResultAt p with
  | None => True
  | Some t => ∃ id o, pn_LastOperationID p = Some id ∧ runs d !! id = Some o ∧ bo_PlanID o = plan ∧ bo_FinishedAt o = Some t
  end.

(** Nothing about backup operations changes. *)
Record beside (d d' : CentralDb) : Prop := {
  bd_backups : fl_backups (cd_fleet d') = fl_backups (cd_fleet d);
  bd_plans : ∀ id p, fl_plans (cd_fleet d) !! id = Some p → ∃ p', fl_plans (cd_fleet d') !! id = Some p' ∧ same_result p p';
  bd_new : ∀ id p', fl_plans (cd_fleet d') !! id = Some p' → fl_plans (cd_fleet d) !! id = None → pn_LastResultAt p' = None }.

(** ** Logs *)

Section Specification.
Context `{LC : LogCodec}.

Definition entry_size (e : BackupLogEntry) : Z := slen (default "" (marshal_entry e)).
Definition entries_size (l : list BackupLogEntry) : Z := foldr (λ e n, entry_size e + n) 0 l.

Definition put_logs (id : uuid) (entries : list BackupLogEntry) (m : gmap (uuid * Z) BackupLogEntry) : gmap (uuid * Z) BackupLogEntry :=
  foldl (λ m e, <[(id, le_Sequence e) := e]> m) m entries.

(** The stored entries of an operation are numbered from 1 to what is
    acknowledged, and take the bytes that are counted. *)
Record logged_to (d : CentralDb) (id : uuid) (ack used : Z) (l : list BackupLogEntry) : Prop := {
  lg_sequence : le_Sequence <$> l = seqZ 1 ack;
  lg_rows : ∀ s e, log_rows d !! (id, s) = Some e ↔ e ∈ l ∧ le_Sequence e = s;
  lg_valid : Forall (λ e, ValidateLogEntry e = true) l;
  lg_used : used = entries_size l;
  lg_limit : used ≤ Desired.DefaultLogLimitBytes }.
Definition logged (d : CentralDb) (id : uuid) : Prop :=
  match log_heads d !! id with
  | None => ∀ s, log_rows d !! (id, s) = None
  | Some h => 0 ≤ lh_AckSequence h ∧ ∃ l, logged_to d id (lh_AckSequence h) (lh_BytesReceived h) l
  end.

(** ** The steps *)

Inductive backup_step (d : CentralDb) : CentralDb → Prop :=
| bs_beside d' : beside d d' → backup_step d d'
| bs_open o :
    runs d !! bo_ID o = None → run_ok o → descends d o → bo_DispatchedAt o = None →
    counters o = match bo_Summary o with Some s => summary_counters s | None => (0, 0, 0, 0) end →
    backup_step d (set_runs (<[bo_ID o := o]> (runs d)) d)
| bs_move o o' :
    runs d !! bo_ID o = Some o → open_run o = true → moves o o' → run_ok o' →
    (counters o' = counters o ∧ bo_Summary o' = bo_Summary o ∨ ∃ s, bo_Summary o' = Some s ∧ counters o' = summary_counters s) →
    backup_step d (set_runs (<[bo_ID o := o']> (runs d)) d)
| bs_observe o o' s e :
    runs d !! bo_ID o = Some o → open_run o = true → run_events d !! (bo_ID o, s) = None →
    (∀ m, max_sequence (bo_ID o) d = Some m → s < m → o' = o) →
    ((∀ m, max_sequence (bo_ID o) d = Some m → m < s) → moves o o' ∧ run_ok o' ∧ counters o' = event_counters e ∧
      bo_Summary o' = bo_Summary o ∧ bo_Summary o = None) →
    backup_step d (set_runs (<[bo_ID o := o']> (runs d)) (set_run_events (<[(bo_ID o, s) := e]> (run_events d)) d))
| bs_result plan p p' o t :
    fl_plans (cd_fleet d) !! plan = Some p → runs d !! bo_ID o = Some o → bo_PlanID o = plan → bo_FinishedAt o = Some t →
    (same_result p p' ∧ newer_result p t = true ∨
     newer_result p t = false ∧ pn_LastResultAt p' = Some t ∧ pn_LastOperationID p' = Some (bo_ID o)) →
    backup_step d (set_plans (<[plan := p']> (fl_plans (cd_fleet d))) d)
| bs_remember key row :
    runs d !! bq_OperationID row = Some (bq_Response row) →
    backup_step d (set_run_requests (<[key := row]> (run_requests d)) d)
| bs_log id h entries :
    is_Some (runs d !! id) → default (mkLogHead 0 0) (log_heads d !! id) = h →
    le_Sequence <$> entries = seqZ (lh_AckSequence h + 1) (Z.of_nat (length entries)) → Forall (λ e, ValidateLogEntry e = true) entries →
    lh_BytesReceived h + entries_size entries ≤ Desired.DefaultLogLimitBytes →
    backup_step d
      (set_log_heads (<[id := mkLogHead (lh_AckSequence h + Z.of_nat (length entries)) (lh_BytesReceived h + entries_size entries)]> (log_heads d))
        (set_log_rows (put_logs id entries (log_rows d)) d)).
End Specification.

(** ** The newest event *)

Lemma max_keys (id : uuid) (l : list (uuid * Z)) :
  match foldr (λ k best, if (k.1 : uuid) == id then Some (match best with Some m => Z.max m k.2 | None => k.2 end) else best) None l with
  | Some m => (id, m) ∈ l ∧ ∀ s, (id, s) ∈ l → s ≤ m
  | None => ∀ s, (id, s) ∉ l
  end.
Proof.
  induction l as [|[k s] l IH]; cbn [foldr fst snd]; [intros s; apply not_elem_of_nil|].
  destruct (foldr _ _ l) as [m|]; destruct (k == id) eqn:E; bool_prop; subst.
  - split.
    + destruct (Z.max_spec m s) as [[_ ->]|[_ ->]]; [by left|]. right. apply IH.
    + intros x. rewrite elem_of_cons. intros [[= ->]|Hx]; [lia|]. apply IH in Hx. lia.
  - split; [right; apply IH|]. intros x. rewrite elem_of_cons. intros [[= <- _]|Hx]; [done|by apply IH].
  - split; [by left|]. intros x. rewrite elem_of_cons. intros [[= ->]|Hx]; [lia|]. by apply IH in Hx.
  - intros x. rewrite elem_of_cons. intros [[= <- _]|Hx]; [done|by apply IH in Hx].
Qed.

Lemma event_key (d : CentralDb) k : k ∈ (map_to_list (run_events d)).*1 ↔ is_Some (run_events d !! k).
Proof.
  rewrite list_elem_of_fmap. split.
  - intros ([k' e] & -> & He%elem_of_map_to_list). by exists e.
  - intros [e He]. exists (k, e). split; [done|by apply elem_of_map_to_list].
Qed.

Lemma max_sequence_spec id d :
  match max_sequence id d with
  | Some m => is_Some (run_events d !! (id, m)) ∧ ∀ s, is_Some (run_events d !! (id, s)) → s ≤ m
  | None => ∀ s, run_events d !! (id, s) = None
  end.
Proof.
  unfold max_sequence. pose proof (max_keys id (map_to_list (run_events d)).*1) as H. destruct (foldr _ _ _) as [m|].
  - destruct H as [Hm Hmax]. split; [by apply event_key|]. intros s Hs. by apply Hmax, event_key.
  - intros s. apply eq_None_not_Some. intros Hs. by apply (H s), event_key.
Qed.

Lemma max_sequence_unique id d m :
  is_Some (run_events d !! (id, m)) → (∀ s, is_Some (run_events d !! (id, s)) → s ≤ m) → max_sequence id d = Some m.
Proof.
  intros Hm Hmax. pose proof (max_sequence_spec id d) as H. destruct (max_sequence id d) as [m'|].
  - destruct H as [H1 H2]. f_equal. apply Hmax in H1. apply H2 in Hm. lia.
  - rewrite H in Hm. by destruct Hm.
Qed.

(** After a new event it is that event, or the one before. *)
Lemma max_sequence_insert id s e d d' :
  run_events d' = <[(id, s) := e]> (run_events d) → run_events d !! (id, s) = None →
  max_sequence id d' = Some s ∧ (∀ m, max_sequence id d = Some m → m < s) ∨
  ∃ m, max_sequence id d = Some m ∧ max_sequence id d' = Some m ∧ s < m.
Proof.
  intros He Hn. pose proof (max_sequence_spec id d) as H. destruct (max_sequence id d) as [m|].
  - destruct H as [Hm Hmax]. assert (s ≠ m) by (intros ->; rewrite Hn in Hm; by destruct Hm). destruct (decide (s < m)).
    + right. exists m. split_and!; [done| |done]. apply max_sequence_unique; rewrite He; [by rewrite lookup_insert_ne by congruence|].
      intros x. destruct (decide (x = s)) as [->|]; [lia|]. rewrite lookup_insert_ne by congruence. apply Hmax.
    + left. split; [|intros ? [= <-]; lia]. apply max_sequence_unique; rewrite He; [by rewrite lookup_insert_eq|].
      intros x. destruct (decide (x = s)) as [->|]; [lia|]. rewrite lookup_insert_ne by congruence. intros Hx%Hmax. lia.
  - left. split; [|done]. apply max_sequence_unique; rewrite He; [by rewrite lookup_insert_eq|].
    intros x. destruct (decide (x = s)) as [->|]; [lia|]. rewrite lookup_insert_ne, H by congruence. by intros [].
Qed.

Lemma max_sequence_other id k e d d' :
  run_events d' = <[k := e]> (run_events d) → k.1 ≠ id → max_sequence id d' = max_sequence id d.
Proof.
  intros He Hk. assert (Hl : ∀ s, run_events d' !! (id, s) = run_events d !! (id, s)).
  { intros s. rewrite He, lookup_insert_ne; [done|]. by intros ->. }
  pose proof (max_sequence_spec id d) as H. destruct (max_sequence id d) as [m|].
  - apply max_sequence_unique; [rewrite Hl; apply H|]. intros s. rewrite Hl. apply H.
  - pose proof (max_sequence_spec id d') as H'. destruct (max_sequence id d') as [m|]; [|done]. destruct H' as [[x Hx] _]. by rewrite Hl, H in Hx.
Qed.

(** ** The invariant *)

Record backup_ok `{LC : LogCodec} (d : CentralDb) : Prop := {
  bi_keyed : ∀ id o, runs d !! id = Some o → bo_ID o = id;
  bi_rows : ∀ id o, runs d !! id = Some o → run_ok o;
  bi_descends : ∀ id o, runs d !! id = Some o → descends d o;
  bi_counted : ∀ id o, runs d !! id = Some o → counted d o;
  bi_events : ∀ id s, is_Some (run_events d !! (id, s)) → is_Some (runs d !! id);
  bi_requests : ∀ key row, run_requests d !! key = Some row →
    bo_ID (bq_Response row) = bq_OperationID row ∧ ∃ o, runs d !! bq_OperationID row = Some o ∧ later (bq_Response row) o;
  bi_plans : ∀ id p, fl_plans (cd_fleet d) !! id = Some p → vouches d id p;
  bi_logs : ∀ id, logged d id }.

(** What every later database keeps. *)
Record forward (d d' : CentralDb) : Prop := {
  fw_runs : ∀ id o, runs d !! id = Some o → ∃ o', runs d' !! id = Some o' ∧ later o o';
  fw_events : run_events d ⊆ run_events d';
  fw_logs : log_rows d ⊆ log_rows d';
  fw_heads : ∀ id h, log_heads d !! id = Some h → ∃ h', log_heads d' !! id = Some h' ∧ lh_AckSequence h ≤ lh_AckSequence h';
  fw_plans : ∀ id p t, fl_plans (cd_fleet d) !! id = Some p → pn_LastResultAt p = Some t →
    ∃ p' t', fl_plans (cd_fleet d') !! id = Some p' ∧ pn_LastResultAt p' = Some t' ∧ t ≤ t' }.

#[export] Instance forward_preorder : PreOrder forward.
Proof.
  split.
  - intros d. split; try done; [intros id o Ho; by exists o|intros id h Hh; by exists h|]. intros id p t Hp Ht. by exists p, t.
  - intros x y z [R1 E1 L1 H1 P1] [R2 E2 L2 H2 P2]. split; [..|by etrans|by etrans| |].
    + intros id o Ho. destruct (R1 _ _ Ho) as (o1 & Ho1 & Hl). destruct (R2 _ _ Ho1) as (o2 & Ho2 & Hl2). exists o2. split; [done|by etrans].
    + intros id h Hh. destruct (H1 _ _ Hh) as (h1 & Hh1 & Hl). destruct (H2 _ _ Hh1) as (h2 & Hh2 & Hl2). exists h2. split; [done|lia].
    + intros id p t Hp Ht. destruct (P1 _ _ _ Hp Ht) as (p1 & t1 & Hp1 & Ht1 & Hl). destruct (P2 _ _ _ Hp1 Ht1) as (p2 & t2 & Hp2 & Ht2 & Hl2).
      exists p2, t2. split_and!; [done|done|lia].
Qed.

(** One table changes. *)
Lemma forward_runs d d' :
  (∀ id o, runs d !! id = Some o → ∃ o', runs d' !! id = Some o' ∧ later o o') → run_events d ⊆ run_events d' →
  log_rows d' = log_rows d → log_heads d' = log_heads d → fl_plans (cd_fleet d') = fl_plans (cd_fleet d) → forward d d'.
Proof.
  intros Hr He Hl Hh Hp. split; [done|done|by rewrite Hl| |].
  - intros id h. rewrite Hh. by exists h.
  - intros id p t. rewrite Hp. by exists p, t.
Qed.

Lemma run_later_insert o o' (m : gmap uuid BackupOperation) : m !! bo_ID o = Some o → later o o' →
  ∀ id x, m !! id = Some x → ∃ x', <[bo_ID o := o']> m !! id = Some x' ∧ later x x'.
Proof.
  intros Ho Hl id x Hx. destruct (decide (id = bo_ID o)) as [->|Hne].
  - exists o'. rewrite lookup_insert_eq. split; [done|]. by simplify_eq.
  - exists x. by rewrite lookup_insert_ne.
Qed.

Lemma descends_later d d' o :
  (∀ id x, runs d !! id = Some x → ∃ x', runs d' !! id = Some x' ∧ later x x') → descends d o → descends d' o.
Proof.
  intros Hl Hd p Hp. destruct (Hd _ Hp) as (x & Hx & Ho & H). destruct (Hl _ _ Hx) as (x' & Hx' & Hxx). exists x'.
  destruct Hxx as [->|[Hopen _]]; [done|]. by rewrite Ho in Hopen.
Qed.

Lemma descends_same d o o' : same_run o o' → descends d o → descends d o'.
Proof. intros [] Hd p Hp. destruct (Hd p) as (x & Hx & Ho & H1 & H2 & H3); [congruence|]. exists x. split_and!; congruence. Qed.

Lemma vouches_later d d' plan p :
  (∀ id x, runs d !! id = Some x → ∃ x', runs d' !! id = Some x' ∧ later x x') → vouches d plan p → vouches d' plan p.
Proof.
  unfold vouches. intros Hl. destruct (pn_LastResultAt p) as [t|]; [|done]. intros (id & o & Hid & Ho & Hp & Hf).
  destruct (Hl _ _ Ho) as (o' & Ho' & Hoo). exists id, o'. destruct Hoo as [->|[Hopen _]]; [done|]. unfold open_run in Hopen. by rewrite Hf in Hopen.
Qed.

Lemma vouches_same d plan p p' : same_result p p' → vouches d plan p → vouches d plan p'.
Proof. unfold vouches. intros [-> ->]. done. Qed.

Lemma counted_same d d' o o' :
  bo_ID o' = bo_ID o → counters o' = counters o → bo_Summary o' = bo_Summary o → latest_event (bo_ID o) d' = latest_event (bo_ID o) d →
  counted d o → counted d' o'.
Proof. unfold counted. by intros -> -> -> ->. Qed.

Lemma latest_same id d d' : run_events d' = run_events d → latest_event id d' = latest_event id d.
Proof. unfold latest_event, max_sequence. by intros ->. Qed.

Section Invariant.
Context `{LC : LogCodec}.

Lemma logged_same d d' id :
  log_heads d' !! id = log_heads d !! id → (∀ s, log_rows d' !! (id, s) = log_rows d !! (id, s)) → logged d id → logged d' id.
Proof using Type.
  unfold logged. intros -> Hl. destruct (log_heads d !! id) as [h|]; [|intros L s; by rewrite Hl].
  intros (Ha & l & [L1 L2 L3 L4 L5]). split; [done|]. exists l. split; try done. intros s e. rewrite Hl. apply L2.
Qed.

(** Operations change, the rest stays. *)
Lemma runs_ok d d' :
  backup_ok d → run_events d' = run_events d → log_rows d' = log_rows d → log_heads d' = log_heads d → run_requests d' = run_requests d →
  fl_plans (cd_fleet d') = fl_plans (cd_fleet d) →
  (∀ id o, runs d !! id = Some o → ∃ o', runs d' !! id = Some o' ∧ later o o') →
  (∀ id o', runs d' !! id = Some o' → bo_ID o' = id ∧ run_ok o' ∧ descends d' o' ∧ counted d' o') →
  backup_ok d'.
Proof using Type.
  intros [K R D Cn E Q Pl L] He Hl Hh Hq Hp Hlater Hrows. split.
  - intros id o Ho. by apply Hrows.
  - intros id o Ho. by apply (Hrows id).
  - intros id o Ho. by apply (Hrows id).
  - intros id o Ho. by apply (Hrows id).
  - intros id s. rewrite He. intros [o Ho]%E. destruct (Hlater _ _ Ho) as (o' & Ho' & _). by exists o'.
  - intros key row. rewrite Hq. intros Hrow. destruct (Q _ _ Hrow) as (Hid & o & Ho & Hoo). split; [done|].
    destruct (Hlater _ _ Ho) as (o' & Ho' & Hl'). exists o'. split; [done|by etrans].
  - intros id p. rewrite Hp. intros Hpl. by apply (vouches_later d), Pl.
  - intros id. apply (logged_same d); [by rewrite Hh|by rewrite Hl|done].
Qed.

Lemma beside_ok d d' : backup_ok d → beside d d' → backup_ok d' ∧ forward d d'.
Proof using Type.
  intros [K R D Cn E Q Pl L] [Hb Hp Hn].
  assert (Hr : runs d' = runs d) by (unfold runs; by rewrite Hb). assert (He : run_events d' = run_events d) by (unfold run_events; by rewrite Hb).
  assert (Hl : log_rows d' = log_rows d) by (unfold log_rows; by rewrite Hb). assert (Hh : log_heads d' = log_heads d) by (unfold log_heads; by rewrite Hb).
  assert (Hq : run_requests d' = run_requests d) by (unfold run_requests; by rewrite Hb).
  assert (Hlater : ∀ id o, runs d !! id = Some o → ∃ o', runs d' !! id = Some o' ∧ later o o') by (intros id o Ho; exists o; by rewrite Hr).
  split.
  - split; [by rewrite Hr|by rewrite Hr|..].
    + rewrite Hr. intros id o Ho. by apply (descends_later d), (D id).
    + rewrite Hr. intros id o Ho. apply (counted_same d _ o); [done..|by apply latest_same|by apply (Cn id)].
    + intros id s. rewrite He, Hr. apply E.
    + intros key row. rewrite Hq, Hr. apply Q.
    + intros id p' Hp'. destruct (fl_plans (cd_fleet d) !! id) as [p|] eqn:Hpl.
      * destruct (Hp _ _ Hpl) as (p2 & Hp2 & Hs). simplify_eq. by apply (vouches_same _ _ p), (vouches_later d), Pl.
      * unfold vouches. by rewrite (Hn _ _ Hp' Hpl).
    + intros id. apply (logged_same d); [by rewrite Hh|by rewrite Hl|done].
  - split; [done|by rewrite He|by rewrite Hl| |].
    + intros id h. rewrite Hh. by exists h.
    + intros id p t Hpl Ht. destruct (Hp _ _ Hpl) as (p' & Hp' & Hs & _). exists p', t. split_and!; [done|congruence|done].
Qed.
(** ** Steps keep the invariant *)

Lemma open_ok d o :
  backup_ok d → runs d !! bo_ID o = None → run_ok o → descends d o →
  counters o = match bo_Summary o with Some s => summary_counters s | None => (0, 0, 0, 0) end →
  backup_ok (set_runs (<[bo_ID o := o]> (runs d)) d) ∧ forward d (set_runs (<[bo_ID o := o]> (runs d)) d).
Proof using Type.
  intros Hok Hn Hr Hd Hc. assert (Hlater : ∀ id x, runs d !! id = Some x → ∃ x', <[bo_ID o := o]> (runs d) !! id = Some x' ∧ later x x').
  { intros id x Hx. exists x. split; [|reflexivity]. rewrite lookup_insert_ne; [done|]. intros <-. congruence. }
  split; [|by apply forward_runs]. apply (runs_ok d); try done. intros id x. unfold runs at 1. cbn.
  intros [[<- <-]|[Hne Hx]]%lookup_insert_Some.
  - split_and!; [done|done|by apply (descends_later d)|]. unfold counted. rewrite Hc. destruct (bo_Summary o); [done|].
    rewrite (latest_same _ d) by done. unfold latest_event. pose proof (max_sequence_spec (bo_ID o) d) as Hm.
    destruct (max_sequence (bo_ID o) d) as [m|]; [|done]. destruct Hm as [[y Hy]%(bi_events _ Hok) _]. congruence.
  - split_and!; [by apply (bi_keyed _ Hok)|by apply (bi_rows _ Hok id)|apply (descends_later d); [done|by apply (bi_descends _ Hok id)]|].
    apply (counted_same d _ x); [done..|by apply latest_same|by apply (bi_counted _ Hok id)].
Qed.

Lemma move_ok d o o' :
  backup_ok d → runs d !! bo_ID o = Some o → open_run o = true → moves o o' → run_ok o' →
  (counters o' = counters o ∧ bo_Summary o' = bo_Summary o ∨ ∃ s, bo_Summary o' = Some s ∧ counters o' = summary_counters s) →
  backup_ok (set_runs (<[bo_ID o := o']> (runs d)) d) ∧ forward d (set_runs (<[bo_ID o := o']> (runs d)) d).
Proof using Type.
  intros Hok Ho Hopen Hm Hr Hc. assert (Hlater := run_later_insert _ _ _ Ho (or_intror (conj Hopen Hm))).
  split; [|by apply forward_runs]. apply (runs_ok d); try done. intros id x. unfold runs at 1. cbn.
  intros [[<- <-]|[Hne Hx]]%lookup_insert_Some.
  - split_and!; [apply Hm|done| |].
    + apply (descends_later d); [done|]. apply (descends_same _ o); [apply Hm|by apply (bi_descends _ Hok (bo_ID o))].
    + destruct Hc as [[H1 H2]|(s & H1 & H2)]; [|unfold counted; by rewrite H1].
      apply (counted_same d _ o); [apply Hm|done|done|by apply latest_same|by apply (bi_counted _ Hok (bo_ID o))].
  - split_and!; [by apply (bi_keyed _ Hok)|by apply (bi_rows _ Hok id)|apply (descends_later d); [done|by apply (bi_descends _ Hok id)]|].
    apply (counted_same d _ x); [done..|by apply latest_same|by apply (bi_counted _ Hok id)].
Qed.

Lemma latest_insert id s e d d' :
  run_events d' = <[(id, s) := e]> (run_events d) → run_events d !! (id, s) = None →
  (∀ m, max_sequence id d = Some m → m < s) ∧ latest_event id d' = Some e ∨
  ∃ m, max_sequence id d = Some m ∧ s < m ∧ latest_event id d' = latest_event id d.
Proof using Type.
  intros He Hn. unfold latest_event. destruct (max_sequence_insert _ _ _ _ _ He Hn) as [[-> Hlt]|(m & Hm & -> & Hlt)].
  - left. split; [done|]. by rewrite He, lookup_insert_eq.
  - right. exists m. split_and!; [done|done|]. rewrite Hm, He, lookup_insert_ne; [done|]. intros [= ->]. lia.
Qed.

Lemma latest_other id k e d d' :
  run_events d' = <[k := e]> (run_events d) → k.1 ≠ id → latest_event id d' = latest_event id d.
Proof using Type.
  intros He Hk. unfold latest_event. rewrite (max_sequence_other _ _ _ _ _ He Hk). destruct (max_sequence id d) as [m|]; [|done].
  rewrite He, lookup_insert_ne; [done|]. by intros ->.
Qed.

Lemma observe_ok d o o' s e :
  backup_ok d → runs d !! bo_ID o = Some o → open_run o = true → run_events d !! (bo_ID o, s) = None →
  (∀ m, max_sequence (bo_ID o) d = Some m → s < m → o' = o) →
  ((∀ m, max_sequence (bo_ID o) d = Some m → m < s) →
    moves o o' ∧ run_ok o' ∧ counters o' = event_counters e ∧ bo_Summary o' = bo_Summary o ∧ bo_Summary o = None) →
  let d' := set_runs (<[bo_ID o := o']> (runs d)) (set_run_events (<[(bo_ID o, s) := e]> (run_events d)) d) in
  backup_ok d' ∧ forward d d'.
Proof using Type.
  intros Hok Ho Hopen Hn Hold Hnew d'. assert (He : run_events d' = <[(bo_ID o, s) := e]> (run_events d)) by done.
  assert (Hruns : runs d' = <[bo_ID o := o']> (runs d)) by done.
  assert (Hrest : log_rows d' = log_rows d ∧ log_heads d' = log_heads d ∧ run_requests d' = run_requests d ∧
    fl_plans (cd_fleet d') = fl_plans (cd_fleet d)) by done.
  clearbody d'. destruct Hrest as (Hlr & Hlh & Hrq & Hpl).
  assert (Hlate := latest_insert _ _ _ _ _ He Hn).
  assert (Hmoves : moves o o' ∧ run_ok o' ∧ (bo_Summary o' = bo_Summary o) ∧
    (latest_event (bo_ID o) d' = Some e ∧ counters o' = event_counters e ∧ bo_Summary o = None ∨
     latest_event (bo_ID o) d' = latest_event (bo_ID o) d ∧ o' = o)).
  { destruct Hlate as [[Hlt Hl]|(m & Hm & Hlt & Hl)].
    - destruct (Hnew Hlt) as (H1 & H2 & H3 & H4 & H5). split_and!; [done|done|done|by left].
    - rewrite (Hold _ Hm Hlt). split_and!; [reflexivity|by apply (bi_rows _ Hok (bo_ID o))|done|by right]. }
  destruct Hmoves as (Hm & Hr & Hs & Hc). clear Hold Hnew Hlate.
  assert (Hlater := run_later_insert _ _ _ Ho (or_intror (conj Hopen Hm))). rewrite <- Hruns in Hlater.
  assert (Hsub : run_events d ⊆ run_events d') by by rewrite He; apply insert_subseteq.
  split; [|by apply forward_runs]. destruct Hok as [K R D Cn E Q Pl L].
  assert (Hrows : ∀ id x, runs d' !! id = Some x → bo_ID x = id ∧ run_ok x ∧ descends d' x ∧ counted d' x).
  { intros id x. rewrite Hruns. intros [[<- <-]|[Hne Hx]]%lookup_insert_Some.
    - split_and!; [apply Hm|done|apply (descends_later d); [done|]; apply (descends_same _ o); [apply Hm|by apply (D (bo_ID o))]|].
      destruct Hc as [(H1 & H2 & H3)|[H1 ->]].
      + unfold counted. rewrite Hs, H3, (sr_id _ _ (mv_same _ _ Hm)), H1. done.
      + apply (counted_same d _ o); [done..|by apply (Cn (bo_ID o))].
    - split_and!; [by apply K|by apply (R id)|apply (descends_later d); [done|by apply (D id)]|].
      apply (counted_same d _ x); [done..| |by apply (Cn id)]. rewrite (K _ _ Hx). by apply (latest_other _ _ e d _ He). }
  split.
  - intros id x Hx%Hrows. apply Hx.
  - intros id x Hx%Hrows. apply Hx.
  - intros id x Hx%Hrows. apply Hx.
  - intros id x Hx%Hrows. apply Hx.
  - intros id t. rewrite He. intros [x [[[= <- <-] <-]|[_ Hx]]%lookup_insert_Some]; [by exists o'; rewrite Hruns; apply lookup_insert_eq|].
    destruct (E id t) as [y Hy]; [by exists x|]. destruct (Hlater _ _ Hy) as (y' & Hy' & _). by exists y'.
  - intros key row. rewrite Hrq. intros Hrow. destruct (Q _ _ Hrow) as (Hid & y & Hy & Hyy). split; [done|].
    destruct (Hlater _ _ Hy) as (y' & Hy' & Hl'). exists y'. split; [done|by etrans].
  - intros id p. rewrite Hpl. intros Hp. by apply (vouches_later d), Pl.
  - intros id. apply (logged_same d); [by rewrite Hlh|by rewrite Hlr|done].
Qed.

Lemma result_ok d plan p p' o t :
  backup_ok d → fl_plans (cd_fleet d) !! plan = Some p → runs d !! bo_ID o = Some o → bo_PlanID o = plan → bo_FinishedAt o = Some t →
  (same_result p p' ∧ newer_result p t = true ∨
   newer_result p t = false ∧ pn_LastResultAt p' = Some t ∧ pn_LastOperationID p' = Some (bo_ID o)) →
  let d' := set_plans (<[plan := p']> (fl_plans (cd_fleet d))) d in backup_ok d' ∧ forward d d'.
Proof using Type.
  intros [K R D Cn E Q Pl L] Hp Ho Hop Ht Hc d'. split.
  - split; try done; [|intros id; by apply (logged_same d)]. intros id x. unfold d'. cbn. intros [[<- <-]|[_ Hx]]%lookup_insert_Some; [|by apply (Pl id)].
    destruct Hc as [[Hs _]|(_ & H1 & H2)]; [by apply (vouches_same d _ p); [|apply Pl]|].
    unfold vouches. rewrite H1. by exists (bo_ID o), o.
  - split; try done; [intros id x Hx; by exists x|intros id h Hh; by exists h|].
    intros id x u Hx Hu. unfold d'. cbn. destruct (decide (id = plan)) as [->|Hne].
    + simplify_eq. rewrite lookup_insert_eq. destruct Hc as [[[Hs _] _]|(Hn & H1 & _)].
      * exists p', u. by rewrite Hs.
      * exists p', t. split_and!; [done|done|]. unfold newer_result in Hn. rewrite Hu in Hn. bool_prop. lia.
    + exists x, u. by rewrite lookup_insert_ne.
Qed.

Lemma remember_ok d key row :
  backup_ok d → runs d !! bq_OperationID row = Some (bq_Response row) →
  let d' := set_run_requests (<[key := row]> (run_requests d)) d in backup_ok d' ∧ forward d d'.
Proof using Type.
  intros [K R D Cn E Q Pl L] Hr d'. split.
  - split; try done; [|intros id; by apply (logged_same d)]. intros k x. unfold d', run_requests. cbn. intros [[<- <-]|[_ Hx]]%lookup_insert_Some; [|by apply (Q k)].
    split; [by apply K in Hr|]. exists (bq_Response row). by split.
  - split; try done; [intros id x Hx; by exists x|intros id h Hh; by exists h|intros id x u Hx Hu; by exists x, u].
Qed.

Lemma put_logs_lookup id entries m j s :
  NoDup (le_Sequence <$> entries) →
  (∀ e, e ∈ entries → j = id → le_Sequence e = s → put_logs id entries m !! (j, s) = Some e) ∧
  ((j ≠ id ∨ s ∉ le_Sequence <$> entries) → put_logs id entries m !! (j, s) = m !! (j, s)).
Proof using Type.
  induction entries as [|x l IH] using rev_ind; [by split; [intros e ?%not_elem_of_nil|]|]. rewrite fmap_app, NoDup_app. cbn.
  intros (Hl & Hx & _). destruct (IH Hl) as [IH1 IH2]. unfold put_logs in *. rewrite foldl_app. cbn. split.
  - intros e [He| ->%list_elem_of_singleton]%elem_of_app -> <-; [|by rewrite lookup_insert_eq].
    rewrite lookup_insert_ne; [by apply IH1|]. intros [= Heq]. apply (Hx (le_Sequence e)); [by apply list_elem_of_fmap_2|]. rewrite <- Heq. by left.
  - intros Hn. rewrite lookup_insert_ne.
    + apply IH2. destruct Hn as [Hn|Hn]; [by left|right]. intros Hin. apply Hn, elem_of_app. by left.
    + intros [= <- <-]. destruct Hn as [Hn|Hn]; [done|]. apply Hn, elem_of_app. right. by left.
Qed.

Lemma entries_size_app l k : entries_size (l ++ k) = entries_size l + entries_size k.
Proof using Type. induction l as [|e l IH]; cbn; [done|]. unfold entries_size in *. rewrite IH. lia. Qed.

(** What an operation without a head has logged. *)
Lemma logged_default d id :
  logged d id → let h := default (mkLogHead 0 0) (log_heads d !! id) in
  0 ≤ lh_AckSequence h ∧ ∃ l, logged_to d id (lh_AckSequence h) (lh_BytesReceived h) l.
Proof using Type.
  unfold logged. destruct (log_heads d !! id) as [h|]; cbn; [done|]. intros Hn. split; [done|]. exists []. split; try done.
  intros s e. rewrite Hn. split; [done|]. by intros [?%not_elem_of_nil _].
Qed.

Lemma log_ok d id h entries :
  backup_ok d → is_Some (runs d !! id) → default (mkLogHead 0 0) (log_heads d !! id) = h →
  le_Sequence <$> entries = seqZ (lh_AckSequence h + 1) (Z.of_nat (length entries)) → Forall (λ e, ValidateLogEntry e = true) entries →
  lh_BytesReceived h + entries_size entries ≤ Desired.DefaultLogLimitBytes →
  let d' := set_log_heads (<[id := mkLogHead (lh_AckSequence h + Z.of_nat (length entries)) (lh_BytesReceived h + entries_size entries)]> (log_heads d))
              (set_log_rows (put_logs id entries (log_rows d)) d) in
  backup_ok d' ∧ forward d d'.
Proof using Type.
  intros [K R D Cn E Q Pl L] Hid Hh Hseq Hv Hlim d'. pose proof (logged_default _ _ (L id)) as Hl. cbv zeta in Hl. rewrite Hh in Hl.
  destruct Hl as (Ha & l & [L1 L2 L3 L4 L5]).
  assert (Hnd : NoDup (le_Sequence <$> entries)) by (rewrite Hseq; apply NoDup_seqZ).
  assert (Hold : ∀ s e, log_rows d !! (id, s) = Some e → s ∉ le_Sequence <$> entries).
  { intros s e [Hin <-]%L2. rewrite Hseq, elem_of_seqZ. apply (list_elem_of_fmap_2 le_Sequence) in Hin. rewrite L1, elem_of_seqZ in Hin. lia. }
  assert (Hrows : ∀ j s, log_rows d' !! (j, s) = put_logs id entries (log_rows d) !! (j, s)) by done.
  assert (Hheads : log_heads d' = <[id := mkLogHead (lh_AckSequence h + Z.of_nat (length entries)) (lh_BytesReceived h + entries_size entries)]>
    (log_heads d)) by done.
  split.
  - split; try done. intros j. destruct (decide (j = id)) as [->|Hne].
    + unfold logged. rewrite Hheads, lookup_insert_eq. cbn. split; [lia|]. exists (l ++ entries). split.
      * rewrite fmap_app, L1, Hseq, (seqZ_app 1 (lh_AckSequence h)) by lia. by rewrite (Z.add_comm 1).
      * intros s e. rewrite Hrows. destruct (put_logs_lookup id entries (log_rows d) id s Hnd) as [P1 P2]. rewrite elem_of_app. split.
        -- intros He. destruct (decide (s ∈ le_Sequence <$> entries)) as [(x & -> & Hx)%list_elem_of_fmap|Hs].
           ++ rewrite (P1 x) in He by done. simplify_eq. auto.
           ++ rewrite P2 in He by auto. apply L2 in He. tauto.
        -- intros [[He|He] <-]; [|by apply P1]. rewrite P2; [by apply L2|]. right. apply (Hold _ e). by apply L2.
      * by apply Forall_app.
      * rewrite entries_size_app. lia.
      * done.
    + apply (logged_same d); [by rewrite Hheads, lookup_insert_ne| |done]. intros s. rewrite Hrows. apply put_logs_lookup; auto.
  - split; try done; [intros j x Hx; by exists x| | |intros j x u Hx Hu; by exists x, u].
    + apply map_subseteq_spec. intros [j s] e He. rewrite Hrows. destruct (decide (j = id)) as [->|Hne].
      * rewrite (proj2 (put_logs_lookup id entries (log_rows d) id s Hnd)); [done|]. right. by apply (Hold s e).
      * rewrite (proj2 (put_logs_lookup id entries (log_rows d) j s Hnd)); auto.
    + intros j x Hx. rewrite Hheads. destruct (decide (j = id)) as [->|Hne].
      * rewrite Hx in Hh. cbn in Hh. subst. eexists. rewrite lookup_insert_eq. split; [done|]. cbn. lia.
      * exists x. by rewrite lookup_insert_ne.
Qed.

Theorem backup_step_ok d d' : backup_ok d → backup_step d d' → backup_ok d' ∧ forward d d'.
Proof using Type.
  intros Hok [x Hx|o Hn Hr Hd Hnd Hc|o o' Ho Hopen Hm Hr Hc|o o' s e Ho Hopen Hn Hold Hnew|plan p p' o t Hp Ho Hop Ht Hc|key row Hr|id h l Hid Hh Hs Hv Hl].
  - by apply beside_ok.
  - by apply open_ok.
  - by apply move_ok.
  - by apply observe_ok.
  - by apply (result_ok d plan p p' o t).
  - by apply remember_ok.
  - by apply log_ok.
Qed.

Lemma steps_ok d d' : rtc backup_step d d' → backup_ok d → backup_ok d' ∧ forward d d'.
Proof using Type.
  induction 1 as [d|d1 d2 d3 H12 _ IH]; [by split|]. intros Hok. destruct (backup_step_ok _ _ Hok H12) as [H2 F2]. destruct (IH H2) as [H3 F3].
  split; [done|by etrans].
Qed.
End Invariant.
