(* ===== verification/BackupRefine.v ===== *)
(** * BackupRefine: the transactions of BackupStore implement BackupSpec

    Every transaction, on every path through it and whatever the environment
    does, commits a database that [backup_step]s reach ([reaches]). *)

From S2P Require Import Prelude GoStd Uuid Platform Domain Plan DomainLogs GatewaySession GatewayAuth AuditChain PendingRecord.
From S2P Require Import CentralTx CentralStore CentralTrace CentralRefine AgentLogs BackupStore BackupSpec.
Open Scope Z_scope.
Open Scope go_scope.
Open Scope central_scope.

(** ** Reading *)

(** What [lockReportedOperation] makes sure of. *)
Definition reportable (r : Reported) (d : CentralDb) : Prop :=
  match runs d !! rd_ID r with
  | Some o => reported_of r o = true ∧
      (rd_Attempt r = 0 ∨ bo_Attempt o = rd_Attempt r ∧ bo_ParentOperationID o = rd_Parent r ∧ bo_RootOperationID o = rd_Root r)
  | None =>
      match rd_Parent r with
      | None => rd_Root r = None ∧ rd_Attempt r ≤ 1
      | Some p => ∃ x, runs d !! p = Some x ∧ continues_run r x = true ∧ rd_Root r = Some (root_of x)
      end
  end.

Lemma wp_lockReported r (Q : result dberr () → CentralDb → CentralDb → Prop) w c :
  (∀ x, Q (Err x) w c) → (reportable r w → Q (Ok ()) w c) → wp (lockReportedOperation r) Q w c.
Proof.
  intros He Hok. unfold reportable in Hok. unfold lockReportedOperation, scanBackupOperation. wp_run; try apply He; apply Hok; simplify_eq.
  all: repeat match goal with H : _ = Some _ |- _ => rewrite H | H : _ = None |- _ => rewrite H end; unfold is_some in *; bool_prop.
  - split; [done|]. match goal with H : (_ && _) = false |- _ => apply andb_false_iff in H as [H|H] end; bool_prop; [by left|by right].
  - eexists; split_and!; [done|done|by f_equal].
  - destruct (rd_Root r); [done|]. split; [done|lia].
Qed.

Lemma wp_now (Q : result dberr time → CentralDb → CentralDb → Prop) w c : (∀ t, Q (Ok t) w c) → wp transaction_timestamp Q w c.
Proof. intros HQ e ab n. apply HQ. Qed.

Lemma wp_lockRequest key (Q : result dberr (option BackupOperation) → CentralDb → CentralDb → Prop) w c :
  (∀ x, Q (Err x) w c) → Q (Ok None) w c →
  (∀ t row, answered key t w = Some row → bq_RequestHash row = rk_Body key → Q (Ok (Some (bq_Response row))) w c) →
  wp (lockBackupRequest key) Q w c.
Proof.
  intros He Hn Hs. unfold lockBackupRequest. destruct (_ || _); [by apply wp_fail|]. apply wp_bind, wp_select; [done|]. intros _.
  apply wp_bind, wp_select; [done|]. intros t. destruct (answered key t w) as [row|] eqn:Hrow; [|by apply wp_ret].
  destruct (bq_RequestHash row != rk_Body key) eqn:Hb; [by apply wp_fail|]. apply wp_ret. bool_prop. by eapply Hs.
Qed.

(** ** Writing rows *)

Ltac decided := by apply (bool_decide_unpack _).

Lemma set_runs_twice x y d : set_runs y (set_runs x d) = set_runs y d.
Proof. done. Qed.
Lemma runs_set x d : runs (set_runs x d) = x.
Proof. done. Qed.

Lemma save_run_inv o d w : save_run o d = Some w → run_check o = true ∧ w = set_runs (<[bo_ID o := o]> (runs d)) d.
Proof. unfold save_run. destruct (run_check o); [by intros [= <-]|done]. Qed.

Lemma insert_run_inv o d w :
  insert_run o d = Some w → runs d !! bo_ID o = None ∧ run_check o = true ∧ w = set_runs (<[bo_ID o := o]> (runs d)) d.
Proof.
  unfold insert_run, known_run, is_some. destruct (runs d !! bo_ID o) as [x|]; [done|]. destruct (run_references o d); [|done].
  intros [Hc ->]%save_run_inv. done.
Qed.

Lemma upsert_run_inv r fresh merge d w :
  upsert_run r fresh merge d = Some (true, w) → bo_ID fresh = rd_ID r →
  runs d !! rd_ID r = None ∧ run_check fresh = true ∧ w = set_runs (<[rd_ID r := fresh]> (runs d)) d ∨
  ∃ o, runs d !! rd_ID r = Some o ∧ conflict_matches r o = true ∧ run_check (merge o) = true ∧
    w = set_runs (<[bo_ID (merge o) := merge o]> (runs d)) d.
Proof.
  unfold upsert_run. destruct (run_check fresh) eqn:Hf; [|done]. cbn [negb]. intros H Hid. destruct (runs d !! rd_ID r) as [o|] eqn:Ho.
  - right. destruct (conflict_matches r o) eqn:Hc; [|done]. destruct (save_run _ _) as [w'|] eqn:Hs; [|done]. injection H as <-.
    apply save_run_inv in Hs as [? ->]. by exists o.
  - left. destruct (insert_run _ _) as [w'|] eqn:Hs; [|done]. injection H as <-. apply insert_run_inv in Hs as (? & ? & ->). by rewrite Hid.
Qed.

Lemma check_attempt o : run_check o = true → 1 ≤ bo_Attempt o ≤ 10000.
Proof. unfold run_check. intros H. bool_prop. lia. Qed.

Lemma check_status o : run_check o = true → bo_Status o ∈ run_statuses.
Proof. unfold run_check. intros H. bool_prop. done. Qed.

(** An open operation has not reached a terminal status. *)
Lemma open_status o : run_ok o → open_run o = true → bo_Status o = "QUEUED" ∨ bo_Status o = "RUNNING" ∨ bo_Status o = "CANCEL_REQUESTED".
Proof.
  intros Hr Ho. pose proof (check_status _ (ro_check _ Hr)) as Hs. assert (Hn : bo_Status o ∉ terminal_statuses).
  { intros [t Ht]%(ro_ended _ Hr). unfold open_run in Ho. by rewrite Ht in Ho. }
  unfold run_statuses, terminal_statuses in *. set_solver.
Qed.

Lemma ended_stage status : status ∈ terminal_statuses → stage status = 3.
Proof. unfold terminal_statuses. rewrite !elem_of_cons, elem_of_nil. intros H. by repeat destruct H as [->|H]. Qed.

Lemma stage_bound status : stage status ≤ 3.
Proof. unfold stage. repeat destruct (_ == _); lia. Qed.

Lemma set_runs_id d : set_runs (runs d) d = d.
Proof. destruct d as [[] ? ? ? ? ? ? ? ? ? ?]. unfold set_runs, runs, run_events, log_heads, log_rows, run_requests, set_backups, set_fleet. cbn. by destruct fl_backups. Qed.

(** ** Reports *)

Lemma reported_ok `{LC : LogCodec} r status scheduled started finished exit error snapshot now d :
  let o := fresh_run r status scheduled started finished exit error snapshot now in
  backup_ok d → reportable r d → runs d !! rd_ID r = None → run_check o = true →
  (is_Some finished ↔ status ∈ terminal_statuses) → status ≠ "QUEUED" → status ≠ "CANCEL_REQUESTED" →
  run_ok o ∧ descends d o.
Proof.
  intros o Hok Hrep Hn Hc Hf Hq Hcr. unfold reportable in Hrep. rewrite Hn in Hrep. split.
  - split; try done; [by left|]. cbn. intros Hp. rewrite Hp in Hrep. destruct Hrep as [-> Ha]. split; [done|lia].
  - intros p Hp. cbn in Hp. rewrite Hp in Hrep. destruct Hrep as (x & Hx & Hcont & Hroot). exists x. unfold continues_run in Hcont. bool_prop.
    pose proof (bi_rows _ Hok _ _ Hx) as Hrx. pose proof (check_attempt _ (ro_check _ Hrx)). split_and!; [done| |done| |done].
    + assert (is_Some (bo_FinishedAt x)) as [t Ht]; [|unfold open_run; by rewrite Ht].
      apply Hrx. match goal with H : bo_Status x = _ |- _ => rewrite H end. decided.
    + cbn. lia.
Qed.

Lemma matches_open r o : conflict_matches r o = true → open_run o = true.
Proof. unfold conflict_matches. intros H. by bool_prop. Qed.

Lemma progress_moves p o :
  run_ok o → open_run o = true → run_check (progress_merge p o) = true → moves o (progress_merge p o) ∧ run_ok (progress_merge p o).
Proof.
  intros Hr Ho Hc. pose proof (open_status _ Hr Ho) as Hs. assert (Hf : bo_FinishedAt o = None) by (unfold open_run in Ho; by destruct (bo_FinishedAt o)).
  assert (Hst : stage (bo_Status o) ≤ stage (if bo_Status o == "CANCEL_REQUESTED" then "CANCEL_REQUESTED" else "RUNNING")).
  { by destruct Hs as [-> | [-> | ->]]. }
  split.
  - split; try done; [intros t Ht; cbn; by rewrite Ht|cbn; intros Hn; rewrite Hn; by intros []].
  - destruct Hr. split; try done.
    + cbn. rewrite Hf. split; [by intros []|]. intros Hs'. exfalso. revert Hs'. destruct (_ == _); decided.
    + cbn. destruct (bo_Status o == "CANCEL_REQUESTED") eqn:E; bool_prop; [by intros _; apply ro_cancel|done].
    + cbn. by destruct (_ == _).
    + cbn. intros Hst'. apply ro_uncanceled. destruct Hs as [-> | [-> | Hs]]; [done|done|]. by rewrite Hs in Hst'.
Qed.

Lemma end_moves o status t exit error snapshot updated o' :
  run_ok o → open_run o = true → status ∈ terminal_statuses → o' = with_end status t exit error snapshot updated o → run_check o' = true →
  moves o o' ∧ run_ok o'.
Proof.
  intros Hr Ho Hs -> Hc. split.
  - split; try done; [|cbn; intros Hn; rewrite Hn; by intros []]. cbn. rewrite (ended_stage status Hs). apply stage_bound.
  - assert (Hn : status ≠ "QUEUED" ∧ status ≠ "RUNNING" ∧ status ≠ "CANCEL_REQUESTED") by (split_and!; intros ->; revert Hs; decided).
    destruct Hr. split; try done; cbn; try tauto. rewrite (ended_stage status Hs). lia.
Qed.

Section Refine.
Context `{LC : LogCodec}.

Notation reaches := (rtc backup_step).

Lemma one_step d d' d'' : reaches d d' → backup_step d' d'' → reaches d d''.
Proof using Type. intros Hd Hs. etrans; [done|by apply rtc_once]. Qed.

(** The operation of a report after its row was written. *)
Record reported_row (r : Reported) (w : CentralDb) (o : BackupOperation) : Prop := {
  rw_row : runs w !! rd_ID r = Some o;
  rw_id : bo_ID o = rd_ID r }.

Lemma upsert_unchanged r fresh merge d w : upsert_run r fresh merge d = Some (false, w) → w = d.
Proof using Type.
  unfold upsert_run. destruct (negb _); [done|]. destruct (runs d !! rd_ID r) as [o|].
  - destruct (conflict_matches r o); [by destruct (save_run _ _)|by intros [= <-]].
  - by destruct (insert_run _ _).
Qed.

(** The row of a progress report is written, and stays open. *)
Lemma progress_row p d w :
  backup_ok d → reportable (reported_progress p) d →
  upsert_run (reported_progress p) (progress_fresh p) (progress_merge p) d = Some (true, w) →
  reaches d w ∧ ∃ o, reported_row (reported_progress p) w o ∧ open_run o = true.
Proof using Type.
  intros Hok Hrep Hu. apply upsert_run_inv in Hu; [|done].
  destruct Hu as [(Hn & Hc & ->)|(o & Ho & Hm & Hc & ->)].
  - destruct (reported_ok _ _ _ _ _ _ _ _ _ _ Hok Hrep Hn Hc) as [Hr Hd]; [split; [by intros []|decided]|done|done|].
    split; [by apply rtc_once, (bs_open d (progress_fresh p))|]. exists (progress_fresh p). split; [|done].
    split; [|done]. rewrite runs_set. apply lookup_insert_eq.
  - pose proof (matches_open _ _ Hm) as Hopen. pose proof (bi_rows _ Hok _ _ Ho) as Hr. pose proof (bi_keyed _ Hok _ _ Ho) as Hid.
    destruct (progress_moves _ _ Hr Hopen Hc) as [Hmv Hr']. change (bo_ID (progress_merge p o)) with (bo_ID o).
    split; [apply rtc_once, (bs_move d o); [by rewrite Hid|done|done|done|by left]|]. exists (progress_merge p o). split; [|done].
    split; [|done]. rewrite runs_set, Hid. apply lookup_insert_eq.
Qed.

Lemma insert_event_inv p d w :
  insert_run_event p d = Some (true, w) →
  run_events d !! (bp_OperationID p, bp_Sequence p) = None ∧
  w = set_run_events (<[(bp_OperationID p, bp_Sequence p) := progress_event p]> (run_events d)) d.
Proof using Type. unfold insert_run_event. destruct (_ || _); [done|]. destruct (run_events d !! _); [done|]. by intros [= <-]. Qed.

Lemma insert_event_unchanged p d w : insert_run_event p d = Some (false, w) → w = d.
Proof using Type. unfold insert_run_event. destruct (_ || _); [done|]. destruct (run_events d !! _); [|done]. by intros [= <-]. Qed.

(** An event is recorded, and the counters follow when it is the newest. *)
Lemma observe_step p d o w w' :
  backup_ok d → reported_row (reported_progress p) d o → open_run o = true →
  insert_run_event p d = Some (true, w) → update_counters p w = Some w' → backup_step d w'.
Proof using Type.
  intros Hok [Ho Hid] Hopen [Hn ->]%insert_event_inv. cbn in Ho, Hid. unfold update_counters. rewrite <- Hid in *.
  set (w1 := set_run_events _ d). change (runs w1) with (runs d). rewrite Ho, Hopen. cbn [andb]. pose proof (bi_rows _ Hok _ _ Ho) as Hr.
  assert (Hmax := max_sequence_insert (bo_ID o) (bp_Sequence p) (progress_event p) d w1 eq_refl Hn).
  destruct (max_sequence (bo_ID o) w1 == Some (bp_Sequence p)) eqn:E; bool_prop.
  - intros [Hc ->]%save_run_inv. apply (bs_observe d o); [done|done|done| |].
    + intros k Hk Hlt. destruct Hmax as [[_ Hall]|(k' & Hk' & Hk2 & _)]; [specialize (Hall _ Hk); lia|]. simplify_eq. lia.
    + intros _. pose proof (ro_summary _ Hr Hopen) as Hs. destruct Hr. split_and!; try done.
      split; try done. cbn. intros Hx. rewrite Hx. by intros [].
  - intros [= <-]. rewrite <- (set_runs_id w1). change (runs w1) with (runs d). rewrite <- (insert_id (runs d) (bo_ID o) o) by done.
    apply (bs_observe d o); [done|done|done|done|].
    intros Hall. destruct Hmax as [[Hm _]|(k & Hk & _ & Hlt)]; [congruence|]. specialize (Hall _ Hk). lia.
Qed.

Lemma progress_refines p d : backup_ok d → wp (UpsertOperationProgress p) (λ _ _ c, reaches d c) d d.
Proof using Type.
  intros Hok. assert (Hd : reaches d d) by done. unfold UpsertOperationProgress. apply wp_bind, wp_select; [done|]. intros _.
  destruct (negb _); [by apply wp_fail|]. apply wp_bind, wp_lockReported; [done|]. intros Hrep.
  apply wp_bind, wp_stmt; [done|]. intros _ [] w Hu; cbn [negb].
  - destruct (progress_row _ _ _ Hok Hrep Hu) as (Hw & o & Ho & Hopen). destruct (steps_ok _ _ Hw Hok) as [Hok' _].
    apply wp_bind, wp_stmt; [done|]. intros _ [] w1 Hi; cbn [negb].
    + apply wp_bind, wp_exec; [done|]. intros _ w2 Hc.
      assert (reaches d w2) by (eapply one_step; [done|by eapply observe_step]). by apply wp_commit.
    + apply insert_event_unchanged in Hi as ->. by apply wp_commit.
  - apply upsert_unchanged in Hu as ->. apply wp_bind, wp_lockReported; [done|]. intros _. by apply wp_commit.
Qed.

(** *** Results *)

(** The row carries the result. *)
Record carries (r : BackupOperationResult) (o : BackupOperation) : Prop := {
  ca_id : bo_ID o = bres_OperationID r;
  ca_plan : bo_PlanID o = bres_PlanID r;
  ca_status : bo_Status o = bres_Status r;
  ca_finished : bo_FinishedAt o = Some (bres_FinishedAt r);
  ca_exit : bo_ExitCode o = Some (bres_ExitCode r);
  ca_error : bo_ErrorCode o = bres_ErrorCode r;
  ca_snapshot : bo_SnapshotID o = bres_SnapshotID r;
  ca_summary : bo_Summary o = bres_Summary r }.

Definition summarized (r : BackupOperationResult) (w w' : CentralDb) : Prop :=
  match bres_Summary r with Some s => store_summary (bres_OperationID r) s w = Some w' | None => w' = w end.

Definition concluded (r : BackupOperationResult) (o : BackupOperation) : BackupOperation :=
  match bres_Summary r with
  | Some s => with_counters (bs_TotalFilesProcessed s) (bs_TotalFilesProcessed s) (bs_TotalBytesProcessed s) (bs_TotalBytesProcessed s)
                (bo_UpdatedAt o) (Some s) o
  | None => o
  end.

Lemma concluded_run r o d w w' :
  w = set_runs (<[bo_ID o := o]> (runs d)) d → bo_ID o = bres_OperationID r → run_check o = true → summarized r w w' →
  w' = set_runs (<[bo_ID o := concluded r o]> (runs d)) d ∧ run_check (concluded r o) = true.
Proof using Type.
  intros -> Hid Hc. unfold summarized, concluded. destruct (bres_Summary r) as [s|]; [|by intros ->].
  unfold store_summary. rewrite runs_set, <- Hid, lookup_insert_eq. intros [Hc' ->]%save_run_inv. split; [|done].
  change (bo_ID (with_counters _ _ _ _ _ _ o)) with (bo_ID o). by rewrite runs_set, set_runs_twice, insert_insert_eq.
Qed.

Lemma concluded_moves r o o1 : moves o o1 → moves o (concluded r o1).
Proof using Type. unfold concluded. destruct (bres_Summary r); [|done]. intros [[] ? ? ? ? ?]. by split; [split|..]. Qed.

Lemma concluded_ok r o : run_ok o → open_run o = false → run_check (concluded r o) = true → run_ok (concluded r o).
Proof using Type.
  unfold concluded. destruct (bres_Summary r); [|done]. intros [] Hf Hc. split; try done. unfold open_run in *. cbn. by rewrite Hf.
Qed.

Lemma concluded_carries r o :
  bo_ID o = bres_OperationID r → bo_PlanID o = bres_PlanID r → bo_Status o = bres_Status r → bo_FinishedAt o = Some (bres_FinishedAt r) →
  bo_ExitCode o = Some (bres_ExitCode r) → bo_ErrorCode o = bres_ErrorCode r → bo_SnapshotID o = bres_SnapshotID r → bo_Summary o = None →
  carries r (concluded r o).
Proof using Type. unfold concluded. destruct (bres_Summary r) eqn:Hs; intros; split; cbn; congruence. Qed.

Lemma result_row r d w w' :
  backup_ok d → bres_Status r ∈ terminal_statuses → reportable (reported_result r) d →
  upsert_run (reported_result r) (result_fresh r) (result_merge r) d = Some (true, w) → summarized r w w' →
  backup_step d w' ∧ fl_plans (cd_fleet w') = fl_plans (cd_fleet d) ∧ ∃ o, runs w' !! bres_OperationID r = Some o ∧ carries r o.
Proof using Type.
  intros Hok Hst Hrep Hu Hs. apply upsert_run_inv in Hu; [|done].
  assert (Hq : bres_Status r ≠ "QUEUED" ∧ bres_Status r ≠ "CANCEL_REQUESTED") by (split; intros Heq; revert Hst; rewrite Heq; decided).
  destruct Hu as [(Hn & Hc & Hw)|(o & Ho & Hm & Hc & Hw)].
  - destruct (reported_ok _ _ _ _ _ _ _ _ _ _ Hok Hrep Hn Hc) as [Hr Hd]; [split; [done|by eexists]|by destruct Hq|by destruct Hq|].
    change (fresh_run _ _ _ _ _ _ _ _ _) with (result_fresh r) in Hr, Hd.
    destruct (concluded_run r (result_fresh r) d w w' Hw eq_refl Hc Hs) as [-> Hc'].
    assert (Hca : carries r (concluded r (result_fresh r))) by by apply concluded_carries.
    split; [|split; [done|exists (concluded r (result_fresh r)); split; [apply lookup_insert_eq|done]]].
    change (bo_ID (result_fresh r)) with (bres_OperationID r). rewrite <- (ca_id _ _ Hca).
    apply bs_open; [by rewrite (ca_id _ _ Hca)|by apply concluded_ok| | |].
    + apply (descends_same _ (result_fresh r)); [|done]. unfold concluded. by destruct (bres_Summary r).
    + unfold concluded. by destruct (bres_Summary r).
    + unfold concluded. by destruct (bres_Summary r).
  - pose proof (matches_open _ _ Hm) as Hopen. pose proof (bi_rows _ Hok _ _ Ho) as Hr. pose proof (bi_keyed _ Hok _ _ Ho) as Hid.
    destruct (end_moves o _ _ _ _ _ _ _ Hr Hopen Hst eq_refl Hc) as [Hmv Hr'].
    destruct (concluded_run r (result_merge r o) d w w' Hw Hid Hc Hs) as [-> Hc'].
    unfold conflict_matches, reported_of in Hm. cbn in Hm. bool_prop.
    assert (Hca : carries r (concluded r (result_merge r o))) by (apply concluded_carries; try done; by apply (ro_summary _ Hr)).
    change (bo_ID (result_merge r o)) with (bo_ID o).
    split; [|split; [done|exists (concluded r (result_merge r o)); split; [|done]; rewrite runs_set, Hid; apply lookup_insert_eq]].
    apply bs_move; [by rewrite Hid|done|by apply concluded_moves|by apply concluded_ok|]. unfold concluded.
    destruct (bres_Summary r); [right|left; done]. by eexists.
Qed.

(** What an acknowledged result has left in the database: nothing new when the
    operation had ended before; otherwise its row, its plan and its snapshot. *)
Definition recorded (r : BackupOperationResult) (d c : CentralDb) : Prop :=
  ∃ o, runs c !! bres_OperationID r = Some o ∧ open_run o = false ∧
    (c = d ∨
     carries r o ∧ (∀ x, runs d !! bres_OperationID r = Some x → open_run x = true) ∧
     ∃ p, fl_plans (cd_fleet d) !! bres_PlanID r = Some p ∧
       fl_plans (cd_fleet c) !! bres_PlanID r =
         Some (plan_result (result_health (bres_Status r)).1 (result_health (bres_Status r)).2 (bres_OperationID r) (bres_FinishedAt r) p) ∧
       (bres_SnapshotID r ≠ "" → ∃ x, fl_snapshots (cd_fleet c) !! (pn_RepositoryID p, bres_SnapshotID r) = Some x ∧
          sn_PlanID x = Some (bres_PlanID r) ∧ sn_OperationID x = bres_OperationID r ∧ sn_Managed x = true ∧ sn_MissingAt x = None)).

Lemma plan_result_step d r o w :
  backup_ok d → runs d !! bres_OperationID r = Some o → carries r o → update_plan_result r d = Some w →
  reaches d w ∧ runs w = runs d ∧ ∀ p, fl_plans (cd_fleet d) !! bres_PlanID r = Some p →
    fl_plans (cd_fleet w) !! bres_PlanID r =
      Some (plan_result (result_health (bres_Status r)).1 (result_health (bres_Status r)).2 (bres_OperationID r) (bres_FinishedAt r) p).
Proof using Type.
  intros Hok Ho Hc. unfold update_plan_result. destruct (result_health (bres_Status r)) as [health success].
  destruct (fl_plans (cd_fleet d) !! bres_PlanID r) as [p|] eqn:Hp; [|by intros [= <-]]. intros [= <-]. split_and!; [|done|].
  - rewrite <- (ca_id _ _ Hc) in Ho. apply rtc_once, (bs_result d (bres_PlanID r) p _ o (bres_FinishedAt r)); [done|done|apply Hc|apply Hc|].
    unfold plan_result, same_result. cbn. rewrite (ca_id _ _ Hc). destruct (newer_result p (bres_FinishedAt r)) eqn:E; [left|right].
    + unfold newer_result in E. destruct (pn_LastResultAt p) as [t|]; [|done]. bool_prop. cbn. split_and!; [f_equal; lia|done|done].
    + unfold newer_result in E. split_and!; [done| |done]. destruct (pn_LastResultAt p) as [t|]; [|done]. bool_prop. cbn. f_equal. lia.
  - intros q [= <-]. cbn. by rewrite lookup_insert_eq.
Qed.

Lemma snapshot_step d r host repository now w :
  index_result r host repository now d = Some w →
  backup_step d w ∧ runs w = runs d ∧ fl_plans (cd_fleet w) = fl_plans (cd_fleet d) ∧
  ∃ x, fl_snapshots (cd_fleet w) !! (repository, bres_SnapshotID r) = Some x ∧
    sn_PlanID x = Some (bres_PlanID r) ∧ sn_OperationID x = bres_OperationID r ∧ sn_Managed x = true ∧ sn_MissingAt x = None.
Proof using Type.
  unfold index_result. cbv zeta. destruct (_ || _); [done|]. intros [= <-]. split_and!; [|done|done|].
  - apply bs_beside. split; [done|by intros id p Hp; exists p|]. cbn. congruence.
  - eexists. cbn. rewrite lookup_insert_eq. by split_and!.
Qed.

Lemma final_row r d :
  backup_ok d → reportable (reported_result r) d → upsert_run (reported_result r) (result_fresh r) (result_merge r) d = Some (false, d) →
  ∃ o, runs d !! bres_OperationID r = Some o ∧ open_run o = false.
Proof using Type.
  intros Hok Hrep. unfold upsert_run. destruct (negb _); [done|]. unfold reportable in Hrep. cbn [rd_ID reported_result] in *.
  destruct (runs d !! bres_OperationID r) as [o|] eqn:Ho; [|by destruct (insert_run _ _)].
  destruct (conflict_matches (reported_result r) o) eqn:Hm; [by destruct (save_run _ _)|]. intros _. exists o. split; [done|].
  destruct (open_run o) eqn:Hopen; [|done]. unfold conflict_matches in Hm. destruct Hrep as [Hre Ha]. rewrite Hopen, Hre in Hm.
  pose proof (check_attempt _ (ro_check _ (bi_rows _ Hok _ _ Ho))) as Hb. destruct Ha as [Ha|(H1 & H2 & H3)]; [by rewrite Ha in Hm|].
  rewrite H1 in Hb. rewrite H1, H2, H3, Z.max_l in Hm by lia. destruct (rd_Attempt (reported_result r) == 0); [done|].
  by rewrite !bool_decide_eq_true_2 in Hm.
Qed.

Lemma result_refines r d :
  backup_ok d → bres_Status r ∈ terminal_statuses →
  wp (UpsertOperationResult r) (λ x _ c, reaches d c ∧ (x = Ok () → recorded r d c)) d d.
Proof using Type.
  intros Hok Hst. assert (He : ∀ x : dberr, reaches d d ∧ (Err x = Ok () → recorded r d d)) by done.
  unfold UpsertOperationResult. apply wp_bind, wp_select; [done|]. intros _.
  destruct (bound_plan _ _ d) as [plan|] eqn:Hb; [|by apply wp_fail].
  assert (Hp : fl_plans (cd_fleet d) !! bres_PlanID r = Some plan).
  { unfold bound_plan in Hb. destruct (fl_plans (cd_fleet d) !! bres_PlanID r) as [p|]; [|done]. destruct (fl_agents (cd_fleet d) !! bres_AgentID r) as [a|]; [|done].
    destruct (_ == _); [by injection Hb as <-|done]. }
  apply wp_bind, wp_lockReported; [done|]. intros Hrep. apply wp_bind, wp_stmt; [done|]. intros _ [] w Hu; cbn [negb].
  2:{ pose proof (upsert_unchanged _ _ _ _ _ Hu) as ->. destruct (final_row _ _ Hok Hrep Hu) as (o & Ho & Hf).
      apply wp_bind, wp_lockReported; [done|]. intros _. apply wp_commit; [done|done|]. split; [done|]. intros _. exists o. split_and!; [done|done|by left]. }
  assert (Hopen : ∀ x, runs d !! bres_OperationID r = Some x → open_run x = true).
  { intros x Hx. apply upsert_run_inv in Hu; [|done]. cbn in Hu. destruct Hu as [(Hn & _)|(o & Ho & Hm & _)]; [congruence|].
    simplify_eq. by apply (matches_open (reported_result r)). }
  assert (Hsum : wp (match bres_Summary r with Some s => exec (λ _, store_summary (bres_OperationID r) s) | None => tret () end)
    (λ x w' c, c = d ∧ (x = Ok () → summarized r w w')) w d).
  { unfold summarized. destruct (bres_Summary r) as [s|]; [apply wp_exec; [done|]; by intros _ w' Hw|by apply wp_ret]. }
  apply wp_bind. eapply wp_mono; [|exact Hsum]. clear Hsum. intros [[]|x] w1 c [-> Hs]; [|done]. specialize (Hs eq_refl).
  destruct (result_row _ _ _ _ Hok Hst Hrep Hu Hs) as (Hstep & Hpl & o & Ho & Hca).
  assert (Hok1 : backup_ok w1) by by apply (backup_step_ok d).
  apply wp_bind, wp_exec; [done|]. intros _ w2 Hup. destruct (plan_result_step _ _ _ _ Hok1 Ho Hca Hup) as (Hs2 & Hr2 & Hp2).
  apply wp_bind, wp_now. intros now.
  assert (Hsnap : wp (if bres_SnapshotID r != "" then exec (λ _, index_result r (pn_HostID plan) (pn_RepositoryID plan) now) else tret ())
    (λ x w' c, c = d ∧ (x = Ok () → reaches w2 w' ∧ runs w' = runs w2 ∧ fl_plans (cd_fleet w') = fl_plans (cd_fleet w2) ∧
      (bres_SnapshotID r ≠ "" → ∃ x, fl_snapshots (cd_fleet w') !! (pn_RepositoryID plan, bres_SnapshotID r) = Some x ∧
        sn_PlanID x = Some (bres_PlanID r) ∧ sn_OperationID x = bres_OperationID r ∧ sn_Managed x = true ∧ sn_MissingAt x = None))) w2 d).
  { destruct (bres_SnapshotID r != "") eqn:E; bool_prop; [|by apply wp_ret]. apply wp_exec; [done|]. intros _ w' Hw. split; [done|]. intros _.
    destruct (snapshot_step _ _ _ _ _ _ Hw) as (H1 & H2 & H3 & H4). split_and!; [by apply rtc_once|done|done|done]. }
  apply wp_bind. eapply wp_mono; [|exact Hsnap]. clear Hsnap. intros [[]|x] w3 c [-> H3]; [|done]. destruct (H3 eq_refl) as (Hs3 & Hr3 & Hp3 & Hx).
  assert (Hall : reaches d w3) by (etrans; [by apply rtc_once|by etrans]).
  apply wp_commit; [done|done|]. split; [done|]. intros _. exists o. rewrite Hr3, Hr2. split_and!; [done|unfold open_run; by rewrite (ca_finished _ _ Hca)|].
  right. split_and!; [done|done|]. exists plan. split_and!; [done| |done]. rewrite Hp3. apply Hp2. by rewrite Hpl.
Qed.

(** *** Requests of users *)

Section Users.
Context `{U : UuidPkg} `{P : Platform} `{C : AuditCodec}.

Lemma wp_audit_fleet event (Q : result dberr () → CentralDb → CentralDb → Prop) w c :
  (∀ w', cd_fleet w' = cd_fleet w → Q (Err ErrDB) w' c) → (∀ w', cd_fleet w' = cd_fleet w → Q (Ok ()) w' c) → wp (append_audit event) Q w c.
Proof using Type. intros He Ho e ab n. unfold append_audit. destruct (appendAudit _ _ _ _) as [[] t]; cbn; [by apply Ho|by apply He]. Qed.

Lemma same_fleet d d' : cd_fleet d' = cd_fleet d → backup_step d d'.
Proof using Type. intros Hf. apply bs_beside. split; rewrite Hf; [done|by intros id p Hp; exists p|congruence]. Qed.

(** What [saveBackupRequest] leaves. *)
Definition remembered_as (key : BackupRequestKey) (o : BackupOperation) (t : time) (c : CentralDb) : Prop :=
  run_requests c !! (rk_Scope key, rk_Key key) = Some (mkBackupRequestRow (rk_Body key) (bo_ID o) o (t + 24 * hour)).

Lemma store_request_step key o t d w :
  runs d !! bo_ID o = Some o → store_request key o t d = Some w → backup_step d w ∧ remembered_as key o t w ∧ runs w = runs d.
Proof using Type.
  intros Ho. unfold store_request. destruct (_ || _); [done|]. intros [= <-].
  split_and!; [by apply (bs_remember d _ (mkBackupRequestRow _ _ _ _))|unfold remembered_as, run_requests; cbn; apply lookup_insert_eq|done].
Qed.

(** The end of both transactions: the audit event, the memory and the commit. *)
Lemma wp_answer key o audit d w (Q : result dberr BackupOperation → CentralDb → CentralDb → Prop) :
  reaches d w → runs w !! bo_ID o = Some o →
  (∀ x w', Q (Err x) w' d) → (∀ t w', reaches d w' → remembered_as key o t w' → runs w' = runs w → Q (Err ErrDB) w' w' ∧ Q (Ok o) w' w') →
  wp (let* _ := append_audit audit in let* _ := saveBackupRequest key o in let* _ := commit in tret o) Q w d.
Proof using Type.
  intros Hw Ho He Hq. apply wp_bind, wp_audit_fleet; [by intros|]. intros w1 Hf. apply wp_bind, wp_exec; [done|]. intros t w2 Hs.
  assert (Hr : runs w1 = runs w) by (unfold runs; by rewrite Hf). rewrite <- Hr in Ho. destruct (store_request_step _ _ _ _ _ Ho Hs) as (H2 & Hm & Hr2).
  assert (Hd : reaches d w2) by (eapply one_step; [eapply one_step; [done|by apply same_fleet]|done]).
  destruct (Hq t w2 Hd Hm) as [H3 H4]; [congruence|]. apply wp_bind, wp_commit; [apply He|done|by apply wp_ret].
Qed.

Definition lineage_of (planID : uuid) (parent : option uuid) (d : CentralDb) (plan : uuid) (root : option uuid) (attempt : Z) : Prop :=
  match parent with
  | None => plan = planID ∧ root = None ∧ attempt = 0
  | Some p => ∃ x, runs d !! p = Some x ∧ Operation.OperationTerminal (bo_Status x) = true ∧ plan = bo_PlanID x ∧
      root = Some (root_of x) ∧ attempt = bo_Attempt x + 1
  end.

Lemma wp_lineage planID parent (Q : result dberr (uuid * option uuid * Z) → CentralDb → CentralDb → Prop) w c :
  (∀ x, Q (Err x) w c) → (∀ plan root attempt, lineage_of planID parent w plan root attempt → Q (Ok (plan, root, attempt)) w c) →
  wp (manual_lineage planID parent) Q w c.
Proof using Type.
  intros He Hok. unfold lineage_of in Hok. unfold manual_lineage, scanBackupOperation. destruct parent as [p|]; [|apply wp_ret; by apply Hok].
  wp_run; try apply He. bool_prop. apply Hok. by eexists.
Qed.

Lemma terminal_ended o : run_ok o → Operation.OperationTerminal (bo_Status o) = true → open_run o = false.
Proof using Type.
  intros Hr Ht. assert (is_Some (bo_FinishedAt o)) as [t Hf]; [|unfold open_run; by rewrite Hf]. apply (ro_ended _ Hr).
  pose proof (check_status _ (ro_check _ Hr)) as Hs. unfold run_statuses in Hs. rewrite !elem_of_cons, elem_of_nil in Hs.
  revert Ht. by repeat destruct Hs as [->|Hs]; try decided.
Qed.

Lemma manual_ok id planID plan p parent root attempt now d :
  backup_ok d → lineage_of planID parent d plan root attempt → run_check (manual_run id plan p parent root attempt now) = true →
  run_ok (manual_run id plan p parent root attempt now) ∧ descends d (manual_run id plan p parent root attempt now).
Proof using Type.
  intros Hok Hl Hc. split.
  - split; try done; [by right| |].
    + cbn. split; [by intros []|decided].
    + cbn. intros ->. by destruct Hl as (_ & -> & ->).
  - intros q Hq. cbn in Hq. subst. destruct Hl as (x & Hx & Ht & -> & -> & ->). exists x. pose proof (bi_rows _ Hok _ _ Hx) as Hr.
    pose proof (check_attempt _ (ro_check _ Hr)). split_and!; [done|by apply terminal_ended|done| |done]. cbn.
    rewrite bool_decide_eq_false_2 by lia. done.
Qed.

Lemma manual_refines id planID parent key audit d :
  backup_ok d → wp (CreateManualOperation id planID parent key audit)
    (λ x _ c, reaches d c ∧ (∀ o, x = Ok o →
      (∃ t row, answered key t d = Some row ∧ bq_RequestHash row = rk_Body key ∧ bq_Response row = o ∧ c = d) ∨
      ∃ t, remembered_as key o t c ∧ runs c !! bo_ID o = Some o ∧ bo_Status o = "QUEUED")) d d.
Proof using Type.
  intros Hok. unfold CreateManualOperation. apply wp_bind, wp_lockRequest; [done| |].
  2:{ intros t row Hrow Hb. apply wp_bind, wp_commit; [done|done|]. apply wp_ret. split; [done|]. intros o [= <-]. left. by exists t, row. }
  apply wp_bind, wp_lineage; [done|]. intros plan root attempt Hl. apply wp_bind, wp_select; [done|]. intros _.
  destruct (fl_plans (cd_fleet d) !! plan) as [p|] eqn:Hp; [|by apply wp_fail]. destruct (is_some _); [by apply wp_fail|].
  destruct (pn_Status p != "ACTIVE"); [by apply wp_fail|]. apply wp_bind, wp_select; [done|]. intros now. cbv zeta.
  apply wp_bind, wp_exec_unique; [done|]. intros t w _ Hi. apply insert_run_inv in Hi as (Hn & Hc & ->).
  set (o := manual_run id plan p parent root attempt now) in *. destruct (manual_ok _ _ _ _ _ _ _ _ _ Hok Hl Hc) as [Hr Hd].
  apply wp_answer; [by apply rtc_once, bs_open|by rewrite runs_set, lookup_insert_eq|done|].
  intros u w' Hw Hm Hrun. split; (split; [done|]); [done|]. intros x [= <-]. right. exists u. split_and!; [done| |done].
  rewrite Hrun, runs_set. apply lookup_insert_eq.
Qed.

Lemma cancel_moves now o :
  run_ok o → open_run o = true → bo_Status o ≠ "CANCEL_REQUESTED" → run_check (cancel_run now o) = true →
  moves o (cancel_run now o) ∧ run_ok (cancel_run now o) ∧ counters (cancel_run now o) = counters o ∧
  bo_Summary (cancel_run now o) = bo_Summary o.
Proof using Type.
  intros Hr Ho Hn. pose proof (open_status _ Hr Ho) as Hs. assert (Hf : bo_FinishedAt o = None) by (unfold open_run in Ho; by destruct (bo_FinishedAt o)).
  pose proof (ro_summary _ Hr Ho) as Hsum. unfold cancel_run. destruct (_ && _) eqn:E; intros Hc.
  - split_and!; [split; try done| |done|done]; cbn.
    + apply stage_bound.
    + intros t Ht. rewrite (ro_uncanceled _ Hr) in Ht; [done|]. by destruct Hs as [->|[->|?]].
    + intros Hd. rewrite Hd. by intros [].
    + destruct Hr. split; try done. cbn. split; [intros _; decided|by intros _; eexists].
  - split_and!; [split; try done| |done|done]; cbn.
    + by destruct Hs as [->|[->|?]].
    + intros t Ht. rewrite (ro_uncanceled _ Hr) in Ht; [done|]. by destruct Hs as [->|[->|?]].
    + intros Hd. rewrite Hd. by intros [].
    + destruct Hr. split; try done. cbn. rewrite Hf. split; [by intros []|decided].
Qed.

Lemma cancel_keeps_id now o : bo_ID (cancel_run now o) = bo_ID o.
Proof using Type. unfold cancel_run. by destruct (_ && _). Qed.

Lemma cancel_refines id now key audit d :
  backup_ok d → wp (CancelBackupOperation id now key audit)
    (λ x _ c, reaches d c ∧ (∀ o, x = Ok o →
      (∃ t row, answered key t d = Some row ∧ bq_RequestHash row = rk_Body key ∧ bq_Response row = o ∧ c = d) ∨
      ∃ t, remembered_as key o t c ∧ runs c !! id = Some o ∧ bo_ID o = id ∧
        (bo_Status o = "CANCEL_REQUESTED" ∨ bo_Status o = "CANCELED" ∧ bo_DispatchedAt o = None))) d d.
Proof using Type.
  intros Hok. unfold CancelBackupOperation. apply wp_bind, wp_lockRequest; [done| |].
  2:{ intros t row Hrow Hb. apply wp_bind, wp_commit; [done|done|]. apply wp_ret. split; [done|]. intros o [= <-]. left. by exists t, row. }
  unfold scanBackupOperation. apply wp_bind, wp_bind, wp_select; [done|]. intros _.
  destruct (runs d !! id) as [o|] eqn:Ho; [|by apply wp_fail]. apply wp_ret. pose proof (bi_rows _ Hok _ _ Ho) as Hr. pose proof (bi_keyed _ Hok _ _ Ho) as Hid.
  destruct (bool_decide _) eqn:Ht; [by apply wp_fail|]. bool_prop.
  assert (Hopen : open_run o = true).
  { unfold open_run. destruct (bo_FinishedAt o) eqn:Hf; [|done]. exfalso. apply Ht, Hr. by rewrite Hf. }
  cbv zeta. destruct (bo_Status o == "CANCEL_REQUESTED") eqn:Hs; bool_prop.
  - apply wp_bind, wp_ret. apply wp_answer; [done|by rewrite Hid|done|]. intros t w' Hw Hm Hrun. split; (split; [done|]); [done|].
    intros x [= <-]. right. exists t. rewrite Hrun. by split_and!; [..|left].
  - apply wp_bind, wp_exec; [done|]. intros _ w. unfold store_cancel. rewrite cancel_keeps_id, Hid, Ho, Hopen. intros [Hc ->]%save_run_inv.
    destruct (cancel_moves now _ Hr Hopen Hs Hc) as (Hm & Hr' & Hcn & Hsm). rewrite cancel_keeps_id.
    apply wp_answer; [apply rtc_once, (bs_move d o); [by rewrite Hid|done|done|done|by left]|by rewrite cancel_keeps_id, runs_set, lookup_insert_eq|done|].
    intros t w' Hw Hrem Hrun. split; (split; [done|]); [done|]. intros x [= <-]. right. exists t. rewrite Hrun, runs_set, Hid, cancel_keeps_id, lookup_insert_eq.
    split_and!; [done|done|done|]. unfold cancel_run. destruct (_ && _) eqn:E; [right|by left]. bool_prop. split; [done|].
    cbn. unfold is_none in *. by destruct (bo_DispatchedAt o).
Qed.
End Users.

(** *** Dispatch *)

Lemma earliest_in (l : list BackupOperation) o : earliest_run l = Some o → o ∈ l.
Proof using Type.
  revert o. induction l as [|x l IH]; [done|]. intros o. unfold earliest_run. cbn. fold (earliest_run l).
  destruct (earliest_run l) as [b|]; [|intros [= <-]; by left]. destruct (_ <? _); intros [= <-]; [right; by apply IH|by left].
Qed.

Lemma run_values d o : o ∈ (map_to_list (runs d)).*2 ↔ ∃ id, runs d !! id = Some o.
Proof using Type.
  rewrite list_elem_of_fmap. split.
  - intros ([id x] & -> & Hx%elem_of_map_to_list). by exists id.
  - intros [id Hx]. exists (id, o). split; [done|by apply elem_of_map_to_list].
Qed.

Lemma dispatch_moves now o :
  run_ok o → open_run o = true → bo_Status o = "QUEUED" → run_check (with_dispatch now o) = true → moves o (with_dispatch now o) ∧ run_ok (with_dispatch now o).
Proof using Type. intros Hr Ho Hq Hc. split; [split; try done; by eexists|]. destruct Hr. by split. Qed.

Lemma claim_refines agent now retryAfter d :
  backup_ok d → wp (ClaimManualOperationDispatch agent now retryAfter)
    (λ x _ c, reaches d c ∧ (∀ o, x = Ok (Some o) → runs c !! bo_ID o = Some o ∧ bo_AgentID o = agent ∧ bo_Status o = "QUEUED" ∧
      bo_DispatchedAt o = Some now)) d d.
Proof using Type.
  intros Hok. unfold ClaimManualOperationDispatch. apply wp_bind, wp_stmt; [done|]. intros _ found w. unfold claim_run.
  destruct (earliest_run _) as [o|] eqn:Ho; [|by intros [= <- <-]; apply wp_bind, wp_commit; [done|done|apply wp_ret]].
  destruct (save_run _ _) as [w'|] eqn:Hs; [|done]. cbn. intros [= <- <-]. apply save_run_inv in Hs as [Hc ->].
  apply earliest_in, elem_of_filter_list in Ho as [Hin Hp]. apply run_values in Hin as [id Hid].
  pose proof (bi_rows _ Hok _ _ Hid) as Hr. rewrite <- (bi_keyed _ Hok _ _ Hid) in Hid. unfold dispatchable in Hp. bool_prop.
  assert (Hopen : open_run o = true).
  { unfold open_run. destruct (bo_FinishedAt o) eqn:Hf; [|done]. exfalso. assert (Hx : bo_Status o ∈ terminal_statuses) by (apply Hr; by rewrite Hf).
    revert Hx. match goal with H : bo_Status o = _ |- _ => rewrite H end. decided. }
  destruct (dispatch_moves now o) as [Hm Hr']; [done..|].
  assert (Hd : reaches d (set_runs (<[bo_ID (with_dispatch now o) := with_dispatch now o]> (runs d)) d)) by by apply rtc_once, (bs_move d o); [..|left].
  apply wp_bind, wp_commit; [done|done|]. apply wp_ret. split; [done|]. intros x [= <-]. split_and!; try done. rewrite runs_set. apply lookup_insert_eq.
Qed.

(** A step of one operation by its Agent. *)
Lemma update_refines agent id update d :
  backup_ok d →
  (∀ t o o', runs d !! id = Some o → update t o = Some o' → run_check o' = true →
     open_run o = true ∧ moves o o' ∧ run_ok o' ∧ counters o' = counters o ∧ bo_Summary o' = bo_Summary o) →
  wp (updateAgentOperation agent id update) (λ x _ c, reaches d c ∧ (x = Ok () → ∃ o, runs d !! id = Some o ∧ bo_AgentID o = agent)) d d.
Proof using Type.
  intros Hok Hup. unfold updateAgentOperation. apply wp_bind, wp_select; [done|]. intros _.
  destruct (runs d !! id) as [o|] eqn:Ho; cbn [fmap option_fmap option_map]; [|by apply wp_fail].
  destruct (bo_AgentID o != agent) eqn:Ha; [by apply wp_fail|]. bool_prop. apply wp_bind, wp_now. intros t. pose proof (bi_keyed _ Hok _ _ Ho) as Hid.
  apply wp_bind, wp_exec; [done|]. intros _ w Hw. assert (Hd : reaches d w).
  { rewrite Ho in Hw. destruct (update t o) as [o'|] eqn:Hu; [|by injection Hw as <-]. apply save_run_inv in Hw as [Hc ->].
    destruct (Hup t o o' eq_refl Hu Hc) as (Hopen & Hm & Hr & Hcn & Hs). rewrite (sr_id _ _ (mv_same _ _ Hm)).
    apply rtc_once, (bs_move d o); [by rewrite Hid|done..|by left]. }
  apply wp_commit; [done|by split|]. split; [done|]. intros _. by exists o.
Qed.

Lemma reject_refines agent id now d :
  backup_ok d → wp (RejectManualOperation agent id now) (λ x _ c, reaches d c ∧ (x = Ok () → ∃ o, runs d !! id = Some o ∧ bo_AgentID o = agent)) d d.
Proof using Type.
  intros Hok. apply update_refines; [done|]. intros t o o' Ho. unfold rejected_run. destruct (_ && _) eqn:E; [|done]. intros [= <-] Hc. bool_prop.
  pose proof (bi_rows _ Hok _ _ Ho) as Hr. edestruct (end_moves o "FAILED") as [Hm Hr']; [done|done|decided|done|exact Hc|]. by split_and!.
Qed.

Lemma accept_moves now o o' :
  run_ok o → accepted_run now o = Some o' → run_check o' = true →
  open_run o = true ∧ moves o o' ∧ run_ok o' ∧ counters o' = counters o ∧ bo_Summary o' = bo_Summary o.
Proof using Type.
  intros Hr. unfold accepted_run. destruct (_ && _) eqn:E; [|done]. intros [= <-] Hc. bool_prop. split; [done|].
  assert (Hs : bo_Status o = "QUEUED" ∨ bo_Status o = "CANCEL_REQUESTED") by set_solver.
  assert (Hf : bo_FinishedAt o = None) by (match goal with H : open_run o = true |- _ => unfold open_run in H; by destruct (bo_FinishedAt o) end).
  split_and!; [split; try done| |done|done]; cbn.
  - by destruct Hs as [-> | ->].
  - intros t Ht. by rewrite Ht.
  - intros Hd. rewrite Hd. by intros [].
  - destruct Hr. split; try done; cbn.
    + rewrite Hf. split; [by intros []|]. destruct Hs as [-> | ->]; decided.
    + destruct Hs as [Hs|Hs]; rewrite Hs; [done|]. intros _. by apply ro_cancel.
    + by destruct Hs as [-> | ->].
    + destruct Hs as [Hs|Hs]; rewrite Hs; [|done]. intros _. apply ro_uncanceled. by rewrite Hs.
Qed.

Lemma accept_refines agent id d :
  backup_ok d → wp (MarkOperationDispatched agent id) (λ x _ c, reaches d c ∧ (x = Ok () → ∃ o, runs d !! id = Some o ∧ bo_AgentID o = agent)) d d.
Proof using Type. intros Hok. apply update_refines; [done|]. intros t o o' Ho Hu Hc. eapply accept_moves; [by apply (bi_rows _ Hok id)|done|done]. Qed.

(** *** Reconciliation *)

(** An update of many rows is a sequence of updates of one row. *)
Lemma sweep_reaches (p : BackupOperation → bool) (f : BackupOperation → BackupOperation) d :
  backup_ok d →
  (∀ id o, runs d !! id = Some o → p o = true →
     open_run o = true ∧ moves o (f o) ∧ run_ok (f o) ∧ counters (f o) = counters o ∧ bo_Summary (f o) = bo_Summary o) →
  reaches d (set_runs ((λ o, if p o then f o else o) <$> runs d) d).
Proof using Type.
  intros Hok Hf. set (g := λ o, if p o then f o else o).
  set (part := λ X : gset uuid, map_imap (λ id o, Some (if decide (id ∈ X) then g o else o)) (runs d)).
  assert (Hpart : ∀ X id, part X !! id = (λ o, if decide (id ∈ X) then g o else o) <$> runs d !! id).
  { intros X id. unfold part. rewrite map_lookup_imap. by destruct (runs d !! id). }
  assert (Hall : ∀ X, reaches d (set_runs (part X) d)).
  { intros X. induction X as [|id X Hn IH] using set_ind_L.
    - replace (part ∅) with (runs d); [by rewrite set_runs_id|]. apply map_eq. intros id. rewrite Hpart. by destruct (runs d !! id).
    - destruct (runs d !! id) as [o|] eqn:Ho.
      + assert (Hid := bi_keyed _ Hok _ _ Ho). destruct (p o) eqn:Hp.
        * destruct (Hf _ _ Ho Hp) as (Hopen & Hm & Hr & Hc & Hs).
          replace (set_runs (part ({[id]} ∪ X)) d) with (set_runs (<[bo_ID o := f o]> (runs (set_runs (part X) d))) (set_runs (part X) d)).
          -- eapply one_step; [done|]. apply (bs_move _ o); [|done..|by left]. rewrite runs_set, Hpart, Hid, Ho. cbn. by rewrite decide_False.
          -- rewrite runs_set, set_runs_twice. f_equal. apply map_eq. intros j. rewrite Hid. destruct (decide (j = id)) as [->|Hne].
             ++ rewrite lookup_insert_eq, Hpart, Ho. cbn. rewrite decide_True by set_solver. unfold g. by rewrite Hp.
             ++ rewrite lookup_insert_ne, !Hpart by done. destruct (runs d !! j); [|done]. cbn. f_equal.
                destruct (decide (j ∈ X)); [by rewrite decide_True by set_solver|by rewrite decide_False by set_solver].
        * replace (part ({[id]} ∪ X)) with (part X); [done|]. apply map_eq. intros j. rewrite !Hpart. destruct (decide (j = id)) as [->|Hne].
          -- rewrite Ho. cbn. rewrite decide_False, decide_True by set_solver. unfold g. by rewrite Hp.
          -- destruct (runs d !! j); [|done]. cbn. f_equal.
             destruct (decide (j ∈ X)); [by rewrite decide_True by set_solver|by rewrite decide_False by set_solver].
      + replace (part ({[id]} ∪ X)) with (part X); [done|]. apply map_eq. intros j. rewrite !Hpart. destruct (runs d !! j) eqn:Hj; [|done].
        assert (j ≠ id) by congruence. cbn. f_equal. destruct (decide (j ∈ X)); [by rewrite decide_True by set_solver|by rewrite decide_False by set_solver]. }
  replace (g <$> runs d) with (part (dom (runs d))); [apply Hall|]. apply map_eq. intros id. rewrite Hpart, lookup_fmap.
  destruct (runs d !! id) as [o|] eqn:Ho; [|done]. cbn. rewrite decide_True; [done|]. apply elem_of_dom. by exists o.
Qed.

Lemma closing_reaches status error now p d n w :
  backup_ok d → status ∈ terminal_statuses → (∀ id o, runs d !! id = Some o → p d o = true → open_run o = true) →
  update_runs p (closed_run status error now) d = Some (n, w) →
  reaches d w ∧ ∀ id o, runs w !! id = Some o → runs d !! id = Some o ∧ p d o = false ∨ open_run o = false.
Proof using Type.
  intros Hok Hst Hp. unfold update_runs. destruct (forallb _ _) eqn:Hc; [|done]. intros [= <- <-]. split.
  - apply sweep_reaches; [done|]. intros id o Ho Hpo. pose proof (Hp _ _ Ho Hpo) as Hopen. split; [done|]. rewrite forallb_forall in Hc.
    assert (Hck : run_check (closed_run status error now o) = true).
    { apply Hc, list_elem_of_In, elem_of_filter_list. split; [|done]. apply run_values. by exists id. }
    edestruct (end_moves o status) as [Hm Hr']; [by apply (bi_rows _ Hok id)|done|done|done|exact Hck|]. by split_and!.
  - intros id o. rewrite runs_set, lookup_fmap. destruct (runs d !! id) as [x|] eqn:Hx; [|done]. cbn. intros [= <-].
    destruct (p d x) eqn:E; [by right|]. by left.
Qed.

(** A row that passes the checks passes them when it is closed. *)
Lemma closing_total status error now p d :
  backup_ok d → status ∈ terminal_statuses → is_Some (update_runs p (closed_run status error now) d).
Proof using Type.
  intros Hok Hst. unfold update_runs. replace (forallb _ _) with true; [by eexists|]. symmetry. apply forallb_forall.
  intros o [[id Hid]%run_values _]%list_elem_of_In%elem_of_filter_list. pose proof (ro_check _ (bi_rows _ Hok _ _ Hid)) as Hc.
  assert (Hs : bool_decide (status ∈ run_statuses) = true) by (apply bool_decide_eq_true; unfold run_statuses, terminal_statuses in *; set_solver).
  unfold run_check in *. cbn. rewrite Hs. by apply andb_true_iff in Hc as [Hc ->]; repeat (apply andb_true_iff in Hc as [Hc ->]).
Qed.

Lemma statement_refines (f : CentralDb → option (Z * CentralDb)) (Q : CentralDb → Prop) d :
  (∀ n w, f d = Some (n, w) → reaches d w ∧ Q w) →
  wp (statement f) (λ x _ c, reaches d c ∧ (∀ n, x = Ok n → Q c)) d d.
Proof using Type.
  intros Hf. unfold statement. apply wp_bind, wp_stmt; [done|]. intros _ n w Hw. destruct (Hf _ _ Hw) as [Hd Hq].
  apply wp_bind, wp_commit; [done|done|]. apply wp_ret. by split.
Qed.

Lemma close_refines cutoff now d :
  backup_ok d → wp (CloseUnstartedCancellations cutoff now)
    (λ x _ c, reaches d c ∧ (∀ n, x = Ok n → ∀ id o, runs c !! id = Some o → unstarted_cancel cutoff c o = false)) d d.
Proof using Type.
  intros Hok. apply statement_refines. intros n w Hw. apply closing_reaches in Hw as [Hd Hrest]; [|done|decided|].
  - split; [done|]. intros id o Ho. destruct (Hrest _ _ Ho) as [[_ Hn]|Hf]; [done|]. unfold unstarted_cancel. rewrite Hf. by rewrite !andb_false_r.
  - intros id o _ H. unfold unstarted_cancel in H. by bool_prop.
Qed.

Lemma lost_refines cutoff now d :
  backup_ok d → wp (ReconcileLostOperations cutoff now)
    (λ x _ c, reaches d c ∧ (∀ n, x = Ok n → cd_fleet c = cd_fleet (set_runs (runs c) d) ∧
      ∀ id o, runs c !! id = Some o → of_earlier_boot cutoff c o = false)) d d.
Proof using Type.
  intros Hok. apply statement_refines. intros n w Hw. assert (Hfl : cd_fleet w = cd_fleet (set_runs (runs w) d)).
  { unfold update_runs in Hw. destruct (forallb _ _); [|done]. by injection Hw as _ <-. }
  apply closing_reaches in Hw as [Hd Hrest]; [|done|decided|].
  - split; [done|]. split; [done|]. intros id o Ho. destruct (Hrest _ _ Ho) as [[_ Hn]|Hf].
    + unfold of_earlier_boot in *. by rewrite Hfl.
    + unfold of_earlier_boot. destruct (fl_agents _ !! _) as [a|]; [|done]. by rewrite Hf, andb_false_r.
  - intros id o _ H. unfold of_earlier_boot in H. destruct (fl_agents _ !! _); [|done]. by bool_prop.
Qed.

Lemma overdue_refines now d : wp (ReconcilePlanHealth now) (λ _ _ c, reaches d c) d d.
Proof using Type.
  eapply wp_mono; [|apply (statement_refines (mark_overdue now) (λ _, True) d)]; [by intros x w c []|].
  unfold mark_overdue. intros n w [= <- <-]. split; [|done]. apply rtc_once, bs_beside. split; [done| |]; cbn.
  - intros id p Hp. rewrite lookup_fmap, Hp. eexists. split; [done|]. by destruct (overdue_plan now p).
  - intros id p' Hp' Hp. by rewrite lookup_fmap, Hp in Hp'.
Qed.

(** *** Logs *)

Lemma consecutive_seq e l : consecutive (e :: l) = true → le_Sequence <$> e :: l = seqZ (le_Sequence e) (Z.of_nat (length (e :: l))).
Proof using Type.
  revert e. induction l as [|x l IH]; intros e; [by intros _; rewrite seqZ_cons by done|]. cbn [consecutive]. intros H. bool_prop.
  rewrite fmap_cons, IH by done. rewrite (seqZ_cons (le_Sequence e)) by (cbn; lia). f_equal. f_equal; cbn [length]; lia.
Qed.

Lemma consecutive_after e l : consecutive (e :: l) = true → ∀ x, x ∈ l → le_Sequence e < le_Sequence x.
Proof using Type.
  revert e. induction l as [|y l IH]; intros e Hc x Hx; [by apply not_elem_of_nil in Hx|]. cbn [consecutive] in Hc. bool_prop.
  apply elem_of_cons in Hx as [->|Hx]; [lia|]. specialize (IH y ltac:(done) x Hx). lia.
Qed.

(** The loop appends the entries that are not acknowledged yet. *)
Lemma append_loop id entries ack used w c :
  Forall (λ e, ValidateLogEntry e = true) entries → consecutive entries = true →
  match entries with e :: _ => le_Sequence e ≤ ack + 1 | [] => True end → used ≤ Desired.DefaultLogLimitBytes →
  wp (append_entries id entries ack used)
    (λ x w' c', c' = c ∧ ∀ ack' used', x = Ok (ack', used') → ∃ fresh,
      le_Sequence <$> fresh = seqZ (ack + 1) (Z.of_nat (length fresh)) ∧ Forall (λ e, ValidateLogEntry e = true) fresh ∧
      ack' = ack + Z.of_nat (length fresh) ∧ used' = used + entries_size fresh ∧ used' ≤ Desired.DefaultLogLimitBytes ∧
      w' = set_log_rows (put_logs id fresh (log_rows w)) w ∧ Forall (λ e, le_Sequence e ≤ ack') entries ∧
      ∀ x, x ∈ entries → ack < le_Sequence x → x ∈ fresh) w c.
Proof using Type.
  revert ack used w. induction entries as [|e l IH]; intros ack used w Hv Hc Hf Hu; cbn [append_entries].
  { apply wp_ret. split; [done|]. intros ? ? [= <- <-]. exists []. split_and!; try done; cbn; [lia|lia|]. by destruct w as [[? ? ? ? ? ? ? ? ? ? ? ? []] ? ? ? ? ? ? ? ? ? ?]. }
  apply Forall_cons in Hv as [He Hl].
  assert (Hcl : consecutive l = true ∧ match l with x :: _ => le_Sequence x = le_Sequence e + 1 | [] => True end).
  { destruct l as [|x l]; [done|]. cbn [consecutive] in Hc. by bool_prop. }
  destruct Hcl as [Hcl Hx]. destruct (le_Sequence e <=? ack) eqn:Ha; bool_prop.
  - eapply wp_mono; [|apply (IH ack used w); [done|done|destruct l; [done|lia]|done]]. intros r w' c' [-> Hr]. split; [done|]. intros ack' used' Hok.
    destruct (Hr _ _ Hok) as (fresh & H1 & H2 & H3 & H4 & H5 & H6 & H7 & H8). exists fresh. split_and!; try done; [by constructor; [lia|]|].
    intros x [->|Hxl]%elem_of_cons; [lia|by apply H8].
  - destruct (marshal_entry e) as [raw|] eqn:Hm; [|by apply wp_fail]. destruct (_ <? _) eqn:Hlim; [by apply wp_fail|]. bool_prop.
    apply wp_bind, wp_exec; [done|]. intros _ w1. unfold insert_log. destruct (_ || _); [done|]. intros [= <-].
    eapply wp_mono; [|apply (IH (le_Sequence e) (used + slen raw)); [done|done|destruct l; [done|lia]|done]]. intros r w' c' [-> Hr].
    split; [done|]. intros ack' used' Hok. destruct (Hr _ _ Hok) as (fresh & H1 & H2 & H3 & H4 & H5 & H6 & H7 & H8). exists (e :: fresh).
    assert (Hs : entry_size e = slen raw) by (unfold entry_size; by rewrite Hm). split_and!.
    + rewrite fmap_cons, H1, (seqZ_cons (ack + 1)) by (cbn; lia). f_equal; [lia|]. f_equal; cbn [length]; lia.
    + by constructor.
    + cbn [length]. lia.
    + cbn. rewrite Hs. fold (entries_size fresh). lia.
    + done.
    + rewrite H6. done.
    + constructor; [lia|done].
    + intros x [->|Hxl]%elem_of_cons _; [by left|]. right. apply H8; [done|]. by apply (consecutive_after e l).
Qed.

Lemma logs_refine agent id entries d :
  backup_ok d → wp (AppendOperationLogs agent id entries)
    (λ x _ c, reaches d c ∧ (∀ ack, x = Ok ack →
      (∃ o, runs d !! id = Some o ∧ bo_AgentID o = agent) ∧ (∃ h, log_heads c !! id = Some h ∧ lh_AckSequence h = ack) ∧
      Forall (λ e, le_Sequence e ≤ ack) entries ∧
      ∀ x, x ∈ entries → lh_AckSequence (default (mkLogHead 0 0) (log_heads d !! id)) < le_Sequence x → log_rows c !! (id, le_Sequence x) = Some x)) d d.
Proof using Type.
  intros Hok. unfold AppendOperationLogs. destruct (valid_chunk entries) eqn:Hv; cbn [negb]; [|by apply wp_fail].
  apply wp_bind, wp_select; [done|]. intros _. destruct (runs d !! id) as [o|] eqn:Ho; cbn [fmap option_fmap option_map]; [|by apply wp_fail].
  destruct (bo_AgentID o != agent) eqn:Ha; [by apply wp_fail|]. bool_prop. unfold valid_chunk in Hv. bool_prop.
  match goal with H : forallb _ _ = true |- _ => rename H into Hall end. match goal with H : consecutive _ = true |- _ => rename H into Hcons end.
  assert (Hfv : Forall (λ e, ValidateLogEntry e = true) entries) by (apply Forall_forall; intros e He; rewrite forallb_forall in Hall; by apply Hall, list_elem_of_In).
  apply wp_bind, wp_exec; [done|]. intros _ w1 Hi. set (h := default (mkLogHead 0 0) (log_heads d !! id)).
  assert (H1 : log_heads w1 !! id = Some h ∧ log_rows w1 = log_rows d ∧
    ∀ x rows, set_log_heads (<[id := x]> (log_heads w1)) (set_log_rows rows w1) = set_log_heads (<[id := x]> (log_heads d)) (set_log_rows rows d)).
  { unfold insert_head in Hi. unfold h. destruct (log_heads d !! id) as [h0|] eqn:Hh; [by injection Hi as <-|].
    destruct (known_run d id); [|done]. injection Hi as <-. split_and!; [unfold log_heads; cbn; by rewrite lookup_insert_eq|done|].
    intros x rows. unfold log_heads at 1. cbn. rewrite insert_insert_eq. done. }
  destruct H1 as (Hh1 & Hr1 & Hset). apply wp_bind, wp_select_row; [done|]. intros _ h' Hh'. assert (h' = h) as -> by congruence.
  destruct (_ <? _) eqn:Hgap; [by apply wp_fail|]. bool_prop. destruct (logged_default _ _ (bi_logs _ Hok id)) as (Hack & l & Hl). fold h in Hack, Hl.
  apply wp_bind. eapply wp_mono; [|apply (append_loop id entries (lh_AckSequence h) (lh_BytesReceived h)); [done|done|by destruct entries|apply Hl]].
  intros [[ack used]|x] w2 c [-> Hr]; [|done]. destruct (Hr _ _ eq_refl) as (fresh & Hs & Hf & -> & -> & Hlim & -> & Hle & Hsent).
  apply wp_bind, wp_exec; [done|]. intros _ w3. unfold update_head. change (log_heads (set_log_rows _ w1)) with (log_heads w1). rewrite Hh1.
  destruct (_ || _); [done|]. intros [= <-]. rewrite Hset, Hr1. assert (Hstep := bs_log d id h fresh ltac:(by exists o) eq_refl Hs Hf Hlim).
  apply wp_bind, wp_commit; [done|by split; [apply rtc_once|]|]. apply wp_ret. split; [by apply rtc_once|]. intros ack [= <-].
  split_and!; [by exists o| |done|].
  - eexists. unfold log_heads at 1. cbn. rewrite lookup_insert_eq. by split.
  - intros x Hx Hn. unfold log_rows at 1. cbn. apply put_logs_lookup; [rewrite Hs; apply NoDup_seqZ|by apply Hsent|done|done].
Qed.
End Refine.
