(* ===== verification/BackupPlane.v ===== *)
(** * BackupPlane: the control plane's calls on backup operations

    internal/server/operations.go: what the reports of Agents and the requests of
    users do, and the reconciliation of operations whose end is not reported. *)

From S2P Require Import Prelude GoStd Uuid Platform JsonString Domain Plan DomainLogs GatewaySession GatewayAuth AuditChain PendingRecord.
From S2P Require Import CentralTx CentralStore RcloneConfig StorageSecret CentralPlane StorageVault CentralJobs AgentLogs BackupStore.
From S2P Require Import SnapshotService.
Open Scope Z_scope.
Open Scope go_scope.
Open Scope central_scope.

Definition dispatchRetryAfter : duration := 15 * second.
Definition cancelClosureGrace : duration := 2 * minute.
Definition lostReconciliationGrace : duration := 2 * minute.

(** ** Calls of Agents (operations.go) *)

Section Reports.
Context `{U : UuidPkg} `{LC : LogCodec}.

(** A call that runs one transaction. *)
Definition stored {A} (m : Tx A) (e : TxEnv) (d : CentralDb) : result storage_error A * CentralDb :=
  let '(r, d) := run_tx m e d in (stored_result r, d).

Definition RecordOperationLogs (agentID id : uuid) (entries : list BackupLogEntry) (e : TxEnv) (d : CentralDb) :
    result storage_error Z * CentralDb :=
  if negb (Operation.ValidOperationID id) || (Version agentID != 7) || negb (valid_chunk entries)
  then (Err (ErrValidation "logs" "INVALID_OPERATION_LOGS"), d)
  else stored (AppendOperationLogs agentID id entries) e d.

(** Two reads; the second sees the database [later]. *)
Definition OperationLogs (id : uuid) (after limit : Z) (e1 e2 : TxEnv) (d later : CentralDb) : result storage_error (list BackupLogEntry) :=
  if (2 ^ 62 <? after) || (limit <? 1) || (200 <? limit) then Err (ErrValidation "logs" "INVALID_LOG_CURSOR")
  else match (run_tx (db_BackupOperation id) e1 d).1 with
       | Err x => Err (ErrStore x)
       | Ok _ => stored_result (run_tx (db_OperationLogs id after limit) e2 later).1
       end.

Definition known_identity (operation plan agent : uuid) : bool := Operation.ValidOperationID operation && valid_v7 plan && valid_v7 agent.

Definition valid_progress (p : BackupOperationProgress) : bool :=
  negb ((bp_PlanRevision p <? 1) || (bp_Sequence p =? 0) || (max_int64 <? bp_Sequence p) || (bp_Stage p != "backup") ||
        IsZero (bp_ScheduledAt p) || IsZero (bp_ObservedAt p) || (bp_FilesDone p <? 0) || (bp_TotalFiles p <? 0) ||
        (bp_BytesDone p <? 0) || (bp_TotalBytes p <? 0)).

Definition RecordOperationProgress (p : BackupOperationProgress) (e : TxEnv) (d : CentralDb) : result storage_error () * CentralDb :=
  if negb (known_identity (bp_OperationID p) (bp_PlanID p) (bp_AgentID p)) then (Err (ErrStore ErrNotFound), d)
  else if negb (valid_progress p) then (Err (ErrValidation "progress" "INVALID_OPERATION_PROGRESS"), d)
  else stored (UpsertOperationProgress p) e d.

Definition valid_result (r : BackupOperationResult) : bool :=
  negb ((bres_PlanRevision r <? 1) || IsZero (bres_ScheduledAt r) || IsZero (bres_FinishedAt r) || (bres_FilesNew r <? 0) ||
        (bres_DataAdded r <? 0) || (bres_ExitCode r <? -1) || (255 <? bres_ExitCode r) || negb (ValidBackupErrorCode (bres_ErrorCode r))).

(** On hexadecimal digits [strings.ToLower] changes A to F only. *)
Definition upper_case (ch : ascii) : bool := let b := byte_of ch in ((65 <=? b) && (b <=? 90))%N.
Definition valid_snapshot (id : string) : bool :=
  is_some (hex_decode id) && (slen id == 64) && string_forallb (λ ch, negb (upper_case ch)) id.

Definition valid_summary (r : BackupOperationResult) : bool :=
  match bres_Summary r with
  | Some s => ValidateSummary s && (bs_FilesNew s == bres_FilesNew r) && (bs_DataAdded s == bres_DataAdded r)
  | None => true
  end.

Definition result_statuses : list string :=
  ["SUCCEEDED"; "SUCCEEDED_WITH_WARNINGS"; "FAILED"; "CANCELED"; "LOST"; "MISSED"; "CONCURRENCY_SKIPPED"].

Definition RecordOperationResult (r : BackupOperationResult) (e : TxEnv) (d : CentralDb) : result storage_error () * CentralDb :=
  if negb (known_identity (bres_OperationID r) (bres_PlanID r) (bres_AgentID r)) then (Err (ErrStore ErrNotFound), d)
  else if negb (valid_result r) then (Err (ErrValidation "result" "INVALID_OPERATION_RESULT"), d)
  else if (bres_SnapshotID r != "") && negb (valid_snapshot (bres_SnapshotID r)) then (Err (ErrValidation "snapshot_id" "INVALID_SNAPSHOT_ID"), d)
  else if negb (valid_summary r) then (Err (ErrValidation "summary" "INVALID_BACKUP_SUMMARY"), d)
  else if negb (bool_decide (bres_Status r ∈ result_statuses)) then (Err (ErrValidation "status" "INVALID_OPERATION_STATUS"), d)
  else stored (UpsertOperationResult r) e d.

Definition ClaimQueuedJob (agentID : uuid) (now : time) (e : TxEnv) (d : CentralDb) : result dberr (option BackupOperation) * CentralDb :=
  run_tx (ClaimManualOperationDispatch agentID now dispatchRetryAfter) e d.

Definition MarkJobDispatched (agentID id : uuid) (e : TxEnv) (d : CentralDb) : result dberr () * CentralDb :=
  run_tx (MarkOperationDispatched agentID id) e d.

Definition cpRejectManualOperation (agentID id : uuid) (now : time) (e : TxEnv) (d : CentralDb) : result dberr () * CentralDb :=
  run_tx (RejectManualOperation agentID id now) e d.

Definition PendingCancellations (agentID : uuid) (e : TxEnv) (d : CentralDb) : result dberr (list BackupOperation) :=
  (run_tx (PendingCancelOperations agentID) e d).1.

(** *** Reconciliation *)

(** The transactions of one round. *)
Record RoundEnv := mkRoundEnv { rc_now : time; rc_close : TxEnv; rc_lost : TxEnv; rc_health : TxEnv; rc_pages : TxEnv }.

Definition ReconcileOperations (e : RoundEnv) (d : CentralDb) : result dberr Z * CentralDb :=
  let now := rc_now e in
  match run_tx (CloseUnstartedCancellations (now - cancelClosureGrace) now) (rc_close e) d with
  | (Err x, d) => (Err x, d)
  | (Ok closed, d) =>
      match run_tx (ReconcileLostOperations (now - lostReconciliationGrace) now) (rc_lost e) d with
      | (Err x, d) => (Err x, d)
      | (Ok lost, d) =>
          match run_tx (ReconcilePlanHealth now) (rc_health e) d with
          | (Err x, d) => (Err x, d)
          | (Ok overdue, d) =>
              match run_tx (DeleteExpiredSnapshotListResults now) (rc_pages e) d with
              | (Err x, d) => (Err x, d)
              | (Ok expired, d) => (Ok (closed + lost + overdue + expired), d)
              end
          end
      end
  end.
End Reports.

(** ** Calls of users (operations.go) *)

Section Users.
Context `{U : UuidPkg} `{P : Platform} `{C : AuditCodec}.

Definition refuse_role {A} (action resource : string) (meta : RequestMeta) (e : CallEnv) (d : CentralDb) : result storage_error A * CentralDb :=
  let '(r, d) := run_tx (RecordDenied (ce_clock e) action resource "ROLE_DENIED" meta) (ce_denied e) d in
  (match r with Ok _ => Err ErrForbidden | Err x => Err (ErrStore x) end, d).

Definition backupRequestKey (actor : uuid) (route key body : string) : BackupRequestKey :=
  mkRequestKey (Sum256 (UString actor +:+ newline +:+ "POST" +:+ newline +:+ route)) (Sum256 key) (Sum256 body).

Definition manual_source : string := "{" +:+ quote +:+ "source" +:+ quote +:+ ":" +:+ quote +:+ "MANUAL" +:+ quote +:+ "}".

Definition backup_route (target : uuid) (retry : bool) : string :=
  if retry then "/api/v1/backup-operations/" +:+ UString target +:+ "/retry" else "/api/v1/plans/" +:+ UString target +:+ "/backup".

Definition queueManualBackup (target : uuid) (key : string) (retry : bool) (actor : User) (meta : RequestMeta) (e : CallEnv)
    (d : CentralDb) : result storage_error BackupOperation * CentralDb :=
  let '(action, resource) := if retry then ("BACKUP_OPERATION_RETRY", "BACKUP_OPERATION") else ("PLAN_BACKUP_TRIGGER", "PLAN") in
  if us_Role actor != RoleAdmin then refuse_role action resource meta e d
  else match validateOperationKey key with
  | Some x => (Err x, d)
  | None =>
      match ce_id e with
      | None => (Err ErrIdentity, d)
      | Some id =>
          let '(planID, parent) := if retry then (uuid_Nil, Some target) else (target, None) in
          stored
            (let* audit := userAudit (ce_clock e) action resource target (us_ID actor) meta "QUEUED" manual_source in
             CreateManualOperation id planID parent (backupRequestKey (us_ID actor) (backup_route target retry) key "") audit) (ce_save e) d
      end
  end.

Definition QueueBackupNow (planID : uuid) (key : string) := queueManualBackup planID key false.
Definition RetryBackupOperation (id : uuid) (key : string) := queueManualBackup id key true.

Definition cancel_route (id : uuid) : string := "/api/v1/backup-operations/" +:+ UString id +:+ "/cancel".

Definition cpCancelBackupOperation (id : uuid) (reason key : string) (actor : User) (meta : RequestMeta) (e : CallEnv) (d : CentralDb) :
    result storage_error BackupOperation * CentralDb :=
  if us_Role actor != RoleAdmin then refuse_role "BACKUP_OPERATION_CANCEL" "BACKUP_OPERATION" meta e d
  else match validateOperationKey key with
  | Some x => (Err x, d)
  | None =>
      let reason := TrimSpace reason in
      if 512 <? slen reason then (Err (ErrValidation "reason" "INVALID_REASON"), d)
      else stored
        (let* audit := userAudit (ce_clock e) "BACKUP_OPERATION_CANCEL" "BACKUP_OPERATION" id (us_ID actor) meta "CANCEL_REQUESTED" "{}" in
         CancelBackupOperation id (ce_clock e) (backupRequestKey (us_ID actor) (cancel_route id) key reason) audit) (ce_save e) d
  end.
End Users.
