(* ===== verification/BackupStream.v ===== *)
(** * BackupStream: messages about backup operations (server/agentgrpc/connect.go)

    What the control stream of an Agent does with a report, how it answers, and
    the jobs and cancellations it sends after a heartbeat.  A timestamp is present
    when the message has it and it is valid.  encoding/json's strict decoder is
    the class [ReportCodec].  A message that cannot be sent ends the stream and
    changes nothing else. *)

From S2P Require Import Prelude GoStd Uuid Platform Domain Plan DomainLogs GatewaySession GatewayAuth AuditChain PendingRecord.
From S2P Require Import CentralTx CentralStore CentralPlane StorageVault AgentLogs BackupStore.
From S2P Require Import AgentDispatch BackupPlane.
Open Scope Z_scope.
Open Scope go_scope.
Open Scope central_scope.

Record JobProgressMessage := mkProgressMessage {
  jm_OperationId : string;
  jm_PlanId : string;
  jm_PlanRevision : Z;
  jm_ScheduledAt : option time;
  jm_Sequence : Z;
  jm_Stage : string;
  jm_FilesDone : Z;
  jm_TotalFiles : Z;
  jm_BytesDone : Z;
  jm_TotalBytes : Z;
  jm_ObservedAt : option time;
  jm_ParentOperationId : string;
  jm_RootOperationId : string;
  jm_Attempt : Z }.

Record JobResultMessage := mkResultMessage {
  jr_OperationId : string;
  jr_PlanId : string;
  jr_PlanRevision : Z;
  jr_ScheduledAt : option time;
  jr_Status : string;
  jr_ErrorCode : string;
  jr_ExitCode : Z;
  jr_SnapshotId : string;
  jr_FilesNew : Z;
  jr_DataAdded : Z;
  jr_FinishedAt : option time;
  jr_ParentOperationId : string;
  jr_RootOperationId : string;
  jr_Attempt : Z;
  jr_SummaryJson : string }.

Record JobLogChunk := mkLogChunk { jl_OperationId : string; jl_FirstSequence : Z; jl_LastSequence : Z; jl_EntriesJson : string }.

(** The strict decoder: one value, no unknown field, nothing after it; a summary
    that is [null] is none. *)
Class ReportCodec := {
  decode_entries : string → option (list BackupLogEntry);
  decode_summary : string → option BackupSummary }.

(** What becomes of the stream. *)
Inductive stream_outcome :=
| Continued
| SentResultAccepted (operationID : string)
| SentLogAccepted (operationID : uuid) (through : Z)
| InvalidArgument
| Unavailable.

(** The transactions of one message. *)
Record StreamEnv := mkStreamEnv { sm_clock : time; sm_report : TxEnv; sm_denied : TxEnv }.

Section Stream.
Context `{U : UuidPkg} `{P : Platform} `{C : AuditCodec} `{LC : LogCodec} `{RC : ReportCodec}.

(** [denied] (service.go) for a bad message. *)
Definition invalidMessage (meta : RequestMeta) (reason : string) (e : StreamEnv) (d : CentralDb) : stream_outcome * CentralDb :=
  let '(r, d) := run_tx (RecordDenied (sm_clock e) "AGENT_CONNECT" "AGENT" reason meta) (sm_denied e) d in
  (match r with Ok _ => InvalidArgument | Err _ => Unavailable end, d).

Definition reportedOperationLinks (parent root : string) (attempt : Z) : option (option uuid * option uuid) :=
  if (attempt <? 0) || (10000 <? attempt) then None
  else if (parent == "") && (root == "") then if 1 <? attempt then None else Some (None, None)
  else match Parse parent with
       | None => None
       | Some p =>
           if negb (Operation.ValidOperationID p) then None
           else match Parse root with
                | None => None
                | Some r => if negb (Operation.ValidOperationID r) || (attempt <? 2) then None else Some (Some p, Some r)
                end
       end.

(** Errors that end the stream as the Agent's fault. *)
Definition blames_agent (others : list dberr) (x : storage_error) : bool :=
  match x with
  | ErrValidation _ _ => true
  | ErrStore x => bool_decide (x ∈ others)
  | _ => false
  end.

Definition handleJobProgress (agentID : uuid) (m : JobProgressMessage) (meta : RequestMeta) (e : StreamEnv) (d : CentralDb) :
    stream_outcome * CentralDb :=
  let invalid := invalidMessage meta "JOB_PROGRESS_INVALID" e in
  match Parse (jm_OperationId m), Parse (jm_PlanId m), jm_ScheduledAt m, jm_ObservedAt m with
  | Some operationID, Some planID, Some scheduled, Some observed =>
      match reportedOperationLinks (jm_ParentOperationId m) (jm_RootOperationId m) (jm_Attempt m) with
      | None => invalid d
      | Some (parent, root) =>
          let '(r, d) := RecordOperationProgress
            (mkProgress operationID planID agentID (jm_PlanRevision m) scheduled (jm_Sequence m) (jm_Stage m) (jm_FilesDone m)
              (jm_TotalFiles m) (jm_BytesDone m) (jm_TotalBytes m) observed parent root (jm_Attempt m)) (sm_report e) d in
          match r with
          | Ok _ => (Continued, d)
          | Err x => if blames_agent [ErrPlanBindingInvalid; ErrNotFound] x then invalid d else (Unavailable, d)
          end
      end
  | _, _, _, _ => invalid d
  end.

Definition handleJobLogChunk (logsCapable : bool) (agentID : uuid) (m : JobLogChunk) (meta : RequestMeta) (e : StreamEnv) (d : CentralDb) :
    stream_outcome * CentralDb :=
  let invalid := invalidMessage meta "JOB_LOG_INVALID" e in
  match Parse (jl_OperationId m) with
  | None => invalid d
  | Some id =>
      if negb logsCapable || negb (Operation.ValidOperationID id) || (MaxBackupLogChunkBytes <? slen (jl_EntriesJson m)) then invalid d
      else match decode_entries (jl_EntriesJson m) with
      | None | Some [] => invalid d
      | Some ((first :: _) as entries) =>
          if (200 <? length entries)%nat || (le_Sequence first != jl_FirstSequence m) ||
             (le_Sequence (List.last entries first) != jl_LastSequence m)
          then invalid d
          else
            let '(r, d) := RecordOperationLogs agentID id entries (sm_report e) d in
            match r with
            | Ok ack => (SentLogAccepted id ack, d)
            | Err x => if blames_agent [ErrPlanBindingInvalid; ErrOperationTransition] x then invalid d else (Unavailable, d)
            end
      end
  end.

(** The summary of a result message; the outer [None] is a bad one. *)
Definition result_summary (raw : string) : option (option BackupSummary) :=
  if slen raw =? 0 then Some None
  else if 16384 <? slen raw then None
  else match decode_summary raw with
       | Some s => if ValidateSummary s then Some (Some s) else None
       | None => None
       end.

Definition handleJobResult (resultAckCapable : bool) (agentID : uuid) (m : JobResultMessage) (meta : RequestMeta) (e : StreamEnv)
    (d : CentralDb) : stream_outcome * CentralDb :=
  let invalid := invalidMessage meta "JOB_RESULT_INVALID" e in
  match Parse (jr_OperationId m), Parse (jr_PlanId m), jr_ScheduledAt m, jr_FinishedAt m with
  | Some operationID, Some planID, Some scheduled, Some finished =>
      if (jr_ExitCode m <? -1) || (255 <? jr_ExitCode m) then invalid d
      else match reportedOperationLinks (jr_ParentOperationId m) (jr_RootOperationId m) (jr_Attempt m) with
      | None => invalid d
      | Some (parent, root) =>
          match result_summary (jr_SummaryJson m) with
          | None => invalid d
          | Some summary =>
              let '(r, d) := RecordOperationResult
                (mkBackupResult operationID planID agentID (jr_PlanRevision m) scheduled (jr_Status m) (jr_ErrorCode m) (jr_ExitCode m)
                  (jr_SnapshotId m) (jr_FilesNew m) (jr_DataAdded m) finished parent root (jr_Attempt m) summary) (sm_report e) d in
              match r with
              | Ok _ => (if resultAckCapable then SentResultAccepted (jr_OperationId m) else Continued, d)
              | Err x => if blames_agent [ErrPlanBindingInvalid; ErrNotFound] x then invalid d else (Unavailable, d)
              end
          end
      end
  | _, _, _, _ => invalid d
  end.

(** An answer of the Agent about a job: an acceptance or a refusal. *)
Definition handleJobAnswer (reason operationId : string) (call : uuid → TxEnv → CentralDb → result dberr () * CentralDb)
    (meta : RequestMeta) (e : StreamEnv) (d : CentralDb) : stream_outcome * CentralDb :=
  match Parse operationId with
  | None => invalidMessage meta reason e d
  | Some id =>
      let '(r, d) := call id (sm_report e) d in
      match r with
      | Ok _ => (Continued, d)
      | Err x => if x == ErrPlanBindingInvalid then invalidMessage meta reason e d else (Unavailable, d)
      end
  end.
Definition handleJobAccepted (agentID : uuid) (operationId : string) :=
  handleJobAnswer "JOB_ACCEPTED_INVALID" operationId (MarkJobDispatched agentID).
Definition handleJobRejected (agentID : uuid) (operationId : string) (meta : RequestMeta) (e : StreamEnv) :=
  handleJobAnswer "JOB_REJECTED_INVALID" operationId (λ id, cpRejectManualOperation agentID id (sm_clock e)) meta e.

(** ** After a heartbeat *)

Definition optionalReportedOperationID (id : option uuid) : string := match id with Some id => UString id | None => "" end.

Definition job_dispatch (now : time) (o : BackupOperation) : JobDispatch :=
  mkJobDispatch (UString (bo_ID o)) (UString (bo_ID o)) (UString (bo_PlanID o)) (optionalReportedOperationID (bo_ParentOperationID o))
    (optionalReportedOperationID (bo_RootOperationID o)) (bo_Type o) (bo_PlanRevision o) (bo_ConfigHash o)
    (Some (bo_CreatedAt o + 24 * hour)) (Some (default now (bo_ScheduledAt o))) (bo_Attempt o).

(** The claim, and the second look at the database [meanwhile] made of it; the job
    that is sent. *)
Definition dispatchQueuedJob (agentID : uuid) (now : time) (claim read : TxEnv) (meanwhile : CentralDb → CentralDb) (d : CentralDb) :
    option JobDispatch * CentralDb :=
  let '(r, d) := ClaimQueuedJob agentID now claim d in
  match r with
  | Ok (Some o) =>
      match (run_tx (db_BackupOperation (bo_ID o)) read (meanwhile d)).1 with
      | Ok current => (if bo_Status current != "QUEUED" then None else Some (job_dispatch now o), d)
      | Err _ => (None, d)
      end
  | _ => (None, d)
  end.

Record JobCancel := mkJobCancel { jc_OperationId : string; jc_JobId : string; jc_Reason : string; jc_Deadline : time }.
Definition dispatchCancellations (agentID : uuid) (now : time) (e : TxEnv) (d : CentralDb) : option (list JobCancel) :=
  match PendingCancellations agentID e d with
  | Ok operations =>
      Some ((λ o, mkJobCancel (UString (bo_ID o)) (UString (bo_ID o)) (bo_CancelReason o) (now + minute)) <$> operations)
  | Err _ => None
  end.
End Stream.
