(* ===== verification/BackupHistory.v ===== *)
(** * BackupHistory: histories of backup operations

    Every sequence of Agents' messages, users' requests and rounds of the
    reconciler, as a run of one state machine over the database, and its
    refinement of the steps of BackupSpec. *)

From S2P Require Import Prelude GoStd Uuid Platform Domain Plan DomainLogs GatewaySession GatewayAuth AuditChain PendingRecord.
From S2P Require Import CentralTx CentralStore CentralTrace CentralRefine CentralFrame CentralPlane StorageVault VaultHistory CentralJobs AgentLogs.
From S2P Require Import RcloneConfig SnapshotService BackupStore BackupSpec BackupRefine BackupPlane BackupStream.
Open Scope Z_scope.
Open Scope go_scope.
Open Scope central_scope.

Section History.
Context `{U : UuidPkg} `{P : Platform} `{C : AuditCodec} `{LC : LogCodec} `{RC : ReportCodec}.

Notation reaches := (rtc backup_step).

(** ** Events *)

Inductive backup_event :=
| ProgressReported (agent : uuid) (m : JobProgressMessage) (meta : RequestMeta) (e : StreamEnv)
| LogsReported (capable : bool) (agent : uuid) (m : JobLogChunk) (meta : RequestMeta) (e : StreamEnv)
| ResultReported (capable : bool) (agent : uuid) (m : JobResultMessage) (meta : RequestMeta) (e : StreamEnv)
| AcceptanceReported (agent : uuid) (id : string) (meta : RequestMeta) (e : StreamEnv)
| RefusalReported (agent : uuid) (id : string) (meta : RequestMeta) (e : StreamEnv)
| JobClaimed (agent : uuid) (now : time) (e : TxEnv)
| RunQueued (target : uuid) (key : string) (retry : bool) (actor : User) (meta : RequestMeta) (e : CallEnv)
| RunCanceled (id : uuid) (reason key : string) (actor : User) (meta : RequestMeta) (e : CallEnv)
| CancelsClosed (now : time) (e : TxEnv)
| LostClosed (now : time) (e : TxEnv)
| OverdueMarked (now : time) (e : TxEnv)
| PagesDropped (now : time) (e : TxEnv)
| Elsewhere (d' : CentralDb).

Definition backup_apply (x : backup_event) (d : CentralDb) : CentralDb :=
  match x with
  | ProgressReported agent m meta e => (handleJobProgress agent m meta e d).2
  | LogsReported capable agent m meta e => (handleJobLogChunk capable agent m meta e d).2
  | ResultReported capable agent m meta e => (handleJobResult capable agent m meta e d).2
  | AcceptanceReported agent id meta e => (handleJobAccepted agent id meta e d).2
  | RefusalReported agent id meta e => (handleJobRejected agent id meta e d).2
  | JobClaimed agent now e => (ClaimQueuedJob agent now e d).2
  | RunQueued target key retry actor meta e => (queueManualBackup target key retry actor meta e d).2
  | RunCanceled id reason key actor meta e => (cpCancelBackupOperation id reason key actor meta e d).2
  | CancelsClosed now e => (run_tx (CloseUnstartedCancellations (now - cancelClosureGrace) now) e d).2
  | LostClosed now e => (run_tx (ReconcileLostOperations (now - lostReconciliationGrace) now) e d).2
  | OverdueMarked now e => (run_tx (ReconcilePlanHealth now) e d).2
  | PagesDropped now e => (run_tx (DeleteExpiredSnapshotListResults now) e d).2
  | Elsewhere d' => d'
  end.

Definition backup_run (xs : list backup_event) (d : CentralDb) : CentralDb := foldl (λ d x, backup_apply x d) d xs.

(** Other transactions leave the tables of backup operations and the results of
    plans alone. *)
Definition backup_allowed (x : backup_event) (d : CentralDb) : Prop :=
  match x with Elsewhere d' => beside d d' | _ => True end.

Fixpoint backup_permitted (xs : list backup_event) (d : CentralDb) : Prop :=
  match xs with [] => True | x :: xs => backup_allowed x d ∧ backup_permitted xs (backup_apply x d) end.

(** A database before the first backup. *)
Record no_runs (d : CentralDb) : Prop := {
  nr_backups : fl_backups (cd_fleet d) = no_backups;
  nr_plans : ∀ id p, fl_plans (cd_fleet d) !! id = Some p → pn_LastResultAt p = None }.

Lemma no_runs_ok d : no_runs d → backup_ok d.
Proof using Type.
  intros [Hb Hp]. assert (Hr : runs d = ∅) by (unfold runs; by rewrite Hb). assert (He : run_events d = ∅) by (unfold run_events; by rewrite Hb).
  assert (Hl : log_rows d = ∅) by (unfold log_rows; by rewrite Hb). assert (Hh : log_heads d = ∅) by (unfold log_heads; by rewrite Hb).
  assert (Hq : run_requests d = ∅) by (unfold run_requests; by rewrite Hb).
  split.
  1-4: intros id o; rewrite Hr; by intros ?%lookup_empty_Some.
  - intros id s. rewrite He. by intros [? ?%lookup_empty_Some].
  - intros key row. rewrite Hq. by intros ?%lookup_empty_Some.
  - intros id p Hpl. unfold vouches. by rewrite (Hp _ _ Hpl).
  - intros id. unfold logged. rewrite Hh, lookup_empty. intros s. by rewrite Hl.
Qed.

(** ** Calls *)

Lemma reaches_run {A} (m : Tx A) (Q : result dberr A → CentralDb → Prop) e d :
  wp m (λ r _ c, reaches d c ∧ Q r c) d d → reaches d (run_tx m e d).2 ∧ Q (run_tx m e d).1 (run_tx m e d).2.
Proof using Type. apply (wp_run m (λ r c, reaches d c ∧ Q r c)). Qed.

Lemma reaches_only {A} (m : Tx A) e d : wp m (λ _ _ c, reaches d c) d d → reaches d (run_tx m e d).2.
Proof using Type. apply (wp_run m (λ _ c, reaches d c)). Qed.

Lemma fleet_kept d d' : cd_fleet d' = cd_fleet d → reaches d d'.
Proof using Type. intros H. by apply rtc_once, same_fleet. Qed.

Lemma denied_fleet now action resource reason meta e d :
  cd_fleet (run_tx (RecordDenied now action resource reason meta) e d).2 = cd_fleet d.
Proof using Type. apply (within_run (kept cd_fleet)), within_denied; exact _. Qed.

Lemma stored_eq {A} (m : Tx A) e d : stored m e d = (stored_result (run_tx m e d).1, (run_tx m e d).2).
Proof using Type. unfold stored. by destruct (run_tx m e d). Qed.

Lemma refuse_fleet {A} action resource meta e d :
  cd_fleet (refuse_role (A := A) action resource meta e d).2 = cd_fleet d ∧ ∀ a, (refuse_role (A := A) action resource meta e d).1 ≠ Ok a.
Proof using Type.
  unfold refuse_role. pose proof (denied_fleet (ce_clock e) action resource "ROLE_DENIED" meta (ce_denied e) d) as H.
  destruct (run_tx _ _ d) as [[] d']; by split.
Qed.

Lemma invalid_fleet meta reason e d :
  cd_fleet (invalidMessage meta reason e d).2 = cd_fleet d ∧
  ((invalidMessage meta reason e d).1 = InvalidArgument ∨ (invalidMessage meta reason e d).1 = Unavailable).
Proof using Type.
  unfold invalidMessage. pose proof (denied_fleet (sm_clock e) "AGENT_CONNECT" "AGENT" reason meta (sm_denied e) d) as H.
  destruct (run_tx _ _ d) as [[] d']; cbn in *; auto.
Qed.

Lemma wp_userAudit now action resource id actor meta reason changes (Q : result dberr AuditEvent → CentralDb → CentralDb → Prop) w c :
  (∀ r, Q r w c) → wp (userAudit now action resource id actor meta reason changes) Q w c.
Proof using Type. intros HQ. unfold userAudit, auditEvent. wp_run; apply HQ. Qed.

(** A call prepared by an audit event. *)
Lemma wp_audited {A} now action resource id actor meta reason changes (m : AuditEvent → Tx A) (Q : result dberr A → CentralDb → Prop) d :
  (∀ x, Q (Err x) d) → (∀ event, wp (m event) (λ r _ c, reaches d c ∧ Q r c) d d) →
  wp (let* event := userAudit now action resource id actor meta reason changes in m event) (λ r _ c, reaches d c ∧ Q r c) d d.
Proof using Type. intros He Hm. apply wp_bind, wp_userAudit. intros [event|x]; [apply Hm|]. split; [apply rtc_refl|apply He]. Qed.

(** *** Reports of Agents *)

Lemma result_status_terminal status : status ∈ result_statuses → status ∈ terminal_statuses.
Proof using Type. unfold result_statuses, terminal_statuses. set_solver. Qed.

Lemma record_progress p e d : backup_ok d → reaches d (RecordOperationProgress p e d).2.
Proof using Type.
  intros Hok. unfold RecordOperationProgress. destruct (negb _); [apply rtc_refl|]. destruct (negb _); [apply rtc_refl|].
  rewrite stored_eq. by apply reaches_only, progress_refines.
Qed.

(** A result that is taken is one that passed the checks, and it is recorded. *)
Lemma record_result r e d : backup_ok d →
  reaches d (RecordOperationResult r e d).2 ∧
  ((RecordOperationResult r e d).1 = Ok () →
   known_identity (bres_OperationID r) (bres_PlanID r) (bres_AgentID r) = true ∧ valid_result r = true ∧ valid_summary r = true ∧
   bres_Status r ∈ result_statuses ∧ recorded r d (RecordOperationResult r e d).2).
Proof using Type.
  intros Hok. unfold RecordOperationResult. destruct (known_identity _ _ _) eqn:H1; cbn [negb]; [|split; [apply rtc_refl|done]].
  destruct (valid_result r) eqn:H2; cbn [negb]; [|split; [apply rtc_refl|done]]. destruct (_ && negb _) eqn:H3; [split; [apply rtc_refl|done]|].
  destruct (valid_summary r) eqn:H4; cbn [negb]; [|split; [apply rtc_refl|done]].
  destruct (bool_decide (_ ∈ _)) eqn:H5; cbn [negb]; [|split; [apply rtc_refl|done]]. apply bool_decide_eq_true in H5.
  rewrite stored_eq. destruct (reaches_run _ (λ x c, x = Ok () → recorded r d c) e d (result_refines r d Hok (result_status_terminal _ H5))) as [HR HQ].
  split; [done|]. cbn [fst snd]. destruct (run_tx _ e d) as [[[]|x] d']; [|done]. cbn in *. intros _. split_and!; auto.
Qed.

Lemma record_logs agent id entries e d : backup_ok d →
  reaches d (RecordOperationLogs agent id entries e d).2 ∧
  (∀ ack, (RecordOperationLogs agent id entries e d).1 = Ok ack →
     (∃ o, runs d !! id = Some o ∧ bo_AgentID o = agent) ∧
     (∃ h, log_heads (RecordOperationLogs agent id entries e d).2 !! id = Some h ∧ lh_AckSequence h = ack) ∧
     Forall (λ e, le_Sequence e ≤ ack) entries ∧
     ∀ x, x ∈ entries → lh_AckSequence (default (mkLogHead 0 0) (log_heads d !! id)) < le_Sequence x →
       log_rows (RecordOperationLogs agent id entries e d).2 !! (id, le_Sequence x) = Some x).
Proof using Type.
  intros Hok. unfold RecordOperationLogs. destruct (negb _ || _ || _); [split; [apply rtc_refl|done]|]. rewrite stored_eq.
  destruct (reaches_run _ _ e d (logs_refine agent id entries d Hok)) as [HR HQ]. split; [done|]. cbn [fst snd].
  destruct (run_tx _ e d) as [[a|x] d']; [|done]. cbn in *. intros ack [= <-]. by apply HQ.
Qed.

Lemma invalid_reaches d0 meta reason e d : reaches d0 d → reaches d0 (invalidMessage meta reason e d).2.
Proof using Type. intros H. etrans; [exact H|]. apply fleet_kept, invalid_fleet. Qed.

Lemma invalid_refuses meta reason e d x : (invalidMessage meta reason e d).1 = x → x = InvalidArgument ∨ x = Unavailable.
Proof using Type. intros <-. apply invalid_fleet. Qed.

Ltac refused := first [by apply invalid_reaches | apply rtc_refl].

Lemma progress_reaches agent m meta e d : backup_ok d → reaches d (handleJobProgress agent m meta e d).2.
Proof using Type.
  intros Hok. unfold handleJobProgress. cbv zeta. destruct (Parse _) as [id|]; [|by apply invalid_reaches].
  destruct (Parse _) as [plan|]; [|by apply invalid_reaches]. destruct (jm_ScheduledAt m) as [s|]; [|by apply invalid_reaches].
  destruct (jm_ObservedAt m) as [o|]; [|by apply invalid_reaches].
  destruct (reportedOperationLinks _ _ _) as [[parent root]|]; [|by apply invalid_reaches].
  match goal with |- context [RecordOperationProgress ?p ?e d] => pose proof (record_progress p e d Hok) as H end.
  destruct (RecordOperationProgress _ _ d) as [[a|x] d']; [done|]. destruct (blames_agent _ _); [by apply invalid_reaches|done].
Qed.

(** What the answer to a result stands for. *)
Definition acknowledges (agent : uuid) (m : JobResultMessage) (r : BackupOperationResult) : Prop :=
  Parse (jr_OperationId m) = Some (bres_OperationID r) ∧ Parse (jr_PlanId m) = Some (bres_PlanID r) ∧ bres_AgentID r = agent ∧
  bres_PlanRevision r = jr_PlanRevision m ∧ bres_Status r = jr_Status m ∧ bres_ErrorCode r = jr_ErrorCode m ∧
  bres_ExitCode r = jr_ExitCode m ∧ bres_SnapshotID r = jr_SnapshotId m ∧ jr_FinishedAt m = Some (bres_FinishedAt r) ∧
  result_summary (jr_SummaryJson m) = Some (bres_Summary r).

Lemma result_reaches capable agent m meta e d : backup_ok d →
  reaches d (handleJobResult capable agent m meta e d).2 ∧
  ((handleJobResult capable agent m meta e d).1 = Continued ∨
   (∃ raw, (handleJobResult capable agent m meta e d).1 = SentResultAccepted raw) →
   ∃ r, acknowledges agent m r ∧ recorded r d (handleJobResult capable agent m meta e d).2).
Proof using Type.
  intros Hok. assert (Hinv : reaches d (invalidMessage meta "JOB_RESULT_INVALID" e d).2) by by apply invalid_reaches.
  assert (Hno : ∀ d, (invalidMessage meta "JOB_RESULT_INVALID" e d).1 = Continued ∨
    (∃ raw, (invalidMessage meta "JOB_RESULT_INVALID" e d).1 = SentResultAccepted raw) → False).
  { intros d1 Hx. destruct (invalid_refuses meta "JOB_RESULT_INVALID" e d1 _ eq_refl) as [Hy|Hy]; rewrite Hy in Hx; by destruct Hx as [|[? ?]]. }
  unfold handleJobResult. cbv zeta.
  destruct (Parse (jr_OperationId m)) as [id|] eqn:Hid; [|by split; [|intros []%Hno]].
  destruct (Parse (jr_PlanId m)) as [plan|] eqn:Hplan; [|by split; [|intros []%Hno]].
  destruct (jr_ScheduledAt m) as [s|]; [|by split; [|intros []%Hno]].
  destruct (jr_FinishedAt m) as [t|] eqn:Ht; [|by split; [|intros []%Hno]].
  destruct (_ || _); [by split; [|intros []%Hno]|].
  destruct (reportedOperationLinks _ _ _) as [[parent root]|]; [|by split; [|intros []%Hno]].
  destruct (result_summary _) as [summary|] eqn:Hs; [|by split; [|intros []%Hno]].
  match goal with |- context [RecordOperationResult ?p ?e d] => pose proof (record_result p e d Hok) as [H1 H2]; set (r := p) in * end.
  destruct (RecordOperationResult r _ d) as [[[]|x] d'].
  - split; [exact H1|]. intros _. exists r. split; [by repeat split|]. by apply H2.
  - destruct (blames_agent _ _); [split; [by apply invalid_reaches|intros []%Hno]|]. split; [exact H1|]. by intros [|[? ?]].
Qed.

Lemma logs_reaches capable agent m meta e d : backup_ok d →
  reaches d (handleJobLogChunk capable agent m meta e d).2 ∧
  (∀ id ack, (handleJobLogChunk capable agent m meta e d).1 = SentLogAccepted id ack →
   Parse (jl_OperationId m) = Some id ∧ (∃ o, runs d !! id = Some o ∧ bo_AgentID o = agent) ∧
   (∃ h, log_heads (handleJobLogChunk capable agent m meta e d).2 !! id = Some h ∧ lh_AckSequence h = ack) ∧
   ∃ entries, decode_entries (jl_EntriesJson m) = Some entries ∧ Forall (λ e, le_Sequence e ≤ ack) entries ∧
     ∀ x, x ∈ entries → lh_AckSequence (default (mkLogHead 0 0) (log_heads d !! id)) < le_Sequence x →
       log_rows (handleJobLogChunk capable agent m meta e d).2 !! (id, le_Sequence x) = Some x).
Proof using Type.
  intros Hok. assert (Hinv : reaches d (invalidMessage meta "JOB_LOG_INVALID" e d).2) by by apply invalid_reaches.
  assert (Hno : ∀ d id ack, (invalidMessage meta "JOB_LOG_INVALID" e d).1 = SentLogAccepted id ack → False).
  { intros d1 id ack Hx. destruct (invalid_refuses meta "JOB_LOG_INVALID" e d1 _ eq_refl) as [Hy|Hy]; by rewrite Hy in Hx. }
  unfold handleJobLogChunk. cbv zeta. destruct (Parse (jl_OperationId m)) as [id|] eqn:Hid; [|by split; [|intros ? ? []%Hno]].
  destruct (negb _ || _ || _); [by split; [|intros ? ? []%Hno]|].
  destruct (decode_entries _) as [[|first rest]|] eqn:Hd; [by split; [|intros ? ? []%Hno]| |by split; [|intros ? ? []%Hno]].
  destruct (_ || _ || _); [by split; [|intros ? ? []%Hno]|].
  match goal with |- context [RecordOperationLogs agent id ?l ?e d] => pose proof (record_logs agent id l e d Hok) as [H1 H2]; set (entries := l) in * end.
  destruct (RecordOperationLogs _ _ _ _ d) as [[ack|x] d']; cbn [fst snd] in *.
  - split; [done|]. intros ? ? [= <- <-]. destruct (H2 _ eq_refl) as (H3 & H4 & H5 & H6). split_and!; [done|done|done|by exists entries].
  - destruct (blames_agent _ _); [split; [by apply invalid_reaches|intros ? ? []%Hno]|]. by split.
Qed.

Lemma answer_reaches reason id call meta e d :
  (∀ i, reaches d (call i (sm_report e) d).2) → reaches d (handleJobAnswer reason id call meta e d).2.
Proof using Type.
  intros Hc. unfold handleJobAnswer. destruct (Parse id) as [i|]; [|by apply invalid_reaches]. specialize (Hc i).
  destruct (call i _ d) as [[a|x] d']; [done|]. destruct (x == _); [by apply invalid_reaches|done].
Qed.

(** *** Requests of users *)

(** What an answer to a request stands for: the stored answer of an earlier one,
    or an operation that was changed and an answer that was stored. *)
Definition answers (key : BackupRequestKey) (d c : CentralDb) (o : BackupOperation) (fresh : Prop) : Prop :=
  (∃ t row, answered key t d = Some row ∧ bq_RequestHash row = rk_Body key ∧ bq_Response row = o ∧ c = d) ∨
  (∃ t, remembered_as key o t c) ∧ runs c !! bo_ID o = Some o ∧ fresh.

Lemma queue_reaches target key retry actor meta e d : backup_ok d →
  reaches d (queueManualBackup target key retry actor meta e d).2 ∧
  ∀ o, (queueManualBackup target key retry actor meta e d).1 = Ok o →
    answers (backupRequestKey (us_ID actor) (backup_route target retry) key "") d (queueManualBackup target key retry actor meta e d).2 o
      (bo_Status o = "QUEUED").
Proof using Type.
  intros Hok. unfold queueManualBackup. destruct (if retry then _ else _) as [action resource].
  destruct (_ != RoleAdmin).
  { destruct (refuse_fleet (A := BackupOperation) action resource meta e d) as [H1 H2]. split; [by apply fleet_kept|]. intros o Ho. by destruct (H2 o). }
  destruct (validateOperationKey key); [split; [apply rtc_refl|done]|]. destruct (ce_id e) as [id|]; [|split; [apply rtc_refl|done]].
  destruct (if retry then _ else _) as [planID parent]. rewrite stored_eq. cbn [fst snd].
  set (request := backupRequestKey _ _ _ _).
  match goal with |- context [run_tx ?m ?env d] =>
    destruct (reaches_run m (λ x c, ∀ o, x = Ok o → answers request d c o (bo_Status o = "QUEUED")) env d) as [HR HQ] end.
  { apply wp_audited; [done|]. intros event. eapply wp_mono; [|by apply manual_refines]. intros x w c [Hr Hx]. split; [done|].
    intros o Ho. destruct (Hx o Ho) as [H|(t & H1 & H2 & H3)]; [by left|right]. split_and!; [by exists t|done|done]. }
  split; [done|]. destruct (run_tx _ _ d) as [[a|x] d']; [|done]. cbn in *. intros o [= <-]. by apply HQ.
Qed.

Lemma cancel_reaches id reason key actor meta e d : backup_ok d →
  reaches d (cpCancelBackupOperation id reason key actor meta e d).2 ∧
  ∀ o, (cpCancelBackupOperation id reason key actor meta e d).1 = Ok o →
    answers (backupRequestKey (us_ID actor) (cancel_route id) key (TrimSpace reason)) d (cpCancelBackupOperation id reason key actor meta e d).2 o
      (bo_ID o = id ∧ (bo_Status o = "CANCEL_REQUESTED" ∨ bo_Status o = "CANCELED" ∧ bo_DispatchedAt o = None)).
Proof using Type.
  intros Hok. unfold cpCancelBackupOperation. destruct (_ != RoleAdmin).
  { destruct (refuse_fleet (A := BackupOperation) "BACKUP_OPERATION_CANCEL" "BACKUP_OPERATION" meta e d) as [H1 H2].
    split; [by apply fleet_kept|]. intros o Ho. by destruct (H2 o). }
  destruct (validateOperationKey key); [split; [apply rtc_refl|done]|]. cbv zeta. destruct (512 <? _); [split; [apply rtc_refl|done]|].
  rewrite stored_eq. cbn [fst snd]. set (request := backupRequestKey _ _ _ _).
  match goal with |- context [run_tx ?m ?env d] => destruct (reaches_run m (λ x c, ∀ o, x = Ok o → answers request d c o
    (bo_ID o = id ∧ (bo_Status o = "CANCEL_REQUESTED" ∨ bo_Status o = "CANCELED" ∧ bo_DispatchedAt o = None))) env d) as [HR HQ] end.
  { apply wp_audited; [done|]. intros event. eapply wp_mono; [|by apply cancel_refines]. intros x w c [Hr Hx]. split; [done|].
    intros o Ho. destruct (Hx o Ho) as [H|(t & H1 & H2 & H3 & H4)]; [by left|right]. split_and!; [by exists t|by rewrite H3|done|done]. }
  split; [done|]. destruct (run_tx _ _ d) as [[a|x] d']; [|done]. cbn in *. intros o [= <-]. by apply HQ.
Qed.

(** *** All events *)

Definition same_backups (d : CentralDb) : Backups * gmap uuid PlanRow := (fl_backups (cd_fleet d), fl_plans (cd_fleet d)).

Lemma kept_reaches d d' : kept same_backups d d' → reaches d d'.
Proof using Type.
  intros [= Hb Hp]. apply rtc_once, bs_beside. split; [done|intros id p Hpl; exists p; by rewrite Hp|]. rewrite Hp. congruence.
Qed.

Lemma pages_kept now e d : kept same_backups d (run_tx (DeleteExpiredSnapshotListResults now) e d).2.
Proof using Type.
  apply (within_run (kept same_backups)). unfold DeleteExpiredSnapshotListResults, delete_expired. stays. intros. by open_row.
Qed.

(** Every event is a run of steps of the specification. *)
Lemma apply_reaches x d : backup_ok d → backup_allowed x d → reaches d (backup_apply x d).
Proof using Type.
  intros Hok Ha. destruct x; cbn [backup_apply].
  - by apply progress_reaches.
  - by apply logs_reaches.
  - by apply result_reaches.
  - apply answer_reaches. intros i. by apply (reaches_run _ _ _ _ (accept_refines agent i d Hok)).
  - apply answer_reaches. intros i. by apply (reaches_run _ _ _ _ (reject_refines agent i _ d Hok)).
  - by apply (reaches_run _ _ _ _ (claim_refines agent now dispatchRetryAfter d Hok)).
  - by apply queue_reaches.
  - by apply cancel_reaches.
  - by apply (reaches_run _ _ _ _ (close_refines _ _ d Hok)).
  - by apply (reaches_run _ _ _ _ (lost_refines _ _ d Hok)).
  - apply reaches_only, overdue_refines.
  - apply kept_reaches, pages_kept.
  - by apply rtc_once, bs_beside.
Qed.

Lemma run_reaches xs d : backup_ok d → backup_permitted xs d → reaches d (backup_run xs d).
Proof using Type.
  revert d. induction xs as [|x xs IH]; intros d Hok; [intros _; apply rtc_refl|]. intros [Ha Hp]. cbn [backup_run foldl].
  pose proof (apply_reaches _ _ Hok Ha) as Hr. etrans; [exact Hr|]. apply IH; [|done]. by apply (steps_ok d).
Qed.

Lemma backup_run_ok xs d : backup_ok d → backup_permitted xs d → backup_ok (backup_run xs d) ∧ forward d (backup_run xs d).
Proof using Type. intros Hok Hp. apply steps_ok; [|done]. by apply run_reaches. Qed.

Lemma run_app xs ys d : backup_run (xs ++ ys) d = backup_run ys (backup_run xs d).
Proof using Type. unfold backup_run. apply foldl_app. Qed.

Lemma backup_permitted_app xs ys d : backup_permitted (xs ++ ys) d ↔ backup_permitted xs d ∧ backup_permitted ys (backup_run xs d).
Proof using Type.
  revert d. induction xs as [|x xs IH]; intros d; cbn [app backup_permitted backup_run foldl]; [tauto|]. rewrite IH. unfold backup_run. cbn. tauto.
Qed.
End History.
