(* ===== verification/BackupSafety.v ===== *)
(** * BackupSafety: what holds of every history of backup operations

    The theorems about the control plane's backup operations: on the histories of
    BackupHistory, from a database before the first backup. *)

From S2P Require Import Prelude GoStd Uuid Platform Domain Plan DomainLogs GatewaySession GatewayAuth AuditChain PendingRecord.
From S2P Require Import CentralTx CentralStore CentralTrace CentralRefine CentralFrame CentralReplies CentralPlane StorageVault CentralJobs AgentLogs.
From S2P Require Import RcloneConfig AgentDispatch SnapshotService BackupStore BackupSpec BackupRefine BackupPlane BackupStream BackupHistory.
Open Scope Z_scope.
Open Scope go_scope.
Open Scope central_scope.

Section Helpers.
Context `{U : UuidPkg} `{P : Platform} `{C : AuditCodec} `{LC : LogCodec} `{RC : ReportCodec}.

(** ** Rounds of the reconciler *)

Definition works (e : TxEnv) : Prop := no_faults e ∧ ∀ n, tx_commit e n = Committed.

Lemma statement_runs f e d n w : works e → f d = Some (n, w) → run_tx (statement f) e d = (Ok n, w).
Proof using Type.
  intros [Hf Hc] Hw. unfold run_tx, statement, tbind, stmt, commit, tret. cbn. rewrite (Hf 0%nat), Hw. cbn. by rewrite Hc.
Qed.

(** What an update that closes operations leaves of them. *)
Lemma closing_runs p status error now d n w id o :
  update_runs p (closed_run status error now) d = Some (n, w) → runs w !! id = Some o → runs d !! id = Some o ∧ p d o = false ∨ open_run o = false.
Proof using Type.
  unfold update_runs. destruct (forallb _ _); [|done]. intros [= <- <-]. rewrite runs_set, lookup_fmap. destruct (runs d !! id) as [x|]; [|done].
  cbn. intros [= <-]. destruct (p d x) eqn:E; [by right|by left].
Qed.

Lemma closing_fleet p f d n w : update_runs p f d = Some (n, w) → fl_agents (cd_fleet w) = fl_agents (cd_fleet d).
Proof using Type. unfold update_runs. destruct (forallb _ _); [|done]. by intros [= <- <-]. Qed.

Lemma round_closes e d :
  backup_ok d → works (rc_close e) → works (rc_lost e) → works (rc_health e) → works (rc_pages e) →
  ∃ n d', ReconcileOperations e d = (Ok n, d') ∧ (∀ id o, runs d' !! id = Some o →
    unstarted_cancel (rc_now e - cancelClosureGrace) d' o = false ∧ of_earlier_boot (rc_now e - lostReconciliationGrace) d' o = false) ∧
    ∀ id p, fl_plans (cd_fleet d') !! id = Some p → overdue_plan (rc_now e) p = true → pn_BackupHealth p = "OVERDUE".
Proof using Type.
  intros Hok H1 H2 H3 H4. unfold ReconcileOperations. cbv zeta. set (now := rc_now e).
  destruct (closing_total "CANCELED" "CANCELED" now (unstarted_cancel (now - cancelClosureGrace)) d Hok ltac:(decided)) as [[n1 d1] E1].
  unfold CloseUnstartedCancellations. rewrite (statement_runs _ _ _ _ _ H1 E1).
  assert (Hok1 : backup_ok d1).
  { apply (steps_ok d); [|done]. refine (proj1 (closing_reaches "CANCELED" "CANCELED" now _ d n1 d1 Hok _ _ E1)); [decided|].
    intros ? ? _ Hx. unfold unstarted_cancel in Hx. by bool_prop. }
  destruct (closing_total "LOST" "LOCAL_OPERATION_RECOVERED" now (of_earlier_boot (now - lostReconciliationGrace)) d1 Hok1 ltac:(decided)) as [[n2 d2] E2].
  unfold ReconcileLostOperations. rewrite (statement_runs _ _ _ _ _ H2 E2).
  unfold ReconcilePlanHealth. rewrite (statement_runs (mark_overdue now) _ d2 _ _ H3 eq_refl).
  unfold DeleteExpiredSnapshotListResults. rewrite (statement_runs (delete_expired now) _ _ _ _ H4 eq_refl).
  eexists _, _. split; [done|]. split.
  - intros id o Ho. change (runs _ !! id) with (runs d2 !! id) in Ho. destruct (closing_runs _ _ _ _ _ _ _ _ _ E2 Ho) as [[Ho1 Hn]|Hf].
    + split; [destruct (closing_runs _ _ _ _ _ _ _ _ _ E1 Ho1) as [[_ Hx]|Hf]; [done|]; unfold unstarted_cancel; by rewrite Hf, !andb_false_r|].
      unfold of_earlier_boot in *. cbn. by rewrite (closing_fleet _ _ _ _ _ E2).
    + unfold unstarted_cancel, of_earlier_boot. cbn. rewrite Hf, !andb_false_r. split; [done|]. by destruct (fl_agents _ !! _).
  - intros id p. cbn. rewrite lookup_fmap. destruct (fl_plans (cd_fleet d2) !! id) as [x|]; [|done]. cbn. intros [= <-].
    destruct (overdue_plan now x) eqn:E; [done|congruence].
Qed.

(** ** Chains of retries *)

Inductive lineage (d : CentralDb) : BackupOperation → list BackupOperation → Prop :=
| lineage_first o : bo_ParentOperationID o = None → lineage d o []
| lineage_retry o p x l : bo_ParentOperationID o = Some p → runs d !! p = Some x → lineage d x l → lineage d o (x :: l).

Lemma lineage_exists d n id o :
  backup_ok d → runs d !! id = Some o → Z.to_nat (bo_Attempt o) = n →
  ∃ l, lineage d o l ∧ Z.of_nat (length l) + 1 = bo_Attempt o ∧ Forall (λ x, bo_PlanID x = bo_PlanID o ∧ open_run x = false) l ∧
    root_of o = bo_ID (default o (last l)).
Proof using Type.
  intros Hok. revert id o. induction n as [n IH] using lt_wf_ind. intros id o Ho Hn. pose proof (bi_rows _ Hok _ _ Ho) as Hr.
  destruct (bo_ParentOperationID o) as [p|] eqn:Hp.
  - destruct (bi_descends _ Hok _ _ Ho p Hp) as (x & Hx & Hend & Hplan & Hat & Hroot).
    pose proof (check_attempt _ (ro_check _ (bi_rows _ Hok _ _ Hx))) as Hxa.
    destruct (IH (Z.to_nat (bo_Attempt x)) ltac:(lia) p x Hx eq_refl) as (l & Hl & Hlen & Hall & Hlast). exists (x :: l). split_and!.
    + by eapply lineage_retry.
    + cbn [length]. lia.
    + constructor; [done|]. eapply Forall_impl; [exact Hall|]. cbn. intros y [-> ?]. done.
    + unfold root_of at 1. rewrite Hroot. cbn [default from_option]. rewrite Hlast. destruct l as [|y l]; [done|]. rewrite last_cons_cons.
      by destruct (last (y :: l)) eqn:E; [|by apply last_None in E].
  - destruct (ro_first _ Hr Hp) as [Hroot Hat]. exists []. split_and!; [by constructor|by rewrite Hat|done|]. unfold root_of. by rewrite Hroot.
Qed.

(** ** Refused reports *)

Lemma wp_any {A} (m : Tx A) (Q : result dberr A → CentralDb → CentralDb → Prop) w c : (∀ r w c, Q r w c) → wp m Q w c.
Proof using Type. intros HQ e ab n. destruct (m e _) as [r s]. apply HQ. Qed.

Lemma result_reportable r e d : (run_tx (UpsertOperationResult r) e d).1 = Ok () → reportable (reported_result r) d.
Proof using Type.
  apply (wp_run _ (λ x _, x = Ok () → reportable (reported_result r) d)). unfold UpsertOperationResult. apply wp_bind, wp_select; [done|].
  intros _. destruct (bound_plan _ _ d); [|by apply wp_fail]. apply wp_bind, wp_lockReported; [done|]. intros Hr. by apply wp_any.
Qed.

Lemma progress_reportable p e d : (run_tx (UpsertOperationProgress p) e d).1 = Ok () → reportable (reported_progress p) d.
Proof using Type.
  apply (wp_run _ (λ x _, x = Ok () → reportable (reported_progress p) d)). unfold UpsertOperationProgress. apply wp_bind, wp_select; [done|].
  intros _. destruct (negb _); [by apply wp_fail|]. apply wp_bind, wp_lockReported; [done|]. intros Hr. by apply wp_any.
Qed.

Lemma record_stored r e d : (RecordOperationResult r e d).1 = Ok () → (run_tx (UpsertOperationResult r) e d).1 = Ok ().
Proof using Type.
  unfold RecordOperationResult. repeat match goal with |- context [if ?b then (_, d) else _] => destruct b; [done|] end.
  rewrite stored_eq. cbn [fst]. by destruct (run_tx (UpsertOperationResult r) e d) as [[[]|] ?].
Qed.

(** A retry of an operation that did not fail for a passing reason. *)
Definition orphaned (d : CentralDb) (parent : uuid) : Prop :=
  ∃ x, runs d !! parent = Some x ∧ open_run x = false ∧ (bo_Status x ≠ "FAILED" ∨ Execution.RetryableBackupError (bo_ErrorCode x) = false).

Lemma orphaned_unreportable r d parent : orphaned d parent → runs d !! rd_ID r = None → rd_Parent r = Some parent → ¬ reportable r d.
Proof using Type.
  intros (x & Hx & _ & Hno) Hn Hp. unfold reportable. rewrite Hn, Hp. intros (y & Hy & Hc & _). simplify_eq. unfold continues_run in Hc. bool_prop.
  destruct Hno as [?|Hf]; [done|]. congruence.
Qed.

Lemma links_parent parent root attempt p r :
  reportedOperationLinks parent root attempt = Some (p, r) → ∀ id, Parse parent = Some id → parent ≠ "" → p = Some id.
Proof using Type.
  unfold reportedOperationLinks. intros Hl id Hid Hne. rewrite Hid in Hl. destruct (_ || _); [done|].
  assert (Hb : (parent == "") = false) by by apply bool_decide_eq_false. rewrite Hb in Hl. cbn [andb] in Hl.
  destruct (negb _); [done|]. destruct (Parse root); [|done]. destruct (_ || _); [done|]. by injection Hl as <- <-.
Qed.
End Helpers.

(** ** Remembered answers *)

Section Remembered.
Context `{U : UuidPkg} `{P : Platform} `{C : AuditCodec}.

(** A transaction that only answers from memory: [o], or an error, and nothing
    changes. *)
Definition recalls (key : BackupRequestKey) (e : TxEnv) (d : CentralDb) (o : BackupOperation) : Prop :=
  ∃ row, run_requests d !! (rk_Scope key, rk_Key key) = Some row ∧ bq_RequestHash row = rk_Body key ∧ bq_Response row = o ∧
    ∀ n, tx_clock e n < bq_ExpiresAt row.

Lemma lock_recalls key e d c n o : recalls key e d o →
  ∃ n' ab, lockBackupRequest key e (mkTx d c false n) = (Ok (Some o), mkTx d c false n') ∨
    ∃ x, lockBackupRequest key e (mkTx d c false n) = (Err x, mkTx d c ab n').
Proof using Type.
  intros (row & Hrow & Hh & Ho & Ht). unfold lockBackupRequest. destruct (_ || _); [by exists n, false; right; eexists|].
  unfold tbind, select, stmt. cbn. destruct (tx_fault e n); [by exists (S n), true; right; eexists|]. cbn.
  destruct (tx_fault e (S n)); [by exists (S (S n)), true; right; eexists|]. unfold answered. rewrite Hrow.
  destruct (_ <? _) eqn:E; [|specialize (Ht (S n)); bool_prop; lia]. rewrite Hh. destruct (_ != _) eqn:E2; [by bool_prop|].
  exists (S (S n)), false. left. by rewrite Ho.
Qed.

Lemma recalled (m : AuditEvent → Tx BackupOperation) (rest : AuditEvent → Tx BackupOperation) key now action resource id actor meta reason
    changes e d o :
  recalls key e d o →
  (∀ event, m event = (let* original := lockBackupRequest key in
     match original with Some o => let* _ := commit in tret o | None => rest event end)) →
  let r := run_tx (let* event := userAudit now action resource id actor meta reason changes in m event) e d in
  r.2 = d ∧ (r.1 = Ok o ∨ ∃ x, r.1 = Err x).
Proof using Type.
  intros Hr Hm. cbv zeta. destruct (run_tx _ e d) as [r d'] eqn:Hrun. revert Hrun. unfold run_tx, tbind at 1.
  assert (Hu : ∃ n, ((∃ event, userAudit now action resource id actor meta reason changes e (mkTx d d false 0) = (Ok event, mkTx d d false n)) ∨
    ∃ x, userAudit now action resource id actor meta reason changes e (mkTx d d false 0) = (Err x, mkTx d d false n))).
  { unfold userAudit, auditEvent, newV7, tbind, tret. cbn. destruct (tx_fresh e 0); [|by exists 1%nat; right; eexists]. cbn.
    destruct (rm_RequestID meta == uuid_Nil); cbn; [|by exists 1%nat; left; eexists]. destruct (tx_fresh e 1); cbn; [by exists 2%nat; left; eexists|].
    by exists 2%nat; right; eexists. }
  destruct Hu as [n [[event ->]|[x ->]]]; [|by intros [= <- <-]; split; [|right; eexists]]. rewrite Hm. unfold tbind at 1.
  destruct (lock_recalls key e d d n o Hr) as (n' & ab & [->|[x ->]]); [|by intros [= <- <-]; split; [|right; eexists]].
  unfold tbind, commit, tret. cbn. destruct (tx_commit e n'); cbn; intros [= <- <-]; (split; [done|]); [by left|right; by eexists..].
Qed.

(** An environment that answers: no statement fails, commits succeed, and there are
    random numbers. *)
Definition answering (e : TxEnv) : Prop := works e ∧ ∀ n, is_Some (tx_fresh e n).
Definition usable (key : BackupRequestKey) : Prop := rk_Scope key ≠ zero_hash ∧ rk_Key key ≠ zero_hash ∧ rk_Body key ≠ zero_hash.

Lemma userAudit_answers now action resource id actor meta reason changes e d :
  answering e → ∃ event n, userAudit now action resource id actor meta reason changes e (mkTx d d false 0) = (Ok event, mkTx d d false n).
Proof using Type.
  intros [_ Hf]. unfold userAudit, auditEvent, newV7, tbind, tret. cbn. destruct (Hf 0%nat) as [x ->]. cbn.
  destruct (rm_RequestID meta == uuid_Nil); cbn; [|by eexists _, 1%nat]. destruct (Hf 1%nat) as [y ->]. by eexists _, 2%nat.
Qed.

Lemma lock_answers key e d n :
  answering e → usable key →
  lockBackupRequest key e (mkTx d d false n) =
    (match answered key (tx_clock e (S n)) d with
     | None => Ok None
     | Some r => if bq_RequestHash r != rk_Body key then Err ErrIdempotencyReused else Ok (Some (bq_Response r))
     end, mkTx d d false (S (S n))).
Proof using Type.
  intros [[Hf _] _] (H1 & H2 & H3). unfold lockBackupRequest. rewrite !bool_decide_eq_false_2 by done. cbn [orb]. unfold tbind, select, stmt. cbn.
  rewrite (Hf n). cbn. rewrite (Hf (S n)). destruct (answered _ _ d) as [r|]; [|done]. by destruct (_ != _).
Qed.

(** A call whose request is not remembered goes on to its own work; when that
    refuses, the call does, and nothing changes. *)
Lemma new_request_refused {B} now action resource id actor meta reason changes (m : AuditEvent → Tx B) key e d x :
  answering e → usable key → (∀ t, answered key t d = None) →
  (∀ event, ∃ k, m event = (let* original := lockBackupRequest key in k original) ∧
     ∀ n, k None e (mkTx d d false n) = (Err x, mkTx d d false (S n))) →
  run_tx (let* event := userAudit now action resource id actor meta reason changes in m event) e d = (Err x, d).
Proof using Type.
  intros He Hu Hno Hm. destruct (userAudit_answers now action resource id actor meta reason changes e d He) as (event & n & Ha).
  destruct (Hm event) as (k & Hk & Hrefuses). unfold run_tx, tbind at 1. rewrite Ha, Hk. unfold tbind.
  by rewrite (lock_answers key e d n He Hu), Hno, Hrefuses.
Qed.

(** A call whose request is remembered is answered from memory. *)
Lemma remembered_answers now action resource id actor meta reason changes (k : AuditEvent → Tx BackupOperation) key e d o :
  answering e → usable key → recalls key e d o →
  run_tx (let* event := userAudit now action resource id actor meta reason changes in
          let* original := lockBackupRequest key in
          match original with Some o => let* _ := commit in tret o | None => k event end) e d = (Ok o, d).
Proof using Type.
  intros He Hu (row & Hrow & Hh & Ho & Ht). destruct (userAudit_answers now action resource id actor meta reason changes e d He) as (event & n & Ha).
  unfold run_tx, tbind at 1. rewrite Ha. unfold tbind at 1. rewrite (lock_answers key e d n He Hu). unfold answered. rewrite Hrow.
  rewrite (proj2 (Z.ltb_lt _ _)) by apply Ht. rewrite Hh, bool_decide_eq_true_2 by done. cbn [negb]. rewrite Ho.
  unfold tbind, commit, tret. cbn. destruct He as [[_ Hc] _]. by rewrite Hc.
Qed.

(** Reading a row, when the database works. *)
Lemma scan_answers (f : CentralDb → option BackupOperation) e d n o :
  no_faults e → f d = Some o → scanBackupOperation f e (mkTx d d false n) = (Ok o, mkTx d d false (S n)).
Proof using Type. intros Hf Ho. unfold scanBackupOperation, tbind, select, stmt. cbn. by rewrite (Hf n), Ho. Qed.

Lemma stored_ok {A} (r : result dberr A) o : stored_result r = Ok o → r = Ok o.
Proof using Type. by destruct r; [intros [= <-]|]. Qed.

(** A request that was carried out was usable. *)
Lemma locked_usable {B} key (k : option BackupOperation → Tx B) (Q : result dberr B → CentralDb → CentralDb → Prop) w c :
  (∀ x, Q (Err x) w c) → (usable key → ∀ r w c, Q r w c) → wp (let* original := lockBackupRequest key in k original) Q w c.
Proof using Type.
  intros He Hq. unfold lockBackupRequest. destruct (_ || _) eqn:E; [by apply wp_bind, wp_fail|].
  apply wp_any, Hq. bool_prop. done.
Qed.
End Remembered.

(** ** Properties *)

Section Safety.
Context `{U : UuidPkg} `{P : Platform} `{C : AuditCodec} `{LC : LogCodec} `{RC : ReportCodec}.

Lemma history_ok d0 xs : no_runs d0 → backup_permitted xs d0 → backup_ok (backup_run xs d0).
Proof using Type. intros H0 Hp. apply backup_run_ok; [by apply no_runs_ok|done]. Qed.

Lemma history_forward d0 xs ys : no_runs d0 → backup_permitted (xs ++ ys) d0 → forward (backup_run xs d0) (backup_run (xs ++ ys) d0).
Proof using Type.
  intros H0 [Hx Hy]%backup_permitted_app. rewrite run_app. apply backup_run_ok; [by apply history_ok|done].
Qed.

(** C15: Operations only move forward, and ended ones are final: in every history of
    Agents' messages, users' requests and rounds of the reconciler, from a
    database before the first backup, an operation is never deleted; its plan,
    Agent, revision, origin and place in a chain of retries never change; it never
    returns to an earlier stage (queued, running, being canceled, ended), keeps
    the instants it started and was asked to stop, and once it has ended its row
    never changes again. *)
Theorem runs_only_move_forward (d0 : CentralDb) (xs ys : list backup_event) (id : uuid) (o : BackupOperation) :
  no_runs d0 → backup_permitted (xs ++ ys) d0 → runs (backup_run xs d0) !! id = Some o →
  ∃ o', runs (backup_run (xs ++ ys) d0) !! id = Some o' ∧ same_run o o' ∧ stage (bo_Status o) ≤ stage (bo_Status o') ∧
    (∀ t, bo_StartedAt o = Some t → bo_StartedAt o' = Some t) ∧ (∀ t, bo_CancelRequestedAt o = Some t → bo_CancelRequestedAt o' = Some t) ∧
    (bo_Status o ∈ terminal_statuses → o' = o).
Proof using Type.
  intros H0 Hp Ho. destruct (fw_runs _ _ (history_forward _ _ _ H0 Hp) _ _ Ho) as (o' & Ho' & Hl). exists o'. split; [done|].
  assert (Hr : run_ok o) by (apply backup_permitted_app in Hp as [Hp _]; by apply (bi_rows _ (history_ok _ _ H0 Hp) id)).
  destruct Hl as [->|[Hopen []]]; [by split_and!|]. split_and!; [done..|]. intros [t Ht]%(ro_ended _ Hr). unfold open_run in Hopen. by rewrite Ht in Hopen.
Qed.

(** Every row is well-formed in every history: it is of a known status, has a
    finish time exactly when it has ended, a start when it runs, a request when it
    is being canceled, a number of attempts from 1 to 10000, and no summary before
    its end. *)
Theorem runs_well_formed (d0 : CentralDb) (xs : list backup_event) (id : uuid) (o : BackupOperation) :
  no_runs d0 → backup_permitted xs d0 → runs (backup_run xs d0) !! id = Some o → bo_ID o = id ∧ run_ok o.
Proof using Type.
  intros H0 Hp Ho. pose proof (history_ok _ _ H0 Hp) as Hok. split; [by apply (bi_keyed _ Hok)|by apply (bi_rows _ Hok id)].
Qed.

(** C22: Retries form finite chains: an operation of the n-th attempt follows n-1
    operations, each ended and of the same plan, each the parent of the next, down
    to the first attempt, which is the root the operation names. *)
Theorem retries_descend_from_their_root (d0 : CentralDb) (xs : list backup_event) (id : uuid) (o : BackupOperation) :
  no_runs d0 → backup_permitted xs d0 → runs (backup_run xs d0) !! id = Some o →
  ∃ l, lineage (backup_run xs d0) o l ∧ Z.of_nat (length l) + 1 = bo_Attempt o ∧
    Forall (λ x, bo_PlanID x = bo_PlanID o ∧ open_run x = false) l ∧ root_of o = bo_ID (default o (last l)).
Proof using Type. intros H0 Hp Ho. by eapply lineage_exists; [apply history_ok| |]. Qed.

(** C14: An acknowledged result is recorded for good.  When the control plane
    answers a result with an acknowledgement, the operation has ended in its
    database: either it had before, and nothing changes, or its row now carries
    the status, instant, exit code, error, snapshot and summary of the message, its
    plan follows the result, and the snapshot it names is indexed as this
    operation's; and the row stays as it is in every continuation. *)
Theorem acknowledged_result_is_recorded (d0 : CentralDb) (xs ys : list backup_event) (capable : bool) (agent : uuid) (m : JobResultMessage)
    (meta : RequestMeta) (e : StreamEnv) (id : string) :
  let d := backup_run xs d0 in let x := ResultReported capable agent m meta e in
  no_runs d0 → backup_permitted (xs ++ x :: ys) d0 → (handleJobResult capable agent m meta e d).1 = SentResultAccepted id →
  ∃ r, acknowledges agent m r ∧ recorded r d (backup_apply x d) ∧
    runs (backup_run (xs ++ x :: ys) d0) !! bres_OperationID r = runs (backup_apply x d) !! bres_OperationID r.
Proof using Type.
  intros d x H0 Hp Ha. pose proof Hp as [Hxs [_ Hys]]%backup_permitted_app. pose proof (history_ok _ _ H0 Hxs) as Hok. fold d in Hok, Hys.
  destruct (result_reaches capable agent m meta e d Hok) as [Hr Hq]. destruct (Hq (or_intror (ex_intro _ id Ha))) as (r & Hack & Hrec).
  exists r. split; [done|]. split; [done|]. pose proof Hrec as (o & Ho & Hend & _). fold x in Hys.
  replace (xs ++ x :: ys) with ((xs ++ [x]) ++ ys) by by rewrite <- app_assoc.
  rewrite run_app, run_app. cbn [backup_run foldl]. fold d. fold (backup_run ys (backup_apply x d)).
  assert (Hok1 : backup_ok (backup_apply x d)) by by apply (steps_ok d).
  destruct (fw_runs _ _ (proj2 (backup_run_ok _ _ Hok1 Hys)) _ _ Ho) as (o' & Ho' & [->|[Hopen _]]); cbn in *; congruence.
Qed.

(** A job that is sent is a queued operation that was claimed for it. *)
Lemma dispatch_inv agent now e read meanwhile d job :
  backup_ok d → (dispatchQueuedJob agent now e read meanwhile d).1 = Some job →
  ∃ x, jd_OperationId job = UString (bo_ID x) ∧ bo_Status x = "QUEUED" ∧ bo_DispatchedAt x = Some now ∧
    let d' := backup_apply (JobClaimed agent now e) d in rtc backup_step d d' ∧ runs d' !! bo_ID x = Some x.
Proof using Type.
  intros Hok Hjob. unfold dispatchQueuedJob in Hjob. cbn [backup_apply].
  destruct (reaches_run _ _ e d (claim_refines agent now dispatchRetryAfter d Hok)) as [Hr Hq]. fold (ClaimQueuedJob agent now e d) in Hr, Hq.
  destruct (ClaimQueuedJob agent now e d) as [[[x|]|x] d'] eqn:Hc; [|done..]. cbn [fst snd] in *. destruct (Hq _ eq_refl) as (Hx & _ & Hs & Hd).
  destruct (run_tx _ read _).1 as [current|]; [|done]. cbn in Hjob. destruct (_ != _); [done|]. injection Hjob as <-. exists x. by split_and!.
Qed.

Lemma run_split d0 xs x ys : backup_run (xs ++ x :: ys) d0 = backup_run ys (backup_apply x (backup_run xs d0)).
Proof using Type. by rewrite run_app. Qed.

(** The row of an operation whose cancellation was answered. *)
Lemma canceled_row id reason key actor meta e d o :
  backup_ok d → (cpCancelBackupOperation id reason key actor meta e d).1 = Ok o →
  let d' := backup_apply (RunCanceled id reason key actor meta e) d in
  backup_ok d' ∧ ∃ row, runs d' !! bo_ID o = Some row ∧ later o row.
Proof using Type.
  intros Hok Ho. cbn [backup_apply]. destruct (cancel_reaches id reason key actor meta e d Hok) as [Hr Ha]. specialize (Ha o Ho).
  assert (Hok' : backup_ok (cpCancelBackupOperation id reason key actor meta e d).2) by by apply (steps_ok d). split; [done|].
  destruct Ha as [(t & row & Hrow & _ & Hresp & ->)|(_ & Hrow & _)]; [|exists o; split; [done|by left]].
  unfold answered in Hrow. destruct (run_requests d !! _) as [q|] eqn:Hq; [|done]. destruct (t <? _); [|done]. injection Hrow as ->.
  destruct (bi_requests _ Hok _ _ Hq) as (Hid & r & Hr' & Hl). rewrite Hresp in *. exists r. by rewrite Hid.
Qed.

Lemma later_stage o o' : later o o' → stage (bo_Status o) ≤ stage (bo_Status o').
Proof using Type. intros [->|[_ []]]; [done|done]. Qed.

(** C16: A cancellation that was answered with CANCELED stops the operation for
    good: whatever happens afterwards, and whatever the second look before sending
    sees, no claim sends the operation to its Agent; and when the answer shows that
    it had not been claimed, none had sent it before. *)
Theorem canceled_queued_run_is_never_sent `{!UuidLaws} (d0 : CentralDb) (xs ys : list backup_event) (id : uuid) (reason key : string)
    (actor : User) (meta : RequestMeta) (e : CallEnv) (o : BackupOperation) :
  let c := RunCanceled id reason key actor meta e in
  no_runs d0 → backup_permitted (xs ++ c :: ys) d0 →
  (cpCancelBackupOperation id reason key actor meta e (backup_run xs d0)).1 = Ok o → bo_Status o = "CANCELED" →
  (∀ ys1 ys2 agent now claim read meanwhile job, ys = ys1 ++ ys2 →
     (dispatchQueuedJob agent now claim read meanwhile (backup_run (xs ++ c :: ys1) d0)).1 = Some job → jd_OperationId job ≠ UString (bo_ID o)) ∧
  (bo_DispatchedAt o = None → ∀ xs1 xs2 agent now claim read meanwhile job, xs = xs1 ++ JobClaimed agent now claim :: xs2 →
     (dispatchQueuedJob agent now claim read meanwhile (backup_run xs1 d0)).1 = Some job → jd_OperationId job ≠ UString (bo_ID o)).
Proof using Type.
  intros c H0 Hp Ho Hst. pose proof Hp as [Hxs [_ Hys]]%backup_permitted_app.
  destruct (canceled_row _ _ _ _ _ _ _ _ (history_ok _ _ H0 Hxs) Ho) as (Hok & row & Hrow & Hlater). fold c in Hok, Hrow, Hys. split.
  - intros ys1 ys2 agent now claim read meanwhile job -> Hjob Heq. apply backup_permitted_app in Hys as [Hys _]. rewrite run_split in Hjob.
    destruct (backup_run_ok _ _ Hok Hys) as [Hok2 Hf]. destruct (fw_runs _ _ Hf _ _ Hrow) as (r2 & Hr2 & Hl2).
    destruct (dispatch_inv _ _ _ _ _ _ _ Hok2 Hjob) as (x & Hid & Hq & _ & Hreach & Hx). rewrite Heq in Hid. apply UString_inj in Hid.
    destruct (fw_runs _ _ (proj2 (steps_ok _ _ Hreach Hok2)) _ _ Hr2) as (r3 & Hr3 & Hl3). rewrite Hid in Hr3. assert (r3 = x) as -> by congruence.
    apply later_stage in Hlater, Hl2, Hl3. rewrite Hst in Hlater. rewrite Hq in Hl3.
    change (stage "CANCELED") with 3 in Hlater. change (stage "QUEUED") with 0 in Hl3. lia.
  - intros Hno xs1 xs2 agent now claim read meanwhile job -> Hjob Heq. pose proof Hxs as [Hx1 [_ Hx2]]%backup_permitted_app.
    destruct (dispatch_inv _ _ _ _ _ _ _ (history_ok _ _ H0 Hx1) Hjob) as (x & Hid & _ & Hd & Hreach & Hx). rewrite Heq in Hid. apply UString_inj in Hid.
    pose proof (proj1 (steps_ok _ _ Hreach (history_ok _ _ H0 Hx1))) as Hok1.
    assert (Hforth : forward (backup_apply (JobClaimed agent now claim) (backup_run xs1 d0)) (backup_apply c (backup_run (xs1 ++ JobClaimed agent now claim :: xs2) d0))).
    { rewrite run_split. destruct (backup_run_ok _ _ Hok1 Hx2) as [Hok2 Hf2]. etrans; [exact Hf2|]. rewrite run_split in Ho.
      apply (steps_ok _ _ (proj1 (cancel_reaches id reason key actor meta e _ Hok2)) Hok2). }
    rewrite <- Hid in Hx. destruct (fw_runs _ _ Hforth _ _ Hx) as (r2 & Hr2 & Hl2). assert (r2 = row) as -> by congruence.
    assert (Hdis : is_Some (bo_DispatchedAt row)).
    { destruct Hl2 as [->|[_ Hm]]; [by rewrite Hd; eexists|apply Hm; rewrite Hd; by eexists]. }
    destruct Hlater as [->|[_ Hm]]; [rewrite Hno in Hdis; by destruct Hdis|]. pose proof (mv_claimed _ _ Hm Hno Hdis). congruence.
Qed.

(** C19: A request is carried out once.  When a request to back up a plan or to
    retry an operation was answered, the same request of the same user, repeated
    before the stored answer expires, changes nothing, so that no second operation
    is queued; it has no other answer than the same operation; and it has that
    answer whenever the database and the random source work. *)
Theorem repeated_request_is_answered_alike (d0 : CentralDb) (xs : list backup_event) (target : uuid) (key : string) (retry : bool) (actor : User)
    (meta meta' : RequestMeta) (e e' : CallEnv) (o : BackupOperation) :
  let d := backup_run xs d0 in let d1 := (queueManualBackup target key retry actor meta e d).2 in
  let request := backupRequestKey (us_ID actor) (backup_route target retry) key "" in
  no_runs d0 → backup_permitted xs d0 → (queueManualBackup target key retry actor meta e d).1 = Ok o →
  (∀ row n, run_requests d1 !! (rk_Scope request, rk_Key request) = Some row → tx_clock (ce_save e') n < bq_ExpiresAt row) →
  let again := queueManualBackup target key retry actor meta' e' d1 in
  again.2 = d1 ∧ (∀ o', again.1 = Ok o' → o' = o) ∧ (answering (ce_save e') → is_Some (ce_id e') → again.1 = Ok o).
Proof using Type.
  intros d d1 request H0 Hp Hok Hclock. pose proof (queue_reaches target key retry actor meta e d (history_ok _ _ H0 Hp)) as [_ Ha].
  specialize (Ha o Hok). fold d1 request in Ha.
  assert (Hrec : recalls request (ce_save e') d1 o).
  { destruct Ha as [(t & row & Hrow & Hh & Ho & Hc)|((t & Hm) & _)].
    - unfold answered in Hrow. rewrite <- Hc in Hrow. destruct (run_requests d1 !! _) as [x|] eqn:Hx; [|done]. destruct (t <? _); [|done].
      injection Hrow as ->. exists row. split_and!; [done|done|done|]. intros n. by apply Hclock.
    - eexists. split; [exact Hm|]. split_and!; [done|done|]. intros n. by apply Hclock. }
  revert Hok. cbv zeta. unfold queueManualBackup. destruct (if retry then _ else _) as [action resource].
  destruct (_ != RoleAdmin); [by destruct (refuse_role (A := BackupOperation) action resource meta e d) as [[x|x] d2] eqn:E;
    [destruct (proj2 (refuse_fleet (A := BackupOperation) action resource meta e d) x); rewrite E|]|].
  destruct (validateOperationKey key); [done|]. destruct (ce_id e) as [id0|]; [|done]. intros Hfirst.
  assert (Husable : usable request).
  { revert Hfirst. destruct (if retry then _ else _) as [planID parent]. fold request. rewrite stored_eq. cbn [fst].
    intros Hx%stored_ok. revert Hx. apply (wp_run _ (λ r _, r = Ok o → usable request)).
    apply wp_bind, wp_userAudit. intros [event|x]; [|done]. by apply locked_usable. }
  destruct (ce_id e') as [id|]; [|by split; [|split; [|intros _ []]]].
  destruct (if retry then _ else _) as [planID parent]. fold request. rewrite stored_eq. cbn [fst snd].
  match goal with |- context [run_tx (tbind (userAudit ?now ?a ?r ?i ?u ?mt ?rs ?ch) ?k) ?env d1] =>
    destruct (recalled k _ request now a r i u mt rs ch env d1 o Hrec (λ _, eq_refl)) as [H1 H2];
    assert (H3 : answering env → run_tx (tbind (userAudit now a r i u mt rs ch) k) env d1 = (Ok o, d1)) by
      (intros He; by apply (remembered_answers _ _ _ _ _ _ _ _ _ request)) end.
  split; [done|]. split.
  - destruct H2 as [->|[x ->]]; by intros o' [= <-].
  - intros He _. by rewrite (H3 He).
Qed.

(** C24: A plan's last result is a result: the instant and the operation a plan
    names as its last result are those of an ended operation of that plan, and the
    instant never goes back. *)
Theorem plans_name_their_last_result (d0 : CentralDb) (xs ys : list backup_event) (plan : uuid) (p : PlanRow) (t : time) :
  no_runs d0 → backup_permitted (xs ++ ys) d0 → fl_plans (cd_fleet (backup_run xs d0)) !! plan = Some p → pn_LastResultAt p = Some t →
  (∃ id o, pn_LastOperationID p = Some id ∧ runs (backup_run xs d0) !! id = Some o ∧ bo_PlanID o = plan ∧ bo_FinishedAt o = Some t) ∧
  ∃ p' t', fl_plans (cd_fleet (backup_run (xs ++ ys) d0)) !! plan = Some p' ∧ pn_LastResultAt p' = Some t' ∧ t ≤ t'.
Proof using Type.
  intros H0 Hp Hpl Ht. split; [|by eapply (fw_plans _ _ (history_forward _ _ _ H0 Hp))]. apply backup_permitted_app in Hp as [Hx _].
  pose proof (bi_plans _ (history_ok _ _ H0 Hx) _ _ Hpl) as Hv. unfold vouches in Hv. by rewrite Ht in Hv.
Qed.

(** C23: The counters of an operation are those of the progress event with the
    highest sequence number, or of the summary of its result: a report that
    arrives late never sets them back. *)
Theorem counters_follow_newest_event (d0 : CentralDb) (xs : list backup_event) (id : uuid) (o : BackupOperation) :
  no_runs d0 → backup_permitted xs d0 → runs (backup_run xs d0) !! id = Some o → counted (backup_run xs d0) o.
Proof using Type. intros H0 Hp Ho. by apply (bi_counted _ (history_ok _ _ H0 Hp) id). Qed.

(** C18: Acknowledged log entries are stored without gaps.  When the control plane
    acknowledges the log of an operation through [ack], the operation is the
    Agent's, every entry of the chunk is covered, those not acknowledged before
    are stored as they were sent, and in every continuation the entries 1 to [ack]
    are there, each under its number, within the limit of 10 MiB. *)
Theorem acknowledged_logs_are_stored (d0 : CentralDb) (xs ys : list backup_event) (capable : bool) (agent : uuid) (m : JobLogChunk)
    (meta : RequestMeta) (e : StreamEnv) (id : uuid) (ack : Z) :
  let d := backup_run xs d0 in let x := LogsReported capable agent m meta e in let d' := backup_run (xs ++ x :: ys) d0 in
  no_runs d0 → backup_permitted (xs ++ x :: ys) d0 → (handleJobLogChunk capable agent m meta e d).1 = SentLogAccepted id ack →
  (∃ o, runs d !! id = Some o ∧ bo_AgentID o = agent) ∧
  (∃ entries, decode_entries (jl_EntriesJson m) = Some entries ∧ Forall (λ e, le_Sequence e ≤ ack) entries ∧
     ∀ x, x ∈ entries → lh_AckSequence (default (mkLogHead 0 0) (log_heads d !! id)) < le_Sequence x → log_rows d' !! (id, le_Sequence x) = Some x) ∧
  ∃ h l, log_heads d' !! id = Some h ∧ ack ≤ lh_AckSequence h ∧ logged_to d' id (lh_AckSequence h) (lh_BytesReceived h) l.
Proof using Type.
  intros d x d' H0 Hp Ha. pose proof Hp as [Hxs [_ Hys]]%backup_permitted_app. pose proof (history_ok _ _ H0 Hxs) as Hok. fold d in Hok, Hys.
  destruct (logs_reaches capable agent m meta e d Hok) as [Hr Hq]. destruct (Hq _ _ Ha) as (_ & Ho & (h & Hh & Hack) & entries & He & Hle & Hsent).
  fold x in Hys. assert (Hok1 : backup_ok (backup_apply x d)) by by apply (steps_ok d).
  assert (Hd' : d' = backup_run ys (backup_apply x d)).
  { unfold d'. replace (xs ++ x :: ys) with ((xs ++ [x]) ++ ys) by by rewrite <- app_assoc. by rewrite run_app, run_app. }
  destruct (backup_run_ok _ _ Hok1 Hys) as [Hok' Hf]. rewrite <- Hd' in Hok', Hf. split; [done|]. split.
  - exists entries. split_and!; [done|done|]. intros y Hy Hn. eapply lookup_weaken; [by apply Hsent|apply (fw_logs _ _ Hf)].
  - destruct (fw_heads _ _ Hf _ _ Hh) as (h' & Hh' & Hl). pose proof (bi_logs _ Hok' id) as L. unfold logged in L. rewrite Hh' in L.
    destruct L as (_ & l & L). exists h', l. split_and!; [done|lia|done].
Qed.

(** C20: A round of the reconciler leaves nothing overdue: on a database that answers,
    it returns, and after it no cancellation of an operation that never started is
    older than two minutes, no operation still runs that began before a boot of its
    Agent more than two minutes ago, and every active plan whose next run is
    overdue says so. *)
Theorem reconciler_closes_everything_overdue (d0 : CentralDb) (xs : list backup_event) (e : RoundEnv) :
  let d := backup_run xs d0 in let now := rc_now e in
  no_runs d0 → backup_permitted xs d0 → works (rc_close e) → works (rc_lost e) → works (rc_health e) → works (rc_pages e) →
  ∃ n d', ReconcileOperations e d = (Ok n, d') ∧ (∀ id o, runs d' !! id = Some o →
    unstarted_cancel (now - cancelClosureGrace) d' o = false ∧ of_earlier_boot (now - lostReconciliationGrace) d' o = false) ∧
    ∀ id p, fl_plans (cd_fleet d') !! id = Some p → overdue_plan now p = true → pn_BackupHealth p = "OVERDUE".
Proof using Type. intros d now H0 Hp H1 H2 H3 H4. apply round_closes; [by apply history_ok|done..]. Qed.

(** C21: The control plane's record of backup operations refines its specification:
    every history of messages, requests and rounds is a sequence of steps that
    open an operation, move it forward, record an event, hand a result to its plan,
    remember an answer or append to a log. *)
Theorem backups_refine_specification (d0 : CentralDb) (xs : list backup_event) :
  no_runs d0 → backup_permitted xs d0 → rtc backup_step d0 (backup_run xs d0).
Proof using Type. intros H0 Hp. apply run_reaches; [by apply no_runs_ok|done]. Qed.

(** C17: Results of an orphaned retry are refused for ever.  Once an operation has
    ended otherwise than by a failure that may be retried (closed as lost after a
    reboot, canceled, or a late result that was dropped), every result an Agent
    reports for a retry of it that the control plane has not seen is answered by
    ending the stream, in every continuation; the Agent, which keeps a result until
    it is acknowledged, can never deliver it. *)
Theorem orphaned_retry_is_refused_forever (d0 : CentralDb) (xs ys : list backup_event) (capable : bool) (agent : uuid) (m : JobResultMessage)
    (meta : RequestMeta) (e : StreamEnv) (id parent : uuid) :
  let d := backup_run (xs ++ ys) d0 in
  no_runs d0 → backup_permitted (xs ++ ys) d0 → orphaned (backup_run xs d0) parent →
  Parse (jr_OperationId m) = Some id → runs d !! id = None → jr_ParentOperationId m ≠ "" → Parse (jr_ParentOperationId m) = Some parent →
  (handleJobResult capable agent m meta e d).1 = InvalidArgument ∨ (handleJobResult capable agent m meta e d).1 = Unavailable.
Proof using Type.
  intros d H0 Hp (x & Hx & Hend & Hno) Hid Hn Hpar Hparent.
  assert (Horph : orphaned d parent).
  { destruct (fw_runs _ _ (history_forward _ _ _ H0 Hp) _ _ Hx) as (x' & Hx' & [->|[Hopen _]]); [by exists x|congruence]. }
  unfold handleJobResult. cbv zeta. rewrite Hid. destruct (Parse (jr_PlanId m)) as [plan|]; [|by apply invalid_refuses with (1 := eq_refl)].
  destruct (jr_ScheduledAt m) as [s|]; [|by apply invalid_refuses with (1 := eq_refl)].
  destruct (jr_FinishedAt m) as [t|]; [|by apply invalid_refuses with (1 := eq_refl)].
  destruct (_ || _); [by apply invalid_refuses with (1 := eq_refl)|].
  destruct (reportedOperationLinks _ _ _) as [[p root]|] eqn:Hl; [|by apply invalid_refuses with (1 := eq_refl)].
  pose proof (links_parent _ _ _ _ _ Hl _ Hparent Hpar) as ->.
  destruct (result_summary _) as [summary|]; [|by apply invalid_refuses with (1 := eq_refl)].
  match goal with |- context [RecordOperationResult ?p ?e d] => set (r := p);
    assert (Hr : (RecordOperationResult r e d).1 ≠ Ok ()) end.
  { intros Hx'%record_stored.
    by apply result_reportable, (orphaned_unreportable _ _ parent) in Hx'. }
  destruct (RecordOperationResult r _ d) as [[[]|y] d']; [done|]. destruct (blames_agent _ _); [by apply invalid_refuses with (1 := eq_refl)|by right].
Qed.

(** A manual run or a cancellation that is granted was either remembered or found
    an operation in a state that allows it. *)
Lemma retry_granted id key actor meta e d x o :
  runs d !! id = Some x → Operation.OperationTerminal (bo_Status x) = false → (RetryBackupOperation id key actor meta e d).1 = Ok o →
  ∃ t, is_Some (answered (backupRequestKey (us_ID actor) (backup_route id true) key "") t d).
Proof using Type.
  intros Hx H1. unfold RetryBackupOperation, queueManualBackup. destruct (_ != RoleAdmin).
  { intros Ho. by destruct (proj2 (refuse_fleet (A := BackupOperation) "BACKUP_OPERATION_RETRY" "BACKUP_OPERATION" meta e d) o). }
  destruct (validateOperationKey key); [done|]. destruct (ce_id e) as [new|]; [|done]. rewrite stored_eq. cbn [fst].
  set (request := backupRequestKey _ _ _ _). intros Ho%stored_ok. revert Ho.
  apply (wp_run _ (λ r _, r = Ok o → ∃ t, is_Some (answered request t d))).
  apply wp_bind, wp_userAudit. intros [event|y]; [|done]. unfold CreateManualOperation. apply wp_bind, wp_lockRequest; [done| |].
  - unfold manual_lineage. apply wp_bind, wp_bind. unfold scanBackupOperation. apply wp_bind, wp_select; [done|]. intros _. rewrite Hx.
    apply wp_ret. rewrite H1. by apply wp_fail.
  - intros t row Hrow _. apply wp_any. intros _ _ _ _. exists t. by rewrite Hrow.
Qed.

Lemma cancel_granted id reason key actor meta e d x o :
  runs d !! id = Some x → bo_Status x ∈ terminal_statuses → (cpCancelBackupOperation id reason key actor meta e d).1 = Ok o →
  ∃ t, is_Some (answered (backupRequestKey (us_ID actor) (cancel_route id) key (TrimSpace reason)) t d).
Proof using Type.
  intros Hx H2. unfold cpCancelBackupOperation. destruct (_ != RoleAdmin).
  { intros Ho. by destruct (proj2 (refuse_fleet (A := BackupOperation) "BACKUP_OPERATION_CANCEL" "BACKUP_OPERATION" meta e d) o). }
  destruct (validateOperationKey key); [done|]. cbv zeta. destruct (512 <? _); [done|]. rewrite stored_eq. cbn [fst].
  set (request := backupRequestKey _ _ _ _). intros Ho%stored_ok. revert Ho.
  apply (wp_run _ (λ r _, r = Ok o → ∃ t, is_Some (answered request t d))).
  apply wp_bind, wp_userAudit. intros [event|y]; [|done]. unfold CancelBackupOperation. apply wp_bind, wp_lockRequest; [done| |].
  - unfold scanBackupOperation. apply wp_bind, wp_bind, wp_select; [done|]. intros _. rewrite Hx. apply wp_ret.
    rewrite bool_decide_eq_true_2 by done. by apply wp_fail.
  - intros t row Hrow _. apply wp_any. intros _ _ _ _. exists t. by rewrite Hrow.
Qed.

(** C25: A missed or skipped run can be neither canceled nor retried, ever: the
    list of final statuses that retries use lacks MISSED and CONCURRENCY_SKIPPED,
    which are final for cancellation.  In every continuation a request to retry it
    is refused with ErrOperationNotTerminal and a request to cancel it with
    ErrOperationTerminal, and nothing changes, when the user is an administrator,
    the request is well-formed and the database works; and no request of any user,
    on any database, is granted.  A request is a new one here: no answer to it is
    stored. *)
Theorem skipped_run_is_neither_canceled_nor_retried (d0 : CentralDb) (xs ys : list backup_event) (id : uuid) (x : BackupOperation)
    (key reason : string) (actor : User) (meta : RequestMeta) (e : CallEnv) :
  let d := backup_run (xs ++ ys) d0 in
  let retry := backupRequestKey (us_ID actor) (backup_route id true) key "" in
  let cancel := backupRequestKey (us_ID actor) (cancel_route id) key (TrimSpace reason) in
  let sound := answering (ce_save e) ∧ us_Role actor = RoleAdmin ∧ validateOperationKey key = None in
  no_runs d0 → backup_permitted (xs ++ ys) d0 → runs (backup_run xs d0) !! id = Some x → bo_Status x ∈ ["MISSED"; "CONCURRENCY_SKIPPED"] →
  (∀ t, answered retry t d = None) → (∀ t, answered cancel t d = None) →
  (∀ o, (RetryBackupOperation id key actor meta e d).1 ≠ Ok o) ∧ (∀ o, (cpCancelBackupOperation id reason key actor meta e d).1 ≠ Ok o) ∧
  (sound → usable retry → is_Some (ce_id e) → RetryBackupOperation id key actor meta e d = (Err (ErrStore ErrOperationNotTerminal), d)) ∧
  (sound → usable cancel → slen (TrimSpace reason) ≤ 512 →
     cpCancelBackupOperation id reason key actor meta e d = (Err (ErrStore ErrOperationTerminal), d)).
Proof using Type.
  intros d retry cancel sound H0 Hp Hx0 Hst Hnr Hnc.
  assert (Hx : runs d !! id = Some x).
  { destruct (fw_runs _ _ (history_forward _ _ _ H0 Hp) _ _ Hx0) as (x' & Hx' & Hl). apply backup_permitted_app in Hp as [Hxs _].
    pose proof (ro_ended _ (bi_rows _ (history_ok _ _ H0 Hxs) _ _ Hx0)) as Hend.
    destruct Hl as [->|[Hopen _]]; [done|]. exfalso. unfold open_run in Hopen. destruct (bo_FinishedAt x) eqn:Hf; [done|].
    assert (Hb : is_Some (@None time)) by (apply Hend; revert Hst; rewrite !elem_of_cons; intros [->|[->|?%not_elem_of_nil]]; [by apply (bool_decide_unpack _)..|done]).
    by destruct Hb. }
  assert (Hterm : Operation.OperationTerminal (bo_Status x) = false ∧ bo_Status x ∈ terminal_statuses).
  { revert Hst. rewrite !elem_of_cons. intros [->|[->|?%not_elem_of_nil]]; [..|done]; (split; [done|by apply (bool_decide_unpack _)]). }
  destruct Hterm as [H1 H2]. split_and!.
  - intros o Ho. destruct (retry_granted _ _ _ _ _ _ _ _ Hx H1 Ho) as [t Ht]. exact (proj1 (eq_None_not_Some _) (Hnr t) Ht).
  - intros o Ho. destruct (cancel_granted _ _ _ _ _ _ _ _ _ Hx H2 Ho) as [t Ht]. exact (proj1 (eq_None_not_Some _) (Hnc t) Ht).
  - intros (He & Hr & Hk) Hu [new Hnew]. unfold RetryBackupOperation, queueManualBackup. rewrite Hr, Hk, Hnew, stored_eq. cbn [negb].
    rewrite bool_decide_eq_true_2 by done. cbn [negb]. rewrite (new_request_refused _ _ _ _ _ _ _ _ _ retry _ _ ErrOperationNotTerminal He Hu Hnr); [done|].
    intros event. eexists. split; [reflexivity|]. intros n. unfold manual_lineage, tbind. rewrite (scan_answers _ _ _ _ _ (proj1 (proj1 He)) Hx).
    by rewrite H1.
  - intros (He & Hr & Hk) Hu Hlen. unfold cpCancelBackupOperation. cbv zeta. rewrite Hr, Hk, (bool_decide_eq_true_2 (RoleAdmin = _)), stored_eq by done.
    cbn [negb]. rewrite (proj2 (Z.ltb_ge _ _)) by done.
    rewrite (new_request_refused _ _ _ _ _ _ _ _ _ cancel _ _ ErrOperationTerminal He Hu Hnc); [done|].
    intros event. eexists. split; [reflexivity|]. intros n. unfold tbind. rewrite (scan_answers _ _ _ _ _ (proj1 (proj1 He)) Hx).
    by rewrite bool_decide_eq_true_2.
Qed.
End Safety.
