(* ===== verification/BackupExamples.v ===== *)
(** * BackupExamples: a plan's backups, from the request to the result

    A manual run that is claimed, accepted, observed, logged and ended; one that is
    canceled before it is claimed; scheduled runs that fail and are retried, that
    were missed, and that were lost; the theorems of BackupSafety at this history. *)

From Stdlib Require Import SpecFloat.
From S2P Require Import Prelude GoStd Uuid Platform Domain Plan DomainLogs GatewaySession GatewayAuth AuditChain PendingRecord.
From S2P Require Import CentralTx CentralStore CentralTrace CentralRefine CentralPlane CentralExamples StorageSecret StorageVault AgentLogs.
From S2P Require Import AgentDispatch SnapshotService BackupStore BackupSpec BackupRefine BackupPlane BackupStream BackupHistory BackupSafety.
Open Scope Z_scope.
Open Scope go_scope.
Open Scope central_scope.

Definition ex_entry (n : Z) : BackupLogEntry := mkLogEntry n (at_ (40 + n)) "backup" "INFO" "BACKUP_PROGRESS" n 0.
Definition ex_report_summary : BackupSummary := mkSummary 5 0 0 0 0 0 700 600 9 900 None None (S754_zero false) 0.
#[local] Instance ex_reports : ReportCodec := {|
  decode_entries s := if s == "1-2" then Some [ex_entry 1; ex_entry 2] else None;
  decode_summary s := if s == "summary" then Some ex_report_summary else None |}.

(** ** The plan *)

Definition ex_plan_id : uuid := v7 20.
Definition ex_agent : uuid := v7 4.
Definition ex_plan : PlanRow :=
  mkPlanRow (v7 5) ex_agent (v7 6) None "ACTIVE" 3 "sha256:1" 3600 "NEVER_RUN" (Some (at_ 86400)) None None None (at_ 0).
Definition ex_planned : CentralDb := set_plans {[ex_plan_id := ex_plan]} ex_start.

Definition ex_meta : RequestMeta := mkMeta uuid_Nil "".
Definition ex_admin : User := mkUser (v7 30) RoleAdmin.
Definition ex_request (n : N) (t : Z) : CallEnv :=
  mkCallEnv (ex_env t) (ex_env t) (ex_env t) (ex_env t) (ex_env t) (Some (v7 n)) (at_ t) ex_sealing.
Definition ex_stream (t : Z) : StreamEnv := mkStreamEnv (at_ t) (ex_env t) (ex_env t).

Definition ex_run : uuid := v7 21.
Definition ex_canceled : uuid := v7 22.
Definition ex_failed : uuid := v7 23.
Definition ex_retry : uuid := v7 24.
Definition ex_missed : uuid := v7 25.
Definition ex_lost : uuid := v7 26.
Definition ex_orphan : uuid := v7 27.
Definition ex_snapshot_id : string := hex_encode (bytes_be 32 9).

Definition ex_progress (id : uuid) (sequence files t : Z) : JobProgressMessage :=
  mkProgressMessage (UString id) (UString ex_plan_id) 3 (Some (at_ 10)) sequence "backup" files 9 (files * 100) 900 (Some (at_ t)) "" "" 0.
Definition ex_result (id : uuid) (status code snapshot summary : string) (files data t : Z) : JobResultMessage :=
  mkResultMessage (UString id) (UString ex_plan_id) 3 (Some (at_ 10)) status code 0 snapshot files data (Some (at_ t)) "" "" 0 summary.
Definition ex_retried (id parent : uuid) (status : string) (t : Z) : JobResultMessage :=
  mkResultMessage (UString id) (UString ex_plan_id) 3 (Some (at_ 10)) status "" 0 "" 0 0 (Some (at_ t)) (UString parent) (UString parent) 2 "".

Definition ex_result_event (m : JobResultMessage) (t : Z) : backup_event := ResultReported true ex_agent m ex_meta (ex_stream t).

(** ** The history *)

Definition ex_trigger (n : N) (key : string) (t : Z) : backup_event := RunQueued ex_plan_id key false ex_admin ex_meta (ex_request n t).
Definition ex_backups : list backup_event :=
  [ex_trigger 21 "first" 10;
   JobClaimed ex_agent (at_ 20) (ex_env 20);
   AcceptanceReported ex_agent (UString ex_run) ex_meta (ex_stream 21);
   ProgressReported ex_agent (ex_progress ex_run 2 6 40) ex_meta (ex_stream 40);
   ProgressReported ex_agent (ex_progress ex_run 1 3 41) ex_meta (ex_stream 41);
   LogsReported true ex_agent (mkLogChunk (UString ex_run) 1 2 "1-2") ex_meta (ex_stream 50);
   ex_result_event (ex_result ex_run "SUCCEEDED" "" ex_snapshot_id "summary" 5 700 60) 61;
   ex_trigger 22 "second" 70;
   RunCanceled ex_canceled " not now " "third" ex_admin ex_meta (ex_request 31 71);
   JobClaimed ex_agent (at_ 80) (ex_env 80);
   ex_result_event (ex_result ex_failed "FAILED" "GATEWAY_UNAVAILABLE" "" "" 0 0 90) 91;
   ex_result_event (ex_retried ex_retry ex_failed "SUCCEEDED" 95) 96;
   ex_result_event (ex_result ex_missed "MISSED" "MISFIRE_GRACE_EXCEEDED" "" "" 0 0 100) 101;
   ex_result_event (ex_result ex_lost "LOST" "LOCAL_OPERATION_RECOVERED" "" "" 0 0 110) 111;
   ex_result_event (ex_retried ex_orphan ex_lost "SUCCEEDED" 120) 121].
Definition ex_at (n : nat) : CentralDb := backup_run (take n ex_backups) ex_planned.
Definition ex_end : CentralDb := ex_at 15.

Lemma ex_no_runs : no_runs ex_planned.
Proof. split; [done|]. intros id p. cbn. by intros [<- <-]%lookup_singleton_Some. Qed.
Lemma ex_backups_permitted : backup_permitted ex_backups ex_planned.
Proof. by repeat split. Qed.
Lemma ex_allowed n : backup_permitted (take n ex_backups) ex_planned.
Proof. apply (backup_permitted_app (take n ex_backups) (drop n ex_backups)). rewrite take_drop. apply ex_backups_permitted. Qed.

(** What the history leaves of each operation. *)
Example backups_end :
  (λ id, (λ o, (bo_Status o, bo_Attempt o)) <$> runs ex_end !! id) <$> [ex_run; ex_canceled; ex_failed; ex_retry; ex_missed; ex_lost; ex_orphan] =
  [Some ("SUCCEEDED", 1); Some ("CANCELED", 1); Some ("FAILED", 1); Some ("SUCCEEDED", 2); Some ("MISSED", 1); Some ("LOST", 1); None] ∧
  (λ p, (pn_BackupHealth p, pn_LastResultAt p)) <$> fl_plans (cd_fleet ex_end) !! ex_plan_id = Some ("FAILED", Some (at_ 110)).
Proof. vm_compute. done. Qed.

Definition no_backup : BackupOperation :=
  mkBackup 0 0 0 "" "" "" 0 "" None None None None "" "" 0 0 0 0 0 0 None None None "" None 0 None.
Definition ex_row (n : nat) (id : uuid) : BackupOperation := default no_backup (runs (ex_at n) !! id).

(** ** Witnesses *)

(** The run of the 5th event goes on and ends. *)
Lemma runs_only_move_forward_witness :
  runs (ex_at 5) !! ex_run = Some (ex_row 5 ex_run) ∧
  ∃ o', runs ex_end !! ex_run = Some o' ∧ same_run (ex_row 5 ex_run) o' ∧ stage (bo_Status (ex_row 5 ex_run)) ≤ stage (bo_Status o') ∧
    (∀ t, bo_StartedAt (ex_row 5 ex_run) = Some t → bo_StartedAt o' = Some t) ∧
    (∀ t, bo_CancelRequestedAt (ex_row 5 ex_run) = Some t → bo_CancelRequestedAt o' = Some t) ∧
    (bo_Status (ex_row 5 ex_run) ∈ terminal_statuses → o' = ex_row 5 ex_run).
Proof.
  assert (Ho : runs (ex_at 5) !! ex_run = Some (ex_row 5 ex_run)) by (vm_compute; reflexivity). split; [exact Ho|].
  apply (runs_only_move_forward ex_planned (take 5 ex_backups) (drop 5 ex_backups) ex_run (ex_row 5 ex_run) ex_no_runs ex_backups_permitted Ho).
Defined.

Lemma runs_well_formed_witness : bo_ID (ex_row 15 ex_missed) = ex_missed ∧ run_ok (ex_row 15 ex_missed).
Proof. apply (runs_well_formed ex_planned ex_backups ex_missed _ ex_no_runs ex_backups_permitted). vm_compute. reflexivity. Defined.

Lemma retries_descend_from_their_root_witness :
  ∃ l, lineage ex_end (ex_row 15 ex_retry) l ∧ Z.of_nat (length l) + 1 = bo_Attempt (ex_row 15 ex_retry) ∧
    Forall (λ x, bo_PlanID x = bo_PlanID (ex_row 15 ex_retry) ∧ open_run x = false) l ∧
    root_of (ex_row 15 ex_retry) = bo_ID (default (ex_row 15 ex_retry) (last l)).
Proof. apply (retries_descend_from_their_root ex_planned ex_backups ex_retry _ ex_no_runs ex_backups_permitted). vm_compute. reflexivity. Defined.

Definition ex_success : JobResultMessage := ex_result ex_run "SUCCEEDED" "" ex_snapshot_id "summary" 5 700 60.
Lemma acknowledged_result_is_recorded_witness :
  ∃ r, acknowledges ex_agent ex_success r ∧ recorded r (ex_at 6) (ex_at 7) ∧
    runs ex_end !! bres_OperationID r = runs (ex_at 7) !! bres_OperationID r.
Proof.
  apply (acknowledged_result_is_recorded ex_planned (take 6 ex_backups) (drop 7 ex_backups) true ex_agent ex_success ex_meta (ex_stream 61)
    (UString ex_run) ex_no_runs ex_backups_permitted). vm_compute. reflexivity.
Defined.

(** The claim of the 2nd event sends another operation, and so would any claim
    after the cancellation, the 9th event. *)
Lemma canceled_queued_run_is_never_sent_witness :
  UString ex_run ≠ UString ex_canceled ∧
  ∀ ys1 ys2 agent now claim read meanwhile job, drop 9 ex_backups = ys1 ++ ys2 →
    (dispatchQueuedJob agent now claim read meanwhile (backup_run (take 9 ex_backups ++ ys1) ex_planned)).1 = Some job →
    jd_OperationId job ≠ UString ex_canceled.
Proof.
  pose proof (canceled_queued_run_is_never_sent ex_planned (take 8 ex_backups) (drop 9 ex_backups) ex_canceled " not now " "third" ex_admin ex_meta
    (ex_request 31 71) (ex_row 9 ex_canceled) ex_no_runs ex_backups_permitted ltac:(vm_compute; reflexivity) ltac:(vm_compute; reflexivity))
    as [Hlater Hbefore].
  assert (Hid : bo_ID (ex_row 9 ex_canceled) = ex_canceled) by (vm_compute; reflexivity). rewrite Hid in Hlater, Hbefore. split; [|exact Hlater].
  set (job := job_dispatch (at_ 20) (ex_row 1 ex_run)).
  assert (Hjob : jd_OperationId job = UString ex_run) by (vm_compute; reflexivity). rewrite <- Hjob.
  apply (Hbefore ltac:(vm_compute; reflexivity) (take 1 ex_backups) (drop 2 (take 8 ex_backups)) ex_agent (at_ 20) (ex_env 20) (ex_env 20) (λ d, d));
    [reflexivity|vm_compute; reflexivity].
Defined.

(** An hour later, on a clock that stands still. *)
Definition ex_hour : TxEnv := mkTxEnv (λ _, at_ 3600) (λ _, Some (v7 77)) (λ _, false) (λ _, Committed).
Definition ex_again : CallEnv :=
  mkCallEnv (ex_env 3600) (ex_env 3600) (ex_env 3600) (ex_env 3600) ex_hour (Some (v7 28)) (at_ 3600) ex_sealing.
Lemma repeated_request_is_answered_alike_witness :
  let again := queueManualBackup ex_plan_id "first" false ex_admin ex_meta ex_again (ex_at 1) in
  again.2 = ex_at 1 ∧ again.1 = Ok (ex_row 1 ex_run).
Proof.
  edestruct (repeated_request_is_answered_alike ex_planned [] ex_plan_id "first" false ex_admin ex_meta ex_meta (ex_request 21 10) ex_again
    (ex_row 1 ex_run) ex_no_runs I) as (Hsame & _ & Hanswer).
  - vm_compute. reflexivity.
  - intros row n Hrow. set (k := (_, _)) in Hrow.
    assert (He : bq_ExpiresAt <$> run_requests (ex_at 1) !! k = Some (at_ 10 + 8000000 + 24 * hour)) by (vm_compute; reflexivity).
    change (run_requests (ex_at 1) !! k = Some row) in Hrow. rewrite Hrow in He. apply Some_inj in He. cbn in He. rewrite He.
    vm_compute. reflexivity.
  - split; [exact Hsame|]. apply Hanswer; [|by eexists]. split; [split; intros n; reflexivity|intros n; by eexists].
Defined.

Lemma plans_name_their_last_result_witness :
  (∃ id o, Some ex_run = Some id ∧ runs (ex_at 7) !! id = Some o ∧ bo_PlanID o = ex_plan_id ∧ bo_FinishedAt o = Some (at_ 60)) ∧
  ∃ p' t', fl_plans (cd_fleet ex_end) !! ex_plan_id = Some p' ∧ pn_LastResultAt p' = Some t' ∧ at_ 60 ≤ t'.
Proof.
  set (p := default ex_plan (fl_plans (cd_fleet (ex_at 7)) !! ex_plan_id)).
  assert (Hp : pn_LastOperationID p = Some ex_run) by (vm_compute; reflexivity). rewrite <- Hp.
  apply (plans_name_their_last_result ex_planned (take 7 ex_backups) (drop 7 ex_backups) ex_plan_id p (at_ 60) ex_no_runs ex_backups_permitted);
    vm_compute; reflexivity.
Defined.

(** The event that came late did not set the counters back. *)
Lemma counters_follow_newest_event_witness : counted (ex_at 5) (ex_row 5 ex_run) ∧ bo_FilesDone (ex_row 5 ex_run) = 6.
Proof.
  split; [|vm_compute; reflexivity].
  apply (counters_follow_newest_event ex_planned (take 5 ex_backups) ex_run _ ex_no_runs (ex_allowed 5)). vm_compute. reflexivity.
Defined.

Definition ex_chunk : JobLogChunk := mkLogChunk (UString ex_run) 1 2 "1-2".
Lemma acknowledged_logs_are_stored_witness :
  (∃ o, runs (ex_at 5) !! ex_run = Some o ∧ bo_AgentID o = ex_agent) ∧
  (∃ entries, decode_entries "1-2" = Some entries ∧ Forall (λ e, le_Sequence e ≤ 2) entries ∧
     ∀ x, x ∈ entries → lh_AckSequence (default (mkLogHead 0 0) (log_heads (ex_at 5) !! ex_run)) < le_Sequence x →
       log_rows ex_end !! (ex_run, le_Sequence x) = Some x) ∧
  ∃ h l, log_heads ex_end !! ex_run = Some h ∧ 2 ≤ lh_AckSequence h ∧ logged_to ex_end ex_run (lh_AckSequence h) (lh_BytesReceived h) l.
Proof.
  apply (acknowledged_logs_are_stored ex_planned (take 5 ex_backups) (drop 6 ex_backups) true ex_agent ex_chunk ex_meta (ex_stream 50) ex_run 2
    ex_no_runs ex_backups_permitted). vm_compute. reflexivity.
Defined.

Definition ex_round : RoundEnv := mkRoundEnv (at_ 90100) (ex_env 90100) (ex_env 90101) (ex_env 90102) (ex_env 90103).
Lemma ex_works t : works (ex_env t).
Proof. by split. Qed.
Lemma reconciler_closes_everything_overdue_witness :
  ∃ n d', ReconcileOperations ex_round ex_end = (Ok n, d') ∧ (∀ id o, runs d' !! id = Some o →
    unstarted_cancel (at_ 90100 - cancelClosureGrace) d' o = false ∧ of_earlier_boot (at_ 90100 - lostReconciliationGrace) d' o = false) ∧
    ∀ id p, fl_plans (cd_fleet d') !! id = Some p → overdue_plan (at_ 90100) p = true → pn_BackupHealth p = "OVERDUE".
Proof.
  apply (reconciler_closes_everything_overdue ex_planned ex_backups ex_round ex_no_runs ex_backups_permitted);
    [exact (ex_works 90100)|exact (ex_works 90101)|exact (ex_works 90102)|exact (ex_works 90103)].
Defined.

Lemma backups_refine_specification_witness : rtc backup_step ex_planned ex_end.
Proof. apply (backups_refine_specification ex_planned ex_backups ex_no_runs ex_backups_permitted). Defined.

Definition ex_orphan_result : JobResultMessage := ex_retried ex_orphan ex_lost "SUCCEEDED" 120.
Lemma orphaned_retry_is_refused_forever_witness :
  (handleJobResult true ex_agent ex_orphan_result ex_meta (ex_stream 130) ex_end).1 = InvalidArgument ∨
  (handleJobResult true ex_agent ex_orphan_result ex_meta (ex_stream 130) ex_end).1 = Unavailable.
Proof.
  apply (orphaned_retry_is_refused_forever ex_planned (take 14 ex_backups) (drop 14 ex_backups) true ex_agent ex_orphan_result ex_meta
    (ex_stream 130) ex_orphan ex_lost ex_no_runs ex_backups_permitted).
  - exists (ex_row 14 ex_lost). split_and!; [vm_compute; reflexivity|vm_compute; reflexivity|]. left. vm_compute. discriminate.
  - vm_compute. reflexivity.
  - vm_compute. reflexivity.
  - vm_compute. discriminate.
  - vm_compute. reflexivity.
Defined.

Lemma unanswered key t d : run_requests d !! (rk_Scope key, rk_Key key) = None → answered key t d = None.
Proof. unfold answered. by intros ->. Qed.

(** Both requests about the missed run are refused, each for the opposite reason. *)
Lemma skipped_run_is_neither_canceled_nor_retried_witness :
  RetryBackupOperation ex_missed "fourth" ex_admin ex_meta ex_again ex_end = (Err (ErrStore ErrOperationNotTerminal), ex_end) ∧
  cpCancelBackupOperation ex_missed "" "fourth" ex_admin ex_meta ex_again ex_end = (Err (ErrStore ErrOperationTerminal), ex_end).
Proof.
  assert (Hsound : answering ex_hour ∧ us_Role ex_admin = RoleAdmin ∧ validateOperationKey "fourth" = None).
  { split; [split; [split; intros n; reflexivity|intros n; by eexists]|]. split; vm_compute; reflexivity. }
  edestruct (skipped_run_is_neither_canceled_nor_retried ex_planned (take 13 ex_backups) (drop 13 ex_backups) ex_missed (ex_row 13 ex_missed)
    "fourth" "" ex_admin ex_meta ex_again ex_no_runs ex_backups_permitted) as (_ & _ & Hretry & Hcancel).
  - vm_compute. reflexivity.
  - left.
  - intros t. apply unanswered. vm_compute. reflexivity.
  - intros t. apply unanswered. vm_compute. reflexivity.
  - split; [apply (Hretry Hsound); [|by eexists]|apply (Hcancel Hsound); [|by vm_compute]]; split_and!; vm_compute; discriminate.
Defined.

(** ** A clock that lags *)

(** The Agent's new boot is known since second 200; its clock is 20 seconds late. *)
Definition ex_rebooted : CentralDb :=
  let f := cd_fleet ex_planned in
  set_fleet (mkFleet {[ex_agent := mkAgentRow (v7 5) "ACTIVE" (Some (at_ 200))]} (fl_hosts f) (fl_repositories f) (fl_deliveries f) (fl_operations f)
    (fl_events f) (fl_jobs f) (fl_leases f) (fl_idempotency f) (fl_plans f) (fl_snapshots f) (fl_pages f) (fl_backups f)) ex_planned.
Definition ex_late_success : JobResultMessage := ex_result ex_run "SUCCEEDED" "" ex_snapshot_id "summary" 5 700 380.
Definition ex_lagging : list backup_event :=
  [ProgressReported ex_agent (ex_progress ex_run 1 3 190) ex_meta (ex_stream 210);
   LostClosed (at_ 330) (ex_env 330);
   ex_result_event ex_late_success 400].

(** A run that began after the boot, by the Agent's clock before it, is closed as
    lost; its success is acknowledged and dropped with its snapshot. *)
Example run_of_the_present_boot_is_lost :
  let d := backup_run ex_lagging ex_rebooted in
  (handleJobResult true ex_agent ex_late_success ex_meta (ex_stream 400) (backup_run (take 2 ex_lagging) ex_rebooted)).1 =
    SentResultAccepted (UString ex_run) ∧
  (λ o, (bo_Status o, bo_ErrorCode o, bo_SnapshotID o)) <$> runs d !! ex_run = Some ("LOST", "LOCAL_OPERATION_RECOVERED", "") ∧
  fl_snapshots (cd_fleet d) = ∅.
Proof. vm_compute. done. Qed.
